(* ===== verification/_CoqProject ===== *)
-Q . S2P
Prelude.v
Bytes.v
CoreState.v
Pmm.v
PmmFacts.v
Vmm.v
VmmFacts.v
Sched.v
SchedFacts.v
Security.v
SecurityFacts.v
LibcString.v
LibcStringFacts.v
LibcStd.v
LibcStdFacts.v
Stdio.v
StdioFacts.v
StdioText.v
Qsort.v
QsortFacts.v
Crc32.v
Crc32Facts.v
Bztalloc.v
BztallocFacts.v
CoreLib.v
FsState.v
FsFacts.v
Fcb.v
FcbFacts.v
Pipe.v
PipeFacts.v
Devfs.v
Cache.v
CacheFacts.v
DevfsFacts.v
Vfs.v
VfsFacts.v
Mounts.v
MountsFacts.v
Taskctx.v
TaskctxFacts.v
CoreEnv.v
CoreEnvFacts.v
Msg.v
MsgFacts.v
MsgBuf.v
Initrd.v
InitrdFacts.v
Kernel.v
KernelFacts.v
Irq.v
IrqFacts.v
Elf.v
Task.v
TaskFacts.v
Drivers.v
Syscalls.v
SyscallsFacts.v
Lookup.v
Fsz.v
FszFacts.v
Server.v
ServerFacts.v
Answers.v
Client.v
ClientFacts.v
Dispatch.v
DispatchFacts.v
Mkfs.v
Mkcrypt.v
Mkdisk.v
MkfsFacts.v
MkfsTree.v
MkfsBuild.v
MkfsHost.v
MkfsImage.v
MkcryptFacts.v
MkcryptImage.v
MkdiskFacts.v
