(* ===== verification/Prelude.v ===== *)
(** * OS/Z: a verification development

    OS/Z is an operating system around a microkernel: a core in kernel mode, and tasks that
    talk to it and to each other by messages.  This library models the core, the C library,
    the FS task and the FS/Z driver as executable definitions over explicit states, and
    proves what their operations do.  Paths are those of the repository.

    ** The parts and how they interact

    - The core (src/core) owns the physical pages (pmm.c), the address spaces (vmm.c), the
      tasks and their queues (sched.c, task.c) and the message queues (msg.c).  A message
      to task 0 is a call of the core (msgcore.c).  Programs are loaded by elf.c, first out
      of the initial ram disk (fs.c), later through the FS task; drivers.c starts the first
      tasks and routes interrupts to drivers.
    - The FS task (src/fs) serves files: its loop (main.c) takes one message at a time and
      answers it, over paths and blocks (vfs.c), control blocks (fcb.c), pipes (pipe.c),
      devices (devfs.c), mounts (mtab.c), a block cache (cache.c) and open files per task
      (taskctx.c).  A block that is not in the cache is asked from the device's task, and
      the request is put aside and run again when the block has come.
    - A file system driver (src/drivers/fs/fsz) finds paths and blocks for the FS task.
    - The C library (src/libc) is linked to every task; the core has a small one (libc.c).
      Its calls of the core and of the FS task are messages that wait for an answer
      (stdio.c, stdlib.c, syslog.c); services serve theirs by the functions they export
      (dispatch.c).
    - The image creator (tools/mkfs.c) runs on the host: it makes the images of file systems
      that the core and the driver read, encrypts them, and puts disks together.

    ** The files

    A file X.v holds definitions, XFacts.v their theorems; a theorem over several parts has
    a file of its own.
<<
      Prelude            integers, the monad of the C code, arrays, tactics
      CoreState          constants of the core, the task control block
      Pmm                src/core/pmm.c                  PmmFacts
      Vmm                src/core/vmm.c, x86_64/vmm.c    VmmFacts
      Sched              src/core/sched.c                SchedFacts
      Security           src/core/security.c             SecurityFacts
      Msg                src/core/msg.c                  MsgFacts, MsgBuf (buffers)
      CoreLib            src/core/libc.c
      CoreEnv            src/core/env.c, clock.c         CoreEnvFacts
      Initrd             src/core/fs.c                   InitrdFacts
      Kernel             the core's state, fault.c       KernelFacts
      Irq                syslog.c, clock.c, drivers.c    IrqFacts
      Elf                src/core/elf.c
      Task               src/core/task.c                 TaskFacts
      Drivers            src/core/drivers.c
      Syscalls           src/core/msgcore.c              SyscallsFacts
      LibcString         src/libc/string.c               LibcStringFacts
      LibcStd            src/libc/stdlib.c, env.c        LibcStdFacts
      Stdio              src/libc/stdio.c                StdioFacts, StdioText (the text of
                                                         a format)
      Qsort              src/libc/qsort.c                QsortFacts
      Crc32              src/libc/crc32.h                Crc32Facts
      Bztalloc           src/libc/bztalloc.c             BztallocFacts
      FsState            the state of src/fs             FsFacts
      Fcb, Pipe, Devfs   src/fs/fcb.c, pipe.c, devfs.c   FcbFacts, PipeFacts, DevfsFacts
      Cache, Vfs         src/fs/cache.c, vfs.c           CacheFacts, VfsFacts
      Mounts             src/fs/fsdrv.c, mtab.c          MountsFacts
      Taskctx            src/fs/taskctx.c                TaskctxFacts
      Lookup             lookup of vfs.c, unions, fstab
      Server             src/fs/main.c                   ServerFacts
      Fsz                src/drivers/fs/fsz/main.c       FszFacts
      Answers            the FS task and its client through the core
      Client             library calls: stdio.c,         ClientFacts
                         stdlib.c, syslog.c
      Dispatch           src/libc/dispatch.c             DispatchFacts
      Bytes              numbers as bytes and blocks of bytes, for the image creator
      Mkfs               tools/mkfs.c: images            MkfsFacts (linking), MkfsTree (images
                                                         as trees), MkfsBuild (adding), MkfsHost
                                                         (trees of the host), MkfsImage
      Mkcrypt            tools/mkfs.c: encryption        MkcryptFacts (ciphers), MkcryptImage
      Mkdisk             tools/mkfs.c: disks             MkdiskFacts
>>
    The operations keep the names of the C functions.  The state of a part is one record;
    the parts of the core are put together in [Kernel.kern_t], whose field [core] is the
    state of Msg, which holds those of Sched, Pmm and Vmm; [Kernel.on_core] and its like
    run a part's operation on the whole.

    ** How the code is modelled

    - Code is a function from a state to a result: a value and the next state, undefined
      behaviour ([UB]: a null or freed pointer, an index outside its array), an exit with a
      code (panics, and calls that do not come back), or [Loop], out of fuel, and a
      call of the library that waits for an answer that never comes.  Loops are
      [iter] with fuel; a theorem about a loop gives the fuel that is enough.
    - Integers are [Z] with the wrap-around of their C type written out.
    - Arrays that the code reallocates are lists, and pointers into them are indices.
      Growth fills with zeros, and an allocation that shrinks succeeds unless the code
      tests it; bytes behind a trimmed end are not kept.  An ordinary allocation can fail:
      its answers are a parameter ([Kernel.Heap], [FsState.FsEnv], the arguments of the
      libraries' sections).  Freeing leaves errno as it is.
    - Blocks of a device and the buffers of messages are lists of bytes that travel by
      value.  Sending records an event and takes its error code from the environment.
    - In the core, memory is physical frames of 512 words.  Kernel reads and writes bytes
      at virtual addresses through the page tables of the current address space; the tables
      are changed through the windows the code maps, which are registers of the state.
      Translation buffers of the CPU are not modelled.  Task control blocks and the page
      of the loader are records.  The queue of messages keeps the entries of its first page
      table, and the pages of buffers, next to the frames; a new task or address space
      starts them afresh.
    - A comparison with an empty string is an equality to the code: [FsState.streq] stands
      for it where neither side is empty, the core's comparisons are written out.
    - The image creator works on one list of bytes; a place in it is an index, and an access
      outside is [UB].  The files and directories of the host, its sort and its random bytes
      are parameters.
    - In Client and Dispatch the other side of a message is a parameter: the task that
      answers, or the functions of the service.
    - What runs outside src is a parameter: the drivers that the FS task calls
      ([FsState.FsDrivers]), the entropy of the CPU ([Pmm.Entropy]), comparison functions,
      the files the loader gets from the FS task.
    - The build is that of the Makefile: DEBUG=0, x86_64 on ibmpc.

    ** The theorems

    - Memory: what a page allocation takes and a release gives back, as sets of addresses,
      with the invariant of the region table; slots; blocks of the heap are fresh and apart
      and freeing removes one; a buffer that is mapped changes the translation of its pages
      only, with pages that were free.
    - Tasks: the doubly linked queues of the scheduler as lists, and its choice as a round
      robin by priority; the argument block of a new program reads back.
    - Messages: under the calls of the core that send and receive, a queue with room and
      all its pages is a first-in first-out list, and a message sent is received; where
      messages are lost; the buffer of a message in the receiver's memory, and when it runs
      out of its page table; who may call what; what the answer of a system call writes.
    - Interrupts: the form of the routing table under any sequence of steps, and the clock
      as a function of the number of its interrupts.
    - Files: paths in a disk are found by the FS/Z driver and by the core's own reader; the
      block of a file by the digits of its number; canonical paths; control blocks, open
      files, cache, pipes, order of devices; what becomes of an answer of the FS task,
      through its service loop, the sender and the receiver together.
    - Calls: nineteen library calls on files each ask the FS task once, for the operation of
      the name with its arguments, and hand back an answer with their number; the answers
      the FS task sends do not have it, so the client waits for ever; a service calls what
      it exports only, once for each message.
    - Libraries: the sort ends and sorts; the checksum is a division of polynomials and
      detects bursts; formatted text that fits is written, and what a full buffer suffers;
      dates are Gregorian; parsing the start-up environment ends and, where it is defined,
      keeps limits.
    - Images: the files of a directory for an initial ram disk, within limits on names,
      sizes and depth, are found in the image that was made of it, by the look-up of the
      core, with their bytes; an image that was encrypted decrypts to
      itself, for both ciphers and every pass phrase whose code is not 0; the table of partitions of a disk is
      valid and names the sectors of each partition.
    - Where the code does not do what it means to, the theorem states what it does, with
      the condition under which it does the intended (the counter of a full queue, the slot
      at the end of a region, the error code of an answer).

    ** Bounds and fuel

    Lists of tasks: a walk over a queue has as much fuel as there are tasks.  Sorting: one
    round per element.  Strings in memory: one round per byte.  The environment: one round
    per byte of the text.  The ring of messages has 192 slots of which 190 are used.
    Arrays of the sort are below 2G bytes, where its int distances are exact.  The image
    creator scans a directory in 25 rounds, one more than its entries; a path takes one round
    per byte; encrypting goes through the sectors of the file, decrypting through as many.
    Images are below 2G bytes, where its int sizes are exact, and disks below 512G.

    ** Not modelled

    - Start-up: pmm_init, vmm_init and main read the tables of the loader and the firmware;
      lang_init copies a dictionary at fixed offsets.  The dialogue that asks for the time.
    - aarch64 and its boards, assembly, the ports of the interrupt controllers.
    - The debugger, disassemblers and debug dumps, present in debug builds only; elf_sym,
      which serves the debugger; drawing on the console (kprintf.c).
    - Of the library: perror, which needs the texts of the language, and libui.  The system
      call instructions and locks of stdlib.S; how a call waits is in Msg.v.
    - Other device drivers (access to ports) and the other tools of the build (tools/).  Of
      the image creator: what it prints (ls, dump), the change of a type, which always
      crashes, the dictionaries, and main. *)
From Stdlib Require Export ZArith Lia ZifyBool.
From Stdlib Require Import List Bool String Ascii.
From stdpp Require Import base option list gmap.
#[global] Open Scope Z_scope.

(** * Machine integers

    C integers are [Z] values kept in range by explicit wrap-around. *)

Definition wrap (w x : Z) : Z := x mod 2 ^ w.

Definition u8 (x : Z) : Z := wrap 8 x.
Definition u16 (x : Z) : Z := wrap 16 x.
Definition u32 (x : Z) : Z := wrap 32 x.
Definition u64 (x : Z) : Z := wrap 64 x.

(** Two's complement reading of a [w]-bit pattern. *)
Definition sgn (w x : Z) : Z :=
  let y := wrap w x in if y <? 2 ^ (w - 1) then y else y - 2 ^ w.

Definition s32 (x : Z) : Z := sgn 32 x.
Definition s64 (x : Z) : Z := sgn 64 x.

(** [-1U] is the 32 bit constant, [-1UL] and [(size_t)-1] the 64 bit one:
    the sources mix the two. *)
Definition m1U : Z := 4294967295.
Definition m1UL : Z := 18446744073709551615.

(** [a & m] tested as a C condition. *)
Definition has (a m : Z) : bool := negb (Z.land a m =? 0).

(** * Results of running C code *)

(** [Ret]: the code returns a value and a state.  [Exit]: the process or the
    machine stops ([exit], [kpanic]).  [UB]: an access the C standard leaves
    undefined (null pointer, index outside the array, freed memory).
    [Loop]: the given fuel was not enough. *)
Inductive outcome (S A : Type) : Type :=
| Ret (a : A) (s : S)
| Exit (code : Z) (s : S)
| UB
| Loop.
Arguments Ret {S A}.
Arguments Exit {S A}.
Arguments UB {S A}.
Arguments Loop {S A}.

Definition M (S A : Type) : Type := S -> outcome S A.

Definition ret {S A} (a : A) : M S A := fun s => Ret a s.
Definition bind {S A B} (m : M S A) (k : A -> M S B) : M S B :=
  fun s => match m s with
           | Ret a s' => k a s'
           | Exit c s' => Exit c s'
           | UB => UB
           | Loop => Loop
           end.
Definition get {S} : M S S := fun s => Ret s s.
Definition gets {S A} (f : S -> A) : M S A := fun s => Ret (f s) s.
Definition put {S} (s : S) : M S unit := fun _ => Ret tt s.
Definition modify {S} (f : S -> S) : M S unit := fun s => Ret tt (f s).
Definition stop {S A} (c : Z) : M S A := fun s => Exit c s.
Definition ub {S A} : M S A := fun _ => UB.
Definition loop {S A} : M S A := fun _ => Loop.

Declare Scope osz_scope.
Delimit Scope osz_scope with osz.
Notation "x <-- m ;; k" := (bind m (fun x => k))
  (at level 100, m at next level, right associativity) : osz_scope.
Notation "'do2' x y <-- m ;; k" := (bind m (fun p => let '(x, y) := p in k))
  (at level 100, x name, y name, m at next level, right associativity) : osz_scope.
Notation "m ;;; k" := (bind m (fun _ => k))
  (at level 100, right associativity) : osz_scope.
#[global] Open Scope osz_scope.

(** [if(c) m;] without an else branch. *)
Definition when {S} (c : bool) (m : M S unit) : M S unit := if c then m else ret tt.

(** An access that must be in range: [None] is undefined behaviour. *)
Definition need {S A} (o : option A) : M S A :=
  match o with Some a => ret a | None => ub end.

(** * Arrays

    [zget] and [zset] are C array accesses with a 64 bit index. *)
Definition zget {A} (l : list A) (i : Z) : option A :=
  if i <? 0 then None else l !! Z.to_nat i.
Definition zset {A} (l : list A) (i : Z) (x : A) : list A :=
  if i <? 0 then l else <[Z.to_nat i := x]> l.
Definition zlen {A} (l : list A) : Z := Z.of_nat (length l).

(** * Record update

    [s <| f := v |>] is the C assignment [s->f = v]: the record [s] with one
    field replaced.  [Eta] names the constructor of a record applied to its own
    fields; the tactic abstracts the field [f] in it. *)
Class Eta (R : Type) : Type := eta : R -> R.
Ltac update_field proj v s :=
  let R := type of s in
  let inst := constr:(_ : Eta R) in
  let b := eval red in inst in
  let p := eval pattern proj in b in
  match p with
  | ?g _ => let r := eval cbv beta in (g (fun _ => v) s) in exact r
  end.
Notation "s <| f := v |>" := ltac:(update_field f v s)
  (at level 1, left associativity, only parsing) : osz_scope.

(** * Loops

    [iter n body a] runs [body] until it answers [inr]; [n] bounds the number
    of rounds. *)
Fixpoint iter {S A B} (n : nat) (body : A -> M S (A + B)) (a : A) : M S B :=
  match n with
  | O => loop
  | S n' => r <-- body a ;;
            match r with inl a' => iter n' body a' | inr b => ret b end
  end.

Lemma iter_S {S A B} n (body : A -> M S (A + B)) a :
  iter (Datatypes.S n) body a = bind (body a) (fun r => match r with inl x => iter n body x | inr v => ret v end).
Proof. done. Qed.

(** * Total correctness of a computation *)

Definition wp {S A} (m : M S A) (Q : A -> S -> Prop) (s : S) : Prop :=
  match m s with Ret a s' => Q a s' | _ => False end.

(** Weakest-precondition rules: one per construct, so that a proof walks the
    body of a function. *)
Section Wp.
Context {S : Type}.
Implicit Types s : S.

Lemma wp_ret {A} (a : A) (Q : A -> S -> Prop) s : Q a s -> wp (ret a) Q s.
Proof. done. Qed.

Lemma wp_bind {A B} (m : M S A) (k : A -> M S B) (Q : B -> S -> Prop) s :
  wp m (fun a => wp (k a) Q) s -> wp (bind m k) Q s.
Proof. unfold wp, bind. by destruct (m s). Qed.

Lemma wp_mono {A} (m : M S A) (P Q : A -> S -> Prop) s :
  wp m P s -> (forall a s', P a s' -> Q a s') -> wp m Q s.
Proof. unfold wp. destruct (m s); naive_solver. Qed.

Lemma wp_gets {A} (f : S -> A) (Q : A -> S -> Prop) s : Q (f s) s -> wp (gets f) Q s.
Proof. done. Qed.

Lemma wp_get (Q : S -> S -> Prop) s : Q s s -> wp get Q s.
Proof. done. Qed.

Lemma wp_modify (f : S -> S) (Q : unit -> S -> Prop) s :
  Q tt (f s) -> wp (modify f) Q s.
Proof. done. Qed.

Lemma wp_need {A} (o : option A) (a : A) (Q : A -> S -> Prop) s :
  o = Some a -> Q a s -> wp (need o) Q s.
Proof. by intros ->. Qed.

Lemma wp_when (c : bool) (m : M S unit) (Q : unit -> S -> Prop) s :
  (c = true -> wp m Q s) -> (c = false -> Q tt s) -> wp (when c m) Q s.
Proof. intros H1 H2. destruct c; simpl; [by apply H1|by apply H2]. Qed.

(** A loop whose invariant [I] comes with a measure terminates. *)
Lemma wp_iter {A B} (I : A -> S -> Prop) (mu : A -> S -> nat)
    (body : A -> M S (A + B)) (Q : B -> S -> Prop) :
  (forall a s, I a s ->
     wp (body a) (fun r s' => match r with
                              | inl a' => I a' s' /\ (mu a' s' < mu a s)%nat
                              | inr b => Q b s'
                              end) s) ->
  forall n a s, I a s -> (mu a s < n)%nat -> wp (iter n body a) Q s.
Proof.
  intros Hbody n. induction n as [|n IH]; intros a s HI Hn; [lia|].
  simpl. apply wp_bind. eapply wp_mono; [by apply Hbody|].
  intros [a'|b] s' Hr; [|done]. destruct Hr as [HI' Hlt].
  apply IH; [done|lia].
Qed.

(** More fuel does no harm. *)
Lemma wp_iter_more {A B} n k (body : A -> M S (A + B)) a (Q : B -> S -> Prop) s : wp (iter n body a) Q s -> wp (iter (n + k) body a) Q s.
Proof.
  revert a s. induction n as [|n IH]; intros a s H; [done|]. cbn [Nat.add iter] in *. unfold wp, bind in *.
  destruct (body a s) as [[a'|b] s'| | |]; try done. by apply IH.
Qed.

(** [wp] is a statement about the result of running the code. *)
Lemma wp_run {A} (m : M S A) (Q : A -> S -> Prop) s :
  wp m Q s <-> exists a s', m s = Ret a s' /\ Q a s'.
Proof. unfold wp. destruct (m s); naive_solver. Qed.

Lemma run_bind {A B} (m : M S A) (k : A -> M S B) s a s' :
  m s = Ret a s' -> bind m k s = k a s'.
Proof. unfold bind. by intros ->. Qed.

End Wp.

(** Partial correctness: a computation that runs out of fuel satisfies everything. *)
Definition wlp {S A} (m : M S A) (Q : A -> S -> Prop) (s : S) : Prop :=
  match m s with Ret a s' => Q a s' | Loop => True | _ => False end.

Section Wlp.
Context {S : Type}.
Implicit Types s : S.

Lemma wlp_bind {A B} (m : M S A) (k : A -> M S B) (Q : B -> S -> Prop) s :
  wlp m (fun a => wlp (k a) Q) s -> wlp (bind m k) Q s.
Proof. unfold wlp, bind. by destruct (m s). Qed.

Lemma wlp_mono {A} (m : M S A) (P Q : A -> S -> Prop) s :
  wlp m P s -> (forall a s', P a s' -> Q a s') -> wlp m Q s.
Proof. unfold wlp. destruct (m s); naive_solver. Qed.

Lemma wlp_wp {A} (m : M S A) (Q : A -> S -> Prop) s : wp m Q s -> wlp m Q s.
Proof. unfold wp, wlp. by destruct (m s). Qed.

Lemma wlp_iter {A B} (I : A -> S -> Prop) (body : A -> M S (A + B)) (Q : B -> S -> Prop) :
  (forall a s, I a s ->
     wlp (body a) (fun r s' => match r with inl a' => I a' s' | inr b => Q b s' end) s) ->
  forall n a s, I a s -> wlp (iter n body a) Q s.
Proof.
  intros Hbody n. induction n as [|n IH]; intros a s HI; [done|].
  simpl. apply wlp_bind. eapply wlp_mono; [by apply Hbody|]. intros [a'|b] s' Hr; [by apply IH|done].
Qed.

(** What satisfies nothing never returns. *)
Lemma wlp_never {A} (m : M S A) s : wlp m (fun _ _ => False) s -> m s = Loop.
Proof. unfold wlp. by destruct (m s). Qed.

End Wlp.

#[global] Arguments iter : simpl never.

(** One step of a [wp] proof. *)
Ltac wp_step :=
  match goal with
  | |- wp (bind _ _) _ _ => apply wp_bind
  | |- wp (ret _) _ _ => apply wp_ret
  | |- wp (gets _) _ _ => apply wp_gets
  | |- wp get _ _ => apply wp_get
  | |- wp (modify _) _ _ => apply wp_modify
  | |- wp (when _ _) _ _ => apply wp_when; intros ?
  | |- wp (if ?c then _ else _) _ _ => let E := fresh "Hc" in destruct c eqn:E
  end.
Ltac wp_go := repeat (wp_step; cbn beta).

(** Boolean side conditions as propositions. *)
Ltac b2p :=
  repeat match goal with
  | H : (_ && _) = true |- _ => apply andb_prop in H; destruct H
  | H : (_ || _) = false |- _ => apply orb_false_elim in H; destruct H
  | H : negb _ = true |- _ => apply negb_true_iff in H
  | H : negb _ = false |- _ => apply negb_false_iff in H
  | H : (_ =? _) = true |- _ => apply Z.eqb_eq in H
  | H : (_ =? _) = false |- _ => apply Z.eqb_neq in H
  | H : (_ <? _) = true |- _ => apply Z.ltb_lt in H
  | H : (_ <? _) = false |- _ => apply Z.ltb_ge in H
  | H : (_ <=? _) = true |- _ => apply Z.leb_le in H
  | H : (_ <=? _) = false |- _ => apply Z.leb_gt in H
  end.

Create HintDb osz.
Create Rewrite HintDb osz.
#[export] Hint Resolve wp_ret wp_bind wp_gets wp_get wp_modify : osz.

(** * Lemmas on arrays *)

Section Arrays.
Context {A : Type}.
Implicit Types l : list A.

Lemma zlen_nonneg l : 0 <= zlen l.
Proof. unfold zlen. lia. Qed.

Lemma zget_Some_lt l i x : zget l i = Some x -> 0 <= i < zlen l.
Proof.
  unfold zget, zlen. destruct (Z.ltb_spec i 0); [done|].
  intros Hl%lookup_lt_Some. lia.
Qed.

Lemma zget_is_Some l i : 0 <= i < zlen l -> is_Some (zget l i).
Proof.
  unfold zget, zlen. intros ?. destruct (Z.ltb_spec i 0); [lia|].
  apply lookup_lt_is_Some. lia.
Qed.

Lemma zlen_zset l i x : zlen (zset l i x) = zlen l.
Proof. unfold zlen, zset. case_match; [done|]. by rewrite length_insert. Qed.

Lemma zget_zset_eq l i x : 0 <= i < zlen l -> zget (zset l i x) i = Some x.
Proof.
  unfold zget, zset, zlen. intros ?. destruct (Z.ltb_spec i 0); [lia|].
  apply list_lookup_insert_eq. lia.
Qed.

Lemma zget_zset_ne l i j x : i <> j -> zget (zset l i x) j = zget l j.
Proof.
  unfold zget, zset. intros ?.
  destruct (Z.ltb_spec i 0), (Z.ltb_spec j 0); try done.
  apply list_lookup_insert_ne. lia.
Qed.

Lemma zget_app_l l k i : i < zlen l -> zget (l ++ k) i = zget l i.
Proof.
  unfold zget, zlen. intros ?. destruct (Z.ltb_spec i 0); [done|].
  apply lookup_app_l. lia.
Qed.

Lemma zget_app_r l k i : zlen l <= i -> zget (l ++ k) i = zget k (i - zlen l).
Proof.
  unfold zget, zlen. intros ?.
  destruct (Z.ltb_spec i 0), (Z.ltb_spec (i - Z.of_nat (length l)) 0); try lia.
  rewrite lookup_app_r by lia. f_equal. lia.
Qed.

Lemma zlen_app l k : zlen (l ++ k) = zlen l + zlen k.
Proof. unfold zlen. rewrite length_app. lia. Qed.

Lemma zlen_cons (x : A) l : zlen (x :: l) = 1 + zlen l.
Proof. unfold zlen. simpl. lia. Qed.

Lemma zget_cons_0 (x : A) l : zget (x :: l) 0 = Some x.
Proof. done. Qed.

Lemma zget_cons_S (x : A) l i : 0 < i -> zget (x :: l) i = zget l (i - 1).
Proof.
  unfold zget. intros ?. destruct (Z.ltb_spec i 0), (Z.ltb_spec (i - 1) 0); try lia.
  replace (Z.to_nat i) with (S (Z.to_nat (i - 1))) by lia. done.
Qed.

Lemma zget_In l i x : zget l i = Some x -> In x l.
Proof.
  unfold zget. case_match; [done|]. intros Hx%list_elem_of_lookup_2.
  by apply list_elem_of_In.
Qed.

Lemma elem_zget l x : x ∈ l <-> exists i, zget l i = Some x.
Proof.
  split.
  - intros [n Hn]%list_elem_of_lookup_1. exists (Z.of_nat n). unfold zget.
    destruct (Z.ltb_spec (Z.of_nat n) 0); [lia|]. by rewrite Nat2Z.id.
  - intros [i Hi]. by eapply list_elem_of_In, zget_In.
Qed.

Lemma zget_ext l k : (forall i, 0 <= i -> zget l i = zget k i) -> l = k.
Proof.
  intros H. apply list_eq. intros n. specialize (H (Z.of_nat n)).
  unfold zget in H. rewrite Nat2Z.id in H.
  destruct (Z.ltb_spec (Z.of_nat n) 0); [lia|]. apply H. lia.
Qed.

Lemma zget_nonneg l i : 0 <= i -> zget l i = l !! Z.to_nat i.
Proof. unfold zget. by destruct (Z.ltb_spec i 0); [lia|]. Qed.

Lemma zget_take l n j :
  0 <= n -> zget (take (Z.to_nat n) l) j = if j <? n then zget l j else None.
Proof.
  intros Hn. unfold zget. destruct (Z.ltb_spec j 0), (Z.ltb_spec j n); try lia; try done.
  - by rewrite lookup_take_lt by lia.
  - by rewrite lookup_take_ge by lia.
Qed.

Lemma zget_delete l i j :
  0 <= i -> 0 <= j ->
  zget (delete (Z.to_nat i) l) j = if j <? i then zget l j else zget l (j + 1).
Proof.
  intros Hi Hj. rewrite !zget_nonneg by lia.
  destruct (Z.ltb_spec j i).
  - rewrite list_lookup_delete_lt by lia. done.
  - rewrite list_lookup_delete_ge by lia. f_equal. lia.
Qed.

Lemma zlen_take l n : 0 <= n -> zlen (take (Z.to_nat n) l) = Z.min n (zlen l).
Proof. unfold zlen. rewrite length_take. lia. Qed.

(** Writing and removing one entry, up to reordering. *)
Lemma perm_put l i e f :
  0 <= i -> zget l i = Some e -> <[Z.to_nat i := f]> l ≡ₚ f :: delete (Z.to_nat i) l.
Proof.
  intros Hi H. rewrite zget_nonneg in H by done.
  pose proof (lookup_lt_Some _ _ _ H).
  rewrite insert_take_drop by done. rewrite delete_take_drop.
  symmetry. apply Permutation_middle.
Qed.

Lemma perm_del l i e :
  0 <= i -> zget l i = Some e -> l ≡ₚ e :: delete (Z.to_nat i) l.
Proof. intros Hi H. rewrite zget_nonneg in H by done. by apply delete_Permutation. Qed.

Lemma delete_put l i f :
  delete (Z.to_nat i) (<[Z.to_nat i := f]> l) = delete (Z.to_nat i) l.
Proof.
  apply list_eq. intros n. rewrite !list_lookup_delete.
  case_decide; rewrite list_lookup_insert_ne by lia; done.
Qed.

Lemma zset_put l i x : 0 <= i -> zset l i x = <[Z.to_nat i := x]> l.
Proof. unfold zset. by destruct (Z.ltb_spec i 0); [lia|]. Qed.

Lemma zset_zset l i x y : zset (zset l i x) i y = zset l i y.
Proof. unfold zset. case_match; [done|]. apply list_insert_insert_eq. Qed.

Lemma zset_id l i x : zget l i = Some x -> zset l i x = l.
Proof.
  unfold zget, zset. case_match; [done|]. apply list_insert_id.
Qed.

End Arrays.

Lemma zset_fmap {A B} (f : A -> B) l i x : f <$> zset l i x = zset (f <$> l) i (f x).
Proof. unfold zset. case_match; [done|]. apply list_fmap_insert. Qed.

Lemma find_ext {A} (f g : A -> bool) l :
  (forall x, x ∈ l -> f x = g x) -> List.find f l = List.find g l.
Proof.
  induction l as [|x l IH]; intros H; simpl; [done|].
  rewrite (H x) by constructor. case_match; [done|]. apply IH. intros y Hy. apply H. by constructor.
Qed.

Lemma zget_fmap {A B} (f : A -> B) l i : zget (f <$> l) i = f <$> zget l i.
Proof. unfold zget. case_match; [done|]. apply list_lookup_fmap. Qed.

#[export] Hint Resolve zlen_nonneg : osz.
#[export] Hint Rewrite @zlen_zset @zlen_app @zlen_cons : osz.

(** * Lemmas on machine integers *)

Lemma wrap_small w x : 0 <= x < 2 ^ w -> wrap w x = x.
Proof. apply Z.mod_small. Qed.

Lemma wrap_bound w x : 0 <= w -> 0 <= wrap w x < 2 ^ w.
Proof. intros. apply Z.mod_pos_bound. lia. Qed.

Lemma s32_small x : 0 <= x < 2 ^ 31 -> s32 x = x.
Proof. intros Hx. unfold s32, sgn, wrap. rewrite Z.mod_small by lia. cbn zeta. destruct (x <? 2 ^ (32 - 1)) eqn:E; lia. Qed.
Lemma u64_small x : 0 <= x < 2 ^ 64 -> u64 x = x.
Proof. apply wrap_small. Qed.

Lemma u64_bound x : 0 <= u64 x < 2 ^ 64.
Proof. apply wrap_bound. lia. Qed.

Lemma u64_u64_add a b : u64 (u64 a + b) = u64 (a + b).
Proof. unfold u64, wrap. by rewrite Zplus_mod_idemp_l. Qed.

Lemma has_true a m : has a m = true <-> Z.land a m <> 0.
Proof. unfold has. rewrite negb_true_iff, Z.eqb_neq. done. Qed.

Lemma has_false a m : has a m = false <-> Z.land a m = 0.
Proof. unfold has. rewrite negb_false_iff, Z.eqb_eq. done. Qed.
