(* ===== verification/Bytes.v ===== *)
(** Bytes shared by the theorems about memory and images: numbers as bytes, a memory that
    holds bytes, and blocks written into a list of bytes. *)
From Stdlib Require Import ZArith Lia List.
From stdpp Require Import base option list.
From S2P Require Import Prelude.

#[local] Ltac Zify.zify_post_hook ::= Z.div_mod_to_equations.

(** ** Numbers *)

(** The number [x] in [n] bytes, the lowest one first, and back. *)
Fixpoint le (n : nat) (x : Z) : list Z := match n with O => [] | S n => x mod 256 :: le n (x / 256) end.
Fixpoint of_le (l : list Z) : Z := match l with [] => 0 | b :: l => b + 256 * of_le l end.

Lemma le_length n x : zlen (le n x) = Z.of_nat n.
Proof. revert x. induction n as [|n IH]; intros x; [done|]. cbn [le]. rewrite zlen_cons, IH. lia. Qed.

Lemma le_bytes n x : Forall (fun b => u8 b = b) (le n x).
Proof. revert x. induction n as [|n IH]; intros x; constructor; [apply Z.mod_mod; lia|done]. Qed.

Lemma of_le_le n x : 0 <= x < 256 ^ Z.of_nat n -> of_le (le n x) = x.
Proof.
  revert x. induction n as [|n IH]; intros x Hx.
  - change (256 ^ Z.of_nat 0) with 1 in Hx. cbn. lia.
  - rewrite Nat2Z.inj_succ, Z.pow_succ_r in Hx by lia. cbn [le of_le]. rewrite IH by lia. lia.
Qed.

(** ** A memory with the bytes [l] at [v] *)

Definition holds (m : Z -> option Z) (v : Z) (l : list Z) : Prop := forall i b, zget l i = Some b -> m (v + i) = Some b.

Lemma holds_nil m v : holds m v [].
Proof. intros i b Hb. apply zget_Some_lt in Hb. unfold zlen in Hb. cbn in Hb. lia. Qed.

Lemma holds_cons m v b l : holds m v (b :: l) -> m v = Some b /\ holds m (v + 1) l.
Proof.
  intros H. split; [rewrite <- (Z.add_0_r v); by apply H|]. intros i c Hc. replace (v + 1 + i) with (v + (i + 1)) by lia. apply H.
  pose proof (zget_Some_lt _ _ _ Hc) as Hi. rewrite zget_cons_S by lia. by replace (i + 1 - 1) with i by lia.
Qed.

Lemma holds_app m v l k : holds m v (l ++ k) <-> holds m v l /\ holds m (v + zlen l) k.
Proof.
  split.
  - intros H. split; intros i b Hb; pose proof (zget_Some_lt _ _ _ Hb) as Hi.
    + apply H. by rewrite zget_app_l by lia.
    + rewrite <- Z.add_assoc. apply H. rewrite zget_app_r by lia. by replace (zlen l + i - zlen l) with i by lia.
  - intros [H1 H2] i b Hb. destruct (Z.lt_ge_cases i (zlen l)) as [Hi|Hi].
    + apply H1. by rewrite zget_app_l in Hb by lia.
    + rewrite zget_app_r in Hb by lia. replace (v + i) with (v + zlen l + (i - zlen l)) by lia. by apply H2.
Qed.

Lemma holds_ext m m' v l : (forall x, v <= x < v + zlen l -> m' x = m x) -> holds m v l -> holds m' v l.
Proof. intros He H i b Hb. pose proof (zget_Some_lt _ _ _ Hb). rewrite He by lia. by apply H. Qed.

Lemma holds_inj m v l k : zlen l = zlen k -> holds m v l -> holds m v k -> l = k.
Proof.
  revert v k. induction l as [|x l IH]; intros v [|y k] Hlen Hl Hk; rewrite ?zlen_cons in Hlen; change (zlen (@nil Z)) with 0 in Hlen.
  - done.
  - pose proof (zlen_nonneg k). lia.
  - pose proof (zlen_nonneg l). lia.
  - apply holds_cons in Hl as [Hx Hl], Hk as [Hy Hk]. assert (x = y) as -> by congruence. f_equal. apply (IH (v + 1)); [lia|done|done].
Qed.

(** ** Blocks in a list of bytes *)

Definition zeros (n : Z) : list Z := replicate (Z.to_nat n) 0.
Definition slice (o n : Z) (l : list Z) : list Z := take (Z.to_nat n) (drop (Z.to_nat o) l).
Definition poke (o : Z) (l b : list Z) : list Z := take (Z.to_nat o) b ++ l ++ drop (Z.to_nat (o + zlen l)) b.

Lemma zlen_zeros n : 0 <= n -> zlen (zeros n) = n.
Proof. intros Hn. unfold zlen, zeros. rewrite length_replicate. lia. Qed.

Lemma zget_zeros n i : 0 <= i < n -> zget (zeros n) i = Some 0.
Proof.
  intros Hi. unfold zget, zeros. destruct (Z.ltb_spec i 0); [lia|]. apply lookup_replicate_2. lia.
Qed.

Lemma zeros_zget n i x : zget (zeros n) i = Some x -> x = 0 /\ 0 <= i < n.
Proof.
  intros H. pose proof (zget_Some_lt _ _ _ H) as Hi. destruct (Z.lt_ge_cases n 0) as [Hn|Hn].
  - unfold zlen, zeros in Hi. rewrite length_replicate in Hi. lia.
  - rewrite zlen_zeros in Hi by done. rewrite zget_zeros in H by done. split; [congruence|done].
Qed.

Lemma zeros_app n k : 0 <= n -> 0 <= k -> zeros (n + k) = zeros n ++ zeros k.
Proof. intros Hn Hk. unfold zeros. by rewrite Z2Nat.inj_add, replicate_add by lia. Qed.

Lemma zlen_drop {A} n (l : list A) : zlen (drop n l) = Z.max 0 (zlen l - Z.of_nat n).
Proof. unfold zlen. rewrite length_drop. lia. Qed.

Lemma zget_drop {A} (l : list A) k i : 0 <= k -> 0 <= i -> zget (drop (Z.to_nat k) l) i = zget l (k + i).
Proof.
  intros Hk Hi. unfold zget. destruct (Z.ltb_spec i 0), (Z.ltb_spec (k + i) 0); try lia.
  rewrite lookup_drop. f_equal. lia.
Qed.

Lemma zlen_slice o n l : 0 <= o -> 0 <= n -> o + n <= zlen l -> zlen (slice o n l) = n.
Proof. intros Ho Hn Hl. unfold slice, zlen in *. rewrite length_take, length_drop. lia. Qed.

Lemma zget_slice o n l i : 0 <= o -> 0 <= i < n -> zget (slice o n l) i = zget l (o + i).
Proof.
  intros Ho Hi. unfold slice. rewrite <- (zget_drop l) by lia. unfold zget. destruct (Z.ltb_spec i 0); [done|].
  apply lookup_take_lt. lia.
Qed.

Lemma holds_slice o n l : 0 <= o -> 0 <= n -> o + n <= zlen l -> holds (zget l) o (slice o n l).
Proof.
  intros Ho Hn Hl i b Hb. pose proof (zget_Some_lt _ _ _ Hb) as Hi. rewrite zlen_slice in Hi by done.
  by rewrite zget_slice in Hb by lia.
Qed.

Lemma slice_holds o l b : 0 <= o -> o + zlen l <= zlen b -> holds (zget b) o l -> slice o (zlen l) b = l.
Proof.
  intros Ho Hl H. pose proof (zlen_nonneg l). eapply (holds_inj (zget b) o); [by rewrite zlen_slice by lia|by apply holds_slice; lia|done].
Qed.

Lemma zlen_poke o l b : 0 <= o -> o + zlen l <= zlen b -> zlen (poke o l b) = zlen b.
Proof. intros Ho Hl. unfold poke, zlen in *. rewrite !length_app, length_take, length_drop. lia. Qed.

Lemma zget_poke o l b i : 0 <= o -> o + zlen l <= zlen b ->
  zget (poke o l b) i = if (o <=? i) && (i <? o + zlen l) then zget l (i - o) else zget b i.
Proof.
  intros Ho Hl. pose proof (zlen_nonneg l). unfold poke.
  assert (Ht : zlen (take (Z.to_nat o) b) = o) by (unfold zlen in *; rewrite length_take; lia).
  destruct (Z.lt_ge_cases i o) as [Hi|Hi].
  - replace ((o <=? i) && _) with false by lia. rewrite zget_app_l by lia. unfold zget. destruct (Z.ltb_spec i 0); [done|].
    apply lookup_take_lt. lia.
  - rewrite zget_app_r, Ht by lia. destruct (Z.lt_ge_cases i (o + zlen l)) as [Hj|Hj].
    + replace ((o <=? i) && _) with true by lia. by rewrite zget_app_l by lia.
    + replace ((o <=? i) && _) with false by lia. rewrite zget_app_r, zget_drop by lia. f_equal. lia.
Qed.

Lemma holds_poke o l b : 0 <= o -> o + zlen l <= zlen b -> holds (zget (poke o l b)) o l.
Proof.
  intros Ho Hl i x Hx. pose proof (zget_Some_lt _ _ _ Hx). rewrite zget_poke by done.
  replace ((o <=? o + i) && _) with true by lia. by replace (o + i - o) with i by lia.
Qed.

Lemma holds_poke_other o l b v k : 0 <= o -> o + zlen l <= zlen b -> v + zlen k <= o \/ o + zlen l <= v ->
  holds (zget b) v k -> holds (zget (poke o l b)) v k.
Proof.
  intros Ho Hl Hd. apply holds_ext. intros x Hx. rewrite zget_poke by done. by replace ((o <=? x) && _) with false by lia.
Qed.

Lemma holds_zeros_sub m v n v' n' : holds m v (zeros n) -> v <= v' -> 0 <= n' -> v' + n' <= v + n -> holds m v' (zeros n').
Proof.
  intros H Hv Hn Hl i b Hb. apply zeros_zget in Hb as [-> Hi]. replace (v' + i) with (v + (v' - v + i)) by lia.
  apply H, zget_zeros. lia.
Qed.
