(* ===== verification/CoreState.v ===== *)
(** Data and constants shared by the models of the core (src/core): error
    codes, page sizes, priorities, service numbers and the task control block. *)
From Stdlib Require Import ZArith List.
From S2P Require Import Prelude.

(** ** include/osZ/errno.h *)
Definition SUCCESS : Z := 0.
Definition EPERM : Z := 1.
Definition EAGAIN : Z := 2.
Definition ESRCH : Z := 3.
Definition EFAULT : Z := 4.
Definition EINVAL : Z := 5.
Definition EBUSY : Z := 6.
Definition EACCES : Z := 7.
Definition ENOMEM : Z := 8.
Definition EEXIST : Z := 11.
Definition ENOENT : Z := 12.
Definition ENODEV : Z := 13.
Definition ENOTDIR : Z := 14.
Definition EISDIR : Z := 15.
Definition EISUNI : Z := 17.
Definition ENOFS : Z := 18.
Definition EBADFS : Z := 19.
Definition EROFS : Z := 20.
Definition ENOSPC : Z := 21.
Definition ENOTSUP : Z := 22.
Definition EPIPE : Z := 24.
Definition ESPIPE : Z := 25.
Definition ENOTSHM : Z := 26.
Definition EBADF : Z := 27.

(** ** include/osZ/limits.h *)
Definition PAGEBITS : Z := 12.
Definition PAGESIZE : Z := 4096.
Definition SLOTSIZE : Z := 2097152.
Definition BUFFSIZE : Z := 1048576.
Definition TEXT_ADDRESS : Z := 2 * SLOTSIZE.
Definition DYN_ADDRESS : Z := 0x100000000.
Definition BUF_ADDRESS : Z := 0x8000000000 - DYN_ADDRESS.
Definition SDYN_ADDRESS : Z := 0xFFFFFF8000000000.

(** ** src/core/core.h *)
Definition RUNLVL_BOOT : Z := 0.
Definition RUNLVL_VMEM : Z := 1.
Definition RUNLVL_COOP : Z := 2.
Definition RUNLVL_NORM : Z := 3.
Definition OSZ_TCB_MAGICH : Z := 0x4B534154.

(** ** src/core/vmm.h *)
Definition LDYN_ADDRESS : Z := 0xffffffff80000000.
Definition LDYN_tcbalarm : Z := LDYN_ADDRESS + PAGESIZE.
Definition LDYN_tmpmap1 : Z := LDYN_ADDRESS + 8 * PAGESIZE.
Definition LDYN_tmpslot : Z := LDYN_ADDRESS + SLOTSIZE.

(** ** src/core/task.h *)
Definition PRI_SYS : Z := 0.
Definition PRI_DRV : Z := 2.
Definition PRI_SRV : Z := 3.
Definition PRI_IDLE : Z := 7.
Definition TCB_STATE_HYBERND : Z := 0.
Definition TCB_STATE_BLOCKED : Z := 1.
Definition TCB_STATE_RUNNING : Z := 2.

(** ** include/osZ/types.h *)
Definition EVT_DEST (t : Z) : Z := u64 (Z.shiftl t 16).
Definition EVT_SENDER (m : Z) : Z := Z.shiftr m 16.
Definition EVT_FUNC (m : Z) : Z := Z.land m 0x3FFF.
Definition MSG_PTRDATA : Z := 0x4000.
Definition MSG_RESPONSED : Z := 0x8000.

(** ** include/osZ/syscall.h *)
Definition SRV_CORE : Z := 0.
Definition SRV_FS : Z := -1.
Definition SRV_UI : Z := -2.
Definition SRV_syslog : Z := -3.
Definition SRV_inet : Z := -4.
Definition SRV_sound : Z := -5.
Definition SRV_print : Z := -6.
Definition SRV_init : Z := -7.
Definition NUMSRV : Z := 8.

(** The task control block [tcb_t] of src/core/task.h, without the fields that
    no modelled function reads (flags, forklevel, swapid, padding). *)
Record tcb_t : Type := mk_tcb {
  magic : Z; (* 32 bits *)
  priority : Z;
  tstate : Z; (* the field [state] *)
  cpuid : Z;
  memroot : Z;
  taskmemroot : Z;
  linkmem : Z; (* 64 bits, in pages *)
  allocmem : Z; (* 64 bits, in pages *)
  pid : Z;
  parent : Z;
  prev : Z; (* pid, 0 for none *)
  next : Z; (* pid, 0 for none *)
  blksend : Z; (* pid, 0 for none *)
  blktime : Z;
  blkcnt : Z;
  alarmusec : Z;
  tracebuf : Z; (* address, 0 for none *)
  owner : list Z; (* 16 bytes *)
  acl : list (list Z); (* entries of 16 bytes *)
  cmdline : Z; (* 32 bits *)
  elfbin : Z; (* address, 0 for none *)
}.
#[export] Instance eta_tcb_t : Eta tcb_t :=
  fun s => mk_tcb (magic s) (priority s) (tstate s) (cpuid s) (memroot s) (taskmemroot s) (linkmem s) (allocmem s) (pid s) (parent s) (prev s) (next s) (blksend s) (blktime s) (blkcnt s) (alarmusec s) (tracebuf s) (owner s) (acl s) (cmdline s) (elfbin s).
Definition set_magic (v : Z) (s : tcb_t) : tcb_t := s <| magic := v |>.
Definition set_priority (v : Z) (s : tcb_t) : tcb_t := s <| priority := v |>.
Definition set_tstate (v : Z) (s : tcb_t) : tcb_t := s <| tstate := v |>.
Definition set_cpuid (v : Z) (s : tcb_t) : tcb_t := s <| cpuid := v |>.
Definition set_memroot (v : Z) (s : tcb_t) : tcb_t := s <| memroot := v |>.
Definition set_taskmemroot (v : Z) (s : tcb_t) : tcb_t := s <| taskmemroot := v |>.
Definition set_linkmem (v : Z) (s : tcb_t) : tcb_t := s <| linkmem := v |>.
Definition set_allocmem (v : Z) (s : tcb_t) : tcb_t := s <| allocmem := v |>.
Definition set_pid (v : Z) (s : tcb_t) : tcb_t := s <| pid := v |>.
Definition set_parent (v : Z) (s : tcb_t) : tcb_t := s <| parent := v |>.
Definition set_prev (v : Z) (s : tcb_t) : tcb_t := s <| prev := v |>.
Definition set_next (v : Z) (s : tcb_t) : tcb_t := s <| next := v |>.
Definition set_blksend (v : Z) (s : tcb_t) : tcb_t := s <| blksend := v |>.
Definition set_blktime (v : Z) (s : tcb_t) : tcb_t := s <| blktime := v |>.
Definition set_blkcnt (v : Z) (s : tcb_t) : tcb_t := s <| blkcnt := v |>.
Definition set_alarmusec (v : Z) (s : tcb_t) : tcb_t := s <| alarmusec := v |>.
Definition set_tracebuf (v : Z) (s : tcb_t) : tcb_t := s <| tracebuf := v |>.
Definition set_owner (v : list Z) (s : tcb_t) : tcb_t := s <| owner := v |>.
Definition set_acl (v : list (list Z)) (s : tcb_t) : tcb_t := s <| acl := v |>.
Definition set_cmdline (v : Z) (s : tcb_t) : tcb_t := s <| cmdline := v |>.
Definition set_elfbin (v : Z) (s : tcb_t) : tcb_t := s <| elfbin := v |>.

(** A freshly cleared task page. *)
Definition zero_tcb : tcb_t :=
  mk_tcb 0 0 0 0 0 0 0 0 0 0 0 0 0 0 0 0 0 (List.repeat 0 16) nil 0 0.
