(* ===== verification/Pmm.v ===== *)
(** The physical memory manager, src/core/pmm.c: the list of free RAM regions,
    the page allocator [pmm_alloc], the 2M slot allocator [pmm_allocslot] and
    the merging [pmm_free]; then the set of free addresses they maintain. *)
From Stdlib Require Import ZArith Lia List.
From stdpp Require Import base list.
From S2P Require Import Prelude CoreState.

Module Pmm.

(** One free region: [size] counts pages. *)
Record pmm_entry_t : Type := mk_entry { base : Z; size : Z }.

(** What the functions do to physical memory: [EvMap virt phys] is a
    [vmm_page] call, [EvZero addr bytes] a [memset] to zero. *)
Inductive pmm_event : Type :=
| EvMap (virt phys : Z)
| EvZero (addr bytes : Z).

(** The globals of pmm.c.  [pmm_entries] is the whole storage of the array,
    of which the first [pmm_size] entries are in use; [pmm_lock] is bit 63 of
    [pmm_totalpages]. *)
Record pmm_state : Type := mk_pmm {
  pmm_entries : list pmm_entry_t;
  pmm_size : Z;
  pmm_totalpages : Z;
  pmm_freepages : Z;
  pmm_lock : bool;
  srand : list Z; (* the four words of the entropy pool *)
  runlevel : Z;
  errno : Z;
  pmm_log : list pmm_event;
}.
#[export] Instance eta_pmm : Eta pmm_state :=
  fun s => mk_pmm (pmm_entries s) (pmm_size s) (pmm_totalpages s)
    (pmm_freepages s) (pmm_lock s) (srand s) (runlevel s) (errno s) (pmm_log s).
Definition set_entries (v : list pmm_entry_t) (s : pmm_state) : pmm_state := s <| pmm_entries := v |>.
Definition set_size (v : Z) (s : pmm_state) : pmm_state := s <| pmm_size := v |>.
Definition set_totalpages (v : Z) (s : pmm_state) : pmm_state := s <| pmm_totalpages := v |>.
Definition set_freepages (v : Z) (s : pmm_state) : pmm_state := s <| pmm_freepages := v |>.
Definition set_lock (v : bool) (s : pmm_state) : pmm_state := s <| pmm_lock := v |>.
Definition set_srand (v : list Z) (s : pmm_state) : pmm_state := s <| srand := v |>.
Definition set_errno (v : Z) (s : pmm_state) : pmm_state := s <| errno := v |>.
Definition set_log (v : list pmm_event) (s : pmm_state) : pmm_state := s <| pmm_log := v |>.

(** Exit codes of [kpanic]. *)
Definition PANIC_freepages : Z := 1.
Definition PANIC_outofram : Z := 2.

(** [kentropy] stirs the entropy pool; see [CoreLib.kentropy]. *)
Class Entropy : Type := kentropy : list Z -> list Z.

Section Ops.
Context {E : Entropy}.

Definition emit (ev : pmm_event) : M pmm_state unit :=
  modify (fun s => set_log (pmm_log s ++ [ev]) s).

Definition seterr (e : Z) : M pmm_state unit := modify (set_errno e).

(** Spinning on a lock this CPU already holds never ends. *)
Definition lockacquire : M pmm_state unit :=
  l <-- gets pmm_lock ;; if l then loop else modify (set_lock true).
Definition lockrelease : M pmm_state unit := modify (set_lock false).

Definition entry_get (i : Z) : M pmm_state pmm_entry_t :=
  s <-- get ;; need (zget (pmm_entries s) i).
Definition entry_put (i : Z) (e : pmm_entry_t) : M pmm_state unit :=
  s <-- get ;; need (zget (pmm_entries s) i) ;;; put (set_entries (zset (pmm_entries s) i e) s).

(** [for(; i < n-1; i++) pmm_entries[i] = pmm_entries[i+1];], [cnt] rounds. *)
Fixpoint shift_down (cnt : nat) (i : Z) : M pmm_state unit :=
  match cnt with
  | O => ret tt
  | S c => e <-- entry_get (i + 1) ;; entry_put i e ;;; shift_down c (i + 1)
  end.

(** [for(j = n; j > i; j--) pmm_entries[j] = pmm_entries[j-1];], [cnt] rounds. *)
Fixpoint shift_up (cnt : nat) (j : Z) : M pmm_state unit :=
  match cnt with
  | O => ret tt
  | S c => e <-- entry_get (j - 1) ;; entry_put j e ;;; shift_up c (j - 1)
  end.

(** [srand[k] ^= frame; srand[k] *= 16807; kentropy();] *)
Definition stir (a : Z) : M pmm_state unit :=
  s <-- get ;;
  let f := Z.shiftr a PAGEBITS in
  let k := Z.land f 3 in
  w <-- need (zget (srand s) k) ;;
  put (set_srand (kentropy (zset (srand s) k (u64 (Z.lxor w f * 16807)))) s).

(** [for(i=0, p=b; i < pages; i++, p += __PAGESIZE)] map and clear one page. *)
Fixpoint zero_pages (n : nat) (p : Z) : M pmm_state unit :=
  match n with
  | O => ret tt
  | S n' => emit (EvMap LDYN_tmpmap1 p) ;;; emit (EvZero LDYN_tmpmap1 PAGESIZE) ;;;
            zero_pages n' (u64 (p + PAGESIZE))
  end.

(** The first-fit search of [pmm_alloc] from index [i]; it answers the base of
    the region taken, 0 when no region is large enough. *)
Definition pmm_alloc_round (pages i : Z) : M pmm_state (Z + Z) :=
  n <-- gets pmm_size ;;
  if i <? n then
    e <-- entry_get i ;;
    if pages <=? size e then
      stir (base e) ;;;
      let sz := size e - pages in
      entry_put i (mk_entry (u64 (base e + u64 (Z.shiftl pages PAGEBITS))) sz) ;;;
      when (sz =? 0)
        (shift_down (Z.to_nat (n - 1 - i)) i ;;; modify (set_size (n - 1))) ;;;
      ret (inr (base e))
    else ret (inl (i + 1))
  else ret (inr 0).

(** After the search: account for the block [b] and clear it, or report that
    the memory is exhausted. *)
Definition pmm_alloc_finish (t : tcb_t) (pages b : Z) : M pmm_state (Z * tcb_t) :=
  if negb (b =? 0) then
    modify (fun s => set_freepages (u64 (pmm_freepages s - pages)) s) ;;;
    r <-- gets runlevel ;;
    (if r <? RUNLVL_VMEM then emit (EvZero b (u64 (Z.shiftl pages PAGEBITS)))
     else zero_pages (Z.to_nat pages) b) ;;;
    ret (b, set_allocmem (u64 (allocmem t + pages)) t)
  else
    r <-- gets runlevel ;;
    when (r <? RUNLVL_NORM) (stop PANIC_outofram) ;;;
    seterr ENOMEM ;;;
    ret (0, t).

Definition pmm_alloc (t : tcb_t) (pages : Z) : M pmm_state (Z * tcb_t) :=
  s <-- get ;;
  when (pmm_totalpages s <? pmm_freepages s) (stop PANIC_freepages) ;;;
  if negb (magic t =? OSZ_TCB_MAGICH) || (pages =? 0) then ret (0, t) else
  lockacquire ;;;
  n <-- gets pmm_size ;;
  b <-- iter (S (Z.to_nat n)) (pmm_alloc_round pages) 0 ;;
  lockrelease ;;;
  pmm_alloc_finish t pages b.

(** Rounding up to a slot: [((base + __SLOTSIZE-1) / __SLOTSIZE) * __SLOTSIZE]. *)
Definition slot_up (a : Z) : Z := u64 (u64 (a + SLOTSIZE - 1) / SLOTSIZE * SLOTSIZE).

(** One round of the loop of [pmm_allocslot], over the region [i]. *)
Definition pmm_allocslot_round (t : tcb_t) (i : Z) : M pmm_state (Z + option (Z * tcb_t)) :=
  n <-- gets pmm_size ;;
  if i <? n then
    e <-- entry_get i ;;
    let b := slot_up (base e) in
    if u64 (b + SLOTSIZE) <=? u64 (base e + u64 (Z.shiftl (size e) PAGEBITS)) then
      stir (base e) ;;;
      k <-- (if negb (b =? base e) then
               shift_up (Z.to_nat (n - i)) n ;;;
               modify (set_size (n + 1)) ;;;
               let s := Z.shiftr (b - base e) PAGEBITS in
               entry_put i (mk_entry (base e) s) ;;;
               ret (i + 1, s)
             else ret (i, 0)) ;;
      let (f, s) := (k : Z * Z) in
      e' <-- entry_get f ;;
      let sz := u64 (size e' - (s + SLOTSIZE / PAGESIZE)) in
      entry_put f (mk_entry (u64 (b + SLOTSIZE)) sz) ;;;
      n' <-- gets pmm_size ;;
      when (sz =? 0)
        (shift_down (Z.to_nat (n' - 1 - i)) i ;;; modify (set_size (n' - 1))) ;;;
      modify (fun s => set_freepages (u64 (pmm_freepages s - SLOTSIZE / PAGESIZE)) s) ;;;
      r <-- gets runlevel ;;
      (if r <? RUNLVL_VMEM then emit (EvZero b SLOTSIZE)
       else emit (EvMap LDYN_tmpslot b) ;;; emit (EvZero LDYN_tmpslot SLOTSIZE)) ;;;
      lockrelease ;;;
      ret (inr (Some (b, set_allocmem (u64 (allocmem t + SLOTSIZE / PAGESIZE)) t)))
    else ret (inl (i + 1))
  else ret (inr None).

Definition pmm_allocslot (t : tcb_t) : M pmm_state (Z * tcb_t) :=
  if negb (magic t =? OSZ_TCB_MAGICH) then ret (0, t) else
  lockacquire ;;;
  n <-- gets pmm_size ;;
  r <-- iter (S (Z.to_nat n)) (pmm_allocslot_round t) 0 ;;
  match r with
  | Some bt => ret bt
  | None =>
      lockrelease ;;;
      l <-- gets runlevel ;;
      when (l <? RUNLVL_NORM) (stop PANIC_outofram) ;;;
      seterr ENOMEM ;;;
      ret (0, t)
  end.

(** Where the search loop of [pmm_free] leaves off. *)
Inductive place : Type :=
| AtFront (i : Z)  (* [goto addregion]: the region before entry [i] *)
| AtBack (i : Z)   (* [goto addregion2]: the region after entry [i] *)
| NewEntry (i : Z).

Definition entry_end (e : pmm_entry_t) : Z := u64 (base e + u64 (Z.shiftl (size e) PAGEBITS)).

Definition free_search_round (bs s i : Z) : M pmm_state (Z + place) :=
  n <-- gets pmm_size ;;
  if i <? n then
    e <-- entry_get i ;;
    if base e =? u64 (bs + s) then ret (inr (AtFront i))
    else if entry_end e =? bs then ret (inr (AtBack i))
    else ret (inl (i + 1))
  else ret (inr (NewEntry i)).

(** The merge loop: [i] is the region just grown. *)
Definition free_merge_round (i j : Z) : M pmm_state (Z + unit) :=
  n <-- gets pmm_size ;;
  if j <? n then
    ei <-- entry_get i ;;
    ej <-- entry_get j ;;
    let merge (b : Z) :=
      entry_put i (mk_entry b (u64 (size ei + size ej))) ;;;
      shift_down (Z.to_nat (n - j - 1)) j ;;;
      modify (set_size (n - 1)) ;;;
      ret (inr tt) in
    if entry_end ei =? base ej then merge (base ei)
    else if base ei =? entry_end ej then merge (base ej)
    else ret (inl (j + 1))
  else ret (inr tt).

(** [srand[(pages+0)&3] -= base; srand[(pages+2)&3] += base; kentropy();] *)
Definition stir_free (bs pages : Z) : M pmm_state unit :=
  s <-- get ;;
  let k0 := Z.land pages 3 in
  let k2 := Z.land (pages + 2) 3 in
  w0 <-- need (zget (srand s) k0) ;;
  let r0 := zset (srand s) k0 (u64 (w0 - bs)) in
  w2 <-- need (zget r0 k2) ;;
  put (set_srand (kentropy (zset r0 k2 (u64 (w2 + bs)))) s).

(** [addregion] and [addregion2]: grow or create the region found. *)
Definition free_grow (bs pages : Z) (p : place) : M pmm_state Z :=
  match p with
  | AtFront i =>
      e <-- entry_get i ;;
      entry_put i (mk_entry bs (u64 (size e + pages))) ;;; ret i
  | AtBack i =>
      e <-- entry_get i ;;
      entry_put i (mk_entry (base e) (u64 (size e + pages))) ;;; ret i
  | NewEntry i =>
      modify (fun s => set_size (pmm_size s + 1) s) ;;;
      entry_put i (mk_entry bs pages) ;;; ret i
  end.

Definition pmm_free (t : tcb_t) (base0 pages0 : Z) : M pmm_state tcb_t :=
  let s := u64 (Z.shiftl pages0 PAGEBITS) in
  let first := (base0 =? 0) && (0 <? pages0) in
  let bs := if first then base0 + PAGESIZE else base0 in
  let pages := if first then pages0 - 1 else pages0 in
  if negb (magic t =? OSZ_TCB_MAGICH) || (pages =? 0) then ret t else
  lockacquire ;;;
  stir_free bs pages ;;;
  n <-- gets pmm_size ;;
  p <-- iter (S (Z.to_nat n)) (free_search_round bs s) 0 ;;
  i <-- free_grow bs pages p ;;
  modify (fun s => set_freepages (u64 (pmm_freepages s + pages)) s) ;;;
  n' <-- gets pmm_size ;;
  iter (S (Z.to_nat n')) (free_merge_round i) 0 ;;;
  lockrelease ;;;
  st <-- get ;;
  when (pmm_totalpages st <? pmm_freepages st) (stop PANIC_freepages) ;;;
  ret (set_allocmem (u64 (allocmem t - pages)) t).

End Ops.
End Pmm.
