(* ===== verification/PmmFacts.v ===== *)
(** Correctness of the physical memory manager of Pmm.v: the list of free
    regions as a set of free addresses, the invariant of the list, and what
    [pmm_alloc], [pmm_allocslot] and [pmm_free] do to both. *)
From Stdlib Require Import ZArith Lia List.
From stdpp Require Import base list.
From S2P Require Import Prelude CoreState Pmm.
Import Pmm.

(** ** Regions as sets of addresses *)

Definition region_end (e : pmm_entry_t) : Z := base e + size e * PAGESIZE.

Definition in_region (a : Z) (e : pmm_entry_t) : Prop := base e <= a < region_end e.

(** A usable region: not the null frame, not empty, inside the address space. *)
Definition region_ok (e : pmm_entry_t) : Prop :=
  0 < base e /\ 0 < size e /\ region_end e < 2 ^ 64.

Definition apart (e f : pmm_entry_t) : Prop :=
  region_end e <= base f \/ region_end f <= base e.

(** The regions of the list are usable and pairwise apart. *)
Fixpoint wf_regions (l : list pmm_entry_t) : Prop :=
  match l with
  | [] => True
  | e :: l' => region_ok e /\ Forall (apart e) l' /\ wf_regions l'
  end.

Definition sum_pages (l : list pmm_entry_t) : Z := fold_right (fun e n => size e + n) 0 l.

(** The entries in use. *)
Definition active (s : pmm_state) : list pmm_entry_t :=
  take (Z.to_nat (pmm_size s)) (pmm_entries s).

(** The set of free addresses. *)
Definition is_free (s : pmm_state) (a : Z) : Prop := Exists (in_region a) (active s).

(** The invariant of the allocator. *)
Record pmm_wf (s : pmm_state) : Prop := mk_pmm_wf {
  wf_unlocked : pmm_lock s = false;
  wf_size : 0 <= pmm_size s <= zlen (pmm_entries s);
  wf_pool : zlen (srand s) = 4;
  wf_list : wf_regions (active s);
  wf_count : pmm_freepages s = sum_pages (active s);
  wf_total : pmm_freepages s <= pmm_totalpages s < 2 ^ 63;
}.

(** Stirring keeps the pool at four words. *)
Class EntropyOk (E : Entropy) : Prop :=
  kentropy_len : forall r, zlen r = 4 -> zlen (kentropy r) = 4.

(** ** Region lists up to reordering *)

Lemma apart_sym e f : apart e f -> apart f e.
Proof. unfold apart. tauto. Qed.

#[export] Instance wf_regions_perm : Proper (Permutation ==> iff) wf_regions.
Proof.
  intros l k H. induction H as [|e l k H IH|e f l|]; simpl; [done| | |tauto].
  - by rewrite IH, H.
  - rewrite !Forall_cons. assert (apart f e <-> apart e f) by (split; apply apart_sym). tauto.
Qed.

#[export] Instance sum_pages_perm : Proper (Permutation ==> eq) sum_pages.
Proof. intros l k H. induction H; simpl; lia. Qed.

#[export] Instance in_region_perm a : Proper (Permutation ==> iff) (Exists (in_region a)).
Proof. intros l k H. by rewrite H. Qed.

Lemma sum_pages_nonneg l : wf_regions l -> 0 <= sum_pages l.
Proof. induction l as [|e l IH]; simpl; [lia|]. intros ((_&?&_)&_&?%IH). lia. Qed.

Lemma wf_regions_ok l e : wf_regions l -> In e l -> region_ok e.
Proof. induction l as [|f l IH]; simpl; [done|]. intros (?&_&?) [->|]; auto. Qed.

(** ** Array loops *)

Lemma run_entry_get i e s :
  zget (pmm_entries s) i = Some e -> entry_get i s = Ret e s.
Proof. unfold entry_get, bind, get, need. by intros ->. Qed.

Lemma run_entry_put i e s :
  0 <= i < zlen (pmm_entries s) ->
  entry_put i e s = Ret tt (set_entries (zset (pmm_entries s) i e) s).
Proof.
  intros Hi. unfold entry_put, bind, get, need.
  destruct (zget_is_Some _ _ Hi) as [x ->]. done.
Qed.

Lemma wp_entry_get i e (Q : pmm_entry_t -> pmm_state -> Prop) s :
  zget (pmm_entries s) i = Some e -> Q e s -> wp (entry_get i) Q s.
Proof. unfold wp. intros H HQ. by rewrite (run_entry_get _ _ _ H). Qed.

Lemma wp_entry_put i e (Q : unit -> pmm_state -> Prop) s :
  0 <= i < zlen (pmm_entries s) ->
  Q tt (set_entries (zset (pmm_entries s) i e) s) -> wp (entry_put i e) Q s.
Proof. unfold wp. intros H HQ. by rewrite (run_entry_put _ _ _ H). Qed.

(** [shift_down] moves the entries after [i] one place to the left. *)
Lemma wp_shift_down cnt i (Q : unit -> pmm_state -> Prop) s :
  0 <= i -> i + Z.of_nat cnt < zlen (pmm_entries s) ->
  (forall l, zlen l = zlen (pmm_entries s) ->
     (forall j, zget l j = if (i <=? j) && (j <? i + Z.of_nat cnt)
                           then zget (pmm_entries s) (j + 1) else zget (pmm_entries s) j) ->
     Q tt (set_entries l s)) ->
  wp (shift_down cnt i) Q s.
Proof.
  revert i s Q. induction cnt as [|cnt IH]; intros i s Q Hi Hn HQ; simpl.
  - apply wp_ret. replace s with (set_entries (pmm_entries s) s) by (by destruct s).
    apply HQ; [done|]. intros j. case_match; [lia|done].
  - destruct (zget_is_Some (pmm_entries s) (i + 1)) as [e He]; [lia|].
    apply wp_bind. eapply wp_entry_get; [done|]. apply wp_bind.
    apply wp_entry_put; [lia|]. apply IH; simpl; [lia|rewrite zlen_zset; lia|].
    intros l Hl Hj. apply HQ; [by rewrite Hl, zlen_zset|].
    intros j. rewrite Hj. clear Hj.
    destruct (Z.eq_dec i j) as [<-|Hne].
    + rewrite (proj2 (andb_false_iff _ _)) by (left; lia).
      rewrite zget_zset_eq by lia. by case_match; [|lia].
    + rewrite !(zget_zset_ne _ i j) by done.
      repeat case_match; try lia; try done.
      by rewrite zget_zset_ne by lia.
Qed.

(** [shift_up] moves the entries from [j - cnt] one place to the right. *)
Lemma wp_shift_up cnt j (Q : unit -> pmm_state -> Prop) s :
  Z.of_nat cnt <= j < zlen (pmm_entries s) ->
  (forall l, zlen l = zlen (pmm_entries s) ->
     (forall k, zget l k = if (j - Z.of_nat cnt <? k) && (k <=? j)
                           then zget (pmm_entries s) (k - 1) else zget (pmm_entries s) k) ->
     Q tt (set_entries l s)) ->
  wp (shift_up cnt j) Q s.
Proof.
  revert j s Q. induction cnt as [|cnt IH]; intros j s Q Hn HQ; simpl.
  - apply wp_ret. replace s with (set_entries (pmm_entries s) s) by (by destruct s).
    apply HQ; [done|]. intros k. case_match; [lia|done].
  - destruct (zget_is_Some (pmm_entries s) (j - 1)) as [e He]; [lia|].
    apply wp_bind. eapply wp_entry_get; [done|]. apply wp_bind.
    apply wp_entry_put; [lia|]. apply IH; simpl; [rewrite zlen_zset; lia|].
    intros l Hl Hk. apply HQ; [by rewrite Hl, zlen_zset|].
    intros k. rewrite Hk. clear Hk.
    destruct (Z.eq_dec j k) as [<-|Hne].
    + rewrite (proj2 (andb_false_iff _ _)) by (right; lia).
      rewrite zget_zset_eq by lia. by case_match; [|lia].
    + rewrite !(zget_zset_ne _ j k) by done.
      repeat case_match; try lia; try done.
      by rewrite zget_zset_ne by lia.
Qed.

(** ** The active list and the loops *)

Lemma zget_active s j :
  0 <= pmm_size s -> zget (active s) j = if j <? pmm_size s then zget (pmm_entries s) j else None.
Proof. intros. by apply zget_take. Qed.

Lemma zlen_active s : 0 <= pmm_size s <= zlen (pmm_entries s) -> zlen (active s) = pmm_size s.
Proof. intros. unfold active. rewrite zlen_take by lia. lia. Qed.

(** Removing entry [i] by shifting the entries behind it. *)
Lemma active_shift_down s i l :
  0 <= i < pmm_size s -> pmm_size s <= zlen (pmm_entries s) ->
  (forall j, zget l j = if (i <=? j) && (j <? pmm_size s - 1)
                        then zget (pmm_entries s) (j + 1) else zget (pmm_entries s) j) ->
  active (set_size (pmm_size s - 1) (set_entries l s)) = delete (Z.to_nat i) (active s).
Proof.
  intros Hi Hn Hl. apply zget_ext. intros j Hj.
  rewrite zget_active by (simpl; lia). rewrite zget_delete by lia.
  rewrite !zget_active by lia. simpl. rewrite Hl.
  repeat case_match; try lia; done.
Qed.

(** Writing entry [i] in place. *)
Lemma active_put s i e :
  0 <= i < pmm_size s ->
  active (set_entries (zset (pmm_entries s) i e) s) = <[Z.to_nat i := e]> (active s).
Proof.
  intros Hi. unfold active. simpl. unfold zset.
  destruct (Z.ltb_spec i 0); [lia|]. by rewrite take_insert_lt by lia.
Qed.

Lemma active_In s i e :
  0 <= pmm_size s -> zget (active s) i = Some e -> 0 <= i < pmm_size s /\ zget (pmm_entries s) i = Some e.
Proof.
  intros Hn H. pose proof (zget_Some_lt _ _ _ H). rewrite zget_active in H by done.
  destruct (Z.ltb_spec i (pmm_size s)); [|done]. split; [lia|done].
Qed.

Lemma eq_reflexive_perm (l k : list pmm_entry_t) : l = k -> l ≡ₚ k.
Proof. by intros ->. Qed.

(** What stays the same while a lock is held and regions move. *)
Record same_env (s s' : pmm_state) : Prop := mk_same {
  same_len : zlen (pmm_entries s') = zlen (pmm_entries s);
  same_total : pmm_totalpages s' = pmm_totalpages s;
  same_lvl : runlevel s' = runlevel s;
  same_errno : errno s' = errno s;
  same_lock : pmm_lock s' = pmm_lock s;
  same_freepages : pmm_freepages s' = pmm_freepages s;
  same_log : pmm_log s' = pmm_log s;
}.

Section Alloc.
Context {E : Entropy} {EOk : EntropyOk E}.

Lemma wp_stir a (Q : unit -> pmm_state -> Prop) s :
  0 <= a -> zlen (srand s) = 4 ->
  (forall r, zlen r = 4 -> Q tt (set_srand r s)) -> wp (stir a) Q s.
Proof.
  intros Ha Hp HQ. unfold stir. wp_step. apply wp_get.
  assert (Hk : 0 <= Z.land (Z.shiftr a PAGEBITS) 3 < 4).
  { change 3 with (Z.ones 2). rewrite Z.land_ones by lia.
    apply Z.mod_pos_bound. lia. }
  destruct (zget_is_Some (srand s) _ ltac:(rewrite Hp; exact Hk)) as [w Hw].
  wp_step. eapply wp_need; [exact Hw|]. apply HQ.
  apply kentropy_len. by rewrite zlen_zset.
Qed.

(** The regions after [pages] pages are taken from the front of [e]. *)
Definition shrink (pages : Z) (e : pmm_entry_t) : list pmm_entry_t :=
  if size e =? pages then []
  else [mk_entry (base e + pages * PAGESIZE) (size e - pages)].

(** The search took the first region large enough, or there is none. *)
Definition search_post (pages : Z) (s : pmm_state) (b : Z) (s' : pmm_state) : Prop :=
  (b = 0 /\ s' = s /\ Forall (fun e => size e < pages) (active s)) \/
  exists k e, 0 <= k /\ zget (active s) k = Some e /\ pages <= size e /\ b = base e /\
    (forall j f, j < k -> zget (active s) j = Some f -> size f < pages) /\
    active s' ≡ₚ shrink pages e ++ delete (Z.to_nat k) (active s) /\
    pmm_size s' <= pmm_size s /\
    0 <= pmm_size s' <= zlen (pmm_entries s') /\ zlen (srand s') = 4 /\ same_env s s'.

Lemma shiftl_pages p : Z.shiftl p PAGEBITS = p * PAGESIZE.
Proof. unfold PAGEBITS, PAGESIZE. rewrite Z.shiftl_mul_pow2 by lia. done. Qed.

(** The front of a usable region can be taken without wrap-around. *)
Lemma take_front e pages :
  region_ok e -> 0 < pages <= size e ->
  u64 (base e + u64 (Z.shiftl pages PAGEBITS)) = base e + pages * PAGESIZE.
Proof.
  unfold region_ok, region_end. intros (?&?&?) ?. rewrite shiftl_pages.
  unfold PAGESIZE in *. rewrite (u64_small (pages * 4096)) by lia.
  apply u64_small. lia.
Qed.

Lemma wp_alloc_round pages s i :
  0 < pages -> 0 <= i -> 0 <= pmm_size s <= zlen (pmm_entries s) ->
  zlen (srand s) = 4 -> wf_regions (active s) ->
  (forall j f, j < i -> zget (active s) j = Some f -> size f < pages) ->
  wp (pmm_alloc_round pages i)
     (fun r s' => match r with
                  | inl i' => i' = i + 1 /\ i < pmm_size s /\ s' = s /\
                      (forall j f, j < i + 1 -> zget (active s) j = Some f -> size f < pages)
                  | inr b => search_post pages s b s'
                  end) s.
Proof.
  intros Hp Hi Hn Hr Hwf Hbefore. unfold pmm_alloc_round. wp_step. apply wp_gets. cbn beta.
  destruct (Z.ltb_spec i (pmm_size s)) as [Hlt|Hge].
  2:{ apply wp_ret. left. split_and!; [done..|]. apply Forall_forall. intros f [m Hm]%list_elem_of_lookup.
      apply (Hbefore (Z.of_nat m)).
      - apply lookup_lt_Some in Hm. pose proof (zlen_active s Hn). unfold zlen in *. lia.
      - rewrite zget_nonneg by lia. by rewrite Nat2Z.id. }
  destruct (zget_is_Some (active s) i) as [e He]; [rewrite zlen_active; lia|].
  destruct (active_In s i e ltac:(lia) He) as [_ He'].
  wp_step. eapply wp_entry_get; [done|]. cbn beta.
  destruct (Z.leb_spec pages (size e)) as [Hfit|Hnofit].
  2:{ apply wp_ret. split_and!; [done..|]. intros j f Hj Hf.
      destruct (Z.eq_dec j i) as [->|]; [|apply (Hbefore j); [lia|done]].
      rewrite He in Hf. by injection Hf as <-. }
  assert (Hok : region_ok e) by (eapply wf_regions_ok; [done|by eapply zget_In]).
  wp_step. apply wp_stir; [unfold region_ok in Hok; lia|done|]. intros r Hr4.
  cbn beta zeta. rewrite take_front by (done || lia).
  wp_step. apply wp_entry_put; [simpl; lia|]. cbn beta.
  set (e' := mk_entry _ _). wp_step. apply wp_when; intros Hz.
  - (* the region is used up *)
    wp_step. apply wp_shift_down; simpl; [lia|rewrite zlen_zset; lia|].
    intros l Hl Hj. apply wp_modify. apply wp_ret. right. exists i, e.
    split_and!; try done.
    + unfold shrink. replace (size e =? pages) with true by lia. simpl.
      apply eq_reflexive_perm.
      rewrite <- (delete_put (active s) i e'), <- active_put by lia.
      apply (active_shift_down (set_entries (zset (pmm_entries s) i e') s) i l); simpl.
      * lia.
      * rewrite zlen_zset. lia.
      * intros j. rewrite Hj. by replace (i + Z.of_nat (Z.to_nat (pmm_size s - 1 - i))) with (pmm_size s - 1) by lia.
    + simpl. lia.
    + simpl. lia.
    + simpl. rewrite Hl, zlen_zset. lia.
    + split; simpl; try done. by rewrite Hl, zlen_zset.
  - apply wp_ret. right. exists i, e. split_and!; try done.
    + unfold shrink. replace (size e =? pages) with false by lia. simpl.
      transitivity (<[Z.to_nat i := e']> (active s)); [|by eapply perm_put].
      rewrite <- active_put by lia. done.
    + simpl. lia.
    + simpl. rewrite zlen_zset. lia.
    + split; simpl; try done. by rewrite zlen_zset.
Qed.

Lemma wp_alloc_search pages s :
  0 < pages -> 0 <= pmm_size s <= zlen (pmm_entries s) ->
  zlen (srand s) = 4 -> wf_regions (active s) ->
  wp (iter (S (Z.to_nat (pmm_size s))) (pmm_alloc_round pages) 0) (search_post pages s) s.
Proof.
  intros Hp Hn Hr Hwf.
  apply (wp_iter (fun i s' => s' = s /\ 0 <= i <= pmm_size s /\
           forall j f, j < i -> zget (active s) j = Some f -> size f < pages)
         (fun i _ => Z.to_nat (pmm_size s - i))).
  - intros i s' (->&Hi&Hbefore). eapply wp_mono; [apply wp_alloc_round; done || lia|].
    intros [i'|b] s'' H; [|done]. destruct H as (->&?&->&?). split; [|lia].
    split_and!; [done|lia..|done].
  - split_and!; [done|lia..|]. intros j f Hj Hf%zget_Some_lt. lia.
  - lia.
Qed.


(** The clearing of a block of [n] pages, as logged by [zero_pages]. *)
Fixpoint page_clears (n : nat) (p : Z) : list pmm_event :=
  match n with
  | O => []
  | S n' => EvMap LDYN_tmpmap1 p :: EvZero LDYN_tmpmap1 PAGESIZE :: page_clears n' (u64 (p + PAGESIZE))
  end.

Lemma run_zero_pages n p s :
  zero_pages n p s = Ret tt (set_log (pmm_log s ++ page_clears n p) s).
Proof.
  revert p s. induction n as [|n IH]; intros p s; simpl.
  - unfold ret. rewrite app_nil_r. by destruct s.
  - unfold bind, emit, modify. rewrite IH. simpl. by rewrite <- !app_assoc.
Qed.

(** How [pmm_alloc] clears the block it hands out. *)
Definition alloc_clears (lvl b pages : Z) : list pmm_event :=
  if lvl <? RUNLVL_VMEM then [EvZero b (u64 (Z.shiftl pages PAGEBITS))]
  else page_clears (Z.to_nat pages) b.

Lemma is_free_In s a e : In e (active s) -> in_region a e -> is_free s a.
Proof. intros H ?. apply Exists_exists. exists e. split; [by apply list_elem_of_In|done]. Qed.

Lemma Forall_apart_not_in a e l :
  Forall (apart e) l -> in_region a e -> Exists (in_region a) l -> False.
Proof.
  intros Hf He Hx. apply Exists_exists in Hx as (f & Hin & Hf').
  rewrite Forall_forall in Hf. specialize (Hf f Hin).
  unfold apart, in_region, region_end in *. lia.
Qed.

(** Taking pages off one region of a well-formed list. *)
Lemma shrink_spec pages e l :
  0 < pages <= size e -> wf_regions (e :: l) ->
  wf_regions (shrink pages e ++ l) /\
  sum_pages (shrink pages e ++ l) = sum_pages (e :: l) - pages /\
  (forall a, Exists (in_region a) (shrink pages e ++ l) <->
     Exists (in_region a) (e :: l) /\ ~ (base e <= a < base e + pages * PAGESIZE)).
Proof.
  intros Hp (Hok&Hap&Hwf). unfold shrink.
  assert (Hsep : forall a, in_region a e -> Exists (in_region a) l -> False)
    by (intros a; by apply Forall_apart_not_in).
  destruct (Z.eqb_spec (size e) pages) as [Heq|Hne]; simpl.
  - split_and!; [done|lia|]. intros a. rewrite Exists_cons.
    specialize (Hsep a). unfold in_region, region_end in *. rewrite <- Heq. tauto.
  - split_and!; try lia; try done.
    + unfold region_ok, region_end, PAGESIZE in *. simpl. lia.
    + eapply Forall_impl; [done|]. intros f. unfold apart, region_end, PAGESIZE. simpl. lia.
    + intros a. rewrite !Exists_cons. specialize (Hsep a).
      unfold in_region, region_end, PAGESIZE in *. simpl in *.
      split; [intros [|]; [split; [left|]; lia|]|].
      * split; [tauto|]. intros ?. apply Hsep; [lia|done].
      * intros ([|]&?); [left; lia|tauto].
Qed.

(** [pmm_alloc] is the search, under the lock, followed by the bookkeeping. *)
Lemma run_alloc t pages s :
  pmm_wf s -> magic t = OSZ_TCB_MAGICH -> 0 < pages ->
  exists b s', search_post pages (set_lock true s) b s' /\
    pmm_alloc t pages s = pmm_alloc_finish t pages b (set_lock false s').
Proof.
  intros [Hl Hn Hp Hw Hc Ht] Hm Hpos.
  assert (H : wp (iter (S (Z.to_nat (pmm_size s))) (pmm_alloc_round pages) 0)
                 (search_post pages (set_lock true s)) (set_lock true s))
    by (by apply (wp_alloc_search pages (set_lock true s))).
  apply wp_run in H as (b&s'&Hrun&Hpost). exists b, s'. split; [done|].
  unfold pmm_alloc, bind, get. replace (pmm_totalpages s <? pmm_freepages s) with false by lia.
  simpl. rewrite Hm, Z.eqb_refl. replace (pages =? 0) with false by lia. simpl.
  unfold lockacquire, bind, gets, modify. rewrite Hl. simpl in Hrun |- *.
  by rewrite Hrun.
Qed.

(** What a successful [pmm_alloc] promises: the block [b] it returns was free,
    has been cleared, and is exactly what left the set of free addresses. *)
Definition alloc_post (t : tcb_t) (pages : Z) (s : pmm_state) (bt : Z * tcb_t) (s' : pmm_state) : Prop :=
  let b := fst bt in
  pmm_wf s' /\ 0 < b /\
  (forall a, b <= a < b + pages * PAGESIZE -> is_free s a) /\
  (forall a, is_free s' a <-> is_free s a /\ ~ (b <= a < b + pages * PAGESIZE)) /\
  pmm_freepages s' = pmm_freepages s - pages /\
  pmm_totalpages s' = pmm_totalpages s /\ pmm_size s' <= pmm_size s /\
  zlen (pmm_entries s') = zlen (pmm_entries s) /\
  snd bt = set_allocmem (u64 (allocmem t + pages)) t /\
  pmm_log s' = pmm_log s ++ alloc_clears (runlevel s) b pages.

Lemma wp_alloc t pages s :
  pmm_wf s -> magic t = OSZ_TCB_MAGICH -> 0 < pages ->
  Exists (fun e => pages <= size e) (active s) ->
  wp (pmm_alloc t pages) (alloc_post t pages s) s.
Proof.
  intros Hwf Hm Hpos Hex. destruct (run_alloc t pages s Hwf Hm Hpos) as (b&s'&Hpost&Hrun).
  unfold wp. rewrite Hrun. clear Hrun.
  destruct Hpost as [(->&->&Hno)|(k&e&Hk&He&Hfit&->&_&Hperm&Hsz&Hn'&Hp'&Hsame)].
  { exfalso. apply Exists_exists in Hex as (e&Hin&He). rewrite Forall_forall in Hno.
    specialize (Hno e Hin). lia. }
  destruct Hwf as [Hl Hn Hp Hw Hc Ht], Hsame as [Hlen Htot Hlvl _ _ Hfree Hlog]. simpl in *.
  change (active (set_lock true s)) with (active s) in *.
  assert (Hok : region_ok e) by (eapply wf_regions_ok; [done|by eapply zget_In]).
  rewrite (perm_del _ _ _ Hk He) in Hw, Hc.
  destruct (shrink_spec pages e (delete (Z.to_nat k) (active s))) as (Hw'&Hc'&Hf'); [lia|done|].
  rewrite <- Hperm in Hw', Hc'. setoid_rewrite <- Hperm in Hf'.
  pose proof (sum_pages_nonneg _ Hw').
  unfold pmm_alloc_finish, bind, modify, gets, ret, emit.
  unfold region_ok in Hok. replace (base e =? 0) with false by lia. cbn -[u64].
  rewrite Hlvl, Hfree. simpl.
  assert (Hfp : u64 (pmm_freepages s - pages) = pmm_freepages s - pages) by (apply u64_small; lia).
  rewrite Hfp.
  set (s2 := set_freepages _ _).
  assert (Hgoal : forall lg, let s3 := set_log lg s2 in
    pmm_wf s3 /\ (forall a, is_free s3 a <-> is_free s a /\ ~ (base e <= a < base e + pages * PAGESIZE))).
  { intros lg. split.
    - split; simpl; try done; try lia.
      change (active (set_log lg s2)) with (active s'). lia.
    - intros a. unfold is_free at 2. rewrite (perm_del _ _ _ Hk He). apply Hf'. }
  assert (Hwas : forall a, base e <= a < base e + pages * PAGESIZE -> is_free s a).
  { intros a Ha. eapply is_free_In; [by eapply zget_In|].
    unfold in_region, region_end, PAGESIZE in *. lia. }
  unfold alloc_post, alloc_clears. destruct (runlevel s <? RUNLVL_VMEM); cbn -[u64].
  - rewrite Hlog. destruct (Hgoal (pmm_log s ++ [EvZero (base e) (u64 (Z.shiftl pages PAGEBITS))])).
    split_and!; simpl; try done; lia.
  - rewrite run_zero_pages. simpl. rewrite Hlog.
    destruct (Hgoal (pmm_log s ++ page_clears (Z.to_nat pages) (base e))).
    split_and!; simpl; try done; lia.
Qed.

(** C1: when some free region has enough pages, [pmm_alloc] returns the address
    of a block that was free, clears it, takes exactly that block out of the set
    of free addresses, adjusts both page counters and keeps the invariant of the
    region list. *)
Theorem pmm_alloc_ok t pages s :
  pmm_wf s -> magic t = OSZ_TCB_MAGICH -> 0 < pages ->
  Exists (fun e => pages <= size e) (active s) ->
  wp (pmm_alloc t pages) (alloc_post t pages s) s.
Proof. apply wp_alloc. Qed.

(** When no free region is large enough, [pmm_alloc] changes nothing but the
    error code, and only once the system runs; during start-up it stops the
    machine instead. *)
Theorem pmm_alloc_none t pages s :
  pmm_wf s -> magic t = OSZ_TCB_MAGICH -> 0 < pages ->
  Forall (fun e => size e < pages) (active s) ->
  pmm_alloc t pages s =
    if runlevel s <? RUNLVL_NORM then Exit PANIC_outofram s
    else Ret (0, t) (set_errno ENOMEM s).
Proof.
  intros Hwf Hm Hpos Hno. destruct (run_alloc t pages s Hwf Hm Hpos) as (b&s'&Hpost&->).
  destruct Hpost as [(->&->&_)|(k&e&Hk&He&Hfit&->&_)].
  - destruct Hwf as [Hl _ _ _ _ _]. destruct s; simpl in *; subst.
    unfold pmm_alloc_finish, bind, gets, when, stop, seterr, modify, ret. simpl.
    by destruct (runlevel0 <? RUNLVL_NORM).
  - exfalso. rewrite Forall_forall in Hno. apply zget_In, list_elem_of_In in He.
    specialize (Hno e He). lia.
Qed.


(** ** Freeing *)

(** Two adjacent regions as one. *)
Definition join (e r : pmm_entry_t) : pmm_entry_t :=
  mk_entry (Z.min (base e) (base r)) (size e + size r).

Definition adjacent (e r : pmm_entry_t) : Prop := region_end e = base r \/ region_end r = base e.

(** No two regions touch: the list has as few entries as it can. *)
Fixpoint separated (l : list pmm_entry_t) : Prop :=
  match l with
  | [] => True
  | e :: l' => Forall (fun f => ~ adjacent e f) l' /\ separated l'
  end.

#[export] Instance separated_perm : Proper (Permutation ==> iff) separated.
Proof.
  intros l k H. induction H as [|e l k H IH|e f l|]; simpl; [done| | |tauto].
  - by rewrite IH, H.
  - rewrite !Forall_cons. unfold adjacent. tauto.
Qed.

(** The region at [i] may touch others on one of its sides, no other two regions touch. *)
Definition half_separated (i : Z) (l : list pmm_entry_t) : Prop :=
  exists e D, zget l i = Some e /\ l ≡ₚ e :: D /\ separated D /\
    (Forall (fun f => region_end f <> base e) D \/ Forall (fun f => region_end e <> base f) D).

Lemma join_spec e r l :
  adjacent e r -> wf_regions (e :: r :: l) ->
  wf_regions (join e r :: l) /\
  sum_pages (join e r :: l) = sum_pages (e :: r :: l) /\
  (forall a, Exists (in_region a) (join e r :: l) <-> Exists (in_region a) (e :: r :: l)).
Proof.
  intros Hadj (Hok&[Her Hel]%Forall_cons&Hokr&Hrl&Hwf). split_and!.
  - split_and!; [|..|done].
    + clear - Hok Hokr Hadj. unfold adjacent, region_ok, region_end, join, PAGESIZE in *.
      cbn [base size]. lia.
    + rewrite Forall_forall in Hel, Hrl |- *. intros f Hf. specialize (Hel f Hf).
      specialize (Hrl f Hf).
      assert (Hf' : region_ok f) by (eapply wf_regions_ok; [done|by apply list_elem_of_In]).
      clear - Hel Hrl Hok Hokr Hadj Hf'.
      unfold adjacent, apart, region_ok, region_end, join, PAGESIZE in *. cbn [base size]. lia.
  - simpl. lia.
  - intros a. rewrite !Exists_cons.
    assert (in_region a (join e r) <-> in_region a e \/ in_region a r); [|tauto].
    clear - Hok Hokr Hadj.
    unfold adjacent, in_region, region_ok, region_end, join, PAGESIZE in *. cbn [base size]. lia.
Qed.

Lemma entry_end_ok e : region_ok e -> entry_end e = region_end e.
Proof.
  unfold region_ok, region_end, entry_end. rewrite shiftl_pages. unfold PAGESIZE. intros.
  rewrite (u64_small (size e * 4096)) by lia. apply u64_small. lia.
Qed.

Lemma wp_free_search bs sz s :
  0 <= pmm_size s <= zlen (pmm_entries s) ->
  wp (iter (S (Z.to_nat (pmm_size s))) (free_search_round bs sz) 0)
     (fun p s' => s' = s /\
        match p with
        | AtFront i => exists e, 0 <= i /\ zget (active s) i = Some e /\ base e = u64 (bs + sz)
        | AtBack i => exists e, 0 <= i /\ zget (active s) i = Some e /\ entry_end e = bs
        | NewEntry i => i = pmm_size s /\ Forall (fun e => base e <> u64 (bs + sz) /\ entry_end e <> bs) (active s)
        end) s.
Proof.
  intros Hn.
  apply (wp_iter (fun i s' => s' = s /\ 0 <= i <= pmm_size s /\
                    forall k e, 0 <= k < i -> zget (active s) k = Some e -> base e <> u64 (bs + sz) /\ entry_end e <> bs)
                 (fun i _ => Z.to_nat (pmm_size s - i))); [|split_and!; [done|lia..|intros; lia]|lia].
  intros i s' (->&Hi&Hno). unfold free_search_round. wp_step. apply wp_gets. cbn beta.
  destruct (Z.ltb_spec i (pmm_size s)) as [Hlt|Hge].
  2:{ apply wp_ret. split; [done|]. split; [lia|]. apply Forall_forall. intros e He.
      apply list_elem_of_lookup in He as [k Hk]. apply (Hno (Z.of_nat k)).
      - apply lookup_lt_Some in Hk. pose proof (zlen_active s ltac:(lia)) as Hz. unfold zlen in Hz. lia.
      - rewrite zget_nonneg by lia. by rewrite Nat2Z.id. }
  destruct (zget_is_Some (active s) i) as [e He]; [rewrite zlen_active; lia|].
  destruct (active_In s i e ltac:(lia) He) as [_ He'].
  wp_step. eapply wp_entry_get; [done|]. cbn beta.
  repeat wp_step; b2p.
  - split; [done|]. exists e. split_and!; [lia|done|done].
  - split; [done|]. exists e. split_and!; [lia|done|done].
  - split; [split_and!; [done|lia..|]|lia]. intros k f Hk Hf. destruct (Z.eq_dec k i) as [->|]; [|apply (Hno k); [lia|done]].
    rewrite He in Hf. by injection Hf as <-.
Qed.

(** The region [r] has been added to the list, at index [i]. *)
Definition grown (r : pmm_entry_t) (s : pmm_state) (i : Z) (s' : pmm_state) : Prop :=
  (0 <= i < pmm_size s' /\ pmm_size s' <= zlen (pmm_entries s') /\
   wf_regions (active s') /\ sum_pages (active s') = sum_pages (r :: active s) /\
   (forall a, Exists (in_region a) (active s') <-> Exists (in_region a) (r :: active s)) /\
   srand s' = srand s /\ same_env s s') /\
  (separated (active s) -> half_separated i (active s')).

(** A region that grew touches others on the side it grew. *)
Lemma join_half e r D :
  adjacent e r -> region_ok e -> region_ok r -> separated (e :: D) ->
  separated D /\ (Forall (fun f => region_end f <> base (join e r)) D \/ Forall (fun f => region_end (join e r) <> base f) D).
Proof.
  intros Hadj He Hr [Hno HD]. split; [done|]. rewrite !Forall_forall in *.
  destruct Hadj as [Hadj|Hadj]; [left|right]; intros f Hf Ef; apply (Hno f Hf);
    unfold adjacent, join, region_end, region_ok, PAGESIZE in *; cbn [base size] in *; lia.
Qed.

(** Replacing region [i] by its union with an adjacent new region [r]. *)
Lemma grown_join r s i e :
  0 <= i -> zget (active s) i = Some e -> 0 <= pmm_size s <= zlen (pmm_entries s) ->
  adjacent e r -> wf_regions (r :: active s) ->
  grown r s i (set_entries (zset (pmm_entries s) i (join e r)) s).
Proof.
  intros Hi He Hn Hadj Hwf. destruct (active_In s i e ltac:(lia) He) as [Hlt _].
  assert (HA : r :: active s ≡ₚ e :: r :: delete (Z.to_nat i) (active s)).
  { rewrite (perm_del _ _ _ Hi He) at 1. constructor. }
  rewrite HA in Hwf. destruct (join_spec e r _ Hadj Hwf) as (Hw&Hs&Hc).
  assert (HB : active (set_entries (zset (pmm_entries s) i (join e r)) s)
               ≡ₚ join e r :: delete (Z.to_nat i) (active s)).
  { rewrite active_put by lia. by eapply perm_put. }
  pose proof Hwf as (Hoke&_&Hokr&_).
  unfold grown. split.
  { rewrite HB, HA. split_and!; try done; try (simpl; lia).
    - simpl. rewrite zlen_zset. lia.
    - intros a. rewrite HB, HA. apply Hc.
    - split; simpl; try done. by rewrite zlen_zset. }
  - intros Hsep. rewrite (perm_del _ _ _ Hi He) in Hsep. exists (join e r), (delete (Z.to_nat i) (active s)).
    split; [|split; [exact HB|by apply join_half]].
    rewrite active_put by lia. rewrite zget_nonneg by done. apply list_lookup_insert_eq.
    rewrite zget_nonneg in He by done. by apply lookup_lt_Some in He.
Qed.

Lemma wp_free_grow bs pages p s :
  let r := mk_entry bs pages in
  wf_regions (r :: active s) -> 0 <= pmm_size s < zlen (pmm_entries s) ->
  sum_pages (r :: active s) < 2 ^ 63 ->
  match p with
  | AtFront i => exists e, 0 <= i /\ zget (active s) i = Some e /\ base e = region_end r
  | AtBack i => exists e, 0 <= i /\ zget (active s) i = Some e /\ region_end e = bs
  | NewEntry i => i = pmm_size s /\ Forall (fun e => ~ adjacent r e) (active s)
  end ->
  wp (free_grow bs pages p) (grown r s) s.
Proof.
  intros r Hwf Hn Hsum Hp. unfold free_grow.
  assert (Hsz : forall i e, zget (active s) i = Some e -> u64 (size e + pages) = size e + pages).
  { intros i e He. apply zget_In in He. apply list_elem_of_In, elem_of_Permutation in He as [l' Hl'].
    rewrite Hl' in Hsum. simpl in Hsum. destruct Hwf as ((_&?&_)&_&Hw). rewrite Hl' in Hw.
    destruct Hw as ((_&?&_)&_&?%sum_pages_nonneg). apply u64_small. simpl in *. lia. }
  destruct p as [i|i|i].
  - destruct Hp as (e&Hi&He&Hb). destruct (active_In s i e ltac:(lia) He) as [Hlt He'].
    wp_step. eapply wp_entry_get; [done|]. wp_step. apply wp_entry_put; [lia|]. apply wp_ret.
    replace (mk_entry bs _) with (join e r); [apply grown_join; [done..|lia|unfold adjacent; lia|done]|].
    unfold join. simpl. rewrite (Hsz i e He). f_equal.
    unfold region_end, PAGESIZE in Hb. simpl in Hb. destruct Hwf as ((_&?&_)&_). simpl in *. lia.
  - destruct Hp as (e&Hi&He&Hb). destruct (active_In s i e ltac:(lia) He) as [Hlt He'].
    wp_step. eapply wp_entry_get; [done|]. wp_step. apply wp_entry_put; [lia|]. apply wp_ret.
    replace (mk_entry _ _) with (join e r); [apply grown_join; [done..|lia|unfold adjacent; by left|done]|].
    unfold join. simpl. rewrite (Hsz i e He). f_equal.
    assert (region_ok e) as (_&?&_) by (apply (wf_regions_ok (active s)); [apply Hwf|by eapply zget_In]).
    unfold region_end, PAGESIZE in Hb. lia.
  - destruct Hp as [-> Hno]. wp_step. apply wp_modify. wp_step. apply wp_entry_put; [simpl; lia|]. apply wp_ret.
    set (s' := set_entries _ _).
    assert (HB : active s' = active s ++ [r]).
    { apply zget_ext. intros j Hj. rewrite zget_active by (simpl; lia). simpl.
      pose proof (zlen_active s ltac:(lia)) as Hlen.
      destruct (Z.ltb_spec j (pmm_size s)).
      - rewrite zget_app_l, zget_active by lia. rewrite zget_zset_ne by lia.
        repeat case_match; try lia; done.
      - rewrite zget_app_r, Hlen by lia. destruct (Z.eq_dec j (pmm_size s)) as [->|].
        + rewrite zget_zset_eq, Z.sub_diag by lia. by case_match; [|lia].
        + rewrite zget_cons_S by lia. case_match; [lia|].
          unfold zget. by case_match. }
    assert (HP : active s' ≡ₚ r :: active s) by (rewrite HB; symmetry; apply Permutation_cons_append).
    unfold grown. split.
    { rewrite HP. split_and!; try done; simpl; try lia.
      + rewrite zlen_zset. lia.
      + intros a. by rewrite HP.
      + split; simpl; try done. by rewrite zlen_zset. }
    + intros Hsep. exists r, (active s). split; [|split; [done|split; [done|]]].
      * rewrite HB, zget_app_r by (rewrite zlen_active; lia). by rewrite zlen_active, Z.sub_diag by lia.
      * left. eapply Forall_impl; [exact Hno|]. intros e Hn' Ee. apply Hn'. by right.
Qed.

(** Putting [m] at [i] and deleting entry [j] replaces the two by [m]. *)
Lemma perm_two (A : list pmm_entry_t) i j ei ej m :
  i <> j -> 0 <= i -> 0 <= j -> zget A i = Some ei -> zget A j = Some ej ->
  exists D, A ≡ₚ ei :: ej :: D /\ delete (Z.to_nat j) (<[Z.to_nat i := m]> A) ≡ₚ m :: D.
Proof.
  intros Hne Hi Hj Hei Hej.
  assert (Hin : ej ∈ delete (Z.to_nat i) A).
  { apply list_elem_of_lookup. rewrite zget_nonneg in Hej by done.
    destruct (Z.ltb_spec j i).
    - exists (Z.to_nat j). by rewrite list_lookup_delete_lt by lia.
    - exists (Z.to_nat (j - 1)). rewrite list_lookup_delete_ge by lia.
      rewrite <- Hej. f_equal. lia. }
  apply elem_of_Permutation in Hin as [D HD]. exists D. split.
  - by rewrite <- HD, <- perm_del.
  - apply (Permutation_cons_inv (a := ej)). rewrite <- (perm_del _ j ej); [|done|].
    + rewrite (perm_put _ _ _ m Hi Hei), HD. constructor.
    + rewrite zget_nonneg in Hej |- * by done. by rewrite list_lookup_insert_ne by lia.
Qed.

(** The same free pages and the same rest, possibly in another list. *)
Definition same_free (s s' : pmm_state) : Prop :=
  0 <= pmm_size s' <= zlen (pmm_entries s') /\ wf_regions (active s') /\
  sum_pages (active s') = sum_pages (active s) /\
  (forall a, Exists (in_region a) (active s') <-> Exists (in_region a) (active s)) /\
  srand s' = srand s /\ same_env s s'.

Lemma wp_merge i j ei ej b s (Q : Z + unit -> pmm_state -> Prop) :
  0 <= pmm_size s <= zlen (pmm_entries s) -> wf_regions (active s) ->
  sum_pages (active s) < 2 ^ 63 ->
  i <> j -> 0 <= i -> 0 <= j -> zget (active s) i = Some ei -> zget (active s) j = Some ej ->
  adjacent ei ej -> b = Z.min (base ei) (base ej) ->
  (forall s' D, same_free s s' -> active s ≡ₚ ei :: ej :: D -> active s' ≡ₚ join ei ej :: D -> Q (inr tt) s') ->
  wp (entry_put i (mk_entry b (u64 (size ei + size ej))) ;;;
      shift_down (Z.to_nat (pmm_size s - j - 1)) j ;;;
      modify (set_size (pmm_size s - 1)) ;;; ret (inr tt)) Q s.
Proof.
  intros Hn Hwf Hsum Hne Hi Hj Hei Hej Hadj -> HQ.
  destruct (active_In s i ei ltac:(lia) Hei) as [Hlti _].
  destruct (active_In s j ej ltac:(lia) Hej) as [Hltj _].
  destruct (perm_two _ i j ei ej (join ei ej) Hne Hi Hj Hei Hej) as (D&HA&HD).
  pose proof HA as HA0. rewrite HA in Hwf, Hsum. destruct (join_spec ei ej D Hadj Hwf) as (Hw&Hs&Hc).
  replace (mk_entry _ _) with (join ei ej).
  2:{ unfold join. f_equal. symmetry. apply u64_small.
      destruct Hwf as ((_&?&_)&_&(_&?&_)&_&?%sum_pages_nonneg). simpl in Hsum. lia. }
  wp_step. apply wp_entry_put; [lia|].
  set (s1 := set_entries _ s). wp_step. apply wp_shift_down; [lia|simpl; rewrite zlen_zset; lia|].
  intros l Hl Hlj. wp_step. apply wp_modify. apply wp_ret.
  assert (HB : active (set_size (pmm_size s - 1) (set_entries l s1)) ≡ₚ join ei ej :: D).
  { rewrite <- HD, <- active_put by lia. apply eq_reflexive_perm.
    apply (active_shift_down s1 j l); simpl; [lia|rewrite zlen_zset; lia|].
    intros k. rewrite Hlj.
    by replace (j + Z.of_nat (Z.to_nat (pmm_size s - j - 1))) with (pmm_size s - 1) by lia. }
  simpl in Hl. rewrite zlen_zset in Hl. apply (HQ _ D); [|done|done].
  unfold same_free. rewrite HB, HA. split_and!; try done; try (simpl; lia).
  intros a. by rewrite HB, HA.
Qed.

(** A region that touches none leaves the list separated, and so does merging with the one
    it touches. *)
Lemma half_alone i l ei :
  0 <= i -> zget l i = Some ei -> (forall k f, zget l k = Some f -> ~ adjacent ei f) ->
  half_separated i l -> separated l.
Proof.
  intros Hi Hei Hno (e&D&He&HP&HD&_). rewrite Hei in He. injection He as <-. rewrite HP. split; [|done].
  apply Forall_forall. intros f Hf. assert (f ∈ l) as Hl by (rewrite HP; by right).
  apply list_elem_of_lookup in Hl as [k Hk]. apply (Hno (Z.of_nat k)). rewrite zget_nonneg by lia. by rewrite Nat2Z.id.
Qed.
Lemma half_merged i l ei ej D :
  zget l i = Some ei -> wf_regions l -> l ≡ₚ ei :: ej :: D -> adjacent ei ej -> half_separated i l -> separated (join ei ej :: D).
Proof.
  intros Hei Hwf HA Hadj (e&D0&He&HP&HD&Hside). rewrite Hei in He. injection He as <-.
  assert (D0 ≡ₚ ej :: D) as HD0 by (apply (Permutation_cons_inv (a := ei)); by rewrite <- HP, HA).
  rewrite HD0 in HD. rewrite HA in Hwf. destruct HD as [Hno HD]. split; [|done].
  rewrite !HD0, !Forall_cons in Hside. destruct Hwf as (Hoki&[_ Hapi]%Forall_cons&Hokj&Hapj&Hw).
  apply Forall_forall. intros f Hf Hadjf. rewrite Forall_forall in Hno. apply (Hno f Hf).
  assert (Hokf : region_ok f) by (eapply wf_regions_ok; [done|by apply list_elem_of_In]).
  assert (Hs : region_end f <> base ei \/ region_end ei <> base f).
  { destruct Hside as [[_ H]|[_ H]]; rewrite Forall_forall in H; [left|right]; by apply H. }
  assert (Hs' : region_end ej <> base ei /\ region_end f <> base ei \/ region_end ei <> base ej /\ region_end ei <> base f).
  { destruct Hside as [[H1 H]|[H1 H]]; rewrite Forall_forall in H; [left|right]; split; try done; by apply H. }
  unfold adjacent, join, region_end, region_ok, PAGESIZE in *. cbn [base size] in *. lia.
Qed.

Lemma wp_free_merge i s :
  0 <= i < pmm_size s -> pmm_size s <= zlen (pmm_entries s) -> wf_regions (active s) ->
  sum_pages (active s) < 2 ^ 63 ->
  wp (iter (S (Z.to_nat (pmm_size s))) (free_merge_round i) 0)
     (fun _ s' => same_free s s' /\ (half_separated i (active s) -> separated (active s'))) s.
Proof.
  intros Hi Hn Hwf Hsum.
  assert (Hrefl : same_free s s) by (split_and!; try done; lia).
  destruct (zget_is_Some (active s) i) as [ei Hei]; [rewrite zlen_active; lia|].
  apply (wp_iter (fun j s' => s' = s /\ 0 <= j <= pmm_size s /\
                    forall k f, 0 <= k < j -> zget (active s) k = Some f -> ~ adjacent ei f)
                 (fun j _ => Z.to_nat (pmm_size s - j))); [|split_and!; [done|lia..|intros; lia]|lia].
  intros j s' (->&Hj&Hno). unfold free_merge_round. wp_step. apply wp_gets. cbn beta.
  destruct (Z.ltb_spec j (pmm_size s)) as [Hlt|Hge].
  2:{ apply wp_ret. split; [done|]. intros Hh. apply (half_alone i _ ei); [lia|done| |done]. intros k f Hf. apply Hno with k; [|done].
      pose proof (zget_Some_lt _ _ _ Hf) as Hk. rewrite zlen_active in Hk by lia. lia. }
  destruct (zget_is_Some (active s) j) as [ej Hej]; [rewrite zlen_active; lia|].
  destruct (active_In s i ei ltac:(lia) Hei) as [_ Hei'].
  destruct (active_In s j ej ltac:(lia) Hej) as [_ Hej'].
  assert (Hoki : region_ok ei) by (apply (wf_regions_ok (active s)); [done|by eapply zget_In]).
  assert (Hokj : region_ok ej) by (apply (wf_regions_ok (active s)); [done|by eapply zget_In]).
  wp_step. eapply wp_entry_get; [done|]. wp_step. eapply wp_entry_get; [done|].
  cbn beta zeta. rewrite !entry_end_ok by done.
  assert (Hself : forall e, region_ok e -> region_end e <> base e)
    by (unfold region_ok, region_end, PAGESIZE; intros; lia).
  destruct (Z.eqb_spec (region_end ei) (base ej)) as [E1|E1]; [|
    destruct (Z.eqb_spec (base ei) (region_end ej)) as [E2|E2]].
  - eapply wp_merge; try done; try lia; [|by left| |].
    + intros ->. rewrite Hei in Hej. injection Hej as ->. by apply (Hself ej).
    + unfold region_ok, region_end, PAGESIZE in *. lia.
    + intros s' D Hs' HA HB. split; [done|]. intros Hh. rewrite HB. apply (half_merged i (active s) ei ej D); try done. by left.
  - eapply wp_merge; try done; try lia; [|right; lia| |].
    + intros ->. rewrite Hei in Hej. injection Hej as ->. by apply (Hself ej).
    + unfold region_ok, region_end, PAGESIZE in *. lia.
    + intros s' D Hs' HA HB. split; [done|]. intros Hh. rewrite HB. apply (half_merged i (active s) ei ej D); try done. by right.
  - apply wp_ret. split; [split_and!; [done|lia..|]|lia]. intros k f Hk Hf. destruct (Z.eq_dec k j) as [->|]; [|apply Hno with k; [lia|done]].
    rewrite Hej in Hf. injection Hf as <-. unfold adjacent. lia.
Qed.

Lemma wp_stir_free bs pages (Q : unit -> pmm_state -> Prop) s :
  zlen (srand s) = 4 -> (forall r, zlen r = 4 -> Q tt (set_srand r s)) ->
  wp (stir_free bs pages) Q s.
Proof.
  intros Hp HQ. unfold stir_free. wp_step. apply wp_get. cbn beta zeta.
  assert (Hk : forall x, 0 <= Z.land x 3 < 4)
    by (intros x; change 3 with (Z.ones 2); rewrite Z.land_ones by lia; apply Z.mod_pos_bound; lia).
  destruct (zget_is_Some (srand s) (Z.land pages 3)) as [w0 H0]; [by rewrite Hp|].
  wp_step. eapply wp_need; [done|]. cbn beta.
  set (r0 := zset _ _ _). assert (Hr0 : zlen r0 = 4) by (unfold r0; by rewrite zlen_zset).
  destruct (zget_is_Some r0 (Z.land (pages + 2) 3)) as [w2 H2]; [by rewrite Hr0|].
  wp_step. eapply wp_need; [done|]. apply HQ. apply kentropy_len. by rewrite zlen_zset.
Qed.

(** What [pmm_free] promises: the pages join the free ones. *)
Definition free_post (t : tcb_t) (bs pages : Z) (s : pmm_state) (t' : tcb_t) (s' : pmm_state) : Prop :=
  pmm_wf s' /\
  (forall a, is_free s' a <-> is_free s a \/ bs <= a < bs + pages * PAGESIZE) /\
  pmm_freepages s' = pmm_freepages s + pages /\
  pmm_totalpages s' = pmm_totalpages s /\
  t' = set_allocmem (u64 (allocmem t - pages)) t /\
  pmm_log s' = pmm_log s /\
  (separated (active s) -> separated (active s')).

Definition locked_post (r : pmm_entry_t) (s s' : pmm_state) : Prop :=
  0 <= pmm_size s' <= zlen (pmm_entries s') /\ wf_regions (active s') /\
  sum_pages (active s') = sum_pages (r :: active s) /\
  (forall a, is_free s' a <-> is_free s a \/ in_region a r) /\ zlen (srand s') = 4 /\
  same_env (set_freepages (pmm_freepages s + size r) s) s' /\
  (separated (active s) -> separated (active s')).

(** The part of [pmm_free] that runs under the lock, before the code [k]. *)
Lemma wp_free_locked {A} bs pages s (k : M pmm_state A) Q :
  let r := mk_entry bs pages in
  wf_regions (r :: active s) -> 0 <= pmm_size s < zlen (pmm_entries s) -> zlen (srand s) = 4 ->
  sum_pages (r :: active s) < 2 ^ 63 -> pmm_freepages s = sum_pages (active s) ->
  (forall s', locked_post r s s' -> wp k Q s') ->
  wp (stir_free bs pages ;;;
      n <-- gets pmm_size ;;
      p <-- iter (S (Z.to_nat n)) (free_search_round bs (u64 (Z.shiftl pages PAGEBITS))) 0 ;;
      i <-- free_grow bs pages p ;;
      modify (fun s => set_freepages (u64 (pmm_freepages s + pages)) s) ;;;
      n' <-- gets pmm_size ;;
      iter (S (Z.to_nat n')) (free_merge_round i) 0 ;;; k) Q s.
Proof.
  intros r Hwf Hn Hr Hsum Hcount HQ. pose proof Hwf as (Hok&Hap&Hw).
  assert (Hend : entry_end r = region_end r) by (by apply entry_end_ok).
  wp_step. apply wp_stir_free; [done|]. intros rr Hrr. set (s0 := set_srand rr s).
  wp_step. apply wp_gets. cbn beta.
  wp_step. eapply wp_mono; [apply (wp_free_search _ _ s0); simpl; lia|].
  intros p s1 (->&Hplace). wp_step.
  eapply wp_mono; [apply (wp_free_grow bs pages p s0); try done|].
  { destruct p as [i|i|i].
    1,2: destruct Hplace as (e&Hi&He&Hb); exists e; split_and!; try done.
    - change (base e = region_end r). by rewrite <- Hend.
    - rewrite <- Hb. symmetry. apply entry_end_ok. eapply wf_regions_ok; [done|by eapply zget_In].
    - destruct Hplace as [-> Hno]. split; [done|]. apply Forall_forall. intros e He. rewrite Forall_forall in Hno.
      destruct (Hno e He) as [H1 H2]. assert (region_ok e) as Hoke by (apply (wf_regions_ok (active s)); [done|by apply list_elem_of_In]).
      rewrite entry_end_ok in H2 by done. change (u64 (bs + _)) with (entry_end r) in H1. rewrite Hend in H1.
      intros [Ee|Ee]; [by apply H1|by apply H2]. }
  intros i s1 ((Hi&Hn1&Hw1&Hs1&Hf1&Hr1&Hsame1)&Hsep1).
  wp_step. apply wp_modify. set (s2 := set_freepages _ s1). wp_step. apply wp_gets. cbn beta.
  wp_step. eapply wp_mono; [apply (wp_free_merge i s2);
    [simpl; lia|simpl; lia|done|change (active s2) with (active s1); by rewrite Hs1]|].
  intros [] s3 ((Hn3&Hw3&Hs3&Hf3&Hr3&Hsame3)&Hsep3). destruct Hsame1, Hsame3. simpl in *.
  apply HQ. unfold locked_post. split_and!; try done; try lia; try congruence.
  - rewrite Hs3. exact Hs1.
  - intros a. unfold is_free at 1. rewrite Hf3. change (active s2) with (active s1).
    rewrite Hf1, Exists_cons. unfold is_free. tauto.
  - split; simpl; try congruence. rewrite same_freepages1, same_freepages0.
    apply u64_small. simpl in Hsum. destruct Hok as (_&?&_). simpl in *.
    pose proof (sum_pages_nonneg _ Hw). lia.
  - intros Hsep. apply Hsep3. change (active s2) with (active s1). apply Hsep1. exact Hsep.
Qed.

Lemma wp_free t bs pages s :
  pmm_wf s -> magic t = OSZ_TCB_MAGICH ->
  region_ok (mk_entry bs pages) -> Forall (apart (mk_entry bs pages)) (active s) ->
  pmm_size s < zlen (pmm_entries s) -> pmm_freepages s + pages <= pmm_totalpages s ->
  wp (pmm_free t bs pages) (free_post t bs pages s) s.
Proof.
  intros [Hl Hn Hp Hw Hc Ht] Hm Hok Hap Hroom Htot. pose proof Hok as (Hb&Hpos&_). simpl in Hb, Hpos.
  unfold pmm_free. replace (bs =? 0) with false by lia. simpl. rewrite Hm, Z.eqb_refl.
  replace (pages =? 0) with false by lia. simpl.
  wp_step. unfold lockacquire. wp_step. apply wp_gets. rewrite Hl. apply wp_modify.
  apply wp_free_locked; [by split_and!|simpl; lia|done| |done|].
  { simpl. change (active (set_lock true s)) with (active s). lia. }
  intros s' (Hn'&Hw'&Hs'&Hf'&Hp'&Hsame&Hsep). destruct Hsame. simpl in *.
  wp_step. apply wp_modify. wp_step. apply wp_get. cbn beta. wp_step. apply wp_when; intros Hc'.
  { b2p. simpl in *. lia. }
  apply wp_ret. unfold free_post. split_and!; try done.
  split; simpl; try done; try lia.
  change (active (set_lock true s)) with (active s) in Hs'.
  change (active (set_lock false s')) with (active s'). lia.
Qed.

(** C18: [pmm_free] of a block disjoint from the free memory, with room for one more
    entry, adds exactly that block to the set of free addresses, keeps the invariant and
    moves the counters by its pages; where no two regions touched before, none do
    afterwards: the block is merged with the regions on both of its sides. *)
Theorem pmm_free_ok t bs pages s :
  pmm_wf s -> magic t = OSZ_TCB_MAGICH ->
  region_ok (mk_entry bs pages) -> Forall (apart (mk_entry bs pages)) (active s) ->
  pmm_size s < zlen (pmm_entries s) -> pmm_freepages s + pages <= pmm_totalpages s ->
  wp (pmm_free t bs pages) (free_post t bs pages s) s.
Proof. apply wp_free. Qed.

(** A block whose addresses were free and are no longer is a region apart from
    the ones that remain. *)
Lemma taken_apart (l l' : list pmm_entry_t) b pages :
  wf_regions l -> wf_regions l' -> 0 < b -> 0 < pages ->
  (forall a, b <= a < b + pages * PAGESIZE -> Exists (in_region a) l) ->
  (forall a, Exists (in_region a) l' -> ~ (b <= a < b + pages * PAGESIZE)) ->
  region_ok (mk_entry b pages) /\ Forall (apart (mk_entry b pages)) l'.
Proof.
  intros Hl Hl' Hb Hp Hin Hout. split.
  - destruct (proj1 (Exists_exists _ _) (Hin (b + pages * PAGESIZE - 1)
                ltac:(unfold PAGESIZE; lia))) as (e&He&Hae).
    assert (region_ok e) by (apply (wf_regions_ok l); [done|by apply list_elem_of_In]).
    unfold region_ok, in_region, region_end, PAGESIZE in *. simpl. lia.
  - apply Forall_forall. intros e He.
    assert (region_ok e) by (apply (wf_regions_ok l'); [done|by apply list_elem_of_In]).
    pose proof (Hout (Z.max b (base e))) as Hx. rewrite Exists_exists in Hx.
    unfold region_ok, in_region, apart, region_end, PAGESIZE in *. simpl in *.
    destruct (Z.le_gt_cases (b + pages * 4096) (base e)); [by left|].
    destruct (Z.le_gt_cases (base e + size e * 4096) b); [by right|].
    exfalso. apply Hx; [|lia]. exists e. split; [done|lia].
Qed.

(** C19: freeing what [pmm_alloc] handed out gives back the same set of free
    addresses, the same page counter and the same task accounting. *)
Theorem alloc_free_roundtrip t pages s :
  pmm_wf s -> magic t = OSZ_TCB_MAGICH -> 0 < pages -> 0 <= allocmem t < 2 ^ 64 ->
  Exists (fun e => pages <= size e) (active s) -> pmm_size s < zlen (pmm_entries s) ->
  wp (bt <-- pmm_alloc t pages ;; pmm_free (snd bt) (fst bt) pages)
     (fun t' s' => pmm_wf s' /\ t' = t /\ (forall a, is_free s' a <-> is_free s a) /\
        pmm_freepages s' = pmm_freepages s) s.
Proof.
  intros Hwf Hm Hpos Hmem Hex Hroom. wp_step.
  eapply wp_mono; [by apply wp_alloc|].
  intros [b t'] s' (Hwf'&Hb&Hin&Hfree&Hcount&Htot&Hsz&Hlen&Ht&_). simpl in *. subst t'.
  destruct (taken_apart (active s) (active s') b pages) as [Hok Hap]; try done.
  { apply Hwf. } { apply Hwf'. } { intros a Ha. by apply Hfree. }
  pose proof (wf_total _ Hwf). eapply wp_mono; [apply wp_free; try done; lia|].
  intros t' s'' (Hwf''&Hfree'&Hcount'&_&->&_). split_and!; [done|..|lia].
  - destruct t; simpl in *. unfold set_allocmem. simpl. f_equal.
    unfold u64, wrap. rewrite Zminus_mod_idemp_l, Z.add_simpl_r. apply Z.mod_small. done.
  - intros a. rewrite Hfree', Hfree. specialize (Hin a).
    destruct (decide (b <= a < b + pages * PAGESIZE)); tauto.
Qed.

(** ** Slots *)

Definition SLOTPAGES : Z := SLOTSIZE / PAGESIZE.

(** What is left of a region when the slot at [b] is cut out of it. *)
Definition slot_rest (e : pmm_entry_t) (b : Z) : list pmm_entry_t :=
  let front := (b - base e) / PAGESIZE in
  (if front =? 0 then [] else [mk_entry (base e) front]) ++
  (if size e - (front + SLOTPAGES) =? 0 then []
   else [mk_entry (b + SLOTSIZE) (size e - (front + SLOTPAGES))]).

(** Region bases are page aligned and slots do not reach the end of the address
    space. *)
Definition slot_region (e : pmm_entry_t) : Prop :=
  base e mod PAGESIZE = 0 /\ region_end e + 2 * SLOTSIZE < 2 ^ 64.

(** The first slot boundary in the region [e]. *)
Definition slot_base (e : pmm_entry_t) : Z := (base e + SLOTSIZE - 1) / SLOTSIZE * SLOTSIZE.

(** Either a slot starts with the region or it ends before the region does. *)
Definition slot_inside (e : pmm_entry_t) : Prop :=
  slot_base e = base e \/ slot_base e + SLOTSIZE <> region_end e.

Lemma slot_up_ok e : region_ok e -> slot_region e -> slot_up (base e) = slot_base e.
Proof.
  unfold region_ok, slot_region, region_end, slot_up, slot_base. intros (?&?&?) (_&?).
  unfold SLOTSIZE, PAGESIZE in *. rewrite (u64_small (base e + _ - 1)) by lia.
  apply u64_small. pose proof (Z.mul_div_le (base e + 2097152 - 1) 2097152 ltac:(lia)).
  pose proof (Z.div_pos (base e + 2097152 - 1) 2097152 ltac:(lia) ltac:(lia)). lia.
Qed.

Lemma slot_base_bounds e : base e <= slot_base e < base e + SLOTSIZE.
Proof.
  unfold slot_base, SLOTSIZE. pose proof (Z.div_mod (base e + 2097152 - 1) 2097152 ltac:(lia)).
  pose proof (Z.mod_pos_bound (base e + 2097152 - 1) 2097152 ltac:(lia)). lia.
Qed.

Lemma slot_base_pages e :
  base e mod PAGESIZE = 0 -> slot_base e - base e = (slot_base e - base e) / PAGESIZE * PAGESIZE.
Proof.
  intros Hb. unfold PAGESIZE in *. pose proof (Z.div_mod (base e) 4096 ltac:(lia)).
  replace (slot_base e) with ((base e + SLOTSIZE - 1) / SLOTSIZE * 512 * 4096)
    by (unfold slot_base, SLOTSIZE; lia).
  rewrite Hb in *. replace (base e) with (base e / 4096 * 4096) at 2 4 by lia.
  rewrite <- Z.mul_sub_distr_r, Z.div_mul by lia. done.
Qed.

Lemma slot_rest_in e a :
  slot_region e -> slot_base e + SLOTSIZE <= region_end e -> region_ok e ->
  Exists (in_region a) (slot_rest e (slot_base e)) <->
  in_region a e /\ ~ (slot_base e <= a < slot_base e + SLOTSIZE).
Proof.
  intros [Hal Hfar] Hfit (Hb0&Hs0&He0). pose proof (slot_base_bounds e) as Hb.
  pose proof (slot_base_pages e Hal) as Hpg. unfold slot_rest.
  set (f := (slot_base e - base e) / PAGESIZE) in *. clearbody f.
  unfold in_region. change SLOTPAGES with 512. unfold region_end, SLOTSIZE, PAGESIZE in *.
  destruct (Z.eqb_spec f 0), (Z.eqb_spec (size e - (f + 512)) 0); simpl;
    rewrite ?Exists_cons, ?Exists_nil; unfold region_end, PAGESIZE; simpl; lia.
Qed.

(** Cutting a slot out of one region of a well-formed list. *)
Lemma slot_rest_spec e l :
  slot_region e -> slot_base e + SLOTSIZE <= region_end e -> wf_regions (e :: l) ->
  wf_regions (slot_rest e (slot_base e) ++ l) /\
  sum_pages (slot_rest e (slot_base e) ++ l) = sum_pages (e :: l) - SLOTPAGES.
Proof.
  intros [Hal Hfar] Hfit (Hok&Hap&Hwf). pose proof (slot_base_bounds e) as Hb.
  pose proof (slot_base_pages e Hal) as Hpg. set (f := (slot_base e - base e) / PAGESIZE) in *.
  unfold slot_rest. fold f. change SLOTPAGES with 512. unfold SLOTSIZE, PAGESIZE in *.
  assert (Hshrink : forall x n, base e <= x -> 0 < n -> x + n * 4096 <= region_end e ->
             Forall (apart (mk_entry x n)) l).
  { intros x n ???. eapply Forall_impl; [done|]. intros g.
    unfold apart, region_end, PAGESIZE in *. simpl. lia. }
  assert (Hsz : base e + size e * 4096 = region_end e) by done.
  destruct Hok as (Hb0&Hs0&He0).
  destruct (Z.eqb_spec f 0), (Z.eqb_spec (size e - (f + 512)) 0); simpl; split_and!; try lia;
    try done; try (apply Forall_cons; split); try (apply Hshrink; lia);
    try (unfold region_ok, region_end, apart, PAGESIZE; simpl; lia);
    try (unfold apart, region_end, PAGESIZE; simpl; lia).
Qed.

Lemma slot_rest_free e l a :
  slot_region e -> slot_base e + SLOTSIZE <= region_end e -> wf_regions (e :: l) ->
  Exists (in_region a) (slot_rest e (slot_base e) ++ l) <->
  Exists (in_region a) (e :: l) /\ ~ (slot_base e <= a < slot_base e + SLOTSIZE).
Proof.
  intros Hr Hfit (Hok&Hap&_). rewrite Exists_app, Exists_cons, slot_rest_in by done.
  pose proof (Forall_apart_not_in a e l Hap). pose proof (slot_base_bounds e).
  assert (slot_base e <= a < slot_base e + SLOTSIZE -> in_region a e)
    by (unfold in_region; lia).
  tauto.
Qed.

(** Removing entry [i] from the list in use. *)
Lemma wp_remove i (Q : unit -> pmm_state -> Prop) s :
  0 <= i < pmm_size s -> pmm_size s <= zlen (pmm_entries s) ->
  (forall s', active s' = delete (Z.to_nat i) (active s) -> pmm_size s' = pmm_size s - 1 ->
     srand s' = srand s -> same_env s s' -> Q tt s') ->
  wp (shift_down (Z.to_nat (pmm_size s - 1 - i)) i ;;; modify (set_size (pmm_size s - 1))) Q s.
Proof.
  intros Hi Hn HQ. wp_step. apply wp_shift_down; [lia..|]. intros l Hl Hj. apply wp_modify.
  apply HQ; [|done|done|by split].
  apply active_shift_down; [done|done|]. intros j. rewrite Hj.
  by replace (i + Z.of_nat (Z.to_nat (pmm_size s - 1 - i))) with (pmm_size s - 1) by lia.
Qed.

(** Making room at [i] and writing the two parts of a split region. *)
Lemma perm_split s i e x y l :
  0 <= i -> zget (active s) i = Some e -> 0 <= pmm_size s < zlen (pmm_entries s) ->
  zlen l = zlen (pmm_entries s) ->
  (forall k, zget l k = if (i <? k) && (k <=? pmm_size s)
                        then zget (pmm_entries s) (k - 1) else zget (pmm_entries s) k) ->
  active (set_entries (zset (zset l i x) (i + 1) y) (set_size (pmm_size s + 1) s))
    ≡ₚ x :: y :: delete (Z.to_nat i) (active s).
Proof.
  intros Hi He Hn Hlen Hl. destruct (active_In s i e ltac:(lia) He) as [Hlt He'].
  set (s0 := set_entries l (set_size (pmm_size s + 1) s)).
  set (s1 := set_entries (zset l i x) s0).
  assert (HB : delete (Z.to_nat i) (active s0) = active s).
  { apply zget_ext. intros k Hk. rewrite zget_delete by lia. rewrite !zget_active by (simpl; lia).
    simpl. rewrite !Hl. repeat case_match; try lia; try done. by rewrite Z.add_simpl_r. }
  assert (Hi0 : zget (active s0) i = Some e).
  { rewrite zget_active by (simpl; lia). simpl. rewrite Hl. by repeat case_match; try lia. }
  assert (H1 : active s1 ≡ₚ x :: active s).
  { unfold s1. rewrite (active_put s0) by (simpl; lia). rewrite <- HB. by eapply perm_put. }
  assert (Hi1 : zget (active s1) (i + 1) = Some e).
  { rewrite zget_active by (simpl; lia). simpl. rewrite zget_zset_ne, Hl by lia.
    rewrite Z.add_simpl_r. by repeat case_match; try lia. }
  change (set_entries _ _) with (set_entries (zset (pmm_entries s1) (i + 1) y) s1).
  rewrite active_put by (simpl; lia). rewrite (perm_put (active s1) (i + 1) e y ltac:(lia) Hi1).
  etransitivity; [|apply Permutation_swap]. constructor.
  apply (Permutation_cons_inv (a := e)). rewrite <- (perm_del (active s1) (i + 1) e ltac:(lia) Hi1), H1.
  rewrite (perm_del _ _ _ Hi He) at 1. apply Permutation_swap.
Qed.

(** The clearing of a slot. *)
Definition slot_clears (lvl b : Z) : list pmm_event :=
  if lvl <? RUNLVL_VMEM then [EvZero b SLOTSIZE]
  else [EvMap LDYN_tmpslot b; EvZero LDYN_tmpslot SLOTSIZE].

Definition fits_slot (e : pmm_entry_t) : Prop := slot_base e + SLOTSIZE <= region_end e.

(** The region list after a slot was cut out of region [k]. *)
Definition slot_taken (s : pmm_state) (k : Z) (e : pmm_entry_t) (s' : pmm_state) : Prop :=
  active s' ≡ₚ slot_rest e (slot_base e) ++ delete (Z.to_nat k) (active s) /\
  0 <= pmm_size s' <= zlen (pmm_entries s') /\ zlen (srand s') = 4 /\ same_env s s'.

Lemma wp_slot_cut {A} k e s (K : M pmm_state A) (Q : A -> pmm_state -> Prop) :
  0 <= k -> zget (active s) k = Some e -> 0 <= pmm_size s < zlen (pmm_entries s) ->
  zlen (srand s) = 4 -> region_ok e -> slot_region e -> slot_inside e -> fits_slot e ->
  (forall s', slot_taken s k e s' -> wp K Q s') ->
  wp (kk <-- (if negb (slot_base e =? base e) then
               shift_up (Z.to_nat (pmm_size s - k)) (pmm_size s) ;;;
               modify (set_size (pmm_size s + 1)) ;;;
               let s := Z.shiftr (slot_base e - base e) PAGEBITS in
               entry_put k (mk_entry (base e) s) ;;;
               ret (k + 1, s)
             else ret (k, 0)) ;;
      let (f, sk) := (kk : Z * Z) in
      e' <-- entry_get f ;;
      let sz := u64 (size e' - (sk + SLOTSIZE / PAGESIZE)) in
      entry_put f (mk_entry (u64 (slot_base e + SLOTSIZE)) sz) ;;;
      n' <-- gets pmm_size ;;
      when (sz =? 0)
        (shift_down (Z.to_nat (n' - 1 - k)) k ;;; modify (set_size (n' - 1))) ;;; K) Q s.
Proof.
  intros Hk He Hn Hr Hok Hreg Hins Hfit HQ. destruct (active_In s k e ltac:(lia) He) as [Hlt He'].
  pose proof Hok as (Hb0&Hs0&He0). pose proof (slot_base_bounds e) as Hb.
  destruct Hreg as [Hal Hfar]. pose proof (slot_base_pages e Hal) as Hpg.
  unfold slot_taken, slot_rest in HQ. unfold fits_slot, slot_inside in *.
  set (b := slot_base e) in *. set (f := (b - base e) / PAGESIZE) in *.
  change (SLOTSIZE / PAGESIZE) with SLOTPAGES.
  assert (Hf : Z.shiftr (b - base e) PAGEBITS = f) by (apply Z.shiftr_div_pow2; done).
  rewrite Hf. assert (Hend : base e + size e * PAGESIZE = region_end e) by done.
  assert (SLOTSIZE = SLOTPAGES * PAGESIZE) as Hsp by done.
  unfold PAGESIZE in Hpg, Hend, Hsp.
  rewrite (u64_small (b + SLOTSIZE)) by (unfold SLOTSIZE in *; lia).
  destruct (Z.eqb_spec b (base e)) as [Heq|Hne]; simpl.
  - (* aligned: the slot is the front of the region *)
    replace f with 0 in HQ by lia. simpl in HQ.
    wp_step. apply wp_ret. cbn beta iota. wp_step. eapply wp_entry_get; [done|]. cbn beta.
    rewrite (u64_small (size e - _)) by (unfold SLOTSIZE in *; lia).
    wp_step. apply wp_entry_put; [lia|]. wp_step. apply wp_gets. cbn beta.
    set (e2 := mk_entry (b + SLOTSIZE) _) in *. set (s1 := set_entries _ s).
    assert (Ha1 : active s1 = <[Z.to_nat k := e2]> (active s)) by (by apply active_put).
    assert (Hlen1 : zlen (pmm_entries s1) = zlen (pmm_entries s)) by (simpl; by rewrite zlen_zset).
    wp_step. apply wp_when; intros Hz; rewrite Hz in HQ; simpl in HQ.
    + apply wp_remove; [done|rewrite Hlen1; simpl; lia|]. intros s' Ha Hsz Hrr []. apply HQ.
      rewrite Ha, Ha1, delete_put. simpl in *.
      split_and!; try done; try lia; [congruence|]. split; simpl; congruence.
    + apply HQ. rewrite Ha1. split_and!; [by eapply perm_put|rewrite ?Hlen1; simpl; lia..|done|].
      split; simpl; try done.
  - (* unaligned: the region is split in two *)
    assert (f <> 0) by lia. replace (f =? 0) with false in HQ by lia.
    rewrite (proj2 (Z.eqb_neq (size e - (f + SLOTPAGES)) 0)) in HQ by (destruct Hins; lia).
    wp_step. wp_step. apply wp_shift_up; [lia|]. intros l Hl Hlk.
    wp_step. apply wp_modify. cbn zeta. wp_step. apply wp_entry_put; [simpl; lia|].
    apply wp_ret. cbn beta iota. wp_step.
    eapply (wp_entry_get _ e).
    { simpl. rewrite zget_zset_ne, Hlk by lia. rewrite Z.add_simpl_r.
      by repeat case_match; try lia. }
    cbn beta. rewrite (u64_small (size e - _)) by (unfold SLOTSIZE in *; lia).
    wp_step. apply wp_entry_put; [simpl; rewrite zlen_zset; lia|].
    wp_step. apply wp_gets. cbn beta. wp_step. apply wp_when; [destruct Hins; lia|]. intros _.
    apply HQ. split_and!; simpl; rewrite ?zlen_zset; try lia; try done.
    + apply (perm_split s k e); try done. intros j. rewrite Hlk.
      by replace (pmm_size s - Z.of_nat (Z.to_nat (pmm_size s - k))) with k by lia.
    + split; simpl; rewrite ?zlen_zset; done.
Qed.

(** What [pmm_allocslot] promises when it finds a region with a slot in it. *)
Definition allocslot_post (t : tcb_t) (s : pmm_state) (bt : Z * tcb_t) (s' : pmm_state) : Prop :=
  let b := fst bt in
  pmm_wf s' /\ b mod SLOTSIZE = 0 /\
  (forall a, b <= a < b + SLOTSIZE -> is_free s a) /\
  (forall a, is_free s' a <-> is_free s a /\ ~ (b <= a < b + SLOTSIZE)) /\
  pmm_freepages s' = pmm_freepages s - SLOTPAGES /\
  snd bt = set_allocmem (u64 (allocmem t + SLOTPAGES)) t /\
  pmm_log s' = pmm_log s ++ slot_clears (runlevel s) b.

Lemma fits_slot_ok e :
  region_ok e -> slot_region e ->
  (u64 (slot_up (base e) + SLOTSIZE) <=? u64 (base e + u64 (Z.shiftl (size e) PAGEBITS))) = true
  <-> fits_slot e.
Proof.
  intros Hok Hreg. rewrite slot_up_ok by done.
  change (u64 (base e + _)) with (entry_end e). rewrite entry_end_ok by done.
  pose proof (slot_base_bounds e). destruct Hreg as [_ Hfar]. destruct Hok as (?&?&?).
  assert (base e < region_end e) by (unfold region_end, PAGESIZE; lia).
  unfold fits_slot. rewrite Z.leb_le. 
  destruct (Z.le_gt_cases (slot_base e + SLOTSIZE) (2 ^ 64 - 1)).
  - by rewrite u64_small by (unfold SLOTSIZE in *; lia).
  - unfold SLOTSIZE in *. lia.
Qed.

(** The end of the round that takes region [k]: counters, clearing, unlocking. *)
Lemma slot_taken_post t s k e s' lg :
  pmm_wf s -> 0 <= k -> zget (active s) k = Some e -> slot_region e -> fits_slot e ->
  slot_taken (set_lock true s) k e s' ->
  lg = pmm_log s ++ slot_clears (runlevel s) (slot_base e) ->
  allocslot_post t s (slot_base e, set_allocmem (u64 (allocmem t + SLOTPAGES)) t)
    (set_lock false (set_log lg (set_freepages (u64 (pmm_freepages s' - SLOTPAGES)) s'))).
Proof.
  intros [Hl Hn Hp Hw Hc Ht] Hk He Hreg Hfit (Hperm&Hn'&Hr'&[]) ->. simpl in *.
  change (active (set_lock true s)) with (active s) in Hperm.
  pose proof Hw as Hw0. rewrite (perm_del _ _ _ Hk He) in Hw0, Hc.
  destruct (slot_rest_spec e _ Hreg Hfit Hw0) as [Hw' Hs']. rewrite <- Hperm in Hw', Hs'.
  pose proof (sum_pages_nonneg _ Hw'). unfold SLOTPAGES, SLOTSIZE, PAGESIZE in *.
  change (2097152 / 4096) with 512 in *.
  assert (Hfp : u64 (pmm_freepages s' - 512) = pmm_freepages s - 512).
  { rewrite same_freepages0. apply u64_small. lia. }
  unfold allocslot_post. simpl. rewrite Hfp. split_and!; try done; try lia.
  - split; simpl; try done; try lia. change (active (set_lock _ _)) with (active s'). lia.
  - unfold slot_base. apply Z_mod_mult.
  - intros a Ha. eapply is_free_In; [by eapply zget_In|].
    pose proof (slot_base_bounds e). unfold in_region, fits_slot, SLOTSIZE in *. lia.
  - intros a. unfold is_free. change (active (set_lock _ _)) with (active s').
    rewrite Hperm, slot_rest_free by done. by rewrite (perm_del _ _ _ Hk He) at 2.
Qed.

Lemma wp_allocslot_round t s i :
  pmm_wf s -> 0 <= i -> pmm_size s < zlen (pmm_entries s) ->
  Forall slot_region (active s) -> Forall (fun e => fits_slot e -> slot_inside e) (active s) ->
  wp (pmm_allocslot_round t i)
     (fun r s' => match r with
                  | inl i' => i' = i + 1 /\ i < pmm_size s /\ s' = set_lock true s /\
                      exists e, zget (active s) i = Some e /\ ~ fits_slot e
                  | inr None => s' = set_lock true s /\ pmm_size s <= i
                  | inr (Some bt) => allocslot_post t s bt s'
                  end) (set_lock true s).
Proof.
  intros Hwf Hi Hroom Hreg Hins. pose proof Hwf as [Hl Hn Hp Hw Hc Ht].
  unfold pmm_allocslot_round. wp_step. apply wp_gets. simpl.
  destruct (Z.ltb_spec i (pmm_size s)) as [Hlt|Hge]; [|by apply wp_ret].
  destruct (zget_is_Some (active s) i) as [e He]; [rewrite zlen_active; lia|].
  destruct (active_In s i e ltac:(lia) He) as [_ He'].
  assert (Hin : e ∈ active s) by (apply list_elem_of_In; by eapply zget_In).
  rewrite Forall_forall in Hreg, Hins. specialize (Hreg e Hin). specialize (Hins e Hin).
  assert (Hok : region_ok e) by (apply (wf_regions_ok (active s)); [done|by eapply zget_In]).
  wp_step. eapply wp_entry_get; [done|]. cbn beta zeta. pose proof (fits_slot_ok e Hok Hreg) as Hfits.
  rewrite slot_up_ok in * by done.
  destruct (_ <=? _); [|apply wp_ret; split_and!; [done..|]; exists e; split; [done|]; intros Hx; by apply Hfits in Hx].
  assert (Hfit : fits_slot e) by (by apply Hfits). specialize (Hins Hfit).
  wp_step. apply wp_stir; [destruct Hok; lia|done|]. intros r Hr. set (s0 := set_srand r _).
  change (pmm_size s) with (pmm_size s0).
  apply (wp_slot_cut i e s0); try done; [simpl; lia|]. intros s1 Htk.
  assert (Htk' : slot_taken (set_lock true s) i e s1).
  { destruct Htk as (Ha&Hb&Hc'&[]). refine (conj Ha (conj Hb (conj Hc' _))). by split. }
  pose proof Htk' as (_&_&_&[]). simpl in *.
  wp_step. apply wp_modify. wp_step. apply wp_gets. simpl. rewrite same_lvl0.
  pose proof (slot_taken_post t s i e s1) as Hpost.
  assert (Hp1 : forall lg, lg = pmm_log s ++ slot_clears (runlevel s) (slot_base e) -> _)
    by (intros lg Hlg; exact (Hpost lg Hwf Hi He Hreg Hfit Htk' Hlg)).
  unfold slot_clears in Hp1. rewrite <- same_log0 in Hp1.
  wp_step. destruct (runlevel s <? RUNLVL_VMEM); unfold emit, lockrelease; wp_go.
  - apply (Hp1 _ eq_refl).
  - unfold set_log at 1. simpl. rewrite <- app_assoc. apply (Hp1 _ eq_refl).
Qed.

(** when every region can give an aligned slot without the slot ending
    exactly at the end of an unaligned region, [pmm_allocslot] returns a 2M
    aligned block that was free, clears it, takes exactly it out of the free
    memory and keeps the invariant; it fails only when no region holds a slot. *)
Theorem pmm_allocslot_ok t s :
  pmm_wf s -> magic t = OSZ_TCB_MAGICH -> pmm_size s < zlen (pmm_entries s) ->
  Forall slot_region (active s) -> Forall (fun e => fits_slot e -> slot_inside e) (active s) ->
  Exists fits_slot (active s) ->
  wp (pmm_allocslot t) (allocslot_post t s) s.
Proof.
  intros Hwf Hm Hroom Hreg Hins Hex. pose proof Hwf as [Hl Hn _ _ _ _].
  unfold pmm_allocslot. rewrite Hm. simpl.
  wp_step. unfold lockacquire. wp_step. apply wp_gets. rewrite Hl. apply wp_modify.
  wp_step. apply wp_gets. simpl. wp_step.
  eapply wp_mono.
  - apply (wp_iter (fun i s' => s' = set_lock true s /\ 0 <= i <= pmm_size s /\
             forall j e, j < i -> zget (active s) j = Some e -> ~ fits_slot e)
           (fun i _ => Z.to_nat (pmm_size s - i))
           _ (fun r s' => exists bt, r = Some bt /\ allocslot_post t s bt s')).
    + intros i s' (->&Hi&Hno). eapply wp_mono; [by apply wp_allocslot_round; try lia|].
      intros [i'|[bt|]] s'; [|by eexists|].
      * intros (->&Hlt&->&e&He&Hnf). split; [|lia]. split_and!; [done|lia..|].
        intros j f Hj Hf. destruct (Z.eq_dec j i) as [->|]; [|apply (Hno j); [lia|done]].
        by rewrite He in Hf; injection Hf as <-.
      * intros (_&Hge). exfalso. apply Exists_exists in Hex as (e&[m Hm']%list_elem_of_lookup&Hf).
        apply (Hno (Z.of_nat m) e); [|by rewrite zget_nonneg, Nat2Z.id by lia|done].
        apply lookup_lt_Some in Hm'. pose proof (zlen_active s Hn). unfold zlen in *. lia.
    + split_and!; [done|lia..|]. intros j e Hj He%zget_Some_lt. lia.
    + lia.
  - intros r s' (bt&->&Hpost). by apply wp_ret.
Qed.

End Alloc.

(** ** Concrete runs *)

Module Sample.

Definition plain : Entropy := fun r => r.
#[export] Existing Instance plain.
#[export] Instance plain_ok : EntropyOk plain.
Proof. by intros r. Qed.

(** Two free regions, four pages at 1M and 4M at 2M, and room for three more. *)
Definition mem : pmm_state :=
  mk_pmm [mk_entry 1048576 4; mk_entry 2097152 1024; mk_entry 0 0; mk_entry 0 0; mk_entry 0 0]
    2 2000 1028 false [1; 2; 3; 4] RUNLVL_NORM 0 [].

Definition task : tcb_t := set_allocmem 7 (set_magic OSZ_TCB_MAGICH zero_tcb).

Ltac regions :=
  repeat (split || apply Forall_cons_2 || apply Forall_nil_2);
  unfold apart, region_ok, region_end, slot_region, PAGESIZE, SLOTSIZE; simpl; lia.

Lemma mem_wf : pmm_wf mem.
Proof.
  split; [done|by vm_compute|done| |done|by vm_compute].
  cbn. regions.
Qed.

End Sample.
Import Sample.

Lemma pmm_alloc_ok_witness :
  Exists (fun e => 6 <= size e) (active mem) /\ wp (pmm_alloc task 6) (alloc_post task 6 mem) mem.
Proof.
  assert (Hex : Exists (fun e => 6 <= size e) (active mem))
    by (apply Exists_cons_tl, Exists_cons_hd; done).
  split; [exact Hex|]. exact (pmm_alloc_ok task 6 mem mem_wf eq_refl eq_refl Hex).
Defined.

Lemma pmm_alloc_none_witness :
  Forall (fun e => size e < 2000) (active mem) /\
  pmm_alloc task 2000 mem = Ret (0, task) (set_errno ENOMEM mem).
Proof.
  assert (Hno : Forall (fun e => size e < 2000) (active mem)) by (repeat apply Forall_cons_2; done).
  split; [exact Hno|]. exact (pmm_alloc_none task 2000 mem mem_wf eq_refl eq_refl Hno).
Defined.

(** Four pages right behind the first region. *)
Lemma pmm_free_ok_witness :
  wp (pmm_free task 1064960 4) (free_post task 1064960 4 mem) mem.
Proof.
  apply (pmm_free_ok task 1064960 4 mem mem_wf); try done; cbn; regions.
Defined.

Lemma alloc_free_roundtrip_witness :
  wp (bt <-- pmm_alloc task 6 ;; pmm_free (snd bt) (fst bt) 6)
     (fun t' s' => pmm_wf s' /\ t' = task /\ (forall a, is_free s' a <-> is_free mem a) /\
        pmm_freepages s' = pmm_freepages mem) mem.
Proof.
  apply (alloc_free_roundtrip task 6 mem mem_wf); try done.
  apply Exists_cons_tl, Exists_cons_hd. done.
Defined.

Lemma pmm_allocslot_ok_witness : wp (pmm_allocslot task) (allocslot_post task mem) mem.
Proof.
  apply (pmm_allocslot_ok task mem mem_wf); try done.
  - cbn. regions.
  - apply Forall_cons_2; [by intros H|]. apply Forall_cons_2; [by left|done].
  - apply Exists_cons_tl, Exists_cons_hd. done.
Defined.

(** ** Corner cases the code gets wrong *)

(** One region, whose first page lies before a slot boundary and which ends with
    the slot. *)
Definition tight_mem : pmm_state :=
  mk_pmm [mk_entry 2093056 513; mk_entry 0 0] 1 2000 513 false [1; 2; 3; 4] RUNLVL_NORM 0 [].

(** When a slot ends exactly with an unaligned region, [pmm_allocslot]
    deletes the entry of the leading pages instead of the emptied one: one page
    is still counted as free, but no address is in a free region any more. *)
Theorem pmm_allocslot_loses_front :
  pmm_wf tight_mem /\ is_free tight_mem 2093056 /\
  exists t' s', pmm_allocslot task tight_mem = Ret (2097152, t') s' /\
    pmm_freepages s' = 1 /\ active s' = [mk_entry 4194304 0] /\ forall a, ~ is_free s' a.
Proof.
  split_and!.
  - split; [done|by vm_compute|done|cbn; regions|done|by vm_compute].
  - apply Exists_cons_hd. done.
  - eexists _, _. split; [vm_compute; reflexivity|]. split_and!; try done.
    intros a H. apply Exists_cons in H as [H|H%Exists_nil]; [|done].
    unfold in_region, region_end in H. simpl in H. lia.
Qed.

(** The page at 0x4000 is in use, the pages from 0x5000 are free. *)
Definition low_mem : pmm_state :=
  mk_pmm [mk_entry 0x5000 2; mk_entry 0 0] 1 2000 2 false [1; 2; 3; 4] RUNLVL_NORM 0 [].

(** [pmm_free] computes the byte size before it skips the null page, so
    freeing the first four pages of memory also frees the fifth one, which was
    in use. *)
Theorem pmm_free_null_page :
  pmm_wf low_mem /\ ~ is_free low_mem 0x4000 /\
  exists t' s', pmm_free task 0 4 low_mem = Ret t' s' /\ is_free s' 0x4000 /\ ~ is_free s' 0x6000.
Proof.
  assert (Hno : forall s a e, active s = [e] -> is_free s a -> in_region a e)
    by (intros s a e Hs; unfold is_free; rewrite Hs, Exists_cons, Exists_nil; tauto).
  split_and!.
  - split; [done|by vm_compute|done|cbn; regions|done|by vm_compute].
  - intros H%(Hno _ _ (mk_entry 0x5000 2)); [|done]. unfold in_region in H. simpl in H. lia.
  - eexists _, _. split; [vm_compute; reflexivity|]. split.
    + apply Exists_cons_hd. done.
    + intros H%(Hno _ _ (mk_entry 0x1000 5)); [|done].
      unfold in_region, region_end, PAGESIZE in H. simpl in H. lia.
Qed.
