(* ===== verification/Vmm.v ===== *)
(** Virtual memory, src/core/vmm.c and the part of src/core/x86_64/vmm.c that makes an
    address space: page tables in physical memory, reached through windows, and the pages
    taken from and given back to the page allocator.  The translation buffers of the CPU,
    which the code invalidates after each change, do not show. *)
From Stdlib Require Import ZArith Lia List.
From stdpp Require Import base option list gmap.
From S2P Require Import Prelude CoreState Pmm.

Module Vmm.

(** ** src/core/x86_64/vmm.h *)
Definition PG_CORE_RW : Z := 0x0003.
Definition PG_CORE_RWNOCACHE : Z := 0x001b.
Definition PG_USER_RW : Z := 0x0007.
Definition PG_USER_RWNOCACHE : Z := 0x0017.
Definition PG_USER_RO : Z := 0x0005.
Definition PG_PAGE : Z := 0x0001.
Definition PG_SLOT : Z := 0x0081.
Definition PG_SHARED : Z := Z.shiftl 1 11.
Definition PG_NX_BIT : Z := 63.
(** [1UL<<PG_NX_BIT] *)
Definition PG_NX : Z := Z.shiftl 1 PG_NX_BIT.
Definition vmm_phyaddr (x : Z) : Z := Z.land (u64 x) 0x00FFFFFFFFFFF000.
Definition vmm_ispresent (p : Z) : bool := has p 1.
Definition vmm_isslot (p : Z) : bool := has p 0x80.
Definition vmm_wnx (a : Z) : Z := if has a 2 then PG_NX else 0.

(** ** src/core/vmm.h: the pages of the CPU's own 4K table, by number *)
Definition CDYN_TOP : Z := 0xfffffffff8000000.
Definition GBYTE : Z := 1073741824.
Definition tcbalarm : Z := 1.
Definition tmpctrl : Z := 7.
Definition tmpmap1 : Z := 8.
Definition tmpmap2 : Z := 9.
Definition tmpmap3 : Z := 10.
Definition tmpmap4 : Z := 11.
Definition tmpmap7 : Z := 14.
Definition LDYN_page (w : Z) : Z := LDYN_ADDRESS + w * PAGESIZE.

(** The part of a task's page that belongs to the platform. *)
Record arch_t : Type := mk_arch { pc : Z; cs : Z; rflags : Z; sp : Z; ss : Z }.
#[export] Instance eta_arch_t : Eta arch_t := fun s => mk_arch (pc s) (cs s) (rflags s) (sp s) (ss s).
Definition set_pc (v : Z) (s : arch_t) : arch_t := s <| pc := v |>.
Definition set_sp (v : Z) (s : arch_t) : arch_t := s <| sp := v |>.

Record vmm_t : Type := mk_vmm {
  pmm : Pmm.pmm_state; (* with the error code of the core *)
  frames : gmap Z (list Z); (* pages read as 512 words, by address *)
  tcbs : gmap Z tcb_t; (* the pages with a task control block, by pid *)
  archs : gmap Z arch_t;
  idle_tcb : tcb_t;
  win : list Z; (* the CPU's own 4K table at LDYN_4K *)
  slotwin : Z; (* the word at LDYN_tmpslotptr *)
  cr3 : Z;
  numcores : Z;
  sharedroots : list Z; (* of the CPU control blocks *)
  this_cpu : Z;
}.
#[export] Instance eta_vmm_t : Eta vmm_t :=
  fun s => mk_vmm (pmm s) (frames s) (tcbs s) (archs s) (idle_tcb s) (win s) (slotwin s) (cr3 s) (numcores s) (sharedroots s) (this_cpu s).
Definition set_pmm (v : Pmm.pmm_state) (s : vmm_t) : vmm_t := s <| pmm := v |>.
Definition set_frames (v : gmap Z (list Z)) (s : vmm_t) : vmm_t := s <| frames := v |>.
Definition set_tcbs (v : gmap Z tcb_t) (s : vmm_t) : vmm_t := s <| tcbs := v |>.
Definition set_archs (v : gmap Z arch_t) (s : vmm_t) : vmm_t := s <| archs := v |>.
Definition set_idle_tcb (v : tcb_t) (s : vmm_t) : vmm_t := s <| idle_tcb := v |>.
Definition set_win (v : list Z) (s : vmm_t) : vmm_t := s <| win := v |>.
Definition set_slotwin (v : Z) (s : vmm_t) : vmm_t := s <| slotwin := v |>.

(** Exit code of [kpanic(kpanictlb)]. *)
Definition PANIC_tlb : Z := 3.

(** A [tcb_t*]: the page of a task, or [&idle_tcb]. *)
Inductive tptr : Type := Task (p : Z) | Idle.

Definition tload (t : tptr) : M vmm_t tcb_t :=
  s <-- get ;; match t with Idle => ret (idle_tcb s) | Task p => need (tcbs s !! p) end.
Definition tmod (t : tptr) (f : tcb_t -> tcb_t) : M vmm_t unit :=
  s <-- get ;;
  match t with
  | Idle => put (set_idle_tcb (f (idle_tcb s)) s)
  | Task p => x <-- need (tcbs s !! p) ;; put (set_tcbs (<[p := f x]> (tcbs s)) s)
  end.

Definition seterr (e : Z) : M vmm_t unit := modify (fun s => set_pmm (Pmm.set_errno e (pmm s)) s).
(** The functions answer [(void* )-1] with or without an error code. *)
Definition fails (e : Z) : M vmm_t Z := seterr e ;;; ret m1UL.

Definition on_pmm {A} (m : M Pmm.pmm_state A) : M vmm_t A :=
  fun s => match m (pmm s) with
           | Ret a x => Ret a (set_pmm x s)
           | Exit c x => Exit c (set_pmm x s)
           | UB => UB
           | Loop => Loop
           end.

(** *** Windows

    [*ctrl = vmm_phyaddr(p)|PG_CORE_RWNOCACHE|PG_PAGE;] and the word [i] of the page that
    is in the window [w]. *)
Definition entry_of (p : Z) : Z := Z.lor p (Z.lor PG_CORE_RWNOCACHE PG_PAGE).
Definition show (w p : Z) : M vmm_t unit := modify (fun s => set_win (zset (win s) w (entry_of (vmm_phyaddr p))) s).
Definition rd (w i : Z) : M vmm_t Z :=
  s <-- get ;; e <-- need (zget (win s) w) ;; f <-- need (frames s !! vmm_phyaddr e) ;; need (zget f i).
Definition wr (w i v : Z) : M vmm_t unit :=
  s <-- get ;; e <-- need (zget (win s) w) ;; f <-- need (frames s !! vmm_phyaddr e) ;; need (zget f i) ;;;
  put (set_frames (<[vmm_phyaddr e := zset f i v]> (frames s)) s).

(** ** Addresses *)

(** The indices of an address in the tables of each level. *)
Definition idx_512G (v : Z) : Z := Z.land (Z.shiftr v 39) 511.
Definition idx_1G (v : Z) : Z := Z.land (Z.shiftr v 30) 511.
Definition idx_2M (v : Z) : Z := Z.land (Z.shiftr v 21) 511.
Definition idx_4K (v : Z) : Z := Z.land (Z.shiftr v PAGEBITS) 511.
(** [(bss>>39)!=0 && ((bss>>39)&511)!=511] *)
Definition outside (v : Z) : bool := negb (Z.shiftr v 39 =? 0) && negb (idx_512G v =? 511).
(** [(size+__PAGESIZE-1) & ~(__PAGESIZE-1)] *)
Definition page_up (n : Z) : Z := Z.ldiff (u64 (n + PAGESIZE - 1)) (PAGESIZE - 1).

(** ** One page *)

(** The window of a page of the core, or nothing. *)
Definition fast_window (virt : Z) : option Z :=
  let w := (virt - LDYN_ADDRESS) / PAGESIZE in
  if (virt =? LDYN_page w) && ((w =? tcbalarm) || ((tmpmap1 <=? w) && (w <=? tmpmap7))) then Some w else None.

Definition entry_for (phys old access : Z) : Z :=
  Z.lor (vmm_phyaddr (if phys =? m1UL then old else phys)) (Z.lor access (vmm_wnx access)).

(** The pages of the tables on the way to [virt] come one after the other to the window;
    the index in the last one, or the step that failed. *)
Definition walk_page (memroot virt access : Z) : M vmm_t (Z + Z) :=
  if negb (Z.shiftr virt 48 =? 0) && negb (Z.shiftr virt 48 =? 0xffff) then ret (inr 0) else
  if outside virt then ret (inr 0) else
  c <-- gets cr3 ;;
  show tmpctrl (if memroot =? 0 then c else memroot) ;;;
  m <-- rd tmpctrl (idx_512G virt) ;;
  if negb (vmm_ispresent m) then ret (inr 0) else
  show tmpctrl m ;;;
  p <-- rd tmpctrl (idx_1G virt) ;;
  if negb (vmm_ispresent p) then ret (inr 1) else
  show tmpctrl p ;;;
  if vmm_isslot access then ret (inl (idx_2M virt)) else
  p <-- rd tmpctrl (idx_2M virt) ;;
  if negb (vmm_ispresent p) then ret (inr 2) else
  show tmpctrl p ;;;
  ret (inl (idx_4K virt)).

Definition vmm_page (memroot virt phys access : Z) : M vmm_t unit :=
  match fast_window virt with
  | Some w => s <-- get ;; old <-- need (zget (win s) w) ;; put (set_win (zset (win s) w (entry_for phys old access)) s)
  | None =>
      if virt =? LDYN_tmpslot then modify (fun s => set_slotwin (entry_for phys (slotwin s) access) s) else
      r <-- walk_page memroot virt access ;;
      match r with
      | inr _ => stop PANIC_tlb
      | inl i => old <-- rd tmpctrl i ;; wr tmpctrl i (entry_for phys old access)
      end
  end.

Section Ops.
Context {E : Pmm.Entropy}.

(** ** Pages from the allocator

    They are cleared through the first window. *)
Definition zero_frame : list Z := List.repeat 0 512.
Definition clear_frame (p : Z) : M vmm_t unit :=
  modify (fun s => set_frames (<[p := zero_frame]> (frames s)) s) ;;;
  r <-- gets (fun s => Pmm.runlevel (pmm s)) ;;
  when (RUNLVL_VMEM <=? r) (vmm_page 0 LDYN_tmpmap1 p (Z.lor PG_CORE_RWNOCACHE PG_PAGE)).
Definition pmm_alloc (t : tptr) : M vmm_t Z :=
  x <-- tload t ;;
  do2 p x <-- on_pmm (Pmm.pmm_alloc x 1) ;;
  tmod t (fun _ => x) ;;;
  when (negb (p =? 0)) (clear_frame p) ;;;
  ret p.
Definition pmm_allocslot (t : tptr) : M vmm_t Z :=
  x <-- tload t ;;
  do2 p x <-- on_pmm (Pmm.pmm_allocslot x) ;;
  tmod t (fun _ => x) ;;;
  when (negb (p =? 0))
   (modify (fun s => set_frames (fold_right (fun k f => <[p + Z.of_nat k * PAGESIZE := zero_frame]> f) (frames s) (seq 0 512)) s) ;;;
    r <-- gets (fun s => Pmm.runlevel (pmm s)) ;;
    when (RUNLVL_VMEM <=? r) (vmm_page 0 LDYN_tmpslot p (Z.lor PG_CORE_RWNOCACHE PG_SLOT))) ;;;
  ret p.
Definition pmm_free (t : tptr) (p pages : Z) : M vmm_t unit :=
  x <-- tload t ;; x <-- on_pmm (Pmm.pmm_free x p pages) ;; tmod t (fun _ => x).

(** ** Mapping *)

(** [tcb->linkmem += n;] *)
Definition link (t : tptr) (n : Z) : M vmm_t unit := tmod t (fun x => set_linkmem (u64 (linkmem x + n)) x).

(** The table below the entry [i] of the one in the window comes into the window, made new
    when there is none; false without memory. *)
Definition table (t : tptr) (access i : Z) : M vmm_t bool :=
  e <-- rd tmpctrl i ;;
  ok <-- (if vmm_ispresent e then ret true else
          p <-- pmm_alloc t ;;
          if p =? 0 then ret false else wr tmpctrl i (Z.lor p (Z.lor access PG_PAGE)) ;;; ret true) ;;
  if negb (ok : bool) then ret false else
  e <-- rd tmpctrl i ;; show tmpctrl e ;;; ret true.

(** One entry: the page at [phys], shared, or a new one.  The answer is the next [phys], or
    a failure with its error code, if it has one. *)
Definition fill (t : tptr) (new : M vmm_t Z) (kind a phys step i : Z) : M vmm_t (Z + option Z) :=
  e <-- rd tmpctrl i ;;
  if vmm_ispresent e then ret (inr (Some EFAULT)) else
  if negb (phys =? 0) then
    wr tmpctrl i (Z.lor phys (Z.lor a (Z.lor kind PG_SHARED))) ;;;
    link t (step / PAGESIZE) ;;; ret (inl (u64 (phys + step)))
  else
    p <-- new ;;
    if p =? 0 then ret (inr None) else
    wr tmpctrl i (Z.lor p (Z.lor a kind)) ;;; ret (inl phys).

Definition failed (e : option Z) : M vmm_t Z := match e with Some e => fails e | None => ret m1UL end.

(** Entries of [step] bytes from [i] on, as long as [go] of the size left and the table go;
    it answers where it stopped. *)
Definition fill_from (t : tptr) (new : M vmm_t Z) (kind a step : Z) (go : Z -> bool) (i bss phys size : Z)
    : M vmm_t (Z * Z * Z * Z + option Z) :=
  iter 513 (fun '(i, bss, phys, size) =>
    if go size && (i <? 512) then
      r <-- fill t new kind a phys step i ;;
      match r with
      | inr e => ret (inr (inr e))
      | inl phys => ret (inl (i + 1, u64 (bss + step), phys, size - step))
      end
    else ret (inr (inl (i, bss, phys, size)))) (i, bss, phys, size).

(** From the label [again] on. *)
Definition map_round (t : tptr) (memroot a access ret_ : Z) (st : Z * Z * Z) : M vmm_t (Z * Z * Z + Z) :=
  let '(bss, phys, size) := st in
  show tmpctrl memroot ;;;
  ok <-- table t access (idx_1G bss) ;;
  if negb ok then ret (inr m1UL) else
  e <-- rd tmpctrl (idx_2M bss) ;;
  if negb (vmm_ispresent e) && (Z.land phys (SLOTSIZE - 1) =? 0) && (Z.land bss (SLOTSIZE - 1) =? 0) && (SLOTSIZE <=? size)
  then
    r <-- fill_from t (pmm_allocslot t) PG_SLOT a SLOTSIZE (fun n => SLOTSIZE <=? n) (idx_2M bss) bss phys size ;;
    match r with
    | inr e => v <-- failed e ;; ret (inr v)
    | inl (_, bss, phys, size) => ret (inl (bss, phys, size))
    end
  else
  ok <-- table t access (idx_2M bss) ;;
  if negb ok then ret (inr m1UL) else
  r <-- fill_from t (pmm_alloc t) PG_PAGE a PAGESIZE (fun n => 0 <? n) (idx_4K bss) bss phys size ;;
  match r with
  | inr e => v <-- failed e ;; ret (inr v)
  | inl (i, bss, phys, size) => ret (if 511 <? i then inl (bss, phys, size) else inr ret_)
  end.

(** [vmm_getmemroot]: who pays for the mapping, and the table of the 512G. *)
Definition vmm_getmemroot (t : tptr) (v : Z) : M vmm_t (tptr * Z) :=
  let t := if SDYN_ADDRESS <=? v then Idle else t in
  x <-- tload t ;; show tmpctrl (memroot x) ;;;
  m <-- rd tmpctrl (idx_512G v) ;; ret (t, vmm_phyaddr m).

(** The access bits of the pages and of the tables. *)
Definition map_access (bss access : Z) : Z * Z :=
  if bss <? SDYN_ADDRESS then
    if (DYN_ADDRESS <=? bss) && (bss <? BUF_ADDRESS) then (Z.lor PG_NX PG_USER_RW, Z.lor PG_NX PG_USER_RW)
    else (Z.lor access PG_NX, access)
  else if bss <? LDYN_ADDRESS then (Z.lor access PG_NX, Z.lor PG_NX PG_USER_RWNOCACHE)
  else (Z.lor PG_NX PG_CORE_RWNOCACHE, Z.lor PG_NX PG_CORE_RWNOCACHE).

Definition is_idle (t : tptr) : bool := match t with Idle => true | Task _ => false end.

(** [fuel] bounds the rounds from [again]; one per page and two more are enough. *)
Definition vmm_map (fuel : nat) (t : tptr) (bss phys size access : Z) : M vmm_t Z :=
  let phys := vmm_phyaddr phys in
  let size := page_up size in
  if (size =? 0) || (negb (is_idle t) && (bss =? 0)) || outside bss then fails EINVAL else
  bad <-- (if bss <? SDYN_ADDRESS then x <-- tload t ;; ret (negb (magic x =? OSZ_TCB_MAGICH)) else ret false) ;;
  if (bad : bool) then ret m1UL else
  if (SDYN_ADDRESS <=? bss) && (bss <=? CDYN_TOP) && (CDYN_TOP <=? u64 (bss + size)) then fails ENOMEM else
  let (a, access) := map_access bss access in
  do2 t m <-- vmm_getmemroot t bss ;;
  iter fuel (map_round t m a access bss) (bss, phys, size).

(** *** The code of a task, into its buffer *)

Definition text_from (t : tptr) (i bss size : Z) (phys : list Z) : M vmm_t (Z * Z * Z * list Z + Z) :=
  iter 513 (fun '(i, bss, size, phys) =>
    if (0 <? size) && (i <? 512) then
      e <-- rd tmpctrl i ;;
      if vmm_ispresent e then seterr EFAULT ;;; ret (inr (inr m1UL)) else
      p <-- need (head phys) ;;
      wr tmpctrl i (Z.lor p (Z.lor PG_USER_RO (Z.lor PG_PAGE PG_SHARED))) ;;;
      link t 1 ;;;
      ret (inl (i + 1, u64 (bss + PAGESIZE), size - PAGESIZE, tail phys))
    else ret (inr (inl (i, bss, size, phys)))) (i, bss, size, phys).

Definition text_round (t : tptr) (ret_ : Z) (st : Z * Z * list Z) : M vmm_t (Z * Z * list Z + Z) :=
  let '(bss, size, phys) := st in
  x <-- tload t ;;
  (* the address is taken as it is *)
  modify (fun s => set_win (zset (win s) tmpctrl (entry_of (taskmemroot x))) s) ;;;
  ok <-- table t PG_USER_RW (idx_1G bss) ;;
  if negb ok then ret (inr 0) else
  ok <-- table t PG_USER_RW (idx_2M bss) ;;
  if negb ok then ret (inr 0) else
  r <-- text_from t (idx_4K bss) bss size phys ;;
  match r with
  | inr v => ret (inr v)
  | inl (i, bss, size, phys) => ret (if 511 <? i then inl (bss, size, phys) else inr ret_)
  end.

Definition vmm_maptext (fuel : nat) (t : tptr) (bss : Z) (phys : list Z) (size : Z) : M vmm_t Z :=
  let size := page_up size in
  x <-- tload t ;;
  if (size =? 0) || (bss <? BUF_ADDRESS + TEXT_ADDRESS) || (BUF_ADDRESS + DYN_ADDRESS <? bss)
     || negb (magic x =? OSZ_TCB_MAGICH)
  then seterr EINVAL ;;; ret 0 else
  iter fuel (text_round t bss) (bss, size, phys).

(** The 1G entries of the code and of its buffer change places. *)
Fixpoint swap_tables (n : nat) (j i : Z) : M vmm_t unit :=
  match n with
  | O => ret tt
  | S n' =>
      p <-- rd tmpctrl (j + i) ;; q <-- rd tmpctrl i ;;
      wr tmpctrl (j + i) q ;;; wr tmpctrl i p ;;; swap_tables n' j (i + 1)
  end.

Definition vmm_swaptextbuf (t : tptr) : M vmm_t unit :=
  x <-- tload t ;;
  if negb (magic x =? OSZ_TCB_MAGICH) then seterr EINVAL else
  show tmpctrl (taskmemroot x) ;;;
  swap_tables (Z.to_nat (DYN_ADDRESS / GBYTE)) (idx_1G BUF_ADDRESS) 0 ;;;
  vmm_page (memroot x) BUF_ADDRESS m1UL (Z.lor PG_CORE_RW (Z.lor PG_PAGE PG_SHARED)) ;;;
  vmm_page (memroot x) 0 m1UL (Z.lor PG_CORE_RW PG_PAGE) ;;;
  vmm_page (memroot x) PAGESIZE m1UL (Z.lor PG_USER_RO PG_PAGE).

(** ** Unmapping *)

(** Whether an entry of the table in the window is in use. *)
Definition any_present (w : Z) : M vmm_t bool :=
  s <-- get ;; e <-- need (zget (win s) w) ;; f <-- need (frames s !! vmm_phyaddr e) ;; ret (existsb vmm_ispresent f).

(** [tcb->linkmem -= n;] for a shared page, else it goes back to the allocator. *)
Definition release (t : tptr) (e pages : Z) : M vmm_t unit :=
  if has e PG_SHARED then tmod t (fun x => set_linkmem (u64 (linkmem x - pages)) x)
  else pmm_free t (vmm_phyaddr e) pages.

(** The pages of the 4K table in the third window. *)
Definition free_pages (t : tptr) (start end_ bss : Z) : M vmm_t Z :=
  let ke := if Z.shiftr end_ 21 =? Z.shiftr bss 21 then idx_4K end_ else 511 in
  let k := if Z.shiftr start PAGEBITS =? Z.shiftr bss PAGEBITS then idx_4K bss else 0 in
  iter 513 (fun '(k, bss) =>
    if (k <=? ke) && (bss <? end_) then
      e <-- rd tmpmap2 k ;;
      when (vmm_ispresent e) (release t e 1 ;;; wr tmpmap2 k 0) ;;;
      ret (inl (k + 1, u64 (bss + PAGESIZE)))
    else ret (inr bss)) (k, bss).

(** The entry [j] of the 2M table in the second window; it answers the next address. *)
Definition free_2M (t : tptr) (start end_ bss j : Z) : M vmm_t Z :=
  e <-- rd tmpmap1 j ;;
  if negb (vmm_ispresent e) then ret (u64 (bss + SLOTSIZE)) else
  if vmm_isslot e then release t e (SLOTSIZE / PAGESIZE) ;;; wr tmpmap1 j 0 ;;; ret (u64 (bss + SLOTSIZE)) else
  show tmpmap2 e ;;;
  bss <-- free_pages t start end_ bss ;;
  more <-- any_present tmpmap2 ;;
  when (negb more) (e <-- rd tmpmap1 j ;; pmm_free t (vmm_phyaddr e) 1 ;;; wr tmpmap1 j 0) ;;;
  ret bss.

Definition free_round (t : tptr) (start end_ bss : Z) : M vmm_t (Z + unit) :=
  if negb (bss <? end_) then ret (inr tt) else
  let i := idx_1G bss in
  e <-- rd tmpctrl i ;;
  if negb (vmm_ispresent e) then ret (inl (u64 (bss + GBYTE))) else
  show tmpmap1 e ;;;
  let je := if Z.shiftr end_ 21 =? Z.shiftr bss 21 then idx_2M bss else 511 in
  let j := if Z.shiftr start 21 =? Z.shiftr bss 21 then idx_2M bss else 0 in
  bss <-- iter 513 (fun '(j, bss) =>
    if (j <=? je) && (bss <? end_) then bss <-- free_2M t start end_ bss j ;; ret (inl (j + 1, bss))
    else ret (inr bss)) (j, bss) ;;
  when (end_ <? SDYN_ADDRESS)
   (more <-- any_present tmpmap1 ;;
    when (negb more) (e <-- rd tmpctrl i ;; pmm_free t (vmm_phyaddr e) 1 ;;; wr tmpctrl i 0)) ;;;
  ret (inl bss).

(** [fuel] bounds the rounds; one per page and one more are enough. *)
Definition vmm_free (fuel : nat) (t : tptr) (bss size : Z) : M vmm_t unit :=
  let size := page_up size in
  if (size =? 0) || outside bss then seterr EINVAL else
  x <-- tload t ;;
  if negb (magic x =? OSZ_TCB_MAGICH) then seterr EINVAL else
  do2 t m <-- vmm_getmemroot t bss ;;
  show tmpctrl m ;;;
  iter fuel (free_round t bss (u64 (bss + size))) bss.

(** ** Address spaces *)

(** [vmm_page(0, LDYN_tmpmapN, phys, PG_CORE_RWNOCACHE | PG_PAGE)] *)
Definition look (w phys : Z) : M vmm_t unit := vmm_page 0 (LDYN_page w) phys (Z.lor PG_CORE_RWNOCACHE PG_PAGE).

Definition vmm_new (cpu priority : Z) : M vmm_t Z :=
  s <-- get ;;
  root <-- pmm_alloc Idle ;; pml4 <-- pmm_alloc Idle ;; pdpe <-- pmm_alloc Idle ;;
  pde <-- pmm_alloc Idle ;; pte <-- pmm_alloc Idle ;;
  shared <-- need (zget (sharedroots s) (if cpu <? numcores s then cpu else this_cpu s)) ;;
  let entry p flags := Z.lor p (Z.lor flags PG_PAGE) in
  look tmpmap4 root ;;; wr tmpmap4 0 (entry pml4 PG_USER_RW) ;;; wr tmpmap4 511 (entry shared PG_USER_RW) ;;;
  look tmpmap4 pml4 ;;; wr tmpmap4 0 (entry pdpe PG_USER_RW) ;;;
  look tmpmap4 pdpe ;;; wr tmpmap4 0 (entry pde PG_USER_RW) ;;;
  look tmpmap4 pde ;;; wr tmpmap4 0 (Z.lor pte (Z.lor PG_NX (Z.lor PG_CORE_RW PG_PAGE))) ;;;
  look tmpmap4 pte ;;;
  let p := Z.shiftr pte PAGEBITS in
  let x := set_magic OSZ_TCB_MAGICH (set_cpuid (if cpu <? numcores s then cpu else 0) (set_priority priority
            (set_pid p (set_memroot root (set_taskmemroot pml4 (set_allocmem 5 zero_tcb)))))) in
  let flags := if priority =? PRI_DRV then Z.lor 0x202 (Z.shiftl 3 12) else 0x202 in
  modify (fun s => set_tcbs (<[p := x]> (tcbs s)) s) ;;;
  modify (fun s => set_archs (<[p := mk_arch 0 (0x20 + 3) flags 0 (0x18 + 3)]> (archs s)) s) ;;;
  tmod Idle (fun x => set_allocmem (u64 (allocmem x - 5)) x) ;;;
  ret p.

(** The first entries from table to table. *)
Definition del_round (t : tptr) (_ : unit) : M vmm_t (unit + unit) :=
  e <-- rd tmpmap2 0 ;;
  if negb (vmm_ispresent e) then ret (inr tt) else
  pmm_free t (vmm_phyaddr e) 1 ;;;
  e <-- rd tmpmap2 0 ;; look tmpmap2 (vmm_phyaddr e) ;;; ret (inl tt).

Definition vmm_del (fuel : nat) (t : tptr) : M vmm_t unit :=
  x <-- tload t ;;
  if negb (magic x =? OSZ_TCB_MAGICH) then ret tt else
  look tmpmap3 (u64 (Z.shiftl (pid x) PAGEBITS)) ;;;
  (* through the window *)
  let t := Task (pid x) in
  vmm_free fuel t 0 (BUF_ADDRESS + DYN_ADDRESS) ;;;
  x <-- tload t ;; look tmpmap2 (memroot x) ;;;
  iter fuel (del_round t) tt ;;;
  x <-- tload t ;; pmm_free t (vmm_phyaddr (memroot x)) 1.

End Ops.
End Vmm.
