(* ===== verification/VmmFacts.v ===== *)
(** The page tables: mapping a buffer changes the translation of its pages and of no other
    one, with tables and pages that were free before. *)
From Stdlib Require Import ZArith Lia List.
From stdpp Require Import base option list gmap.
From S2P Require Import Prelude CoreState Pmm PmmFacts Vmm.
Import Vmm.

Module VmmFacts.

(** ** Entries *)

Lemma has_bit x n : 0 <= n -> has x (2 ^ n) = Z.testbit x n.
Proof.
  intros Hn. unfold has. destruct (Z.testbit x n) eqn:E.
  - apply negb_true_iff, Z.eqb_neq. intros H. assert (Hb : Z.testbit (Z.land x (2 ^ n)) n = true).
    { rewrite Z.land_spec, E, Z.pow2_bits_true by done. done. }
    by rewrite H, Z.bits_0 in Hb.
  - apply negb_false_iff, Z.eqb_eq. apply Z.bits_inj'. intros k Hk. rewrite Z.land_spec, Z.bits_0.
    destruct (Z.eq_dec n k) as [<-|Hne]; [by rewrite E|]. rewrite Z.pow2_bits_false by done. apply andb_false_r.
Qed.
Lemma present_bit x : vmm_ispresent x = Z.testbit x 0.
Proof. by apply (has_bit x 0). Qed.
Lemma slot_bit x : vmm_isslot x = Z.testbit x 7.
Proof. by apply (has_bit x 7). Qed.

(** A page of the physical memory. *)
Definition is_page (p : Z) : Prop := 0 <= p < 2 ^ 52 /\ p mod PAGESIZE = 0.
(** Access bits that change neither the address nor the kind of an entry. *)
Definition bits_ok (a : Z) : Prop := 0 <= a < 2 ^ 64 /\ Z.land a 0x00FFFFFFFFFFF000 = 0 /\ Z.testbit a 7 = false.

Lemma page_land p : is_page p -> Z.land p 0x00FFFFFFFFFFF000 = p.
Proof.
  intros [Hr Hm]. change PAGESIZE with (2 ^ 12) in Hm.
  replace p with (Z.shiftl (p / 2 ^ 12) 12) by (rewrite Z.shiftl_mul_pow2 by lia; Z.to_euclidean_division_equations; lia).
  change 0x00FFFFFFFFFFF000 with (Z.shiftl (Z.ones 44) 12). rewrite <- Z.shiftl_land, Z.land_ones by lia.
  f_equal. apply Z.mod_small. Z.to_euclidean_division_equations; lia.
Qed.
Lemma page_phyaddr p : is_page p -> vmm_phyaddr p = p.
Proof. intros H. unfold vmm_phyaddr. rewrite u64_small by (destruct H; lia). by apply page_land. Qed.
Lemma page_low_bits p n : is_page p -> 0 <= n < 12 -> Z.testbit p n = false.
Proof.
  intros [_ Hm] Hn. change PAGESIZE with (2 ^ 12) in Hm. apply Z.mod_divide in Hm as [q ->]; [|lia].
  apply Z.mul_pow2_bits_low. lia.
Qed.

Lemma lor_bound a b n : 0 <= n -> 0 <= a < 2 ^ n -> 0 <= b < 2 ^ n -> 0 <= Z.lor a b < 2 ^ n.
Proof.
  intros Hn Ha Hb. assert (E : Z.lor a b = Z.lor a b mod 2 ^ n).
  { rewrite <- Z.land_ones, Z.land_lor_distr_l, !Z.land_ones, !Z.mod_small by lia. done. }
  rewrite E. apply Z.mod_pos_bound. lia.
Qed.

(** The entry of a page with its access bits. *)
Lemma entry_phyaddr p a : is_page p -> bits_ok a -> vmm_phyaddr (Z.lor p (Z.lor a PG_PAGE)) = p.
Proof.
  intros Hp (Ha&Hl&_). unfold vmm_phyaddr. change PG_PAGE with 1.
  rewrite u64_small by (apply (lor_bound _ _ 64); [lia|destruct Hp; lia|apply lor_bound; lia]).
  rewrite !Z.land_lor_distr_l, (page_land p Hp), Hl. apply Z.lor_0_r.
Qed.
Lemma entry_present p a : vmm_ispresent (Z.lor p (Z.lor a PG_PAGE)) = true.
Proof. rewrite present_bit, !Z.lor_spec. change (Z.testbit PG_PAGE 0) with true. by rewrite !orb_true_r. Qed.
Lemma entry_not_slot p a : is_page p -> bits_ok a -> vmm_isslot (Z.lor p (Z.lor a PG_PAGE)) = false.
Proof. intros Hp (_&_&Ha). rewrite slot_bit, !Z.lor_spec, Ha, (page_low_bits p 7) by (done || lia). done. Qed.

(** ** The tree of tables *)

(** The table below the entry [i] of the table at [f]. *)
Definition child (fr : gmap Z (list Z)) (f i : Z) : option Z :=
  l ← fr !! f; e ← zget l i; if vmm_ispresent e && negb (vmm_isslot e) then Some (vmm_phyaddr e) else None.
(** The table at the end of a path of indices, from the table [m] on. *)
Fixpoint node (fr : gmap Z (list Z)) (m : Z) (q : list Z) : option Z :=
  match q with [] => Some m | i :: q => f ← child fr m i; node fr f q end.
(** The present entry [k] of the table at the path [q]. *)
Definition mapped (fr : gmap Z (list Z)) (m : Z) (q : list Z) (k : Z) : option Z :=
  f ← node fr m q; l ← fr !! f; e ← zget l k; if vmm_ispresent e then Some e else None.

Lemma node_snoc fr m q i : node fr m (q ++ [i]) = f ← node fr m q; child fr f i.
Proof.
  revert m. induction q as [|j q IH]; intros m; cbn.
  - by destruct (child fr m i).
  - destruct (child fr m j); [cbn; apply IH|done].
Qed.

Lemma child_insert fr f l g i : g <> f -> child (<[f := l]> fr) g i = child fr g i.
Proof. intros. unfold child. by rewrite lookup_insert_ne. Qed.

(** A page that is no table can be changed. *)
Lemma node_fresh fr m p l n q :
  (forall q, (length q < n)%nat -> node fr m q <> Some p) -> (length q <= n)%nat -> node (<[p := l]> fr) m q = node fr m q.
Proof.
  intros Hp. induction q as [|i q IH] using rev_ind; intros Hq; [done|]. rewrite length_app in Hq. cbn in Hq.
  rewrite !node_snoc, IH by lia. destruct (node fr m q) as [g|] eqn:E; [|done]. cbn. apply child_insert.
  intros ->. by apply (Hp q); [lia|].
Qed.
Lemma mapped_fresh fr m p l n q k :
  (forall q, (length q <= n)%nat -> node fr m q <> Some p) -> (length q <= n)%nat ->
  mapped (<[p := l]> fr) m q k = mapped fr m q k.
Proof.
  intros Hp Hq. unfold mapped. rewrite (node_fresh fr m p l n) by (done || intros; apply Hp; lia).
  destruct (node fr m q) as [g|] eqn:E; [|done]. cbn. rewrite lookup_insert_ne; [done|]. intros ->. by apply (Hp q).
Qed.

(** Paths to different tables. *)
Definition injective (fr : gmap Z (list Z)) (m : Z) (n : nat) : Prop :=
  forall q q' f, (length q <= n)%nat -> (length q' <= n)%nat -> node fr m q = Some f -> node fr m q' = Some f -> q = q'.

(** An entry that leads to no table before and after the change. *)
Lemma node_leaf fr m n q f l k e :
  injective fr m n -> (length q <= n)%nat -> node fr m q = Some f -> fr !! f = Some l ->
  forall q', (length q' <= n)%nat ->
  (forall q'', q' = q ++ k :: q'' -> False) ->
  node (<[f := zset l k e]> fr) m q' = node fr m q'.
Proof.
  intros Hinj Hq Hf Hl q'. induction q' as [|i q' IH] using rev_ind; intros Hq' Hpre; [done|].
  rewrite length_app in Hq'. cbn in Hq'. rewrite !node_snoc, IH;
    [|lia|intros q'' ->; apply (Hpre (q'' ++ [i])); by rewrite <- app_assoc].
  destruct (node fr m q') as [g|] eqn:E; [|done]. cbn. destruct (decide (g = f)) as [->|]; [|by apply child_insert].
  assert (q' = q) as -> by (eapply Hinj; [| |exact E|exact Hf]; lia).
  unfold child. rewrite lookup_insert_eq, Hl. cbn. rewrite zget_zset_ne; [done|].
  intros ->. by apply (Hpre []).
Qed.

Lemma node_app fr m q r : node fr m (q ++ r) = f ← node fr m q; node fr f r.
Proof.
  revert m. induction q as [|i q IH]; intros m; [done|]. cbn. destruct (child fr m i); [apply IH|done].
Qed.

Lemma zero_frame_get i e : zget zero_frame i = Some e -> e = 0.
Proof. intros H%zget_In. by apply repeat_spec in H. Qed.

Lemma child_zero fr p i : fr !! p = Some zero_frame -> child fr p i = None.
Proof. intros H. unfold child. rewrite H. cbn -[zget zero_frame]. destruct (zget zero_frame i) as [e|] eqn:E; [|done]. by apply zero_frame_get in E as ->. Qed.

(** A new, empty table [p] in a free entry [k] of the table at [q]. *)
Section NewTable.
Context (fr : gmap Z (list Z)) (m : Z) (q : list Z) (f k p e : Z) (l : list Z) (e0 : Z).
Hypothesis Hinj : injective fr m 2.
Hypothesis Hq : (length q <= 1)%nat.
Hypothesis Hf : node fr m q = Some f.
Hypothesis Hl : fr !! f = Some l.
Hypothesis He0 : zget l k = Some e0.
Hypothesis Hfree : vmm_ispresent e0 = false.
Hypothesis He : vmm_ispresent e = true /\ vmm_isslot e = false /\ vmm_phyaddr e = p.
Hypothesis Hp : fr !! p = Some zero_frame.
Hypothesis Hnew : forall q, (length q <= 2)%nat -> node fr m q <> Some p.
Let fr' := <[f := zset l k e]> fr.

Lemma new_table_node q' : (length q' <= 2)%nat -> node fr' m q' = if decide (q' = q ++ [k]) then Some p else node fr m q'.
Proof.
  intros Hq'. assert (Hpf : p <> f) by (intros ->; by apply (Hnew q); [lia|]).
  assert (Hchild : child fr' f k = Some p).
  { unfold child, fr'. rewrite lookup_insert_eq. cbn. rewrite zget_zset_eq by by eapply zget_Some_lt.
    cbn. destruct He as (->&->&->). done. }
  assert (Hnone : child fr f k = None) by (unfold child; rewrite Hl; cbn; rewrite He0; cbn; by rewrite Hfree).
  assert (Hsame : node fr' m q = Some f).
  { unfold fr'. rewrite (node_leaf fr m 2 q f l k e); [done..|lia|done|done|lia|].
    intros q'' E. apply (f_equal length) in E. rewrite length_app in E. cbn in E. lia. }
  destruct (decide (take (length q + 1) q' = q ++ [k])) as [Ht|Ht].
  - assert (E : q' = (q ++ [k]) ++ drop (length q + 1) q') by by rewrite <- Ht, take_drop.
    set (r := drop (length q + 1) q') in *. clearbody r. subst q'.
    rewrite (node_app fr'), (node_app fr), !node_snoc, Hsame, Hf. cbn. rewrite Hchild, Hnone. cbn.
    destruct r as [|x r]; [by rewrite app_nil_r, decide_True|]. rewrite decide_False.
    + cbn. rewrite child_zero; [done|]. unfold fr'. by rewrite lookup_insert_ne.
    + intros E. apply (f_equal length) in E. rewrite length_app in E. cbn in E. lia.
  - rewrite decide_False; [|intros ->; apply Ht; rewrite take_ge; [done|rewrite length_app; cbn; lia]].
    unfold fr'. eapply (node_leaf fr m 2 q); [done|lia|done|done|done|].
    intros q'' ->. apply Ht. rewrite (cons_middle k), app_assoc, take_app_length'; [done|]. rewrite length_app. cbn. lia.
Qed.

Lemma new_table_mapped q' j : length q' = 2%nat -> mapped fr' m q' j = mapped fr m q' j.
Proof.
  intros Hq'. unfold mapped. rewrite new_table_node by lia. destruct (decide (q' = q ++ [k])) as [->|Hne].
  - assert (p <> f) by (intros ->; by apply (Hnew q); [lia|]).
    rewrite node_snoc, Hf. cbn. unfold fr' at 1. rewrite lookup_insert_ne, Hp by done. cbn -[zget zero_frame].
    replace (child fr f k) with (@None Z) by (unfold child; rewrite Hl; cbn; rewrite He0; cbn; by rewrite Hfree). cbn -[zget zero_frame].
    destruct (zget zero_frame j) as [x|] eqn:E; [|done]. by apply zero_frame_get in E as ->.
  - destruct (node fr m q') as [g|] eqn:E; [|done]. cbn. unfold fr'. rewrite lookup_insert_ne; [done|].
    intros ->. assert (q' = q) as -> by (eapply Hinj; [| |exact E|exact Hf]; lia). lia.
Qed.
End NewTable.

(** A changed entry [k] of the 4K table at [q]. *)
Lemma mapped_leaf fr m q f l k e q' j :
  injective fr m 2 -> length q = 2%nat -> node fr m q = Some f -> fr !! f = Some l -> 0 <= k < zlen l -> length q' = 2%nat ->
  mapped (<[f := zset l k e]> fr) m q' j =
    if decide (q' = q /\ j = k) then (if vmm_ispresent e then Some e else None) else mapped fr m q' j.
Proof.
  intros Hinj Hq Hf Hl Hk Hq'. unfold mapped.
  rewrite (node_leaf fr m 2 q f l k e Hinj) by (done || lia || (intros q'' ->; rewrite length_app in Hq'; cbn in Hq'; lia)).
  destruct (decide (q' = q)) as [->|Hne].
  - rewrite Hf. cbn. rewrite lookup_insert_eq, Hl. cbn. destruct (decide (j = k)) as [->|].
    + rewrite decide_True by done. by rewrite zget_zset_eq.
    + rewrite decide_False by tauto. by rewrite zget_zset_ne.
  - rewrite decide_False by tauto. destruct (node fr m q') as [g|] eqn:E; [|done]. cbn. rewrite lookup_insert_ne; [done|].
    intros ->. apply Hne. eapply Hinj; [| |exact E|exact Hf]; lia.
Qed.

(** *** Addresses *)

Definition on_page (v : Z) : Prop := 0 <= v < 2 ^ 39 /\ v mod PAGESIZE = 0.
Definition path (v : Z) : list Z := [idx_1G v; idx_2M v].
Definition mapped_at (fr : gmap Z (list Z)) (m v : Z) : option Z := mapped fr m (path v) (idx_4K v).

Lemma idx_eq v n : 0 <= n -> Z.land (Z.shiftr v n) 511 = v / 2 ^ n mod 512.
Proof. intros. change 511 with (Z.ones 9). by rewrite Z.land_ones, Z.shiftr_div_pow2 by lia. Qed.
Lemma idx_range v n : 0 <= n -> 0 <= Z.land (Z.shiftr v n) 511 < 512.
Proof. intros. rewrite idx_eq by done. apply Z.mod_pos_bound. lia. Qed.

Lemma page_split v : on_page v -> v = 2 ^ 30 * idx_1G v + 2 ^ 21 * idx_2M v + 2 ^ 12 * idx_4K v.
Proof.
  unfold idx_1G, idx_2M, idx_4K. rewrite !idx_eq by (done || lia). intros [Hv Hm]. change PAGESIZE with 4096 in Hm.
  change (2 ^ PAGEBITS) with 4096. change (2 ^ 39) with 549755813888 in Hv. change (2 ^ 30) with 1073741824.
  change (2 ^ 21) with 2097152. change (2 ^ 12) with 4096. Z.to_euclidean_division_equations. lia.
Qed.
Lemma page_inj v w : on_page v -> on_page w -> path v = path w -> idx_4K v = idx_4K w -> v = w.
Proof. intros Hv Hw Hp Hi. rewrite (page_split v Hv), (page_split w Hw). by injection Hp as -> ->; rewrite Hi. Qed.

(** The pages of one 4K table. *)
Lemma path_move v n : on_page v -> 0 <= n -> idx_4K v + n < 512 ->
  on_page (v + n * PAGESIZE) /\ path (v + n * PAGESIZE) = path v /\ idx_4K (v + n * PAGESIZE) = idx_4K v + n.
Proof.
  unfold on_page, path, idx_1G, idx_2M, idx_4K. rewrite !idx_eq by (done || lia). change PAGESIZE with 4096.
  change (2 ^ PAGEBITS) with 4096. change (2 ^ 39) with 549755813888. change (2 ^ 30) with 1073741824.
  change (2 ^ 21) with 2097152. intros [Hv Hm] Hn Hi.
  split; [Z.to_euclidean_division_equations; lia|]. split; [|Z.to_euclidean_division_equations; lia].
  f_equal; [|f_equal]; Z.to_euclidean_division_equations; lia.
Qed.
(** Behind the last page of a table. *)
Lemma path_next v n : on_page v -> 0 <= n -> idx_4K v + n = 512 -> idx_4K (v + n * PAGESIZE) = 0.
Proof.
  unfold on_page, idx_4K. rewrite !idx_eq by done. change PAGESIZE with 4096. change (2 ^ PAGEBITS) with 4096.
  intros [Hv Hm] Hn Hi. Z.to_euclidean_division_equations; lia.
Qed.

(** ** Pages from the allocator *)

(** The free regions are made of pages of the physical memory. *)
Definition pages_ok (s : Pmm.pmm_state) : Prop :=
  Forall (fun e => is_page (Pmm.base e) /\ region_end e < 2 ^ 52) (active s).

Lemma page_move p n : is_page p -> 0 <= n -> p + n * PAGESIZE < 2 ^ 52 -> is_page (p + n * PAGESIZE).
Proof. unfold is_page. change PAGESIZE with 4096. intros [H1 H2] ??. split; [lia|]. by rewrite Z.mod_add. Qed.

Lemma alloc_page {E : Pmm.Entropy} {P : EntropyOk E} t s :
  pmm_wf s -> pages_ok s -> magic t = OSZ_TCB_MAGICH -> 0 < Pmm.pmm_freepages s ->
  wp (Pmm.pmm_alloc t 1) (fun bt s' => alloc_post t 1 s bt s' /\ is_page bt.1 /\ pages_ok s' /\ Pmm.runlevel s' = Pmm.runlevel s) s.
Proof.
  intros Hwf Hok Hm Hfree.
  assert (Hex : Exists (fun e => 1 <= Pmm.size e) (active s)).
  { rewrite (wf_count _ Hwf) in Hfree. destruct (active s) as [|e l] eqn:E'; [done|]. left.
    assert (region_ok e) as (_&?&_); [|lia]. eapply (wf_regions_ok (active s)); [by apply wf_list|]. rewrite E'. by left. }
  pose proof (wp_alloc t 1 s Hwf Hm ltac:(lia) Hex) as Hpost.
  destruct (run_alloc t 1 s Hwf Hm ltac:(lia)) as (b&s1&Hsearch&Hrun). unfold wp in *. rewrite Hrun in *. clear Hrun.
  destruct Hsearch as [(->&->&Hno)|(k&e&Hk&He&_&->&_&Hperm&_&_&_&Hsame)].
  { exfalso. apply Exists_exists in Hex as (e&Hin&He). rewrite Forall_forall in Hno. specialize (Hno e Hin). lia. }
  change (active (Pmm.set_lock true s)) with (active s) in *. unfold pages_ok in Hok.
  assert (Hreg : region_ok e) by (eapply wf_regions_ok; [by apply wf_list|by eapply zget_In]).
  assert (Hpage : is_page (Pmm.base e) /\ region_end e < 2 ^ 52).
  { rewrite Forall_forall in Hok. apply Hok. apply elem_zget. by exists k. }
  assert (Hok' : Forall (fun e => is_page (Pmm.base e) /\ region_end e < 2 ^ 52) (active s1)).
  { rewrite Hperm. apply Forall_app. split.
    - unfold shrink. destruct (Pmm.size e =? 1) eqn:Es; [done|]. constructor; [|done]. unfold region_end in *. cbn.
      destruct Hpage as [H1 H2], Hreg as (_&H3&_). b2p. change PAGESIZE with 4096 in *. split; [|lia].
      apply (page_move _ 1); [done|lia|change PAGESIZE with 4096; lia].
    - apply Forall_forall. intros x Hx. rewrite Forall_forall in Hok. apply Hok.
      rewrite (perm_del _ _ _ Hk He). by right. }
  destruct Hsame. unfold Pmm.pmm_alloc_finish, bind, modify, gets, ret in *. unfold region_ok in Hreg.
  replace (Pmm.base e =? 0) with false in * by lia. cbn -[u64] in *. rewrite same_lvl in *.
  destruct (Pmm.runlevel s <? RUNLVL_VMEM); cbn -[u64 zlen] in *; [|rewrite run_zero_pages in *; cbn -[u64 zlen] in *];
    (split; [exact Hpost|]; split; [apply Hpage|]; split; [exact Hok'|done]).
Qed.

(** ** The state of an address space *)

Definition tcb_at (s : vmm_t) (t : tptr) : option tcb_t := match t with Idle => Some (idle_tcb s) | Task p => tcbs s !! p end.

(** Entries of the upper tables, given by path and index, that are no 2M pages. *)
Definition flat (Small : list Z -> Z -> Prop) (fr : gmap Z (list Z)) (m : Z) : Prop :=
  forall q k f l e, (length q <= 1)%nat -> Small q k -> node fr m q = Some f -> fr !! f = Some l -> zget l k = Some e ->
    vmm_ispresent e = true -> vmm_isslot e = false.

(** The tables below [m], with 512 entries each, form a tree of used pages, with 4K pages
    only where [Small] says so; [t] pays. *)
Record vm_ok (t : tptr) (m : Z) (Small : list Z -> Z -> Prop) (s : vmm_t) : Prop := {
  vm_win : zlen (win s) = 512;
  vm_tcb : exists x, tcb_at s t = Some x /\ magic x = OSZ_TCB_MAGICH /\ 0 <= allocmem x < 2 ^ 64 /\ 0 <= linkmem x < 2 ^ 64;
  vm_pmm : pmm_wf (pmm s);
  vm_pages : pages_ok (pmm s);
  vm_root : is_page m;
  vm_nodes q f : (length q <= 2)%nat -> node (frames s) m q = Some f ->
    (exists l, frames s !! f = Some l /\ zlen l = 512) /\ ~ is_free (pmm s) f;
  vm_inj : injective (frames s) m 2;
  vm_flat : flat Small (frames s) m;
}.

(** What is in a window. *)
Definition shows (s : vmm_t) (w f : Z) : Prop := exists e, zget (win s) w = Some e /\ vmm_phyaddr e = f.

Section Steps.
Context {E : Pmm.Entropy} {P : EntropyOk E}.
Context (t : tptr) (m : Z) (Small : list Z -> Z -> Prop).
Implicit Types s : vmm_t.

Lemma wp_rd w i f l v (Q : Z -> vmm_t -> Prop) s :
  shows s w f -> frames s !! f = Some l -> zget l i = Some v -> Q v s -> wp (rd w i) Q s.
Proof.
  intros (e&He&<-) Hl Hv HQ. unfold rd. wp_go. eapply wp_need; [done|]. wp_go. eapply wp_need; [done|]. by eapply wp_need.
Qed.
Lemma wp_wr w i f l v (Q : unit -> vmm_t -> Prop) s :
  shows s w f -> frames s !! f = Some l -> 0 <= i < zlen l -> Q tt (set_frames (<[f := zset l i v]> (frames s)) s) -> wp (wr w i v) Q s.
Proof.
  intros (e&He&<-) Hl [x Hv]%zget_is_Some HQ. unfold wr. wp_go. eapply wp_need; [done|]. wp_go. eapply wp_need; [done|].
  wp_go. by eapply wp_need.
Qed.

(** Changes that leave the tables alone. *)
Definition same_tables s s' : Prop :=
  (forall q, (length q <= 2)%nat -> node (frames s') m q = node (frames s) m q) /\
  (forall q k, length q = 2%nat -> mapped (frames s') m q k = mapped (frames s) m q k).

Lemma phyaddr_bound x : 0 <= vmm_phyaddr x < 2 ^ 56.
Proof.
  unfold vmm_phyaddr. change 0x00FFFFFFFFFFF000 with (Z.land 0x00FFFFFFFFFFF000 (Z.ones 56)).
  rewrite Z.land_assoc, Z.land_ones by lia. apply Z.mod_pos_bound. lia.
Qed.
Lemma entry_of_phyaddr x : vmm_phyaddr (entry_of (vmm_phyaddr x)) = vmm_phyaddr x.
Proof.
  unfold vmm_phyaddr at 1. unfold entry_of. pose proof (phyaddr_bound x).
  rewrite u64_small by (apply (lor_bound _ _ 64); [lia|lia|by vm_compute]).
  rewrite Z.land_lor_distr_l. change (Z.land (Z.lor PG_CORE_RWNOCACHE PG_PAGE) 0x00FFFFFFFFFFF000) with 0.
  unfold vmm_phyaddr. by rewrite <- Z.land_assoc, Z.land_diag, Z.lor_0_r.
Qed.

(** A change of the windows keeps the invariant. *)
Lemma vm_ok_win s v : vm_ok t m Small s -> zlen v = 512 -> vm_ok t m Small (set_win v s).
Proof. intros [H1 H2 H3 H4 H5 H6 H7 H8] Hv. by split. Qed.

Lemma wp_show w p (Q : unit -> vmm_t -> Prop) s :
  0 <= w < 512 -> vm_ok t m Small s ->
  (forall v, zlen v = 512 -> shows (set_win v s) w (vmm_phyaddr p) -> Q tt (set_win v s)) -> wp (show w p) Q s.
Proof.
  intros Hw Hok HQ. unfold show. apply wp_modify, HQ; [by rewrite zlen_zset; apply (vm_win _ _ _ _ Hok)|].
  exists (entry_of (vmm_phyaddr p)). split; [|apply entry_of_phyaddr]. cbn. apply zget_zset_eq. by rewrite (vm_win _ _ _ _ Hok).
Qed.

Lemma wp_vtload u x (Q : tcb_t -> vmm_t -> Prop) s : tcb_at s u = Some x -> Q x s -> wp (tload u) Q s.
Proof. intros Hx HQ. unfold tload. wp_go. destruct u; [by eapply wp_need|]. injection Hx as ->. by apply wp_ret. Qed.

Definition put_tcb u (x : tcb_t) s : vmm_t := match u with Idle => set_idle_tcb x s | Task p => set_tcbs (<[p := x]> (tcbs s)) s end.
Lemma wp_vtmod u x f (Q : unit -> vmm_t -> Prop) s : tcb_at s u = Some x -> Q tt (put_tcb u (f x) s) -> wp (tmod u f) Q s.
Proof.
  intros Hx HQ. unfold tmod. wp_go. destruct u as [p|]; [|by injection Hx as ->].
  wp_go. by eapply wp_need.
Qed.
Lemma tcb_at_put u x s : tcb_at (put_tcb u x s) u = Some x.
Proof. destruct u; [|done]. cbn. apply lookup_insert_eq. Qed.

Lemma vm_ok_tcb s x : vm_ok t m Small s -> magic x = OSZ_TCB_MAGICH -> 0 <= allocmem x < 2 ^ 64 -> 0 <= linkmem x < 2 ^ 64 -> vm_ok t m Small (put_tcb t x s).
Proof.
  intros [H1 H2 H3 H4 H5 H6 H7 H8] Hx Hb Hb'. destruct t as [p|]; (split; [done| |done..]); exists x; [|done].
  (split; [|done]); apply lookup_insert_eq || done.
Qed.

(** A page that is taken: it is cleared, and all else stays what it was. *)
Definition taken (s s' : vmm_t) (p : Z) : Prop :=
  vm_ok t m Small s' /\ is_page p /\ 0 < p /\ frames s' !! p = Some zero_frame /\ (forall f, f <> p -> frames s' !! f = frames s !! f)
  /\ same_tables s s' /\ (forall q, (length q <= 2)%nat -> node (frames s) m q <> Some p)
  /\ is_free (pmm s) p /\ ~ is_free (pmm s') p /\ (forall a, is_free (pmm s') a -> is_free (pmm s) a)
  /\ Pmm.pmm_freepages (pmm s') = Pmm.pmm_freepages (pmm s) - 1
  /\ zget (win s') tmpctrl = zget (win s) tmpctrl
  /\ (forall x, tcb_at s t = Some x -> tcb_at s' t = Some (set_allocmem (u64 (allocmem x + 1)) x)).

Lemma wp_on_pmm {A} (k : M Pmm.pmm_state A) a x (Q : A -> vmm_t -> Prop) s :
  k (pmm s) = Ret a x -> Q a (set_pmm x s) -> wp (on_pmm k) Q s.
Proof. intros H HQ. unfold wp, on_pmm. by rewrite H. Qed.

Lemma wp_window w virt phys access (Q : unit -> vmm_t -> Prop) s :
  fast_window virt = Some w -> 0 <= w < 512 -> zlen (win s) = 512 ->
  (forall e, Q tt (set_win (zset (win s) w e) s)) -> wp (vmm_page 0 virt phys access) Q s.
Proof.
  intros Hf Hw Hl HQ. unfold vmm_page. rewrite Hf. wp_go. destruct (zget_is_Some (win s) w) as [old Ho]; [lia|].
  eapply wp_need; [done|]. apply HQ.
Qed.

Lemma wp_clear_frame p (Q : unit -> vmm_t -> Prop) s :
  zlen (win s) = 512 ->
  (forall v, zlen v = 512 -> zget v tmpctrl = zget (win s) tmpctrl ->
     Q tt (set_win v (set_frames (<[p := zero_frame]> (frames s)) s))) -> wp (clear_frame p) Q s.
Proof.
  intros Hl HQ. unfold clear_frame. wp_go.
  - eapply (wp_window tmpmap1); [done|done|done|]. intros e. apply HQ; [by rewrite zlen_zset|by rewrite zget_zset_ne].
  - specialize (HQ (win s) Hl eq_refl). by destruct s.
Qed.

Lemma wp_pmm_alloc (Q : Z -> vmm_t -> Prop) s :
  vm_ok t m Small s -> 0 < Pmm.pmm_freepages (pmm s) -> (forall p s', taken s s' p -> Q p s') -> wp (pmm_alloc t) Q s.
Proof.
  intros Hok Hfree HQ. pose proof Hok as [H1 (x&Hx&Hmx&Hbx) H3 H4 H5 H6 H7 H8]. unfold pmm_alloc.
  apply wp_bind. eapply wp_vtload; [done|]. apply wp_bind.
  destruct (proj1 (wp_run _ _ _) (alloc_page x (pmm s) H3 H4 Hmx Hfree)) as ([p x']&a'&Hrun&Hpost&Hp&Hpages&_).
  eapply wp_on_pmm; [exact Hrun|]. destruct Hpost as (Hwf'&Hpos&Hwas&Hiff&Hcnt&_&_&_&Hx'&_). cbn [fst snd] in *. subst x'.
  apply wp_bind. eapply wp_vtmod; [by destruct t|]. replace (p =? 0) with false by lia. apply wp_bind. cbn [negb when].
  apply wp_clear_frame; [by destruct t|]. intros v Hv Hctrl. apply wp_ret, HQ.
  assert (Hpf : is_free (pmm s) p) by (apply Hwas; change PAGESIZE with 4096; lia).
  assert (Hnode : forall q, (length q <= 2)%nat -> node (frames s) m q <> Some p) by (intros q Hq Hn; by destruct (H6 q p Hq Hn)).
  set (s' := set_win _ _).
  assert (Efr : frames s' = <[p := zero_frame]> (frames s)) by by destruct t.
  assert (Epm : pmm s' = a') by by destruct t.
  assert (Hnf : ~ is_free a' p) by (rewrite Hiff; change PAGESIZE with 4096; lia).
  assert (Hsub : forall a, is_free a' a -> is_free (pmm s) a) by (intros a; rewrite Hiff; tauto).
  assert (Hsame : same_tables s s').
  { split; [intros q Hq|intros q k Hq]; rewrite Efr; [apply (node_fresh _ _ _ _ 2)|apply (mapped_fresh _ _ _ _ 2)];
      try lia; intros; apply Hnode; lia. }
  unfold taken. rewrite Epm, Efr.
  split; [|repeat match goal with |- _ /\ _ => split end; try done; try lia].
  - split; rewrite ?Epm; [done| |done|done|done| | |].
    + exists (set_allocmem (u64 (allocmem x + 1)) x). split; [|split; [done|split; [apply u64_bound|apply Hbx]]]. unfold s'. destruct t; [|done]. cbn. apply lookup_insert_eq.
    + intros q f Hq Hn. rewrite (proj1 Hsame) in Hn by done. destruct (H6 q f Hq Hn) as [(l&Hl&Hl5) Hfr]. split; [|by eauto].
      exists l. split; [|done]. rewrite Efr, lookup_insert_ne; [done|]. intros ->. by apply (Hnode q).
    + intros q q' f Hq Hq' Hn Hn'. rewrite (proj1 Hsame) in Hn by done. rewrite (proj1 Hsame) in Hn' by done. by apply (H7 q q' f).
    + intros q k f l e Hq Hs Hn Hl. rewrite (proj1 Hsame) in Hn by lia. rewrite Efr, lookup_insert_ne in Hl; [by apply (H8 q k f l e)|].
      intros ->. by apply (Hnode q); [lia|].
  - apply lookup_insert_eq.
  - intros f Hf. by apply lookup_insert_ne.
  - unfold s'. cbn [win set_win]. rewrite Hctrl. by destruct t.
  - intros y Hy. assert (y = x) as -> by congruence. unfold s'. destruct t; [|done]. cbn. apply lookup_insert_eq.
Qed.

(** Pages that are in use but are no tables. *)
Definition data s f : Prop := ~ is_free (pmm s) f /\ forall q, (length q <= 2)%nat -> node (frames s) m q <> Some f.

(** What every step keeps: the tables that are there, the other pages, and the account of
    the task, which pays for at most [n] pages and
    gets [d] pages of others. *)
Record ext (n d : Z) s s' : Prop := {
  ext_ok : vm_ok t m Small s';
  ext_node q f : (length q <= 2)%nat -> node (frames s) m q = Some f -> node (frames s') m q = Some f;
  ext_data f : data s f -> data s' f /\ frames s' !! f = frames s !! f;
  ext_free a : is_free (pmm s') a -> is_free (pmm s) a;
  ext_count : 0 <= Pmm.pmm_freepages (pmm s) - Pmm.pmm_freepages (pmm s') <= n;
  ext_pays x : tcb_at s t = Some x ->
    exists x', tcb_at s' t = Some x' /\ linkmem x' = u64 (linkmem x + d)
      /\ allocmem x' = u64 (allocmem x + (Pmm.pmm_freepages (pmm s) - Pmm.pmm_freepages (pmm s')));
}.
Definition same_map s s' : Prop := forall q k, length q = 2%nat -> mapped (frames s') m q k = mapped (frames s) m q k.

Lemma ext_trans n k d d' s s' s'' : ext n d s s' -> ext k d' s' s'' -> ext (n + k) (d + d') s s''.
Proof.
  intros [A1 A2 A3 A4 A5 A6] [B1 B2 B3 B4 B5 B6]. split; [done| | | |lia|].
  - intros. apply B2; [done|]. by apply A2.
  - intros f (Hd&Hf)%A3. destruct (B3 f Hd) as [Hd' Hf']. split; [done|]. by rewrite Hf'.
  - intros. by apply A4, B4.
  - intros x Hx. destruct (A6 x Hx) as (y&Hy&Hl&Ha). destruct (B6 y Hy) as (z&Hz&Hl'&Ha'). exists z. split; [done|].
    split; [rewrite Hl', Hl|rewrite Ha', Ha]; unfold u64, wrap; rewrite Zplus_mod_idemp_l; f_equal; lia.
Qed.
Lemma ext_weaken n k d s s' : ext n d s s' -> n <= k -> ext k d s s'.
Proof. intros [A1 A2 A3 A4 A5 A6] ?. split; try done. lia. Qed.

Lemma ext_win s v : vm_ok t m Small s -> zlen v = 512 -> ext 0 0 s (set_win v s).
Proof.
  intros Hok Hv. split; [by apply vm_ok_win|done|done|done|cbn; lia|]. intros x Hx. exists x. split; [done|].
  destruct (vm_tcb _ _ _ _ Hok) as (y&Hy&_&?&?). assert (x = y) as -> by congruence. cbn. rewrite Z.sub_diag, !Z.add_0_r.
  split; symmetry; by apply u64_small.
Qed.

Lemma taken_ext s s' p : vm_ok t m Small s -> taken s s' p -> ext 1 0 s s' /\ data s' p.
Proof.
  intros Hok0 (Hok&Hp&Hpos&Hz&Hfr&[Hn Hm]&Hnp&Hfree&Hnf&Hsub&Hcnt&_&Hpay). split.
  - split; [done| | |done|lia|].
    + intros q f Hq. by rewrite Hn.
    + intros f [H1 H2]. split; [|apply Hfr; by intros ->]. split; [by intros ?%Hsub|]. intros q Hq. rewrite Hn by done. by apply H2.
    + intros x Hx. eexists. split; [by apply Hpay|]. destruct (vm_tcb _ _ _ _ Hok0) as (y&Hy&_&?&?).
      assert (x = y) as -> by congruence. rewrite Z.add_0_r. split; [symmetry; by apply u64_small|].
      replace (_ - _) with 1 by lia. done.
  - split; [done|]. intros q Hq. rewrite Hn by done. by apply Hnp.
Qed.

Lemma bits_page a : bits_ok a -> forall p, is_page p ->
  vmm_ispresent (Z.lor p (Z.lor a PG_PAGE)) = true /\ vmm_isslot (Z.lor p (Z.lor a PG_PAGE)) = false
  /\ vmm_phyaddr (Z.lor p (Z.lor a PG_PAGE)) = p.
Proof. intros Ha p Hp. split; [apply entry_present|]. split; [by apply entry_not_slot|by apply entry_phyaddr]. Qed.

(** A free entry gets the page just taken as its table. *)
Lemma new_table_ext s0 s q f k l e0 p a :
  vm_ok t m Small s0 -> taken s0 s p -> (length q <= 1)%nat -> node (frames s) m q = Some f -> frames s !! f = Some l ->
  zget l k = Some e0 -> vmm_ispresent e0 = false -> bits_ok a ->
  let s' := set_frames (<[f := zset l k (Z.lor p (Z.lor a PG_PAGE))]> (frames s)) s in
  ext 1 0 s0 s' /\ same_map s0 s' /\ node (frames s') m (q ++ [k]) = Some p.
Proof.
  intros Hok0 Htk Hq Hf Hl He0 Hfree Ha s'. destruct (taken_ext _ _ _ Hok0 Htk) as [[Hok A2 A3 A4 A5 A6] [Hpf Hpn]].
  destruct Htk as (_&Hpp&_&Hp&_&[_ Hsm]&_&Hp0&_). pose proof Hok as [H1 H2 H3 H4 H5 H6 H7 H8].
  pose proof (bits_page a Ha p Hpp) as He. set (e := Z.lor p (Z.lor a PG_PAGE)) in *.
  pose proof (new_table_node (frames s) m q f k p e l e0 H7 Hq Hf Hl He0 Hfree He Hp Hpn) as Hn.
  pose proof (new_table_mapped (frames s) m q f k p e l e0 H7 Hq Hf Hl He0 Hfree He Hp Hpn) as Hm.
  change (frames s') with (<[f := zset l k e]> (frames s)).
  assert (Hnone : node (frames s) m (q ++ [k]) = None).
  { rewrite node_snoc, Hf. cbn. unfold child. rewrite Hl. cbn. rewrite He0. cbn. by rewrite Hfree. }
  split; [|split; [intros q' j Hj; rewrite <- Hsm by done; by apply Hm|
                   rewrite Hn by (rewrite length_app; cbn; lia); by rewrite decide_True]].
  split; [split; try done| | |done|cbn; lia|done].
  - intros q' g Hq' Hg. change (frames s') with (<[f := zset l k e]> (frames s)) in *. rewrite Hn in Hg by done.
    assert (Hg' : (exists l', frames s !! g = Some l' /\ zlen l' = 512) /\ ~ is_free (pmm s) g).
    { destruct (decide (q' = q ++ [k])); [injection Hg as <-; split; [by exists zero_frame|done]|by apply (H6 q')]. }
    destruct Hg' as [(l'&Hl'&Hz) Hnf]. split; [|done]. destruct (decide (g = f)) as [->|]; [|exists l'; by rewrite lookup_insert_ne].
    exists (zset l k e). rewrite lookup_insert_eq, zlen_zset. split; [done|]. congruence.
  - intros q1 q2 g Hq1 Hq2 Hg1 Hg2. change (frames s') with (<[f := zset l k e]> (frames s)) in *. rewrite Hn in Hg1, Hg2 by done.
    destruct (decide (q1 = q ++ [k])), (decide (q2 = q ++ [k])); try congruence; [| |by apply (H7 q1 q2 g)];
      exfalso; [injection Hg1 as <-; by apply (Hpn q2)|injection Hg2 as <-; by apply (Hpn q1)].
  - intros q' j g l' x Hq' Hs Hg Hl' Hx Hpx. change (frames s') with (<[f := zset l k e]> (frames s)) in *.
    rewrite Hn in Hg by lia. destruct (decide (q' = q ++ [k])) as [->|Hne].
    + injection Hg as <-. rewrite lookup_insert_ne, Hp in Hl' by (intros ->; by apply (Hpn q); [lia|]). injection Hl' as <-.
      by apply zero_frame_get in Hx as ->.
    + destruct (decide (g = f)) as [->|]; [|rewrite lookup_insert_ne in Hl' by done; by apply (H8 q' j g l')].
      rewrite lookup_insert_eq in Hl'. injection Hl' as <-. destruct (decide (j = k)) as [->|];
        [rewrite zget_zset_eq in Hx by (by eapply zget_Some_lt); by injection Hx as <-; apply He|].
      rewrite zget_zset_ne in Hx by done. by apply (H8 q' j f l).
  - intros q' g Hq' Hg%A2; [|done]. change (frames s') with (<[f := zset l k e]> (frames s)). rewrite Hn by done.
    rewrite decide_False; [done|]. intros ->. congruence.
  - intros g Hg. assert (g <> p) by (intros ->; by destruct Hg). destruct (A3 g Hg) as [[Hg1 Hg2] Hg3].
    change (frames s') with (<[f := zset l k e]> (frames s)). split.
    + split; [done|]. intros q' Hq'. change (frames s') with (<[f := zset l k e]> (frames s)). rewrite Hn by done.
      destruct (decide _); [congruence|by apply Hg2].
    + rewrite lookup_insert_ne; [done|]. intros ->. by apply (Hg2 q); [lia|].
Qed.

(** [table] brings the table below an entry into the window, a new one if need be. *)
Lemma wp_table s q f k l e0 a (Q : bool -> vmm_t -> Prop) :
  vm_ok t m Small s -> (length q <= 1)%nat -> node (frames s) m q = Some f -> shows s tmpctrl f ->
  frames s !! f = Some l -> zget l k = Some e0 -> Small q k ->
  bits_ok a -> 0 < Pmm.pmm_freepages (pmm s) ->
  (forall g s', ext 1 0 s s' -> same_map s s' -> node (frames s') m (q ++ [k]) = Some g -> shows s' tmpctrl g -> Q true s') ->
  wp (table t a k) Q s.
Proof.
  intros Hok Hq Hf Hw Hl He0 Hsmall Ha Hcnt HQ. unfold table. apply wp_bind. eapply wp_rd; [done..|].
  apply wp_bind. destruct (vmm_ispresent e0) eqn:Hpr.
  - apply wp_ret. cbn [negb]. apply wp_bind. eapply wp_rd; [done..|]. apply wp_bind. apply wp_show; [done|done|].
    intros v Hv Hsh. apply wp_ret. eapply (HQ (vmm_phyaddr e0)); [|done| |done].
    + apply (ext_weaken 0 1); [|lia]. by apply ext_win.
    + cbn. rewrite node_snoc, Hf. cbn. unfold child. rewrite Hl. cbn. rewrite He0. cbn. rewrite Hpr.
      by rewrite (vm_flat _ _ _ _ Hok q k f l e0).
  - apply wp_bind. apply wp_pmm_alloc; [done|done|]. intros p s1 Htk. pose proof Htk as (Hok1&Hpp&Hpos&Hz&Hfr&[Hn _]&Hnp&_&_&_&_&Hctl&_).
    replace (p =? 0) with false by lia. assert (Hpf : f <> p) by (intros ->; by apply (Hnp q); [lia|]).
    assert (Hsh1 : shows s1 tmpctrl f) by (destruct Hw as (e&?&?); exists e; by rewrite Hctl).
    assert (Hl1 : frames s1 !! f = Some l) by (by rewrite Hfr). assert (Hk : 0 <= k < zlen l) by by eapply zget_Some_lt.
    assert (Hf1 : node (frames s1) m q = Some f) by (rewrite Hn; [done|lia]).
    apply wp_bind. eapply wp_wr; [done..|]. apply wp_ret. cbn [negb].
    destruct (new_table_ext s s1 q f k l e0 p a) as (He&Hm&Hnd); [done..|].
    apply wp_bind. eapply wp_rd; [exact Hsh1|cbn; apply lookup_insert_eq|by apply zget_zset_eq|].
    apply wp_bind. apply wp_show; [done|by apply (ext_ok _ _ _ _ He)|]. intros v Hv Hsh. apply wp_ret.
    rewrite entry_phyaddr in Hsh by done. eapply HQ; [|done|exact Hnd|done].
    apply (ext_trans 1 0 0 0 _ _ _ He). apply ext_win; [by apply (ext_ok _ _ _ _ He)|done].
Qed.

(** A changed entry of a 4K table. *)
Lemma leaf_ext s v f l e :
  vm_ok t m Small s -> on_page v -> node (frames s) m (path v) = Some f -> frames s !! f = Some l -> vmm_ispresent e = true ->
  let s' := set_frames (<[f := zset l (idx_4K v) e]> (frames s)) s in
  ext 0 0 s s' /\ (forall q, (length q <= 2)%nat -> node (frames s') m q = node (frames s) m q)
  /\ forall w, on_page w -> mapped_at (frames s') m w = if decide (w = v) then Some e else mapped_at (frames s) m w.
Proof.
  intros Hok Hv Hf Hl He s'. pose proof Hok as [H1 H2 H3 H4 H5 H6 H7 H8].
  assert (Hlen : zlen l = 512) by (destruct (H6 (path v) f) as [(l'&Hl'&?) _]; [done|done|congruence]).
  assert (Hn : forall q, (length q <= 2)%nat -> node (frames s') m q = node (frames s) m q).
  { intros q Hq. apply (node_leaf (frames s) m 2 (path v) f l); try done. intros q'' ->. cbn in Hq. lia. }
  split; [|split; [done|]].
  - split; [split; try done| | |done|cbn; lia|].
    + intros q g Hq Hg. rewrite Hn in Hg by done. destruct (H6 q g Hq Hg) as [(l'&Hl'&?) ?]. split; [|done].
      change (frames s') with (<[f := zset l (idx_4K v) e]> (frames s)). destruct (decide (g = f)) as [->|].
      * eexists. rewrite lookup_insert_eq. split; [done|]. by rewrite zlen_zset.
      * exists l'. by rewrite lookup_insert_ne.
    + intros q q' g Hq Hq' Hg Hg'. rewrite Hn in Hg, Hg' by done. by apply (H7 q q' g).
    + intros q k g l' x Hq Hs Hg Hl' Hx. rewrite Hn in Hg by lia. change (frames s') with (<[f := zset l (idx_4K v) e]> (frames s)) in Hl'.
      rewrite lookup_insert_ne in Hl'; [by apply (H8 q k g l' x)|]. intros ->.
      assert (q = path v) as -> by (apply (H7 _ _ g); [lia|done..]). cbn in Hq. lia.
    + intros q g Hq Hg. by rewrite Hn.
    + intros g [Hg1 Hg2]. split; [split; [done|]; intros q Hq; rewrite Hn by done; by apply Hg2|].
      change (frames s') with (<[f := zset l (idx_4K v) e]> (frames s)). rewrite lookup_insert_ne; [done|]. intros ->.
      by apply (Hg2 (path v)).
    + intros x Hx. exists x. split; [done|]. destruct H2 as (y&Hy&_&?&?). assert (x = y) as -> by congruence. cbn.
      rewrite Z.sub_diag, !Z.add_0_r. split; symmetry; by apply u64_small.
  - intros w Hw. unfold mapped_at. change (frames s') with (<[f := zset l (idx_4K v) e]> (frames s)).
    rewrite (mapped_leaf (frames s) m (path v) f l) by (done || (rewrite Hlen; apply idx_range; done)).
    destruct (decide (w = v)) as [->|Hne]; [by rewrite decide_True, He|]. rewrite decide_False; [done|].
    intros [Hp Hi]. by apply Hne, page_inj.
Qed.

(** *** One page of the buffer *)

(** A new page: free before, cleared, and no table. *)
Definition new_page s s' p : Prop :=
  is_free (pmm s) p /\ is_page p /\ data s' p /\ frames s' !! p = Some zero_frame.

Definition step_to s s' (n d v e : Z) : Prop :=
  ext n d s s' /\ (forall q, (length q <= 2)%nat -> node (frames s') m q = node (frames s) m q)
  /\ zget (win s') tmpctrl = zget (win s) tmpctrl
  /\ forall w, on_page w -> mapped_at (frames s') m w = if decide (w = v) then Some e else mapped_at (frames s) m w.

Lemma wp_rd_leaf s v f (Q : Z -> vmm_t -> Prop) :
  vm_ok t m Small s -> node (frames s) m (path v) = Some f -> shows s tmpctrl f -> mapped_at (frames s) m v = None ->
  (forall l e, frames s !! f = Some l -> zlen l = 512 -> vmm_ispresent e = false -> Q e s) -> wp (rd tmpctrl (idx_4K v)) Q s.
Proof.
  intros Hok Hf Hsh Hno HQ. destruct (vm_nodes _ _ _ _ Hok (path v) f) as [(l&Hl&Hz) _]; [done|done|].
  destruct (zget_is_Some l (idx_4K v)) as [e He]; [rewrite Hz; by apply idx_range|].
  eapply wp_rd; [done..|]. apply (HQ l); [done|done|]. unfold mapped_at, mapped in Hno. rewrite Hf in Hno. cbn in Hno.
  rewrite Hl in Hno. cbn in Hno. rewrite He in Hno. cbn in Hno. by destruct (vmm_ispresent e).
Qed.

Lemma wp_fill_new s v f a step_ (Q : Z + option Z -> vmm_t -> Prop) :
  vm_ok t m Small s -> on_page v -> node (frames s) m (path v) = Some f -> shows s tmpctrl f ->
  mapped_at (frames s) m v = None -> 0 < Pmm.pmm_freepages (pmm s) ->
  (forall s' p, step_to s s' 1 0 v (Z.lor p (Z.lor a PG_PAGE)) -> new_page s s' p -> Q (inl 0) s') ->
  wp (fill t (pmm_alloc t) PG_PAGE a 0 step_ (idx_4K v)) Q s.
Proof.
  intros Hok Hv Hf Hsh Hno Hcnt HQ. unfold fill. apply wp_bind. eapply wp_rd_leaf; [done..|]. intros l e Hl Hz He. rewrite He.
  cbn [negb Z.eqb]. apply wp_bind. apply wp_pmm_alloc; [done|done|]. intros p s1 Htk.
  destruct (taken_ext _ _ _ Hok Htk) as [Hext Hd]. destruct Htk as (Hok1&Hpp&Hpos&Hz1&Hfr&[Hn Hm]&Hnp&Hfree&_&_&_&Hctl&_).
  replace (p =? 0) with false by lia. assert (Hpf : f <> p) by (intros ->; by apply (Hnp (path v))).
  assert (Hf1 : node (frames s1) m (path v) = Some f) by by rewrite Hn.
  assert (Hl1 : frames s1 !! f = Some l) by by rewrite Hfr.
  destruct (leaf_ext s1 v f l (Z.lor p (Z.lor a PG_PAGE)) Hok1 Hv Hf1 Hl1 (entry_present _ _)) as (He1&Hn1&Hm1).
  apply wp_bind. eapply (wp_wr _ _ f l); [|done|rewrite Hz; by apply idx_range|].
  { destruct Hsh as (x&?&?). exists x. by rewrite Hctl. }
  apply wp_ret. eapply HQ.
  - split; [exact (ext_trans _ _ _ _ _ _ _ Hext He1)|]. split; [intros q Hq; by rewrite Hn1, Hn|]. split; [done|].
    intros w Hw. rewrite Hm1 by done. destruct (decide (w = v)); [done|]. by apply Hm.
  - split; [done|]. split; [done|]. destruct (ext_data _ _ _ _ He1 p Hd) as [Hd' Hp']. split; [done|]. by rewrite Hp'.
Qed.

Lemma wp_fill_shared s v f a phys new (Q : Z + option Z -> vmm_t -> Prop) :
  vm_ok t m Small s -> on_page v -> node (frames s) m (path v) = Some f -> shows s tmpctrl f ->
  mapped_at (frames s) m v = None -> phys <> 0 ->
  (forall s', step_to s s' 0 1 v (Z.lor phys (Z.lor a (Z.lor PG_PAGE PG_SHARED))) -> pmm s' = pmm s ->
     Q (inl (u64 (phys + PAGESIZE))) s') ->
  wp (fill t new PG_PAGE a phys PAGESIZE (idx_4K v)) Q s.
Proof.
  intros Hok Hv Hf Hsh Hno Hphys HQ. unfold fill. apply wp_bind. eapply wp_rd_leaf; [done..|]. intros l e Hl Hz He. rewrite He.
  replace (phys =? 0) with false by lia. cbn [negb].
  set (e' := Z.lor phys _). assert (He' : vmm_ispresent e' = true).
  { unfold e'. rewrite present_bit, !Z.lor_spec. change (Z.testbit PG_PAGE 0) with true. cbn. by rewrite !orb_true_r. }
  destruct (leaf_ext s v f l e' Hok Hv Hf Hl He') as ([A1 A2 A3 A4 A5 A6]&Hn1&Hm1).
  apply wp_bind. eapply (wp_wr _ _ f l); [done|done|rewrite Hz; by apply idx_range|].
  destruct (vm_tcb _ _ _ _ A1) as (x&Hx&Hmx&Hb1&Hb2). apply wp_bind. eapply wp_vtmod; [exact Hx|]. apply wp_ret, HQ; [|by destruct t].
  change (PAGESIZE / PAGESIZE) with 1. set (s1 := set_frames _ s) in *. set (s2 := put_tcb _ _ s1).
  assert (Hfr : frames s2 = frames s1) by by destruct t. assert (Hpm : pmm s2 = pmm s1) by by destruct t.
  split; [|split; [by rewrite Hfr|split; [by destruct t|by rewrite Hfr]]].
  split; rewrite ?Hfr, ?Hpm; try done.
  - apply vm_ok_tcb; [done|done|done|apply u64_bound].
  - intros g Hg. destruct (A3 g Hg) as [[Hg1 Hg2] Hg3]. split; [|done]. unfold data. by rewrite Hfr, Hpm.
  - intros y Hy. assert (y = x) as -> by (change (tcb_at s1 t) with (tcb_at s t) in Hx; congruence). eexists.
    split; [apply tcb_at_put|]. split; [done|]. cbn. rewrite Z.sub_diag, Z.add_0_r. symmetry. by apply u64_small.
Qed.

(** *** A buffer *)

Section Fill.
(** How one page is filled: it takes [c] pages from the allocator and [d] from others, the
    [n]-th one comes from [ph n], and [G] says what the entries written so far are. *)
Context (s0 : vmm_t) (a c d : Z) (ph : Z -> Z) (G : vmm_t -> list Z -> Prop).
Hypothesis Hc : 0 <= c /\ 0 <= d.
Hypothesis HG : forall s s' es n k, G s es -> ext n k s s' -> G s' es.
Hypothesis Hfill : forall s es v f (Q : Z + option Z -> vmm_t -> Prop),
  vm_ok t m Small s -> on_page v -> node (frames s) m (path v) = Some f -> shows s tmpctrl f ->
  mapped_at (frames s) m v = None -> c <= Pmm.pmm_freepages (pmm s) -> G s es ->
  (forall p, is_free (pmm s) p -> is_free (pmm s0) p) -> zlen es * PAGESIZE < 2 ^ 39 ->
  (forall s' e, step_to s s' c d v e -> G s' (es ++ [e]) -> Q (inl (ph (zlen es + 1))) s') ->
  wp (fill t (pmm_alloc t) PG_PAGE a (ph (zlen es)) PAGESIZE (idx_4K v)) Q s.

(** From [b] on the entries [es] have been written, and [k] tables at most were made. *)
Record run (b : Z) (es : list Z) (k : Z) s : Prop := {
  run_ext : ext (c * zlen es + k) (d * zlen es) s0 s;
  run_good : G s es;
  run_map v : on_page v -> mapped_at (frames s) m v =
    if decide (b <= v < b + zlen es * PAGESIZE) then zget es ((v - b) / PAGESIZE) else mapped_at (frames s0) m v;
}.

Lemma run_tables b es k n s s' : run b es k s -> ext n 0 s s' -> same_map s s' -> run b es (k + n) s'.
Proof.
  intros [H1 H2 H3] He Hs. split.
  - eapply ext_weaken; [|apply Z.le_refl]. pose proof (ext_trans _ _ _ _ _ _ _ H1 He) as Hx. rewrite Z.add_0_r in Hx.
    by rewrite Z.add_assoc.
  - by eapply HG.
  - intros v Hv. unfold mapped_at at 1. rewrite Hs by done. by apply H3.
Qed.

Lemma run_snoc b es k s s' e : on_page b -> b + zlen es * PAGESIZE < 2 ^ 39 ->
  run b es k s -> step_to s s' c d (b + zlen es * PAGESIZE) e -> G s' (es ++ [e]) -> run b (es ++ [e]) k s'.
Proof.
  intros Hb Hend [H1 H2 H3] (He&_&_&Hm) Hg. pose proof (zlen_nonneg es). split; [|done|].
  - rewrite zlen_app. change (zlen [e]) with 1.
    replace (c * (zlen es + 1) + k) with (c * zlen es + k + c) by lia. replace (d * (zlen es + 1)) with (d * zlen es + d) by lia.
    by eapply ext_trans.
  - intros v Hv. rewrite Hm by done. rewrite zlen_app. change (zlen [e]) with 1. change PAGESIZE with 4096 in *.
    destruct Hv as [Hv1 Hv2], Hb as [Hb1 Hb2]. change PAGESIZE with 4096 in Hv2, Hb2.
    destruct (decide (v = b + zlen es * 4096)) as [->|Hne].
    + rewrite decide_True by lia. replace (b + zlen es * 4096 - b) with (zlen es * 4096) by lia. rewrite Z.div_mul by lia.
      by rewrite zget_app_r, Z.sub_diag by lia.
    + rewrite H3 by done. change PAGESIZE with 4096. destruct (decide (b <= v < b + zlen es * 4096)).
      * rewrite decide_True by lia. symmetry. apply zget_app_l. apply Z.div_lt_upper_bound; lia.
      * rewrite decide_False; [done|]. intros ?. apply Hne. Z.to_euclidean_division_equations; lia.
Qed.

Lemma wp_fill_from b es k cnt v f (Q : Z * Z * Z * Z + option Z -> vmm_t -> Prop) s :
  run b es k s -> on_page b -> v = b + zlen es * PAGESIZE -> on_page v -> 0 <= cnt ->
  node (frames s) m (path v) = Some f -> shows s tmpctrl f ->
  (forall w, on_page w -> v <= w < v + cnt * PAGESIZE -> mapped_at (frames s0) m w = None) ->
  c * cnt <= Pmm.pmm_freepages (pmm s) ->
  (forall es' s', run b (es ++ es') k s' -> zlen es' = Z.min cnt (512 - idx_4K v) ->
     c * (cnt - zlen es') <= Pmm.pmm_freepages (pmm s') - (Pmm.pmm_freepages (pmm s) - c * cnt) ->
     Q (inl (idx_4K v + zlen es', v + zlen es' * PAGESIZE, ph (zlen es + zlen es'), (cnt - zlen es') * PAGESIZE)) s') ->
  wp (fill_from t (pmm_alloc t) PG_PAGE a PAGESIZE (fun n => 0 <? n) (idx_4K v) v (ph (zlen es)) (cnt * PAGESIZE)) Q s.
Proof.
  intros Hrun Hb Hv Hpage Hcnt Hf Hsh Hno Hfree HQ. unfold fill_from. set (F := Pmm.pmm_freepages (pmm s) - c * cnt) in *.
  pose proof (idx_range v PAGEBITS ltac:(done)) as Hi. change (Z.land (Z.shiftr v PAGEBITS) 511) with (idx_4K v) in Hi.
  apply wp_iter with
    (I := fun st s1 => exists es', st = (idx_4K v + zlen es', v + zlen es' * PAGESIZE, ph (zlen es + zlen es'), (cnt - zlen es') * PAGESIZE)
            /\ zlen es' <= Z.min cnt (512 - idx_4K v) /\ run b (es ++ es') k s1 /\ node (frames s1) m (path v) = Some f
            /\ shows s1 tmpctrl f /\ c * (cnt - zlen es') <= Pmm.pmm_freepages (pmm s1) - F)
    (mu := fun st _ => let '(i, _, _, _) := st in Z.to_nat (512 - i)).
  - assert (HF : forall es1 s1, run b (es ++ es1) k s1 -> zlen es1 = Z.min cnt (512 - idx_4K v) ->
       c * (cnt - zlen es1) <= Pmm.pmm_freepages (pmm s1) - F ->
       Q (inl (idx_4K v + zlen es1, v + zlen es1 * PAGESIZE, ph (zlen es + zlen es1), (cnt - zlen es1) * PAGESIZE)) s1) by done.
    assert (HF0 : 0 <= F) by (unfold F; lia). clearbody F. clear s Hrun Hf Hsh Hfree HQ. intros st s (es'&->&Hle&Hrun&Hf&Hsh&Hfree).
    pose proof (zlen_nonneg es'). change PAGESIZE with 4096 in *. cbv beta iota.
    destruct (Z.ltb_spec 0 ((cnt - zlen es') * 4096)); [destruct (Z.ltb_spec (idx_4K v + zlen es') 512)|]; cbn [andb].
    + destruct (path_move v (zlen es') Hpage ltac:(lia) ltac:(lia)) as (Hp1&Hp2&Hp3). change PAGESIZE with 4096 in *.
      rewrite <- Hp3, <- zlen_app. apply wp_bind. set (w := v + zlen es' * 4096) in *.
      assert (Hw : w = b + zlen (es ++ es') * PAGESIZE) by (unfold w; rewrite zlen_app; change PAGESIZE with 4096; lia).
      eapply Hfill; [apply (run_ext _ _ _ _ Hrun)|done|by rewrite Hp2|done| |nia|apply (run_good _ _ _ _ Hrun)|apply (run_ext _ _ _ _ Hrun)|change PAGESIZE with 4096 in *; destruct Hp1, Hb; lia|].
      { rewrite (run_map _ _ _ _ Hrun) by done. rewrite decide_False by lia. apply Hno; [done|unfold w; lia]. }
      intros s' e Hst Hg. apply wp_ret. pose proof (Hst) as (He&Hn&Hw'&_). split; [|lia].
      exists (es' ++ [e]). rewrite !zlen_app. change (zlen [e]) with 1. split.
      { rewrite u64_small by (destruct Hp1; unfold w in *; lia). rewrite Hp3. unfold w.
        repeat match goal with |- (_, _) = (_, _) => f_equal end; [lia|lia|f_equal; lia|lia]. }
      split; [lia|]. split; [rewrite app_assoc; eapply run_snoc; [done|destruct Hp1; lia|done|by rewrite <- Hw|by rewrite <- app_assoc in *]|].
      split; [by rewrite Hn|]. split; [destruct Hsh as (x&?&?); exists x; by rewrite Hw'|].
      pose proof (ext_count _ _ _ _ He). lia.
    + apply wp_ret, HF; [done|lia|done].
    + apply wp_ret, HF; [done|lia|done].
  - exists []. change (zlen (A := Z) []) with 0. rewrite app_nil_r, !Z.add_0_r, Z.sub_0_r.
    split; [f_equal; lia|]. split; [lia|]. split; [done|]. split; [done|]. split; [done|]. unfold F. lia.
  - lia.
Qed.

(** From [again] on: the tables on the way, then pages up to the end of the last one. *)
Lemma wp_map_round b es k cnt v access ret_ (Q : Z * Z * Z + Z -> vmm_t -> Prop) s :
  run b es k s -> on_page b -> v = b + zlen es * PAGESIZE -> on_page v -> 0 <= cnt -> cnt * PAGESIZE < SLOTSIZE ->
  Small [] (idx_1G v) -> Small [idx_1G v] (idx_2M v) -> bits_ok access ->
  (forall w, on_page w -> v <= w < v + cnt * PAGESIZE -> mapped_at (frames s0) m w = None) ->
  c * cnt + 2 <= Pmm.pmm_freepages (pmm s) ->
  (forall es' s', run b (es ++ es') (k + 2) s' -> zlen es' = Z.min cnt (512 - idx_4K v) ->
     Pmm.pmm_freepages (pmm s) - 2 - c * zlen es' <= Pmm.pmm_freepages (pmm s') ->
     Q (if 511 <? idx_4K v + zlen es' then inl (v + zlen es' * PAGESIZE, ph (zlen es + zlen es'), (cnt - zlen es') * PAGESIZE)
        else inr ret_) s') ->
  wp (map_round t m a access ret_ (v, ph (zlen es), cnt * PAGESIZE)) Q s.
Proof.
  intros Hrun Hb Hv Hpage Hcnt Hsize HS1 HS2 Hacc Hno Hfree HQ. pose proof (ext_ok _ _ _ _ (run_ext _ _ _ _ Hrun)) as Hok.
  unfold map_round. apply wp_bind, wp_show; [done|done|]. intros w Hw Hsh. rewrite page_phyaddr in Hsh by apply (vm_root _ _ _ _ Hok).
  set (s1 := set_win w s) in *. assert (Hrun1 : run b es (k + 0) s1).
  { apply (run_tables _ _ _ _ s); [done|by apply ext_win|done]. }
  assert (Hok1 : vm_ok t m Small s1) by apply (run_ext _ _ _ _ Hrun1). assert (Hf1 : pmm s1 = pmm s) by done. clearbody s1.
  assert (Htab : forall q k1 s2, vm_ok t m Small s2 -> (length q <= 2)%nat -> 0 <= k1 < 512 -> forall f, node (frames s2) m q = Some f ->
    exists l e, frames s2 !! f = Some l /\ zget l k1 = Some e).
  { intros q k1 s2 Hs2 Hq Hk1 f Hf. destruct (vm_nodes _ _ _ _ Hs2 q f Hq Hf) as [(l&Hl&Hz) _].
    destruct (zget_is_Some l k1) as [e He]; [by rewrite Hz|]. by exists l, e. }
  destruct (Htab [] (idx_1G v) s1) with (f := m) as (l1&e1&Hl1&He1); [done|cbn; lia|by apply idx_range|done|].
  apply wp_bind. eapply (wp_table s1 []); [done|cbn; lia|done|done|exact Hl1|exact He1|done|done|rewrite Hf1; nia|].
  intros g s2 Hx2 Hm2 Hn2 Hsh2. pose proof (run_tables _ _ _ _ _ _ Hrun1 Hx2 Hm2) as Hrun2. cbn [negb app] in *.
  assert (Hok2 : vm_ok t m Small s2) by apply (run_ext _ _ _ _ Hrun2).
  destruct (Htab [idx_1G v] (idx_2M v) s2) with (f := g) as (l2&e2&Hl2&He2); [done|cbn; lia|by apply idx_range|done|].
  apply wp_bind. eapply wp_rd; [exact Hsh2|exact Hl2|exact He2|].
  replace (SLOTSIZE <=? cnt * PAGESIZE) with false by lia. rewrite andb_false_r.
  pose proof (ext_count _ _ _ _ Hx2) as Hc2. rewrite Hf1 in Hc2.
  apply wp_bind. eapply (wp_table s2 [idx_1G v]); [done|cbn; lia|done|done|exact Hl2|exact He2|done|done|nia|].
  intros g3 s3 Hx3 Hm3 Hn3 Hsh3. pose proof (run_tables _ _ _ _ _ _ Hrun2 Hx3 Hm3) as Hrun3. cbn [negb app] in *.
  pose proof (ext_count _ _ _ _ Hx3) as Hc3. replace (k + 0 + 1 + 1) with (k + 2) in Hrun3 by lia.
  apply wp_bind. eapply wp_fill_from; [exact Hrun3|done|done|done|done|exact Hn3|done|done|lia|].
  intros es' s4 Hrun4 Hlen Hfree4. cbv beta iota. apply wp_ret, HQ; [done|done|lia].
Qed.

(** Fewer than 512 pages are in two 4K tables at most. *)
Lemma wp_rounds fuel b cnt access ret_ (Q : Z -> vmm_t -> Prop) s :
  (2 <= fuel)%nat -> run b [] 0 s -> on_page b -> 0 < cnt -> cnt * PAGESIZE < SLOTSIZE -> b + cnt * PAGESIZE < 2 ^ 39 -> bits_ok access ->
  (forall w, on_page w -> b <= w <= b + cnt * PAGESIZE -> Small [] (idx_1G w) /\ Small [idx_1G w] (idx_2M w)) ->
  (forall w, on_page w -> b <= w < b + cnt * PAGESIZE -> mapped_at (frames s0) m w = None) ->
  c * cnt + 4 <= Pmm.pmm_freepages (pmm s) ->
  (forall es s', run b es 4 s' -> zlen es = cnt -> Q ret_ s') ->
  wp (iter fuel (map_round t m a access ret_) (b, ph 0, cnt * PAGESIZE)) Q s.
Proof.
  intros Hfuel Hrun Hb Hcnt Hsize Hend Hacc Hsmall Hno Hfree HQ. destruct fuel as [|[|fuel]]; [lia..|].
  pose proof (idx_range b PAGEBITS ltac:(done)) as Hi. change (Z.land (Z.shiftr b PAGEBITS) 511) with (idx_4K b) in Hi.
  change PAGESIZE with 4096 in *. change SLOTSIZE with 2097152 in Hsize. pose proof Hb as [Hb1 Hb2]. change PAGESIZE with 4096 in Hb2.
  assert (Hweak : forall es k s', run b es k s' -> k <= 4 -> run b es 4 s').
  { intros es k s' [R1 R2 R3] Hk. split; [|done..]. eapply ext_weaken; [done|lia]. }
  rewrite iter_S. change (ph 0) with (ph (zlen (A := Z) [])).
  apply wp_bind. destruct (Hsmall b Hb) as [HS1 HS2]; [lia|].
  eapply (wp_map_round b [] 0 cnt b); [done|done|change (zlen (A := Z) []) with 0; lia|done|lia|change PAGESIZE with 4096; change SLOTSIZE with 2097152; lia|done|done|done|done|lia|].
  intros es1 s1 Hrun1 Hlen1 Hf1. cbn [app] in Hrun1. change (zlen (A := Z) []) with 0. rewrite Z.add_0_l.
  destruct (Z.ltb_spec 511 (idx_4K b + zlen es1)) as [Hge|Hlt].
  - set (v := b + zlen es1 * PAGESIZE). change PAGESIZE with 4096 in *.
    assert (Hv : on_page v).
    { unfold on_page, v. change PAGESIZE with 4096. split; [lia|]. by rewrite Z.mod_add. }
    assert (Hv0 : idx_4K v = 0) by (apply path_next; [done|lia|lia]).
    rewrite iter_S.
    apply wp_bind. destruct (Hsmall v Hv) as [HS3 HS4]; [unfold v; lia|].
    eapply (wp_map_round b es1 (0 + 2) (cnt - zlen es1) v); [done|done|done|done|lia|change PAGESIZE with 4096; change SLOTSIZE with 2097152; lia|done|done|done| |nia|].
    { intros w Hw1 Hw2. change PAGESIZE with 4096 in Hw2. apply Hno; [done|unfold v in *; lia]. }
    intros es2 s2 Hrun2 Hlen2 _. rewrite Hv0 in Hlen2 |- *. replace (511 <? 0 + zlen es2) with false by lia. apply wp_ret, (HQ (es1 ++ es2)).
    + eapply Hweak; [done|lia].
    + rewrite zlen_app. lia.
  - apply wp_ret, (HQ es1); [eapply Hweak; [done|lia]|lia].
Qed.

End Fill.

(** *** New and shared pages *)

(** The entries of the new pages [ps]. *)
Definition new_entries (s0 : vmm_t) (a : Z) (ps : list Z) s (es : list Z) : Prop :=
  es = map (fun p => Z.lor p (Z.lor a PG_PAGE)) ps /\ NoDup ps /\ Forall (new_page s0 s) ps.
(** The entries of the pages from [phys] on. *)
Definition shared_entry (phys a i : Z) : Z := Z.lor (u64 (phys + i * PAGESIZE)) (Z.lor a (Z.lor PG_PAGE PG_SHARED)).
Definition shared_entries (phys a : Z) (es : list Z) : Prop :=
  forall i, 0 <= i < zlen es -> zget es i = Some (shared_entry phys a i).

Lemma new_entries_ext s0 a s s' es n k : (exists ps, new_entries s0 a ps s es) -> ext n k s s' -> exists ps, new_entries s0 a ps s' es.
Proof.
  intros (ps&->&Hd&Hps) He. exists ps. split; [done|]. split; [done|]. eapply Forall_impl; [exact Hps|].
  intros p (H1&H2&H3&H4). destruct (ext_data _ _ _ _ He p H3) as [H5 H6]. split; [done|]. split; [done|]. split; [done|]. by rewrite H6.
Qed.

Lemma new_entries_fill s0 a s es v f (Q : Z + option Z -> vmm_t -> Prop) :
  vm_ok t m Small s -> on_page v -> node (frames s) m (path v) = Some f -> shows s tmpctrl f ->
  mapped_at (frames s) m v = None -> 1 <= Pmm.pmm_freepages (pmm s) -> (exists ps, new_entries s0 a ps s es) ->
  (forall p, is_free (pmm s) p -> is_free (pmm s0) p) -> zlen es * PAGESIZE < 2 ^ 39 ->
  (forall s' e, step_to s s' 1 0 v e -> (exists ps, new_entries s0 a ps s' (es ++ [e])) -> Q (inl 0) s') ->
  wp (fill t (pmm_alloc t) PG_PAGE a 0 PAGESIZE (idx_4K v)) Q s.
Proof.
  intros Hok Hv Hf Hsh Hno Hcnt Hg Hsub _ HQ. eapply wp_fill_new; [done..|lia|]. intros s' p Hst Hp.
  apply (HQ s' _ Hst). destruct Hg as (ps&->&Hd&Hps). pose proof Hst as (He&_). destruct Hp as (Hp1&Hp2&Hp3&Hp4).
  exists (ps ++ [p]). split; [by rewrite map_app|]. split.
  - apply NoDup_app. split; [done|]. split; [|apply NoDup_singleton]. intros q Hq Hqp%list_elem_of_singleton. subst q.
    rewrite Forall_forall in Hps. by destruct (Hps p Hq) as (_&_&[? _]&_).
  - apply Forall_app. split; [|constructor; [|by constructor]; split; [by apply Hsub|done]]. eapply Forall_impl; [exact Hps|].
    intros q (H1&H2&H3&H4). destruct (ext_data _ _ _ _ He q H3) as [H5 H6]. split; [done|]. split; [done|]. split; [done|]. by rewrite H6.
Qed.

Lemma shared_entries_fill phys a s es v f (Q : Z + option Z -> vmm_t -> Prop) :
  0 < phys < 2 ^ 56 ->
  vm_ok t m Small s -> on_page v -> node (frames s) m (path v) = Some f -> shows s tmpctrl f ->
  mapped_at (frames s) m v = None -> shared_entries phys a es -> zlen es * PAGESIZE < 2 ^ 39 ->
  (forall s' e, step_to s s' 0 1 v e -> shared_entries phys a (es ++ [e]) -> Q (inl (u64 (phys + (zlen es + 1) * PAGESIZE))) s') ->
  wp (fill t (pmm_alloc t) PG_PAGE a (u64 (phys + zlen es * PAGESIZE)) PAGESIZE (idx_4K v)) Q s.
Proof.
  intros Hphys Hok Hv Hf Hsh Hno Hg Hlen HQ. pose proof (zlen_nonneg es). change PAGESIZE with 4096 in *.
  eapply wp_fill_shared; [done..|rewrite u64_small by lia; lia|]. intros s' Hst _.
  change PAGESIZE with 4096. rewrite u64_u64_add. replace (phys + zlen es * 4096 + 4096) with (phys + (zlen es + 1) * 4096) by lia.
  apply (HQ s' _ Hst). intros i Hi. rewrite zlen_app in Hi. change (zlen [_]) with 1 in Hi.
  destruct (Z.eq_dec i (zlen es)) as [->|]; [by rewrite zget_app_r, Z.sub_diag by lia|]. rewrite zget_app_l by lia. apply Hg. lia.
Qed.

End Steps.

(** ** The theorems *)

(** The tables on the way to the pages from [b] up to the one behind the buffer. *)
Definition on_the_way (b n : Z) (q : list Z) (k : Z) : Prop :=
  exists w, on_page w /\ b <= w <= b + n * PAGESIZE /\ ((q = [] /\ k = idx_1G w) \/ (q = [idx_1G w] /\ k = idx_2M w)).

Section Map.
Context {E : Pmm.Entropy} {P : EntropyOk E}.

(** A buffer of [n] pages at [b] in the address space of the task [p], whose tables are
    below [m]. *)
Record buffer (p m b n : Z) (s : vmm_t) : Prop := {
  buf_ok : vm_ok (Task p) m (on_the_way b n) s;
  buf_place : on_page b /\ 0 < b /\ b + n * PAGESIZE < 2 ^ 39;
  buf_size : 0 < n < 512;
  buf_root x : tcbs s !! p = Some x -> exists l e, frames s !! vmm_phyaddr (memroot x) = Some l /\ zget l 0 = Some e /\ vmm_phyaddr e = m;
  buf_free w : on_page w -> b <= w < b + n * PAGESIZE -> mapped_at (frames s) m w = None;
}.

Lemma map_access_bits b access : 0 <= b < 2 ^ 39 -> bits_ok access -> bits_ok (snd (map_access b access)).
Proof.
  intros Hb Ha. unfold map_access. destruct (Z.ltb_spec b SDYN_ADDRESS); [|change SDYN_ADDRESS with 0xFFFFFF8000000000 in *; lia].
  destruct (_ && _); [|done]. by vm_compute.
Qed.

(** The start of [vmm_map], up to the first round. *)
Lemma wp_vmm_map fuel p m b n phys size access (Q : Z -> vmm_t -> Prop) s :
  buffer p m b n s -> page_up size = n * PAGESIZE ->
  (forall v, zlen v = 512 -> let s' := set_win v s in
     wp (iter fuel (map_round (Task p) m (fst (map_access b access)) (snd (map_access b access)) b) (b, vmm_phyaddr phys, n * PAGESIZE)) Q s') ->
  wp (vmm_map fuel (Task p) b phys size access) Q s.
Proof.
  intros [Hok [[Hb1 Hb2] [Hb3 Hb4]] Hn Hroot _] Hsize HQ. unfold vmm_map. rewrite Hsize. change PAGESIZE with 4096 in *.
  assert (Ho : outside b = false).
  { unfold outside. rewrite Z.shiftr_div_pow2, Z.div_small by lia. done. }
  rewrite Ho. replace (n * 4096 =? 0) with false by lia. replace (b =? 0) with false by lia. cbn [is_idle negb andb orb].
  change SDYN_ADDRESS with 0xFFFFFF8000000000. replace (b <? 0xFFFFFF8000000000) with true by lia.
  replace (0xFFFFFF8000000000 <=? b) with false by lia. cbn [andb].
  destruct (vm_tcb _ _ _ _ Hok) as (x&Hx&Hm&_). apply wp_bind, wp_bind. eapply wp_vtload; [exact Hx|]. apply wp_ret. rewrite Hm.
  change (negb (OSZ_TCB_MAGICH =? OSZ_TCB_MAGICH)) with false. cbv iota.
  destruct (map_access b access) as [a access'] eqn:Ea. cbn [fst snd] in HQ.
  apply wp_bind. unfold vmm_getmemroot. change SDYN_ADDRESS with 0xFFFFFF8000000000. replace (0xFFFFFF8000000000 <=? b) with false by lia.
  apply wp_bind. eapply wp_vtload; [exact Hx|]. destruct (Hroot x Hx) as (l&e&Hl&He&Hem).
  apply wp_bind. eapply wp_show; [done|exact Hok|]. intros v Hv Hsh.
  apply wp_bind. eapply wp_rd; [exact Hsh|exact Hl| |].
  { unfold idx_512G. rewrite idx_eq, Z.div_small by lia. exact He. }
  apply wp_ret. rewrite Hem. by apply HQ.
Qed.

(** Both kinds of buffers: [G] says what the entries are, see above. *)
Lemma wp_map_run fuel p m b n phys size access c d ph G (Q : Z -> vmm_t -> Prop) s :
  let W := on_the_way b n in let a := fst (map_access b access) in
  (2 <= fuel)%nat -> buffer p m b n s -> page_up size = n * PAGESIZE -> bits_ok access -> c * n + 4 <= Pmm.pmm_freepages (pmm s) ->
  0 <= c /\ 0 <= d -> vmm_phyaddr phys = ph 0 -> (forall v, G (set_win v s) []) ->
  (forall s s' es n k, G s es -> ext (Task p) m W n k s s' -> G s' es) ->
  (forall s1 es v f (Q : Z + option Z -> vmm_t -> Prop),
    vm_ok (Task p) m W s1 -> on_page v -> node (frames s1) m (path v) = Some f -> shows s1 tmpctrl f ->
    mapped_at (frames s1) m v = None -> c <= Pmm.pmm_freepages (pmm s1) -> G s1 es ->
    (forall q, is_free (pmm s1) q -> is_free (pmm s) q) -> zlen es * PAGESIZE < 2 ^ 39 ->
    (forall s' e, step_to (Task p) m W s1 s' c d v e -> G s' (es ++ [e]) -> Q (inl (ph (zlen es + 1))) s') ->
    wp (fill (Task p) (pmm_alloc (Task p)) PG_PAGE a (ph (zlen es)) PAGESIZE (idx_4K v)) Q s1) ->
  (forall es s', run (Task p) m W s c d G b es 4 s' -> zlen es = n -> Q b s') ->
  wp (vmm_map fuel (Task p) b phys size access) Q s.
Proof.
  intros W a Hfuel Hbuf Hsize Ha Hfree Hcd Hph HG0 HG Hfill HQ. pose proof Hbuf as [Hok [Hb [Hb3 Hb4]] Hn Hroot Hno].
  eapply wp_vmm_map; [exact Hbuf|exact Hsize|]. intros v Hv s1. rewrite Hph.
  apply (wp_rounds (Task p) m W s a c d ph G Hcd HG Hfill); [done| |done|lia| |done| | |done|done|done].
  - split; [|apply HG0|intros w Hw; by rewrite decide_False by (change (zlen (A := Z) []) with 0; lia)].
    change (zlen (A := Z) []) with 0. rewrite !Z.mul_0_r. by apply ext_win.
  - change PAGESIZE with 4096. change SLOTSIZE with 2097152. lia.
  - apply map_access_bits; [by apply Hb|done].
  - intros w Hw Hbw. split; exists w; (split; [done|]; split; [done|]); [by left|by right].
Qed.

(** C11: A buffer of new pages: each page of it is mapped to a page of its own that was free and
    has been cleared, with the access bits asked for; no other translation changes, and the
    task pays for the pages and for the tables that were made. *)
Theorem vmm_map_new fuel p m b n size access s :
  (2 <= fuel)%nat -> buffer p m b n s -> page_up size = n * PAGESIZE -> bits_ok access -> n + 4 <= Pmm.pmm_freepages (pmm s) ->
  wp (vmm_map fuel (Task p) b 0 size access) (fun r s' =>
    r = b /\ ext (Task p) m (on_the_way b n) (n + 4) 0 s s' /\
    exists ps, zlen ps = n /\ NoDup ps /\ Forall (new_page m s s') ps /\
      forall w, on_page w -> mapped_at (frames s') m w =
        if decide (b <= w < b + n * PAGESIZE)
        then (fun q => Z.lor q (Z.lor (fst (map_access b access)) PG_PAGE)) <$> zget ps ((w - b) / PAGESIZE)
        else mapped_at (frames s) m w) s.
Proof.
  intros Hfuel Hbuf Hsize Ha Hfree. set (a := fst (map_access b access)).
  eapply (wp_map_run fuel p m b n 0 size access 1 0 (fun _ => 0) (fun s' es => exists ps, new_entries m s a ps s' es));
    [done|done|done|done|lia|lia|done|intros v; exists []; split; [done|split; [constructor|done]]| | |].
  - intros. by eapply new_entries_ext.
  - intros. by eapply new_entries_fill.
  - intros es s' [He (ps&->&Hd&Hps) Hm] Hlen. assert (Hz : zlen ps = n) by (rewrite <- Hlen; unfold zlen; by rewrite length_map).
    split; [done|]. split; [rewrite Hlen in He; by rewrite Z.mul_1_l in He|]. exists ps.
    split; [done|]. split; [done|]. split; [done|]. intros w Hw. rewrite Hm, Hlen by done. destruct (decide _); [|done].
    by rewrite zget_fmap.
Qed.

(** C27: A buffer of the pages from [phys] on: they are mapped in their order, shared, and the
    task does not pay for them. *)
Theorem vmm_map_shared fuel p m b n phys size access s :
  (2 <= fuel)%nat -> buffer p m b n s -> page_up size = n * PAGESIZE -> bits_ok access -> 4 <= Pmm.pmm_freepages (pmm s) ->
  0 < vmm_phyaddr phys ->
  wp (vmm_map fuel (Task p) b phys size access) (fun r s' =>
    r = b /\ ext (Task p) m (on_the_way b n) 4 n s s' /\
      forall w, on_page w -> mapped_at (frames s') m w =
        if decide (b <= w < b + n * PAGESIZE)
        then Some (shared_entry (vmm_phyaddr phys) (fst (map_access b access)) ((w - b) / PAGESIZE))
        else mapped_at (frames s) m w) s.
Proof.
  intros Hfuel Hbuf Hsize Ha Hfree Hphys. set (a := fst (map_access b access)). pose proof (phyaddr_bound phys) as Hpb.
  eapply (wp_map_run fuel p m b n phys size access 0 1 (fun i => u64 (vmm_phyaddr phys + i * PAGESIZE)) (fun _ es => shared_entries (vmm_phyaddr phys) a es));
    [done|done|done|done|lia|lia| | |done| |].
  - rewrite Z.mul_0_l, Z.add_0_r. symmetry. apply u64_small. lia.
  - intros v i Hi. change (zlen (A := Z) []) with 0 in Hi. lia.
  - intros. by eapply shared_entries_fill; [lia|..].
  - intros es s' [He Hes Hm] Hlen. split; [done|]. split; [rewrite Hlen in He; by rewrite Z.mul_1_l in He|].
    intros w Hw. rewrite Hm, Hlen by done. destruct (decide _) as [Hin|]; [|done]. apply Hes. rewrite Hlen.
    change PAGESIZE with 4096 in *. split; [apply Z.div_pos; lia|apply Z.div_lt_upper_bound; lia].
Qed.

End Map.

(** ** A task with an empty address space *)
Import Sample.

Definition sample_tables : gmap Z (list Z) := {[4096 := zero_frame; 8192 := zset zero_frame 0 (Z.lor 4096 7)]}.
Definition sample_task : tcb_t := set_memroot 8192 Sample.task.
Definition sample_vmm : vmm_t :=
  mk_vmm Sample.mem sample_tables {[5 := sample_task]} {[5 := mk_arch 0 0x23 0x202 0 0x1b]} Sample.task
    (List.repeat 0 512) 0 8192 1 [0] 0.

Lemma sample_node q : (length q <= 2)%nat -> forall f, node sample_tables 4096 q = Some f -> q = [] /\ f = 4096.
Proof.
  intros _ f. destruct q as [|i q]; cbn -[child]; [by intros [= <-]|].
  rewrite child_zero by done. done.
Qed.
Lemma sample_used a : a < 1048576 -> ~ is_free (pmm sample_vmm) a.
Proof.
  intros Ha H. unfold is_free in H. apply Exists_exists in H as (e&He&Hr). unfold in_region in Hr.
  assert (1048576 <= Pmm.base e); [|lia]. by repeat (apply elem_of_cons in He as [->|He]); [..|apply elem_of_nil in He].
Qed.
Lemma sample_buffer : buffer 5 4096 0x200000 3 sample_vmm.
Proof.
  split; [split| |done| |].
  - done.
  - by exists sample_task.
  - apply Sample.mem_wf.
  - unfold pages_ok, is_page. cbn. Sample.regions; done.
  - done.
  - intros q f Hq H. apply sample_node in H as [-> ->]; [|done]. split; [by exists zero_frame|by apply sample_used].
  - intros q q' f Hq Hq' H H'. apply sample_node in H as [-> _], H' as [-> _]; done.
  - intros q k f l e Hq _ H Hl He. apply sample_node in H as [-> ->]; [|lia].
    replace l with zero_frame in He by (change (Some zero_frame = Some l) in Hl; congruence).
    by apply zero_frame_get in He as ->.
  - done.
  - intros x H. exists (zset zero_frame 0 (Z.lor 4096 7)), 4103. change (Some sample_task = Some x) in H.
    injection H as <-. done.
  - intros w _ _. unfold mapped_at, mapped. destruct (node _ _ _) as [f|] eqn:E; [|done]. apply sample_node in E as [E _]; done.
Qed.

Lemma vmm_map_new_witness :
  wp (vmm_map 2 (Task 5) 0x200000 0 12000 PG_USER_RW) (fun r s' => r = 0x200000 /\
    exists ps, zlen ps = 3 /\ NoDup ps /\ mapped_at (frames s') 4096 0x202000 = (fun q => Z.lor q 0x8000000000000007) <$> zget ps 2) sample_vmm.
Proof.
  eapply wp_mono; [apply (vmm_map_new 2 5 4096 0x200000 3 12000 PG_USER_RW sample_vmm)|].
  - lia.
  - exact sample_buffer.
  - done.
  - done.
  - done.
  - intros r s' (->&_&ps&Hn&Hd&_&Hm). split; [done|]. exists ps. split; [done|]. split; [done|].
    rewrite (Hm 0x202000) by done. done.
Defined.

(** The screen of a task: two pages of the device at 0xFD000000. *)
Lemma vmm_map_shared_witness :
  wp (vmm_map 2 (Task 5) 0x200000 0xFD000000 12288 PG_USER_RW) (fun r s' => r = 0x200000 /\
    mapped_at (frames s') 4096 0x202000 = Some 0x80000000FD002807 /\ mapped_at (frames s') 4096 0x203000 = None) sample_vmm.
Proof.
  eapply wp_mono; [apply (vmm_map_shared 2 5 4096 0x200000 3 0xFD000000 12288 PG_USER_RW sample_vmm)|].
  - lia.
  - exact sample_buffer.
  - done.
  - done.
  - done.
  - done.
  - intros r s' (->&_&Hm). split; [done|]. rewrite (Hm 0x202000), (Hm 0x203000) by done. split; [done|].
    rewrite decide_False by (by intros [_ ?]). vm_compute. done.
Defined.

End VmmFacts.
