(* ===== verification/Sched.v ===== *)
(** The task scheduler, src/core/sched.c: the priority queues, the queue of
    blocked tasks and the alarm queue of each CPU, and the choice of the next
    task.  Task control blocks are pages named by their pid; the kernel reaches
    them through the windows LDYN_tmpmap1 and LDYN_tcbalarm, which the model
    keeps as pointers, since remapping a window changes what they point to. *)
From Stdlib Require Import ZArith Lia List.
From stdpp Require Import base option list gmap.
From S2P Require Import Prelude CoreState.

Module Sched.

(** The CPU control block [ccb_t] of src/core/x86_64/ccb.h, without the
    architecture's own fields. *)
Record ccb_t : Type := mk_ccb {
  id : Z;
  hasactivetask : bool;
  current : Z; (* pid *)
  ccb_flags : Z; (* the field [flags] *)
  hd_timerq : Z; (* pid, 0 for an empty queue *)
  hd_blocked : Z;
  hd_active : list Z; (* 8 heads *)
  cr_active : list Z; (* 8 cursors *)
  sched_ticks : Z;
  sched_delta : Z;
}.
#[export] Instance eta_ccb_t : Eta ccb_t :=
  fun s => mk_ccb (id s) (hasactivetask s) (current s) (ccb_flags s) (hd_timerq s) (hd_blocked s) (hd_active s) (cr_active s) (sched_ticks s) (sched_delta s).
Definition set_id (v : Z) (s : ccb_t) : ccb_t := s <| id := v |>.
Definition set_hasactivetask (v : bool) (s : ccb_t) : ccb_t := s <| hasactivetask := v |>.
Definition set_current (v : Z) (s : ccb_t) : ccb_t := s <| current := v |>.
Definition set_ccb_flags (v : Z) (s : ccb_t) : ccb_t := s <| ccb_flags := v |>.
Definition set_hd_timerq (v : Z) (s : ccb_t) : ccb_t := s <| hd_timerq := v |>.
Definition set_hd_blocked (v : Z) (s : ccb_t) : ccb_t := s <| hd_blocked := v |>.
Definition set_hd_active (v : list Z) (s : ccb_t) : ccb_t := s <| hd_active := v |>.
Definition set_cr_active (v : list Z) (s : ccb_t) : ccb_t := s <| cr_active := v |>.
Definition set_sched_ticks (v : Z) (s : ccb_t) : ccb_t := s <| sched_ticks := v |>.
Definition set_sched_delta (v : Z) (s : ccb_t) : ccb_t := s <| sched_delta := v |>.

(** Calls into the platform layer. *)
Inductive sched_event : Type :=
| EvAwakecpu (id : Z)   (* platform_awakecpu *)
| EvSwitch (root : Z)   (* vmm_switch *)
| EvNextsched (usec : Z) (* intr_nextsched *)
| EvIntrEnable          (* intr_enable(sched_irq) *)
| EvIntrDisable.        (* intr_disable(sched_irq) *)

(** The state the scheduler works on, as one CPU sees it. *)
Record sched_state : Type := mk_sched {
  tasks : gmap Z tcb_t; (* the pages with a tcb, by pid *)
  idle_tcb : tcb_t;
  ccbs : list ccb_t; (* the pages at CCBS_ADDRESS *)
  numcores : Z;
  cpu : Z; (* whose ccb is mapped at LDYN_ccb *)
  tmpmap1 : Z; (* pid mapped at LDYN_tmpmap1 *)
  tcbalarm : Z; (* pid mapped at LDYN_tcbalarm *)
  clock_ticks : Z;
  runlevel : Z;
  quantum : Z;
  serrno : Z;
  slog : list sched_event;
}.
#[export] Instance eta_sched_state : Eta sched_state :=
  fun s => mk_sched (tasks s) (idle_tcb s) (ccbs s) (numcores s) (cpu s) (tmpmap1 s) (tcbalarm s) (clock_ticks s) (runlevel s) (quantum s) (serrno s) (slog s).
Definition set_tasks (v : gmap Z tcb_t) (s : sched_state) : sched_state := s <| tasks := v |>.
Definition set_idle_tcb (v : tcb_t) (s : sched_state) : sched_state := s <| idle_tcb := v |>.
Definition set_ccbs (v : list ccb_t) (s : sched_state) : sched_state := s <| ccbs := v |>.
Definition set_numcores (v : Z) (s : sched_state) : sched_state := s <| numcores := v |>.
Definition set_cpu (v : Z) (s : sched_state) : sched_state := s <| cpu := v |>.
Definition set_tmpmap1 (v : Z) (s : sched_state) : sched_state := s <| tmpmap1 := v |>.
Definition set_tcbalarm (v : Z) (s : sched_state) : sched_state := s <| tcbalarm := v |>.
Definition set_clock_ticks (v : Z) (s : sched_state) : sched_state := s <| clock_ticks := v |>.
Definition set_runlevel (v : Z) (s : sched_state) : sched_state := s <| runlevel := v |>.
Definition set_quantum (v : Z) (s : sched_state) : sched_state := s <| quantum := v |>.
Definition set_serrno (v : Z) (s : sched_state) : sched_state := s <| serrno := v |>.
Definition set_slog (v : list sched_event) (s : sched_state) : sched_state := s <| slog := v |>.

(** A [tcb_t*]: a page mapped for good, one of the two windows, or [&idle_tcb]. *)
Inductive tptr : Type := Task (p : Z) | Tmpmap1 | Tcbalarm | Idle.

Definition pid_at (s : sched_state) (t : tptr) : Z :=
  match t with
  | Task p => p
  | Tmpmap1 => tmpmap1 s
  | Tcbalarm => tcbalarm s
  | Idle => 0
  end.

(** Reading and writing through a [tcb_t] pointer. *)
Definition tload (t : tptr) : M sched_state tcb_t :=
  s <-- get ;;
  match t with Idle => ret (idle_tcb s) | _ => need (tasks s !! pid_at s t) end.
Definition tmod (t : tptr) (f : tcb_t -> tcb_t) : M sched_state unit :=
  s <-- get ;;
  match t with
  | Idle => put (set_idle_tcb (f (idle_tcb s)) s)
  | _ => x <-- need (tasks s !! pid_at s t) ;; put (set_tasks (<[pid_at s t := f x]> (tasks s)) s)
  end.

(** [vmm_page(0, window, pid << __PAGEBITS, ...)] *)
Definition map_tmpmap1 (p : Z) : M sched_state unit := modify (set_tmpmap1 p).
Definition map_tcbalarm (p : Z) : M sched_state unit := modify (set_tcbalarm p).

Definition ccb_get (c : Z) : M sched_state ccb_t := s <-- get ;; need (zget (ccbs s) c).
Definition ccb_mod (c : Z) (f : ccb_t -> ccb_t) : M sched_state unit :=
  s <-- get ;; x <-- need (zget (ccbs s) c) ;; put (set_ccbs (zset (ccbs s) c (f x)) s).

Definition emit (e : sched_event) : M sched_state unit :=
  modify (fun s => set_slog (slog s ++ [e]) s).

(** [tcb->magic != OSZ_TCB_MAGICH || tcb->priority > PRI_IDLE || tcb->cpuid >= numcores] *)
Definition bad_tcb (n : Z) (t : tcb_t) : bool :=
  negb (magic t =? OSZ_TCB_MAGICH) || (PRI_IDLE <? priority t) || (n <=? cpuid t).

Definition sched_add (tcb : tptr) : M sched_state unit :=
  t <-- tload tcb ;; n <-- gets numcores ;;
  if bad_tcb n t then modify (set_serrno EINVAL) else
  let c := cpuid t in
  ccb <-- ccb_get c ;;
  h <-- need (zget (hd_active ccb) (priority t)) ;;
  tmod tcb (fun t => set_next h (set_prev 0 (set_tstate TCB_STATE_RUNNING t))) ;;;
  ccb_mod c (fun x => set_hd_active (zset (hd_active x) (priority t) (pid t)) x) ;;;
  when (negb (h =? 0)) (map_tmpmap1 h ;;; tmod Tmpmap1 (set_prev (pid t))).

(** Taking the task out of the list it is linked into. *)
Definition unlink (tcb : tptr) : M sched_state unit :=
  t <-- tload tcb ;;
  when (negb (prev t =? 0))
    (map_tmpmap1 (prev t) ;;; t' <-- tload tcb ;; tmod Tmpmap1 (set_next (next t'))) ;;;
  t <-- tload tcb ;;
  when (negb (next t =? 0))
    (map_tmpmap1 (next t) ;;; t' <-- tload tcb ;; tmod Tmpmap1 (set_prev (prev t'))).

(** [if(ccb->hd_timerq) vmm_page(0, LDYN_tcbalarm, ...)] *)
Definition map_alarm (p : Z) : M sched_state unit := when (negb (p =? 0)) (map_tcbalarm p).

Definition sched_remove (tcb : tptr) : M sched_state unit :=
  t <-- tload tcb ;; n <-- gets numcores ;;
  if bad_tcb n t then ret tt else
  let c := cpuid t in let pr := priority t in
  ccb <-- ccb_get c ;;
  h <-- need (zget (hd_active ccb) pr) ;;
  when (h =? pid t) (ccb_mod c (fun x => set_hd_active (zset (hd_active x) pr (next t)) x)) ;;;
  r <-- need (zget (cr_active ccb) pr) ;;
  when (r =? pid t) (ccb_mod c (fun x => set_cr_active (zset (cr_active x) pr (next t)) x)) ;;;
  when (hd_blocked ccb =? pid t) (ccb_mod c (set_hd_blocked (next t))) ;;;
  when (hd_timerq ccb =? pid t) (ccb_mod c (set_hd_timerq (next t)) ;;; map_alarm (next t)) ;;;
  unlink tcb ;;;
  tmod tcb (fun t => set_prev 0 (set_next 0 t)).

Definition sched_awake (tcb : tptr) : M sched_state unit :=
  t <-- tload tcb ;; n <-- gets numcores ;;
  if bad_tcb n t then ret tt else
  let c := cpuid t in
  when (negb (tstate t =? TCB_STATE_RUNNING))
   (now <-- gets clock_ticks ;;
    tmod tcb (fun t =>
      let t := if tstate t =? TCB_STATE_HYBERND then set_tstate TCB_STATE_BLOCKED t else t in
      set_blktime 0 (set_blkcnt (u64 (blkcnt t + u64 (now - blktime t))) t)) ;;;
    ccb <-- ccb_get c ;;
    when (hd_blocked ccb =? pid t) (ccb_mod c (set_hd_blocked (next t))) ;;;
    when (hd_timerq ccb =? pid t)
      (tmod tcb (set_alarmusec 0) ;;;
       ccb_mod c (set_hd_timerq (next t)) ;;; map_alarm (next t)) ;;;
    unlink tcb ;;;
    sched_add tcb ;;;
    me <-- gets cpu ;; mine <-- ccb_get me ;; ccb <-- ccb_get c ;; idle <-- gets idle_tcb ;;
    when (negb (id ccb =? id mine) && (current ccb =? pid idle)) (emit (EvAwakecpu (id ccb)))) ;;;
  t <-- tload tcb ;;
  ccb <-- ccb_get c ;;
  need (zget (cr_active ccb) (priority t)) ;;;
  ccb_mod c (fun x => set_hasactivetask true (set_cr_active (zset (cr_active x) (priority t) (pid t)) x)).

(** Putting the task in front of the queue of blocked tasks of CPU [c]. *)
Definition push_blocked (tcb : tptr) (c : Z) : M sched_state unit :=
  ccb <-- ccb_get c ;;
  tmod tcb (fun t => set_prev 0 (set_next (hd_blocked ccb) t)) ;;;
  when (negb (hd_blocked ccb =? 0))
    (map_tmpmap1 (hd_blocked ccb) ;;; t <-- tload tcb ;; tmod Tmpmap1 (set_prev (pid t))) ;;;
  t <-- tload tcb ;;
  ccb_mod c (set_hd_blocked (pid t)).

Definition sched_block (tcb : tptr) : M sched_state unit :=
  t <-- tload tcb ;; n <-- gets numcores ;;
  if bad_tcb n t || negb (tstate t =? TCB_STATE_RUNNING) then ret tt else
  now <-- gets clock_ticks ;;
  tmod tcb (fun t => set_blktime now (set_tstate TCB_STATE_BLOCKED t)) ;;;
  sched_remove tcb ;;;
  push_blocked tcb (cpuid t).

Definition sched_hybernate (tcb : tptr) : M sched_state unit :=
  t <-- tload tcb ;; n <-- gets numcores ;;
  if bad_tcb n t || negb (tstate t =? TCB_STATE_BLOCKED) then ret tt else
  tmod tcb (set_tstate TCB_STATE_HYBERND).

(** One round of the search for the place in the alarm queue: [(next, prev)]. *)
Definition delay_round (tcb : tptr) (np : Z * Z) : M sched_state (Z * Z + Z * Z) :=
  let (nx, pv) := np in
  if nx =? 0 then ret (inr (nx, pv)) else
  map_tmpmap1 nx ;;;
  t <-- tload tcb ;; a <-- tload Tmpmap1 ;;
  if alarmusec t <? alarmusec a then ret (inr (nx, pv)) else ret (inl (next a, nx)).

(** [fuel] bounds the length of the alarm queue. *)
Definition sched_delay (fuel : nat) (tcb : tptr) (usec : Z) : M sched_state unit :=
  t <-- tload tcb ;; n <-- gets numcores ;;
  if bad_tcb n t || negb (tstate t =? TCB_STATE_RUNNING) then ret tt else
  let c := cpuid t in
  tmod tcb (set_tstate TCB_STATE_BLOCKED) ;;;
  sched_remove tcb ;;;
  ccb <-- ccb_get c ;;
  when (hd_timerq ccb =? 0) (ccb_mod c (set_sched_ticks 0)) ;;;
  ccb <-- ccb_get c ;;
  tmod tcb (set_alarmusec (u64 (sched_ticks ccb + usec))) ;;;
  do2 nx pv <-- iter fuel (delay_round tcb) (hd_timerq ccb, 0) ;;
  tmod tcb (set_next nx) ;;;
  if negb (pv =? 0) then
    map_tmpmap1 pv ;;; t <-- tload tcb ;; tmod Tmpmap1 (set_next (pid t))
  else
    t <-- tload tcb ;; map_tcbalarm (pid t) ;;; ccb_mod c (set_hd_timerq (pid t)).

Definition sched_migrate (fuel : nat) (tcb : tptr) (newcpu : Z) : M sched_state unit :=
  t <-- tload tcb ;; n <-- gets numcores ;;
  if bad_tcb n t || (n <=? newcpu) then ret tt else
  ccb <-- ccb_get (cpuid t) ;;
  let usec := sched_ticks ccb in
  sched_remove tcb ;;;
  tmod tcb (set_cpuid newcpu) ;;;
  t <-- tload tcb ;;
  if tstate t =? TCB_STATE_HYBERND then ret tt
  else if tstate t =? TCB_STATE_BLOCKED then
    if negb (alarmusec t =? 0) then
      tmod tcb (set_tstate TCB_STATE_RUNNING) ;;;
      sched_delay fuel tcb (u64 (alarmusec t - usec))
    else push_blocked tcb (cpuid t)
  else sched_add tcb.

(** ** Choosing the next task *)

(** The inner loop over the priorities [lv] ([PRI_SYS] up to [PRI_IDLE]-1): [inr i] is
    [goto found] at level [i], [inl] the final value of [nonempty]. *)
Fixpoint pick_levels (lv : list Z) (nonempty : bool) : M sched_state (bool + Z) :=
  match lv with
  | [] => ret (inl nonempty)
  | i :: lv' =>
      c <-- gets cpu ;;
      ccb <-- ccb_get c ;;
      alarm <-- (if hd_timerq ccb =? 0 then ret false else
                   a <-- tload Tcbalarm ;;
                   ret ((i =? priority a) && (alarmusec a <=? sched_ticks ccb))) ;;
      if (alarm : bool) then sched_awake Tcbalarm ;;; ret (inr i) else
      h <-- need (zget (hd_active ccb) i) ;;
      if h =? 0 then pick_levels lv' nonempty else
      r <-- need (zget (cr_active ccb) i) ;;
      if negb (r =? 0) then ret (inr i) else
      ccb_mod c (fun x => set_cr_active (zset (cr_active x) i h) x) ;;;
      pick_levels lv' true
  end.

Definition levels : list Z := [0; 1; 2; 3; 4; 5; 6].

(** [do { ... } while(nonempty)]: [Some i] lv a level found. *)
Definition pick_loop (u : unit) : M sched_state (unit + option Z) :=
  r <-- pick_levels levels false ;;
  match r with
  | inr i => ret (inr (Some i))
  | inl true => ret (inl tt)
  | inl false => ret (inr None)
  end.

(** [found:] take the task at the cursor and move the cursor on. *)
Definition pick_found (i : Z) : M sched_state tptr :=
  c <-- gets cpu ;;
  ccb <-- ccb_get c ;;
  r <-- need (zget (cr_active ccb) i) ;;
  map_tmpmap1 r ;;;
  t <-- tload Tmpmap1 ;;
  ccb_mod c (fun x => set_cr_active (zset (cr_active x) i (next t)) x) ;;;
  ret Tmpmap1.

(** Switching to the task and programming the next interrupt. *)
Definition pick_switch (tcb : tptr) : M sched_state unit :=
  c <-- gets cpu ;;
  ccb <-- ccb_get c ;;
  t <-- tload tcb ;;
  when (negb (current ccb =? pid t))
   (emit (EvSwitch (memroot t)) ;;;
    ccb_mod c (fun x => set_ccb_flags 1 (set_current (pid t) x)) ;;;
    lvl <-- gets runlevel ;;
    when (lvl =? RUNLVL_NORM)
     (ccb_mod c (set_sched_delta 0) ;;;
      ccb <-- ccb_get c ;;
      when (negb (hd_timerq ccb =? 0))
       (a <-- (if PRI_DRV <? priority t then ret true else
                 a <-- tload Tcbalarm ;; ret (priority a <=? priority t)) ;;
        when a (a <-- tload Tcbalarm ;;
                ccb_mod c (set_sched_delta (u64 (alarmusec a - sched_ticks ccb))))) ;;;
      ccb <-- ccb_get c ;;
      q <-- gets quantum ;;
      when ((PRI_DRV <? priority t) && (match tcb with Idle => false | _ => true end) &&
            ((sched_delta ccb =? 0) || (q <? sched_delta ccb)))
        (ccb_mod c (set_sched_delta q)) ;;;
      ccb <-- ccb_get c ;;
      if negb (sched_delta ccb =? 0)
      then emit (EvNextsched (sched_delta ccb)) ;;; emit EvIntrEnable
      else emit EvIntrDisable)).

(** All queues are empty, and the drivers, when they have just been started, are done:
    the FS task on the first CPU, else the idle task. *)
Definition pick_started (coop : bool) : M sched_state tptr :=
  c <-- gets cpu ;;
  ccb <-- ccb_get c ;;
  if coop && (id ccb =? 0) then pick_found PRI_SRV else
  ccb_mod c (set_hasactivetask false) ;;; ret Idle.

Section Pick.
(** [drivers_ready] of src/core/drivers.c, see [Drivers]. *)
Context (drivers_ready : M sched_state unit).

(** The queues above [PRI_IDLE] are empty. *)
Definition pick_idle : M sched_state tptr :=
  c <-- gets cpu ;;
  ccb <-- ccb_get c ;;
  r <-- need (zget (cr_active ccb) PRI_IDLE) ;;
  h <-- need (zget (hd_active ccb) PRI_IDLE) ;;
  when (r =? 0) (ccb_mod c (fun x => set_cr_active (zset (cr_active x) PRI_IDLE h) x)) ;;;
  if h =? 0 then
    lvl <-- gets runlevel ;;
    when (lvl =? RUNLVL_COOP) drivers_ready ;;;
    pick_started (lvl =? RUNLVL_COOP)
  else pick_found PRI_IDLE.

(** Two rounds over the levels are enough. *)
Definition sched_pick : M sched_state unit :=
  r <-- iter 3 pick_loop tt ;;
  tcb <-- match r with Some i => pick_found i | None => pick_idle end ;;
  pick_switch tcb.

(** [remainder] is [intr_nextschedremainder()] of the platform. *)
Definition sched_intr (remainder : bool) : M sched_state unit :=
  if remainder then ret tt else
  c <-- gets cpu ;;
  ccb_mod c (fun x => set_sched_ticks (u64 (sched_ticks x + sched_delta x)) x) ;;;
  sched_pick.

End Pick.
End Sched.
