(* ===== verification/SchedFacts.v ===== *)
(** Correctness of the scheduler of Sched.v: the doubly linked queues of a CPU as
    lists of pids, the effect of adding, blocking and waking tasks on them, and
    the choice [sched_pick] makes. *)
From Stdlib Require Import ZArith Lia List.
From stdpp Require Import base option list gmap.
From S2P Require Import Prelude CoreState Sched.
Import Sched.

(** ** Doubly linked lists of tasks *)

(** The first pid of [l], or [nx]; the last one, or [pv]. *)
Definition head_or (nx : Z) (l : list Z) : Z := match l with [] => nx | p :: _ => p end.
Definition last_or (pv : Z) (l : list Z) : Z := List.last l pv.
#[global] Arguments last_or : simpl never.

(** A predicate on tasks that does not look at the links. *)
Class LinkFree (P : tcb_t -> Prop) : Prop := {
  lf_next : forall v t, P t -> P (set_next v t);
  lf_prev : forall v t, P t -> P (set_prev v t);
}.

(** The tasks [l] are linked in this order, coming from [pv] and leading to [nx],
    and all satisfy [P]. *)
Fixpoint dseg (P : tcb_t -> Prop) (m : gmap Z tcb_t) (pv : Z) (l : list Z) (nx : Z) : Prop :=
  match l with
  | [] => True
  | p :: l' =>
      p <> 0 /\
      (exists t, m !! p = Some t /\ pid t = p /\ P t /\ prev t = pv /\ next t = head_or nx l') /\
      dseg P m p l' nx
  end.

Section Segments.
Context (P : tcb_t -> Prop) {HP : LinkFree P}.
Implicit Types (m : gmap Z tcb_t) (l : list Z).

Lemma last_or_cons pv p l : last_or pv (p :: l) = last_or p l.
Proof.
  revert pv p. induction l as [|q l IH]; intros pv p; [done|].
  change (last_or pv (p :: q :: l)) with (last_or pv (q :: l)). by rewrite !IH.
Qed.

Lemma dseg_app m pv l1 l2 nx :
  dseg P m pv (l1 ++ l2) nx <-> dseg P m pv l1 (head_or nx l2) /\ dseg P m (last_or pv l1) l2 nx.
Proof.
  revert pv. induction l1 as [|p l1 IH]; intros pv; simpl; [tauto|].
  rewrite IH, last_or_cons.
  assert (head_or nx (l1 ++ l2) = head_or (head_or nx l2) l1) as -> by (by destruct l1).
  tauto.
Qed.

Lemma dseg_frame m m' pv l nx :
  (forall q, q ∈ l -> m' !! q = m !! q) -> dseg P m pv l nx -> dseg P m' pv l nx.
Proof.
  revert pv. induction l as [|p l IH]; intros pv Hm; simpl; [done|].
  intros (?&(t&Ht&?)&?). split; [done|]. split.
  - exists t. rewrite Hm by constructor. done.
  - apply IH; [|done]. intros q Hq. apply Hm. by constructor.
Qed.

Lemma dseg_nonzero m pv l nx p : dseg P m pv l nx -> p ∈ l -> p <> 0.
Proof.
  revert pv. induction l as [|q l IH]; intros pv; simpl; [by intros _ ?%not_elem_of_nil|].
  intros (?&_&Hl) [->|Hp]%elem_of_cons; [done|by eapply IH].
Qed.

Lemma dseg_lookup m pv l nx p :
  dseg P m pv l nx -> p ∈ l -> exists t, m !! p = Some t /\ pid t = p /\ P t.
Proof.
  revert pv. induction l as [|q l IH]; intros pv; simpl; [by intros _ ?%not_elem_of_nil|].
  intros (_&(t&?&?&?&_)&Hl) [->|Hp]%elem_of_cons; [eauto|by eapply IH].
Qed.

(** Redirecting the last task of a segment. *)
Lemma dseg_set_next m pv l q nx nx' :
  q ∉ l -> dseg P m pv (l ++ [q]) nx -> dseg P (alter (set_next nx') q m) pv (l ++ [q]) nx'.
Proof.
  intros Hq. rewrite !dseg_app. simpl. intros (Hl&Hq0&(t&Ht&Hpid&HPt&Hpv&Hn)&_). split.
  - eapply dseg_frame; [|done]. intros r Hr. apply lookup_alter_ne. by intros ->.
  - split; [done|]. split; [|done]. exists (set_next nx' t). rewrite lookup_alter_eq, Ht.
    split_and!; try done. by apply lf_next.
Qed.

(** Redirecting the first task of a segment. *)
Lemma dseg_set_prev m pv pv' q l nx :
  q ∉ l -> dseg P m pv (q :: l) nx -> dseg P (alter (set_prev pv') q m) pv' (q :: l) nx.
Proof.
  intros Hq (Hq0&(t&Ht&Hpid&HPt&Hpv&Hn)&Hl). split_and!; [done| |].
  - exists (set_prev pv' t). rewrite lookup_alter_eq, Ht. split_and!; try done. by apply lf_prev.
  - eapply dseg_frame; [|done]. intros r Hr. apply lookup_alter_ne. by intros ->.
Qed.

End Segments.

(** What [unlink] does to the tasks around [t]. *)
Definition unlink_map (t : tcb_t) (m : gmap Z tcb_t) : gmap Z tcb_t :=
  let m1 := if prev t =? 0 then m else alter (set_next (next t)) (prev t) m in
  if next t =? 0 then m1 else alter (set_prev (prev t)) (next t) m1.

Section Unlink.
Context (P : tcb_t -> Prop) {HP : LinkFree P}.

(** Unlinking a task from a queue leaves the queue of the others.  The task
    itself may have been updated since it was in the queue of [m0]. *)
Lemma unlink_queue m0 m l1 p l2 t0 t :
  NoDup (l1 ++ p :: l2) -> dseg P m0 0 (l1 ++ p :: l2) 0 -> m0 !! p = Some t0 ->
  (forall q, q <> p -> m !! q = m0 !! q) -> prev t = prev t0 -> next t = next t0 ->
  dseg P (unlink_map t m) 0 (l1 ++ l2) 0 /\
  (forall q, q ∉ l1 ++ l2 -> unlink_map t m !! q = m !! q) /\
  prev t = last_or 0 l1 /\ next t = head_or 0 l2.
Proof.
  intros Hnd Hd Ht Hm Hep Hen. pose proof Hd as Hd0.
  apply dseg_app in Hd as (H1&_&(t'&Ht'&_&_&Hpv&Hnx)&H2). rewrite Ht in Ht'. injection Ht' as <-.
  rewrite <- Hep in Hpv. rewrite <- Hen in Hnx.
  apply NoDup_app in Hnd as (Hn1&Hdis&Hn2). apply NoDup_cons in Hn2 as (Hp2&Hn2).
  apply (dseg_frame P m0 m) in H1; [|intros q Hq; apply Hm; intros ->; apply (Hdis p); set_solver].
  apply (dseg_frame P m0 m) in H2; [|intros q Hq; apply Hm; by intros ->].
  assert (Hnz : forall q, q ∈ l1 ++ p :: l2 -> q <> 0) by (intros q; by eapply dseg_nonzero).
  set (m1 := if prev t =? 0 then m else alter (set_next (next t)) (prev t) m).
  assert (Hm1 : dseg P m1 0 l1 (next t) /\ dseg P m1 p l2 0 /\
                (forall q, q ∉ l1 -> m1 !! q = m !! q)).
  { unfold m1. rewrite Hpv. destruct l1 as [|q l1 _] using rev_ind; [done|].
    assert (Hlast : last_or 0 (l1 ++ [q]) = q) by (unfold last_or; apply last_last).
    rewrite Hlast. replace (q =? 0) with false
      by (symmetry; apply Z.eqb_neq, Hnz; rewrite !elem_of_app; set_solver).
    apply NoDup_app in Hn1 as (_&Hq&_). split; [|split].
    - eapply dseg_set_next; [done|set_solver|done].
    - eapply dseg_frame; [|done]. intros r Hr. apply lookup_alter_ne.
      intros ->. apply (Hdis r); set_solver.
    - intros r Hr. apply lookup_alter_ne. set_solver. }
  destruct Hm1 as (Ha&Hb&Hc).
  assert (Hm2 : dseg P (unlink_map t m) 0 l1 (next t) /\ dseg P (unlink_map t m) (prev t) l2 0 /\
                (forall q, q ∉ l2 -> unlink_map t m !! q = m1 !! q)).
  { unfold unlink_map. fold m1. rewrite Hnx in *. destruct l2 as [|q l2]; [done|]. cbn [head_or].
    replace (q =? 0) with false by (symmetry; apply Z.eqb_neq, Hnz; set_solver).
    apply NoDup_cons in Hn2 as [Hq _]. split; [|split].
    - eapply dseg_frame; [|done]. intros r Hr. apply lookup_alter_ne.
      intros ->. apply (Hdis r); set_solver.
    - by eapply dseg_set_prev.
    - intros r Hr. apply lookup_alter_ne. set_solver. }
  destruct Hm2 as (Hd1&Hd2&He). split_and!; try done.
  - apply dseg_app. rewrite <- Hpv, <- Hnx. done.
  - intros q Hq. rewrite He, Hc; set_solver.
Qed.

(** Pushing a task in front of a queue. *)
Lemma push_queue m l p t :
  NoDup (p :: l) -> p <> 0 -> dseg P m 0 l 0 -> m !! p = Some t -> pid t = p -> P t ->
  prev t = 0 -> next t = head_or 0 l ->
  dseg P (if head_or 0 l =? 0 then m else alter (set_prev p) (head_or 0 l) m) 0 (p :: l) 0.
Proof.
  intros [Hp Hnd]%NoDup_cons Hp0 Hl Ht Hpid HPt Hpv Hnx. destruct l as [|q l]; simpl in *.
  - split_and!; [done|by exists t|done].
  - apply NoDup_cons in Hnd as [Hq _]. replace (q =? 0) with false by (symmetry; by apply Z.eqb_neq, Hl).
    split; [done|]. split.
    + exists t. rewrite lookup_alter_ne by set_solver. done.
    + apply (dseg_set_prev P m 0 p q l 0); done.
Qed.

End Unlink.

(** ** Steps of the operations *)

(** [s'] has the tasks [m] and the CPU blocks [cs]; the window LDYN_tmpmap1 and the
    calls to the platform aside, the rest is as in [s]. *)
Record after (s : sched_state) (m : gmap Z tcb_t) (cs : list ccb_t) (s' : sched_state) : Prop :=
  mk_after {
    af_tasks : tasks s' = m;
    af_ccbs : ccbs s' = cs;
    af_numcores : numcores s' = numcores s;
    af_cpu : cpu s' = cpu s;
    af_clock : clock_ticks s' = clock_ticks s;
    af_idle : idle_tcb s' = idle_tcb s;
    af_runlevel : runlevel s' = runlevel s;
    af_quantum : quantum s' = quantum s;
    af_errno : serrno s' = serrno s;
    af_alarm : tcbalarm s' = tcbalarm s;
  }.

Lemma after_refl s : after s (tasks s) (ccbs s) s.
Proof. by split. Qed.

Lemma after_trans s m1 cs1 s1 m2 cs2 s2 :
  after s m1 cs1 s1 -> after s1 m2 cs2 s2 -> after s m2 cs2 s2.
Proof. intros [] []. split; congruence. Qed.

(** The neighbours of a task are other tasks. *)
Definition neighbours_ok (m : gmap Z tcb_t) (p : Z) (t : tcb_t) : Prop :=
  (prev t <> 0 -> prev t <> p /\ is_Some (m !! prev t)) /\
  (next t <> 0 -> next t <> p /\ is_Some (m !! next t)).

Lemma unlink_map_dom t m q : is_Some (m !! q) -> is_Some (unlink_map t m !! q).
Proof.
  assert (Ha : forall f p (m0 : gmap Z tcb_t), is_Some (m0 !! q) -> is_Some (alter f p m0 !! q)).
  { intros f p m0 Hq. destruct (decide (p = q)) as [->|].
    - rewrite lookup_alter_eq. by apply fmap_is_Some.
    - by rewrite lookup_alter_ne. }
  intros Hq. unfold unlink_map. repeat case_match; auto.
Qed.

Lemma dseg_split P m l1 p l2 :
  NoDup (l1 ++ p :: l2) -> dseg P m 0 (l1 ++ p :: l2) 0 ->
  exists t, m !! p = Some t /\ pid t = p /\ P t /\
    prev t = last_or 0 l1 /\ next t = head_or 0 l2 /\ neighbours_ok m p t.
Proof.
  intros Hnd Hd.
  assert (Hin : forall q, q ∈ l1 ++ p :: l2 -> is_Some (m !! q)).
  { intros q Hq. destruct (dseg_lookup _ _ _ _ _ _ Hd Hq) as (u&->&_). done. }
  apply dseg_app in Hd as (_&_&(t&Ht&Hpid&Hr&Hpv&Hnx)&_). exists t. split_and!; try done.
  apply NoDup_app in Hnd as (_&Hd1&[Hp _]%NoDup_cons). split; intros Hz.
  - rewrite Hpv in *. destruct l1 as [|q l1 _] using rev_ind; [done|].
    unfold last_or in *. rewrite last_last in *. split; [|apply Hin; set_solver].
    intros ->. apply (Hd1 p); set_solver.
  - rewrite Hnx in *. destruct l2 as [|q l2]; [done|]. simpl in *.
    split; [set_solver|apply Hin; set_solver].
Qed.

Section Steps.
Implicit Types s : sched_state.

Lemma wp_tload p t (Q : tcb_t -> sched_state -> Prop) s :
  tasks s !! p = Some t -> Q t s -> wp (tload (Task p)) Q s.
Proof. unfold wp, tload, bind, get, pid_at, need. by intros ->. Qed.

Lemma wp_tmod p t f (Q : unit -> sched_state -> Prop) s :
  tasks s !! p = Some t ->
  (forall s', after s (<[p := f t]> (tasks s)) (ccbs s) s' -> Q tt s') ->
  wp (tmod (Task p) f) Q s.
Proof.
  unfold wp, tmod, bind, get, pid_at, need. intros -> HQ. apply HQ. by split.
Qed.

Lemma wp_map_tmod q u f (Q : unit -> sched_state -> Prop) s :
  tasks s !! q = Some u ->
  (forall s', after s (<[q := f u]> (tasks s)) (ccbs s) s' -> Q tt s') ->
  wp (map_tmpmap1 q ;;; tmod Tmpmap1 f) Q s.
Proof.
  unfold wp, map_tmpmap1, tmod, bind, get, modify, pid_at, need. simpl. intros -> HQ.
  apply HQ. by split.
Qed.

(** The same with a look at the task in between. *)
Lemma wp_map_load_tmod q u p t f (Q : unit -> sched_state -> Prop) s :
  tasks s !! q = Some u -> tasks s !! p = Some t ->
  (forall s', after s (<[q := f t u]> (tasks s)) (ccbs s) s' -> Q tt s') ->
  wp (map_tmpmap1 q ;;; t' <-- tload (Task p) ;; tmod Tmpmap1 (f t')) Q s.
Proof.
  unfold wp, map_tmpmap1, tload, tmod, bind, get, modify, pid_at, need. simpl.
  intros Hq ->. simpl. rewrite Hq. simpl. intros HQ. apply HQ. by split.
Qed.

Lemma wp_ccb_get c x (Q : ccb_t -> sched_state -> Prop) s :
  zget (ccbs s) c = Some x -> Q x s -> wp (ccb_get c) Q s.
Proof. unfold wp, ccb_get, bind, get, need. by intros ->. Qed.

Lemma wp_ccb_mod c x f (Q : unit -> sched_state -> Prop) s :
  zget (ccbs s) c = Some x ->
  (forall s', after s (tasks s) (zset (ccbs s) c (f x)) s' -> Q tt s') ->
  wp (ccb_mod c f) Q s.
Proof. unfold wp, ccb_mod, bind, get, need. intros -> HQ. apply HQ. by split. Qed.

Lemma run_ccb_mod c x f s :
  zget (ccbs s) c = Some x -> ccb_mod c f s = Ret tt (set_ccbs (zset (ccbs s) c (f x)) s).
Proof. unfold ccb_mod, bind, get, need. by intros ->. Qed.

(** A conditional update of the CPU block. *)
Lemma wp_when_ccb_mod (b : bool) c x f (Q : unit -> sched_state -> Prop) s :
  zget (ccbs s) c = Some x ->
  (forall s', after s (tasks s) (zset (ccbs s) c (if b then f x else x)) s' -> Q tt s') ->
  wp (when b (ccb_mod c f)) Q s.
Proof.
  intros Hx HQ. apply wp_when; intros ->.
  - by apply (wp_ccb_mod c x).
  - apply HQ. rewrite zset_id by done. apply after_refl.
Qed.

Lemma insert_alter_some (m : gmap Z tcb_t) q u f : m !! q = Some u -> <[q := f u]> m = alter f q m.
Proof.
  intros Hu. apply map_eq. intros r. destruct (decide (r = q)) as [->|].
  - by rewrite lookup_insert_eq, lookup_alter_eq, Hu.
  - by rewrite lookup_insert_ne, lookup_alter_ne by done.
Qed.

Lemma wp_unlink p t (Q : unit -> sched_state -> Prop) s :
  tasks s !! p = Some t -> neighbours_ok (tasks s) p t ->
  (forall s', after s (unlink_map t (tasks s)) (ccbs s) s' -> Q tt s') ->
  wp (unlink (Task p)) Q s.
Proof.
  intros Ht [Hpv Hnx] HQ. unfold unlink. wp_step. eapply wp_tload; [done|]. wp_step.
  set (m1 := if prev t =? 0 then tasks s else alter (set_next (next t)) (prev t) (tasks s)).
  assert (Hk : forall s1, after s m1 (ccbs s) s1 ->
    wp (t <-- tload (Task p) ;;
        when (negb (next t =? 0))
          (map_tmpmap1 (next t) ;;; t' <-- tload (Task p) ;; tmod Tmpmap1 (set_prev (prev t')))) Q s1).
  { intros s1 Ha. pose proof (af_tasks _ _ _ _ Ha) as Hm.
    assert (Ht1 : tasks s1 !! p = Some t).
    { rewrite Hm. unfold m1. case_match; [done|]. rewrite lookup_alter_ne; [done|]. by apply Hpv; lia. }
    wp_step. eapply wp_tload; [done|]. unfold unlink_map in HQ. fold m1 in HQ.
    apply wp_when; intros Hc.
    - assert (Hu : is_Some (tasks s1 !! next t)).
      { destruct (Hnx ltac:(lia)) as [_ Hsome]. rewrite Hm. unfold m1.
        destruct (prev t =? 0); [done|].
        destruct (decide (prev t = next t)) as [->|].
        - rewrite lookup_alter_eq. by apply fmap_is_Some.
        - by rewrite lookup_alter_ne. }
      destruct Hu as [u Hu].
      eapply (wp_map_load_tmod _ u p t (fun t' => set_prev (prev t'))); [done|done|].
      intros s2 Ha2. apply HQ. rewrite (proj2 (Z.eqb_neq _ _)) by lia.
      rewrite insert_alter_some, Hm in Ha2 by done.
      eapply after_trans; [exact Ha|]. by rewrite (af_ccbs _ _ _ _ Ha) in Ha2.
    - apply HQ. by rewrite (proj2 (Z.eqb_eq _ _)) by lia. }
  apply wp_when; intros Hc.
  - destruct (Hpv ltac:(lia)) as [Hne [u Hu]].
    eapply (wp_map_load_tmod _ u p t (fun t' => set_next (next t'))); [done|done|].
    intros s1 Ha. apply Hk. unfold m1. rewrite (proj2 (Z.eqb_neq _ _)) by lia.
    by rewrite insert_alter_some in Ha by done.
  - apply Hk. unfold m1. rewrite (proj2 (Z.eqb_eq _ _)) by lia. apply after_refl.
Qed.

(** The CPU block after a task was removed from its queue. *)
Definition remove_ccb (t : tcb_t) (h r : Z) (x : ccb_t) : ccb_t :=
  let x1 := if h =? pid t
            then set_hd_active (zset (hd_active x) (priority t) (next t)) x else x in
  let x2 := if r =? pid t
            then set_cr_active (zset (cr_active x1) (priority t) (next t)) x1 else x1 in
  if hd_blocked x =? pid t then set_hd_blocked (next t) x2 else x2.

Lemma wp_sched_remove p t x h r (Q : unit -> sched_state -> Prop) s :
  tasks s !! p = Some t -> bad_tcb (numcores s) t = false ->
  zget (ccbs s) (cpuid t) = Some x ->
  zget (hd_active x) (priority t) = Some h -> zget (cr_active x) (priority t) = Some r ->
  hd_timerq x <> pid t -> neighbours_ok (tasks s) p t ->
  (forall s', after s (<[p := set_prev 0 (set_next 0 t)]> (unlink_map t (tasks s)))
                (zset (ccbs s) (cpuid t) (remove_ccb t h r x)) s' -> Q tt s') ->
  wp (sched_remove (Task p)) Q s.
Proof.
  intros Ht Hbad Hx Hh Hr Hal Hnb HQ. unfold sched_remove.
  wp_step. eapply wp_tload; [done|]. wp_step. apply wp_gets. rewrite Hbad. cbn zeta.
  pose proof (zget_Some_lt _ _ _ Hx) as Hc.
  wp_step. eapply wp_ccb_get; [done|]. wp_step. eapply wp_need; [done|].
  wp_step. eapply wp_when_ccb_mod; [done|]. intros s1 H1. cbv beta.
  wp_step. eapply wp_need; [done|].
  wp_step. eapply wp_when_ccb_mod; [rewrite (af_ccbs _ _ _ _ H1); by apply zget_zset_eq|].
  intros s2 H2. rewrite (af_ccbs _ _ _ _ H1), (af_tasks _ _ _ _ H1), zset_zset in H2.
  wp_step. eapply wp_when_ccb_mod; [rewrite (af_ccbs _ _ _ _ H2); by apply zget_zset_eq|].
  intros s3 H3. rewrite (af_ccbs _ _ _ _ H2), (af_tasks _ _ _ _ H2), zset_zset in H3.
  wp_step. apply wp_when; intros Ha; [lia|].
  pose proof (after_trans _ _ _ _ _ _ _ H1 (after_trans _ _ _ _ _ _ _ H2 H3)) as H123.
  wp_step. apply (wp_unlink p t); rewrite ?(af_tasks _ _ _ _ H3); [done|done|].
  intros s4 H4. rewrite (af_ccbs _ _ _ _ H3) in H4.
  assert (Hp4 : tasks s4 !! p = Some t).
  { rewrite (af_tasks _ _ _ _ H4). unfold unlink_map. destruct Hnb as [Hpv Hnx].
    assert (Hm1 : (if prev t =? 0 then tasks s else alter (set_next (next t)) (prev t) (tasks s)) !! p = Some t).
    { destruct (Z.eqb_spec (prev t) 0); [done|]. rewrite lookup_alter_ne by (by apply Hpv). done. }
    destruct (Z.eqb_spec (next t) 0); [done|]. rewrite lookup_alter_ne by (by apply Hnx). done. }
  apply (wp_tmod p t _ _ _ Hp4). intros s5 H5. apply HQ.
  rewrite (af_tasks _ _ _ _ H4), (af_ccbs _ _ _ _ H4) in H5.
  exact (after_trans _ _ _ _ _ _ _ H123 (after_trans _ _ _ _ _ _ _ H4 H5)).
Qed.

(** The tasks after [p] was put in front of a queue headed by [h]. *)
Definition push_map (p h : Z) (t : tcb_t) (m : gmap Z tcb_t) : gmap Z tcb_t :=
  let m1 := <[p := t]> m in if h =? 0 then m1 else alter (set_prev p) h m1.

Lemma wp_push_blocked p t x (Q : unit -> sched_state -> Prop) s c :
  tasks s !! p = Some t -> pid t = p -> zget (ccbs s) c = Some x ->
  (hd_blocked x <> 0 -> hd_blocked x <> p /\ is_Some (tasks s !! hd_blocked x)) ->
  (forall s', after s (push_map p (hd_blocked x) (set_prev 0 (set_next (hd_blocked x) t)) (tasks s))
                (zset (ccbs s) c (set_hd_blocked p x)) s' -> Q tt s') ->
  wp (push_blocked (Task p) c) Q s.
Proof.
  intros Ht Hpid Hx Hhd HQ. unfold push_blocked.
  wp_step. eapply wp_ccb_get; [done|]. wp_step. apply (wp_tmod p t); [done|]. intros s1 H1.
  set (t1 := set_prev 0 (set_next (hd_blocked x) t)) in *.
  assert (Ht1 : tasks s1 !! p = Some t1) by (rewrite (af_tasks _ _ _ _ H1); apply lookup_insert_eq).
  assert (Hk : forall s2, after s (push_map p (hd_blocked x) t1 (tasks s)) (ccbs s) s2 ->
            tasks s2 !! p = Some t1 ->
            wp (t <-- tload (Task p) ;; ccb_mod c (set_hd_blocked (pid t))) Q s2).
  { intros s2 H2 Ht2. wp_step. eapply wp_tload; [done|].
    eapply wp_ccb_mod; [by rewrite (af_ccbs _ _ _ _ H2)|]. intros s3 H3. apply HQ.
    rewrite (af_ccbs _ _ _ _ H2), (af_tasks _ _ _ _ H2) in H3.
    replace (pid t1) with p in H3 by (symmetry; exact Hpid).
    by eapply after_trans. }
  unfold push_map in Hk. wp_step. apply wp_when; intros Hb.
  - destruct (Hhd ltac:(lia)) as [Hne [u Hu]].
    replace (hd_blocked x =? 0) with false in Hk by lia.
    eapply (wp_map_load_tmod _ u p t1 (fun t => set_prev (pid t))); [|done|].
    { rewrite (af_tasks _ _ _ _ H1). by rewrite lookup_insert_ne. }
    intros s2 H2. apply Hk; rewrite (af_ccbs _ _ _ _ H1), (af_tasks _ _ _ _ H1) in H2.
    + rewrite insert_alter_some in H2 by (by rewrite lookup_insert_ne).
      replace (pid t1) with p in H2 by (symmetry; exact Hpid). by eapply after_trans.
    + rewrite (af_tasks _ _ _ _ H2), lookup_insert_ne by done. apply lookup_insert_eq.
  - replace (hd_blocked x =? 0) with true in Hk by lia. by apply Hk.
Qed.

End Steps.

(** ** The queues of a CPU *)

(** A task of CPU [c] ready at priority [i]; a task of CPU [c] that is not ready. *)
Definition runs (c i : Z) (t : tcb_t) : Prop :=
  magic t = OSZ_TCB_MAGICH /\ priority t = i /\ cpuid t = c /\ tstate t = TCB_STATE_RUNNING.
Definition waits (c : Z) (t : tcb_t) : Prop :=
  magic t = OSZ_TCB_MAGICH /\ 0 <= priority t <= PRI_IDLE /\ cpuid t = c /\
  (tstate t = TCB_STATE_BLOCKED \/ tstate t = TCB_STATE_HYBERND).

#[export] Instance runs_link_free c i : LinkFree (runs c i).
Proof. by split. Qed.
#[export] Instance waits_link_free c : LinkFree (waits c).
Proof. by split. Qed.

(** In the tasks [m], the CPU block [x] of CPU [c] holds the ready queues [A], one
    list of pids per priority, and the queue [B] of blocked tasks. *)
Record queues (m : gmap Z tcb_t) (x : ccb_t) (c : Z) (A : list (list Z)) (B : list Z) : Prop :=
  mk_queues {
    q_len : zlen A = 8;
    q_heads : hd_active x = head_or 0 <$> A;
    q_curs : zlen (cr_active x) = 8;
    q_blocked : hd_blocked x = head_or 0 B;
    q_active : forall i L, zget A i = Some L -> dseg (runs c i) m 0 L 0;
    q_waiting : dseg (waits c) m 0 B 0;
    q_nodup : NoDup (concat A ++ B);
    q_alarm : hd_timerq x ∉ concat A ++ B;
  }.

(** What an operation on CPU [c] leaves alone. *)
Record frame (s : sched_state) (c : Z) (own : list Z) (s' : sched_state) : Prop := mk_frame {
  fr_tasks : forall q, q ∉ own -> tasks s' !! q = tasks s !! q;
  fr_ccbs : forall c', c' <> c -> zget (ccbs s') c' = zget (ccbs s) c';
  fr_idle : idle_tcb s' = idle_tcb s;
  fr_numcores : numcores s' = numcores s;
}.

(** The pids of all queues, with queue [i] put aside. *)
Lemma concat_zset (A : list (list Z)) i L :
  zget A i = Some L -> exists R, forall L', concat (zset A i L') ≡ₚ L' ++ R.
Proof.
  intros H. pose proof (zget_Some_lt _ _ _ H). exists (concat (delete (Z.to_nat i) A)). intros L'.
  rewrite zset_put by lia. change (L' ++ _) with (concat (L' :: delete (Z.to_nat i) A)).
  pose proof (perm_put A i L L' ltac:(lia) H) as Hp. revert Hp.
  generalize (L' :: delete (Z.to_nat i) A) (<[Z.to_nat i := L']> A). intros l1 l2 Hp.
  induction Hp; simpl; [done| | |by etransitivity].
  - by rewrite IHHp.
  - rewrite !app_assoc. f_equiv. apply Permutation_app_comm.
Qed.

Section Queues.
Context (m : gmap Z tcb_t) (x : ccb_t) (c : Z) (A : list (list Z)) (B : list Z).
Context (HQ : queues m x c A B).

(** The other queues, as a list of pids. *)
Lemma queue_rest i L :
  zget A i = Some L -> exists R,
    (forall L', concat (zset A i L') ≡ₚ L' ++ R) /\ NoDup (L ++ R ++ B) /\
    (forall j K q, j <> i -> zget A j = Some K -> q ∈ K -> q ∈ R).
Proof.
  intros Hi. destruct (concat_zset A i L Hi) as [R HR]. exists R.
  pose proof (HR L) as HL. rewrite zset_id in HL by done. split_and!; [done| |].
  - rewrite app_assoc, <- HL. apply HQ.
  - intros j K q Hj HK Hq. specialize (HR []). simpl in HR. rewrite <- HR.
    apply list_elem_of_In, in_concat. exists K. split; [|by apply list_elem_of_In].
    apply (zget_In _ j). by rewrite zget_zset_ne.
Qed.

Lemma queue_split i l1 p l2 :
  zget A i = Some (l1 ++ p :: l2) -> exists t, m !! p = Some t /\ pid t = p /\ runs c i t /\
    prev t = last_or 0 l1 /\ next t = head_or 0 l2 /\ neighbours_ok m p t.
Proof.
  intros Hi. destruct (queue_rest i _ Hi) as (R&_&(Hnd&_)%NoDup_app&_).
  apply dseg_split; [done|by apply HQ].
Qed.

Lemma queue_split_blocked l1 p l2 :
  B = l1 ++ p :: l2 -> exists t, m !! p = Some t /\ pid t = p /\ waits c t /\
    prev t = last_or 0 l1 /\ next t = head_or 0 l2 /\ neighbours_ok m p t.
Proof.
  intros HB. pose proof (q_nodup _ _ _ _ _ HQ) as Hnd. rewrite HB in Hnd.
  apply NoDup_app in Hnd as (_&_&Hnd).
  apply dseg_split; [done|]. rewrite <- HB. apply HQ.
Qed.

End Queues.

Lemma not_bad n c i t : runs c i t -> 0 <= i < 8 -> c < n -> bad_tcb n t = false.
Proof. unfold runs, bad_tcb, PRI_IDLE. intros (->&->&->&_) ??. rewrite Z.eqb_refl. simpl. lia. Qed.

Lemma not_bad_waits n c t : waits c t -> c < n -> bad_tcb n t = false.
Proof. unfold waits, bad_tcb. intros (->&?&->&_) ?. rewrite Z.eqb_refl. simpl. lia. Qed.

(** ** Blocking *)

(** The maps of [sched_block]: the task [p] leaves its neighbours and heads [B]. *)
Lemma block_maps m x c A B i l1 p l2 t t1 t2 t3 :
  queues m x c A B -> zget A i = Some (l1 ++ p :: l2) -> m !! p = Some t ->
  prev t1 = prev t -> next t1 = next t ->
  waits c t3 -> pid t3 = p -> prev t3 = 0 -> next t3 = head_or 0 B ->
  let m' := push_map p (head_or 0 B) t3 (<[p := t2]> (unlink_map t1 (<[p := t1]> m))) in
  dseg (runs c i) m' 0 (l1 ++ l2) 0 /\ dseg (waits c) m' 0 (p :: B) 0 /\
  (forall q, q ∉ l1 ++ p :: l2 -> q ∉ B -> m' !! q = m !! q).
Proof.
  intros HQ Hi Ht Hpv Hnx Hw Hpid Hpv3 Hnx3 m'.
  destruct (queue_rest _ _ _ _ _ HQ i _ Hi) as (R&_&Hnd&_).
  apply NoDup_app in Hnd as (Hnd&Hdis&(_&HdB&HB)%NoDup_app).
  pose proof (q_active _ _ _ _ _ HQ i _ Hi) as Hd.
  destruct (unlink_queue (runs c i) m (<[p := t1]> m) l1 p l2 t t1 Hnd Hd Ht) as (Hl&Hfr&_&_);
    [intros; by apply lookup_insert_ne|done|done|].
  set (U := unlink_map t1 (<[p := t1]> m)) in *.
  assert (HpB : p ∉ B) by (intros ?; apply (Hdis p); set_solver).
  assert (Hp12 : p ∉ l1 ++ l2) by (apply NoDup_app in Hnd as (_&Hd1&[Hp _]%NoDup_cons); set_solver).
  assert (Hm' : forall q, q <> p -> q ∉ B -> m' !! q = U !! q).
  { intros q Hq HqB. unfold m', push_map. 
    destruct B as [|b B']; simpl; [by rewrite !lookup_insert_ne|].
    case_match; [|rewrite lookup_alter_ne by set_solver]; by rewrite !lookup_insert_ne. }
  split_and!.
  - eapply dseg_frame; [|exact Hl]. intros q Hq. apply Hm'; [by intros ->|].
    intros ?. apply (Hdis q); set_solver.
  - assert (HpR : p <> 0) by (eapply dseg_nonzero; [exact Hd|set_solver]).
    unfold m', push_map. apply (push_queue (waits c) _ B p t3); try done.
    + by apply NoDup_cons.
    + eapply dseg_frame; [|apply HQ]. intros q Hq.
      rewrite !lookup_insert_ne by (by intros ->). unfold U in Hfr |- *.
      rewrite Hfr by (intros ?; apply (Hdis q); set_solver). by rewrite lookup_insert_ne by (by intros ->).
    + apply lookup_insert_eq.
  - intros q Hq HqB. assert (q <> p) by set_solver. rewrite Hm' by done.
    unfold U. rewrite Hfr by set_solver. by rewrite lookup_insert_ne.
Qed.

(** The queues with [p] of queue [i] moved to the front of [B]. *)
Lemma block_queues m m' x x' c A B i l1 p l2 :
  queues m x c A B -> zget A i = Some (l1 ++ p :: l2) ->
  dseg (runs c i) m' 0 (l1 ++ l2) 0 -> dseg (waits c) m' 0 (p :: B) 0 ->
  (forall q, q ∉ l1 ++ p :: l2 -> q ∉ B -> m' !! q = m !! q) ->
  hd_active x' = zset (hd_active x) i (head_or 0 (l1 ++ l2)) -> zlen (cr_active x') = 8 ->
  hd_blocked x' = p -> hd_timerq x' = hd_timerq x ->
  queues m' x' c (zset A i (l1 ++ l2)) (p :: B).
Proof.
  intros HQ Hi Hrun Hwait Hfr Hh Hcr Hb Hal.
  destruct (queue_rest _ _ _ _ _ HQ i _ Hi) as (R&HR&Hnd&Hother).
  pose proof (zget_Some_lt _ _ _ Hi).
  assert (Hperm : concat (zset A i (l1 ++ l2)) ++ p :: B ≡ₚ concat A ++ B).
  { rewrite HR. pose proof (HR (l1 ++ p :: l2)) as HA. rewrite zset_id in HA by done.
    rewrite HA. clear. solve_Permutation. }
  split; try done.
  - rewrite zlen_zset. apply HQ.
  - rewrite Hh, zset_fmap. f_equal. apply HQ.
  - intros j L HL. destruct (decide (j = i)) as [->|Hj].
    + rewrite zget_zset_eq in HL by done. by injection HL as <-.
    + rewrite zget_zset_ne in HL by done.
      eapply dseg_frame; [|by eapply (q_active _ _ _ _ _ HQ)]. intros q Hq.
      apply NoDup_app in Hnd as (_&Hd1&(_&Hd2&_)%NoDup_app).
      pose proof (Hother j L q Hj HL Hq) as HqR.
      apply Hfr; intros Hx; [apply (Hd1 q Hx); set_solver|by apply (Hd2 q)].
  - rewrite Hperm. apply HQ.
  - rewrite Hperm, Hal. apply HQ.
Qed.

(** The head of the queue after [p] left it. *)
Lemma head_remove (H : list Z) i l1 p l2 (t : tcb_t) :
  zget H i = Some (head_or 0 (l1 ++ p :: l2)) -> NoDup (l1 ++ p :: l2) ->
  (if head_or 0 (l1 ++ p :: l2) =? p then zset H i (head_or 0 l2) else H)
  = zset H i (head_or 0 (l1 ++ l2)).
Proof.
  intros Hi Hnd. destruct l1 as [|q l1]; simpl in *.
  - by rewrite Z.eqb_refl.
  - apply NoDup_cons in Hnd as [Hq _].
    rewrite (proj2 (Z.eqb_neq q p)) by set_solver. by rewrite zset_id.
Qed.

(** What removing a ready task does to the CPU block. *)
Lemma remove_ccb_spec x t r i l1 p l2 :
  pid t = p -> priority t = i -> next t = head_or 0 l2 -> NoDup (l1 ++ p :: l2) ->
  zget (hd_active x) i = Some (head_or 0 (l1 ++ p :: l2)) -> hd_blocked x <> p ->
  let x' := remove_ccb t (head_or 0 (l1 ++ p :: l2)) r x in
  hd_active x' = zset (hd_active x) i (head_or 0 (l1 ++ l2)) /\
  cr_active x' = (if r =? p then zset (cr_active x) i (head_or 0 l2) else cr_active x) /\
  hd_blocked x' = hd_blocked x /\ hd_timerq x' = hd_timerq x.
Proof.
  intros Hpid Hpr Hnx Hnd Hh Hb x'. rewrite <- (head_remove _ i l1 p l2 t Hh Hnd).
  unfold x', remove_ccb. rewrite Hpid, Hpr, Hnx, (proj2 (Z.eqb_neq _ p) Hb).
  by destruct (head_or 0 (l1 ++ p :: l2) =? p), (r =? p).
Qed.

Lemma neighbours_insert m p t t' :
  neighbours_ok m p t -> prev t' = prev t -> next t' = next t -> neighbours_ok (<[p := t']> m) p t'.
Proof.
  intros [H1 H2] Hp Hn. split; rewrite ?Hp, ?Hn; intros Hz.
  - destruct (H1 Hz). split; [done|]. by rewrite lookup_insert_ne.
  - destruct (H2 Hz). split; [done|]. by rewrite lookup_insert_ne.
Qed.

(** Facts about a pid of one of the queues. *)
Lemma queue_member m x c A B i l1 p l2 :
  queues m x c A B -> zget A i = Some (l1 ++ p :: l2) ->
  p <> 0 /\ p ∉ B /\ hd_timerq x <> p /\ hd_blocked x <> p /\ NoDup (l1 ++ p :: l2) /\
  (forall q, q ∈ B -> q ∉ l1 ++ p :: l2).
Proof.
  intros HQ Hi. destruct (queue_rest _ _ _ _ _ HQ i _ Hi) as (R&_&Hnd&_).
  apply NoDup_app in Hnd as (Hnd&Hdis&_).
  assert (HpB : p ∉ B) by (intros ?; apply (Hdis p); set_solver).
  assert (Hp0 : p <> 0) by (eapply dseg_nonzero; [by eapply (q_active _ _ _ _ _ HQ)|set_solver]).
  split_and!; try done.
  - intros Heq. apply (q_alarm _ _ _ _ _ HQ). rewrite Heq. apply elem_of_app. left.
    apply list_elem_of_In, in_concat. eexists. split; [by eapply zget_In|].
    apply list_elem_of_In. set_solver.
  - rewrite (q_blocked _ _ _ _ _ HQ). destruct B; simpl; [done|set_solver].
  - intros q Hq Hq'. apply (Hdis q); set_solver.
Qed.

(** C6: [sched_block] moves a ready task from its priority queue to the front of
    the queue of blocked tasks; every other queue keeps its order, the links stay
    consistent, and no other CPU and no other task is touched. *)
Theorem sched_block_queues s x c A B i l1 p l2 :
  queues (tasks s) x c A B -> zget (ccbs s) c = Some x -> c < numcores s ->
  zget A i = Some (l1 ++ p :: l2) ->
  wp (sched_block (Task p))
     (fun _ s' => exists x', zget (ccbs s') c = Some x' /\
        queues (tasks s') x' c (zset A i (l1 ++ l2)) (p :: B) /\
        frame s c (l1 ++ p :: l2 ++ B) s') s.
Proof.
  intros HQ Hx Hc Hi. pose proof (zget_Some_lt _ _ _ Hx) as Hxr. pose proof (zget_Some_lt _ _ _ Hi) as Hi8.
  rewrite (q_len _ _ _ _ _ HQ) in Hi8.
  destruct (queue_split _ _ _ _ _ HQ i l1 p l2 Hi) as (t&Ht&Hpid&Hrun&Hpv&Hnx&Hnb).
  destruct (queue_member _ _ _ _ _ _ _ _ _ HQ Hi) as (Hp0&HpB&Hal&Hbl&Hnd&Hdis).
  pose proof Hrun as (Hm&Hpr&Hcpu&Hst).
  unfold sched_block. wp_step. eapply wp_tload; [done|]. wp_step. apply wp_gets.
  rewrite (not_bad _ c i), Hst by (done || lia). simpl.
  wp_step. apply wp_gets. wp_step. eapply wp_tmod; [done|].
  set (t1 := set_blktime (clock_ticks s) (set_tstate TCB_STATE_BLOCKED t)).
  intros s1 H1. pose proof H1 as [].
  destruct (zget_is_Some (cr_active x) i) as [r Hr]; [rewrite (q_curs _ _ _ _ _ HQ); lia|].
  assert (Hh : zget (hd_active x) i = Some (head_or 0 (l1 ++ p :: l2)))
    by (by rewrite (q_heads _ _ _ _ _ HQ), zget_fmap, Hi).
  destruct (remove_ccb_spec x t1 r i l1 p l2) as (Hx1&Hx2&Hx3&Hx4); try done.
  wp_step. apply (wp_sched_remove p t1 x (head_or 0 (l1 ++ p :: l2)) r);
    rewrite ?af_tasks0, ?af_ccbs0, ?af_numcores0.
  { apply lookup_insert_eq. } { exact (not_bad _ c i t Hrun Hi8 Hc). }
  { simpl. by rewrite Hcpu. } { simpl. by rewrite Hpr. } { simpl. by rewrite Hpr. }
  { simpl. by rewrite Hpid. } { by apply (neighbours_insert _ _ t). }
  intros s2 H2. set (x2 := remove_ccb _ _ _ _) in *. change (cpuid t1) with (cpuid t) in H2.
  rewrite Hcpu in H2 |- *. pose proof H2 as [].
  destruct (block_maps _ x c A B i l1 p l2 t t1 (set_prev 0 (set_next 0 t1))
    (set_prev 0 (set_next (hd_blocked x) t1)) HQ Hi Ht) as (Hd1&Hd2&Hd3); try done.
  { split_and!; try done; simpl; rewrite ?Hpr; unfold PRI_IDLE; lia. }
  { simpl. apply HQ. }
  rewrite <- (q_blocked _ _ _ _ _ HQ), <- Hx3, <- af_tasks1 in Hd1, Hd2, Hd3.
  apply (wp_push_blocked p (set_prev 0 (set_next 0 t1)) x2).
  { rewrite af_tasks1. apply lookup_insert_eq. } { done. }
  { rewrite af_ccbs1. by apply zget_zset_eq. }
  { rewrite Hx3, (q_blocked _ _ _ _ _ HQ). intros Hz. destruct B as [|b B']; [done|]. simpl in *.
    split; [set_solver|]. rewrite af_tasks1, lookup_insert_ne by set_solver.
    apply unlink_map_dom. rewrite lookup_insert_ne by set_solver.
    destruct (q_waiting _ _ _ _ _ HQ) as (_&(u&->&_)&_). done. }
  intros s3 H3. pose proof H3 as []. exists (set_hd_blocked p x2). split_and!.
  - rewrite af_ccbs2, af_ccbs1, zset_zset. by apply zget_zset_eq.
  - rewrite af_tasks2. apply (block_queues (tasks s) _ x); try done. simpl.
    rewrite Hx2. case_match; rewrite ?zlen_zset; apply HQ.
  - split; try congruence.
    + intros q Hq. rewrite af_tasks2. apply Hd3; set_solver.
    + intros c' Hc'. rewrite af_ccbs2, af_ccbs1, !zget_zset_ne by done. done.
Qed.

(** ** The choice of the next task *)

Section Choice.
Context (H : list Z).
Implicit Types (R : list Z) (lv : list Z).

Definition at0 (l : list Z) (i : Z) : Z := default 0 (zget l i).

(** Level [i] has ready tasks; it has one whose turn has not come yet. *)
Definition ready (i : Z) : bool := negb (at0 H i =? 0).
Definition waiting_turn R (i : Z) : bool := ready i && negb (at0 R i =? 0).

(** The policy: the highest level where some task still waits for its turn, and
    when there is none, the highest level with a ready task. *)
Definition choose R : option Z :=
  match List.find (waiting_turn R) levels with
  | Some i => Some i
  | None => List.find ready levels
  end.

(** The task whose turn it is at level [i]: cursors that ran out start again from the
    head of the queue. *)
Definition turn R (i : Z) : Z := if at0 R i =? 0 then at0 H i else at0 R i.

(** One pass over the levels, on the cursors alone. *)
Fixpoint scan R lv : option Z * list Z :=
  match lv with
  | [] => (None, R)
  | i :: lv' => if negb (ready i) then scan R lv'
                else if negb (at0 R i =? 0) then (Some i, R)
                else scan (zset R i (at0 H i)) lv'
  end.

Definition in_range lv : Prop := Forall (fun i => 0 <= i < 8) lv.

Lemma at0_zset R i j v : zlen R = 8 -> 0 <= i < 8 -> at0 (zset R i v) j = if j =? i then v else at0 R j.
Proof.
  intros HR Hi. unfold at0. destruct (Z.eqb_spec j i) as [->|].
  - by rewrite zget_zset_eq by lia.
  - by rewrite zget_zset_ne.
Qed.

Lemma scan_spec R lv :
  zlen R = 8 -> NoDup lv -> in_range lv ->
  fst (scan R lv) = List.find (waiting_turn R) lv /\
  zlen (snd (scan R lv)) = 8 /\
  (forall i, i ∉ lv -> at0 (snd (scan R lv)) i = at0 R i) /\
  (forall i, at0 (snd (scan R lv)) i = at0 R i \/ at0 R i = 0 /\ at0 (snd (scan R lv)) i = at0 H i) /\
  (fst (scan R lv) = None -> forall i, i ∈ lv -> ready i = true -> at0 (snd (scan R lv)) i = turn R i).
Proof.
  revert R. induction lv as [|i lv IH]; intros R HR Hnd Hin; simpl.
  { split_and!; try done; auto. by intros _ i ?%not_elem_of_nil. }
  apply NoDup_cons in Hnd as [Hi Hnd]. apply Forall_cons in Hin as [Hi8 Hin].
  unfold waiting_turn at 1. destruct (ready i) eqn:Hr; simpl.
  2:{ destruct (IH R HR Hnd Hin) as (H1&H2&H3&H4&H5). split_and!; try done.
      - intros j Hj. apply H3. set_solver.
      - intros Hn j [->|Hj]%elem_of_cons Hj'; [congruence|]. by apply H5. }
  destruct (at0 R i =? 0) eqn:Hri; simpl.
  2:{ split_and!; try done; auto. }
  destruct (IH (zset R i (at0 H i))) as (H1&H2&H3&H4&H5); [by rewrite zlen_zset|done|done|].
  assert (Hfind : List.find (waiting_turn (zset R i (at0 H i))) lv = List.find (waiting_turn R) lv).
  { apply find_ext. intros j Hj. unfold waiting_turn. rewrite at0_zset by done.
    by rewrite (proj2 (Z.eqb_neq j i)) by set_solver. }
  rewrite Hfind in H1. split_and!; try done.
  - intros j Hj. rewrite H3 by set_solver. rewrite at0_zset by done.
    by rewrite (proj2 (Z.eqb_neq j i)) by set_solver.
  - intros j. specialize (H4 j). rewrite at0_zset in H4 by done.
    destruct (Z.eqb_spec j i) as [E|E]; [|done]. right. rewrite E in *. lia.
  - intros Hn j [->|Hj]%elem_of_cons Hj'.
    + rewrite H3, at0_zset, Z.eqb_refl by done. unfold turn. by rewrite Hri.
    + rewrite (H5 Hn j Hj Hj'). unfold turn. rewrite at0_zset by done.
      by rewrite (proj2 (Z.eqb_neq j i)) by set_solver.
Qed.

(** Two passes make the choice of the policy. *)
Definition scan_twice R : option Z * list Z :=
  match scan R levels with
  | (Some i, R') => (Some i, R')
  | (None, R') => if existsb ready levels then scan R' levels else (None, R')
  end.

Lemma levels_ok : NoDup levels /\ in_range levels.
Proof. split; [by apply (bool_decide_unpack _)|]. repeat apply Forall_cons_2; try apply Forall_nil_2; lia. Qed.

Lemma scan_twice_choose R :
  zlen R = 8 ->
  let (r, R') := scan_twice R in
  r = choose R /\ zlen R' = 8 /\ (forall i, r = Some i -> ready i = true /\ at0 R' i = turn R i) /\
  (forall i, at0 R' i = at0 R i \/ at0 R i = 0 /\ at0 R' i = at0 H i).
Proof.
  intros HR. destruct levels_ok as [Hnd Hin]. unfold scan_twice, choose.
  destruct (scan_spec R levels HR Hnd Hin) as (H1&H2&H3&H4&H5).
  destruct (scan R levels) as [r R1]. cbn [fst snd] in *. rewrite <- H1. destruct r as [i|].
  - split_and!; [done..| |done]. intros j [= <-]. symmetry in H1. apply find_some in H1 as [_ H1].
    unfold waiting_turn, turn in *. destruct (H4 i) as [E|[E _]]; b2p; [|lia].
    split; [done|]. rewrite E. by case_match; [lia|].
  - assert (Hready : forall i, i ∈ levels -> ready i = true -> waiting_turn R1 i = true).
    { intros i Hi Hr. unfold waiting_turn. rewrite Hr, (H5 eq_refl i Hi Hr). unfold turn, ready in *.
      by destruct (at0 R i =? 0) eqn:E; rewrite ?E. }
    assert (Hfind : List.find (waiting_turn R1) levels = List.find ready levels).
    { apply find_ext. intros i Hi. destruct (ready i) eqn:Hr; [by apply Hready|].
      unfold waiting_turn. by rewrite Hr. }
    destruct (existsb ready levels) eqn:Hex.
    + destruct (scan_spec R1 levels H2 Hnd Hin) as (G1&G2&G3&G4&G5).
      destruct (scan R1 levels) as [r R2]. cbn [fst snd] in *. rewrite G1, Hfind. split_and!; try done.
      * intros i Hi. apply find_some in Hi as [Hi Hr]. apply list_elem_of_In in Hi. split; [done|].
        pose proof (H5 eq_refl i Hi Hr) as E. pose proof (Hready i Hi Hr) as Hw.
        unfold waiting_turn in Hw. destruct (G4 i) as [->|[E2 _]]; [done|]. b2p. lia.
      * intros i. destruct (G4 i) as [->|[E ->]]; [done|].
        destruct (H4 i) as [E2|[E2 E3]]; [right; split; [congruence|done]|by right].
    + assert (List.find ready levels = None) as ->.
      { destruct (List.find ready levels) as [i|] eqn:E; [|done]. apply find_some in E.
        assert (existsb ready levels = true) by (apply existsb_exists; by exists i). congruence. }
      by split_and!.
Qed.

End Choice.

(** No alarm is due: the alarm queue is empty or its first task is not due yet. *)
Definition no_alarm (s : sched_state) (x : ccb_t) : Prop :=
  hd_timerq x = 0 \/
  exists a, tasks s !! tcbalarm s = Some a /\ sched_ticks x < alarmusec a.

Definition with_cursors (s : sched_state) (x : ccb_t) (R : list Z) : sched_state :=
  set_ccbs (zset (ccbs s) (cpu s) (set_cr_active R x)) s.

Lemma run_pick_levels lv : forall s x ne,
  zget (ccbs s) (cpu s) = Some x -> zlen (hd_active x) = 8 -> zlen (cr_active x) = 8 ->
  no_alarm s x -> in_range lv ->
  pick_levels lv ne s =
    Ret (match fst (scan (hd_active x) (cr_active x) lv) with
         | Some i => inr i
         | None => inl (ne || existsb (ready (hd_active x)) lv)
         end) (with_cursors s x (snd (scan (hd_active x) (cr_active x) lv))).
Proof.
  induction lv as [|i lv IH]; intros s x ne Hx HH HR Hal Hin; simpl.
  { rewrite orb_false_r. unfold with_cursors. replace (set_cr_active (cr_active x) x) with x by (by destruct x).
    rewrite zset_id by done. by destruct s. }
  apply Forall_cons in Hin as [Hi Hin].
  unfold bind at 1, gets at 1. unfold bind at 1. unfold ccb_get at 1, bind at 1, get at 1. rewrite Hx. simpl.
  set (alarm := if hd_timerq x =? 0 then _ else _).
  assert (Ha : alarm s = Ret false s).
  { unfold alarm. destruct Hal as [->|(a&Ha&Ht)]; [done|]. case_match; [done|].
    unfold bind, tload, get, pid_at, bind. rewrite Ha. simpl. unfold ret.
    by rewrite (proj2 (Z.leb_gt _ _) Ht), andb_false_r. }
  unfold bind at 1. rewrite Ha. clear alarm Ha.
  destruct (zget_is_Some (hd_active x) i) as [h Hh]; [lia|].
  destruct (zget_is_Some (cr_active x) i) as [r Hr]; [lia|].
  assert (Er : ready (hd_active x) i = negb (h =? 0)) by (unfold ready, at0; by rewrite Hh).
  assert (Eh : at0 (hd_active x) i = h) by (unfold at0; by rewrite Hh).
  assert (Ec : at0 (cr_active x) i = r) by (unfold at0; by rewrite Hr).
  unfold bind at 1. rewrite Hh. cbn [need]. unfold ret at 1. rewrite Er, Ec, Eh, negb_involutive.
  destruct (h =? 0) eqn:Hh0; simpl; [by apply IH|].
  unfold bind at 1. rewrite Hr. cbn [need]. unfold ret at 1. 
  destruct (r =? 0) eqn:Hr0; simpl.
  - unfold bind at 1, ccb_mod, bind at 1, get. rewrite Hx. cbn [need]. unfold ret, bind, put.
    pose proof (zget_Some_lt _ _ _ Hx).
    rewrite (IH _ (set_cr_active (zset (cr_active x) i h) x)); simpl; [|by apply zget_zset_eq|done|by rewrite zlen_zset|done|done].
    rewrite orb_true_r. f_equal. unfold with_cursors. simpl. by rewrite zset_zset.
  - unfold ret. f_equal. unfold with_cursors.
    replace (set_cr_active (cr_active x) x) with x by (by destruct x).
    rewrite zset_id by done. by destruct s.
Qed.

Lemma no_alarm_cursors s x R : no_alarm s x -> no_alarm (with_cursors s x R) (set_cr_active R x).
Proof. done. Qed.

Lemma run_pick_once s x :
  zget (ccbs s) (cpu s) = Some x -> zlen (hd_active x) = 8 -> zlen (cr_active x) = 8 ->
  no_alarm s x ->
  pick_loop tt s =
    Ret (match fst (scan (hd_active x) (cr_active x) levels) with
         | Some i => inr (Some i)
         | None => if existsb (ready (hd_active x)) levels then inl tt else inr None
         end) (with_cursors s x (snd (scan (hd_active x) (cr_active x) levels))).
Proof.
  intros. unfold pick_loop. erewrite run_bind by (by apply run_pick_levels, levels_ok).
  destruct (fst _); [done|]. cbn [orb]. by destruct (existsb _ _).
Qed.

(** The search loop ends after at most two passes. *)
Lemma run_pick_loop s x :
  zget (ccbs s) (cpu s) = Some x -> zlen (hd_active x) = 8 -> zlen (cr_active x) = 8 ->
  no_alarm s x ->
  iter 3 pick_loop tt s =
    let (r, R') := scan_twice (hd_active x) (cr_active x) in Ret r (with_cursors s x R').
Proof.
  intros Hx HH HR Hal. destruct levels_ok as [Hnd Hin].
  pose proof (zget_Some_lt _ _ _ Hx) as Hc.
  pose proof (scan_twice_choose (hd_active x) (cr_active x) HR) as Hch.
  destruct (scan_spec (hd_active x) _ levels HR Hnd Hin) as (_&HR1&_).
  unfold scan_twice in *. unfold iter. erewrite run_bind by (by apply run_pick_once).
  destruct (scan (hd_active x) (cr_active x) levels) as [[i|] R1] eqn:E1; cbn [fst snd] in *; [done|].
  destruct (existsb (ready (hd_active x)) levels) eqn:Hex; [|done].
  erewrite run_bind.
  2:{ apply (run_pick_once (with_cursors s x R1) (set_cr_active R1 x)); try done.
      by apply zget_zset_eq. }
  change (hd_active (set_cr_active R1 x)) with (hd_active x).
  change (cr_active (set_cr_active R1 x)) with R1.
  destruct (scan (hd_active x) R1 levels) as [[i|] R2] eqn:E2; cbn [fst snd].
  - unfold ret, with_cursors. simpl. by rewrite zset_zset.
  - exfalso. destruct Hch as [Hch _]. unfold choose in Hch.
    apply existsb_exists in Hex as (i&Hi&Hr).
    destruct (List.find (waiting_turn _ _) levels); [done|].
    symmetry in Hch. by rewrite (find_none _ _ Hch i Hi) in Hr.
Qed.

(** The switch leaves the queues alone. *)
Definition switched (x : ccb_t) (p : Z) (x' : ccb_t) : Prop :=
  current x' = p /\ hd_active x' = hd_active x /\ cr_active x' = cr_active x /\
  hd_blocked x' = hd_blocked x /\ hd_timerq x' = hd_timerq x /\ sched_ticks x' = sched_ticks x.

(** Where [pick_switch] stands: the CPU block is [y], nothing else changed. *)
Definition switching (s : sched_state) (y : ccb_t) (s1 : sched_state) : Prop :=
  after s (tasks s) (zset (ccbs s) (cpu s) y) s1.

Lemma wp_switching {A} s y s1 f (K : M sched_state A) Q x :
  zget (ccbs s) (cpu s) = Some x -> switching s y s1 ->
  (forall s2, switching s (f y) s2 -> wp K Q s2) -> wp (ccb_mod (cpu s) f ;;; K) Q s1.
Proof.
  intros Hx H1 HK. pose proof (zget_Some_lt _ _ _ Hx). wp_step.
  eapply wp_ccb_mod; [rewrite (af_ccbs _ _ _ _ H1); by apply zget_zset_eq|].
  intros s2 H2. apply HK. unfold switching. eapply after_trans; [exact H1|].
  by rewrite (af_tasks _ _ _ _ H1), (af_ccbs _ _ _ _ H1), zset_zset in H2.
Qed.

Lemma wp_switching_get {A} s y s1 (K : ccb_t -> M sched_state A) Q x :
  zget (ccbs s) (cpu s) = Some x -> switching s y s1 ->
  wp (K y) Q s1 -> wp (ccb <-- ccb_get (cpu s) ;; K ccb) Q s1.
Proof.
  intros Hx H1 HK. pose proof (zget_Some_lt _ _ _ Hx). wp_step.
  eapply wp_ccb_get; [rewrite (af_ccbs _ _ _ _ H1); by apply zget_zset_eq|done].
Qed.

Lemma wp_pick_switch p t s x :
  tmpmap1 s = p -> tasks s !! p = Some t -> zget (ccbs s) (cpu s) = Some x -> no_alarm s x ->
  wp (pick_switch Tmpmap1)
     (fun _ s' => exists x', switching s x' s' /\ switched x (pid t) x') s.
Proof.
  intros Hp Ht Hx Hal. unfold pick_switch.
  wp_step. apply wp_gets. wp_step. eapply wp_ccb_get; [done|].
  wp_step. unfold tload at 1. wp_step. apply wp_get. simpl. rewrite Hp. eapply wp_need; [done|].
  apply wp_when; intros Hc; b2p.
  2:{ exists x. split; [|by split_and!]. unfold switching. rewrite zset_id by done. apply after_refl. }
  wp_step. apply wp_modify.
  assert (Hs1 : switching s x (set_slog (slog s ++ [EvSwitch (memroot t)]) s))
    by (unfold switching; rewrite zset_id by done; by split).
  eapply wp_switching; [done|exact Hs1|]. intros s2 H2. wp_step. apply wp_gets.
  set (y := set_ccb_flags _ _) in *.
  apply wp_when; intros Hl; [|by exists y].
  eapply wp_switching; [done|exact H2|]. intros s3 H3.
  eapply wp_switching_get; [done|exact H3|].
  wp_step. apply (wp_mono _ (fun _ s4 => exists d, switching s (set_sched_delta d y) s4)).
  { apply wp_when; intros Ht0; [|by exists 0].
    destruct Hal as [Hz|(a&Ha&_)]; [simpl in Ht0; rewrite Hz in Ht0; done|].
    assert (Hload : forall Q : tcb_t -> sched_state -> Prop, Q a s3 -> wp (tload Tcbalarm) Q s3).
    { intros Q HQ. unfold tload. wp_step. apply wp_get. simpl. eapply wp_need; [|done].
      by rewrite (af_alarm _ _ _ _ H3), (af_tasks _ _ _ _ H3). }
    assert (Hthen : forall b : bool, wp (when b (a <-- tload Tcbalarm ;;
                ccb_mod (cpu s) (set_sched_delta (u64 (alarmusec a - sched_ticks (set_sched_delta 0 y))))))
                (fun _ s4 => exists d, switching s (set_sched_delta d y) s4) s3).
    { intros b. apply wp_when; intros _; [|by exists 0]. wp_step. apply Hload.
      eapply wp_ccb_mod; [rewrite (af_ccbs _ _ _ _ H3); apply zget_zset_eq; by eapply zget_Some_lt|].
      intros s4 H4. eexists. unfold switching. eapply after_trans; [exact H3|].
      by rewrite (af_tasks _ _ _ _ H3), (af_ccbs _ _ _ _ H3), zset_zset in H4. }
    wp_step. wp_step; [apply wp_ret; apply (Hthen true)|]. wp_step. apply Hload. apply wp_ret. apply Hthen. }
  intros _ s4 (d&H4). eapply wp_switching_get; [done|exact H4|]. wp_step. apply wp_gets.
  wp_step. apply (wp_mono _ (fun _ s5 => exists d, switching s (set_sched_delta d y) s5)).
  { apply wp_when; intros _; [|by exists d].
    eapply wp_ccb_mod; [rewrite (af_ccbs _ _ _ _ H4); apply zget_zset_eq; by eapply zget_Some_lt|].
    intros s5 H5. eexists. unfold switching. eapply after_trans; [exact H4|].
    by rewrite (af_tasks _ _ _ _ H4), (af_ccbs _ _ _ _ H4), zset_zset in H5. }
  intros _ s5 (d'&H5). eapply wp_switching_get; [done|exact H5|].
  wp_step; unfold emit; wp_go; (exists (set_sched_delta d' y); split; [|by split_and!]);
    destruct H5; split; simpl; congruence.
Qed.

(** C7: with no alarm due, [sched_pick] terminates and hands the CPU to the task
    whose turn it is at the level the round-robin policy [choose] names, and moves
    that level's cursor to the task behind it. *)
Theorem sched_pick_choice drivers s x i t :
  zget (ccbs s) (cpu s) = Some x -> zlen (hd_active x) = 8 -> zlen (cr_active x) = 8 ->
  no_alarm s x -> choose (hd_active x) (cr_active x) = Some i ->
  tasks s !! turn (hd_active x) (cr_active x) i = Some t ->
  wp (sched_pick drivers)
     (fun _ s' => tasks s' = tasks s /\ exists x', zget (ccbs s') (cpu s) = Some x' /\
        current x' = pid t /\ hd_active x' = hd_active x /\ at0 (cr_active x') i = next t) s.
Proof.
  intros Hx HH HR Hal Hi Ht. pose proof (zget_Some_lt _ _ _ Hx) as Hc.
  pose proof (run_pick_loop s x Hx HH HR Hal) as Hrun.
  pose proof (scan_twice_choose (hd_active x) (cr_active x) HR) as Hch.
  destruct (scan_twice (hd_active x) (cr_active x)) as [r R'].
  destruct Hch as (->&HR'&Hturn&_). rewrite Hi in Hrun, Hturn.
  destruct (Hturn i eq_refl) as [Hr Htn]. clear Hturn. rewrite <- Htn in Ht.
  assert (Hi8 : 0 <= i < 8).
  { unfold ready, at0 in Hr. destruct (zget (hd_active x) i) eqn:E; [|done].
    apply zget_Some_lt in E. lia. }
  unfold sched_pick. wp_step. unfold wp at 1. rewrite Hrun. wp_step. unfold pick_found.
  wp_step. apply wp_gets. wp_step. eapply wp_ccb_get; [by apply zget_zset_eq|].
  wp_step. destruct (zget_is_Some R' i) as [q Hq]; [lia|]. eapply wp_need; [done|].
  assert (Hqt : at0 R' i = q) by (unfold at0; by rewrite Hq). rewrite Hqt in Ht.
  wp_step. apply wp_modify. wp_step. unfold tload. wp_step. apply wp_get. simpl.
  eapply wp_need; [done|]. cbn beta. wp_step.
  unfold wp at 1. rewrite (run_ccb_mod _ (set_cr_active R' x)) by (by apply zget_zset_eq).
  simpl. rewrite zset_zset. set (x2 := set_cr_active _ _). set (s2 := set_ccbs _ _). wp_step.
  eapply wp_mono; [apply (wp_pick_switch q t s2 x2); try done; by apply zget_zset_eq|].
  intros _ s' (x'&Hs'&Hcur&Hhd&Hcr&_). destruct Hs'. split; [done|]. exists x'. split_and!; try done.
  - rewrite af_ccbs0. simpl. rewrite zset_zset. by apply zget_zset_eq.
  - rewrite Hcr. unfold x2. simpl. rewrite at0_zset, Z.eqb_refl by done. done.
Qed.

(** ** Concrete runs *)

Module Sample.

Definition task (p pr st : Z) : tcb_t :=
  set_priority pr (set_tstate st (set_pid p (set_magic OSZ_TCB_MAGICH zero_tcb))).

(** One CPU; task 4 runs at priority 5 behind task 3, task 6 is blocked. *)
Definition cpu0 : ccb_t :=
  mk_ccb 0 true 0 0 0 6 [0; 0; 0; 0; 0; 3; 0; 0] [0; 0; 0; 0; 0; 4; 0; 0] 50 0.

Definition system : sched_state :=
  mk_sched (<[3 := set_next 4 (task 3 5 TCB_STATE_RUNNING)]>
           (<[4 := set_prev 3 (task 4 5 TCB_STATE_RUNNING)]>
           (<[6 := task 6 5 TCB_STATE_BLOCKED]> ∅)))
    (task 9 PRI_IDLE TCB_STATE_RUNNING) [cpu0] 1 0 0 0 1000 RUNLVL_NORM 500 0 [].

Definition ready_queues : list (list Z) := [[]; []; []; []; []; [3; 4]; []; []].

Lemma system_queues : queues (tasks system) cpu0 0 ready_queues [6].
Proof.
  split; try done.
  - intros i L HL. pose proof (zget_Some_lt _ _ _ HL) as Hi. change (zlen ready_queues) with 8 in Hi.
    assert (Hcases : i = 0 \/ i = 1 \/ i = 2 \/ i = 3 \/ i = 4 \/ i = 5 \/ i = 6 \/ i = 7) by lia.
    (repeat destruct Hcases as [Hcases | Hcases]); subst i; injection HL as <-; try done.
    simpl. split_and!; try done; eexists; (split; [by vm_compute|by split_and!]).
  - simpl. split_and!; try done. eexists. split; [by vm_compute|]. split_and!; try done. 
    split_and!; try done. by left.
  - apply (bool_decide_unpack _). by vm_compute.
  - apply (bool_decide_unpack _). by vm_compute.
Qed.

End Sample.

Lemma sched_block_queues_witness :
  wp (sched_block (Task 4))
     (fun _ s' => exists x', zget (ccbs s') 0 = Some x' /\
        queues (tasks s') x' 0 (zset Sample.ready_queues 5 ([3] ++ [])) [4; 6] /\
        frame Sample.system 0 ([3] ++ 4 :: [] ++ [6]) s') Sample.system.
Proof.
  apply (sched_block_queues Sample.system Sample.cpu0 0 Sample.ready_queues [6] 5 [3] 4 []);
    [exact Sample.system_queues|done|done|done].
Defined.

Lemma sched_pick_choice_witness :
  wp (sched_pick (ret tt))
     (fun _ s' => tasks s' = tasks Sample.system /\ exists x', zget (ccbs s') 0 = Some x' /\
        current x' = 4 /\ hd_active x' = hd_active Sample.cpu0 /\ at0 (cr_active x') 5 = 0) Sample.system.
Proof.
  apply (sched_pick_choice (ret tt) Sample.system Sample.cpu0 5
           (set_prev 3 (Sample.task 4 5 TCB_STATE_RUNNING))); try done. by left.
Defined.

(** ** The alarm queue *)

(** Two tasks wait for their alarms, at 100 and at 200 microseconds. *)
Definition sleepers (ticks : Z) : sched_state :=
  mk_sched (<[3 := set_next 4 (set_alarmusec 100 (Sample.task 3 5 TCB_STATE_BLOCKED))]>
           (<[4 := set_alarmusec 200 (Sample.task 4 5 TCB_STATE_BLOCKED)]> ∅))
    (Sample.task 9 PRI_IDLE TCB_STATE_RUNNING)
    [mk_ccb 0 true 0 0 3 0 [0; 0; 0; 0; 0; 0; 0; 0] [0; 0; 0; 0; 0; 0; 0; 0] ticks 0]
    1 0 0 3 1000 RUNLVL_NORM 500 0 [].
Definition both_ready : sched_state :=
  mk_sched (<[3 := set_next 4 (Sample.task 3 5 TCB_STATE_RUNNING)]>
           (<[4 := set_prev 3 (Sample.task 4 5 TCB_STATE_RUNNING)]> ∅))
    (Sample.task 9 PRI_IDLE TCB_STATE_RUNNING)
    [mk_ccb 0 true 0 0 0 0 [0; 0; 0; 0; 0; 3; 0; 0] [0; 0; 0; 0; 0; 0; 0; 0] 0 0]
    1 0 0 0 1000 RUNLVL_NORM 500 0 [].

(** What a run leaves: the alarm queue's head, the ready queue of priority 5, and
    the state and the successor of tasks 3 and 4. *)
Definition view (o : outcome sched_state unit) : option (Z * Z * (Z * Z) * (Z * Z)) :=
  match o with
  | Ret _ s =>
      match zget (ccbs s) 0, tasks s !! 3, tasks s !! 4 with
      | Some x, Some t3, Some t4 =>
          Some (hd_timerq x, at0 (hd_active x) 5, (tstate t3, next t3), (tstate t4, next t4))
      | _, _, _ => None
      end
  | _ => None
  end.

(** When the first of two alarms is due, [sched_pick] wakes the wrong task:
    [sched_awake] remaps LDYN_tcbalarm, through which it was called, to the second
    sleeper before it moves the task.  Task 4, whose alarm is 100 microseconds
    away, becomes ready and stays in the alarm queue, and task 3 is in no queue. *)
Theorem alarm_wakes_wrong_task :
  view (sched_pick (ret tt) (sleepers 100)) =
    Some (4, 4, (TCB_STATE_BLOCKED, 4), (TCB_STATE_RUNNING, 0)).
Proof. by vm_compute. Qed.

(** [sched_delay] links the alarm queue in one direction only, so a sleeper
    that a message wakes is not unlinked from the sleeper before it: task 4 runs and
    is still the successor of task 3 in the alarm queue. *)
Theorem delayed_task_not_unlinked :
  view ((sched_delay 9 (Task 3) 100 ;;; sched_delay 9 (Task 4) 200) both_ready) =
    Some (3, 0, (TCB_STATE_BLOCKED, 4), (TCB_STATE_BLOCKED, 0)) /\
  view ((sched_delay 9 (Task 3) 100 ;;; sched_delay 9 (Task 4) 200 ;;;
         sched_awake (Task 4)) both_ready) =
    Some (3, 4, (TCB_STATE_BLOCKED, 4), (TCB_STATE_RUNNING, 0)).
Proof. split; by vm_compute. Qed.
