(* ===== verification/Security.v ===== *)
(** The message policy of the core, src/core/security.c: access control entries of
    a task and the question whether a task may send a given message. *)
From Stdlib Require Import ZArith Lia List Ascii String.
From stdpp Require Import base list.
From S2P Require Import Prelude CoreState.

Module Security.
#[local] Open Scope string_scope.
#[local] Open Scope Z_scope.

(** Function codes, include/osZ/bits. *)
Definition SYS_regirq : Z := 6.
Definition SYS_regtmr : Z := 7.
Definition SYS_drvfind : Z := 8.
Definition SYS_drvadd : Z := 9.
Definition SYS_stimezone : Z := 10.
Definition SYS_stimebcd : Z := 11.
Definition SYS_stime : Z := 12.
Definition SYS_tskcpy : Z := 25.
Definition EVT_ack : Z := 0x3FFA.
Definition SYS_setblock : Z := 2.
Definition SYS_mountfs : Z := 6.
Definition SYS_mount : Z := 7.
Definition SYS_umount : Z := 8.
Definition SYS_mknod : Z := 10.
Definition SYS_chroot : Z := 37.
Definition SYS_getty : Z := 50.
Definition SYS_devprogress : Z := 15.
Definition A_WRITE : Z := 2.
Definition TCB_MAXACE : nat := 128.

(** Group names as bytes. *)
Definition name (s : String.string) : list Z :=
  List.map (fun c => Z.of_N (Ascii.N_of_ascii c)) (String.list_ascii_of_string s).
Definition rootuid : list Z := name "root" ++ List.repeat 0 11.

(** [memcmp(a, b, n) == 0] *)
Definition same_bytes (n : nat) (a b : list Z) : bool := bool_decide (take n a = take n b).

(** The loop over the entries [acl] of [task_allowed]; [n] entries are left and an
    unused entry starts with a zero byte. *)
Fixpoint acl_search (n : nat) (acl : list (list Z)) (grp : list Z) (access : Z) : bool :=
  match n, acl with
  | S n', g :: acl' =>
      if List.nth 0 g 0 =? 0 then false
      else if same_bytes (Nat.min (length grp) 15) g grp
           then (access =? 0) || (Z.land (List.nth 15 g 0) access =? access)
           else acl_search n' acl' grp access
  | _, _ => false
  end.

(** [grp] is the string without its terminator, [None] for a null pointer. *)
Definition task_allowed (tcb : tcb_t) (grp : option (list Z)) (access : Z) : bool :=
  match grp with
  | None | Some [] => false
  | Some g => acl_search TCB_MAXACE (acl tcb) g access
  end.

(** [services[-srv]]: the pid of a system service. *)
Definition service (services : list Z) (srv : Z) : Z := List.nth (Z.to_nat (- srv)) services 0.

(** [(int64_t)dest == srv || dest == services[-srv]] *)
Definition is_service (services : list Z) (dest srv : Z) : bool :=
  (s64 dest =? srv) || (dest =? service services srv).

Definition driver_or_service (t : tcb_t) : bool :=
  (priority t =? PRI_DRV) || (priority t =? PRI_SRV).

Definition is_root (t : tcb_t) : bool := same_bytes 15 (owner t) rootuid.

Definition group (t : tcb_t) (g : String.string) (access : Z) : bool :=
  task_allowed t (Some (name g)) access.

Section Policy.
Context (services : list Z).

(** Messages to the core. *)
Definition core_allowed (sender : tcb_t) (e : Z) : bool :=
  if ((e =? SYS_regirq) || (e =? SYS_regtmr) || (e =? SYS_drvfind) || (e =? SYS_drvadd))
     && negb (priority sender =? PRI_DRV) then false
  else if ((e =? SYS_tskcpy) || (e =? EVT_ack)) && negb (driver_or_service sender) then false
  else if is_root sender then true
  else negb (((e =? SYS_stimezone) || (e =? SYS_stime) || (e =? SYS_stimebcd))
             && negb (group sender "time" A_WRITE)).

(** Messages to the FS task. *)
Definition fs_allowed (sender : tcb_t) (e : Z) : bool :=
  if (e =? SYS_mountfs) && negb (pid sender =? service services SRV_FS) then false
  else if (e =? SYS_getty) && negb (pid sender =? service services SRV_UI) then false
  else if ((e =? SYS_mknod) || (e =? SYS_setblock)) && negb (driver_or_service sender) then false
  else if is_root sender then true
  else if (e =? SYS_chroot) && negb (group sender "chroot" A_WRITE) then false
  else negb (((e =? SYS_mount) || (e =? SYS_umount)) && negb (group sender "storage" A_WRITE)).

(** [msg_allowed] as a decision. *)
Definition allowed (sender : tcb_t) (dest event : Z) : bool :=
  let e := EVT_FUNC event in
  if s64 dest =? SRV_CORE then core_allowed sender e
  else if is_service services dest SRV_FS then fs_allowed sender e
  else if is_service services dest SRV_UI then
    negb (group sender "noui" 0) &&
    negb ((e =? SYS_devprogress) && negb (pid sender =? service services SRV_FS))
  else if is_service services dest SRV_syslog then negb (group sender "nosyslog" 0)
  else if is_service services dest SRV_inet then negb (group sender "noinet" 0)
  else if is_service services dest SRV_sound then negb (group sender "nosound" 0)
  else if is_service services dest SRV_init then negb (group sender "noinit" 0)
  else true.

(** The error code [errno] is the state. *)
Definition msg_allowed (sender : tcb_t) (dest event : Z) : M Z bool :=
  if allowed sender dest event then ret true else put EPERM ;;; ret false.

End Policy.
End Security.
