(* ===== verification/SecurityFacts.v ===== *)
(** The message policy of Security.v: what an access control list grants, and who
    can reach the privileged functions of the core and of the FS task. *)
From Stdlib Require Import ZArith Lia List Ascii String.
From stdpp Require Import base list.
From S2P Require Import Prelude CoreState Security.
Import Security.

(** The entry [g] names the group [grp], up to the length of [grp]. *)
Definition names (grp g : list Z) : Prop :=
  take (Nat.min (length grp) 15) g = take (Nat.min (length grp) 15) grp.
Definition used (g : list Z) : Prop := List.nth 0 g 0 <> 0.
Definition grants (access : Z) (g : list Z) : Prop :=
  access = 0 \/ Z.land (List.nth 15 g 0) access = access.

Lemma acl_search_spec n acl grp access :
  acl_search n acl grp access = true <->
  exists k g, (k < n)%nat /\ acl !! k = Some g /\ used g /\ names grp g /\ grants access g /\
    forall j h, (j < k)%nat -> acl !! j = Some h -> used h /\ ~ names grp h.
Proof.
  revert n. induction acl as [|g acl IH]; intros n.
  { destruct n; simpl; (split; [done|]); by intros (k&g&_&?&_). }
  destruct n as [|n]; simpl.
  { split; [done|]. intros (k&?&?&_). lia. }
  destruct (Z.eqb_spec (List.nth 0 g 0) 0) as [Hz|Hz].
  { split; [done|]. intros ([|k]&h&_&Hh&Hu&_&_&Hb); [by injection Hh as ->|].
    by destruct (Hb 0%nat g ltac:(lia) eq_refl). }
  unfold same_bytes. case_bool_decide as Hn.
  - rewrite orb_true_iff, !Z.eqb_eq. split.
    + intros Hg. exists 0%nat, g. split_and!; [lia|done..|]. intros; lia.
    + intros ([|k]&h&_&Hh&_&_&Hg&Hb); [by injection Hh as ->|].
      by destruct (Hb 0%nat g ltac:(lia) eq_refl).
  - rewrite IH. split.
    + intros (k&h&Hk&Hh&Hu&Hm&Hg&Hb). exists (S k), h. split_and!; try done; [lia|].
      intros [|j] f Hj Hf; [by injection Hf as <-|]. apply (Hb j); [lia|done].
    + intros ([|k]&h&Hk&Hh&Hu&Hm&Hg&Hb); [by injection Hh as ->|].
      exists k, h. split_and!; try done; [lia|]. intros j f Hj Hf. apply (Hb (S j)); [lia|done].
Qed.


(** Functions only drivers, or only drivers and services, may call. *)
Definition driver_only (dest e : Z) : bool :=
  (s64 dest =? SRV_CORE) &&
  ((e =? SYS_regirq) || (e =? SYS_regtmr) || (e =? SYS_drvfind) || (e =? SYS_drvadd)).
Definition driver_service_only (services : list Z) (dest e : Z) : bool :=
  if s64 dest =? SRV_CORE then (e =? SYS_tskcpy) || (e =? EVT_ack)
  else is_service services dest SRV_FS && ((e =? SYS_mknod) || (e =? SYS_setblock)).

(** C29: whatever its owner and its access list, a task that is not a driver cannot
    register interrupts or drivers with the core, one that is neither a driver nor a
    service cannot copy memory between tasks, acknowledge, make device nodes or hand over
    blocks, only the FS and the UI task can use the FS functions reserved for them, and
    only the FS task can report progress to the UI task; the message is refused and the
    error code says so. *)
Theorem privileged_functions_guarded services t dest event err :
  let e := EVT_FUNC event in
  (driver_only dest e = true /\ priority t <> PRI_DRV \/
   driver_service_only services dest e = true /\ driver_or_service t = false \/
   (s64 dest <> SRV_CORE /\ is_service services dest SRV_FS = true /\
      (e = SYS_mountfs /\ pid t <> service services SRV_FS \/
       e = SYS_getty /\ pid t <> service services SRV_UI)) \/
   (s64 dest <> SRV_CORE /\ is_service services dest SRV_FS = false /\ is_service services dest SRV_UI = true /\
      e = SYS_devprogress /\ pid t <> service services SRV_FS)) ->
  msg_allowed services t dest event err = Ret false EPERM.
Proof.
  intros e Hcase.
  assert (Ha : allowed services t dest event = false); [|unfold msg_allowed; by rewrite Ha].
  unfold allowed. fold e. unfold driver_only, driver_service_only in Hcase.
  destruct (Z.eqb_spec (s64 dest) SRV_CORE) as [Hc|Hc]; simpl in Hcase.
  - unfold core_allowed. destruct Hcase as [[H1 H2]|[[H1 H2]|[(?&_)|(?&_)]]]; [| |done..].
    + rewrite H1. by replace (priority t =? PRI_DRV) with false by lia.
    + rewrite H1, H2. by destruct (_ && negb (priority t =? PRI_DRV)).
  - destruct Hcase as [[? _]|[[H1 H2]|[(_&H1&H2)|(_&H1&H2&H3&H4)]]]; [done| | |].
    + apply andb_true_iff in H1 as [-> H1]. unfold fs_allowed. rewrite H1, H2. simpl.
      repeat case_match; done.
    + rewrite H1. unfold fs_allowed. destruct H2 as [[-> H2]|[-> H2]]; simpl.
      * by replace (pid t =? service services SRV_FS) with false by lia.
      * by replace (pid t =? service services SRV_UI) with false by lia.
    + rewrite H1, H2, H3. replace (pid t =? service services SRV_FS) with false by lia. apply andb_false_r.
Qed.

Definition app_task : tcb_t := set_acl [name "timer"%string ++ List.repeat 0 10 ++ [2]] (set_priority 5 zero_tcb).

Lemma privileged_functions_guarded_witness :
  driver_only 0 SYS_regirq = true /\ msg_allowed [0; 11; 12] app_task 0 6 0 = Ret false EPERM.
Proof.
  split; [done|]. apply (privileged_functions_guarded [0; 11; 12] app_task 0 6 0).
  by left.
Defined.

(** Only as many bytes are compared as the asked group has, so an entry for a
    longer name grants the shorter one: a task in "timer" may set the clock, for
    which "time" is needed. *)
Theorem prefix_grants :
  task_allowed app_task (Some (name "time"%string)) A_WRITE = true /\
  msg_allowed [0; 11; 12] app_task SRV_CORE SYS_stime 0 = Ret true 0.
Proof. split; by vm_compute. Qed.
