(* ===== verification/LibcString.v ===== *)
(** The string library, src/libc/string.c: UTF-8 characters, memory and string
    functions over a byte memory, compiled without the compiler's builtins. *)
From Stdlib Require Import ZArith Lia List.
From stdpp Require Import base option list gmap.
From S2P Require Import Prelude.

Module LibcString.

(** ** Memory

    The mapped bytes by address.  An access to an unmapped byte is undefined
    behaviour, and so is a null pointer, which is never mapped. *)
Notation mem := (gmap Z Z).

Definition load (p : Z) : M mem Z := m <-- get ;; need (m !! p).
Definition store (p v : Z) : M mem unit :=
  m <-- get ;; need (m !! p) ;;; put (<[p := u8 v]> m).

(** [char] is signed on the modelled platform, x86_64. *)
Definition schar (b : Z) : Z := sgn 8 b.

(** Bytes stored one after the other. *)
Fixpoint store_list (p : Z) (l : list Z) : M mem unit :=
  match l with [] => ret tt | b :: l' => store p b ;;; store_list (p + 1) l' end.
Fixpoint load_list (p : Z) (n : nat) : M mem (list Z) :=
  match n with O => ret [] | S n' => b <-- load p ;; l <-- load_list (p + 1) n' ;; ret (b :: l) end.

(** The [n] low bytes of a local variable. *)
Fixpoint bytes_of (n : nat) (x : Z) : list Z :=
  match n with O => [] | S n' => u8 x :: bytes_of n' (Z.shiftr x 8) end.

(** ** UTF-8 *)

(** The sequence of the code point [u], terminated. *)
Definition utf8 (u : Z) : list Z :=
  if u <? 0x80 then [u]
  else if u <? 0x800 then
    [Z.lor (Z.land (Z.shiftr u 6) 0x1F) 0xC0; Z.lor (Z.land u 0x3F) 0x80]
  else if u <? 0x10000 then
    [Z.lor (Z.land (Z.shiftr u 12) 0x0F) 0xE0; Z.lor (Z.land (Z.shiftr u 6) 0x3F) 0x80;
     Z.lor (Z.land u 0x3F) 0x80]
  else
    [Z.lor (Z.land (Z.shiftr u 18) 0x07) 0xF0; Z.lor (Z.land (Z.shiftr u 12) 0x3F) 0x80;
     Z.lor (Z.land (Z.shiftr u 6) 0x3F) 0x80; Z.lor (Z.land u 0x3F) 0x80].

(** [chr(&s, u)]: the new value of [s]. *)
Definition chr (s u : Z) : M mem Z :=
  store_list s (utf8 u ++ [0]) ;;; ret (s + zlen (utf8 u)).

(** [ord(&s)]: the code point and the new value of [s]. *)
Definition ord (s : Z) : M mem (Z * Z) :=
  c <-- load s ;;
  if Z.land c 128 =? 0 then ret (c, s + 1)
  else if Z.land c 32 =? 0 then
    c1 <-- load (s + 1) ;;
    ret (Z.lor (Z.shiftl (Z.land c 0x1F) 6) (Z.land c1 0x3F), s + 2)
  else if Z.land c 16 =? 0 then
    c1 <-- load (s + 1) ;; c2 <-- load (s + 2) ;;
    ret (Z.lor (Z.lor (Z.shiftl (Z.land c 0xF) 12) (Z.shiftl (Z.land c1 0x3F) 6))
               (Z.land c2 0x3F), s + 3)
  else if Z.land c 8 =? 0 then
    c1 <-- load (s + 1) ;; c2 <-- load (s + 2) ;; c3 <-- load (s + 3) ;;
    ret (Z.lor (Z.lor (Z.lor (Z.shiftl (Z.land c 0x7) 18) (Z.shiftl (Z.land c1 0x3F) 12))
                      (Z.shiftl (Z.land c2 0x3F) 6)) (Z.land c3 0x3F), s + 4)
  else ret (0, s + 1).

(** [lo <= c && c <= hi] *)
Definition within (lo hi c : Z) : bool := (lo <=? c) && (c <=? hi).

(** The letters and digits converted by an offset. *)
Definition lower_offset (c : Z) : Z :=
  if within 0x41 0x5A c || within 0xC0 0xDE c || within 0x391 0x3AB c || within 0x410 0x43F c then c + 32
  else if within 0x400 0x40F c then c + 0x50
  else if within 0x530 0x558 c || within 0x10A0 0x10C5 c then c + 0x30
  else if within 0x660 0x669 c then c - (0x660 - 0x30)
  else if within 0x6F0 0x6F9 c then c - (0x6F0 - 0x30)
  else if within 0x7C0 0x7C9 c then c - (0x7C0 - 0x30)
  else if within 0xED0 0xED9 c then c - (0xED0 - 0x30)
  else if within 0xF20 0xF29 c then c - (0x7C0 - 0x30)
  else if within 0x1040 0x1049 c then c - (0x1040 - 0x30)
  else if within 0x1369 0x1372 c then c - (0x1369 - 0x31)
  else if within 0x17E0 0x17E9 c then c - (0x17E0 - 0x30)
  else if within 0x1810 0x1819 c then c - (0x1810 - 0x30)
  else if within 0x19D0 0x19D9 c then c - (0x19D0 - 0x30)
  else if within 0x1A80 0x1A89 c then c - (0x1A80 - 0x30)
  else if within 0x1A90 0x1A99 c then c - (0x1A90 - 0x30)
  else if within 0x1BB0 0x1BB9 c then c - (0x1BB0 - 0x30)
  else if within 0x1C40 0x1C49 c then c - (0x1C40 - 0x30)
  else if within 0x1C50 0x1C59 c then c - (0x1C50 - 0x30)
  else if within 0x3021 0x3029 c then c - (0x3021 - 0x31)
  else c.

(** The [switch] of single cases. *)
Definition lower_case (c : Z) : Z :=
  if c =? 0x178 then 0xFF else if c =? 0x181 then 0x180 else if c =? 0x1F6 then 0x195
  else if c =? 0x1F7 then 0x1BF else if c =? 0x220 then 0x19E else if c =? 0x23D then 0x19A
  else if c =? 0x243 then 0x180 else if c =? 0x3007 then 0x30
  else if (c =? 0x18E) || (c =? 0x18F) then 0x1DD
  else if existsb (Z.eqb c) [0x187; 0x18B; 0x191; 0x198; 0x19D; 0x1A7; 0x1AC; 0x1AF; 0x1B8;
                             0x1BC; 0x1F4; 0x23B; 0x241] then c + 1
  else if (c =? 0x1C4) || (c =? 0x1C5) then 0x1C6
  else if (c =? 0x1C7) || (c =? 0x1C8) then 0x1C9
  else if (c =? 0x1CA) || (c =? 0x1CB) then 0x1CC
  else if (c =? 0x1F1) || (c =? 0x1F2) then 0x1F3
  else c.

(** The lower case variant of a code point. *)
Definition tolower (c0 : Z) : Z :=
  let c := lower_offset c0 in
  if within 0x1F00 0x1FFF c && (7 <? Z.land c 15) then c - 8
  else if (negb (has c 1) &&
       (within 0x100 0x136 c || within 0x14A 0x176 c || within 0x1A0 0x1A4 c || within 0x182 0x184 c ||
        within 0x1DE 0x1EE c || within 0x1F8 0x21E c || within 0x222 0x232 c || within 0x246 0x24E c ||
        within 0x3D8 0x3FA c || within 0x460 0x480 c || within 0x48A 0x4BE c || within 0x4D0 0x524 c ||
        within 0x1E00 0x1EF8 c)) ||
      (has c 1 &&
       (within 0x139 0x147 c || within 0x179 0x17D c || within 0x1B3 0x1B5 c || within 0x1CD 0x1DB c ||
        within 0x4C1 0x4CD c)) then c + 1
  else lower_case c.

(** The sequence packed into a word, first byte lowest. *)
Definition utf8_word (c : Z) : Z :=
  if c <? 0x80 then c
  else if c <? 0x800 then
    Z.lor (Z.shiftl (Z.lor (Z.land c 0x3F) 0x80) 8) (Z.lor (Z.land (Z.shiftr c 6) 0x1F) 0xC0)
  else if c <? 0x10000 then
    Z.lor (Z.lor (Z.shiftl (Z.lor (Z.land c 0x3F) 0x80) 16)
                 (Z.shiftl (Z.lor (Z.land (Z.shiftr c 6) 0x3F) 0x80) 8))
          (Z.lor (Z.land (Z.shiftr c 12) 0x0F) 0xE0)
  else
    Z.lor (Z.lor (Z.lor (Z.shiftl (Z.lor (Z.land c 0x3F) 0x80) 24)
                        (Z.shiftl (Z.lor (Z.land (Z.shiftr c 6) 0x3F) 0x80) 16))
                 (Z.shiftl (Z.lor (Z.land (Z.shiftr c 12) 0x3F) 0x80) 8))
          (Z.lor (Z.land (Z.shiftr c 18) 0x07) 0xF0).

(** [strtolower(&s)]: the packed lower case character and the new value of [s]. *)
Definition strtolower (s : Z) : M mem (Z * Z) :=
  do2 c s' <-- ord s ;; ret (utf8_word (u32 (tolower c)), s').

Section Loops.
(** The number of rounds granted to a loop. *)
Context (fuel : nat).

(** ** Memory blocks *)

(** [memcpy] is assembly, src/libc/x86_64/string.S: bytes in increasing order. *)
Fixpoint memcpy (n : nat) (dst src : Z) : M mem unit :=
  match n with O => ret tt | S n' => b <-- load src ;; store dst b ;;; memcpy n' (dst + 1) (src + 1) end.

(** [while(n-- > 0) *a-- = *b--;] and the final value of [a]. *)
Fixpoint copy_down (n : nat) (a b : Z) : M mem Z :=
  match n with O => ret a | S n' => x <-- load b ;; store a x ;;; copy_down n' (a - 1) (b - 1) end.

Definition memmove (dst src n : Z) : M mem Z :=
  if negb (src =? 0) && negb (dst =? 0) && (0 <? n) then
    if ((dst <? src) && (src <? dst + n)) || ((src <? dst) && (dst <? src + n))
    then copy_down (Z.to_nat n) (dst + n - 1) (src + n - 1)
    else memcpy (Z.to_nat n) dst src ;;; ret dst
  else ret dst.

Definition memchr (s c n : Z) : M mem Z :=
  if negb (s =? 0) && negb (n =? 0) then
    iter fuel (fun p => if p <? s + n then
                          b <-- load p ;; if b =? u8 c then ret (inr p) else ret (inl (p + 1))
                        else ret (inr 0)) s
  else ret 0.

Definition memrchr (s c n : Z) : M mem Z :=
  if negb (s =? 0) && negb (n =? 0) then
    iter fuel (fun e => if s <? e then
                          b <-- load e ;; if b =? u8 c then ret (inr e) else ret (inl (e - 1))
                        else ret (inr 0)) (s + n)
  else ret 0.

(** [!memcmp(a, b, n)] against the bytes [l]; [memcmp] is assembly. *)
Fixpoint same_at (a : Z) (l : list Z) : M mem bool :=
  match l with
  | [] => ret true
  | x :: l' => y <-- load a ;; if x =? y then same_at (a + 1) l' else ret false
  end.

(** The loop of [memmem] from [c] with [hl] positions to try; [test c] is
    [!memcmp(c, needle, nl)]. *)
Definition search_up (test : Z -> M mem bool) (c hl : Z) : M mem Z :=
  iter fuel (fun ch => let (c, hl) := (ch : Z * Z) in
    if hl =? 0 then ret (inr 0) else
    b <-- test c ;; if (b : bool) then ret (inr c) else ret (inl (c + 1, hl - 1))) (c, hl).

(** The loop of [memrmem], downwards. *)
Definition search_down (test : Z -> M mem bool) (c hl : Z) : M mem Z :=
  iter fuel (fun ch => let (c, hl) := (ch : Z * Z) in
    if hl =? 0 then ret (inr 0) else
    b <-- test c ;; if (b : bool) then ret (inr c) else ret (inl (c - 1, hl - 1))) (c, hl).

(** [memmem] and [memrmem] with the bytes of the needle: [needle] is 0 for a null
    pointer. *)
Definition memmem_bytes (haystack hl needle : Z) (l : list Z) : M mem Z :=
  let nl := zlen l in
  if (haystack =? 0) || (needle =? 0) || (hl =? 0) || (nl =? 0) || (hl <? nl) then ret 0
  else search_up (fun c => same_at c l) haystack (hl - nl).
Definition memrmem_bytes (haystack hl needle : Z) (l : list Z) : M mem Z :=
  let nl := zlen l in
  if (haystack =? 0) || (needle =? 0) || (hl =? 0) || (nl =? 0) || (hl <? nl) then ret 0
  else search_down (fun c => same_at c l) (haystack + (hl - nl)) (hl - nl).

Definition memmem (haystack hl needle nl : Z) : M mem Z :=
  if (haystack =? 0) || (needle =? 0) || (hl =? 0) || (nl =? 0) || (hl <? nl) then ret 0 else
  l <-- load_list needle (Z.to_nat nl) ;; memmem_bytes haystack hl needle l.
Definition memrmem (haystack hl needle nl : Z) : M mem Z :=
  if (haystack =? 0) || (needle =? 0) || (hl =? 0) || (nl =? 0) || (hl <? nl) then ret 0 else
  l <-- load_list needle (Z.to_nat nl) ;; memrmem_bytes haystack hl needle l.

(** ** Strings *)

Definition strlen (s : Z) : M mem Z :=
  if s =? 0 then ret 0 else
  iter fuel (fun c => b <-- load (s + c) ;; if b =? 0 then ret (inr c) else ret (inl (c + 1))) 0.

Definition strnlen (s n : Z) : M mem Z :=
  let e := u64 (s + n) in
  if s =? 0 then ret 0 else
  iter fuel (fun c => if s + c <? e then
                        b <-- load (s + c) ;; if b =? 0 then ret (inr c) else ret (inl (c + 1))
                      else ret (inr c)) 0.

(** The bytes a character starting with [b] occupies, less one. *)
Definition mbskip (b : Z) : Z :=
  if Z.land b 128 =? 0 then 0
  else if Z.land b 32 =? 0 then 1
  else if Z.land b 16 =? 0 then 2
  else if Z.land b 8 =? 0 then 3 else 0.

Definition mbstrlen (s : Z) : M mem Z :=
  if s =? 0 then ret 0 else
  iter fuel (fun sc => let (s, c) := (sc : Z * Z) in
    b <-- load s ;; if b =? 0 then ret (inr c) else ret (inl (s + mbskip b + 1, c + 1))) (s, 0).

Definition mbstrnlen (s n : Z) : M mem Z :=
  let e := u64 (s + n) in
  if s =? 0 then ret 0 else
  iter fuel (fun sc => let (s, c) := (sc : Z * Z) in
    if s <? e then
      b <-- load s ;; if b =? 0 then ret (inr c) else ret (inl (s + mbskip b + 1, c + 1))
    else ret (inr c)) (s, 0).

(** The tail [return *s1 - *s2;] *)
Definition diff (s1 s2 : Z) : M mem Z :=
  a <-- load s1 ;; b <-- load s2 ;; ret (schar a - schar b).

Definition strcmp (s1 s2 : Z) : M mem Z :=
  if negb (s1 =? 0) && negb (s2 =? 0) && negb (s1 =? s2) then
    iter fuel (fun i =>
      a <-- load (s1 + i) ;; b <-- load (s2 + i) ;;
      if negb (a =? b) then ret (inr (schar a - schar b)) else
      a' <-- load (s1 + i + 1) ;;
      if negb (a' =? 0) then ret (inl (i + 1)) else
      d <-- diff (s1 + i + 1) (s2 + i + 1) ;; ret (inr d)) 0
  else ret 0.

Definition strncmp (s1 s2 n : Z) : M mem Z :=
  let e := u64 (s1 + n) in
  if negb (s1 =? 0) && negb (s2 =? 0) && negb (s1 =? s2) && (0 <? n) then
    iter fuel (fun i =>
      a <-- load (s1 + i) ;; b <-- load (s2 + i) ;;
      if negb (a =? b) then ret (inr (schar a - schar b)) else
      a' <-- load (s1 + i + 1) ;;
      if negb (a' =? 0) && (s1 + i + 1 <? e) then ret (inl (i + 1)) else
      d <-- diff (s1 + i + 1) (s2 + i + 1) ;; ret (inr d)) 0
  else ret 0.

Definition strcasecmp (s1 s2 : Z) : M mem Z :=
  if negb (s1 =? 0) && negb (s2 =? 0) && negb (s1 =? s2) then
    iter fuel (fun ss => let (s1, s2) := (ss : Z * Z) in
      do2 a s1 <-- strtolower s1 ;; do2 b s2 <-- strtolower s2 ;;
      if negb (a =? b) then ret (inr (s32 (a - b))) else
      x <-- load s1 ;;
      if negb (x =? 0) then ret (inl (s1, s2)) else
      d <-- diff s1 s2 ;; ret (inr d)) (s1, s2)
  else ret 0.

Definition strncasecmp (s1 s2 n : Z) : M mem Z :=
  let e := u64 (s1 + n) in
  if negb (s1 =? 0) && negb (s2 =? 0) && negb (s1 =? s2) && (0 <? n) then
    iter fuel (fun ss => let (s1, s2) := (ss : Z * Z) in
      do2 a s1 <-- strtolower s1 ;; do2 b s2 <-- strtolower s2 ;;
      if negb (a =? b) then ret (inr (s32 (a - b))) else
      if negb (a =? 0) && (s1 <? e) then ret (inl (s1, s2)) else
      d <-- diff s1 s2 ;; ret (inr d)) (s1, s2)
  else ret 0.

(** Copying bytes from [src] to [dst] up to the terminator or to [e], terminating the
    copy, and the final value of [dst]; without bound when [e] is [None]. *)
Definition copy_str (dst src : Z) (e : option Z) : M mem Z :=
  iter fuel (fun ds => let (dst, src) := (ds : Z * Z) in
    b <-- load src ;;
    if negb (b =? 0) && match e with Some e => src <? e | None => true end
    then store dst b ;;; ret (inl (dst + 1, src + 1))
    else store dst 0 ;;; ret (inr dst)) (dst, src).

Definition strcat (dst src : Z) : M mem Z :=
  if negb (src =? 0) && negb (dst =? 0) then l <-- strlen dst ;; copy_str (dst + l) src None
  else ret dst.

Definition strncat (dst src n : Z) : M mem Z :=
  if negb (src =? 0) && negb (dst =? 0) && (0 <? n) then
    l <-- strlen dst ;; copy_str (dst + l) src (Some (u64 (src + n)))
  else ret dst.

Definition strcpy (dst src : Z) : M mem Z :=
  if negb (src =? 0) && negb (dst =? 0) then copy_str dst src None else ret dst.

Definition strncpy (dst src n : Z) : M mem Z :=
  if negb (src =? 0) && negb (dst =? 0) && (0 <? n) then copy_str dst src (Some (u64 (src + n)))
  else ret dst.

(** [strcat(dst, (char * )&l)] for a local word [l] of at most four bytes. *)
Definition strcat_word (dst l : Z) : M mem Z :=
  n <-- strlen dst ;;
  let bs := List.filter (fun b => negb (b =? 0)) (bytes_of 4 l) in
  store_list (dst + n) (bs ++ [0]) ;;; ret (dst + n + zlen bs).

(** The loop of [strcasecpy] and [strcasedup]: it stops at the terminator or at [e]. *)
Definition lower_copy (dst src : Z) (e : option Z) : M mem Z :=
  iter fuel (fun ds => let (dst, src) := (ds : Z * Z) in
    b <-- load src ;;
    if negb (b =? 0) && match e with Some e => src <? e | None => true end then
      do2 l src <-- strtolower src ;; dst <-- strcat_word dst l ;; ret (inl (dst, src))
    else ret (inr dst)) (dst, src).

Definition strcasecpy (dst src : Z) : M mem Z :=
  if negb (src =? 0) && negb (dst =? 0) then lower_copy dst src None else ret dst.

Definition strncasecpy (dst src n : Z) : M mem Z :=
  if negb (src =? 0) && negb (dst =? 0) && (0 <? n) then lower_copy dst src (Some (u64 (src + n)))
  else ret dst.

(** ** Searching *)

(** The length of the sequence whose packed word is [c]. *)
Definition seqlen (c : Z) : nat := Z.to_nat (1 + mbskip (Z.land c 0xFF)).

Definition strchr (s c : Z) : M mem Z :=
  if s =? 0 then ret 0 else l <-- strlen s ;; memmem_bytes s l 1 (bytes_of (seqlen c) c).

(** The loop compares at the fixed place [e] and moves [s] down. *)
Definition strrchr (s c : Z) : M mem Z :=
  if s =? 0 then ret 0 else
  let n := Z.of_nat (seqlen c) in
  l <-- strlen s ;;
  let e := s + l - n in
  iter fuel (fun s => if s <? e then
                        b <-- same_at e (bytes_of (seqlen c) c) ;;
                        if (b : bool) then ret (inr e) else ret (inl (s - 1))
                      else ret (inr 0)) s.

Definition strstr (haystack needle : Z) : M mem Z :=
  hl <-- strlen haystack ;; nl <-- strlen needle ;; memmem haystack hl needle nl.
Definition strrstr (haystack needle : Z) : M mem Z :=
  hl <-- strlen haystack ;; nl <-- strlen needle ;; memrmem haystack hl needle nl.

Definition casetest (needle nl c : Z) : M mem bool := r <-- strncasecmp c needle nl ;; ret (r =? 0).

Definition strcasestr (haystack needle : Z) : M mem Z :=
  hl <-- strlen haystack ;; nl <-- strlen needle ;;
  if (haystack =? 0) || (needle =? 0) || (hl =? 0) || (nl =? 0) || (hl <? nl) then ret 0
  else search_up (casetest needle nl) haystack (hl - nl).
Definition strrcasestr (haystack needle : Z) : M mem Z :=
  hl <-- strlen haystack ;; nl <-- strlen needle ;;
  if (haystack =? 0) || (needle =? 0) || (hl =? 0) || (nl =? 0) || (hl <? nl) then ret 0
  else search_down (casetest needle nl) (haystack + (hl - nl)) (hl - nl).

(** ** Allocating functions

    [malloc] belongs to src/libc/bztalloc.c; it is a parameter here. *)
Section Alloc.
Context (malloc : Z -> M mem Z).

Definition strdup (s : Z) : M mem Z :=
  n <-- strlen s ;; let i := s32 (n + 1) in
  s2 <-- malloc i ;;
  when (negb (s2 =? 0)) (memcpy (Z.to_nat i) s2 s) ;;; ret s2.

Definition strndup (s n : Z) : M mem Z :=
  k <-- strnlen s n ;; let i := s32 k in
  s2 <-- malloc (i + 1) ;;
  when (negb (s2 =? 0)) (memcpy (Z.to_nat i) s2 s ;;; store (s2 + i) 0) ;;; ret s2.

Definition strcasedup (s : Z) : M mem Z :=
  n <-- strlen s ;;
  s2 <-- malloc (s32 (n + 1)) ;;
  if s2 =? 0 then ret s2 else lower_copy s2 s None ;;; ret s2.

(** The bound only sizes the buffer. *)
Definition strncasedup (s n : Z) : M mem Z :=
  k <-- strnlen s n ;;
  s2 <-- malloc (s32 (k + 1)) ;;
  if s2 =? 0 then ret s2 else lower_copy s2 s None ;;; ret s2.

(** [for(i = e; i > lim && s[i - off] != '/'; i--);] *)
Definition slash_down (s lim off e : Z) : M mem Z :=
  iter fuel (fun i => if lim <? i then
                        b <-- load (s + i - off) ;;
                        if b =? 47 then ret (inr i) else ret (inl (i - 1))
                      else ret (inr i)) e.

(** [e = strlen(s) - 1; if(s[e] == '/') e--;] *)
Definition last_index (s : Z) : M mem Z :=
  n <-- strlen s ;; b <-- load (s + n - 1) ;;
  ret (if b =? 47 then n - 2 else n - 1).

Definition basename (s : Z) : M mem Z :=
  if s =? 0 then ret 0 else
  e <-- last_index s ;;
  i <-- slash_down s 1 1 e ;;
  if i =? e then ret 0 else
  r <-- malloc (e - i + 1) ;; memcpy (Z.to_nat (e - i)) r (s + i) ;;; ret r.

Definition dirname (s : Z) : M mem Z :=
  if s =? 0 then ret 0 else
  e <-- last_index s ;;
  i <-- slash_down s 0 0 e ;;
  if (i =? e) || (i =? 0) then ret 0 else
  r <-- malloc i ;; memcpy (Z.to_nat (i - 1)) r s ;;; ret r.

End Alloc.

(** ** Tokens *)

(** [c] is one of the delimiters at [d], the terminator not counted. *)
Definition is_delim (d c : Z) : M mem bool :=
  iter fuel (fun sp => x <-- load sp ;;
                       if x =? 0 then ret (inr false)
                       else if c =? x then ret (inr true) else ret (inl (sp + 1))) d.

(** Scanning the token from [s] to its end: the new value of the saved pointer. *)
Definition token_end (d s : Z) : M mem Z :=
  iter fuel (fun s =>
    c <-- load s ;; isd <-- is_delim d c ;;
    if (isd : bool) then store s 0 ;;; ret (inr (s + 1))
    else if c =? 0 then ret (inr 0) else ret (inl (s + 1))) s.

(** [_strtok_r(s, d, &p, skip)]: the token and the new value of [p]. *)
Definition _strtok_r (s d p : Z) (skip : bool) : M mem (Z * Z) :=
  if d =? 0 then ret (0, p) else
  let s := if s =? 0 then p else s in
  if s =? 0 then ret (0, p) else
  iter fuel (fun s =>
    c <-- load s ;; isd <-- is_delim d c ;;
    if (isd : bool) then
      if skip then ret (inl (s + 1)) else store s 0 ;;; ret (inr (s, s + 1))
    else if c =? 0 then ret (inr (0, 0))
    else p' <-- token_end d (s + 1) ;; ret (inr (s, p'))) s.

Definition strtok (s delim : Z) : M mem Z := do2 t p <-- _strtok_r s delim s true ;; ret t.
Definition strtok_r (s delim p : Z) : M mem (Z * Z) := _strtok_r s delim p true.
Definition strsep (stringp delim : Z) : M mem (Z * Z) := _strtok_r stringp delim stringp false.

End Loops.
End LibcString.
