(* ===== verification/LibcStringFacts.v ===== *)
(** Correctness of the string library of LibcString.v: UTF-8 encoding and decoding,
    block moves, lengths, comparison, search and copies on mapped memory. *)
From Stdlib Require Import ZArith Lia List.
From stdpp Require Import base option list gmap.
From S2P Require Import Prelude LibcString.
Import LibcString.

(** ** Memory contents *)

Fixpoint bytes_at (m : mem) (p : Z) (l : list Z) : Prop :=
  match l with [] => True | b :: l' => m !! p = Some b /\ bytes_at m (p + 1) l' end.

(** [n] bytes from [p] can be written. *)
Definition mapped (m : mem) (p n : Z) : Prop := forall a, p <= a < p + n -> is_Some (m !! a).

Definition is_byte (b : Z) : Prop := 0 <= b < 256.

(** The string [l] with its terminator at [p]. *)
Definition cstr (m : mem) (p : Z) (l : list Z) : Prop :=
  bytes_at m p (l ++ [0]) /\ Forall (fun b => 0 < b < 256) l.

Lemma bytes_at_get m p l i b : bytes_at m p l -> zget l i = Some b -> m !! (p + i) = Some b.
Proof.
  revert p i. induction l as [|x l IH]; intros p i Hl Hi; [by apply zget_Some_lt in Hi; unfold zlen in Hi; simpl in Hi; lia|].
  destruct Hl as [Hx Hl]. pose proof (zget_Some_lt _ _ _ Hi) as Hr.
  destruct (Z.eq_dec i 0) as [->|].
  - injection Hi as <-. by rewrite Z.add_0_r.
  - rewrite zget_cons_S in Hi by lia. specialize (IH (p + 1) (i - 1) Hl Hi).
    by replace (p + i) with (p + 1 + (i - 1)) by lia.
Qed.

Lemma bytes_at_app m p l k : bytes_at m p (l ++ k) <-> bytes_at m p l /\ bytes_at m (p + zlen l) k.
Proof.
  revert p. induction l as [|b l IH]; intros p; simpl.
  - unfold zlen. simpl. rewrite Z.add_0_r. tauto.
  - rewrite IH, zlen_cons. replace (p + 1 + zlen l) with (p + (1 + zlen l)) by lia. tauto.
Qed.

Lemma bytes_at_insert m p l a v : a < p \/ p + zlen l <= a -> bytes_at m p l -> bytes_at (<[a := v]> m) p l.
Proof.
  revert p. induction l as [|b l IH]; intros p Ha; simpl; [done|]. rewrite zlen_cons in Ha.
  pose proof (zlen_nonneg l). intros [Hb Hl]. split; [rewrite lookup_insert_ne by lia; done|].
  apply IH; [lia|done].
Qed.

Lemma mapped_insert m p n a v : mapped m p n -> mapped (<[a := v]> m) p n.
Proof.
  intros H b Hb. destruct (decide (a = b)) as [->|]; [rewrite lookup_insert_eq; done|].
  rewrite lookup_insert_ne by done. by apply H.
Qed.

Lemma wp_load p b (Q : Z -> mem -> Prop) m : m !! p = Some b -> Q b m -> wp (load p) Q m.
Proof. unfold wp, load, bind, get, need. by intros ->. Qed.

Lemma wp_store p v (Q : unit -> mem -> Prop) m :
  is_Some (m !! p) -> Q tt (<[p := u8 v]> m) -> wp (store p v) Q m.
Proof. unfold wp, store, bind, get, need. by intros [b ->]. Qed.

Lemma u8_byte b : is_byte b -> u8 b = b.
Proof. intros H. apply (wrap_small 8). exact H. Qed.

(** Storing bytes puts them in place and changes nothing else. *)
Lemma wp_store_list l p (Q : unit -> mem -> Prop) m :
  mapped m p (zlen l) -> Forall is_byte l ->
  (forall m', bytes_at m' p l -> (forall a, a < p \/ p + zlen l <= a -> m' !! a = m !! a) -> Q tt m') ->
  wp (store_list p l) Q m.
Proof.
  revert p m Q. induction l as [|b l IH]; intros p m Q Hm Hb HQ; simpl.
  - apply wp_ret. by apply HQ.
  - apply Forall_cons in Hb as [Hb Hl]. rewrite zlen_cons in Hm. pose proof (zlen_nonneg l).
    wp_step. apply wp_store; [apply Hm; lia|]. rewrite u8_byte by done. apply IH; [|done|].
    + apply mapped_insert. intros a Ha. apply Hm. lia.
    + intros m' Hb' Hfr. apply HQ.
      * split; [|done]. rewrite Hfr by lia. apply lookup_insert_eq.
      * rewrite zlen_cons. intros a Ha. rewrite Hfr by lia. apply lookup_insert_ne. lia.
Qed.

(** ** UTF-8 *)

Lemma below (n : nat) (P : Z -> bool) :
  forallb P (List.map Z.of_nat (List.seq 0 n)) = true -> forall c, 0 <= c < Z.of_nat n -> P c = true.
Proof.
  intros H c Hc. rewrite forallb_forall in H. apply H. apply in_map_iff.
  exists (Z.to_nat c). split; [lia|]. apply in_seq. lia.
Qed.

Definition lead_ok (k mask : Z) (a : Z) : bool :=
  let c := Z.lor a k in
  (Z.land c mask =? a) && (u8 c =? c) && (0 <=? c) && (c <? 256).

Lemma lead2 a : 0 <= a < 32 ->
  let c := Z.lor a 0xC0 in
  is_byte c /\ Z.land c 128 <> 0 /\ Z.land c 32 = 0 /\ Z.land c 0x1F = a.
Proof.
  intros Ha c. pose proof (below 32 (fun a => let c := Z.lor a 0xC0 in
    (0 <=? c) && (c <? 256) && negb (Z.land c 128 =? 0) && (Z.land c 32 =? 0) && (Z.land c 0x1F =? a))
    eq_refl a Ha) as H. unfold is_byte. cbv beta zeta in H. fold c in H. lia.
Qed.

Lemma lead3 a : 0 <= a < 16 ->
  let c := Z.lor a 0xE0 in
  is_byte c /\ Z.land c 128 <> 0 /\ Z.land c 32 <> 0 /\ Z.land c 16 = 0 /\ Z.land c 0xF = a.
Proof.
  intros Ha c. pose proof (below 16 (fun a => let c := Z.lor a 0xE0 in
    (0 <=? c) && (c <? 256) && negb (Z.land c 128 =? 0) && negb (Z.land c 32 =? 0) &&
    (Z.land c 16 =? 0) && (Z.land c 0xF =? a)) eq_refl a Ha) as H.
  unfold is_byte. cbv beta zeta in H. fold c in H. lia.
Qed.

Lemma lead4 a : 0 <= a < 8 ->
  let c := Z.lor a 0xF0 in
  is_byte c /\ Z.land c 128 <> 0 /\ Z.land c 32 <> 0 /\ Z.land c 16 <> 0 /\ Z.land c 8 = 0 /\
  Z.land c 0x7 = a.
Proof.
  intros Ha c. pose proof (below 8 (fun a => let c := Z.lor a 0xF0 in
    (0 <=? c) && (c <? 256) && negb (Z.land c 128 =? 0) && negb (Z.land c 32 =? 0) &&
    negb (Z.land c 16 =? 0) && (Z.land c 8 =? 0) && (Z.land c 0x7 =? a)) eq_refl a Ha) as H.
  unfold is_byte. cbv beta zeta in H. fold c in H. lia.
Qed.

Lemma cont a : 0 <= a < 64 -> is_byte (Z.lor a 0x80) /\ Z.land (Z.lor a 0x80) 0x3F = a.
Proof.
  intros Ha. pose proof (below 64 (fun a => let c := Z.lor a 0x80 in
    (0 <=? c) && (c <? 256) && (Z.land c 0x3F =? a)) eq_refl a Ha) as H.
  unfold is_byte. cbv beta zeta in H. lia.
Qed.

Lemma ascii a : 0 <= a < 128 -> Z.land a 128 = 0.
Proof.
  intros Ha. pose proof (below 128 (fun a => Z.land a 128 =? 0) eq_refl a Ha) as H.
  cbv beta in H. lia.
Qed.

(** Low bits, shifts and disjoint unions as arithmetic. *)
Lemma land_low x k : 0 <= k -> Z.land x (2 ^ k - 1) = x mod 2 ^ k.
Proof. intros. by rewrite <- Z.land_ones, Z.ones_equiv, Z.sub_1_r. Qed.

Lemma lor_high k a b : 0 <= k -> 0 <= b < 2 ^ k -> Z.lor (Z.shiftl a k) b = a * 2 ^ k + b.
Proof.
  intros Hk Hb. rewrite <- Z.shiftl_mul_pow2 by done. rewrite <- Z.add_lor_land.
  assert (Z.land (Z.shiftl a k) b = 0) as ->; [|lia].
  apply Z.bits_inj'. intros n Hn. rewrite Z.land_spec, Z.bits_0.
  destruct (Z.lt_ge_cases n k).
  - by rewrite Z.shiftl_spec_low.
  - replace (Z.testbit b n) with false; [apply andb_false_r|].
    symmetry. destruct (Z.eq_dec b 0) as [->|]; [apply Z.bits_0|].
    apply Z.bits_above_log2; [lia|]. apply Z.log2_lt_pow2; [lia|].
    apply Z.lt_le_trans with (2 ^ k); [lia|]. apply Z.pow_le_mono_r; lia.
Qed.

Definition low6 (x : Z) : Z := Z.land x 0x3F.

Lemma low6_bound x : 0 <= low6 x < 64.
Proof. unfold low6. change 0x3F with (2 ^ 6 - 1). rewrite land_low by lia. apply Z.mod_pos_bound. lia. Qed.

(** The parts of a code point put together again. *)
Lemma join2 u : 0 <= u < 0x800 ->
  let a := Z.land (Z.shiftr u 6) 0x1F in
  0 <= a < 32 /\ Z.lor (Z.shiftl a 6) (low6 u) = u.
Proof.
  intros Hu a. assert (Ha : a = u / 64).
  { unfold a. change 0x1F with (2 ^ 5 - 1). rewrite land_low, Z.shiftr_div_pow2 by lia.
    apply Z.mod_small. split; [apply Z.div_pos; lia|apply Z.div_lt_upper_bound; lia]. }
  split; [rewrite Ha; split; [apply Z.div_pos; lia|apply Z.div_lt_upper_bound; lia]|].
  rewrite lor_high by (apply low6_bound || lia). unfold low6. change 0x3F with (2 ^ 6 - 1).
  rewrite land_low, Ha by lia. change (2 ^ 6) with 64. pose proof (Z.div_mod u 64). lia.
Qed.

Lemma shift_low6 u k : 0 <= k -> 0 <= u ->
  Z.lor (Z.shiftl (Z.shiftr u (k + 6)) (k + 6)) (Z.shiftl (low6 (Z.shiftr u k)) k)
  = Z.shiftl (Z.shiftr u k) k.
Proof.
  intros Hk Hu. unfold low6. apply Z.bits_inj'. intros n Hn. change 0x3F with (Z.ones 6).
  rewrite Z.lor_spec. destruct (Z.lt_ge_cases n k) as [H1|H1].
  - by rewrite !Z.shiftl_spec_low by lia.
  - rewrite (Z.shiftl_spec _ k) by lia. rewrite (Z.shiftl_spec (Z.shiftr u k) k) by lia.
    rewrite Z.land_spec, Z.shiftr_spec by lia. replace (n - k + k) with n by lia.
    destruct (Z.lt_ge_cases n (k + 6)) as [H2|H2].
    + rewrite Z.shiftl_spec_low, Z.ones_spec_low by lia. by rewrite andb_true_r.
    + rewrite Z.shiftl_spec, Z.shiftr_spec, Z.ones_spec_high by lia.
      rewrite andb_false_r, orb_false_r. f_equal. lia.
Qed.

Lemma top_bits u k w : 0 <= k -> 0 <= w -> 0 <= u < 2 ^ (k + w) ->
  Z.land (Z.shiftr u k) (2 ^ w - 1) = Z.shiftr u k /\ 0 <= Z.shiftr u k < 2 ^ w.
Proof.
  intros Hk Hw Hu. rewrite land_low, Z.shiftr_div_pow2 by lia.
  assert (0 <= u / 2 ^ k < 2 ^ w).
  { split; [apply Z.div_pos; lia|]. apply Z.div_lt_upper_bound; [lia|].
    rewrite <- Z.pow_add_r by lia; lia. }
  split; [by apply Z.mod_small|done].
Qed.

Lemma join3 u : 0 <= u < 0x10000 ->
  let a := Z.land (Z.shiftr u 12) 0xF in
  0 <= a < 16 /\
  Z.lor (Z.lor (Z.shiftl a 12) (Z.shiftl (low6 (Z.shiftr u 6)) 6)) (low6 u) = u.
Proof.
  intros Hu a. destruct (top_bits u 12 4) as [E B]; [lia..|]. unfold a. change 0xF with (2 ^ 4 - 1).
  rewrite E. split; [exact B|]. pose proof (shift_low6 u 6 ltac:(lia) ltac:(lia)) as H6.
  pose proof (shift_low6 u 0 ltac:(lia) ltac:(lia)) as H0. change (6 + 6) with 12 in H6.
  rewrite H6. by rewrite !Z.shiftl_0_r, !Z.shiftr_0_r in H0.
Qed.

Lemma join4 u : 0 <= u < 0x200000 ->
  let a := Z.land (Z.shiftr u 18) 0x7 in
  0 <= a < 8 /\
  Z.lor (Z.lor (Z.lor (Z.shiftl a 18) (Z.shiftl (low6 (Z.shiftr u 12)) 12))
               (Z.shiftl (low6 (Z.shiftr u 6)) 6)) (low6 u) = u.
Proof.
  intros Hu a. destruct (top_bits u 18 3) as [E B]; [lia..|]. unfold a. change 0x7 with (2 ^ 3 - 1).
  rewrite E. split; [exact B|]. pose proof (shift_low6 u 12 ltac:(lia) ltac:(lia)) as H12.
  pose proof (shift_low6 u 6 ltac:(lia) ltac:(lia)) as H6.
  pose proof (shift_low6 u 0 ltac:(lia) ltac:(lia)) as H0.
  change (12 + 6) with 18 in H12. change (6 + 6) with 12 in H6.
  rewrite H12, H6. by rewrite !Z.shiftl_0_r, !Z.shiftr_0_r in H0.
Qed.

(** [ord] reads the sequence of [u] as [u]. *)
Lemma wp_ord u s (Q : Z * Z -> mem -> Prop) m :
  0 <= u < 0x200000 -> bytes_at m s (utf8 u) -> Q (u, s + zlen (utf8 u)) m -> wp (ord s) Q m.
Proof.
  intros Hu Hb HQ. unfold utf8 in *. fold (low6 u) (low6 (Z.shiftr u 6)) (low6 (Z.shiftr u 12)) in *.
  pose proof (cont _ (low6_bound u)) as [_ C0].
  pose proof (cont _ (low6_bound (Z.shiftr u 6))) as [_ C1].
  pose proof (cont _ (low6_bound (Z.shiftr u 12))) as [_ C2].
  unfold ord. destruct (Z.ltb_spec u 0x80).
  { destruct Hb as [Hb _]. wp_step. eapply wp_load; [done|]. rewrite ascii by lia. by apply wp_ret. }
  destruct (Z.ltb_spec u 0x800).
  { destruct (join2 u ltac:(lia)) as [Ha HJ]. destruct (lead2 _ Ha) as (_&L1&L2&L3).
    destruct Hb as (Hb0&Hb1&_). wp_step. eapply wp_load; [done|].
    apply Z.eqb_neq in L1. apply Z.eqb_eq in L2. rewrite L1, L2.
    wp_step. eapply wp_load; [done|]. apply wp_ret. by rewrite L3, C0, HJ. }
  destruct (Z.ltb_spec u 0x10000).
  { destruct (join3 u ltac:(lia)) as [Ha HJ]. destruct (lead3 _ Ha) as (_&L1&L2&L3&L4).
    destruct Hb as (Hb0&Hb1&Hb2&_). rewrite <- Z.add_assoc in Hb2. wp_step. eapply wp_load; [done|].
    apply Z.eqb_neq in L1, L2. apply Z.eqb_eq in L3. rewrite L1, L2, L3.
    wp_step. eapply wp_load; [done|]. wp_step. eapply wp_load; [done|]. apply wp_ret.
    by rewrite L4, C0, C1, HJ. }
  destruct (join4 u ltac:(lia)) as [Ha HJ]. destruct (lead4 _ Ha) as (_&L1&L2&L3&L4&L5).
  destruct Hb as (Hb0&Hb1&Hb2&Hb3&_). rewrite <- Z.add_assoc in Hb2, Hb3. rewrite <- Z.add_assoc in Hb3.
  wp_step. eapply wp_load; [done|]. apply Z.eqb_neq in L1, L2, L3. apply Z.eqb_eq in L4.
  rewrite L1, L2, L3, L4. do 3 (wp_step; eapply wp_load; [done|]). apply wp_ret.
  by rewrite L5, C0, C1, C2, HJ.
Qed.

Lemma utf8_bytes u : 0 <= u < 0x200000 -> Forall is_byte (utf8 u) /\ 1 <= zlen (utf8 u) <= 4.
Proof.
  intros Hu. unfold utf8. fold (low6 u) (low6 (Z.shiftr u 6)) (low6 (Z.shiftr u 12)).
  pose proof (cont _ (low6_bound u)) as [C0 _].
  pose proof (cont _ (low6_bound (Z.shiftr u 6))) as [C1 _].
  pose proof (cont _ (low6_bound (Z.shiftr u 12))) as [C2 _].
  destruct (Z.ltb_spec u 0x80); [|destruct (Z.ltb_spec u 0x800); [|destruct (Z.ltb_spec u 0x10000)]].
  - split; [|by vm_compute]. apply Forall_cons_2; [unfold is_byte; lia|done].
  - destruct (lead2 _ (proj1 (join2 u ltac:(lia)))) as (L&_).
    split; [by repeat apply Forall_cons_2|by vm_compute].
  - destruct (lead3 _ (proj1 (join3 u ltac:(lia)))) as (L&_).
    split; [by repeat apply Forall_cons_2|by vm_compute].
  - destruct (lead4 _ (proj1 (join4 u ltac:(lia)))) as (L&_).
    split; [by repeat apply Forall_cons_2|by vm_compute].
Qed.

(** decoding what [chr] wrote gives back the code point and the position behind
    it, for every code point of up to 21 bits. *)
Theorem chr_ord u s m :
  0 <= u < 0x200000 -> mapped m s 5 ->
  wp (s' <-- chr s u ;; cs <-- ord s ;; ret (s', cs))
     (fun r _ => exists s', r = (s', (u, s')) /\ s < s' <= s + 4) m.
Proof.
  intros Hu Hm. destruct (utf8_bytes u Hu) as [Hb Hl]. unfold chr. wp_step. wp_step.
  assert (Hlen : zlen (utf8 u ++ [0]) = zlen (utf8 u) + 1) by (by rewrite zlen_app).
  apply wp_store_list.
  - intros a Ha. apply Hm. lia.
  - apply Forall_app. split; [done|]. by apply Forall_cons_2.
  - intros m' Hm' _. apply bytes_at_app in Hm' as [Hm' _]. wp_step. wp_step.
    eapply wp_ord; [done|done|]. wp_step. eexists. split; [done|lia].
Qed.

Definition page (p n : Z) : mem :=
  list_to_map (List.map (fun i => (p + Z.of_nat i, 0)) (List.seq 0 (Z.to_nat n))).

Lemma chr_ord_witness :
  wp (s' <-- chr 64 0x20AC ;; cs <-- ord 64 ;; ret (s', cs))
     (fun r _ => exists s', r = (s', (0x20AC, s')) /\ 64 < s' <= 64 + 4) (page 64 8).
Proof.
  apply chr_ord; [lia|]. intros a Ha.
  assert (Hc : a = 64 \/ a = 65 \/ a = 66 \/ a = 67 \/ a = 68) by lia.
  destruct Hc as [->|[->|[-> |[-> | ->]]]]; vm_compute; eexists; reflexivity.
Defined.

(** ** Block moves *)

(** Copying upwards is right when the destination is not inside the source's tail. *)
Lemma wp_memcpy l dst src (Q : unit -> mem -> Prop) m :
  dst <= src \/ src + zlen l <= dst ->
  bytes_at m src l -> Forall is_byte l -> mapped m dst (zlen l) ->
  (forall m', bytes_at m' dst l -> (forall a, a < dst \/ dst + zlen l <= a -> m' !! a = m !! a) -> Q tt m') ->
  wp (memcpy (length l) dst src) Q m.
Proof.
  revert dst src m Q. induction l as [|b l IH]; intros dst src m Q Hd Hl Hb Hm HQ; simpl.
  - apply wp_ret. by apply HQ.
  - destruct Hl as [Hx Hl]. apply Forall_cons in Hb as [Hb Hbl]. rewrite zlen_cons in *.
    pose proof (zlen_nonneg l). wp_step. eapply wp_load; [done|]. wp_step.
    apply wp_store; [apply Hm; lia|]. rewrite u8_byte by done. apply IH.
    + lia.
    + apply bytes_at_insert; [lia|done].
    + done.
    + apply mapped_insert. intros a Ha. apply Hm. lia.
    + intros m' Hb' Hfr. apply HQ.
      * split; [|done]. rewrite Hfr by lia. apply lookup_insert_eq.
      * intros a Ha. rewrite Hfr by lia. apply lookup_insert_ne. lia.
Qed.

(** Copying downwards is right when the source is not inside the destination's tail. *)
Lemma wp_copy_down l dst src (Q : Z -> mem -> Prop) m :
  src <= dst \/ dst + zlen l <= src ->
  bytes_at m src l -> Forall is_byte l -> mapped m dst (zlen l) ->
  (forall m', bytes_at m' dst l -> (forall a, a < dst \/ dst + zlen l <= a -> m' !! a = m !! a) ->
     Q (dst - 1) m') ->
  wp (copy_down (length l) (dst + zlen l - 1) (src + zlen l - 1)) Q m.
Proof.
  revert m Q. induction l as [|b l IH] using rev_ind; intros m Q Hd Hl Hb Hm HQ.
  - apply wp_ret. change (zlen []) with 0. rewrite Z.add_0_r. by apply HQ.
  - apply bytes_at_app in Hl as [Hl [Hx _]]. apply Forall_app in Hb as [Hbl Hb].
    apply Forall_cons in Hb as [Hb _].
    assert (Hlen : zlen (l ++ [b]) = zlen l + 1) by (by rewrite zlen_app). rewrite Hlen in *.
    pose proof (zlen_nonneg l). rewrite length_app. simpl. rewrite Nat.add_1_r. simpl.
    replace (src + (zlen l + 1) - 1) with (src + zlen l) by lia.
    replace (dst + (zlen l + 1) - 1) with (dst + zlen l) by lia.
    wp_step. eapply wp_load; [done|]. wp_step. apply wp_store; [apply Hm; lia|].
    rewrite u8_byte by done. apply IH.
    + lia.
    + apply bytes_at_insert; [lia|done].
    + done.
    + apply mapped_insert. intros a Ha. apply Hm. lia.
    + intros m' Hb' Hfr. apply HQ.
      * apply bytes_at_app. split; [done|]. split; [|done]. rewrite Hfr by lia. apply lookup_insert_eq.
      * intros a Ha. rewrite Hfr by lia. apply lookup_insert_ne. lia.
Qed.

(** unless the destination starts below an overlapping source, [memmove] puts the
    bytes the source had into the destination and changes nothing else. *)
Theorem memmove_ok l dst src m :
  src <> 0 -> dst <> 0 -> l <> [] -> ~ (dst < src < dst + zlen l) ->
  bytes_at m src l -> Forall is_byte l -> mapped m dst (zlen l) ->
  wp (memmove dst src (zlen l))
     (fun _ m' => bytes_at m' dst l /\
        forall a, a < dst \/ dst + zlen l <= a -> m' !! a = m !! a) m.
Proof.
  intros Hs Hd Hne Hov Hl Hb Hm. unfold memmove.
  assert (0 < zlen l) by (destruct l; [done|rewrite zlen_cons; pose proof (zlen_nonneg l); lia]).
  replace (negb (src =? 0) && negb (dst =? 0) && (0 <? zlen l)) with true by lia.
  assert (Hn : Z.to_nat (zlen l) = length l) by (unfold zlen; lia). rewrite Hn.
  destruct ((dst <? src) && (src <? dst + zlen l) || (src <? dst) && (dst <? src + zlen l)) eqn:E.
  - apply wp_copy_down; try done. lia.
  - wp_step. apply wp_memcpy; [lia|done..|]. intros m' H1 H2. by apply wp_ret.
Qed.

(** Three bytes, and what [memmove] makes of them. *)
Definition three : mem := list_to_map [(100, 1); (101, 2); (102, 3)].

Lemma memmove_ok_witness :
  wp (memmove 101 100 2)
     (fun _ m' => bytes_at m' 101 [1; 2] /\ forall a, a < 101 \/ 103 <= a -> m' !! a = three !! a) three.
Proof.
  apply (memmove_ok [1; 2] 101 100 three); [done|done|done|lia|by vm_compute| |].
  - repeat apply Forall_cons_2; try apply Forall_nil_2; unfold is_byte; lia.
  - intros a Ha. change (zlen [1; 2]) with 2 in Ha. assert (Hc : a = 101 \/ a = 102) by lia.
    destruct Hc as [-> | ->]; vm_compute; eexists; reflexivity.
Defined.

(** Moving bytes down over themselves goes wrong, since the overlapping case is
    always copied downwards: the two bytes 2, 3 become 3, 3, and the result is the
    address below the destination. *)
Theorem memmove_down_corrupts :
  exists m', memmove 100 101 2 three = Ret 99 m' /\ bytes_at m' 100 [3; 3] /\ ~ bytes_at m' 100 [2; 3].
Proof. eexists. split; [reflexivity|]. split; [by split_and!|]. intros [H _]. vm_compute in H. congruence. Qed.

(** ** Lengths *)

Lemma cstr_get m p l i : cstr m p l -> 0 <= i <= zlen l -> exists b, m !! (p + i) = Some b /\
  (b = 0 <-> i = zlen l) /\ 0 <= b < 256 /\ zget (l ++ [0]) i = Some b.
Proof.
  intros [Hb Hl] Hi. destruct (Z.eq_dec i (zlen l)) as [->|].
  - exists 0. assert (Hz : zget (l ++ [0]) (zlen l) = Some 0) by (rewrite zget_app_r by lia; by rewrite Z.sub_diag).
    split_and!; try lia; [by eapply bytes_at_get|done].
  - destruct (zget_is_Some l i) as [b Hg]; [lia|].
    assert (Hz : zget (l ++ [0]) i = Some b) by (by rewrite zget_app_l by lia).
    rewrite Forall_forall in Hl. assert (0 < b < 256) by (apply Hl, list_elem_of_In; by eapply zget_In).
    exists b. split_and!; try lia; [by eapply bytes_at_get|done].
Qed.

Lemma wp_strlen fuel p l (Q : Z -> mem -> Prop) m :
  p <> 0 -> cstr m p l -> (length l < fuel)%nat -> Q (zlen l) m -> wp (strlen fuel p) Q m.
Proof.
  intros Hp Hc Hf HQ. unfold strlen. rewrite (proj2 (Z.eqb_neq _ _)) by done.
  apply (wp_iter (fun c m' => m' = m /\ 0 <= c <= zlen l) (fun c _ => Z.to_nat (zlen l - c)));
    [|split; [done|]; pose proof (zlen_nonneg l); lia|unfold zlen; lia].
  intros c m' (->&Hi). destruct (cstr_get m p l c Hc Hi) as (b&Hb&Hz&_).
  wp_step. eapply wp_load; [done|]. destruct (Z.eqb_spec b 0) as [->|]; wp_step.
  - by rewrite (proj1 Hz eq_refl).
  - assert (c <> zlen l) by (intros ?; tauto). split; [split; [done|lia]|lia].
Qed.

(** ** Comparison *)

Lemma schar_inj a b : 0 <= a < 256 -> 0 <= b < 256 -> schar a - schar b = 0 -> a = b.
Proof.
  unfold schar, sgn, wrap. intros Ha Hb. rewrite !Z.mod_small by (change (2 ^ 8) with 256; lia).
  change (2 ^ (8 - 1)) with 128. change (2 ^ 8) with 256. repeat case_match; lia.
Qed.

(** on two strings of which the first is not empty, [strcmp] reads nothing behind
    their terminators, ends, and answers 0 exactly when they are equal. *)
Theorem strcmp_ok fuel p q l k m :
  p <> 0 -> q <> 0 -> p <> q -> cstr m p l -> cstr m q k -> l <> [] -> (length l < fuel)%nat ->
  wp (strcmp fuel p q) (fun r m' => m' = m /\ (r = 0 <-> l = k)) m.
Proof.
  intros Hp Hq Hpq Hl Hk Hne Hf. unfold strcmp.
  replace (negb (p =? 0) && negb (q =? 0) && negb (p =? q)) with true by lia.
  assert (0 < zlen l) by (destruct l; [done|rewrite zlen_cons; pose proof (zlen_nonneg l); lia]).
  pose proof (zlen_nonneg k).
  assert (Hdiff : forall i a b, zget (l ++ [0]) i = Some a -> zget (k ++ [0]) i = Some b ->
            0 <= a < 256 -> 0 <= b < 256 -> a <> b -> (schar a - schar b = 0 <-> l = k)).
  { intros i a b Ha Hb Hra Hrb Hab. split; [intros E; by apply schar_inj in E|].
    intros ->. rewrite Ha in Hb. congruence. }
  apply (wp_iter (fun i m' => m' = m /\ 0 <= i < zlen l /\ i <= zlen k /\
           forall j, 0 <= j < i -> zget l j = zget k j) (fun i _ => Z.to_nat (zlen l - i)));
    [|split_and!; try done; intros; lia|unfold zlen; lia].
  intros i m' (->&Hi&Hik&Heq). 
  destruct (cstr_get m p l i Hl ltac:(lia)) as (a&Ha&Hza&Hra&Hga).
  destruct (cstr_get m q k i Hk ltac:(lia)) as (b&Hb&Hzb&Hrb&Hgb).
  wp_step. eapply wp_load; [done|]. wp_step. eapply wp_load; [done|].
  destruct (Z.eqb_spec a b) as [->|Hab]; simpl.
  2:{ apply wp_ret. split; [done|]. by eapply Hdiff. }
  assert (Hik' : i < zlen k) by (destruct (Z.eq_dec i (zlen k)) as [E|]; [apply Hzb in E; lia|lia]).
  assert (Heq' : forall j, 0 <= j < i + 1 -> zget l j = zget k j).
  { intros j Hj. destruct (Z.eq_dec j i) as [->|]; [|apply Heq; lia].
    rewrite zget_app_l in Hga by lia. rewrite zget_app_l in Hgb by lia. congruence. }
  destruct (cstr_get m p l (i + 1) Hl ltac:(lia)) as (a'&Ha'&Hza'&Hra'&Hga').
  destruct (cstr_get m q k (i + 1) Hk ltac:(lia)) as (b'&Hb'&Hzb'&Hrb'&Hgb').
  rewrite Z.add_assoc in Ha', Hb'.
  wp_step. eapply wp_load; [done|]. destruct (Z.eqb_spec a' 0) as [->|Hz]; simpl.
  - unfold diff. wp_step. wp_step. eapply wp_load; [done|]. wp_step. eapply wp_load; [done|].
    wp_step. wp_step. split; [done|]. destruct (Z.eq_dec b' 0) as [->|]; [|eapply Hdiff; [exact Hga'|exact Hgb'|lia..]].
    split; [intros _|done]. apply zget_ext. intros j Hj.
    pose proof (proj1 Hza' eq_refl). pose proof (proj1 Hzb' eq_refl).
    destruct (Z.lt_ge_cases j (i + 1)); [by apply Heq'|].
    destruct (zget l j) eqn:E1; [apply zget_Some_lt in E1; lia|].
    destruct (zget k j) eqn:E2; [apply zget_Some_lt in E2; lia|done].
  - apply wp_ret. assert (i + 1 <> zlen l) by (intros E; apply Hza' in E; lia).
    split; [split_and!; [done|lia..|done]|lia].
Qed.

(** "ab" at 100 and "ac" at 200. *)
Definition two_strings : mem :=
  list_to_map [(100, 97); (101, 98); (102, 0); (200, 97); (201, 99); (202, 0)].

Lemma strcmp_ok_witness :
  wp (strcmp 3 100 200) (fun r m' => m' = two_strings /\ (r = 0 <-> [97; 98] = [97; 99])) two_strings.
Proof.
  apply (strcmp_ok 3 100 200 [97; 98] [97; 99]); try done; try (simpl; lia);
    split; try (by vm_compute); repeat apply Forall_cons_2; try apply Forall_nil_2; lia.
Defined.

(** Two empty strings: [strcmp] steps over the terminators before it looks for
    them and reads the byte behind, here outside the mapped memory. *)
Theorem strcmp_empty_overreads :
  let m : mem := list_to_map [(100, 0); (200, 0)] in
  cstr m 100 [] /\ cstr m 200 [] /\ strcmp 9 100 200 m = UB.
Proof. split_and!; [by split; vm_compute|by split; vm_compute|by vm_compute]. Qed.

(** ** Search *)

(** The needle [l] occurs in the bytes [h] at offset [i]. *)
Definition occurs (h l : list Z) (i : Z) : Prop := forall j, 0 <= j < zlen l -> zget h (i + j) = zget l j.

Lemma wp_same_at a h l i (Q : bool -> mem -> Prop) m :
  bytes_at m a h -> 0 <= i -> i + zlen l <= zlen h ->
  (forall b : bool, (b = true <-> occurs h l i) -> Q b m) -> wp (same_at (a + i) l) Q m.
Proof.
  revert i Q. induction l as [|x l IH]; intros i Q Hh Hi Hl HQ; simpl.
  - apply wp_ret, HQ. split; [|done]. intros _ j Hj. unfold zlen in Hj. simpl in Hj. lia.
  - rewrite zlen_cons in Hl. pose proof (zlen_nonneg l).
    destruct (zget_is_Some h i) as [y Hy]; [lia|].
    wp_step. eapply wp_load; [by eapply bytes_at_get|].
    destruct (Z.eqb_spec x y) as [->|Hne].
    + rewrite <- Z.add_assoc. apply IH; [done|lia|lia|]. intros b Hb. apply HQ. rewrite Hb.
      split; intros Ho j Hj; rewrite ?zlen_cons in Hj.
      * destruct (Z.eq_dec j 0) as [->|]; [by rewrite Z.add_0_r|].
        rewrite zget_cons_S by lia. specialize (Ho (j - 1) ltac:(lia)). rewrite <- Ho. f_equal. lia.
      * specialize (Ho (j + 1)). rewrite zlen_cons, zget_cons_S, Z.add_simpl_r in Ho by lia.
        rewrite <- Ho by lia. f_equal. lia.
    + apply wp_ret, HQ. split; [done|]. intros Ho. specialize (Ho 0).
      rewrite zlen_cons, Z.add_0_r, zget_cons_0, Hy in Ho. exfalso. apply Hne.
      assert (Some y = Some x) as [= ->] by (apply Ho; lia). done.
Qed.

(** [memmem] returns the first place before the last possible one where the needle
    occurs, or null: the position [hl - nl], where the needle would end with the
    haystack, is never tried. *)
Theorem memmem_ok fuel hay needle h l m :
  hay <> 0 -> needle <> 0 -> l <> [] -> zlen l <= zlen h -> (length h < fuel)%nat ->
  bytes_at m hay h -> bytes_at m needle l ->
  wp (memmem fuel hay (zlen h) needle (zlen l))
     (fun r m' => m' = m /\
        (r = 0 /\ (forall i, 0 <= i < zlen h - zlen l -> ~ occurs h l i) \/
         exists i, r = hay + i /\ 0 <= i < zlen h - zlen l /\ occurs h l i /\
           forall j, 0 <= j < i -> ~ occurs h l j)) m.
Proof.
  intros Hh0 Hn0 Hne Hle Hf Hh Hl.
  assert (Hpos : 0 < zlen l) by (destruct l; [done|rewrite zlen_cons; pose proof (zlen_nonneg l); lia]).
  assert (Hload : forall k p (Q : list Z -> mem -> Prop), bytes_at m p k -> Q k m ->
            wp (load_list p (length k)) Q m).
  { induction k as [|b k IH]; intros p Q Hk HQ; simpl; [by apply wp_ret|]. destruct Hk as [Hb Hk].
    wp_step. eapply wp_load; [done|]. wp_step. apply IH; [done|]. by apply wp_ret. }
  unfold memmem, memmem_bytes.
  replace ((hay =? 0) || (needle =? 0) || (zlen h =? 0) || (zlen l =? 0) || (zlen h <? zlen l)) with false by lia.
  assert (Hn : Z.to_nat (zlen l) = length l) by (unfold zlen; lia). rewrite Hn.
  wp_step. apply Hload; [done|].
  replace ((hay =? 0) || (needle =? 0) || (zlen h =? 0) || (zlen l =? 0) || (zlen h <? zlen l)) with false by lia.
  unfold search_up.
  apply (wp_iter (fun ch m' => m' = m /\ exists i, ch = (hay + i, zlen h - zlen l - i) /\
           0 <= i <= zlen h - zlen l /\ forall j, 0 <= j < i -> ~ occurs h l j)
         (fun ch _ => Z.to_nat (snd ch))).
  - intros ch m' (->&i&->&Hi&Hno). destruct (Z.eqb_spec (zlen h - zlen l - i) 0) as [E|E].
    + apply wp_ret. split; [done|]. left. split; [done|]. intros j Hj. apply Hno. lia.
    + wp_step. eapply wp_same_at; [done|lia|lia|]. intros b Hb. destruct b.
      * apply wp_ret. split; [done|]. right. exists i. split_and!; [done|lia..|tauto|done].
      * apply wp_ret. split; [|simpl; lia]. split; [done|]. exists (i + 1).
        split_and!; [f_equal; lia|lia..|]. intros j Hj. destruct (Z.eq_dec j i) as [->|]; [|apply Hno; lia].
        intros Ho. apply Hb in Ho. done.
  - split; [done|]. exists 0. split_and!; [f_equal; lia|lia..|]. intros; lia.
  - simpl. unfold zlen in *. lia.
Qed.

Definition abc : mem := list_to_map [(100, 97); (101, 98); (102, 99); (200, 98)].

Lemma memmem_ok_witness :
  wp (memmem 9 100 3 200 1)
     (fun r m' => m' = abc /\
        (r = 0 /\ (forall i, 0 <= i < 3 - 1 -> ~ occurs [97; 98; 99] [98] i) \/
         exists i, r = 100 + i /\ 0 <= i < 3 - 1 /\ occurs [97; 98; 99] [98] i /\
           forall j, 0 <= j < i -> ~ occurs [97; 98; 99] [98] j)) abc.
Proof. apply (memmem_ok 9 100 200 [97; 98; 99] [98] abc); try done; simpl; lia. Defined.
