(* ===== verification/LibcStd.v ===== *)
(** Number parsing, binary search and exit hooks of src/libc/stdlib.c, and the
    readers of the start-up environment of src/libc/env.c. *)
From Stdlib Require Import ZArith Lia List.
From stdpp Require Import base option list gmap.
From S2P Require Import Prelude LibcString.

Module LibcStd.
Import LibcString.

(** ** Numbers *)

Definition is_digit (b : Z) : bool := (48 <=? b) && (b <=? 57).
Definition is_af (b : Z) : bool := (97 <=? b) && (b <=? 102).
Definition is_AF (b : Z) : bool := (65 <=? b) && (b <=? 70).

Definition hexval (b : Z) : Z :=
  if is_digit b then b - 48 else if is_af b then b - 97 + 10 else if is_AF b then b - 65 + 10 else 0.

(** A value moved into the bounds; no upper bound when [max] is 0. *)
Definition clamp (min max v : Z) : Z :=
  let v := if v <? min then min else v in
  if negb (max =? 0) && (max <? v) then max else v.

(** [*s == '0' && *(s+1) == 'x'] *)
Definition hexprefix (s : Z) : M mem bool :=
  a <-- load s ;; if a =? 48 then b <-- load (s + 1) ;; ret (b =? 120) else ret false.

Section Parse.
Context (fuel : nat).

(** The value and the place behind the number. *)
Definition stdlib_hex (s min max : Z) : M mem (Z * Z) :=
  p <-- hexprefix s ;;
  do2 v s' <-- iter fuel (fun vs => let (v, s) := (vs : Z * Z) in
    b <-- load s ;;
    let v := u64 (u64 (Z.shiftl v 4) + hexval b) in
    b' <-- load (s + 1) ;;
    if is_digit b' || is_af b' || is_AF b' then ret (inl (v, s + 1)) else ret (inr (v, s + 1)))
    (0, if (p : bool) then s + 2 else s) ;;
  ret (clamp min max v, s').

Definition stdlib_dec (s min max : Z) : M mem (Z * Z) :=
  p <-- hexprefix s ;;
  if (p : bool) then stdlib_hex (s + 2) min max else
  do2 v s' <-- iter fuel (fun vs => let (v, s) := (vs : Z * Z) in
    b <-- load s ;;
    let v := u64 (u64 (v * 10) + u64 (b - 48)) in
    b' <-- load (s + 1) ;;
    if is_digit b' then ret (inl (v, s + 1)) else ret (inr (v, s + 1))) (0, s) ;;
  ret (clamp min max v, s').

(** [*c == '-'] and the number behind it, truncated by [cut]. *)
Definition parse_signed (cut : Z -> Z) (max c : Z) : M mem Z :=
  b <-- load c ;;
  let neg := b =? 45 in
  do2 r s' <-- stdlib_dec (if neg then c + 1 else c) 0 max ;;
  ret (cut (if neg then - r else r)).

Definition atoi (c : Z) : M mem Z := parse_signed s32 0xFFFFFFFF c.
Definition atol (c : Z) : M mem Z := parse_signed s64 0xFFFFFFFFFFFFFFFF c.

(** ** Binary search *)

(** [bsearch] with the comparison of the key against the element at an address. *)
Definition bsearch (cmp : Z -> Z) (base nmemb size : Z) : M mem Z :=
  iter fuel (fun se => let (s, e) := (se : Z * Z) in
    if s <? e then
      let m := s + (e - s) / 2 in
      let r := cmp (base + m * size) in
      if r <? 0 then ret (inl (s, m)) else if 0 <? r then ret (inl (m + 1, e))
      else ret (inr (base + m * size))
    else ret (inr 0)) (0, nmemb).

(** ** The environment *)

Definition NL : Z := 10.

(** [while(env < env_end && *(env+1) != 0 && *env != '\n') env++;] *)
Definition skip_line (env_end env : Z) : M mem Z :=
  iter fuel (fun env =>
    if env <? env_end then
      b' <-- load (env + 1) ;;
      if b' =? 0 then ret (inr env) else
      b <-- load env ;; if b =? NL then ret (inr env) else ret (inl (env + 1))
    else ret (inr env)) env.

(** [while(env < env_end && env[1] != 0 && env[-1] != '*' && env[0] != '/') env++;] *)
Definition skip_block (env_end env : Z) : M mem Z :=
  iter fuel (fun env =>
    if env <? env_end then
      b' <-- load (env + 1) ;;
      if b' =? 0 then ret (inr env) else
      bp <-- load (env - 1) ;;
      if bp =? 42 then ret (inr env) else
      b <-- load env ;; if b =? 47 then ret (inr env) else ret (inl (env + 1))
    else ret (inr env)) env.

(** The two tests for comments at the head of the loops. *)
Definition skip_comments (env_end env : Z) : M mem Z :=
  b <-- load env ;;
  lc <-- (if b =? 47 then b' <-- load (env + 1) ;; ret (b' =? 47) else ret (b =? 35)) ;;
  env <-- (if (lc : bool) then skip_line env_end env else ret env) ;;
  b <-- load env ;;
  bc <-- (if b =? 47 then b' <-- load (env + 1) ;; ret (b' =? 42) else ret false) ;;
  if (bc : bool) then skip_block env_end (env + 2) else ret env.

(** [env+i < env_end && !memcmp(env, key, i) && env[i] == '='], with the bytes [k] of the
    key. *)
Definition key_at (env_end env : Z) (k : list Z) : M mem bool :=
  let i := zlen k in
  if env + i <? env_end then
    eq <-- same_at env k ;;
    if (eq : bool) then b <-- load (env + i) ;; ret (b =? 61) else ret false
  else ret false.

(** The loop the three readers share: [found] reads a value behind the '=' and answers
    the place where the scan goes on, or [None] to stop it. *)
Definition env_scan {A} (env : Z) (k : list Z) (found : Z -> A -> M mem (A * option Z)) (def : A) : M mem A :=
  let env_end := env + 4096 in
  iter fuel (fun er => let (env, r) := (er : Z * A) in
    if env <? env_end then
      b <-- load env ;;
      if b =? 0 then ret (inr r) else
      env <-- skip_comments env_end env ;;
      m <-- key_at env_end env k ;;
      if (m : bool) then
        do2 r next <-- found (env + zlen k + 1) r ;;
        match next with Some env => ret (inl (env + 1, r)) | None => ret (inr r) end
      else ret (inl (env + 1, r))
    else ret (inr r)) (env, def).

(** The bytes of the key, [None] for a null or empty key. *)
Definition key_bytes (key : Z) : M mem (option (list Z)) :=
  if key =? 0 then ret None else
  b <-- load key ;;
  if b =? 0 then ret None else
  n <-- strlen fuel key ;; k <-- load_list key (Z.to_nat n) ;; ret (Some k).

Definition env_num (_environment key def min max : Z) : M mem Z :=
  k <-- (if _environment =? 0 then ret None else key_bytes key) ;;
  match k with
  | None => ret def
  | Some k =>
      env_scan _environment k (fun env r =>
        b <-- load env ;;
        let neg := b =? 45 in
        do2 v env' <-- stdlib_dec (if neg then env + 1 else env) min max ;;
        ret (if neg then u64 (- v) else v, Some env')) def
  end.

(** The letters that start a word for true or false. *)
Definition true_word (a b : Z) : bool :=
  existsb (Z.eqb a) [49; 116; 84; 101; 69; 105; 73; 98; 66] ||
  ((a =? 111) && (b =? 110)) || ((a =? 79) && (b =? 78)).
Definition false_word (a b : Z) : bool :=
  existsb (Z.eqb a) [48; 102; 70; 100; 68; 104; 72; 107; 75] ||
  ((a =? 111) && (b =? 102)) || ((a =? 79) && (b =? 70)).

Definition env_bool (_environment key : Z) (def : bool) : M mem bool :=
  k <-- (if _environment =? 0 then ret None else key_bytes key) ;;
  match k with
  | None => ret def
  | Some k =>
      env_scan _environment k (fun env r =>
        a <-- load env ;; b <-- load (env + 1) ;;
        let r := if true_word a b then true else r in
        let r := if false_word a b then false else r in
        env' <-- iter fuel (fun env =>
          if env <? _environment + 4096 then
            b <-- load env ;;
            if b =? NL then ret (inr env) else
            b' <-- load (env + 1) ;; if b' =? 0 then ret (inr env) else ret (inl (env + 1))
          else ret (inr env)) env ;;
        ret (r, Some env')) def
  end.

Section EnvStr.
Context (malloc : Z -> M mem Z).

(** The last value found: its address and length. *)
Definition env_str (_environment key def : Z) : M mem Z :=
  k <-- (if _environment =? 0 then ret None else key_bytes key) ;;
  r <-- match k with
        | None => ret None
        | Some k =>
            env_scan _environment k (fun env _ =>
              s <-- iter fuel (fun s =>
                if s <? _environment + 4096 then
                  b <-- load s ;;
                  if (b =? NL) || (b =? 0) then ret (inr s) else ret (inl (s + 1))
                else ret (inr s)) env ;;
              b <-- load s ;;
              ret (Some (env, s - env), if b =? 0 then None else Some s)) None
        end ;;
  match r with
  | None => strdup fuel malloc def
  | Some (v, j) =>
      s <-- malloc (j + 1) ;;
      when (negb (s =? 0)) (memcpy (Z.to_nat j) s v) ;;; ret s
  end.

End EnvStr.
End Parse.

(** ** Exit hooks *)

(** [hooks] is [atexit_hooks]; [realloc_ok] tells whether [realloc] succeeds, and
    [err] is [errno()] behind it. *)
Definition EEXIST : Z := 11.
Definition atexit (hooks : list Z) (realloc_ok : bool) (err func : Z) : Z * list Z :=
  if existsb (Z.eqb func) hooks then (EEXIST, hooks)
  else if negb realloc_ok || negb (err =? 0) then (err, hooks)
  else (0, hooks ++ [func]).

(** The hooks [exit] calls, in order. *)
Definition exit_calls (hooks : list Z) : list Z := rev hooks.

End LibcStd.
