(* ===== verification/LibcStdFacts.v ===== *)
(** Correctness of LibcStd.v: decimal numbers are read at their value, the binary
    search finds a matching element when there is one, and what the environment
    readers make of comments. *)
From Stdlib Require Import ZArith Lia List.
From stdpp Require Import base option list gmap.
From S2P Require Import Prelude LibcString LibcStringFacts LibcStd.
Import LibcString LibcStd.

(** ** Numbers *)

Definition digits (l : list Z) : Prop := Forall (fun b => is_digit b = true) l.
Definition value_from (v : Z) (l : list Z) : Z := fold_left (fun v b => v * 10 + (b - 48)) l v.
Definition value (l : list Z) : Z := value_from 0 l.

Lemma value_from_mono l : forall v, digits l -> 0 <= v -> v <= value_from v l.
Proof.
  induction l as [|b l IH]; intros v Hl Hv; simpl; [lia|].
  apply Forall_cons in Hl as [Hb Hl]. cbv beta in Hb; unfold is_digit in Hb.
  specialize (IH (v * 10 + (b - 48)) Hl ltac:(lia)). lia.
Qed.

(** The digit loop, from the value [v] read so far. *)
Lemma wp_dec_loop fuel l : forall v s t m,
  l <> [] -> digits l -> is_digit t = false -> 0 <= v -> value_from v l < 2 ^ 64 ->
  bytes_at m s (l ++ [t]) -> (length l <= fuel)%nat ->
  wp (iter fuel (fun vs => let (v, s) := (vs : Z * Z) in
        b <-- load s ;;
        let v := u64 (u64 (v * 10) + u64 (b - 48)) in
        b' <-- load (s + 1) ;;
        if is_digit b' then ret (inl (v, s + 1)) else ret (inr (v, s + 1))) (v, s))
     (fun r m' => r = (value_from v l, s + zlen l) /\ m' = m) m.
Proof.
  revert fuel. induction l as [|b l IH]; intros fuel v s t m Hne Hd Ht Hv Hlt Hb Hf; [done|].
  apply Forall_cons in Hd as [Hd Hdl]. destruct fuel as [|fuel]; [simpl in Hf; lia|].
  destruct Hb as [Hb Hbl]. pose proof Hd as Hd'. cbv beta in Hd'; unfold is_digit in Hd'.
  pose proof (value_from_mono l (v * 10 + (b - 48)) Hdl ltac:(lia)) as Hmono.
  unfold value_from in Hmono, Hlt. simpl in Hlt.
  assert (Hstep : u64 (u64 (v * 10) + u64 (b - 48)) = v * 10 + (b - 48)).
  { rewrite (u64_small (v * 10)), (u64_small (b - 48)) by lia. apply u64_small. lia. }
  unfold iter. wp_step. wp_step. eapply wp_load; [done|]. cbn zeta. rewrite Hstep.
  rewrite zlen_cons. destruct l as [|b' l].
  - destruct Hbl as [Ht' _]. wp_step. eapply wp_load; [done|]. rewrite Ht.
    wp_step. wp_step. split; [|done]. simpl. f_equal.
  - pose proof Hbl as [Hb' _]. apply Forall_cons in Hdl as Hd2. destruct Hd2 as [Hd2 _].
    wp_step. eapply wp_load; [done|]. rewrite Hd2. wp_step.
    eapply wp_mono; [apply (IH fuel (v * 10 + (b - 48)) (s + 1) t m); try done; [lia|simpl in *; lia]|].
    intros r m' [-> ->]. split; [|done]. simpl. f_equal. rewrite !zlen_cons. lia.
Qed.

Lemma wp_stdlib_dec fuel l s t min max m :
  l <> [] -> digits l -> is_digit t = false -> ~ (l = [48] /\ t = 120) -> value l < 2 ^ 64 ->
  bytes_at m s (l ++ [t]) -> (length l <= fuel)%nat ->
  wp (stdlib_dec fuel s min max)
     (fun r m' => r = (clamp min max (value l), s + zlen l) /\ m' = m) m.
Proof.
  intros Hne Hd Ht Hx Hlt Hb Hf. unfold stdlib_dec. wp_step. unfold hexprefix.
  destruct l as [|b l]; [done|]. pose proof Hb as [Hb0 Hb1].
  assert (Hnext : exists b', m !! (s + 1) = Some b' /\ (b = 48 -> b' <> 120)).
  { destruct l as [|b' l]; destruct Hb1 as [Hb1 _]; eexists; (split; [done|]); intros ->.
    - intros ->. by apply Hx.
    - intros ->. apply Forall_cons in Hd as [_ [Hd _]%Forall_cons]. done. }
  destruct Hnext as (b'&Hb'&Hno). wp_step. eapply wp_load; [done|].
  assert (Hcont : wp (do2 v s' <-- iter fuel (fun vs => let (v, s) := (vs : Z * Z) in
        b <-- load s ;;
        let v := u64 (u64 (v * 10) + u64 (b - 48)) in
        b' <-- load (s + 1) ;;
        if is_digit b' then ret (inl (v, s + 1)) else ret (inr (v, s + 1))) (0, s) ;;
      ret (clamp min max v, s')) (fun r m' => r = (clamp min max (value (b :: l)), s + zlen (b :: l)) /\ m' = m) m).
  { wp_step. eapply wp_mono; [apply (wp_dec_loop fuel (b :: l) 0 s t m); try done; lia|].
    intros r m' [-> ->]. by apply wp_ret. }
  destruct (Z.eqb_spec b 48) as [E|E].
  - wp_step. eapply wp_load; [done|]. wp_step. replace (b' =? 120) with false by (specialize (Hno E); lia).
    done.
  - by wp_step.
Qed.

(** [atoi] reads decimal digits, with or without a minus sign, at their value
    whenever it fits in 31 bits, and reads no byte behind the first that is no digit. *)
Theorem atoi_ok fuel (neg : bool) l s t m :
  l <> [] -> digits l -> is_digit t = false -> ~ (l = [48] /\ t = 120) -> value l < 2 ^ 31 ->
  bytes_at m s ((if neg then [45] else []) ++ l ++ [t]) -> (length l <= fuel)%nat ->
  wp (atoi fuel s) (fun r m' => r = (if neg then - value l else value l) /\ m' = m) m.
Proof.
  intros Hne Hd Ht Hx Hlt Hb Hf. pose proof (value_from_mono l 0 Hd ltac:(lia)) as Hpos. fold (value l) in Hpos.
  assert (Hclamp : clamp 0 0xFFFFFFFF (value l) = value l) by (unfold clamp; repeat case_match; lia).
  assert (Hs32 : forall x, - 2 ^ 31 <= x < 2 ^ 31 -> s32 x = x).
  { intros x Hx'. unfold s32, sgn, wrap. change (2 ^ (32 - 1)) with (2 ^ 31).
    destruct (Z.lt_ge_cases x 0).
    - replace (x mod 2 ^ 32) with (x + 2 ^ 32); [destruct (Z.ltb_spec (x + 2 ^ 32) (2 ^ 31)); lia|].
      symmetry. rewrite <- (Z.mod_small (x + 2 ^ 32) (2 ^ 32)) by lia.
      by rewrite <- (Z_mod_plus_full x 1), Z.mul_1_l.
    - rewrite Z.mod_small by lia. destruct (Z.ltb_spec x (2 ^ 31)); lia. }
  unfold atoi, parse_signed. destruct neg; simpl in Hb.
  - destruct Hb as [Hb0 Hb]. wp_step. eapply wp_load; [done|]. simpl. wp_step.
    eapply wp_mono; [apply (wp_stdlib_dec fuel l (s + 1) t); try done; lia|].
    intros r m' [-> ->]. apply wp_ret. rewrite Hclamp. split; [apply Hs32; lia|done].
  - destruct l as [|b l]; [done|]. pose proof Hb as [Hb0 _]. wp_step. eapply wp_load; [done|].
    apply Forall_cons in Hd as Hd'. destruct Hd' as [Hb1 _]. cbv beta in Hb1; unfold is_digit in Hb1.
    replace (b =? 45) with false by lia. wp_step.
    eapply wp_mono; [apply (wp_stdlib_dec fuel (b :: l) s t); try done; lia|].
    intros r m' [-> ->]. apply wp_ret. rewrite Hclamp. split; [apply Hs32; lia|done].
Qed.

(** "-42;" at 100 *)
Definition minus42 : mem := list_to_map [(100, 45); (101, 52); (102, 50); (103, 59)].

Lemma atoi_ok_witness : wp (atoi 2 100) (fun r m' => r = -42 /\ m' = minus42) minus42.
Proof.
  apply (atoi_ok 2 true [52; 50] 100 59 minus42); try done.
  - by repeat apply Forall_cons_2.
  - by intros [? _].
Defined.

(** ** Binary search *)

(** on an array ordered for the comparison, [bsearch] returns an element equal to
    the key, or null when there is none; 65 rounds are enough for any array. *)
Theorem bsearch_ok fuel cmp base nmemb size m :
  (64 < fuel)%nat -> 0 <= nmemb < 2 ^ 64 -> 0 <= base -> 0 < size -> 0 < base ->
  (forall i j, 0 <= i < j -> j < nmemb -> cmp (base + i * size) <= 0 -> cmp (base + j * size) < 0) ->
  wp (bsearch fuel cmp base nmemb size)
     (fun r m' => m' = m /\
        ((exists i, r = base + i * size /\ 0 <= i < nmemb /\ cmp r = 0) \/
         (r = 0 /\ forall i, 0 <= i < nmemb -> cmp (base + i * size) <> 0))) m.
Proof.
  intros Hf Hn _ Hsize Hbase Hord. unfold bsearch.
  apply (wp_iter (fun se m' => m' = m /\ 0 <= fst se /\ snd se <= nmemb /\
           (forall i, 0 <= i < fst se -> 0 < cmp (base + i * size)) /\
           (forall i, snd se <= i < nmemb -> cmp (base + i * size) < 0))
         (fun se _ => if fst se <? snd se then Z.to_nat (Z.log2 (snd se - fst se) + 1) else O)).
  - intros [s e] m' (->&Hs&He&Hlo&Hhi). cbn [fst snd] in *.
    destruct (Z.ltb_spec s e) as [Hse|Hse].
    2:{ apply wp_ret. split; [done|]. right. split; [done|]. intros i Hi.
        destruct (Z.lt_ge_cases i s); [specialize (Hlo i ltac:(lia)); lia|].
        specialize (Hhi i ltac:(lia)). lia. }
    cbn zeta. set (k := s + (e - s) / 2).
    assert (Hk : s <= k < e).
    { unfold k. pose proof (Z.div_pos (e - s) 2). pose proof (Z.div_lt (e - s) 2). lia. }
    assert (Hhalf : forall n, 0 < n -> n <= (e - s) / 2 -> Z.log2 n < Z.log2 (e - s)).
    { intros n Hn0 Hnh. apply Z.log2_lt_pow2; [done|].
      pose proof (Z.log2_spec (e - s) ltac:(lia)) as [_ Hup]. rewrite Z.pow_succ_r in Hup by apply Z.log2_nonneg.
      apply Z.le_lt_trans with ((e - s) / 2); [done|]. apply Z.div_lt_upper_bound; lia. }
    pose proof (Z.log2_nonneg (e - s)). pose proof (Z.mul_div_le (e - s) 2 ltac:(lia)).
    pose proof (Z.mul_succ_div_gt (e - s) 2 ltac:(lia)).
    destruct (Z.ltb_spec (cmp (base + k * size)) 0) as [Hneg|Hneg];
      [|destruct (Z.ltb_spec 0 (cmp (base + k * size))) as [Hpos|Hpos]]; apply wp_ret; cbn [fst snd].
    + split; [split_and!; [done|done|lia|done|]|].
      * intros i Hi. destruct (Z.eq_dec i k) as [->|]; [done|]. apply (Hord k i); lia.
      * destruct (Z.ltb_spec s k); [|lia].
        specialize (Hhalf (k - s) ltac:(lia) ltac:(unfold k; lia)).
        pose proof (Z.log2_nonneg (k - s)). lia.
    + split; [split_and!; [done|lia|done| |done]|].
      * intros i Hi. destruct (Z.lt_ge_cases 0 (cmp (base + i * size))) as [|Hle]; [done|].
        destruct (Z.eq_dec i k) as [->|]; [lia|].
        pose proof (Hord i k ltac:(lia) ltac:(lia) Hle). lia.
      * destruct (Z.ltb_spec (k + 1) e); [|lia].
        specialize (Hhalf (e - (k + 1)) ltac:(lia) ltac:(unfold k; lia)).
        pose proof (Z.log2_nonneg (e - (k + 1))). lia.
    + split; [done|]. left. exists k. split_and!; [done|lia..].
  - cbn [fst snd]. split_and!; [done|lia..| |]; intros; lia.
  - cbn [fst snd]. destruct (Z.ltb_spec 0 nmemb); [|lia]. rewrite Z.sub_0_r.
    pose proof (proj1 (Z.log2_lt_pow2 nmemb 64 ltac:(lia)) ltac:(lia)). pose proof (Z.log2_nonneg nmemb). lia.
Qed.

Lemma bsearch_ok_witness :
  wp (bsearch 65 (fun p => 116 - p) 100 10 8)
     (fun r m' => m' = minus42 /\
        ((exists i, r = 100 + i * 8 /\ 0 <= i < 10 /\ 116 - r = 0) \/
         (r = 0 /\ forall i, 0 <= i < 10 -> 116 - (100 + i * 8) <> 0))) minus42.
Proof. apply (bsearch_ok 65 (fun p => 116 - p) 100 10 8 minus42); intros; lia. Defined.

(** ** Comments in the environment *)

(** The bytes [l] from address [p] on. *)
Fixpoint at_address (p : Z) (l : list Z) : mem :=
  match l with [] => ∅ | b :: l' => <[p := b]> (at_address (p + 1) l') end.

(** The key "k" at 9000, and at 4096 the text "/* k=5 */", a newline and zeros. *)
Definition commented : mem :=
  at_address 4095 ([0; 47; 42; 32; 107; 61; 53; 32; 42; 47; 10] ++ List.repeat 0 8) ∪
  at_address 9000 [107; 0; 0].

(** A block comment in the environment hides nothing: the test for its end looks
    at the byte before, which is the asterisk that opened the comment, so the key
    inside the comment is read. *)
Theorem block_comment_is_read : env_num 64 4096 9000 7 0 0 commented = Ret 5 commented.
Proof. by vm_compute. Qed.
