(* ===== verification/Stdio.v ===== *)
(** Formatted text, src/libc/stdio.c: [sprintf_hex], [vsnprintf] and [vsprintf] over a byte
    memory. *)
From Stdlib Require Import ZArith Lia List.
From stdpp Require Import base option list gmap.
From S2P Require Import Prelude LibcString LibcStd.

Module Stdio.
Import LibcString.

(** ** Numbers

    The part of the buffer [tmpstr] from the answered index on. *)

Definition hexdigit (n : Z) : Z := if n <? 10 then 48 + n else 65 + n - 10.

(** The digits of [x] in front of [acc], at most [n] of them. *)
Fixpoint digits (base : Z) (digit : Z -> Z) (n : nat) (x : Z) (acc : list Z) : list Z :=
  match n with
  | O => acc
  | S n' => let acc := digit (x mod base) :: acc in
            if x / base =? 0 then acc else digits base digit n' (x / base) acc
  end.

(** Filled up with [c] in front to the width [w]. *)
Definition pad (c w : Z) (l : list Z) : list Z := List.repeat c (Z.to_nat (w - zlen l)) ++ l.

Definition sprintf_hex (arg cnt : Z) : list Z :=
  let l := digits 16 hexdigit 16 arg [] in
  if (0 <? cnt) && (cnt <=? 8) then pad 48 (cnt * 2) l else l.

(** The decimal number of the conversion [d]; numbers of more than 17 digits become the
    largest of 17. *)
Definition DECMAX : Z := 99999999999999999.
Definition sprintf_dec (arg cnt : Z) : list Z :=
  let s := s64 arg <? 0 in
  let a := if s then u64 (- arg) else arg in
  let a := if DECMAX <? a then DECMAX else a in
  let l := digits 10 (fun d => 48 + d) 18 a [] in
  let l := if s then 45 :: l else l in
  if (0 <? cnt) && (cnt <? 18) then pad 32 cnt l else l.

(** "(null)" *)
Definition stdlib_nullstr : list Z := [40; 110; 117; 108; 108; 41].

Section Format.
Context (fuel : nat).

(** The buffer: its start, null to count only, and its end. *)
Context (orig stop_ : Z).

(** One byte, if there is room. *)
Definition put_byte (dst b : Z) : M mem unit :=
  when (negb (orig =? 0) && (dst <? stop_)) (store dst b).

(** A converted number, all of it or nothing; the new position. *)
Definition put_chunk (dst : Z) (l : list Z) : M mem Z :=
  when (negb (orig =? 0) && (dst + zlen l <? stop_)) (store_list dst l) ;;; ret (dst + zlen l).

(** The width in the format at [fmt], 8 bits, and the position behind it. *)
Definition width (fmt : Z) : M mem (Z * Z) :=
  iter fuel (fun fc : Z * Z => let (fmt, cnt) := fc in
    b <-- load fmt ;;
    if LibcStd.is_digit b then ret (inl (fmt + 1, u8 (u8 (cnt * 10) + (b - 48)))) else ret (inr (fmt, cnt)))
    (fmt, 0).

(** Blanks behind a string; without a buffer they are counted. *)
Fixpoint fill (n : nat) (dst : Z) : M mem Z :=
  match n with
  | O => ret dst
  | S n' => if dst <? stop_ then store dst 32 ;;; fill n' (dst + 1) else fill n' dst
  end.

Definition put_string (dst cnt p : Z) : M mem Z :=
  len <-- (if p =? 0 then ret (zlen stdlib_nullstr) else strlen fuel p) ;;
  let i := if (0 <? cnt) && (cnt <? len) then cnt else len in
  (if negb (orig =? 0) then
     let n := if dst + i <? stop_ then i else stop_ - dst in
     (* a negative size is a huge one *)
     if n <? 0 then ub else
     l <-- (if p =? 0 then ret (take (Z.to_nat n) stdlib_nullstr) else load_list p (Z.to_nat n)) ;;
     store_list dst l
   else ret tt) ;;;
  let dst := dst + i in
  if i <? cnt then
    if negb (orig =? 0) then fill (Z.to_nat (cnt - i)) dst else ret (dst + (cnt - i))
  else ret dst.

(** Little endian bytes. *)
Definition word (l : list Z) : Z := fold_right (fun b x => b + 256 * x) 0 l.

(** An identifier at [u]; the third part is written in place of the last bytes. *)
Definition put_uuid (dst u : Z) : M mem Z :=
  d1 <-- load_list u 4 ;; d2 <-- load_list (u + 4) 2 ;; d3 <-- load_list (u + 6) 2 ;;
  dst <-- put_chunk dst (sprintf_hex (word d1) 8 ++ [45]) ;;
  dst <-- put_chunk dst (sprintf_hex (word d2) 4 ++ [45]) ;;
  dst <-- put_chunk dst (sprintf_hex (word d3) 4 ++ [45]) ;;
  (fix octets (n : nat) (dst : Z) : M mem Z :=
     match n with O => ret dst | S n' => dst <-- put_chunk dst (sprintf_hex (word d3) 2) ;; octets n' dst end) 8%nat dst.

(** The first of the arguments. *)
Definition va_arg (args : list Z) : M mem (Z * list Z) :=
  match args with [] => ub | a :: args' => ret (a, args') end.

(** The conversion behind a percent sign and its width: the positions in the format and in
    the buffer, and the arguments left. *)
Definition conversion (fmt dst cnt : Z) (args : list Z) : M mem (Z * Z * list Z) :=
  c <-- load fmt ;;
  do2 arg args <-- (if c =? 115 then ret (0, args) else va_arg args) ;;
  if c =? 99 then put_byte dst arg ;;; ret (fmt + 1, dst + 1, args) else
  put_byte dst 0 ;;;
  let fmt := if c =? 108 then fmt + 1 else fmt in
  c <-- load fmt ;;
  if c =? 97 then
    let cnt := if (cnt =? 0) || (8 <? cnt) then 8 else cnt in
    dst <-- put_chunk dst (bytes_of (Z.to_nat cnt) arg) ;; ret (fmt + 1, dst, args)
  else if c =? 100 then dst <-- put_chunk dst (sprintf_dec arg cnt) ;; ret (fmt + 1, dst, args)
  else if c =? 120 then dst <-- put_chunk dst (sprintf_hex arg cnt) ;; ret (fmt + 1, dst, args)
  else if c =? 115 then
    do2 p args <-- va_arg args ;; dst <-- put_string dst cnt p ;; ret (fmt + 1, dst, args)
  else if c =? 85 then dst <-- put_uuid dst arg ;; ret (fmt + 1, dst, args)
  else ret (fmt + 1, dst, args).

(** The loop over the format from [fmt] on, at the position [dst]. *)
Definition format (fmt dst : Z) (args : list Z) : M mem Z :=
  iter fuel (fun st : Z * Z * list Z => let '(fmt, dst, args) := st in
    c <-- load fmt ;;
    if c =? 0 then ret (inr dst) else
    if c =? 37 then
      c <-- load (fmt + 1) ;;
      if c =? 37 then put_byte dst 37 ;;; ret (inl (fmt + 2, dst + 1, args)) else
      do2 fmt cnt <-- width (fmt + 1) ;;
      st <-- conversion fmt dst cnt args ;; ret (inl st)
    else put_byte dst c ;;; ret (inl (fmt + 1, dst + 1, args))) (fmt, dst, args).

(** The terminator: at the position, or behind the end of a full buffer. *)
Definition terminate (dst : Z) : M mem unit :=
  when (negb (orig =? 0)) (store (if dst <? stop_ then dst else stop_) 0).

End Format.

(** [format] is the address of a string, not null; the answer is an [int]. *)
Definition vsnprintf (fuel : nat) (dst size fmt : Z) (args : list Z) : M mem Z :=
  e <-- format fuel dst (dst + size) fmt dst args ;;
  terminate dst (dst + size) e ;;; ret (s32 (e - dst)).

Definition INT_MAX : Z := 0x7FFFFFFF.
Definition vsprintf (fuel : nat) (dst fmt : Z) (args : list Z) : M mem Z := vsnprintf fuel dst INT_MAX fmt args.
Definition sprintf (fuel : nat) (dst fmt : Z) (args : list Z) : M mem Z := vsnprintf fuel dst INT_MAX fmt args.

End Stdio.
