(* ===== verification/StdioFacts.v ===== *)
(** Formatted text: where [vsnprintf] writes, and numbers that are read back. *)
From Stdlib Require Import ZArith Lia List.
From stdpp Require Import base option list gmap.
From S2P Require Import Prelude LibcString LibcStringFacts LibcStd LibcStdFacts Stdio.
Import LibcString.

Module StdioFacts.

(** ** Numbers *)

Lemma dec_digits n : forall x acc,
  0 <= x < 10 ^ Z.of_nat n ->
  exists l, Stdio.digits 10 (fun d => 48 + d) n x acc = l ++ acc /\ digits l /\ (n <> O -> l <> []) /\
            (length l <= n)%nat /\ forall v, value_from v l = v * 10 ^ zlen l + x.
Proof.
  induction n as [|n IH]; intros x acc Hx; [exists []; split_and!; try done; [constructor|intros v; unfold zlen; simpl in *; lia]|].
  pose proof (Z.mod_pos_bound x 10 ltac:(lia)) as Hm. simpl.
  assert (Hd : digits [48 + x mod 10]) by (repeat constructor; unfold LibcStd.is_digit; lia).
  destruct (Z.eqb_spec (x / 10) 0) as [E|E].
  - exists [48 + x mod 10]. split_and!; try done; [simpl; lia|]. intros v. unfold value_from. simpl.
    change (zlen [48 + x mod 10]) with 1. pose proof (Z.div_mod x 10 ltac:(lia)). lia.
  - destruct (IH (x / 10) ((48 + x mod 10) :: acc)) as (l & -> & Hl & Hne & Hlen & Hv).
    { rewrite Nat2Z.inj_succ, Z.pow_succ_r in Hx by lia. split; [apply Z.div_pos; lia|apply Z.div_lt_upper_bound; lia]. }
    exists (l ++ [48 + x mod 10]). rewrite <- app_assoc. split_and!; try done.
    + by apply Forall_app.
    + by destruct l.
    + rewrite length_app. simpl. lia.
    + intros v. unfold value_from. rewrite fold_left_app. fold (value_from v l). rewrite Hv. simpl.
      rewrite zlen_app. change (zlen [48 + x mod 10]) with 1. rewrite Z.pow_add_r by (pose proof (zlen_nonneg l); lia).
      pose proof (Z.div_mod x 10 ltac:(lia)). lia.
Qed.

(** [atol] reads what the conversion "%d" writes: the number, whatever its sign, up to
    17 digits; a larger number is written as the largest of 17 digits. *)
Theorem dec_roundtrip fuel n s t m :
  - Stdio.DECMAX <= n <= Stdio.DECMAX -> LibcStd.is_digit t = false -> t <> 120 ->
  bytes_at m s (Stdio.sprintf_dec (u64 n) 0 ++ [t]) -> (18 <= fuel)%nat ->
  wp (LibcStd.atol fuel s) (fun r m' => r = n /\ m' = m) m.
Proof.
  intros Hn Ht Hx Hb Hf. unfold Stdio.DECMAX in Hn.
  assert (Hs : s64 (u64 n) = n).
  { unfold s64, sgn, u64, wrap. rewrite Z.mod_mod by lia. destruct (Z.ltb_spec (n mod 2 ^ 64) (2 ^ (64 - 1)));
      Z.to_euclidean_division_equations; lia. }
  assert (Hs' : s64 n = n).
  { unfold s64, sgn, wrap. destruct (Z.ltb_spec (n mod 2 ^ 64) (2 ^ (64 - 1))); Z.to_euclidean_division_equations; lia. }
  assert (Hneg : n < 0 -> u64 (- u64 n) = - n).
  { intros. unfold u64, wrap. Z.to_euclidean_division_equations; lia. }
  unfold Stdio.sprintf_dec in Hb. rewrite Hs in Hb. cbn [Z.ltb Z.compare andb] in Hb. cbv zeta in Hb.
  assert (Habs : (if n <? 0 then u64 (- u64 n) else u64 n) = Z.abs n).
  { destruct (Z.ltb_spec n 0); [rewrite Hneg by done; lia|]. rewrite u64_small; lia. }
  rewrite Habs in Hb. unfold Stdio.DECMAX in Hb.
  destruct (Z.ltb_spec 99999999999999999 (Z.abs n)); [lia|].
  destruct (dec_digits 18 (Z.abs n) []) as (l & Hl & Hd & Hne & Hlen & Hv); [change (10 ^ Z.of_nat 18) with 1000000000000000000; lia|].
  rewrite Hl, app_nil_r in Hb. specialize (Hv 0). change (value_from 0 l) with (value l) in Hv. rewrite Z.mul_0_l, Z.add_0_l in Hv.
  assert (Hdec : forall s0, bytes_at m s0 (l ++ [t]) ->
            wp (LibcStd.stdlib_dec fuel s0 0 0xFFFFFFFFFFFFFFFF) (fun r m' => r = (Z.abs n, s0 + zlen l) /\ m' = m) m).
  { intros s0 Hb0. eapply wp_mono; [apply (wp_stdlib_dec fuel l s0 t); try done; [by apply Hne|by intros [_ ?]|lia|lia]|].
    intros r m' [-> ->]. split; [|done]. rewrite Hv. unfold LibcStd.clamp.
    destruct (Z.ltb_spec (Z.abs n) 0); [lia|]. cbn [Z.eqb negb andb].
    destruct (Z.ltb_spec 0xFFFFFFFFFFFFFFFF (Z.abs n)); [lia|done]. }
  unfold LibcStd.atol, LibcStd.parse_signed. destruct (Z.ltb_spec n 0).
  - simpl in Hb. destruct Hb as [Hb0 Hb]. wp_step. eapply wp_load; [done|]. simpl. wp_step.
    eapply wp_mono; [by apply Hdec|]. intros r m' [-> ->]. apply wp_ret. split; [|done].
    replace (- Z.abs n) with n by lia. done.
  - destruct l as [|b l]; [by destruct Hne|]. pose proof Hb as [Hb0 _]. wp_step. eapply wp_load; [done|].
    apply Forall_cons in Hd as Hd'. destruct Hd' as [Hb1 _]. cbv beta in Hb1; unfold LibcStd.is_digit in Hb1.
    replace (b =? 45) with false by lia. wp_step. eapply wp_mono; [by apply Hdec|].
    intros r m' [-> ->]. apply wp_ret. split; [|done]. replace (Z.abs n) with n by lia. done.
Qed.

Lemma dec_roundtrip_witness :
  let m : mem := list_to_map (imap (fun i b => (100 + Z.of_nat i, b)) (Stdio.sprintf_dec (u64 (-7654321)) 0 ++ [0])) in
  wp (LibcStd.atol 20 100) (fun r m' => r = -7654321 /\ m' = m) m.
Proof.
  intros m. apply (dec_roundtrip 20 (-7654321) 100 0 m); [|done|done| |lia].
  - split; intros [=].
  - by vm_compute.
Defined.

(** ** Where text is written *)

(** Every run changes only bytes in [P], and answers in [Q]. *)
Definition writes {A} (P : Z -> Prop) (Q : A -> Prop) (c : M mem A) : Prop :=
  forall m r m', c m = Ret r m' -> Q r /\ forall a, ~ P a -> m' !! a = m !! a.

Section Writes.
Context (P : Z -> Prop).

Lemma writes_ret {A} (Q : A -> Prop) a : Q a -> writes P Q (ret a).
Proof. by intros ? ? ? ? [= <- <-]. Qed.
Lemma writes_bind {A B} (R : A -> Prop) (Q : B -> Prop) (c : M mem A) k :
  writes P R c -> (forall a, R a -> writes P Q (k a)) -> writes P Q (bind c k).
Proof.
  intros Hc Hk m b m2 H. unfold bind in H. destruct (c m) as [a m1| | |] eqn:Em; try done.
  destruct (Hc _ _ _ Em) as [Ha H1]. destruct (Hk a Ha _ _ _ H) as [Hb H2]. split; [done|].
  intros x Hx. by rewrite H2, H1.
Qed.
Lemma writes_mono {A} (R Q : A -> Prop) (c : M mem A) : writes P R c -> (forall a, R a -> Q a) -> writes P Q c.
Proof. intros Hc Hq m a m' H. destruct (Hc _ _ _ H). auto. Qed.
Lemma writes_ub {A} (Q : A -> Prop) : writes P Q ub.
Proof. by intros ? ? ?. Qed.
Lemma writes_need {A} (o : option A) : writes P (fun a => o = Some a) (need o).
Proof. destruct o; [by apply writes_ret|apply writes_ub]. Qed.
Lemma writes_when (c : bool) (k : M mem unit) : (c = true -> writes P (fun _ => True) k) -> writes P (fun _ => True) (when c k).
Proof. destruct c; intros H; [by apply H|by apply writes_ret]. Qed.
Lemma writes_iter {A B} (I : A -> Prop) (Q : B -> Prop) (body : A -> M mem (A + B)) n :
  (forall a, I a -> writes P (fun r => match r with inl a => I a | inr b => Q b end) (body a)) ->
  forall a, I a -> writes P Q (iter n body a).
Proof.
  intros Hb. induction n as [|n IH]; intros a Ha; [by intros ? ? ?|]. simpl.
  eapply writes_bind; [by apply Hb|]. intros [a'|b] H; [by apply IH|by apply writes_ret].
Qed.
Lemma writes_load p : writes P (fun _ => True) (load p).
Proof.
  intros m r m' H. split; [done|]. unfold load, bind, get, need in H. destruct (m !! p); [|done]. by injection H as _ <-.
Qed.
Lemma writes_load_list p n : writes P (fun l => length l = n) (load_list p n).
Proof.
  revert p. induction n as [|n IH]; intros p; [by apply writes_ret|]. simpl. eapply writes_bind; [apply writes_load|].
  intros b _. eapply writes_bind; [apply IH|]. intros l Hl. apply writes_ret. simpl. by rewrite Hl.
Qed.
Lemma writes_store p v : P p -> writes P (fun _ => True) (store p v).
Proof.
  intros Hp m r m' H. split; [done|]. unfold store, bind, get, need, put in H. destruct (m !! p); [|done].
  injection H as _ <-. intros a Ha. apply lookup_insert_ne. by intros ->.
Qed.
Lemma writes_store_list l : forall p, (forall a, p <= a < p + zlen l -> P a) -> writes P (fun _ => True) (store_list p l).
Proof.
  induction l as [|b l IH]; intros p Hp; [by apply writes_ret|]. simpl. rewrite zlen_cons in Hp. pose proof (zlen_nonneg l).
  eapply writes_bind; [apply writes_store, Hp; lia|]. intros [] _. apply IH. intros a Ha. apply Hp. lia.
Qed.

End Writes.

Section Format.
Context (fuel : nat) (orig stop_ : Z).

(** The buffer with the byte behind it, if there is a buffer at all. *)
Definition buffer (a : Z) : Prop := orig <> 0 /\ orig <= a <= stop_.
#[local] Notation W := (writes buffer).
Definition onwards (d : Z) : Prop := orig <= d.

Lemma writes_put_byte dst b : onwards dst -> W (fun _ => True) (Stdio.put_byte orig stop_ dst b).
Proof.
  intros Hd. apply writes_when. intros H. apply writes_store. unfold onwards, buffer in *. lia.
Qed.

Lemma writes_put_chunk dst l : onwards dst -> W onwards (Stdio.put_chunk orig stop_ dst l).
Proof.
  intros Hd. unfold Stdio.put_chunk. pose proof (zlen_nonneg l). eapply writes_bind.
  - apply writes_when. intros Hc. apply writes_store_list. intros a Ha. unfold onwards, buffer in *. lia.
  - intros [] _. apply writes_ret. unfold onwards in *. lia.
Qed.

Lemma writes_fill n : forall dst, orig <> 0 -> onwards dst -> W onwards (Stdio.fill stop_ n dst).
Proof.
  induction n as [|n IH]; intros dst Ho Hd; [by apply writes_ret|]. simpl. destruct (Z.ltb_spec dst stop_); [|by apply IH].
  eapply writes_bind; [apply writes_store; unfold onwards, buffer in *; lia|]. intros [] _. apply IH; [done|]. unfold onwards in *. lia.
Qed.

Lemma writes_strlen p : W (fun r => 0 <= r) (strlen fuel p).
Proof.
  unfold strlen. destruct (p =? 0); [by apply writes_ret|].
  apply (writes_iter _ (fun c => 0 <= c)); [|lia]. intros c Hc. eapply writes_bind; [apply writes_load|].
  intros b _. destruct (b =? 0); apply writes_ret; lia.
Qed.

Lemma writes_put_string dst cnt p : onwards dst -> W onwards (Stdio.put_string fuel orig stop_ dst cnt p).
Proof.
  intros Hd. unfold Stdio.put_string. eapply (writes_bind _ (fun r => 0 <= r)).
  { destruct (p =? 0); [by apply writes_ret|apply writes_strlen]. }
  intros len Hlen. cbv zeta. set (i := if _ && _ then cnt else len).
  assert (Hi : 0 <= i) by (unfold i; destruct (Z.ltb_spec 0 cnt), (Z.ltb_spec cnt len); simpl; lia).
  eapply (writes_bind _ (fun _ => True)).
  - destruct (Z.eqb_spec orig 0) as [|Ho]; [by apply writes_ret|]. cbn [negb].
    set (n := if _ <? _ then i else _). destruct (Z.ltb_spec n 0); [apply writes_ub|].
    eapply (writes_bind _ (fun l => zlen l <= n)).
    { destruct (p =? 0).
      - apply writes_ret. unfold zlen. rewrite length_take. lia.
      - eapply writes_mono; [apply writes_load_list|]. intros l Hl. cbv beta in Hl. unfold zlen. rewrite Hl. lia. }
    intros l Hl. apply writes_store_list. intros a Ha. unfold onwards, buffer in *. split; [done|].
    unfold n in *. destruct (Z.ltb_spec (dst + i) stop_); lia.
  - intros [] _. destruct (i <? cnt) eqn:Hc; [|apply writes_ret; unfold onwards in *; lia].
    destruct (Z.eqb_spec orig 0); cbn [negb]; [apply writes_ret; unfold onwards in *; lia|].
    apply writes_fill; [done|]. unfold onwards in *. lia.
Qed.

Lemma writes_put_uuid dst u : onwards dst -> W onwards (Stdio.put_uuid orig stop_ dst u).
Proof.
  intros Hd. unfold Stdio.put_uuid. do 3 (eapply writes_bind; [apply writes_load_list|]; intros ? _).
  eapply writes_bind; [by apply writes_put_chunk|]. intros d1 H1.
  eapply writes_bind; [by apply writes_put_chunk|]. intros d2 H2.
  eapply writes_bind; [by apply writes_put_chunk|]. intros d3 H3.
  cbn. repeat (eapply writes_bind; [by apply writes_put_chunk|]; intros ? ?). by apply writes_ret.
Qed.

Lemma writes_width fmt : W (fun r => 0 <= snd r) (Stdio.width fuel fmt).
Proof.
  apply (writes_iter _ (fun fc => 0 <= snd fc)); [|simpl; lia]. intros [f c] Hc. eapply writes_bind; [apply writes_load|].
  intros b _. destruct (LibcStd.is_digit b); apply writes_ret; simpl in *; [|done]. apply wrap_bound. lia.
Qed.

Lemma writes_conversion fmt dst cnt args :
  onwards dst -> W (fun r => onwards (snd (fst r))) (Stdio.conversion fuel orig stop_ fmt dst cnt args).
Proof.
  intros Hd. unfold Stdio.conversion. eapply writes_bind; [apply writes_load|]. intros c _.
  assert (Hva : forall l, W (fun _ => True) (Stdio.va_arg l)) by (intros []; [apply writes_ub|by apply writes_ret]).
  eapply (writes_bind _ (fun _ => True)); [destruct (c =? 115); [by apply writes_ret|apply Hva]|]. intros [arg args'] _.
  destruct (c =? 99).
  { eapply writes_bind; [by apply writes_put_byte|]. intros [] _. apply writes_ret. simpl. unfold onwards in *. lia. }
  eapply writes_bind; [by apply writes_put_byte|]. intros [] _. cbv zeta. set (f := if c =? 108 then _ else _).
  eapply writes_bind; [apply writes_load|]. intros d _.
  repeat match goal with |- context [if ?b then _ else _] =>
    lazymatch b with
    | (_ =? 0) || _ => fail
    | _ => destruct b
    end end;
    first [ by apply writes_ret
          | eapply writes_bind; [by first [apply writes_put_chunk | apply writes_put_uuid]|]; intros ? ?; by apply writes_ret
          | eapply writes_bind; [apply Hva|]; intros [p args2] _; eapply writes_bind; [by apply writes_put_string|];
            intros ? ?; by apply writes_ret ].
Qed.

Lemma writes_format fmt dst args : onwards dst -> W onwards (Stdio.format fuel orig stop_ fmt dst args).
Proof.
  intros Hd. apply (writes_iter _ (fun st => onwards (snd (fst st)))); [|done]. clear fmt dst args Hd.
  intros [[fmt dst] args] Hd. simpl in Hd. eapply writes_bind; [apply writes_load|]. intros c _.
  assert (Hn : onwards (dst + 1)) by (unfold onwards in *; lia).
  destruct (c =? 0); [by apply writes_ret|]. destruct (c =? 37).
  - eapply writes_bind; [apply writes_load|]. intros d _. destruct (d =? 37).
    + eapply writes_bind; [by apply writes_put_byte|]. intros [] _. by apply writes_ret.
    + eapply writes_bind; [apply writes_width|]. intros [f cnt] _.
      eapply writes_bind; [by apply writes_conversion|]. intros st Hst. by apply writes_ret.
  - eapply writes_bind; [by apply writes_put_byte|]. intros [] _. by apply writes_ret.
Qed.

End Format.

(** Whatever the format and the arguments, a run of [vsnprintf] that is defined (see
    StdioText for one that is not) changes no byte outside the buffer but the one right
    behind it; and when the text does not fit, that byte, which is not the buffer's, is
    overwritten by the terminator. Without a buffer nothing is changed. *)
Theorem vsnprintf_bounds fuel dst size fmt args m n m' :
  0 <= size ->
  Stdio.vsnprintf fuel dst size fmt args m = Ret n m' ->
  (forall a, dst = 0 \/ a < dst \/ dst + size < a -> m' !! a = m !! a) /\
  (dst <> 0 -> size <= n -> m' !! (dst + size) = Some 0).
Proof.
  intros Hs H. unfold Stdio.vsnprintf in H. unfold bind at 1 in H.
  destruct (Stdio.format fuel dst (dst + size) fmt dst args m) as [e m1| | |] eqn:Ef; try done.
  destruct (writes_format fuel dst (dst + size) fmt dst args (Z.le_refl dst) _ _ _ Ef) as [He H1].
  unfold onwards in He. unfold Stdio.terminate in H. destruct (Z.eqb_spec dst 0) as [->|Hd].
  - injection H as <- <-. split; [|lia]. intros a _. apply H1. by intros [? _].
  - cbn [negb when] in H. unfold store in H. unfold bind, get, need in H.
    destruct (m1 !! (if e <? dst + size then e else dst + size)) as [b|] eqn:Hb; [|done].
    injection H as <- <-. split.
    + intros a Ha. rewrite lookup_insert_ne; [apply H1; unfold buffer; lia|].
      destruct (Z.ltb_spec e (dst + size)); lia.
    + intros _ Hn. assert (Hw : s32 (e - dst) <= e - dst).
      { unfold s32, sgn, wrap. cbv zeta. pose proof (Z.mod_le (e - dst) (2 ^ 32) ltac:(lia) eq_refl).
        destruct ((e - dst) mod 2 ^ 32 <? 2 ^ (32 - 1)); [done|]. eapply Z.le_trans; [|done]. apply Z.le_sub_nonneg. done. }
      destruct (Z.ltb_spec e (dst + size)); [lia|]. apply lookup_insert_eq.
Qed.

(** "abc" into two bytes at 200: the byte 202 behind them becomes zero. *)
Definition text : mem := list_to_map [(100, 97); (101, 98); (102, 99); (103, 0); (200, 1); (201, 2); (202, 3); (203, 4)].

Lemma vsnprintf_bounds_witness :
  exists m', Stdio.vsnprintf 9 200 2 100 [] text = Ret 3 m' /\ m' !! 203 = text !! 203 /\ m' !! 202 = Some 0.
Proof.
  eexists. assert (H : Stdio.vsnprintf 9 200 2 100 [] text = Ret 3 (<[202 := 0]> (<[201 := 98]> (<[200 := 97]> text))))
    by (vm_compute; reflexivity).
  split; [exact H|]. destruct (vsnprintf_bounds 9 200 2 100 [] text 3 _ ltac:(lia) H) as [H1 H2].
  split; [apply H1; right; right; reflexivity|apply H2; [intros [=]|intros [=]]].
Defined.

End StdioFacts.
