(* ===== verification/StdioText.v ===== *)
(** What [vsnprintf] writes: the text a format stands for, when it fits, and what happens
    when it does not. *)
From Stdlib Require Import ZArith Lia List.
From stdpp Require Import base option list gmap pretty.
From S2P Require Import Prelude LibcString LibcStringFacts LibcStd LibcStdFacts Stdio StdioFacts.
Import LibcString.
Module StdioText.
(** ** The text of a format *)

(** The parts of a format: a byte, a percent sign, a character, a number in decimal or
    hexadecimal, with a width and an "l" or without, and a string at [p]. *)
Inductive item : Type :=
| Lit (b : Z)
| Percent
| Char (x : Z)
| Dec (w : list Z) (long : bool) (x : Z)
| Hex (w : list Z) (long : bool) (x : Z)
| Str (w : list Z) (p : Z) (s : list Z).

Definition spell (it : item) : list Z :=
  match it with
  | Lit b => [b]
  | Percent => [37; 37]
  | Char _ => [37; 99]
  | Dec w long _ => 37 :: w ++ (if long then [108; 100] else [100])
  | Hex w long _ => 37 :: w ++ (if long then [108; 120] else [120])
  | Str w _ _ => 37 :: w ++ [115]
  end.

(** Decimal and hexadecimal numbers; a hexadecimal number has [hexlen] digits without zeros
    in front of it. *)
Definition codes (s : String.string) : list Z :=
  List.map (fun c => Z.of_N (Ascii.N_of_ascii c)) (String.list_ascii_of_string s).
Definition hexlen (x : Z) : nat := S (Z.to_nat (Z.log2 x / 4)).
Definition hexadecimal (n : nat) (x : Z) : list Z :=
  List.map (fun k => Stdio.hexdigit (x / 16 ^ Z.of_nat k mod 16)) (List.rev (List.seq 0 n)).

(** A width cuts a string, and fills it up with blanks behind it. *)
Definition cut (w : Z) (s : list Z) : list Z := if (0 <? w) && (w <? zlen s) then take (Z.to_nat w) s else s.

Definition text_of (it : item) : list Z :=
  match it with
  | Lit b => [b]
  | Percent => [37]
  | Char x => [u8 (u64 x)]
  | Dec w _ x => let w := value w in
      if (0 <? w) && (w <? 18) then Stdio.pad 32 w (codes (pretty x)) else codes (pretty x)
  | Hex w _ x => let w := value w in
      hexadecimal (Nat.max (hexlen x) (if (0 <? w) && (w <=? 8) then Z.to_nat (2 * w) else 0)) x
  | Str w _ s => cut (value w) s ++ List.repeat 32 (Z.to_nat (value w - zlen s))
  end.

Definition args_of (it : item) : list Z :=
  match it with Lit _ | Percent => [] | Char x | Dec _ _ x | Hex _ _ x => [u64 x] | Str _ p _ => [p] end.

(** *** The conversions give these numbers *)

Lemma hexadecimal_S n x : hexadecimal (S n) x = hexadecimal n (x / 16) ++ [Stdio.hexdigit (x mod 16)].
Proof.
  unfold hexadecimal. rewrite <- cons_seq. simpl. rewrite List.map_app. simpl. rewrite Z.div_1_r. f_equal.
  rewrite <- List.seq_shift, List.map_rev, List.map_map, <- List.map_rev. apply List.map_ext_in. intros k _.
  rewrite Nat2Z.inj_succ, Z.pow_succ_r by lia. rewrite Z.div_div by lia. done.
Qed.

Lemma digits_hex n : forall x acc, n <> O -> 0 <= x < 16 ^ Z.of_nat n ->
  Stdio.digits 16 Stdio.hexdigit n x acc = hexadecimal (hexlen x) x ++ acc.
Proof.
  induction n as [|n IH]; intros x acc Hn Hx; [done|]. cbn [Stdio.digits]. destruct (Z.eqb_spec (x / 16) 0) as [E|E].
  - assert (x < 16) by (apply Z.div_small_iff in E; lia). assert (Hl : Z.log2 x / 4 = 0).
    { destruct (Z.eq_dec x 0) as [->|]; [done|]. apply Z.div_small. split; [apply Z.log2_nonneg|]. apply Z.log2_lt_pow2; lia. }
    unfold hexlen. rewrite Hl. simpl. unfold hexadecimal. simpl. by rewrite Z.div_1_r.
  - assert (16 <= x) by (destruct (Z.lt_ge_cases x 16); [rewrite Z.div_small in E by lia; done|done]).
    rewrite Nat2Z.inj_succ, Z.pow_succ_r in Hx by lia. rewrite IH.
    2:{ intros ->. simpl in Hx. lia. } 2:{ split; [apply Z.div_pos; lia|apply Z.div_lt_upper_bound; lia]. }
    assert (Hl : hexlen x = S (hexlen (x / 16))).
    { unfold hexlen. change 16 with (2 ^ 4) at 1. rewrite <- Z.shiftr_div_pow2, Z.log2_shiftr by lia.
      assert (4 <= Z.log2 x) by (apply Z.log2_le_pow2; lia). rewrite Z.max_r by lia.
      rewrite <- Z2Nat.inj_succ by (apply Z.div_pos; lia). do 2 f_equal. Z.to_euclidean_division_equations; lia. }
    by rewrite Hl, hexadecimal_S, <- app_assoc.
Qed.

(** More digits than there are: zeros. *)
Lemma hexadecimal_zeros n x k : 0 <= x < 16 ^ Z.of_nat n -> hexadecimal (k + n) x = List.repeat 48 k ++ hexadecimal n x.
Proof.
  intros Hx. induction k as [|k IH]; [done|]. cbn [Nat.add List.repeat app]. rewrite <- IH. unfold hexadecimal.
  rewrite List.seq_S, List.rev_app_distr. simpl. f_equal.
  rewrite Z.div_small; [done|]. split; [lia|]. eapply Z.lt_le_trans; [apply Hx|]. apply Z.pow_le_mono_r; lia.
Qed.

Lemma hexlen_fits x : 0 <= x -> x < 16 ^ Z.of_nat (hexlen x).
Proof.
  intros Hx. unfold hexlen. rewrite Nat2Z.inj_succ, Z2Nat.id by (apply Z.div_pos; [apply Z.log2_nonneg|lia]).
  change 16 with (2 ^ 4). rewrite <- Z.pow_mul_r by (pose proof (Z.div_pos (Z.log2 x) 4 (Z.log2_nonneg x) ltac:(lia)); lia).
  destruct (Z.eq_dec x 0) as [->|]; [done|]. apply Z.log2_lt_pow2; [lia|].
  pose proof (Z.log2_nonneg x). Z.to_euclidean_division_equations; lia.
Qed.

Lemma hex_text x w : 0 <= x < 2 ^ 64 ->
  Stdio.sprintf_hex x w = hexadecimal (Nat.max (hexlen x) (if (0 <? w) && (w <=? 8) then Z.to_nat (2 * w) else 0)) x.
Proof.
  intros Hx. unfold Stdio.sprintf_hex. cbv zeta. rewrite digits_hex by (change (16 ^ Z.of_nat 16) with (2 ^ 64); (done || lia)).
  rewrite app_nil_r. destruct ((0 <? w) && (w <=? 8)) eqn:Hw; [|by rewrite Nat.max_0_r].
  unfold Stdio.pad. assert (zlen (hexadecimal (hexlen x) x) = Z.of_nat (hexlen x)) as ->.
  { unfold zlen, hexadecimal. by rewrite length_map, length_rev, length_seq. }
  rewrite <- hexadecimal_zeros by (split; [lia|apply hexlen_fits; lia]). f_equal. lia.
Qed.

Lemma digits_pretty n : forall x s, n <> O -> (0 < x)%N -> Z.of_N x < 10 ^ Z.of_nat n ->
  Stdio.digits 10 (fun d => 48 + d) n (Z.of_N x) (codes s) = codes (pretty_N_go x s).
Proof.
  induction n as [|n IH]; intros x s Hn Hx Hlt; [done|]. rewrite pretty_N_go_step by done. cbn [Stdio.digits].
  assert (Hd : 48 + Z.of_N x mod 10 = Z.of_N (Ascii.N_of_ascii (pretty_N_char (x `mod` 10)))).
  { assert (H : forall d, (d < 10)%N -> 48 + Z.of_N d = Z.of_N (Ascii.N_of_ascii (pretty_N_char d))).
    { intros d Hdd. destruct d as [|d]; [done|]. do 9 (destruct d as [d|d|]; try done; try lia). }
    rewrite <- H by (apply N.mod_lt; done). by rewrite N2Z.inj_mod. }
  rewrite Hd. change (Z.of_N (Ascii.N_of_ascii (pretty_N_char (x `mod` 10))) :: codes s) with (codes (String.String (pretty_N_char (x `mod` 10)) s)).
  replace (Z.of_N x / 10) with (Z.of_N (x / 10)) by (by rewrite N2Z.inj_div). destruct (Z.eqb_spec (Z.of_N (x / 10)) 0) as [E|E].
  - assert ((x / 10)%N = 0%N) as -> by (by apply N2Z.inj). by rewrite pretty_N_go_0.
  - apply IH; [|apply N.neq_0_lt_0; intros H; by rewrite H in E|].
    + intros ->. simpl in Hlt. apply E. rewrite N2Z.inj_div. apply Z.div_small. lia.
    + rewrite Nat2Z.inj_succ, Z.pow_succ_r in Hlt by lia. rewrite N2Z.inj_div. apply Z.div_lt_upper_bound; lia.
Qed.

Lemma dec_text x w : - Stdio.DECMAX <= x <= Stdio.DECMAX ->
  Stdio.sprintf_dec (u64 x) w = if (0 <? w) && (w <? 18) then Stdio.pad 32 w (codes (pretty x)) else codes (pretty x).
Proof.
  intros Hx. unfold Stdio.DECMAX in Hx.
  assert (Hs : s64 (u64 x) = x).
  { unfold s64, sgn, u64, wrap. rewrite Z.mod_mod by lia. destruct (Z.ltb_spec (x mod 2 ^ 64) (2 ^ (64 - 1)));
      Z.to_euclidean_division_equations; lia. }
  unfold Stdio.sprintf_dec. rewrite Hs. cbv zeta.
  assert ((if x <? 0 then u64 (- u64 x) else u64 x) = Z.abs x) as ->.
  { destruct (Z.ltb_spec x 0); [|rewrite u64_small; lia]. unfold u64, wrap. Z.to_euclidean_division_equations; lia. }
  unfold Stdio.DECMAX. destruct (Z.ltb_spec 99999999999999999 (Z.abs x)); [lia|].
  assert ((if x <? 0 then 45 :: Stdio.digits 10 (fun d => 48 + d) 18 (Z.abs x) [] else Stdio.digits 10 (fun d => 48 + d) 18 (Z.abs x) [])
          = codes (pretty x)) as ->; [|done].
  destruct (Z.eq_dec x 0) as [->|Hx0]; [done|].
  assert (Stdio.digits 10 (fun d => 48 + d) 18 (Z.abs x) [] = codes (pretty_N_go (Z.to_N (Z.abs x)) EmptyString)) as ->.
  { rewrite <- (Z2N.id (Z.abs x)) at 1 by lia. change [] with (codes EmptyString). apply digits_pretty; [done|lia|].
    rewrite Z2N.id by lia. change (10 ^ Z.of_nat 18) with 1000000000000000000. lia. }
  by destruct x as [|x|x].
Qed.
Section Text.
Context (fuel : nat) (dst size : Z).

(** A place out of the buffer. *)
Definition beside (p n : Z) : Prop := p + n <= dst \/ dst + size <= p.

(** A string a pointer stands for; null for "(null)". *)
Definition string_at (m : mem) (p : Z) (s : list Z) : Prop :=
  (p = 0 /\ s = Stdio.stdlib_nullstr) \/ (p <> 0 /\ cstr m p s /\ (length s < fuel)%nat /\ beside p (zlen s + 1)).

Definition width_ok (w : list Z) : Prop := digits w /\ value w < 256 /\ (length w < fuel)%nat.

Definition item_ok (m : mem) (it : item) : Prop :=
  match it with
  | Lit b => 0 < b < 256 /\ b <> 37
  | Percent | Char _ => True
  | Dec w _ x => width_ok w /\ - Stdio.DECMAX <= x <= Stdio.DECMAX
  | Hex w _ x => width_ok w /\ 0 <= x < 2 ^ 64
  | Str w p s => width_ok w /\ string_at m p s
  end.

Definition same_outside (lo hi : Z) (m m' : mem) : Prop := forall a, a < lo \/ hi <= a -> m' !! a = m !! a.

Lemma bytes_at_same lo hi m m' p l :
  same_outside lo hi m m' -> p + zlen l <= lo \/ hi <= p -> bytes_at m p l -> bytes_at m' p l.
Proof.
  intros Hs. revert p. induction l as [|b l IH]; intros p Hp; [done|]. rewrite zlen_cons in Hp. pose proof (zlen_nonneg l).
  intros [Hb Hl]. split; [rewrite Hs by lia; done|]. apply IH; [lia|done].
Qed.
Lemma mapped_bytes m m' p n d l : mapped m p n -> bytes_at m' d l -> same_outside d (d + zlen l) m m' -> mapped m' p n.
Proof.
  intros Hm Hb Hs a Ha. destruct (decide (a < d \/ d + zlen l <= a)) as [Hd|Hd]; [rewrite Hs by done; by apply Hm|].
  destruct (zget_is_Some l (a - d)) as [v Hv]; [lia|]. apply (bytes_at_get _ _ _ _ _ Hb) in Hv.
  replace (d + (a - d)) with a in Hv by lia. by exists v.
Qed.

Lemma string_at_same m m' p s : same_outside dst (dst + size) m m' -> string_at m p s -> string_at m' p s.
Proof.
  intros Hs [H|(Hp&[Hb Hl]&Hf&Hbes)]; [by left|]. right. split_and!; try done. split; [|done].
  eapply bytes_at_same; [exact Hs| |done]. rewrite zlen_app. exact Hbes.
Qed.
Lemma item_ok_same m m' it : same_outside dst (dst + size) m m' -> item_ok m it -> item_ok m' it.
Proof. destruct it; try done. intros Hs [Hw Hst]. split; [done|]. by eapply string_at_same. Qed.

(** The text [l] is written at [d], and nothing before it. *)
Record wrote (m : mem) (d : Z) (l : list Z) (m' : mem) : Prop := {
  w_text : bytes_at m' d l;
  w_rest : same_outside d (dst + size) m m';
  w_room : mapped m' dst size }.

Lemma wp_width l t c f (Q : Z * Z -> mem -> Prop) m n :
  digits l -> LibcStd.is_digit t = false -> 0 <= c -> value_from c l < 256 -> bytes_at m f (l ++ [t]) -> (length l < n)%nat ->
  Q (f + zlen l, value_from c l) m ->
  wp (iter n (fun fc : Z * Z => let (fmt, cnt) := fc in
    b <-- load fmt ;;
    if LibcStd.is_digit b then ret (inl (fmt + 1, u8 (u8 (cnt * 10) + (b - 48)))) else ret (inr (fmt, cnt))) (f, c)) Q m.
Proof.
  revert n c f. induction l as [|b l IH]; intros n c f Hd Ht Hc Hv Hb Hn HQ; (destruct n as [|n]; [simpl in Hn; lia|]);
    destruct Hb as [Hb Hb']; unfold iter; fold (@iter mem (Z*Z) (Z*Z)); wp_step; wp_step; (eapply wp_load; [exact Hb|]).
  - rewrite Ht. wp_step. wp_step. change (zlen []) with 0 in HQ. by rewrite Z.add_0_r in HQ.
  - apply Forall_cons in Hd as [Hd Hdl]. rewrite Hd. wp_step. cbv beta in Hd. unfold LibcStd.is_digit in Hd.
    pose proof (value_from_mono l (c * 10 + (b - 48)) Hdl ltac:(lia)) as Hmono. unfold value_from in Hv, HQ, Hmono. simpl in Hv, HQ.
    rewrite (u8_byte (c * 10)) by (unfold is_byte; lia). rewrite u8_byte by (unfold is_byte; lia).
    apply IH; try done; [lia|simpl in Hn; lia|]. rewrite zlen_cons in HQ.
    replace (f + 1 + zlen l) with (f + (1 + zlen l)) by lia. exact HQ.
Qed.

(** *** Conversions *)

Lemma wp_put_byte d b (Q : unit -> mem -> Prop) m :
  dst <> 0 -> d < dst + size -> is_Some (m !! d) -> Q tt (<[d := u8 b]> m) -> wp (Stdio.put_byte dst (dst + size) d b) Q m.
Proof.
  intros Ho Hd Hm HQ. unfold Stdio.put_byte. rewrite (proj2 (Z.eqb_neq _ _) Ho), (proj2 (Z.ltb_lt _ _) Hd). by apply wp_store.
Qed.

Lemma wp_put_list d l (Q : unit -> mem -> Prop) m :
  dst <= d -> d + zlen l <= dst + size -> mapped m dst size -> Forall is_byte l ->
  (forall m', wrote m d l m' -> Q tt m') -> wp (store_list d l) Q m.
Proof.
  intros Hlo Hd Hm Hb HQ. apply wp_store_list; [intros a Ha; apply Hm; lia|done|].
  intros m' H1 H2. apply HQ. split; [done| |by eapply mapped_bytes].
  intros a Ha. apply H2. lia.
Qed.
Lemma wp_put_chunk d l (Q : Z -> mem -> Prop) m :
  dst <> 0 -> dst <= d -> d + zlen l < dst + size -> mapped m dst size -> Forall is_byte l ->
  (forall m', wrote m d l m' -> Q (d + zlen l) m') -> wp (Stdio.put_chunk dst (dst + size) d l) Q m.
Proof.
  intros Ho Hlo Hd Hm Hb HQ. unfold Stdio.put_chunk. rewrite (proj2 (Z.eqb_neq _ _) Ho), (proj2 (Z.ltb_lt _ _) Hd). cbn [negb andb when].
  wp_step. apply wp_put_list; [done|lia|done|done|]. intros m' H. wp_step. by apply HQ.
Qed.

Lemma digits_bytes base f n : (forall d, 0 <= d < base -> is_byte (f d)) -> 0 < base -> forall x acc,
  Forall is_byte acc -> Forall is_byte (Stdio.digits base f n x acc).
Proof.
  intros Hf Hb. induction n as [|n IH]; intros x acc Ha; [done|]. simpl.
  assert (Forall is_byte (f (x mod base) :: acc)) by (constructor; [apply Hf, Z.mod_pos_bound; lia|done]).
  destruct (x / base =? 0); [done|by apply IH].
Qed.
Lemma pad_bytes c w l : is_byte c -> Forall is_byte l -> Forall is_byte (Stdio.pad c w l).
Proof. intros Hc Hl. unfold Stdio.pad. apply Forall_app. split; [|done]. apply Forall_forall. intros x Hx%list_elem_of_In%List.repeat_spec. by subst. Qed.
Lemma hex_bytes x c : Forall is_byte (Stdio.sprintf_hex x c).
Proof.
  unfold Stdio.sprintf_hex. assert (H : Forall is_byte (Stdio.digits 16 Stdio.hexdigit 16 x [])).
  { apply digits_bytes; [|lia|done]. intros d Hd. unfold Stdio.hexdigit, is_byte. destruct (d <? 10); lia. }
  destruct (_ && _); [apply pad_bytes; done|done].
Qed.
Lemma dec_bytes x c : Forall is_byte (Stdio.sprintf_dec x c).
Proof.
  unfold Stdio.sprintf_dec. cbv zeta. set (a := if Stdio.DECMAX <? _ then _ else _).
  assert (H : Forall is_byte (Stdio.digits 10 (fun d => 48 + d) 18 a [])) by (apply digits_bytes; [unfold is_byte; lia|lia|done]).
  assert (H' : Forall is_byte (if s64 x <? 0 then 45 :: Stdio.digits 10 (fun d => 48 + d) 18 a [] else Stdio.digits 10 (fun d => 48 + d) 18 a []))
    by (destruct (s64 x <? 0); [by constructor|done]).
  destruct (_ && _); [by apply pad_bytes|done].
Qed.


Lemma wrote_behind m d b l m' : dst <= d < dst + size -> wrote (<[d := b]> m) d l m' -> wrote m d l m'.
Proof. intros Hd [H1 H2 H3]. split; [done| |done]. intros a Ha. rewrite H2 by done. apply lookup_insert_ne. lia. Qed.

(** A number: a conversion [c], with an "l" before it or without. *)
Lemma wp_number w (long : bool) c x f d args l (Q : Z * Z * list Z -> mem -> Prop) m :
  dst <> 0 -> dst <= d -> d + zlen l < dst + size -> mapped m dst size -> Forall is_byte l ->
  let sp := if long then [108; c] else [c] in
  bytes_at m f sp -> beside f (zlen sp) -> c = 100 /\ l = Stdio.sprintf_dec x w \/ c = 120 /\ l = Stdio.sprintf_hex x w ->
  (forall m', wrote m d l m' -> Q (f + zlen sp, d + zlen l, args) m') ->
  wp (Stdio.conversion fuel dst (dst + size) f d w (x :: args)) Q m.
Proof.
  intros Ho Hlo Hd Hm Hl sp Hb Hbes Hc HQ. pose proof (zlen_nonneg l). unfold beside in Hbes. unfold Stdio.conversion.
  assert (Hput : wp (Stdio.put_chunk dst (dst + size) d l) (fun d' m' => Q (f + zlen sp, d', args) m') (<[d := 0]> m)).
  { apply wp_put_chunk; try done; [by apply mapped_insert|]. intros m' Hw. eapply HQ, wrote_behind; [|done]. lia. }
  assert (Hsp : 0 < zlen sp <= 2) by (unfold sp, zlen; destruct long; simpl; lia).
  assert (Hb' : bytes_at (<[d := 0]> m) f sp) by (apply bytes_at_insert; [lia|done]).
  set (k := if long then 108 else c). assert (Hk : k <> 115 /\ k <> 99 /\ m !! f = Some k).
  { unfold k, sp in *. destruct long, Hb as [Hb _]; split_and!; (done || lia). }
  destruct Hk as (Hk1&Hk2&Hk). apply wp_bind. eapply wp_load; [exact Hk|]. rewrite (proj2 (Z.eqb_neq _ _) Hk1). cbn [Stdio.va_arg].
  apply wp_bind, wp_ret. rewrite (proj2 (Z.eqb_neq _ _) Hk2). apply wp_bind, wp_put_byte; [done|lia|apply Hm; lia|].
  change (u8 0) with 0. cbv zeta. apply wp_bind.
  assert (Hf : (<[d := 0]> m) !! (if k =? 108 then f + 1 else f) = Some c /\ (if k =? 108 then f + 1 else f) + 1 = f + zlen sp).
  { unfold k, sp in *. destruct long.
    - destruct Hb' as (_&?&_). split; [done|]. unfold zlen. simpl. lia.
    - rewrite (proj2 (Z.eqb_neq c 108)) by lia. destruct Hb' as [? _]. split; [done|]. unfold zlen. simpl. lia. }
  destruct Hf as [Hf1 Hf2]. eapply wp_load; [exact Hf1|]. rewrite Hf2.
  destruct Hc as [[-> ->]|[-> ->]]; cbn [Z.eqb Pos.eqb]; apply wp_bind; (eapply wp_mono; [exact Hput|]);
    intros d' m' HQ'; by apply wp_ret.
Qed.

(** Blanks behind a string. *)
Lemma wp_fill n : forall d (Q : Z -> mem -> Prop) m,
  dst <= d -> d + Z.of_nat n < dst + size -> mapped m dst size ->
  (forall m', wrote m d (List.repeat 32 n) m' -> Q (d + Z.of_nat n) m') ->
  wp (Stdio.fill (dst + size) n d) Q m.
Proof.
  induction n as [|n IH]; intros d Q m Hlo Hd Hm HQ.
  - apply wp_ret. rewrite Z.add_0_r in HQ. by apply HQ.
  - simpl. rewrite (proj2 (Z.ltb_lt d _)) by lia. wp_step. apply wp_store; [apply Hm; lia|]. apply IH; [lia|lia|by apply mapped_insert|].
    intros m' [H1 H2 H3]. replace (d + 1 + Z.of_nat n) with (d + Z.of_nat (S n)) by lia. apply HQ. split; [|intros a Ha|done].
    + split; [|done]. rewrite H2 by lia. apply lookup_insert_eq.
    + rewrite H2 by lia. apply lookup_insert_ne. lia.
Qed.

Lemma load_bytes l p m : bytes_at m p l -> load_list p (length l) m = Ret l m.
Proof.
  revert p. induction l as [|b l IH]; intros p; [done|]. intros [Hb Hl]. cbn [length load_list].
  unfold load, bind at 1 2, get, need. rewrite Hb. unfold ret at 1. by rewrite (run_bind _ _ _ _ _ (IH _ Hl)).
Qed.

(** A string, cut and filled up to its width [w]. *)
Lemma wp_string w p s d (Q : Z -> mem -> Prop) m :
  dst <> 0 -> dst <= d -> mapped m dst size -> string_at m p s -> 0 <= w ->
  let l := cut w s ++ List.repeat 32 (Z.to_nat (w - zlen s)) in
  d + zlen l < dst + size -> (forall m', wrote m d l m' -> Q (d + zlen l) m') ->
  wp (Stdio.put_string fuel dst (dst + size) d w p) Q m.
Proof.
  intros Ho Hlo Hm Hs Hw l Hd HQ. unfold Stdio.put_string. rewrite (proj2 (Z.eqb_neq _ _) Ho). cbn [negb].
  set (i := if (0 <? w) && (w <? zlen s) then w else zlen s).
  assert (Hi : zlen (cut w s) = i /\ 0 <= i <= zlen s /\ cut w s = take (Z.to_nat i) s /\ (i <? w) = (zlen s <? w)).
  { unfold cut, i. pose proof (zlen_nonneg s). destruct (Z.ltb_spec 0 w), (Z.ltb_spec w (zlen s)); cbn [andb].
    - split; [unfold zlen in *; rewrite length_take; lia|]. split; [lia|]. split; [done|].
      destruct (Z.ltb_spec w w), (Z.ltb_spec (zlen s) w); (done || lia).
    - split; [done|]. split; [lia|]. split; [|done]. rewrite take_ge; [done|unfold zlen; lia].
    - split; [done|]. split; [lia|]. split; [|done]. rewrite take_ge; [done|unfold zlen; lia].
    - split; [done|]. split; [lia|]. split; [|done]. rewrite take_ge; [done|unfold zlen; lia]. }
  destruct Hi as (Hc&Hi&Hcut&Hiw).
  assert (Hlen : zlen l = i + Z.max 0 (w - zlen s)).
  { unfold l. rewrite zlen_app, Hc. unfold zlen at 1. rewrite repeat_length. lia. }
  assert (Hstr : forall Q' : Z -> mem -> Prop, Q' (zlen s) m -> wp (if p =? 0 then ret (zlen Stdio.stdlib_nullstr) else strlen fuel p) Q' m).
  { intros Q' H. destruct Hs as [[-> ->]|(Hp&Hcs&Hfu&_)]; [by apply wp_ret|].
    rewrite (proj2 (Z.eqb_neq _ _) Hp). by eapply wp_strlen. }
  apply wp_bind, Hstr. cbv zeta. fold i. rewrite (proj2 (Z.ltb_lt (d + i) _)) by lia. apply wp_bind.
  rewrite (proj2 (Z.ltb_ge i 0)) by lia. apply wp_bind.
  apply (wp_mono _ (fun r m' => r = cut w s /\ m' = m)).
  { destruct Hs as [[-> ->]|(Hp&[Hcs _]&_)]; [by apply wp_ret|]. rewrite (proj2 (Z.eqb_neq _ _) Hp).
    rewrite <- (take_drop (Z.to_nat i) s), <- Hcut, <- app_assoc in Hcs. apply bytes_at_app in Hcs as [Hcs _].
    replace (Z.to_nat i) with (length (cut w s)) by (unfold zlen in Hc; lia). unfold wp. by rewrite (load_bytes _ _ _ Hcs). }
  intros r m' [-> ->]. apply wp_put_list; [done|lia|done| |].
  { rewrite Hcut. apply Forall_take. destruct Hs as [[_ ->]|(_&[_ Hcs]&_)]; [by repeat constructor|].
    eapply Forall_impl; [exact Hcs|]. unfold is_byte. cbv beta. lia. }
  intros m1 [W1 W2 W3]. rewrite Hiw. destruct (Z.ltb_spec (zlen s) w).
  - assert (i = zlen s) as Hie by (unfold i; destruct (Z.ltb_spec w (zlen s)); [lia|by rewrite andb_false_r]).
    apply wp_fill; [lia|lia|done|]. intros m2 [X1 X2 X3].
    replace (d + i + Z.of_nat (Z.to_nat (w - i))) with (d + zlen l) by lia. apply HQ. split; [|intros a Ha|done].
    + unfold l. rewrite <- Hie. apply bytes_at_app. split; [|by rewrite Hc]. eapply bytes_at_same; [exact X2|lia|done].
    + rewrite X2 by lia. by apply W2.
  - apply wp_ret. replace (d + i) with (d + zlen l) by lia. apply HQ. split; [|done|done].
    unfold l. replace (Z.to_nat (w - zlen s)) with 0%nat by lia. by rewrite app_nil_r.
Qed.

(** *** The loop *)

(** The body of the loop of [format]. *)
Definition turn (st : Z * Z * list Z) : M mem (Z * Z * list Z + Z) :=
  let '(fmt, d, args) := st in
  c <-- load fmt ;;
  if c =? 0 then ret (inr d) else
  if c =? 37 then
    c <-- load (fmt + 1) ;;
    if c =? 37 then Stdio.put_byte dst (dst + size) d 37 ;;; ret (inl (fmt + 2, d + 1, args)) else
    do2 fmt cnt <-- Stdio.width fuel (fmt + 1) ;;
    st <-- Stdio.conversion fuel dst (dst + size) fmt d cnt args ;; ret (inl st)
  else Stdio.put_byte dst (dst + size) d c ;;; ret (inl (fmt + 1, d + 1, args)).

Lemma wp_percent w t r f d args (Q : Z * Z * list Z + Z -> mem -> Prop) m :
  bytes_at m f (37 :: w ++ t :: r) -> width_ok w -> LibcStd.is_digit t = false -> t <> 37 ->
  wp (Stdio.conversion fuel dst (dst + size) (f + 1 + zlen w) d (value w) args) (fun st m' => Q (inl st) m') m ->
  wp (turn (f, d, args)) Q m.
Proof.
  intros [H0 Hb] (Hd&Hv&Hf) Ht Ht' HQ. unfold turn. wp_step. eapply wp_load; [exact H0|]. cbn [Z.eqb Pos.eqb].
  assert (exists c, m !! (f + 1) = Some c /\ c <> 37) as (c&Hc&Hc').
  { destruct w as [|c w]; destruct Hb as [Hc _]; eexists; (split; [exact Hc|]); [done|].
    apply Forall_cons in Hd as [Hd _]. cbv beta in Hd. unfold LibcStd.is_digit in Hd. lia. }
  wp_step. eapply wp_load; [exact Hc|]. rewrite (proj2 (Z.eqb_neq _ _) Hc'). wp_step.
  eapply wp_width; try done; [|].
  { change (w ++ t :: r) with (w ++ [t] ++ r) in Hb. rewrite app_assoc in Hb. by apply bytes_at_app in Hb as [Hb _]. }
  wp_step. eapply wp_mono; [exact HQ|]. intros st m' H. by apply wp_ret.
Qed.

Lemma wrote_byte m d b : is_byte b -> dst <= d < dst + size -> mapped m dst size -> wrote m d [b] (<[d := b]> m).
Proof.
  intros Hb Hd Hm. split; [split; [apply lookup_insert_eq|done]| |by apply mapped_insert].
  intros a Ha. apply lookup_insert_ne. lia.
Qed.

Lemma wp_item it f d args (Q : Z * Z * list Z + Z -> mem -> Prop) m :
  (0 < fuel)%nat -> dst <> 0 -> dst <= d -> mapped m dst size -> item_ok m it -> bytes_at m f (spell it) -> beside f (zlen (spell it)) ->
  d + zlen (text_of it) < dst + size ->
  (forall m', wrote m d (text_of it) m' -> Q (inl (f + zlen (spell it), d + zlen (text_of it), args)) m') ->
  wp (turn (f, d, args_of it ++ args)) Q m.
Proof.
  intros Hfu Ho Hlo Hm Hok Hb Hbes Hd HQ. pose proof (zlen_nonneg (text_of it)).
  assert (Hnum : forall w long x c l, it = Dec w long x /\ c = 100 \/ it = Hex w long x /\ c = 120 -> l = text_of it ->
    wp (turn (f, d, u64 x :: args)) Q m).
  { intros w long x c l Hc ->. assert (Hw : width_ok w) by (destruct Hc as [[-> _]|[-> _]]; apply Hok).
    assert (Hsp : spell it = 37 :: w ++ (if long then [108; c] else [c])) by (destruct Hc as [[-> ->]|[-> ->]]; done).
    rewrite Hsp in Hb, Hbes, HQ. rewrite zlen_cons, zlen_app in HQ, Hbes. unfold beside in *.
    pose proof (zlen_nonneg w). destruct Hb as [Hp0 Hb]. pose proof Hb as Hb'. apply bytes_at_app in Hb' as [_ Hb'].
    assert (wp (Stdio.conversion fuel dst (dst + size) (f + 1 + zlen w) d (value w) (u64 x :: args)) (fun st m' => Q (inl st) m') m) as Hcv.
    { assert (Hl : c = 100 /\ text_of it = Stdio.sprintf_dec (u64 x) (value w) \/ c = 120 /\ text_of it = Stdio.sprintf_hex (u64 x) (value w)).
      { destruct Hc as [[-> ->]|[-> ->]]; [left|right]; (split; [done|]); [by rewrite dec_text by apply Hok|].
        destruct Hok as [_ Hx]. rewrite u64_small by done. by rewrite hex_text. }
      apply (wp_number _ long c _ _ _ _ (text_of it)); try done.
      - destruct Hl as [[_ ->]|[_ ->]]; [apply dec_bytes|apply hex_bytes].
      - unfold beside. lia.
      - intros m' Hw'. specialize (HQ m' Hw').
        by replace (f + 1 + zlen w + zlen (if long then [108; c] else [c])) with (f + (1 + (zlen w + zlen (if long then [108; c] else [c])))) by lia. }
    destruct long; eapply wp_percent; (done || exact Hcv || (split; done) || (destruct Hc as [[_ ->]|[_ ->]]; done)). }
  destruct it as [b| |x|w long x|w long x|w p s]; cbn [args_of app].
  - destruct Hok as [Hb0 Hb1], Hb as [Hb _]. unfold turn. wp_step. eapply wp_load; [exact Hb|].
    rewrite (proj2 (Z.eqb_neq b 0)), (proj2 (Z.eqb_neq _ _) Hb1) by lia. wp_step. change (zlen (text_of (Lit b))) with 1 in *.
    apply wp_put_byte; [done|lia|apply Hm; lia|]. rewrite u8_byte by (unfold is_byte; lia).
    wp_step. apply HQ. apply wrote_byte; [unfold is_byte; lia|lia|done].
  - destruct Hb as (Hb&Hb'&_). unfold turn. wp_step. eapply wp_load; [exact Hb|]. cbn [Z.eqb Pos.eqb]. wp_step.
    eapply wp_load; [exact Hb'|]. cbn [Z.eqb Pos.eqb]. wp_step. change (zlen (text_of Percent)) with 1 in *.
    apply wp_put_byte; [done|lia|apply Hm; lia|]. wp_step. apply HQ. by apply wrote_byte; [|lia|].
  - pose proof Hb as (_&Hb'&_). change (zlen (text_of (Char x))) with 1 in *. eapply (wp_percent [] 99 []); [done|by split; [apply List.Forall_nil|split]|done|done|].
    change (f + 1 + zlen []) with (f + 1 + 0). rewrite Z.add_0_r. unfold Stdio.conversion. wp_step. eapply wp_load; [exact Hb'|].
    cbn [Z.eqb Pos.eqb Stdio.va_arg]. wp_step. wp_step. wp_step. apply wp_put_byte; [done|lia|apply Hm; lia|]. wp_step.
    replace (f + 1 + 1) with (f + 2) by lia. apply HQ. apply wrote_byte; [apply wrap_bound; lia|lia|done].
  - by eapply (Hnum w long x 100); [left|].
  - by eapply (Hnum w long x 120); [right|].
  - destruct Hok as [Hw Hs]. cbn [spell text_of] in *. rewrite zlen_cons, zlen_app in *. change (zlen [115]) with 1 in *.
    pose proof Hb as [_ Hb']. apply bytes_at_app in Hb' as [_ [Hb' _]]. eapply wp_percent; [exact Hb|done|done|done|].
    unfold Stdio.conversion. wp_step. eapply wp_load; [exact Hb'|]. cbn [Z.eqb Pos.eqb Stdio.va_arg]. wp_step. wp_step. wp_step.
    unfold beside in *. pose proof (zlen_nonneg w).
    set (l := cut _ _ ++ _) in *. assert (Hsame : same_outside dst (dst + size) m (<[d := 0]> m)) by (intros a Ha; apply lookup_insert_ne; lia).
    apply wp_put_byte; [done|lia|apply Hm; lia|]. wp_step. eapply wp_load; [rewrite lookup_insert_ne by lia; exact Hb'|].
    cbn [Z.eqb Pos.eqb Stdio.va_arg]. wp_step. wp_step. wp_step.
    apply (wp_string (value w) p s); try done; [by apply mapped_insert|by eapply string_at_same| |rewrite zlen_app; exact Hd|].
    { destruct Hw as (Hdig&_). apply (value_from_mono w 0 Hdig). lia. }
    intros m' Hwr. wp_step. replace (f + 1 + zlen w + 1) with (f + (1 + (zlen w + 1))) by lia. apply HQ.
    eapply wrote_behind; [|done]. lia.
Qed.

Lemma wp_items items : forall n f d args (Q : Z -> mem -> Prop) m,
  (0 < fuel)%nat -> dst <> 0 -> dst <= d -> mapped m dst size -> Forall (item_ok m) items ->
  bytes_at m f (concat (map spell items) ++ [0]) -> beside f (zlen (concat (map spell items)) + 1) ->
  d + zlen (concat (map text_of items)) < dst + size -> (length items < n)%nat ->
  (forall m', wrote m d (concat (map text_of items)) m' -> Q (d + zlen (concat (map text_of items))) m') ->
  wp (iter n turn (f, d, flat_map args_of items ++ args)) Q m.
Proof.
  induction items as [|it items IH]; intros n f d args Q m Hfu Ho Hlo Hm Hok Hb Hbes Hd Hn HQ;
    (destruct n as [|n]; [simpl in Hn; lia|]); rewrite iter_S; wp_step.
  - destruct Hb as [Hb _]. unfold turn. wp_step. eapply wp_load; [exact Hb|]. cbn [Z.eqb]. wp_step. wp_step.
    specialize (HQ m). change (zlen _) with 0 in HQ. rewrite Z.add_0_r in HQ. by apply HQ.
  - apply Forall_cons in Hok as [Hok Hoks]. cbn [map concat flat_map] in *. rewrite <- app_assoc in *.
    rewrite !zlen_app in *. unfold beside in *. pose proof (zlen_nonneg (concat (map spell items))).
    pose proof (zlen_nonneg (concat (map text_of items))). pose proof (zlen_nonneg (text_of it)). pose proof (zlen_nonneg (spell it)).
    apply bytes_at_app in Hb as [Hb Hb']. apply wp_item; try done; [unfold beside; lia|lia|].
    intros m1 W1. assert (Hs : same_outside dst (dst + size) m m1) by (intros a Ha; apply W1; lia).
    rewrite !Z.add_assoc in *. apply IH; try done; [lia|apply W1| | |lia|simpl in Hn; lia|].
    + eapply Forall_impl; [exact Hoks|]. intros x. by apply item_ok_same.
    + eapply bytes_at_same; [exact Hs| |done]. rewrite zlen_app. change (zlen [0]) with 1. lia.
    + intros m2 W2. apply HQ. split; [|intros a Ha; rewrite (w_rest _ _ _ _ W2) by lia; apply W1; lia|apply W2].
      apply bytes_at_app. split; [|apply W2]. eapply bytes_at_same; [apply W2|lia|apply W1].
Qed.

End Text.

(** C17: a text that fits is written: [vsnprintf] with a format of plain bytes, percent signs,
    characters, numbers and strings writes their text and its terminator into the buffer,
    answers the length of the text and changes nothing else; strings are cut and filled up
    to their width, and a null pointer is written as "(null)".  The buffer is as large as the
    text and its terminator at least, and the format and the strings are not in it.  (When a
    text does not fit, see [full_buffer_overflows] and [string_behind_buffer].) *)
Theorem vsnprintf_writes fuel dst size fmt items m :
  let text := concat (map text_of items) in
  dst <> 0 -> zlen text < size < 2 ^ 31 -> mapped m dst size ->
  bytes_at m fmt (concat (map spell items) ++ [0]) -> beside dst size fmt (zlen (concat (map spell items)) + 1) ->
  Forall (item_ok fuel dst size m) items -> (length items < fuel)%nat ->
  exists m', Stdio.vsnprintf fuel dst size fmt (flat_map args_of items) m = Ret (zlen text) m' /\
    bytes_at m' dst (text ++ [0]) /\ forall a, a < dst \/ dst + size <= a -> m' !! a = m !! a.
Proof.
  intros text Ho Hsize Hm Hb Hbes Hok Hf. pose proof (zlen_nonneg text).
  enough (wp (Stdio.vsnprintf fuel dst size fmt (flat_map args_of items)) (fun r m' => r = zlen text /\
    bytes_at m' dst (text ++ [0]) /\ forall a, a < dst \/ dst + size <= a -> m' !! a = m !! a) m) as Hw
    by (apply wp_run in Hw as (r & m' & Hrun & -> & Hm'); by exists m').
  unfold Stdio.vsnprintf. wp_step. rewrite <- (app_nil_r (flat_map _ _)).
  change (Stdio.format fuel dst (dst + size) fmt dst) with (fun args => iter fuel (turn fuel dst size) (fmt, dst, args)). cbv beta.
  apply (wp_items fuel dst size items); try done; [lia| |]; [fold text; lia|]. fold text. intros m1 [W1 W2 W3].
  unfold Stdio.terminate. rewrite (proj2 (Z.eqb_neq _ _) Ho). cbn [negb when]. wp_step.
  rewrite (proj2 (Z.ltb_lt (dst + zlen text) _)) by lia. apply wp_store; [apply W3; lia|]. wp_step.
  replace (dst + zlen text - dst) with (zlen text) by lia. rewrite s32_small by lia. change (u8 0) with 0. split; [|split].
  - done.
  - apply bytes_at_app. split; [|split; [apply lookup_insert_eq|done]]. apply bytes_at_insert; [lia|done].
  - intros a Ha. rewrite lookup_insert_ne by lia. apply W2. lia.
Qed.

(** "n=%5ld %s%%%2x" with -42, "ab" and 10 into 24 bytes at 200: "n=  -42 ab%000A". *)
Definition parts : list item := [Lit 110; Lit 61; Dec [53] true (-42); Lit 32; Str [] 300 [97; 98]; Percent; Hex [50] false 10].
Definition bytes_from (p : Z) (l : list Z) : mem := list_to_map (imap (fun i b => (p + Z.of_nat i, b)) l).
Definition letters : mem :=
  bytes_from 100 (concat (map spell parts) ++ [0]) ∪ (bytes_from 200 (List.repeat 7 24) ∪ bytes_from 300 [97; 98; 0]).

Lemma vsnprintf_writes_witness :
  let text := [110; 61; 32; 32; 45; 52; 50; 32; 97; 98; 37; 48; 48; 48; 65] in
  exists m', Stdio.vsnprintf 20 200 24 100 [u64 (-42); 300; 10] letters = Ret 15 m' /\
    bytes_at m' 200 (text ++ [0]) /\ forall a, a < 200 \/ 200 + 24 <= a -> m' !! a = letters !! a.
Proof.
  apply (vsnprintf_writes 20 200 24 100 parts letters).
  - done.
  - by vm_compute.
  - intros a Ha. destruct (zget_is_Some (List.repeat 7 24) (a - 200)) as [v Hv]; [change (zlen (List.repeat 7 24)) with 24; lia|].
    assert (H : bytes_at letters 200 (List.repeat 7 24)) by (vm_compute; tauto).
    apply (bytes_at_get _ _ _ _ _ H) in Hv. replace (200 + (a - 200)) with a in Hv by lia. by exists v.
  - vm_compute. tauto.
  - left. by vm_compute.
  - assert (Hw : forall n, LibcStd.is_digit n = true -> n < 58 -> width_ok 20 [n]).
    { intros n Hn Hn'. split; [by constructor|]. split; [|simpl; lia]. unfold LibcStd.is_digit in Hn. unfold value, value_from. simpl. lia. }
    assert (H0 : width_ok 20 []) by (split; [constructor|split; [done|simpl; lia]]).
    repeat (apply List.Forall_cons || apply List.Forall_nil); cbn [item_ok]; try (split; lia); try done.
    + split; [by apply Hw|]. unfold Stdio.DECMAX. lia.
    + split; [done|]. right. split; [done|]. split; [|split; [simpl; lia|right; by vm_compute]].
      split; [vm_compute; tauto|by repeat constructor].
    + split; [by apply Hw|]. lia.
  - simpl. lia.
Defined.

(** ** When a text does not fit *)

Lemma load_run p b m : m !! p = Some b -> load p m = Ret b m.
Proof. unfold load, bind, get, need. by intros ->. Qed.

(** "abc" into two bytes at 200: what fits is written, and the byte 202 behind the buffer
    becomes zero. *)
Theorem full_buffer_overflows :
  exists m', Stdio.vsnprintf 9 200 2 100 [] StdioFacts.text = Ret 3 m' /\ StdioFacts.text !! 202 = Some 3 /\ m' !! 202 = Some 0.
Proof. eexists. split; [vm_compute; reflexivity|]. by split. Qed.

(** A string once the position is behind the end: the number of the bytes to copy, the end
    less the position, is negative, which [memcpy] takes for a huge one.  The behaviour is
    undefined, whatever the string and its width. *)
Lemma put_string_behind fuel dst size d w p s m :
  dst <> 0 -> dst + size < d -> 0 <= w -> string_at fuel dst size m p s -> Stdio.put_string fuel dst (dst + size) d w p m = UB.
Proof.
  intros Ho Hd Hw Hs. unfold Stdio.put_string.
  assert ((if p =? 0 then ret (zlen Stdio.stdlib_nullstr) else strlen fuel p) m = Ret (zlen s) m) as Hlen.
  { destruct Hs as [[-> ->]|(Hp&Hc&Hfu&_)]; [done|]. rewrite (proj2 (Z.eqb_neq _ _) Hp).
    assert (wp (strlen fuel p) (fun r m' => r = zlen s /\ m' = m) m) as Hl by by eapply wp_strlen.
    apply wp_run in Hl as (r&m'&Hrun&->&->). exact Hrun. }
  rewrite (run_bind _ _ _ _ _ Hlen). cbv zeta. rewrite (proj2 (Z.eqb_neq _ _) Ho). cbn [negb].
  set (i := if _ && _ then w else _). pose proof (zlen_nonneg s).
  assert (0 <= i) by (unfold i; destruct ((0 <? w) && (w <? zlen s)); lia).
  rewrite (proj2 (Z.ltb_ge (d + i) _)) by lia. by rewrite (proj2 (Z.ltb_lt (dst + size - d) 0)) by lia.
Qed.

(** One turn of the loop for a plain byte. *)
Lemma turn_byte fuel dst size f d b args m :
  m !! f = Some b -> b <> 0 -> b <> 37 -> dst <> 0 -> is_Some (m !! d) \/ dst + size <= d ->
  turn fuel dst size (f, d, args) m =
    Ret (inl (f + 1, d + 1, args)) (if d <? dst + size then <[d := u8 b]> m else m).
Proof.
  intros Hl Hb0 Hb37 Ho Hd. unfold turn. rewrite (run_bind _ _ _ _ _ (load_run _ _ _ Hl)).
  rewrite (proj2 (Z.eqb_neq _ _) Hb0), (proj2 (Z.eqb_neq _ _) Hb37). unfold Stdio.put_byte.
  rewrite (proj2 (Z.eqb_neq _ _) Ho). cbn [negb andb]. destruct (Z.ltb_spec d (dst + size)); [|done].
  destruct Hd as [[v Hv]|]; [|lia]. cbn [when]. unfold store, bind, get, need, put. by rewrite Hv.
Qed.

(** One turn for "%s" behind the end. *)
Lemma turn_string_behind fuel dst size f d p s m :
  (0 < fuel)%nat -> dst <> 0 -> dst + size < d -> m !! f = Some 37 -> m !! (f + 1) = Some 115 ->
  string_at fuel dst size m p s -> turn fuel dst size (f, d, [p]) m = UB.
Proof.
  intros Hfu Ho Hd B3 B4 Hs. unfold turn. rewrite (run_bind _ _ _ _ _ (load_run _ _ _ B3)). cbn [Z.eqb Pos.eqb].
  rewrite (run_bind _ _ _ _ _ (load_run _ _ _ B4)). cbn [Z.eqb Pos.eqb].
  assert (Stdio.width fuel (f + 1) m = Ret (f + 1, 0) m) as Hwd.
  { unfold Stdio.width. destruct fuel as [|n]; [lia|]. rewrite iter_S. unfold bind at 1 2. by rewrite (load_run _ _ _ B4). }
  rewrite (run_bind _ _ _ _ _ Hwd). unfold Stdio.conversion. unfold bind at 1.
  unfold bind at 1. rewrite (load_run _ _ _ B4). cbn [Z.eqb Pos.eqb]. unfold bind at 1, ret at 1. cbn [Z.eqb Pos.eqb].
  unfold Stdio.put_byte. rewrite (proj2 (Z.eqb_neq _ _) Ho), (proj2 (Z.ltb_ge d _)) by lia. cbn [negb andb when].
  unfold bind at 1, ret at 1. cbv zeta. unfold bind at 1. rewrite (load_run _ _ _ B4). cbn [Z.eqb Pos.eqb Stdio.va_arg].
  unfold bind at 1, ret at 1. unfold bind at 1. by rewrite (put_string_behind _ _ _ _ _ _ s).
Qed.

(** "abc%s" into two bytes: the behaviour is undefined with every string. *)
Theorem string_behind_buffer dst fmt p s m fuel :
  (4 <= fuel)%nat -> dst <> 0 -> mapped m dst 2 -> bytes_at m fmt [97; 98; 99; 37; 115; 0] -> beside dst 2 fmt 6 ->
  string_at fuel dst 2 m p s -> Stdio.vsnprintf fuel dst 2 fmt [p] m = UB.
Proof.
  intros Hf Ho Hm Hb Hbes Hs. unfold beside in Hbes. unfold Stdio.vsnprintf, bind at 1.
  change (Stdio.format fuel dst (dst + 2) fmt dst [p] m) with (iter fuel (turn fuel dst 2) (fmt, dst, [p]) m).
  set (m2 := <[dst + 1 := u8 98]> (<[dst := u8 97]> m)).
  assert (Hm2 : same_outside dst (dst + 2) m m2) by (intros a Ha; unfold m2; by rewrite !lookup_insert_ne by lia).
  assert (Hb2 : bytes_at m2 fmt [97; 98; 99; 37; 115; 0]) by (eapply bytes_at_same; [exact Hm2|change (zlen _) with 6; lia|done]).
  assert (Hb1 : bytes_at (<[dst := u8 97]> m) fmt [97; 98; 99; 37; 115; 0]) by (apply bytes_at_insert; [change (zlen _) with 6; lia|done]).
  destruct Hb as (B0&_), Hb1 as (_&B1&_), Hb2 as (_&_&B2&B3&B4&_).
  assert (Hn : exists n, fuel = S (S (S (S n)))) by (destruct fuel as [|[|[|[|n]]]]; try lia; by exists n).
  destruct Hn as [n Hn]. rewrite Hn at 1. rewrite iter_S, (run_bind _ _ _ _ _ (turn_byte _ _ _ _ _ _ _ _ B0 ltac:(lia) ltac:(lia) Ho (or_introl (Hm dst ltac:(lia))))).
  rewrite (proj2 (Z.ltb_lt dst _)) by lia. rewrite iter_S, (run_bind _ _ _ _ _ (turn_byte _ _ _ _ _ _ _ _ B1 ltac:(lia) ltac:(lia) Ho
    (or_introl (mapped_insert m dst 2 dst _ Hm (dst + 1) ltac:(lia))))).
  rewrite (proj2 (Z.ltb_lt (dst + 1) _)) by lia. fold m2.
  rewrite iter_S, (run_bind _ _ _ _ _ (turn_byte fuel dst 2 (fmt + 1 + 1) (dst + 1 + 1) 99 [p] m2 B2 ltac:(lia) ltac:(lia) Ho ltac:(right; lia))).
  rewrite (proj2 (Z.ltb_ge (dst + 1 + 1) _)) by lia. rewrite iter_S. unfold bind at 1.
  rewrite (turn_string_behind _ _ _ _ _ _ s); try done; [lia|lia|]. by eapply string_at_same.
Qed.

End StdioText.
