(* ===== verification/Qsort.v ===== *)
(** The sort of the C library, src/libc/qsort.c (Bentley and McIlroy's quicksort), on an
    array of elements: indices count elements, so the element size [es] and the swap of
    words or bytes it selects do not show.  The byte distances the code keeps in an [int]
    are exact for arrays below 2G. *)
From Stdlib Require Import ZArith Lia List.
From stdpp Require Import base option list.
From S2P Require Import Prelude.

Module Qsort.

Section Ops.
Context {A : Type}.
(** The comparison; [None] when it is undefined. *)
Variable cmp : A -> A -> option Z.

Definition elem (i : Z) : M (list A) A := l <-- get ;; need (zget l i).

Definition swap (i j : Z) : M (list A) unit :=
  x <-- elem i ;; y <-- elem j ;;
  modify (fun l => zset (zset l i y) j x).

(** [cmp] of the elements at two places. *)
Definition compare (i j : Z) : M (list A) Z :=
  x <-- elem i ;; y <-- elem j ;; need (cmp x y).

(** [vecswap(a, b, n)]: [n] elements from [i] and from [j] on. *)
Fixpoint vecswap (n : nat) (i j : Z) : M (list A) unit :=
  match n with
  | O => ret tt
  | S n' => swap i j ;;; vecswap n' (i + 1) (j + 1)
  end.

Definition med3 (a b c : Z) : M (list A) Z :=
  r <-- compare a b ;;
  if r <? 0 then
    r <-- compare b c ;;
    if r <? 0 then ret b else r <-- compare a c ;; ret (if r <? 0 then c else a)
  else
    r <-- compare b c ;;
    if 0 <? r then ret b else r <-- compare a c ;; ret (if r <? 0 then a else c).

(** The inner loop of the insertion sort; [k] is [pl - a]. *)
Fixpoint sink (k : nat) (pl : Z) : M (list A) unit :=
  match k with
  | O => ret tt
  | S k' => r <-- compare (pl - 1) pl ;;
            if 0 <? r then swap pl (pl - 1) ;;; sink k' (pl - 1) else ret tt
  end.
(** Its outer loop, for the [n] elements from [a + k] on. *)
Fixpoint insertion_from (n k : nat) (a : Z) : M (list A) unit :=
  match n with
  | O => ret tt
  | S n' => sink k (a + Z.of_nat k) ;;; insertion_from n' (S k) a
  end.
Definition insertion (a n : Z) : M (list A) unit := insertion_from (Z.to_nat (n - 1)) 1 a.

(** The pivot, an index. *)
Definition pivot (a n : Z) : M (list A) Z :=
  let pm := a + n / 2 in
  if 7 <? n then
    let pl := a in
    let pn := a + (n - 1) in
    if 40 <? n then
      let d := n / 8 in
      pl <-- med3 pl (pl + d) (pl + 2 * d) ;;
      pm <-- med3 (pm - d) pm (pm + d) ;;
      pn <-- med3 (pn - 2 * d) (pn - d) pn ;;
      med3 pl pm pn
    else med3 pl pm pn
  else ret pm.

(** [while(pb <= pc && (r = cmp(pb, a)) <= 0)], with the elements equal to the pivot
    swapped to the front. *)
Definition scan_up (fuel : nat) (a pc : Z) : Z * Z * bool -> M (list A) (Z * Z * bool) :=
  iter fuel (fun st : Z * Z * bool => let '(pa, pb, cnt) := st in
    if pb <=? pc then
      r <-- compare pb a ;;
      if 0 <? r then ret (inr (pa, pb, cnt))
      else if r =? 0 then swap pa pb ;;; ret (inl (pa + 1, pb + 1, true))
      else ret (inl (pa, pb + 1, cnt))
    else ret (inr (pa, pb, cnt))).

(** The scan from the other end. *)
Definition scan_down (fuel : nat) (a pb : Z) : Z * Z * bool -> M (list A) (Z * Z * bool) :=
  iter fuel (fun st : Z * Z * bool => let '(pc, pd, cnt) := st in
    if pb <=? pc then
      r <-- compare pc a ;;
      if r <? 0 then ret (inr (pc, pd, cnt))
      else if r =? 0 then swap pc pd ;;; ret (inl (pc - 1, pd - 1, true))
      else ret (inl (pc - 1, pd, cnt))
    else ret (inr (pc, pd, cnt))).

(** The loop around both; it answers the four pointers and [swap_cnt]. *)
Definition partition (fuel : nat) (a : Z) : Z * Z * Z * Z * bool -> M (list A) (Z * Z * Z * Z * bool) :=
  iter fuel (fun st : Z * Z * Z * Z * bool => let '(pa, pb, pc, pd, cnt) := st in
    u <-- scan_up fuel a pc (pa, pb, cnt) ;;
    let '(pa, pb, cnt) := u in
    v <-- scan_down fuel a pb (pc, pd, cnt) ;;
    let '(pc, pd, cnt) := v in
    if pc <? pb then ret (inr (pa, pb, pc, pd, cnt))
    else swap pb pc ;;; ret (inl (pa, pb + 1, pc - 1, pd, true))).

(** [qsort] of the [n] elements from [a] on.  [fuel] bounds the depth of the calls and the
    rounds of the loops. *)
Fixpoint qsort (fuel : nat) (a n : Z) : M (list A) unit :=
  match fuel with
  | O => loop
  | S fuel' =>
      if n <? 7 then insertion a n else
      pm <-- pivot a n ;;
      swap a pm ;;;
      p <-- partition fuel a (a + 1, a + 1, a + (n - 1), a + (n - 1), false) ;;
      let '(pa, pb, pc, pd, cnt) := p in
      if (cnt : bool) then
        let pn := a + n in
        let r := Z.min (pa - a) (pb - pa) in
        vecswap (Z.to_nat r) a (pb - r) ;;;
        let r := Z.min (pd - pc) (pn - pd - 1) in
        vecswap (Z.to_nat r) pb (pn - r) ;;;
        when (1 <? pb - pa) (qsort fuel' a (pb - pa)) ;;;
        when (1 <? pd - pc) (qsort fuel' (pn - (pd - pc)) (pd - pc))
      else insertion a n
  end.

End Ops.
End Qsort.
