(* ===== verification/QsortFacts.v ===== *)
(** The sort of the C library sorts: the insertion sort and the three-way partition of
    Qsort, and the recursion over both. *)
From Stdlib Require Import ZArith Lia List Sorted.
From stdpp Require Import base option list sorting.
From S2P Require Import Prelude Qsort.
Import Qsort.

Module QsortFacts.

Section Sort.
Context {A : Type} (cmp : A -> A -> option Z) (R : A -> A -> Prop).

(** A comparison that answers the sign of a total preorder [R]. *)
Class Compares : Prop := {
  cmp_sign x y : exists r, cmp x y = Some r /\ (r <= 0 <-> R x y) /\ (0 <= r <-> R y x);
  R_trans : Transitive R;
}.
Context {C : Compares}.
#[local] Existing Instance R_trans.

Implicit Types (l m pre post es ls us gs fs : list A) (x y v : A).

Lemma R_total x y : R x y \/ R y x.
Proof. destruct (cmp_sign x y) as (r&_&H1&H2). destruct (Z_le_dec r 0); [left; tauto|right; apply H2; lia]. Qed.

Definition lt x y := ~ R y x.
Definition eqv x y := R x y /\ R y x.

(** ** Arrays as lists around the places looked at *)

Lemma zget_at pre x post : zget (pre ++ x :: post) (zlen pre) = Some x.
Proof. by rewrite zget_app_r, Z.sub_diag by lia. Qed.

Lemma zset_at pre x y post : zset (pre ++ x :: post) (zlen pre) y = pre ++ y :: post.
Proof.
  unfold zset, zlen. destruct (Z.ltb_spec (Z.of_nat (length pre)) 0); [lia|]. rewrite Nat2Z.id.
  by rewrite insert_app_r_alt, Nat.sub_diag by lia.
Qed.

Lemma wp_elem l pre x post i (Q : A -> list A -> Prop) :
  l = pre ++ x :: post -> i = zlen pre -> Q x l -> wp (elem i) Q l.
Proof. intros -> ->. intros HQ. unfold elem. wp_go. eapply wp_need; [apply zget_at|done]. Qed.

(** Two different places, in either order. *)
Lemma wp_swap l pre x mid y post i j (Q : unit -> list A -> Prop) :
  l = pre ++ x :: mid ++ y :: post -> (i, j) = (zlen pre, zlen pre + 1 + zlen mid) \/ (j, i) = (zlen pre, zlen pre + 1 + zlen mid) ->
  Q tt (pre ++ y :: mid ++ x :: post) -> wp (swap i j) Q l.
Proof.
  intros -> Hij HQ.
  assert (E : forall a b, pre ++ a :: mid ++ b = (pre ++ a :: mid) ++ b) by (intros; by rewrite <- app_assoc).
  assert (Ej : forall a, zlen (pre ++ a :: mid) = zlen pre + 1 + zlen mid) by (intros; rewrite zlen_app, zlen_cons; lia).
  destruct Hij as [Hij|Hij]; injection Hij as -> ->; unfold swap; apply wp_bind.
  - eapply wp_elem; [done|done|]. apply wp_bind. eapply wp_elem; [apply E|by rewrite Ej|]. wp_go.
    rewrite zset_at, E, <- (Ej y), zset_at, <- E. done.
  - eapply wp_elem; [apply E|by rewrite Ej|]. apply wp_bind. eapply wp_elem; [done|done|]. wp_go.
    rewrite E, <- (Ej x), zset_at, <- E, zset_at. done.
Qed.

Lemma wp_swap_same l pre x post i (Q : unit -> list A -> Prop) :
  l = pre ++ x :: post -> i = zlen pre -> Q tt l -> wp (swap i i) Q l.
Proof.
  intros -> -> HQ. unfold swap. apply wp_bind. eapply wp_elem; [done|done|].
  apply wp_bind. eapply wp_elem; [done|done|]. wp_go. by rewrite !zset_at.
Qed.

Lemma wp_compare l i j x y (Q : Z -> list A -> Prop) :
  zget l i = Some x -> zget l j = Some y ->
  (forall r, (r <= 0 <-> R x y) -> (0 <= r <-> R y x) -> Q r l) -> wp (compare cmp i j) Q l.
Proof.
  intros Hi Hj HQ. destruct (cmp_sign x y) as (r&Hr&H1&H2). unfold compare, elem. wp_go.
  eapply wp_need; [done|]. wp_go. eapply wp_need; [done|]. eapply wp_need; [done|]. by apply HQ.
Qed.

(** [vecswap] exchanges two blocks of the same length. *)
Lemma wp_vecswap n l pre xs mid ys post i j (Q : unit -> list A -> Prop) :
  l = pre ++ xs ++ mid ++ ys ++ post -> length xs = n -> length ys = n ->
  i = zlen pre -> j = zlen pre + zlen xs + zlen mid ->
  Q tt (pre ++ ys ++ mid ++ xs ++ post) -> wp (vecswap n i j) Q l.
Proof.
  revert l pre xs mid ys i j. induction n as [|n IH]; intros l pre xs mid ys i j -> Hx Hy -> -> HQ.
  - destruct xs; [|done]. destruct ys; [|done]. by apply wp_ret.
  - destruct xs as [|x xs], ys as [|y ys]; try done. cbn [vecswap]. apply wp_bind. cbn [app].
    eapply (wp_swap _ pre x (xs ++ mid) y (ys ++ post)); [by rewrite <- !app_assoc|left; f_equal; rewrite zlen_cons, zlen_app; lia|].
    eapply (IH _ (pre ++ [y]) xs (mid ++ [x]) ys);
      [rewrite <- !app_assoc; cbn [app]; done|by injection Hx|by injection Hy|rewrite zlen_app; done| |].
    + rewrite !zlen_app, !zlen_cons. change (zlen []) with 0. lia.
    + rewrite <- !app_assoc. exact HQ.
Qed.

(** ** Sorted lists *)

#[local] Abbreviation sorted := (StronglySorted R).

Lemma sorted_app xs ys : sorted xs -> sorted ys -> (forall x y, x ∈ xs -> y ∈ ys -> R x y) -> sorted (xs ++ ys).
Proof.
  intros Hx Hy H. induction Hx as [|x xs Hx IH Hall]; [done|]. cbn. constructor.
  - apply IH. intros. apply H; [by right|done].
  - rewrite Forall_app. split; [done|]. apply Forall_forall. intros y ?. apply H; [by left|done].
Qed.

Lemma sorted_split xs ys : sorted (xs ++ ys) -> sorted xs /\ sorted ys /\ forall x y, x ∈ xs -> y ∈ ys -> R x y.
Proof.
  induction xs as [|x xs IH]; cbn.
  - intros H. repeat split; [constructor|done|]. intros ? ? []%elem_of_nil.
  - intros [H Hall]%StronglySorted_inv. destruct (IH H) as (H1&H2&H3). rewrite Forall_app in Hall. destruct Hall as [F1 F2].
    repeat split; [by constructor|done|]. intros a y [->|Ha]%elem_of_cons Hy; [|by apply H3].
    rewrite Forall_forall in F2. by apply F2.
Qed.

(** ** The insertion sort *)

Lemma wp_sink s1 : forall s2 l pre y post pl (Q : unit -> list A -> Prop),
  l = pre ++ s1 ++ y :: s2 ++ post -> pl = zlen pre + zlen s1 ->
  sorted (s1 ++ s2) -> Forall (R y) s2 ->
  (forall s', s' ≡ₚ s1 ++ y :: s2 -> sorted s' -> Q tt (pre ++ s' ++ post)) ->
  wp (sink cmp (length s1) pl) Q l.
Proof.
  induction s1 as [|x s1 IH] using rev_ind; intros s2 l pre y post pl Q -> -> Hs Hy HQ.
  - cbn. apply wp_ret. specialize (HQ (y :: s2)). cbn in HQ. apply HQ; [done|]. by constructor.
  - rewrite length_app. cbn [length]. rewrite Nat.add_1_r. cbn [sink]. rewrite zlen_app in *. change (zlen [x]) with 1.
    replace (zlen pre + (zlen s1 + 1) - 1) with (zlen (pre ++ s1)) by (rewrite zlen_app; lia).
    replace (zlen pre + (zlen s1 + 1)) with (zlen (pre ++ s1 ++ [x])) by (rewrite !zlen_app; done).
    assert (E1 : pre ++ (s1 ++ [x]) ++ y :: s2 ++ post = (pre ++ s1) ++ x :: y :: s2 ++ post) by by rewrite <- !app_assoc.
    assert (E2 : pre ++ (s1 ++ [x]) ++ y :: s2 ++ post = (pre ++ s1 ++ [x]) ++ y :: s2 ++ post) by by rewrite <- !app_assoc.
    apply wp_bind. eapply wp_compare; [rewrite E1; apply zget_at|rewrite E2; apply zget_at|]. intros r Hle Hge.
    apply sorted_split in Hs as (Hs1&Hs2&Hs12). destruct (Z.ltb_spec 0 r).
    + apply wp_bind. assert (HR : R y x) by (apply Hge; lia).
      eapply (wp_swap _ (pre ++ s1) x [] y (s2 ++ post));
        [done|right; f_equal; rewrite !zlen_app; change (zlen [x]) with 1; change (zlen (A := A) []) with 0; lia|].
      cbn [app]. eapply (IH (x :: s2) _ pre y post).
      * by rewrite <- !app_assoc.
      * by rewrite zlen_app.
      * apply sorted_split in Hs1 as (Hs0&_&Hsx). apply sorted_app; [done| |].
        -- constructor; [done|]. apply Forall_forall. intros z Hz. apply Hs12; [|done]. apply elem_of_app. right. by left.
        -- intros a b Ha [->|Hb]%elem_of_cons; [apply Hsx; [done|by left]|]. apply Hs12; [|done]. apply elem_of_app. by left.
      * by constructor.
      * intros s' Hp Hsort. apply HQ; [|done]. rewrite Hp, <- app_assoc. cbn [app]. apply Permutation_app_head. constructor.
    + apply wp_ret. assert (HR : R x y) by (apply Hle; lia).
      replace (pre ++ (s1 ++ [x]) ++ y :: s2 ++ post) with (pre ++ ((s1 ++ [x]) ++ y :: s2) ++ post) by by rewrite <- !app_assoc.
      apply HQ; [done|]. apply sorted_app; [done|by constructor|]. intros a b Ha [->|Hb]%elem_of_cons; [|by apply Hs12].
      apply elem_of_app in Ha as [Ha|Ha%list_elem_of_singleton]; [|by subst a].
      apply sorted_split in Hs1 as (_&_&Hsx). transitivity x; [apply Hsx; [done|by left]|done].
Qed.

Lemma wp_insertion_from n : forall s rest l pre post (Q : unit -> list A -> Prop),
  l = pre ++ s ++ rest ++ post -> length rest = n -> sorted s ->
  (forall s', s' ≡ₚ s ++ rest -> sorted s' -> Q tt (pre ++ s' ++ post)) ->
  wp (insertion_from cmp n (length s) (zlen pre)) Q l.
Proof.
  induction n as [|n IH]; intros s rest l pre post Q -> Hn Hs HQ.
  - destruct rest; [|done]. cbn. apply wp_ret. apply HQ; [by rewrite app_nil_r|done].
  - destruct rest as [|y rest]; [done|]. cbn [insertion_from]. apply wp_bind.
    change (zlen pre + Z.of_nat (length s)) with (zlen pre + zlen s).
    eapply (wp_sink s [] _ pre y (rest ++ post)); [done|done|by rewrite app_nil_r|done|].
    intros s' Hp Hs'. replace (S (length s)) with (length s') by (rewrite Hp, length_app; cbn; lia).
    eapply IH; [done|by injection Hn|done|]. intros s'' Hp' Hs''. apply HQ; [|done].
    rewrite Hp', Hp, <- app_assoc. done.
Qed.

Lemma wp_insertion l pre m post n (Q : unit -> list A -> Prop) :
  l = pre ++ m ++ post -> n = zlen m ->
  (forall m', m' ≡ₚ m -> sorted m' -> Q tt (pre ++ m' ++ post)) ->
  wp (insertion cmp (zlen pre) n) Q l.
Proof.
  intros -> -> HQ. unfold insertion. destruct m as [|x m].
  - cbn. apply wp_ret. apply (HQ []); constructor.
  - eapply (wp_insertion_from _ [x] m); [done|unfold zlen; cbn; lia|repeat constructor|]. intros s' Hp. by apply HQ.
Qed.

(** ** The partition

    Behind [pre] stand the pivot [v], elements equal to it, smaller ones, those not looked
    at yet, larger ones, and again equal ones; together they are the elements [m]. *)
Record part pre post m v es ls us gs fs l : Prop := {
  part_l : l = pre ++ v :: es ++ ls ++ us ++ gs ++ fs ++ post;
  part_m : v :: es ++ ls ++ us ++ gs ++ fs ≡ₚ m;
  part_es : Forall (eqv v) es;
  part_fs : Forall (eqv v) fs;
  part_ls : Forall (fun x => R x v) ls;
  part_gs : Forall (R v) gs;
}.

Definition pa_of pre es : Z := zlen pre + 1 + zlen es.
Definition pb_of pre es ls : Z := pa_of pre es + zlen ls.
Definition pc_of pre es ls us : Z := pb_of pre es ls + zlen us - 1.
Definition pd_of pre es ls us gs : Z := pc_of pre es ls us + zlen gs.

Ltac places := unfold pd_of, pc_of, pb_of, pa_of in *; repeat first [rewrite zlen_app in * | rewrite zlen_cons in *]; change (@zlen A []) with 0 in *; lia.
Ltac pairs := repeat match goal with |- (_, _) = (_, _) => f_equal end; try done; places.
Ltac lists := repeat (progress (rewrite <- ?app_assoc; cbn [app])).

Lemma Forall_snoc (P : A -> Prop) xs x : Forall P xs -> P x -> Forall P (xs ++ [x]).
Proof. intros. apply Forall_app. split; [done|]. by constructor. Qed.

Lemma part_pivot pre post m v es ls us gs fs l :
  part pre post m v es ls us gs fs l -> zget l (zlen pre) = Some v.
Proof. intros [-> _ _ _ _ _]. apply zget_at. Qed.

Lemma part_head pre post m v es ls y us gs fs l :
  part pre post m v es ls (y :: us) gs fs l -> zget l (pb_of pre es ls) = Some y.
Proof.
  intros [-> _ _ _ _ _]. replace (pb_of pre es ls) with (zlen (pre ++ v :: es ++ ls)) by places.
  replace (pre ++ v :: es ++ ls ++ (y :: us) ++ gs ++ fs ++ post) with ((pre ++ v :: es ++ ls) ++ y :: us ++ gs ++ fs ++ post)
    by by lists. apply zget_at.
Qed.

Lemma part_last pre post m v es ls y us gs fs l :
  part pre post m v es ls (us ++ [y]) gs fs l -> zget l (pc_of pre es ls (us ++ [y])) = Some y.
Proof.
  intros [-> _ _ _ _ _]. replace (pc_of pre es ls (us ++ [y])) with (zlen (pre ++ v :: es ++ ls ++ us)) by places.
  replace (pre ++ v :: es ++ ls ++ (us ++ [y]) ++ gs ++ fs ++ post) with ((pre ++ v :: es ++ ls ++ us) ++ y :: gs ++ fs ++ post)
    by by lists. apply zget_at.
Qed.

Lemma part_smaller pre post m v es ls y us gs fs l :
  part pre post m v es ls (y :: us) gs fs l -> R y v -> part pre post m v es (ls ++ [y]) us gs fs l.
Proof.
  intros [-> Hm H1 H2 H3 H4] Hy. constructor; try done.
  - by lists.
  - rewrite <- Hm. by lists.
  - by apply Forall_snoc.
Qed.

Lemma part_larger pre post m v es ls y us gs fs l :
  part pre post m v es ls (us ++ [y]) gs fs l -> R v y -> part pre post m v es ls us (y :: gs) fs l.
Proof.
  intros [-> Hm H1 H2 H3 H4] Hy. constructor; try done.
  - by lists.
  - rewrite <- Hm. by lists.
  - by constructor.
Qed.

(** An element equal to the pivot goes to the front. *)
Lemma wp_equal_front pre post m v es ls y us gs fs l (Q : unit -> list A -> Prop) :
  part pre post m v es ls (y :: us) gs fs l -> eqv v y ->
  (forall ls' l', part pre post m v (es ++ [y]) ls' us gs fs l' -> zlen ls' = zlen ls -> Q tt l') ->
  wp (swap (pa_of pre es) (pb_of pre es ls)) Q l.
Proof.
  intros Hp Hy HQ. destruct Hp as [-> Hm H1 H2 H3 H4].
  assert (H1' : Forall (eqv v) (es ++ [y])) by by apply Forall_snoc.
  destruct ls as [|x ls].
  - replace (pb_of pre es []) with (pa_of pre es) by places.
    eapply (wp_swap_same _ (pre ++ v :: es) y (us ++ gs ++ fs ++ post)); [by lists|places|].
    eapply (HQ []); [|done]. constructor; try done; [by lists|]. rewrite <- Hm. by lists.
  - eapply (wp_swap _ (pre ++ v :: es) x ls y (us ++ gs ++ fs ++ post));
      [by lists|left; f_equal; places|].
    apply Forall_cons in H3 as [Hx H3].
    eapply (HQ (ls ++ [x])); [|places]. constructor; try done.
    + by lists.
    + rewrite <- Hm. lists. solve_Permutation.
    + by apply Forall_snoc.
Qed.

(** And to the end. *)
Lemma wp_equal_back pre post m v es ls y us gs fs l (Q : unit -> list A -> Prop) :
  part pre post m v es ls (us ++ [y]) gs fs l -> eqv v y ->
  (forall gs' l', part pre post m v es ls us gs' (y :: fs) l' -> zlen gs' = zlen gs -> Q tt l') ->
  wp (swap (pc_of pre es ls (us ++ [y])) (pd_of pre es ls (us ++ [y]) gs)) Q l.
Proof.
  intros Hp Hy HQ. destruct Hp as [-> Hm H1 H2 H3 H4].
  assert (H2' : Forall (eqv v) (y :: fs)) by by constructor.
  destruct gs as [|x gs _] using rev_ind.
  - replace (pd_of pre es ls (us ++ [y]) []) with (pc_of pre es ls (us ++ [y])) by places.
    eapply (wp_swap_same _ (pre ++ v :: es ++ ls ++ us) y (fs ++ post));
      [by lists|places|].
    eapply (HQ []); [|done]. constructor; try done; [by lists|]. rewrite <- Hm. by lists.
  - eapply (wp_swap _ (pre ++ v :: es ++ ls ++ us) y gs x (fs ++ post));
      [by lists|left; f_equal; places|].
    apply Forall_app in H4 as [H4 [Hx _]%Forall_cons].
    eapply (HQ (x :: gs)); [|places]. constructor; try done.
    + by lists.
    + rewrite <- Hm. lists. solve_Permutation.
    + by constructor.
Qed.

Lemma wp_scan_up fuel pre post m v es ls us gs fs cnt l (Q : Z * Z * bool -> list A -> Prop) :
  part pre post m v es ls us gs fs l -> (length us < fuel)%nat ->
  (forall es' ls' us' cnt' l', part pre post m v es' ls' us' gs fs l' -> pc_of pre es' ls' us' = pc_of pre es ls us ->
     zlen us' <= zlen us -> us' = [] \/ (exists y t, us' = y :: t /\ ~ R y v) ->
     Q (pa_of pre es', pb_of pre es' ls', cnt') l') ->
  wp (scan_up cmp fuel (zlen pre) (pc_of pre es ls us) (pa_of pre es, pb_of pre es ls, cnt)) Q l.
Proof.
  intros Hp Hf HQ. set (PC := pc_of pre es ls us) in *. unfold scan_up.
  apply wp_iter with
    (I := fun st l => exists es' ls' us' cnt', st = (pa_of pre es', pb_of pre es' ls', cnt') /\ zlen us' <= zlen us
            /\ pc_of pre es' ls' us' = PC /\ part pre post m v es' ls' us' gs fs l)
    (mu := fun st _ => let '(pa, pb, _) := st in Z.to_nat (PC + 1 - pb)).
  - clear l Hp. intros st l (es'&ls'&us'&b&->&Hle&Hpc&Hp). destruct us' as [|y us'].
    + destruct (Z.leb_spec (pb_of pre es' ls') PC); [places|]. apply wp_ret.
      by apply (HQ _ _ []); [..|left].
    + destruct (Z.leb_spec (pb_of pre es' ls') PC); [|pose proof (zlen_nonneg us'); places].
      apply wp_bind. eapply wp_compare; [by eapply part_head|by eapply part_pivot|]. intros r Hr1 Hr2.
      destruct (Z.ltb_spec 0 r).
      * apply wp_ret. apply (HQ _ _ (y :: us')); [done..|]. right. exists y, us'. split; [done|]. intros ?. assert (r <= 0) by tauto. lia.
      * destruct (Z.eqb_spec r 0).
        -- apply wp_bind. eapply wp_equal_front; [done|split; [apply Hr2|apply Hr1]; lia|].
           intros ls'' l' Hp' Hz. apply wp_ret. split; [|places].
           exists (es' ++ [y]), ls'', us', true. split; [pairs|]. split; [places|]. split; [places|done].
        -- apply wp_ret. apply part_smaller in Hp; [|apply Hr1; lia]. split; [|places].
           exists es', (ls' ++ [y]), us', b. split; [pairs|]. split; [places|]. split; [places|done].
  - by exists es, ls, us, cnt.
  - unfold PC. assert (zlen us = Z.of_nat (length us)) by done. places.
Qed.

Lemma wp_scan_down fuel pre post m v es ls us gs fs cnt l (Q : Z * Z * bool -> list A -> Prop) :
  part pre post m v es ls us gs fs l -> (length us < fuel)%nat ->
  (forall us' gs' fs' cnt' l', part pre post m v es ls us' gs' fs' l' -> zlen us' <= zlen us ->
     (us' = [] \/ exists y t, us' = t ++ [y] /\ ~ R v y) -> (forall y t, us = y :: t -> us' = [] \/ exists t', us' = y :: t') ->
     Q (pc_of pre es ls us', pd_of pre es ls us' gs', cnt') l') ->
  wp (scan_down cmp fuel (zlen pre) (pb_of pre es ls) (pc_of pre es ls us, pd_of pre es ls us gs, cnt)) Q l.
Proof.
  intros Hp Hf HQ. unfold scan_down.
  apply wp_iter with
    (I := fun st l => exists us' gs' fs' cnt', st = (pc_of pre es ls us', pd_of pre es ls us' gs', cnt') /\ zlen us' <= zlen us
            /\ (forall y t, us = y :: t -> us' = [] \/ exists t', us' = y :: t') /\ part pre post m v es ls us' gs' fs' l)
    (mu := fun st _ => let '(pc, _, _) := st in Z.to_nat (pc + 1 - pb_of pre es ls)).
  - clear l Hp gs fs cnt. intros st l (us'&gs&fs&b&->&Hle&Hpre&Hp). destruct us' as [|y us' _] using rev_ind.
    + destruct (Z.leb_spec (pb_of pre es ls) (pc_of pre es ls [])); [places|]. apply wp_ret.
      by eapply (HQ []); [..|left|].
    + destruct (Z.leb_spec (pb_of pre es ls) (pc_of pre es ls (us' ++ [y]))); [|pose proof (zlen_nonneg us'); places].
      assert (Hpre' : forall x t, us = x :: t -> us' = [] \/ exists t', us' = x :: t').
      { intros x t ->. destruct (Hpre x t eq_refl) as [E|[t' E]]; [by destruct us'|].
        destruct us' as [|z us']; [by left|]. injection E as -> _. right. by exists us'. }
      apply wp_bind. eapply wp_compare; [by eapply part_last|by eapply part_pivot|]. intros r Hr1 Hr2.
      destruct (Z.ltb_spec r 0).
      * apply wp_ret. eapply (HQ (us' ++ [y])); [done..| |done]. right. exists y, us'. split; [done|]. intros ?. assert (0 <= r) by tauto. lia.
      * destruct (Z.eqb_spec r 0).
        -- apply wp_bind. eapply wp_equal_back; [done|split; [apply Hr2|apply Hr1]; lia|].
           intros gs'' l' Hp' Hz. apply wp_ret. split; [|places].
           exists us', gs'', (y :: fs), true. split; [pairs|]. split; [places|done].
        -- apply wp_ret. apply part_larger in Hp; [|apply Hr2; lia]. split; [|places].
           exists us', (y :: gs), fs, b. split; [pairs|]. split; [places|done].
  - exists us, gs, fs, cnt. split; [done|]. split; [lia|]. split; [|done]. intros ? ? ->. right. by eexists.
  - assert (zlen us = Z.of_nat (length us)) by done. places.
Qed.

(** The loop around both scans ends with nothing left to look at. *)
Lemma wp_partition fuel pre post m v us l (Q : Z * Z * Z * Z * bool -> list A -> Prop) :
  part pre post m v [] [] us [] [] l -> (length us < fuel)%nat ->
  (forall es ls gs fs cnt l', part pre post m v es ls [] gs fs l' ->
     Q (pa_of pre es, pb_of pre es ls, pc_of pre es ls [], pd_of pre es ls [] gs, cnt) l') ->
  wp (partition cmp fuel (zlen pre) (zlen pre + 1, zlen pre + 1, zlen pre + zlen us, zlen pre + zlen us, false)) Q l.
Proof.
  intros Hp Hf HQ. unfold partition.
  apply wp_iter with
    (I := fun st l => exists es ls us' gs fs cnt, st = (pa_of pre es, pb_of pre es ls, pc_of pre es ls us', pd_of pre es ls us' gs, cnt)
            /\ zlen us' <= zlen us /\ part pre post m v es ls us' gs fs l)
    (mu := fun st _ => let '(_, pb, pc, _, _) := st in Z.to_nat (pc + 1 - pb)).
  - clear l Hp. intros st l (es&ls&us0&gs&fs&cnt&->&Hle&Hp). apply wp_bind.
    eapply wp_scan_up; [done|unfold zlen in Hle; lia|]. clear cnt l Hp. intros es' ls' us1 cnt l Hp Hpc Hus1 Hstop.
    apply wp_bind. assert (Hpd : pd_of pre es ls us0 gs = pd_of pre es' ls' us1 gs) by places. rewrite <- Hpc, Hpd.
    eapply wp_scan_down; [done|unfold zlen in *; lia|]. clear cnt l Hp. intros us2 gs' fs' cnt l Hp Hus2 Hstop2 Hfirst.
    destruct us2 as [|y us2].
    + replace (pc_of pre es' ls' [] <? pb_of pre es' ls') with true by places. apply wp_ret. by eapply HQ.
    + destruct Hstop as [->|(x&t&->&Hx)]; [unfold zlen in Hus2; cbn in Hus2; lia|].
      destruct (Hfirst x t eq_refl) as [?|[t' E]]; [done|]. injection E as -> _.
      destruct Hstop2 as [?|(z&t2&E&Hz)]; [done|]. destruct t2 as [|x' t2].
      { injection E as -> ->. by destruct (R_total z v). }
      injection E as <- ->. destruct Hp as [-> Hm H1 H2 H3 H4].
      destruct (Z.ltb_spec (pc_of pre es' ls' (x :: t2 ++ [z])) (pb_of pre es' ls')); [pose proof (zlen_nonneg t2); places|].
      apply wp_bind. eapply (wp_swap _ (pre ++ v :: es' ++ ls') x t2 z (gs' ++ fs' ++ post));
        [by lists|left; f_equal; places|]. apply wp_ret. split; [|pose proof (zlen_nonneg t2); places].
      exists es', (ls' ++ [z]), t2, (x :: gs'), fs', true.
      split; [pairs|]. split; [places|]. constructor; try done.
      * by lists.
      * rewrite <- Hm. lists. solve_Permutation.
      * apply Forall_snoc; [done|]. destruct (R_total z v); [done|tauto].
      * constructor; [|done]. destruct (R_total x v); [tauto|done].
  - exists [], [], us, [], [], false. split; [pairs|done].
  - unfold zlen. lia.
Qed.

(** ** The pivot *)

Lemma wp_compare_in i j l (Q : Z -> list A -> Prop) :
  0 <= i < zlen l -> 0 <= j < zlen l -> (forall r, Q r l) -> wp (compare cmp i j) Q l.
Proof. intros [x Hx]%zget_is_Some [y Hy]%zget_is_Some HQ. by eapply wp_compare. Qed.

Lemma wp_med3 lo hi a b c l (Q : Z -> list A -> Prop) :
  0 <= lo -> hi <= zlen l -> lo <= a < hi -> lo <= b < hi -> lo <= c < hi ->
  (forall r, lo <= r < hi -> Q r l) -> wp (med3 cmp a b c) Q l.
Proof.
  intros ????? HQ. unfold med3.
  assert (Hc : forall i j (k : Z -> M (list A) Z), lo <= i < hi -> lo <= j < hi -> (forall r, wp (k r) Q l) ->
    wp (bind (compare cmp i j) k) Q l) by (intros; apply wp_bind, wp_compare_in; [lia|lia|done]).
  apply Hc; [done..|]. intros r1. destruct (r1 <? 0); (apply Hc; [done..|]; intros r2).
  - destruct (r2 <? 0); [by apply HQ|]. apply Hc; [done..|]. intros r3. apply HQ. by destruct (r3 <? 0).
  - destruct (0 <? r2); [by apply HQ|]. apply Hc; [done..|]. intros r3. apply HQ. by destruct (r3 <? 0).
Qed.

Lemma wp_pivot a n l (Q : Z -> list A -> Prop) :
  7 <= n -> 0 <= a -> a + n <= zlen l -> (forall r, a <= r < a + n -> Q r l) -> wp (pivot cmp a n) Q l.
Proof.
  intros Hn Ha Hl HQ. unfold pivot. cbn zeta.
  assert (0 <= n / 8 /\ 8 * (n / 8) <= n /\ 0 <= n / 2 /\ 2 * (n / 2) <= n /\ n - 1 <= 2 * (n / 2) /\ n - 7 <= 8 * (n / 8))
    by (Z.to_euclidean_division_equations; lia).
  destruct (Z.ltb_spec 7 n); [|apply wp_ret, HQ; lia]. destruct (Z.ltb_spec 40 n).
  - repeat (apply wp_bind; eapply (wp_med3 a (a + n)); [lia..|]; intros ? ?). by eapply (wp_med3 a (a + n)); [lia..|].
  - by eapply (wp_med3 a (a + n)); [lia..|].
Qed.

(** The pivot comes to the front. *)
Lemma wp_front pre m post pm (Q : unit -> list A -> Prop) :
  zlen pre <= pm < zlen pre + zlen m ->
  (forall v us l, part pre post m v [] [] us [] [] l -> zlen us = zlen m - 1 -> Q tt l) ->
  wp (swap (zlen pre) pm) Q (pre ++ m ++ post).
Proof.
  intros Hpm HQ. destruct m as [|x m]; [unfold zlen in *; cbn in *; lia|].
  destruct (decide (pm = zlen pre)) as [->|Hne].
  - eapply wp_swap_same; [done|done|]. apply (HQ x m); [|places]. split; try done. by rewrite !app_nil_r.
  - destruct (zget_is_Some m (pm - zlen pre - 1)) as [y Hy]; [places|].
    pose proof (zget_Some_lt _ _ _ Hy). unfold zget in Hy. destruct (Z.ltb_spec (pm - zlen pre - 1) 0); [done|].
    apply list_elem_of_split_length in Hy as (m1&m2&->&Hlen).
    eapply (wp_swap _ pre x m1 y (m2 ++ post)); [by lists|left; f_equal; unfold zlen in *; lia|].
    apply (HQ y (m1 ++ x :: m2)); [|places]. split; try done; [by lists|]. rewrite !app_nil_r. lists. solve_Permutation.
Qed.

(** ** The sort *)

(** Blocks behind each other, exchanged so that both outer ones come to the inside. *)
Lemma exchange xs ys : exists xs' ys', xs' ++ ys' ≡ₚ ys ++ xs /\ zlen xs' = zlen ys /\ zlen ys' = zlen xs
  /\ xs' ≡ₚ ys /\ ys' ≡ₚ xs
  /\ forall pre post (Q : unit -> list A -> Prop), Q tt (pre ++ xs' ++ ys' ++ post) ->
       wp (vecswap (Z.to_nat (Z.min (zlen xs) (zlen ys))) (zlen pre)
             (zlen pre + zlen xs + zlen ys - Z.min (zlen xs) (zlen ys))) Q (pre ++ xs ++ ys ++ post).
Proof.
  assert (Hz : forall xs ys : list A, xs ≡ₚ ys -> zlen xs = zlen ys) by (intros ? ? Hp; unfold zlen; by rewrite Hp).
  destruct (Z.le_gt_cases (zlen xs) (zlen ys)) as [Hle|Hgt].
  - rewrite Z.min_l by done. rewrite <- (take_drop (length ys - length xs) ys).
    set (y1 := take _ ys). set (y2 := drop _ ys).
    assert (Hl : length y2 = length xs) by (unfold y2; rewrite length_drop; unfold zlen in Hle; lia).
    exists (y2 ++ y1), xs. split; [solve_Permutation|]. split; [apply Hz; solve_Permutation|]. split; [done|].
    split; [solve_Permutation|]. split; [done|]. intros pre post Q HQ.
    eapply (wp_vecswap _ _ pre xs y1 y2 post); [by lists|unfold zlen; lia|unfold zlen; lia|done| |].
    + unfold zlen in *. rewrite length_app. lia.
    + revert HQ. by lists.
  - rewrite Z.min_r by lia. rewrite <- (take_drop (length ys) xs).
    set (x1 := take _ xs). set (x2 := drop _ xs).
    assert (Hl : length x1 = length ys) by (unfold x1; rewrite length_take; unfold zlen in Hgt; lia).
    exists ys, (x2 ++ x1). split; [solve_Permutation|]. split; [done|]. split; [apply Hz; solve_Permutation|].
    split; [done|]. split; [solve_Permutation|]. intros pre post Q HQ.
    eapply (wp_vecswap _ _ pre x1 x2 ys post); [by lists|unfold zlen; lia|unfold zlen; lia|done| |].
    + unfold zlen in *. rewrite length_app. lia.
    + revert HQ. by lists.
Qed.

Lemma sorted_three ls es gs v : sorted ls -> Forall (fun x => R x v) ls -> Forall (eqv v) es -> sorted gs -> Forall (R v) gs ->
  sorted (ls ++ es ++ gs).
Proof.
  intros Hs Hl He Hgs Hg. rewrite !Forall_forall in *.
  assert (Hes : sorted es).
  { clear Hs Hgs. induction es as [|e es IH]; [constructor|]. constructor; [apply IH; intros; apply He; by right|].
    apply Forall_forall. intros x Hx. transitivity v; [apply (He e); by left|apply (He x); by right]. }
  apply sorted_app; [done| |].
  - apply sorted_app; [done..|]. intros x y Hx Hy. transitivity v; [by apply He|by apply Hg].
  - intros x y Hx [Hy|Hy]%elem_of_app; (transitivity v; [by apply Hl|]); [by apply He|by apply Hg].
Qed.

Lemma sorted_short xs : zlen xs <= 1 -> sorted xs.
Proof. destruct xs as [|x [|y xs]]; [repeat constructor..|]. unfold zlen. cbn. lia. Qed.

Lemma Forall_perm (P : A -> Prop) xs ys : xs ≡ₚ ys -> Forall P ys -> Forall P xs.
Proof. by intros ->. Qed.

(** A block is sorted when its recursive call sorts it, and no call is made for short ones. *)
Definition sorts (fuel : nat) : Prop := forall pre m post (Q : unit -> list A -> Prop),
  (length m < fuel)%nat -> (forall m', m' ≡ₚ m -> sorted m' -> Q tt (pre ++ m' ++ post)) ->
  wp (qsort cmp fuel (zlen pre) (zlen m)) Q (pre ++ m ++ post).

Lemma wp_block fuel pre m post a n (Q : unit -> list A -> Prop) :
  sorts fuel -> (length m < fuel)%nat -> a = zlen pre -> n = zlen m ->
  (forall m', m' ≡ₚ m -> sorted m' -> Q tt (pre ++ m' ++ post)) ->
  wp (when (1 <? n) (qsort cmp fuel a n)) Q (pre ++ m ++ post).
Proof.
  intros IH Hf -> -> HQ. apply wp_when; intros Hc; [by apply IH|]. apply HQ; [done|]. apply sorted_short. lia.
Qed.

(** Behind the partition: the equal elements come to the middle, and both sides are sorted. *)
Lemma wp_sides fuel pre post m v es ls gs fs l (Q : unit -> list A -> Prop) :
  sorts fuel -> (length m <= fuel)%nat -> part pre post m v es ls [] gs fs l ->
  (forall m', m' ≡ₚ m -> sorted m' -> Q tt (pre ++ m' ++ post)) ->
  let a := zlen pre in let pa := pa_of pre es in let pb := pb_of pre es ls in
  let pc := pc_of pre es ls [] in let pd := pd_of pre es ls [] gs in let pn := a + zlen m in
  wp (let r := Z.min (pa - a) (pb - pa) in
      vecswap (Z.to_nat r) a (pb - r) ;;;
      let r := Z.min (pd - pc) (pn - pd - 1) in
      vecswap (Z.to_nat r) pb (pn - r) ;;;
      when (1 <? pb - pa) (qsort cmp fuel a (pb - pa)) ;;;
      when (1 <? pd - pc) (qsort cmp fuel (pn - (pd - pc)) (pd - pc))) Q l.
Proof.
  intros IH Hf [-> Hm H1 H2 H3 H4] HQ a pa pb pc pd pn. cbn zeta.
  assert (Hn : zlen m = zlen (v :: es) + zlen ls + zlen gs + zlen fs).
  { unfold zlen. rewrite <- Hm. cbn [length]. rewrite !length_app. cbn [length]. lia. }
  assert (Hlen : (length ls < fuel)%nat /\ (length gs < fuel)%nat) by (unfold zlen in Hn; cbn [length] in Hn; lia).
  destruct (exchange (v :: es) ls) as (ls'&es'&_&Hl1&He1&Hls&Hes&Hx). destruct (exchange gs fs) as (fs'&gs'&_&Hf1&Hg1&Hfs&Hgs&Hy).
  apply wp_bind. replace (pa - a) with (zlen (v :: es)) by (unfold pa, a; places). replace (pb - pa) with (zlen ls) by (unfold pb, pa; places).
  replace (pb - Z.min (zlen (v :: es)) (zlen ls)) with (zlen pre + zlen (v :: es) + zlen ls - Z.min (zlen (v :: es)) (zlen ls))
    by (unfold pb; places).
  cbn [app]. apply (Hx pre (gs ++ fs ++ post)). apply wp_bind. replace (pd - pc) with (zlen gs) by (unfold pd, pc; places).
  replace (pn - pd - 1) with (zlen fs) by (unfold pn, pd, a; places).
  replace pb with (zlen (pre ++ ls' ++ es')) by (unfold pb; places).
  replace (pn - Z.min (zlen gs) (zlen fs)) with (zlen (pre ++ ls' ++ es') + zlen gs + zlen fs - Z.min (zlen gs) (zlen fs))
    by (unfold pn, a; places).
  replace (pre ++ ls' ++ es' ++ gs ++ fs ++ post) with ((pre ++ ls' ++ es') ++ gs ++ fs ++ post) by by lists.
  apply Hy. apply wp_bind.
  replace ((pre ++ ls' ++ es') ++ fs' ++ gs' ++ post) with (pre ++ ls' ++ es' ++ fs' ++ gs' ++ post) by by lists.
  assert (Hll : length ls' = length ls) by by rewrite Hls. assert (Hgl : length gs' = length gs) by by rewrite Hgs.
  eapply wp_block; [done|lia|done|lia|]. intros l2 Hp2 Hs2.
  replace (pre ++ l2 ++ es' ++ fs' ++ gs' ++ post) with ((pre ++ l2 ++ es' ++ fs') ++ gs' ++ post) by by lists.
  eapply wp_block; [done|lia| |lia|].
  { assert (zlen l2 = zlen ls') by (unfold zlen; by rewrite Hp2). unfold pn, a. places. }
  intros g2 Hp3 Hs3. replace ((pre ++ l2 ++ es' ++ fs') ++ g2 ++ post) with (pre ++ (l2 ++ (es' ++ fs') ++ g2) ++ post) by by lists.
  apply HQ.
  - rewrite Hp2, Hp3, Hls, Hes, Hfs, Hgs, <- Hm. lists. solve_Permutation.
  - apply (sorted_three _ _ _ v); [done|by rewrite Hp2, Hls| |done|by rewrite Hp3, Hgs].
    rewrite Forall_app. split; [|by rewrite Hfs]. rewrite Hes. constructor; [|done]. split; destruct (R_total v v); done.
Qed.

Lemma qsort_sorts fuel : sorts fuel.
Proof.
  induction fuel as [|fuel IH]; intros pre m post Q Hf HQ; [lia|]. cbn [qsort].
  pose proof (zlen_nonneg pre). pose proof (zlen_nonneg post).
  destruct (Z.ltb_spec (zlen m) 7); [by eapply wp_insertion|].
  apply wp_bind, wp_pivot; [lia|lia|rewrite !zlen_app; lia|]. intros pm Hpm.
  apply wp_bind, wp_front; [done|]. intros v us l Hp Hus. apply wp_bind.
  replace (zlen pre + (zlen m - 1)) with (zlen pre + zlen us) by lia.
  eapply wp_partition; [done|unfold zlen in Hus; lia|]. clear l Hp us Hus. intros es ls gs fs cnt l Hp. cbn beta iota.
  destruct cnt.
  - eapply wp_sides; [done|lia|done|done].
  - destruct Hp as [-> Hm _ _ _ _]. eapply (wp_insertion _ pre (v :: es ++ ls ++ [] ++ gs ++ fs)); [by lists| |].
    + unfold zlen. by rewrite Hm.
    + intros m' Hm'. rewrite Hm in Hm'. by apply HQ.
Qed.

(** C13: [qsort] of the elements between [pre] and [post] ends, leaves the rest of the memory as
    it was, and the elements are permuted into the order of the comparison. *)
Theorem qsort_sorted pre m post fuel :
  (length m < fuel)%nat ->
  exists m', qsort cmp fuel (zlen pre) (zlen m) (pre ++ m ++ post) = Ret tt (pre ++ m' ++ post)
             /\ m' ≡ₚ m /\ StronglySorted R m'.
Proof.
  intros Hf. enough (wp (qsort cmp fuel (zlen pre) (zlen m)) (fun _ l => exists m', l = pre ++ m' ++ post /\ m' ≡ₚ m /\ sorted m')
    (pre ++ m ++ post)) as ([]&l&Hr&m'&->&Hm)%wp_run by by exists m'.
  apply qsort_sorts; [done|]. intros m' Hp Hs. by exists m'.
Qed.

End Sort.

(** Pairs sorted by their first half only: equal keys show the three parts. *)
Definition by_key (x y : Z * Z) : option Z := Some (x.1 - y.1).
Definition key_le (x y : Z * Z) : Prop := x.1 <= y.1.
#[export] Instance by_key_compares : Compares by_key key_le.
Proof. split; [|intros x y z; unfold key_le; lia]. intros x y. exists (x.1 - y.1). unfold key_le. split; [done|]. lia. Qed.

Definition keys : list (Z * Z) := [(3, 0); (1, 1); (2, 2); (3, 3); (0, 4); (2, 5); (1, 6); (3, 7); (2, 8)].

Lemma qsort_sorted_witness :
  exists m', qsort by_key 10 (zlen [(9, 9)]) (zlen keys) ([(9, 9)] ++ keys ++ [(0, 0)]) = Ret tt ([(9, 9)] ++ m' ++ [(0, 0)])
             /\ m' ≡ₚ keys /\ StronglySorted key_le m'.
Proof. apply (qsort_sorted by_key key_le [(9, 9)] keys [(0, 0)] 10). cbn. lia. Defined.

End QsortFacts.
