(* ===== verification/Crc32Facts.v ===== *)
(** The table driven checksums compute the division of the bits by the polynomial, and
    detect every change within four bytes. *)
From Stdlib Require Import ZArith Lia List.
From stdpp Require Import base option list.
From S2P Require Import Prelude Crc32.

Module Crc32Facts.
Import Crc32.

(** ** The reference: one bit at a time *)

(** One step of the division by the polynomial [p], whose bits are reversed. *)
Definition crc_bit (p v : Z) : Z := if Z.odd v then Z.lxor (Z.shiftr v 1) p else Z.shiftr v 1.
Definition crc_bits (p : Z) (n : nat) (v : Z) : Z := Nat.iter n (crc_bit p) v.
#[local] Arguments crc_bits : simpl never.
Definition crc_ref (p v : Z) (l : list Z) : Z := fold_left (fun v b => crc_bits p 8 (Z.lxor v b)) l v.

Definition bytes (l : list Z) : Prop := Forall (fun b => 0 <= b < 256) l.
Definition word32 (v : Z) : Prop := 0 <= v < 2 ^ 32.

(** The bytes as one number, the first one lowest. *)
Fixpoint le (l : list Z) : Z := match l with [] => 0 | b :: l' => Z.lxor b (Z.shiftl (le l') 8) end.

Lemma land_lxor a b m : Z.land (Z.lxor a b) m = Z.lxor (Z.land a m) (Z.land b m).
Proof.
  apply Z.bits_inj'. intros n Hn. rewrite Z.land_spec, !Z.lxor_spec, !Z.land_spec.
  by destruct (Z.testbit a n), (Z.testbit b n), (Z.testbit m n).
Qed.

Lemma lxor_range n a b : 0 <= n -> 0 <= a < 2 ^ n -> 0 <= b < 2 ^ n -> 0 <= Z.lxor a b < 2 ^ n.
Proof.
  intros Hn Ha Hb. rewrite <- (Z.mod_small a (2 ^ n)), <- (Z.mod_small b (2 ^ n)) by done.
  rewrite <- !Z.land_ones, <- land_lxor, Z.land_ones by done. apply Z.mod_pos_bound. lia.
Qed.

Lemma crc_bit_lxor p x y : crc_bit p (Z.lxor x y) = Z.lxor (crc_bit p x) (crc_bit p y).
Proof.
  unfold crc_bit. rewrite <- !Z.bit0_odd, Z.lxor_spec, Z.shiftr_lxor.
  destruct (Z.testbit x 0), (Z.testbit y 0); cbn [xorb];
    apply Z.bits_inj'; intros n Hn; rewrite !Z.lxor_spec;
    destruct (Z.testbit (Z.shiftr x 1) n), (Z.testbit (Z.shiftr y 1) n), (Z.testbit p n); done.
Qed.

Lemma crc_bits_S p n v : crc_bits p (S n) v = crc_bits p n (crc_bit p v).
Proof. unfold crc_bits. by rewrite Nat.iter_succ_r. Qed.

Lemma crc_bits_add p n m v : crc_bits p (n + m) v = crc_bits p m (crc_bits p n v).
Proof.
  revert v. induction n as [|n IH]; intros v; [done|].
  change (S n + m)%nat with (S (n + m)). by rewrite !crc_bits_S, IH.
Qed.

Lemma crc_bits_lxor p n x y : crc_bits p n (Z.lxor x y) = Z.lxor (crc_bits p n x) (crc_bits p n y).
Proof.
  revert x y. induction n as [|n IH]; intros x y; [done|]. by rewrite !crc_bits_S, crc_bit_lxor, IH.
Qed.

Lemma crc_bits_shiftl p n x : crc_bits p n (Z.shiftl x (Z.of_nat n)) = x.
Proof.
  induction n as [|n IH]; [by rewrite Z.shiftl_0_r|].
  rewrite crc_bits_S. replace (crc_bit p (Z.shiftl x (Z.of_nat (S n)))) with (Z.shiftl x (Z.of_nat n)); [done|].
  replace (Z.of_nat (S n)) with (Z.of_nat n + 1) by lia. rewrite <- Z.shiftl_shiftl by lia.
  generalize (Z.shiftl x (Z.of_nat n)). intros y. unfold crc_bit.
  assert (Hodd : Z.odd (Z.shiftl y 1) = false) by (by rewrite Z.shiftl_mul_pow2, Z.odd_mul, andb_false_r by lia).
  by rewrite Hodd, Z.shiftr_shiftl_l, Z.sub_diag, Z.shiftl_0_r by lia.
Qed.

(** All of the division at once. *)
Lemma crc_ref_bits p v l : crc_ref p v l = crc_bits p (8 * length l) (Z.lxor v (le l)).
Proof.
  revert v. induction l as [|b l IH]; intros v; [simpl; by rewrite Z.lxor_0_r|].
  cbn [le length]. change (crc_ref p v (b :: l)) with (crc_ref p (crc_bits p 8 (Z.lxor v b)) l).
  rewrite IH. replace (8 * S (length l))%nat with (8 + 8 * length l)%nat by lia.
  rewrite crc_bits_add. f_equal. rewrite <- Z.lxor_assoc, (crc_bits_lxor p 8 (Z.lxor v b)).
  by rewrite (crc_bits_shiftl p 8).
Qed.

(** ** The tables *)

Section Table.
Context (p : Z) (t : list Z).
Hypothesis Hp : word32 p.
Hypothesis Hp31 : Z.testbit p 31 = true.
Hypothesis Ht : t = map (fun i => crc_bits p 8 (Z.of_nat i)) (seq 0 256).

Lemma table_at i : 0 <= i < 256 -> zget t i = Some (crc_bits p 8 i).
Proof.
  intros Hi. rewrite Ht, zget_nonneg by lia. rewrite list_lookup_fmap.
  rewrite lookup_seq_lt by lia. simpl. by rewrite Z2Nat.id by lia.
Qed.

Lemma step_eq v b : 0 <= v -> 0 <= b < 256 -> crc_step t v b = crc_bits p 8 (Z.lxor v b).
Proof.
  intros Hv Hb. unfold crc_step. change 0xff with (Z.ones 8).
  assert (Hl : 0 <= Z.land v (Z.ones 8) < 256) by (rewrite Z.land_ones by lia; apply Z.mod_pos_bound; lia).
  rewrite table_at by (apply (lxor_range 8); lia). cbn [default].
  assert (Hs : Z.lxor v b = Z.lxor (Z.shiftl (Z.shiftr v 8) (Z.of_nat 8)) (Z.lxor (Z.land v (Z.ones 8)) b)).
  { rewrite <- Z.lxor_assoc. f_equal. change (Z.of_nat 8) with 8. apply Z.bits_inj'. intros n Hn.
    rewrite Z.lxor_spec, Z.land_spec, Z.shiftl_spec by done.
    destruct (Z.ltb_spec n 8).
    - rewrite Z.ones_spec_low by lia. rewrite (Z.testbit_neg_r _ (n - 8)) by lia. by rewrite andb_true_r.
    - rewrite Z.ones_spec_high by lia. rewrite Z.shiftr_spec by lia. rewrite andb_false_r, xorb_false_r. f_equal. lia. }
  by rewrite Hs, (crc_bits_lxor p 8 (Z.shiftl _ _)), (crc_bits_shiftl p 8).
Qed.

Lemma crc_bit_range v : word32 v -> word32 (crc_bit p v).
Proof.
  unfold word32, crc_bit. intros Hv.
  assert (0 <= Z.shiftr v 1 < 2 ^ 32) by (rewrite Z.shiftr_div_pow2 by lia; Z.to_euclidean_division_equations; lia).
  destruct (Z.odd v); [by apply (lxor_range 32)|done].
Qed.

Lemma crc_bits_range n v : word32 v -> word32 (crc_bits p n v).
Proof. revert v. induction n as [|n IH]; intros v Hv; [done|]. rewrite crc_bits_S. by apply IH, crc_bit_range. Qed.

Lemma byte_word b v : word32 v -> 0 <= b < 256 -> word32 (Z.lxor v b).
Proof. unfold word32. intros. apply (lxor_range 32); lia. Qed.

Lemma loop_eq v l : word32 v -> bytes l -> crc_loop t v l = crc_ref p v l.
Proof.
  intros Hv Hl. revert v Hv. induction Hl as [|b l Hb Hl IH]; intros v Hv; [done|].
  unfold crc_loop, crc_ref in *. cbn [fold_left]. rewrite step_eq by (try done; unfold word32 in Hv; lia).
  by apply IH, crc_bits_range, byte_word.
Qed.

(** *** Nothing is lost *)

Lemma crc_bit_inj x y : word32 x -> word32 y -> crc_bit p x = crc_bit p y -> x = y.
Proof.
  unfold word32. intros Hx Hy H.
  assert (Htop : forall v, 0 <= v < 2 ^ 32 -> Z.testbit (crc_bit p v) 31 = Z.odd v).
  { intros v Hv. unfold crc_bit.
    assert (Hh : Z.testbit (Z.shiftr v 1) 31 = false).
    { rewrite Z.shiftr_spec by lia. change (31 + 1) with 32. apply Z.bits_above_log2; [lia|].
      destruct (Z.eq_dec v 0) as [->|]; [simpl; lia|]. apply Z.log2_lt_pow2; lia. }
    destruct (Z.odd v); [by rewrite Z.lxor_spec, Hh, Hp31|done]. }
  assert (Ho : Z.odd x = Z.odd y) by (rewrite <- !Htop by done; by rewrite H).
  unfold crc_bit in H. rewrite <- Ho in H.
  assert (Hs : Z.shiftr x 1 = Z.shiftr y 1).
  { destruct (Z.odd x); [|done]. apply (f_equal (fun a => Z.lxor a p)) in H.
    by rewrite !Z.lxor_assoc, Z.lxor_nilpotent, !Z.lxor_0_r in H. }
  rewrite !Z.shiftr_div_pow2 in Hs by lia. change (2 ^ 1) with 2 in Hs.
  rewrite (Zdiv.Zodd_mod x), (Zdiv.Zodd_mod y) in Ho.
  pose proof (Z.mod_pos_bound x 2 ltac:(lia)). pose proof (Z.mod_pos_bound y 2 ltac:(lia)).
  rewrite (Z.div_mod x 2), (Z.div_mod y 2) by lia. rewrite Hs. f_equal.
  destruct (Z.eqb_spec (x mod 2) 1), (Z.eqb_spec (y mod 2) 1); try done; lia.
Qed.

Lemma crc_bits_inj n x y : word32 x -> word32 y -> crc_bits p n x = crc_bits p n y -> x = y.
Proof.
  revert x y. induction n as [|n IH]; intros x y Hx Hy H; [done|].
  rewrite !crc_bits_S in H. apply IH in H; [|by apply crc_bit_range..]. by apply crc_bit_inj.
Qed.

Lemma ref_inj l x y : word32 x -> word32 y -> bytes l -> crc_ref p x l = crc_ref p y l -> x = y.
Proof.
  intros Hx Hy Hl. revert x y Hx Hy. induction Hl as [|b l Hb Hl IH]; intros x y Hx Hy H; [done|].
  change (crc_ref p (crc_bits p 8 (Z.lxor x b)) l = crc_ref p (crc_bits p 8 (Z.lxor y b)) l) in H.
  apply IH in H; [|by apply crc_bits_range, byte_word..].
  apply crc_bits_inj in H; [|by apply byte_word..].
  apply (f_equal (fun a => Z.lxor a b)) in H. by rewrite !Z.lxor_assoc, Z.lxor_nilpotent, !Z.lxor_0_r in H.
Qed.

Lemma ref_range l x : word32 x -> bytes l -> word32 (crc_ref p x l).
Proof.
  intros Hx Hl. revert x Hx. induction Hl as [|b l Hb Hl IH]; intros x Hx; [done|].
  apply IH. by apply crc_bits_range, byte_word.
Qed.

Lemma le_range l : bytes l -> 0 <= le l < 2 ^ (8 * zlen l).
Proof.
  induction 1 as [|b l Hb Hl IH]; [done|]. cbn [le]. rewrite zlen_cons.
  replace (8 * (1 + zlen l)) with (8 * zlen l + 8) by lia. pose proof (zlen_nonneg l).
  apply lxor_range; [lia| |].
  - rewrite Z.pow_add_r by lia. change (2 ^ 8) with 256. pose proof (Z.pow_pos_nonneg 2 (8 * zlen l)). nia.
  - rewrite Z.shiftl_mul_pow2, Z.pow_add_r by lia. lia.
Qed.

Lemma le_inj l k : length l = length k -> bytes l -> bytes k -> le l = le k -> l = k.
Proof.
  revert k. induction l as [|b l IH]; intros [|c k] Hn Hl Hk H; try done. cbn [le] in H.
  inversion Hl; inversion Hk; subst. assert (Hlow : forall x y, 0 <= x < 256 -> Z.lxor x (Z.shiftl y 8) mod 256 = x).
  { intros x y Hx. change 256 with (2 ^ 8). rewrite <- Z.land_ones by lia. rewrite land_lxor.
    rewrite !Z.land_ones, Z.shiftl_mul_pow2, Z.mod_mul by lia. rewrite Z.lxor_0_r. by apply Z.mod_small. }
  assert (b = c) as -> by (rewrite <- (Hlow b (le l)), <- (Hlow c (le k)) by done; by rewrite H).
  f_equal. apply IH; [by injection Hn|done|done|]. apply (f_equal (Z.lxor c)) in H.
  rewrite <- !Z.lxor_assoc, Z.lxor_nilpotent, !Z.lxor_0_l in H.
  apply (f_equal (fun a => Z.shiftr a 8)) in H. by rewrite !Z.shiftr_shiftl_l, !Z.shiftl_0_r in H by lia.
Qed.

(** A change within four bytes changes the state behind them, and so the end. *)
Lemma burst_detected v l w w' k :
  word32 v -> bytes l -> bytes w -> bytes w' -> bytes k -> length w = length w' -> zlen w <= 4 -> w <> w' ->
  crc_loop t v (l ++ w ++ k) <> crc_loop t v (l ++ w' ++ k).
Proof.
  intros Hv Hl Hw Hw' Hk Hlen H4 Hne H.
  rewrite !loop_eq in H by (try done; repeat apply Forall_app_2; done).
  unfold crc_ref in H. rewrite !fold_left_app in H.
  fold (crc_ref p v l) in H. set (x := crc_ref p v l) in H. fold (crc_ref p x w) in H. fold (crc_ref p x w') in H.
  assert (Hx : word32 x) by by apply ref_range.
  apply ref_inj in H; [|by apply ref_range..|done].
  rewrite !crc_ref_bits, Hlen in H.
  assert (Hle : forall u, bytes u -> zlen u <= 4 -> word32 (Z.lxor x (le u))).
  { intros u Hu Hu4. apply (lxor_range 32); [lia|done|]. pose proof (le_range u Hu) as Hr.
    pose proof (zlen_nonneg u). assert (2 ^ (8 * zlen u) <= 2 ^ 32) by (apply Z.pow_le_mono_r; lia). lia. }
  apply crc_bits_inj in H; [|apply Hle; [done|unfold zlen in *; lia]..].
  apply (f_equal (Z.lxor x)) in H. rewrite <- !Z.lxor_assoc, Z.lxor_nilpotent, !Z.lxor_0_l in H.
  by apply Hne, le_inj.
Qed.

End Table.

Lemma ansi_table : crc32_lookup = map (fun i => crc_bits 0xEDB88320 8 (Z.of_nat i)) (seq 0 256).
Proof. by vm_compute. Qed.
Lemma castagnoli_table : crc32c_lookup = map (fun i => crc_bits 0x82F63B78 8 (Z.of_nat i)) (seq 0 256).
Proof. by vm_compute. Qed.

(** C31: The table driven checksums divide the bits of the message, one after the other, by the
    two polynomials. *)
Theorem crc32_is_division l :
  bytes l ->
  crc32a_calc l = Z.lxor (crc_bits 0xEDB88320 (8 * length l) (Z.lxor 0xffffffff (le l))) 0xffffffff
  /\ crc32c_calc l = crc_bits 0x82F63B78 (8 * length l) (le l).
Proof.
  intros Hl. unfold crc32a_calc, crc32c_calc. split.
  - rewrite (loop_eq 0xEDB88320) by (done || apply ansi_table). by rewrite crc_ref_bits.
  - rewrite (loop_eq 0x82F63B78) by (done || apply castagnoli_table). by rewrite crc_ref_bits, Z.lxor_0_l.
Qed.

Lemma crc32_is_division_witness :
  crc32a_calc [49; 50; 51; 52; 53; 54; 55; 56; 57] = 0xCBF43926
  /\ (crc32a_calc [49; 50] = Z.lxor (crc_bits 0xEDB88320 (8 * length [49; 50]) (Z.lxor 0xffffffff (le [49; 50]))) 0xffffffff
      /\ crc32c_calc [49; 50] = crc_bits 0x82F63B78 (8 * length [49; 50]) (le [49; 50])).
Proof. split; [by vm_compute|]. apply (crc32_is_division [49; 50]). repeat constructor; lia. Defined.

(** C32: A message changed within four bytes in a row has another checksum, in both variants. *)
Theorem crc32_detects_burst l w w' k :
  bytes l -> bytes w -> bytes w' -> bytes k -> length w = length w' -> zlen w <= 4 -> w <> w' ->
  crc32a_calc (l ++ w ++ k) <> crc32a_calc (l ++ w' ++ k)
  /\ crc32c_calc (l ++ w ++ k) <> crc32c_calc (l ++ w' ++ k).
Proof.
  intros. split; intros Heq.
  - unfold crc32a_calc in Heq. apply (f_equal (fun a => Z.lxor a 0xffffffff)) in Heq.
    rewrite !Z.lxor_assoc, Z.lxor_nilpotent, !Z.lxor_0_r in Heq. revert Heq.
    by apply (burst_detected 0xEDB88320); try apply ansi_table.
  - revert Heq. by apply (burst_detected 0x82F63B78); try apply castagnoli_table.
Qed.

Lemma crc32_detects_burst_witness :
  crc32a_calc ([1; 2] ++ [3; 4] ++ [5]) <> crc32a_calc ([1; 2] ++ [3; 5] ++ [5])
  /\ crc32c_calc ([1; 2] ++ [3; 4] ++ [5]) <> crc32c_calc ([1; 2] ++ [3; 5] ++ [5]).
Proof.
  apply (crc32_detects_burst [1; 2] [3; 4] [3; 5] [5]); try done; try (repeat constructor; lia).
Defined.

End Crc32Facts.
