(* ===== verification/Bztalloc.v ===== *)
(** The heap, src/libc/bztalloc.c, in the build of the C library: allocation maps with
    chunks of equal blocks in an arena, over the mapping calls of the core. *)
From Stdlib Require Import ZArith Lia List.
From stdpp Require Import base option list.
From S2P Require Import Prelude CoreState.

Module Bztalloc.

Definition ALLOCSIZE : Z := SLOTSIZE.
Definition ARENASIZE : Z := ALLOCSIZE.
Definition MAXARENA : Z := ARENASIZE / 8 - 1.
Definition BITMAPSIZE : Z := ALLOCSIZE / PAGESIZE / 8 / 8.
Definition chunksize (q : Z) : Z := u64 (q * BITMAPSIZE * 8 * 8) / PAGESIZE * PAGESIZE.
Definition MAP_PRIVATE : Z := 0x02.
Definition MAP_SPARSE : Z := 0x40.

(** ** State *)

Record chunkmap_t : Type := mk_chunk {
  quantum : Z;
  ptr : Z;
  map : list Z; (* BITMAPSIZE words: the blocks in use, or the size in the first one *)
}.
#[export] Instance eta_chunkmap_t : Eta chunkmap_t := fun s => mk_chunk (quantum s) (ptr s) (map s).
Definition set_map (v : list Z) (s : chunkmap_t) : chunkmap_t := s <| map := v |>.

(** An allocation map: its address and its chunks. *)
Record allocmap_t : Type := mk_am {
  am_addr : Z;
  chunk : list chunkmap_t;
}.
#[export] Instance eta_allocmap_t : Eta allocmap_t := fun s => mk_am (am_addr s) (chunk s).
Definition set_chunk (v : list chunkmap_t) (s : allocmap_t) : allocmap_t := s <| chunk := v |>.
Definition SIZEOF_CHUNKMAP : Z := 80.
Definition maxchunks : Z := (ALLOCSIZE - 8) / SIZEOF_CHUNKMAP.

(** What is asked of the core, and the bytes moved. *)
Inductive heap_event : Type :=
| EvMap (addr len : Z)
| EvUnmap (addr len : Z)
| EvZero (addr len : Z)
| EvCopy (dst src len : Z).

Record heap_t : Type := mk_heap {
  numallocmaps : Z; (* arena[0] without the lock *)
  locked : bool;
  arena : list (option allocmap_t); (* arena[1], arena[2], ...; none behind the list *)
  maps_ok : list bool; (* whether the next mappings succeed; they do behind the list *)
  herrno : Z;
  hlog : list heap_event;
}.
#[export] Instance eta_heap_t : Eta heap_t :=
  fun s => mk_heap (numallocmaps s) (locked s) (arena s) (maps_ok s) (herrno s) (hlog s).
Definition set_numallocmaps (v : Z) (s : heap_t) : heap_t := s <| numallocmaps := v |>.
Definition set_locked (v : bool) (s : heap_t) : heap_t := s <| locked := v |>.
Definition set_arena (v : list (option allocmap_t)) (s : heap_t) : heap_t := s <| arena := v |>.
Definition set_maps_ok (v : list bool) (s : heap_t) : heap_t := s <| maps_ok := v |>.
Definition set_herrno (v : Z) (s : heap_t) : heap_t := s <| herrno := v |>.
Definition set_hlog (v : list heap_event) (s : heap_t) : heap_t := s <| hlog := v |>.

Definition seterr (e : Z) : M heap_t unit := modify (set_herrno e).
Definition emit (e : heap_event) : M heap_t unit := modify (fun s => set_hlog (hlog s ++ [e]) s).

(** [mmap], without an error code, and [munmap]. *)
Definition mmap (addr len : Z) : M heap_t bool :=
  s <-- get ;;
  match maps_ok s with
  | [] => emit (EvMap addr len) ;;; ret true
  | b :: l => put (set_maps_ok l s) ;;; when b (emit (EvMap addr len)) ;;; ret b
  end.
Definition munmap (addr len : Z) : M heap_t unit := emit (EvUnmap addr len).

(** Nobody else holds the lock; a second try spins for ever. *)
Definition lockacquire : M heap_t unit :=
  l <-- gets locked ;; if (l : bool) then loop else modify (set_locked true).
Definition lockrelease : M heap_t unit := modify (set_locked false).

(** The map [arena[i]], which must be there. *)
Definition am_at (i : Z) : M heap_t allocmap_t :=
  s <-- get ;; match zget (arena s) (i - 1) with Some (Some a) => ret a | _ => ub end.
(** [arena[i] = v] *)
Definition arena_put (i : Z) (v : option allocmap_t) : M heap_t unit :=
  modify (fun s => set_arena (zset (arena s ++ List.repeat None (Z.to_nat (i - zlen (arena s)))) (i - 1) v) s).
Definition chunk_at (i j : Z) : M heap_t chunkmap_t := a <-- am_at i ;; need (zget (chunk a) j).
Definition chunk_mod (i j : Z) (f : chunkmap_t -> chunkmap_t) : M heap_t unit :=
  a <-- am_at i ;; c <-- need (zget (chunk a) j) ;;
  arena_put i (Some (set_chunk (zset (chunk a) j (f c)) a)).

(** ** Chunks *)

Definition small (c : chunkmap_t) : bool := quantum c <? ALLOCSIZE.
Definition word (c : chunkmap_t) (k : Z) : Z := default 0 (zget (map c) k).
Definition size_of (c : chunkmap_t) : Z := if small c then chunksize (quantum c) else word c 0.
Definition end_of (c : chunkmap_t) : Z := u64 (ptr c + size_of c).
Definition inside (p : Z) (c : chunkmap_t) : bool := (ptr c <=? p) && (p <? end_of c).

Definition used (c : chunkmap_t) (k : Z) : bool := Z.testbit (word c (Z.shiftr k 6)) (k mod 64).
Definition set_bit (k : Z) (c : chunkmap_t) : chunkmap_t :=
  set_map (zset (map c) (Z.shiftr k 6) (Z.lor (word c (Z.shiftr k 6)) (Z.shiftl 1 (k mod 64)))) c.
Definition clear_bit (k : Z) (c : chunkmap_t) : chunkmap_t :=
  set_map (zset (map c) (Z.shiftr k 6) (Z.ldiff (word c (Z.shiftr k 6)) (Z.shiftl 1 (k mod 64)))) c.

(** The sum of the words, taken for the number of blocks in use, in a variable whose width is
    [cast]: 64 bits in [bzt_free], but 32 bits in [bzt_alloc]. *)
Definition sum (cast : Z -> Z) (c : chunkmap_t) : Z := fold_left (fun l w => cast (l + w)) (map c) 0.

(** ** Freeing *)

(** The block at [p] in chunk [j] of map [i] is given back; the sum of what is left. *)
Definition give_back (cast : Z -> Z) (i j p : Z) : M heap_t Z :=
  c <-- chunk_at i j ;;
  if small c then
    let sh := (p - ptr c) / quantum c in
    chunk_mod i j (clear_bit sh) ;;;
    c <-- chunk_at i j ;;
    let l := sum cast c in
    (if quantum c <? PAGESIZE then when (l =? 0) (munmap (ptr c) (chunksize (quantum c)))
     else munmap p (quantum c)) ;;;
    ret l
  else munmap (ptr c) (word c 0) ;;; ret 0.

(** An empty chunk is removed, and its map when that was the last one.  The chunks behind
    it move up when there are any according to [n], the number of chunks of the map looked
    at last. *)
Definition drop_chunk (n i j : Z) : M heap_t unit :=
  a <-- am_at i ;;
  let l := if j + 1 <? n then delete (Z.to_nat j) (chunk a)
           else take (Z.to_nat (zlen (chunk a) - 1)) (chunk a) in
  arena_put i (Some (set_chunk l a)) ;;;
  when (zlen l =? 0)
    (munmap (am_addr a) ALLOCSIZE ;;; arena_put i None ;;;
     modify (fun s => set_numallocmaps (u64 (numallocmaps s - 1)) s)).

(** The first chunk of a map with the address. *)
Fixpoint find_chunk (p : Z) (l : list chunkmap_t) (j : Z) : option Z :=
  match l with
  | [] => None
  | c :: l' => if inside p c then Some j else find_chunk p l' (j + 1)
  end.
Fixpoint find_block (p : Z) (l : list (option allocmap_t)) (i cnt num : Z) : option (Z * Z) :=
  match l with
  | [] => None
  | m :: l' =>
      if (i <? MAXARENA) && (cnt <? num) then
        match m with
        | None => find_block p l' (i + 1) cnt num
        | Some a => match find_chunk p (chunk a) 0 with
                    | Some j => Some (i, j)
                    | None => find_block p l' (i + 1) (cnt + 1) num
                    end
        end
      else None
  end.

Definition bzt_free (p : Z) : M heap_t unit :=
  if p =? 0 then ret tt else
  lockacquire ;;;
  s <-- get ;;
  match find_block p (arena s) 1 0 (numallocmaps s) with
  | Some (i, j) =>
      l <-- give_back u64 i j p ;;
      m <-- am_at i ;;
      when (l =? 0) (drop_chunk (zlen (chunk m)) i j) ;;;
      lockrelease
  | None => lockrelease ;;; seterr EFAULT
  end.

(** ** Allocating *)

(** What the walk through the maps finds: the end of everything, the first address behind
    a map and the first chunk (0 for none), a map with room for a chunk (0 for none), a
    chunk with a free block and the block, the chunk of the old address, and the map looked
    at last (0 for none). *)
Record scan_t : Type := mk_scan {
  fp : Z;
  lp : Z;
  sp : Z;
  fc : Z;
  ncm : option (Z * Z);
  sh : Z;
  ocm : option (Z * Z);
  am : Z;
}.
#[export] Instance eta_scan_t : Eta scan_t := fun s => mk_scan (fp s) (lp s) (sp s) (fc s) (ncm s) (sh s) (ocm s) (am s).
Definition set_fp (v : Z) (s : scan_t) : scan_t := s <| fp := v |>.
Definition set_lp (v : Z) (s : scan_t) : scan_t := s <| lp := v |>.
Definition set_sp (v : Z) (s : scan_t) : scan_t := s <| sp := v |>.
Definition set_fc (v : Z) (s : scan_t) : scan_t := s <| fc := v |>.
Definition set_ncm (v : option (Z * Z)) (s : scan_t) : scan_t := s <| ncm := v |>.
Definition set_sh (v : Z) (s : scan_t) : scan_t := s <| sh := v |>.
Definition set_ocm (v : option (Z * Z)) (s : scan_t) : scan_t := s <| ocm := v |>.
Definition set_am (v : Z) (s : scan_t) : scan_t := s <| am := v |>.

(** The first free block at a multiple of [sf] from [k] on, among at most [n] of them; the
    walk does not end for a multiple of 2^32, which is left out. *)
Fixpoint free_slot (n : nat) (c : chunkmap_t) (k sf : Z) : option Z :=
  match n with
  | O => None
  | S n' => if k <? BITMAPSIZE * 64 then if used c k then free_slot n' c (u32 (k + sf)) sf else Some k else None
  end.

Section Alloc.
(** The address of the arena, the alignment wanted and the quantum of the request, and
    the old address, 0 for none. *)
Context (base a q old : Z).

Definition scan_chunk (i j : Z) (c : chunkmap_t) (r : scan_t) : scan_t :=
  let e := end_of c in
  let r := if (quantum c =? q) && (q <? ALLOCSIZE) && (Z.land (ptr c) (a - 1) =? 0) then
             match free_slot 512 c 0 (a / q) with
             | Some k => set_sh k (set_ncm (Some (i, j)) r)
             | None => r
             end
           else r in
  let r := if negb (old =? 0) && inside old c then set_ocm (Some (i, j)) r else r in
  let r := if (sp r =? 0) || (ptr c <? sp r) then set_sp (ptr c) r else r in
  if fp r <? e then set_fp e r else r.

Fixpoint scan_chunks (i j : Z) (l : list chunkmap_t) (r : scan_t) : scan_t :=
  match l with [] => r | c :: l' => scan_chunks i (j + 1) l' (scan_chunk i j c r) end.

Definition scan_map (i : Z) (m : allocmap_t) (r : scan_t) : scan_t :=
  let r := set_am i r in
  let e := am_addr m + ALLOCSIZE in
  let r := if fp r <? e then set_fp e r else r in
  let r := if (lp r =? 0) || (e <? lp r) then set_lp e r else r in
  let r := if (fc r =? 0) && (zlen (chunk m) <? maxchunks) then set_fc i r else r in
  scan_chunks i 0 (chunk m) r.

(** The walk, and the index it ends at. *)
Fixpoint scan_maps (l : list (option allocmap_t)) (i cnt num : Z) (r : scan_t) : scan_t * Z :=
  if (i <? MAXARENA) && (cnt <? num) then
    match l with
    | [] => (r, MAXARENA)
    | None :: l' => scan_maps l' (i + 1) cnt num r
    | Some m :: l' => scan_maps l' (i + 1) (cnt + 1) num (scan_map i m r)
    end
  else (r, i).

Definition scan_start : scan_t := mk_scan (base + ARENASIZE + ALLOCSIZE) 0 0 0 None (2 ^ 64 - 1) None 0.

(** The gap behind the first map is used when it is large enough for the bytes asked for. *)
Definition roundup (s : Z) : Z := u64 (s + ALLOCSIZE - 1) / ALLOCSIZE * ALLOCSIZE.
Definition place (s : Z) (r : scan_t) : Z :=
  if negb (lp r =? 0) && negb (sp r =? 0) && (u64 (lp r + roundup s) <? sp r) && (Z.land (lp r) (a - 1) =? 0)
  then lp r else fp r.

(** The very first call. *)
Definition first_map : M heap_t bool :=
  num <-- gets numallocmaps ;;
  if num =? 0 then
    ok <-- mmap (base + ARENASIZE) PAGESIZE ;;
    if negb ok then ret false else
    modify (fun s => set_numallocmaps (numallocmaps s + 1) s) ;;;
    arena_put 1 (Some (mk_am (base + ARENASIZE) [])) ;;; ret true
  else ret true.

(** A new map at [f], as the index [i]; [None] when there is no memory. *)
Definition new_map (i f : Z) : M heap_t (option (Z * Z)) :=
  num <-- gets numallocmaps ;;
  ok <-- (if num <=? i then ret false else mmap f ALLOCSIZE) ;;
  if negb ok then ret None else
  modify (fun s => set_numallocmaps (numallocmaps s + 1) s) ;;;
  num <-- gets numallocmaps ;;
  ok <-- (if num * 8 / PAGESIZE =? (num + 1) * 8 / PAGESIZE then ret true else mmap (base + num * 8) PAGESIZE) ;;
  if negb ok then ret None else
  arena_put i (Some (mk_am f [])) ;;; ret (Some (i, f + ALLOCSIZE)).

(** A new chunk at [f] in map [c]; its index and address. *)
Definition new_chunk (c f : Z) (sparse : bool) : M heap_t (option (Z * Z)) :=
  m <-- am_at c ;;
  let f := if ALLOCSIZE <=? q then u64 (f + a - 1) / a * a else f in
  arena_put c (Some (set_chunk (chunk m ++ [mk_chunk q f (List.repeat 0 (Z.to_nat BITMAPSIZE))]) m)) ;;;
  ok <-- (if negb sparse && (q <? PAGESIZE) then mmap f (chunksize q) else ret true) ;;
  ret (if (ok : bool) then Some (zlen (chunk m), f) else None).

(** The chunk for the block: the map looked at last, the map and the index of the chunk, the
    bit and the address; a new chunk when none has a free block. *)
Definition choose_chunk (r : scan_t) (i f : Z) (sparse : bool) : M heap_t (option (Z * Z * Z * Z * Z)) :=
  match ncm r with
  | Some (i, j) => ret (Some (am r, i, j, sh r, f))
  | None =>
      c <-- (if fc r =? 0 then new_map i f else ret (Some (fc r, f))) ;;
      match c with
      | None => ret None
      | Some (c, f) =>
          n <-- new_chunk c f sparse ;;
          ret (match n with Some (j, f) => Some (c, c, j, 0, f) | None => None end)
      end
  end.

(** The block: bit [k] of the chunk, or the whole of a large one of [s] bytes, at [f]. *)
Definition take_block (i j k f s : Z) (sparse : bool) : M heap_t (option Z) :=
  if q <? ALLOCSIZE then
    if k =? 2 ^ 64 - 1 then ret None else
    chunk_mod i j (set_bit k) ;;;
    c <-- chunk_at i j ;;
    let f := u64 (ptr c + k * quantum c) in
    ok <-- (if negb sparse && (PAGESIZE <=? q) then mmap f (quantum c) else ret true) ;;
    ret (if (ok : bool) then Some f else None)
  else
    let s := roundup s in
    ok <-- (if (sparse : bool) then ret true else mmap f s) ;;
    if negb ok then ret None else
    chunk_mod i j (fun c => set_map (zset (map c) 0 s) c) ;;; ret (Some f).

(** The bytes of the old block are moved, and it is given back; [m] is the map looked at last. *)
Definition move_old (m i j oi oj f : Z) (sparse : bool) : M heap_t unit :=
  c <-- chunk_at i j ;;
  o <-- chunk_at oi oj ;;
  when (negb sparse)
   (emit (EvCopy f old (quantum o)) ;;;
    when (quantum o <? quantum c) (emit (EvZero (f + quantum o) (quantum c - quantum o)))) ;;;
  l <-- give_back u32 oi oj old ;;
  m <-- am_at m ;;
  when (l =? 0) (drop_chunk (zlen (chunk m)) oi oj).

End Alloc.

(** [for(q=8;q<s;q<<=1);] *)
Definition quantum_of (fuel : nat) (s : Z) : M heap_t Z :=
  iter fuel (fun q => ret (if q <? s then inl (u64 (Z.shiftl q 1)) else inr q)) 8.

Definition nomem : M heap_t Z := seterr ENOMEM ;;; lockrelease ;;; ret 0.

(** [s] bytes at a multiple of [a], moved from [old] unless it is 0; the address, 0 when
    there is no memory. *)
Definition bzt_alloc (fuel : nat) (base a old s flag : Z) : M heap_t Z :=
  let sparse := has flag MAP_SPARSE in
  if s =? 0 then bzt_free old ;;; ret 0 else
  q <-- quantum_of fuel s ;;
  let a := if a <? q then q else a in
  lockacquire ;;;
  ok <-- first_map base ;;
  if negb ok then nomem else
  h <-- get ;;
  let '(r, i) := scan_maps a q old (arena h) 1 0 (numallocmaps h) (scan_start base) in
  if (q <? ALLOCSIZE) && negb (old =? 0) && bool_decide (is_Some (ncm r) /\ ncm r = ocm r)
  then lockrelease ;;; ret old else
  let f := place a s r in
  n <-- choose_chunk base a q r i f sparse ;;
  match n with
  | None => nomem
  | Some (m, i, j, k, f) =>
      b <-- take_block q i j k f s sparse ;;
      match b with
      | None => nomem
      | Some f =>
          match ocm r with
          | None => c <-- chunk_at i j ;; when (negb sparse) (emit (EvZero f (quantum c)))
          | Some (oi, oj) => move_old old m i j oi oj f sparse
          end ;;;
          lockrelease ;;; ret f
      end
  end.

(** ** include/osZ/stdlib.h *)
Definition malloc (fuel : nat) (s : Z) : M heap_t Z := bzt_alloc fuel DYN_ADDRESS 8 0 s MAP_PRIVATE.
Definition calloc (fuel : nat) (n s : Z) : M heap_t Z := bzt_alloc fuel DYN_ADDRESS 8 0 (u64 (n * s)) MAP_PRIVATE.
Definition realloc (fuel : nat) (p s : Z) : M heap_t Z := bzt_alloc fuel DYN_ADDRESS 8 p s MAP_PRIVATE.
Definition aligned_alloc (fuel : nat) (a s : Z) : M heap_t Z := bzt_alloc fuel DYN_ADDRESS a 0 s MAP_PRIVATE.
Definition free (p : Z) : M heap_t unit := bzt_free p.

End Bztalloc.
