(* ===== verification/BztallocFacts.v ===== *)
(** The heap: blocks handed out are fresh and apart from the live ones, freeing removes
    exactly the block, and what breaks these two promises. *)
From Stdlib Require Import ZArith Lia List.
From stdpp Require Import base option list.
From S2P Require Import Prelude CoreState Bztalloc.

Module BztallocFacts.
Import Bztalloc.

(** ** The blocks in use *)

Definition chunks (h : heap_t) : list chunkmap_t :=
  match arena h with Some m :: _ => chunk m | _ => [] end.

(** A block is its address and its length. *)
Definition live_in (c : chunkmap_t) (b : Z * Z) : Prop :=
  if small c then exists k, 0 <= k < 512 /\ used c k = true /\ b = (ptr c + k * quantum c, quantum c)
  else b = (ptr c, word c 0) /\ 0 < word c 0.
Definition live_list (l : list chunkmap_t) (b : Z * Z) : Prop := exists c, c ∈ l /\ live_in c b.
Definition Live (h : heap_t) (b : Z * Z) : Prop := live_list (chunks h) b.

Definition apart (p n p' n' : Z) : Prop := p + n <= p' \/ p' + n' <= p.
Definition chunk_apart (c d : chunkmap_t) : Prop := apart (ptr c) (size_of c) (ptr d) (size_of d).

Record chunk_ok (lo top : Z) (c : chunkmap_t) : Prop := {
  ck_quantum : 0 < quantum c;
  ck_eight : quantum c mod 8 = 0;
  ck_len : zlen (map c) = 8;
  ck_words : Forall (fun w => 0 <= w < 2 ^ 64) (map c);
  ck_lo : lo <= ptr c;
  ck_hi : ptr c + size_of c <= top;
}.

Record list_ok (lo top : Z) (l : list chunkmap_t) : Prop := {
  lk_chunks : Forall (chunk_ok lo top) l;
  lk_apart : forall i j c d, zget l i = Some c -> zget l j = Some d -> i <> j -> chunk_apart c d;
}.

Record heap_ok (base top : Z) (h : heap_t) : Prop := {
  hk_base : 0 <= base;
  hk_lo : base + 2 * ALLOCSIZE <= top;
  hk_top : top <= 2 ^ 62;
  hk_maps : (numallocmaps h = 0 /\ arena h ∈ [[]; [None]])
            \/ (numallocmaps h = 1 /\ exists l, arena h = [Some (mk_am (base + ARENASIZE) l)]);
  hk_list : list_ok (base + 2 * ALLOCSIZE) top (chunks h);
}.

(** ** Chunks *)

Lemma chunksize_exact q : 0 <= q -> q mod 8 = 0 -> q < 2 ^ 50 -> chunksize q = 512 * q.
Proof.
  intros H1 H2 H3. unfold chunksize.
  replace (q * BITMAPSIZE * 8 * 8) with (q * 512) by (change BITMAPSIZE with 8; lia).
  rewrite u64_small by lia. change PAGESIZE with 4096.
  Z.to_euclidean_division_equations; lia.
Qed.

Lemma size_small lo top c : chunk_ok lo top c -> small c = true -> size_of c = 512 * quantum c.
Proof.
  intros H Hs. unfold size_of. rewrite Hs. unfold small in Hs. change ALLOCSIZE with 2097152 in Hs.
  apply chunksize_exact; destruct H; lia.
Qed.

Lemma word_bound lo top c k : chunk_ok lo top c -> 0 <= word c k < 2 ^ 64.
Proof.
  intros H. unfold word. destruct (zget (map c) k) eqn:E; simpl; [|lia].
  pose proof (ck_words _ _ _ H) as HF. rewrite Forall_forall in HF. apply HF.
  apply list_elem_of_In. by eapply zget_In.
Qed.

Lemma size_nonneg lo top c : chunk_ok lo top c -> 0 <= size_of c.
Proof.
  intros H. destruct (small c) eqn:E; [rewrite (size_small _ _ _ H E); destruct H; lia|].
  unfold size_of. rewrite E. by pose proof (word_bound _ _ _ 0 H); lia.
Qed.

Lemma end_exact lo top c : 0 <= lo -> top < 2 ^ 64 -> chunk_ok lo top c -> end_of c = ptr c + size_of c.
Proof.
  intros H1 H2 H. unfold end_of. pose proof (size_nonneg _ _ _ H).
  apply u64_small. destruct H; lia.
Qed.

Lemma chunk_ok_top lo top top' c : top <= top' -> chunk_ok lo top c -> chunk_ok lo top' c.
Proof. intros ? []. split; try done. lia. Qed.

Lemma live_within lo top c p n :
  chunk_ok lo top c -> live_in c (p, n) -> 0 < n /\ ptr c <= p /\ p + n <= ptr c + size_of c.
Proof.
  intros H. unfold live_in. destruct (small c) eqn:E.
  - intros (k & Hk & _ & [= -> ->]). rewrite (size_small _ _ _ H E).
    pose proof (ck_quantum _ _ _ H). nia.
  - intros [[= -> ->] ?]. unfold size_of. rewrite E. lia.
Qed.

Lemma live_apart lo top c d p n p' n' :
  chunk_ok lo top c -> chunk_ok lo top d -> chunk_apart c d ->
  live_in c (p, n) -> live_in d (p', n') -> apart p n p' n'.
Proof.
  intros Hc Hd Ha Hp%(live_within lo top) Hp'%(live_within lo top); [|done..].
  unfold chunk_apart, apart in *. lia.
Qed.

(** One bit of the words of a chunk. *)
Lemma used_set_word c (k j w : Z) :
  zlen (map c) = 8 -> 0 <= k < 512 -> 0 <= j < 512 ->
  used (set_map (zset (map c) (Z.shiftr k 6) w) c) j
  = if Z.shiftr j 6 =? Z.shiftr k 6 then Z.testbit w (j mod 64) else used c j.
Proof.
  intros Hl Hk Hj. unfold used, word. cbn [map set_map].
  rewrite !Z.shiftr_div_pow2 by lia. change (2 ^ 6) with 64.
  destruct (Z.eqb_spec (j / 64) (k / 64)) as [->|Hne].
  - rewrite zget_zset_eq; [done|]. rewrite Hl. Z.to_euclidean_division_equations; lia.
  - by rewrite zget_zset_ne by done.
Qed.

Lemma same_bit k j : 0 <= k -> 0 <= j ->
  (Z.shiftr j 6 =? Z.shiftr k 6) && (j mod 64 =? k mod 64) = (j =? k).
Proof.
  intros. rewrite !Z.shiftr_div_pow2 by lia. change (2 ^ 6) with 64.
  apply eq_true_iff_eq. rewrite andb_true_iff, !Z.eqb_eq.
  split; [|by intros ->]. intros [? ?]. Z.to_euclidean_division_equations; lia.
Qed.

Lemma testbit_shiftl_1 a b : 0 <= a -> 0 <= b -> Z.testbit (Z.shiftl 1 a) b = (b =? a).
Proof.
  intros Ha Hb. rewrite Z.shiftl_1_l. destruct (Z.eqb_spec b a) as [->|].
  - by rewrite Z.pow2_bits_true.
  - by rewrite Z.pow2_bits_false by lia.
Qed.

Lemma used_set_bit c k j :
  zlen (map c) = 8 -> 0 <= k < 512 -> 0 <= j < 512 ->
  used (set_bit k c) j = (j =? k) || used c j.
Proof.
  intros Hl Hk Hj. unfold set_bit. rewrite used_set_word, <- (same_bit k j) by lia. unfold used.
  destruct (Z.eqb_spec (Z.shiftr j 6) (Z.shiftr k 6)) as [->|]; [|done].
  by rewrite Z.lor_spec, testbit_shiftl_1, orb_comm by (apply Z.mod_pos_bound; lia).
Qed.

Lemma used_clear_bit c k j :
  zlen (map c) = 8 -> 0 <= k < 512 -> 0 <= j < 512 ->
  used (clear_bit k c) j = negb (j =? k) && used c j.
Proof.
  intros Hl Hk Hj. unfold clear_bit. rewrite used_set_word, <- (same_bit k j) by lia. unfold used.
  destruct (Z.eqb_spec (Z.shiftr j 6) (Z.shiftr k 6)) as [->|]; [|done].
  by rewrite Z.ldiff_spec, testbit_shiftl_1, andb_comm by (apply Z.mod_pos_bound; lia).
Qed.

(** Setting and clearing a bit keep the chunk where it is. *)
Lemma size_same_small c m : small c = true -> size_of (set_map m c) = size_of c.
Proof. unfold size_of, small. cbn [quantum set_map]. by intros ->. Qed.

Lemma chunk_ok_map lo top c m :
  chunk_ok lo top c -> small c = true -> zlen m = 8 -> Forall (fun w => 0 <= w < 2 ^ 64) m ->
  chunk_ok lo top (set_map m c).
Proof.
  intros [] Hs Hl Hm. split; try done. by rewrite size_same_small.
Qed.

Lemma Forall_zset {A} (P : A -> Prop) l i x : Forall P l -> P x -> Forall P (zset l i x).
Proof. intros. unfold zset. case_match; [done|]. by apply Forall_insert. Qed.

Lemma word_lor a k : 0 <= a < 2 ^ 64 -> 0 <= k < 64 -> 0 <= Z.lor a (Z.shiftl 1 k) < 2 ^ 64.
Proof.
  intros Ha Hk. split; [apply Z.lor_nonneg; split; [lia|]; apply Z.shiftl_nonneg; lia|].
  apply Z.log2_lt_cancel. rewrite Z.shiftl_1_l, Z.log2_lor, !Z.log2_pow2 by lia.
  destruct (Z.eq_dec a 0) as [->|]; [simpl; lia|].
  assert (Z.log2 a < 64) by (apply Z.log2_lt_pow2; lia). lia.
Qed.

Lemma word_ldiff a k : 0 <= a < 2 ^ 64 -> 0 <= k -> 0 <= Z.ldiff a (Z.shiftl 1 k) <= a.
Proof.
  intros Ha Hk. split; [apply Z.ldiff_nonneg; lia|].
  apply Z.ldiff_le; [lia|].
  rewrite Z.ldiff_ldiff_l. apply Z.bits_inj'. intros n Hn.
  rewrite Z.ldiff_spec, Z.lor_spec, Z.bits_0. by destruct (Z.testbit a n), (Z.testbit _ n).
Qed.

Lemma bit_range k : 0 <= k < 512 -> 0 <= Z.shiftr k 6 < 8 /\ 0 <= k mod 64 < 64.
Proof.
  intros. rewrite Z.shiftr_div_pow2 by lia. change (2 ^ 6) with 64.
  Z.to_euclidean_division_equations; lia.
Qed.

Lemma set_bit_ok lo top c k :
  chunk_ok lo top c -> small c = true -> 0 <= k < 512 -> chunk_ok lo top (set_bit k c).
Proof.
  intros H Hs Hk. pose proof (bit_range k Hk).
  apply chunk_ok_map; [done..|by rewrite zlen_zset; apply H|].
  apply Forall_zset; [apply H|]. apply word_lor; [by eapply word_bound|lia].
Qed.

Lemma clear_bit_ok lo top c k :
  chunk_ok lo top c -> small c = true -> 0 <= k < 512 -> chunk_ok lo top (clear_bit k c).
Proof.
  intros H Hs Hk. pose proof (bit_range k Hk). pose proof (word_bound _ _ _ (Z.shiftr k 6) H).
  apply chunk_ok_map; [done..|by rewrite zlen_zset; apply H|].
  apply Forall_zset; [apply H|].
  pose proof (word_ldiff (word c (Z.shiftr k 6)) (k mod 64) ltac:(lia) ltac:(lia)). lia.
Qed.

Definition block_of (c : chunkmap_t) (k : Z) : Z * Z := (ptr c + k * quantum c, quantum c).

Lemma live_set_bit lo top c k b :
  chunk_ok lo top c -> small c = true -> 0 <= k < 512 ->
  live_in (set_bit k c) b <-> b = block_of c k \/ live_in c b.
Proof.
  intros H Hs Hk. unfold live_in, block_of.
  change (small (set_bit k c)) with (small c). rewrite Hs. cbn [ptr quantum set_bit set_map].
  split.
  - intros (j & Hj & Hu & ->). rewrite used_set_bit in Hu by (try done; apply H).
    apply orb_prop in Hu as [->%Z.eqb_eq|Hu]; [by left|right; by exists j].
  - intros [->|(j & Hj & Hu & ->)]; [exists k|exists j]; split_and!; try done; try lia;
      rewrite used_set_bit by (try done; apply H); [by rewrite Z.eqb_refl|by rewrite Hu, orb_true_r].
Qed.

Lemma live_clear_bit lo top c k b :
  chunk_ok lo top c -> small c = true -> 0 <= k < 512 ->
  live_in (clear_bit k c) b <-> live_in c b /\ b <> block_of c k.
Proof.
  intros H Hs Hk. unfold live_in, block_of.
  change (small (clear_bit k c)) with (small c). rewrite Hs. cbn [ptr quantum clear_bit set_map].
  pose proof (ck_quantum _ _ _ H).
  split.
  - intros (j & Hj & Hu & ->). rewrite used_clear_bit in Hu by (try done; apply H). b2p.
    split; [by exists j|]. intros [=]. nia.
  - intros [(j & Hj & Hu & ->) Hne]. exists j. split_and!; try done; try lia.
    rewrite used_clear_bit, Hu by (try done; apply H). rewrite andb_true_r.
    apply negb_true_iff, Z.eqb_neq. by intros ->.
Qed.

(** ** Lists of chunks *)

Lemma live_zget l b : live_list l b <-> exists i d, zget l i = Some d /\ live_in d b.
Proof. unfold live_list. setoid_rewrite elem_zget. naive_solver. Qed.

Lemma live_zset l j c c' b :
  zget l j = Some c ->
  live_list (zset l j c') b
  <-> live_in c' b \/ exists i d, i <> j /\ zget l i = Some d /\ live_in d b.
Proof.
  intros Hc. pose proof (zget_Some_lt _ _ _ Hc). rewrite live_zget. split.
  - intros (i & d & Hd & Hl). destruct (Z.eq_dec i j) as [->|Hne].
    + rewrite zget_zset_eq in Hd by done. injection Hd as ->. by left.
    + rewrite zget_zset_ne in Hd by done. right. by exists i, d.
  - intros [Hl|(i & d & Hne & Hd & Hl)].
    + exists j, c'. by rewrite zget_zset_eq.
    + exists i, d. by rewrite zget_zset_ne.
Qed.

Lemma live_snoc l c b : live_list (l ++ [c]) b <-> live_in c b \/ live_list l b.
Proof.
  unfold live_list. split.
  - intros (d & [Hd|Hd%list_elem_of_singleton]%elem_of_app & Hl); [right; by exists d|left; by subst].
  - intros [?|(d & Hd & Hl)]; [exists c|exists d]; (split; [|done]); apply elem_of_app; [right; by constructor|by left].
Qed.

Lemma list_ok_chunk lo top l i c : list_ok lo top l -> zget l i = Some c -> chunk_ok lo top c.
Proof.
  intros [H _] Hi. rewrite Forall_forall in H. apply H, elem_zget. by exists i.
Qed.

(** Chunks that keep their place keep the list apart. *)
Lemma list_ok_zset lo top l j c c' :
  list_ok lo top l -> zget l j = Some c -> chunk_ok lo top c' -> ptr c' = ptr c -> size_of c' = size_of c ->
  list_ok lo top (zset l j c').
Proof.
  intros [H1 H2] Hj Hc Hp Hs. split; [by apply Forall_zset|].
  assert (Hz : forall i d, zget (zset l j c') i = Some d ->
    exists e, zget l i = Some e /\ ptr e = ptr d /\ size_of e = size_of d).
  { intros i d Hd. destruct (Z.eq_dec i j) as [->|Hne].
    - rewrite zget_zset_eq in Hd by (by eapply zget_Some_lt). injection Hd as <-. by exists c.
    - rewrite zget_zset_ne in Hd by done. by exists d. }
  intros i k d e (d' & Hd & Ep & Es)%Hz (e' & He & Fp & Fs)%Hz Hne.
  pose proof (H2 _ _ _ _ Hd He Hne) as Ha. unfold chunk_apart in *. by rewrite <- Ep, <- Es, <- Fp, <- Fs.
Qed.

Lemma zget_snoc {A} (l : list A) x i y :
  zget (l ++ [x]) i = Some y -> (i = zlen l /\ y = x) \/ (i < zlen l /\ zget l i = Some y).
Proof.
  intros H. destruct (Z.ltb_spec i (zlen l)).
  - right. split; [done|]. by rewrite zget_app_l in H.
  - left. rewrite zget_app_r in H by done. pose proof (zget_Some_lt _ _ _ H) as Hb. rewrite zlen_cons in Hb.
    change (zlen (@nil A)) with 0 in Hb. assert (i = zlen l) as -> by lia.
    rewrite Z.sub_diag in H. by injection H.
Qed.

Lemma chunk_apart_sym c d : chunk_apart c d -> chunk_apart d c.
Proof. unfold chunk_apart, apart. lia. Qed.

Lemma list_ok_snoc lo top l c :
  list_ok lo top l -> chunk_ok lo top c -> (forall d, d ∈ l -> chunk_apart d c) -> list_ok lo top (l ++ [c]).
Proof.
  intros [H1 H2] Hc Ha. split; [by apply Forall_app_2; [|constructor]|].
  intros i j d e [[-> ->]|[Hi Hd]]%zget_snoc [[-> ->]|[Hj He]]%zget_snoc Hne; [lia|..].
  - apply chunk_apart_sym, Ha, elem_zget. by exists j.
  - apply Ha, elem_zget. by exists i.
  - by apply (H2 i j).
Qed.

Lemma list_ok_top lo top top' l : top <= top' -> list_ok lo top l -> list_ok lo top' l.
Proof.
  intros Ht [H1 H2]. split; [|done]. eapply Forall_impl; [done|]. intros c. by apply chunk_ok_top.
Qed.

Lemma list_ok_delete lo top l j : list_ok lo top l -> 0 <= j -> list_ok lo top (delete (Z.to_nat j) l).
Proof.
  intros [H1 H2] Hj. split; [by apply Forall_delete|].
  intros i k c d Hc Hd Hne. pose proof (zget_Some_lt _ _ _ Hc). pose proof (zget_Some_lt _ _ _ Hd).
  rewrite zget_delete in Hc, Hd by lia.
  destruct (Z.ltb_spec i j), (Z.ltb_spec k j); (eapply H2; [exact Hc|exact Hd|lia]).
Qed.

Lemma live_delete l j c b :
  zget l j = Some c ->
  live_list (delete (Z.to_nat j) l) b <-> exists i d, i <> j /\ zget l i = Some d /\ live_in d b.
Proof.
  intros Hc. pose proof (zget_Some_lt _ _ _ Hc). rewrite live_zget. split.
  - intros (i & d & Hd & Hl). pose proof (zget_Some_lt _ _ _ Hd). rewrite zget_delete in Hd by lia.
    destruct (Z.ltb_spec i j); [exists i|exists (i + 1)]; exists d; split_and!; try done; lia.
  - intros (i & d & Hne & Hd & Hl). pose proof (zget_Some_lt _ _ _ Hd).
    destruct (Z.ltb_spec i j); [exists i|exists (i - 1)]; exists d; (split; [|done]); rewrite zget_delete by lia.
    + by destruct (Z.ltb_spec i j); [|lia].
    + destruct (Z.ltb_spec (i - 1) j); [lia|]. by replace (i - 1 + 1) with i by lia.
Qed.

(** ** Running the heap with one map *)

Definition one (x : Z) (l : list chunkmap_t) : list (option allocmap_t) := [Some (mk_am x l)].

Section Run.
Context (x : Z).
Implicit Types (l : list chunkmap_t) (s : heap_t).

Lemma wp_am_at l (Q : allocmap_t -> heap_t -> Prop) s :
  arena s = one x l -> Q (mk_am x l) s -> wp (am_at 1) Q s.
Proof. intros Ha HQ. unfold am_at. wp_go. rewrite Ha. by apply wp_ret. Qed.

Lemma wp_arena_put v (Q : unit -> heap_t -> Prop) s :
  zlen (arena s) <= 1 -> Q tt (set_arena [v] s) -> wp (arena_put 1 v) Q s.
Proof.
  intros Hl HQ. unfold arena_put. wp_go.
  destruct (arena s) as [|y [|z t]]; [done|done|].
  rewrite !zlen_cons in Hl. pose proof (zlen_nonneg t). lia.
Qed.

Lemma wp_chunk_at l j c (Q : chunkmap_t -> heap_t -> Prop) s :
  arena s = one x l -> zget l j = Some c -> Q c s -> wp (chunk_at 1 j) Q s.
Proof.
  intros Ha Hc HQ. unfold chunk_at. wp_go. eapply wp_am_at; [done|]. by eapply wp_need.
Qed.

Lemma wp_chunk_mod l j c f (Q : unit -> heap_t -> Prop) s :
  arena s = one x l -> zget l j = Some c -> Q tt (set_arena (one x (zset l j (f c))) s) ->
  wp (chunk_mod 1 j f) Q s.
Proof.
  intros Ha Hc HQ. unfold chunk_mod. wp_go. eapply wp_am_at; [done|]. wp_go. eapply wp_need; [done|].
  apply wp_arena_put; [by rewrite Ha|done].
Qed.

Lemma wp_emit e (Q : unit -> heap_t -> Prop) s : (forall g, Q tt (set_hlog g s)) -> wp (emit e) Q s.
Proof. intros HQ. unfold emit. wp_go. apply HQ. Qed.

Lemma wp_mmap a n (Q : bool -> heap_t -> Prop) s :
  maps_ok s = [] -> (forall g, Q true (set_hlog g s)) -> wp (mmap a n) Q s.
Proof. intros Hm HQ. unfold mmap. wp_go. rewrite Hm. wp_go. apply HQ. Qed.

(** *** Giving back *)

(** What [give_back] leaves: the list of chunks and the answer. *)
Definition given (l : list chunkmap_t) (j : Z) (c : chunkmap_t) (k : Z) : list chunkmap_t * Z :=
  if small c then (zset l j (clear_bit k c), sum u64 (clear_bit k c)) else (l, 0).

Lemma wp_give_back l j c k p (Q : Z -> heap_t -> Prop) s :
  arena s = one x l -> zget l j = Some c -> (p - ptr c) / quantum c = k ->
  (forall g, Q (given l j c k).2 (set_hlog g (set_arena (one x (given l j c k).1) s))) ->
  wp (give_back u64 1 j p) Q s.
Proof.
  intros Ha Hc Hk HQ. pose proof (zget_Some_lt _ _ _ Hc). unfold give_back, given in *. wp_go.
  eapply wp_chunk_at; [done..|]. rewrite Hk. destruct (small c).
  - wp_go; (eapply wp_chunk_mod; [done..|]); wp_go;
      (eapply wp_chunk_at; [reflexivity|by apply zget_zset_eq|]); wp_go;
      try (apply wp_emit; intros g; wp_go; apply HQ).
    specialize (HQ (hlog s)). by destruct s.
  - wp_go. apply wp_emit. intros g. wp_go. specialize (HQ g). destruct s; simpl in *. by subst.
Qed.

(** Removing a chunk, and the map with the last one. *)
Lemma wp_drop_chunk l j c (Q : unit -> heap_t -> Prop) s :
  arena s = one x l -> zget l j = Some c ->
  (forall h, chunks h = delete (Z.to_nat j) l -> locked h = locked s -> herrno h = herrno s ->
     (numallocmaps h = numallocmaps s /\ arena h = one x (delete (Z.to_nat j) l))
     \/ (numallocmaps h = u64 (numallocmaps s - 1) /\ arena h = [None]) -> Q tt h) ->
  wp (drop_chunk (zlen l) 1 j) Q s.
Proof.
  intros Ha Hc HQ. pose proof (zget_Some_lt _ _ _ Hc) as Hj. unfold drop_chunk. wp_go.
  eapply wp_am_at; [done|]. cbn [chunk].
  assert (Hl : (if j + 1 <? zlen l then delete (Z.to_nat j) l else take (Z.to_nat (zlen l - 1)) l)
               = delete (Z.to_nat j) l).
  { destruct (Z.ltb_spec (j + 1) (zlen l)); [done|]. assert (j = zlen l - 1) as -> by lia.
    rewrite delete_take_drop, drop_ge, app_nil_r; [done|]. unfold zlen. lia. }
  rewrite Hl. wp_go; (apply wp_arena_put; [by rewrite Ha|]); wp_go; unfold munmap.
  - apply wp_emit. intros g. wp_go. apply wp_arena_put; [done|]. wp_go. b2p.
    apply HQ; try done; [|by right].
    simpl. destruct (delete (Z.to_nat j) l) eqn:E; [done|]. unfold zlen in *. simpl in *. lia.
  - apply HQ; try done. by left.
Qed.

End Run.

(** ** Freeing *)

Definition total (l : list Z) : Z := fold_right Z.add 0 l.

(** The words of the small chunks do not add up to more than a word. *)
Definition sums_fit (h : heap_t) : Prop :=
  Forall (fun c => small c = true -> total (map c) < 2 ^ 64) (chunks h).

Lemma total_nonneg l : Forall (fun w => 0 <= w < 2 ^ 64) l -> 0 <= total l.
Proof. induction 1; simpl; lia. Qed.

Lemma sum_total c : Forall (fun w => 0 <= w < 2 ^ 64) (map c) -> total (map c) < 2 ^ 64 -> sum u64 c = total (map c).
Proof.
  unfold sum. intros Hf Ht.
  assert (H : forall l a, 0 <= a -> Forall (fun w => 0 <= w < 2 ^ 64) l -> a + total l < 2 ^ 64 ->
    fold_left (fun l w => u64 (l + w)) l a = a + total l).
  { induction l as [|w l IH]; intros a Ha Hl Hs; simpl in *; [lia|]. inversion Hl; subst.
    pose proof (total_nonneg l H2). rewrite u64_small by lia. rewrite IH by (try done; lia). lia. }
  by rewrite H.
Qed.

Lemma total_zero l w : Forall (fun w => 0 <= w < 2 ^ 64) l -> total l = 0 -> In w l -> w = 0.
Proof.
  induction 1 as [|v l Hv Hl IH]; simpl; [done|]. intros Ht. pose proof (total_nonneg l Hl).
  intros [->|Hi]; [lia|]. apply IH; [lia|done].
Qed.

Lemma total_zset l i w v :
  zget l i = Some w -> 0 <= v <= w -> total (zset l i v) <= total l.
Proof.
  revert i. induction l as [|y l IH]; intros i Hi Hv; [by unfold zget in Hi; case_match|].
  pose proof (zget_Some_lt _ _ _ Hi). destruct (Z.eq_dec i 0) as [->|Hne].
  - rewrite zget_cons_0 in Hi. injection Hi as ->. simpl. lia.
  - rewrite zget_cons_S in Hi by lia. unfold zset in *. destruct (Z.ltb_spec i 0); [lia|].
    replace (Z.to_nat i) with (S (Z.to_nat (i - 1))) by lia. simpl.
    specialize (IH (i - 1) Hi Hv). destruct (Z.ltb_spec (i - 1) 0); [lia|]. lia.
Qed.

(** An empty sum means that no block is in use. *)
Lemma sum_zero_unused lo top c k :
  chunk_ok lo top c -> total (map c) < 2 ^ 64 -> sum u64 c = 0 -> used c k = false.
Proof.
  intros H Ht Hs. rewrite sum_total in Hs by (try done; apply H).
  unfold used, word. destruct (zget (map c) (Z.shiftr k 6)) as [w|] eqn:E; simpl; [|by rewrite Z.bits_0].
  apply zget_In, (total_zero _ w (ck_words _ _ _ H) Hs) in E as ->. by rewrite Z.bits_0.
Qed.

Lemma clear_total lo top c k :
  chunk_ok lo top c -> 0 <= k < 512 -> total (map (clear_bit k c)) <= total (map c).
Proof.
  intros H Hk. pose proof (bit_range k Hk). cbn [map clear_bit set_map].
  destruct (zget_is_Some (map c) (Z.shiftr k 6)) as [w Hw]; [rewrite (ck_len _ _ _ H); lia|].
  apply (total_zset _ _ w); [done|]. pose proof (word_bound _ _ _ (Z.shiftr k 6) H) as Hb.
  unfold word in *. rewrite Hw in *. simpl in *. apply word_ldiff; [done|lia].
Qed.

Lemma find_chunk_first p l k j c :
  zget l j = Some c -> inside p c = true -> (forall i d, i < j -> zget l i = Some d -> inside p d = false) ->
  find_chunk p l k = Some (k + j).
Proof.
  revert k j. induction l as [|d l IH]; intros k j Hj Hin Hf; [by unfold zget in Hj; case_match|].
  pose proof (zget_Some_lt _ _ _ Hj). simpl. destruct (Z.eq_dec j 0) as [->|Hne].
  - injection Hj as ->. rewrite Hin. f_equal. lia.
  - rewrite (Hf 0 d) by (try done; lia). rewrite (IH (k + 1) (j - 1)); [f_equal; lia| |done|].
    + by rewrite zget_cons_S in Hj by lia.
    + intros i e Hi He. pose proof (zget_Some_lt _ _ _ He). apply (Hf (i + 1)); [lia|].
      rewrite zget_cons_S by lia. by replace (i + 1 - 1) with i by lia.
Qed.

Lemma inside_iff lo top p c : 0 <= lo -> top < 2 ^ 64 -> chunk_ok lo top c ->
  inside p c = true <-> ptr c <= p < ptr c + size_of c.
Proof. intros. unfold inside. rewrite (end_exact lo top) by done. lia. Qed.

(** The chunk of a live block is the one found. *)
Lemma find_live lo top l j c p n :
  0 <= lo -> top < 2 ^ 64 -> list_ok lo top l -> zget l j = Some c -> live_in c (p, n) ->
  find_chunk p l 0 = Some j.
Proof.
  intros Hlo Htop Hl Hj Hin. pose proof (list_ok_chunk _ _ _ _ _ Hl Hj) as Hc.
  pose proof (live_within _ _ _ _ _ Hc Hin).
  change (Some j) with (Some (0 + j)). apply (find_chunk_first _ _ _ _ c); [done| |].
  - apply (inside_iff lo top); try done. lia.
  - intros i d Hi Hd. pose proof (list_ok_chunk _ _ _ _ _ Hl Hd) as Hdk.
    destruct (inside p d) eqn:E; [|done]. apply (inside_iff lo top) in E; try done.
    pose proof (lk_apart _ _ _ Hl i j d c Hd Hj ltac:(lia)) as Ha. unfold chunk_apart, apart in Ha. lia.
Qed.

(** A block of a chunk lies in that chunk only. *)
Lemma live_elsewhere lo top l i j c d b :
  list_ok lo top l -> zget l i = Some c -> zget l j = Some d -> i <> j ->
  live_in c b -> live_in d b -> False.
Proof.
  intros Hl Hi Hj Hne Hc Hd. destruct b as [p n].
  pose proof (live_within _ _ _ _ _ (list_ok_chunk _ _ _ _ _ Hl Hi) Hc).
  pose proof (live_within _ _ _ _ _ (list_ok_chunk _ _ _ _ _ Hl Hj) Hd).
  pose proof (lk_apart _ _ _ Hl _ _ _ _ Hi Hj Hne) as Ha. unfold chunk_apart, apart in Ha. lia.
Qed.

Lemma live_others lo top l j c b :
  list_ok lo top l -> zget l j = Some c -> live_in c b ->
  forall b', (exists i d, i <> j /\ zget l i = Some d /\ live_in d b') <->
             (exists i d, i <> j /\ zget l i = Some d /\ live_in d b') /\ b' <> b.
Proof.
  intros Hl Hj Hb b'. split; [|by intros []]. intros (i & d & Hne & Hd & Hd').
  split; [by exists i, d|]. intros ->. by eapply (live_elsewhere _ _ l i j).
Qed.

Lemma live_split l j c b :
  zget l j = Some c ->
  live_list l b <-> live_in c b \/ exists i d, i <> j /\ zget l i = Some d /\ live_in d b.
Proof. intros Hj. rewrite <- (zset_id l j c Hj) at 1. by eapply live_zset. Qed.

(** The chunks after a block of chunk [j] was given back. *)
Definition freed (l : list chunkmap_t) (j : Z) (c : chunkmap_t) (k : Z) : list chunkmap_t :=
  if (given l j c k).2 =? 0 then delete (Z.to_nat j) (given l j c k).1 else (given l j c k).1.

Lemma live_cleared lo top l j c k :
  list_ok lo top l -> zget l j = Some c -> small c = true -> 0 <= k < 512 -> used c k = true ->
  list_ok lo top (zset l j (clear_bit k c))
  /\ forall b, live_list (zset l j (clear_bit k c)) b <-> live_list l b /\ b <> block_of c k.
Proof.
  intros Hl Hj Hs Hk Hu. pose proof (list_ok_chunk _ _ _ _ _ Hl Hj) as Hc. split.
  - eapply list_ok_zset; [done..|by apply clear_bit_ok|done|by apply size_same_small].
  - intros b. assert (Hb : live_in c (block_of c k)) by (unfold live_in; rewrite Hs; by exists k).
    pose proof (live_others _ _ _ _ _ _ Hl Hj Hb b). pose proof (live_clear_bit lo top c k b Hc Hs Hk).
    rewrite (live_zset _ _ _ _ _ Hj), (live_split _ _ _ _ Hj). tauto.
Qed.

Lemma live_delete_empty l j c b :
  zget l j = Some c -> (forall b, ~ live_in c b) -> live_list (delete (Z.to_nat j) l) b <-> live_list l b.
Proof.
  intros Hj Hno. rewrite (live_delete _ _ _ _ Hj), (live_split _ _ _ _ Hj). pose proof (Hno b). tauto.
Qed.

Lemma live_freed lo top l j c p n :
  list_ok lo top l -> zget l j = Some c -> live_in c (p, n) -> (small c = true -> total (map c) < 2 ^ 64) ->
  list_ok lo top (freed l j c ((p - ptr c) / quantum c))
  /\ forall b, live_list (freed l j c ((p - ptr c) / quantum c)) b <-> live_list l b /\ b <> (p, n).
Proof.
  intros Hl Hj Hin Ht. pose proof (list_ok_chunk _ _ _ _ _ Hl Hj) as Hc. pose proof (zget_Some_lt _ _ _ Hj).
  pose proof (live_others _ _ _ _ _ _ Hl Hj Hin) as Ho. pose proof (ck_quantum _ _ _ Hc).
  unfold freed, given. destruct (small c) eqn:Es; cbn [fst snd].
  - unfold live_in in Hin. rewrite Es in Hin. destruct Hin as (k & Hk & Hu & [= -> ->]).
    replace ((ptr c + k * quantum c - ptr c) / quantum c) with k
      by (replace (ptr c + k * quantum c - ptr c) with (k * quantum c) by lia; by rewrite Z.div_mul by lia).
    destruct (live_cleared lo top l j c k) as [Hok Hlive]; try done.
    destruct (Z.eqb_spec (sum u64 (clear_bit k c)) 0) as [Hz|Hz]; [|done].
    split; [apply list_ok_delete; [done|lia]|].
    intros b. rewrite (live_delete_empty _ _ (clear_bit k c)); [apply Hlive|by apply zget_zset_eq|].
    intros b'. unfold live_in. change (small (clear_bit k c)) with (small c). rewrite Es.
    intros (i & _ & Hi & _). rewrite (sum_zero_unused lo top) in Hi; try done; [by apply clear_bit_ok|].
    pose proof (clear_total _ _ _ k Hc Hk). specialize (Ht eq_refl). lia.
  - simpl. split; [apply list_ok_delete; [done|lia]|]. intros b.
    unfold live_in in Hin. rewrite Es in Hin. destruct Hin as [[= -> ->] Hn].
    rewrite (live_delete _ _ _ _ Hj), (live_split _ _ _ _ Hj). specialize (Ho b).
    assert (live_in c b <-> b = (ptr c, word c 0)) by (unfold live_in; rewrite Es; naive_solver). tauto.
Qed.

(** Giving a block back, and the chunk with the last one. *)
Lemma wp_give_and_drop {A} x l j c p (K : M heap_t A) (Q : A -> heap_t -> Prop) s :
  arena s = one x l -> zget l j = Some c -> numallocmaps s = 1 ->
  (forall h, chunks h = freed l j c ((p - ptr c) / quantum c) -> locked h = locked s -> herrno h = herrno s ->
     (numallocmaps h = 1 /\ exists l', arena h = one x l') \/ (numallocmaps h = 0 /\ arena h = [None]) ->
     wp K Q h) ->
  wp (n <-- give_back u64 1 j p ;; m <-- am_at 1 ;; when (n =? 0) (drop_chunk (zlen (chunk m)) 1 j) ;;; K) Q s.
Proof.
  intros Ha Hj Hn HQ. pose proof (zget_Some_lt _ _ _ Hj). unfold freed in HQ.
  wp_go. eapply (wp_give_back x); [done..|]. intros g. wp_go.
  eapply (wp_am_at x); [reflexivity|]. cbn [chunk]. apply wp_bind, wp_when; intros Hc; rewrite Hc in HQ.
  - 
    assert (exists d, zget (given l j c ((p - ptr c) / quantum c)).1 j = Some d) as [d Hd].
    { unfold given. destruct (small c); [|by exists c]. eexists. by apply zget_zset_eq. }
    eapply (wp_drop_chunk x); [reflexivity|exact Hd|]. intros h Hh Hlk He Hm. apply HQ; try done.
    destruct Hm as [[Hm Hm']|[Hm Hm']]; [left|right]; simpl in *; rewrite Hm, Hn; [|done].
    split; [done|]. by eexists.
  - apply HQ; try done. left. split; [done|]. by eexists.
Qed.

Lemma wp_lockacquire (Q : unit -> heap_t -> Prop) s :
  locked s = false -> Q tt (set_locked true s) -> wp lockacquire Q s.
Proof. intros Hl HQ. unfold lockacquire. apply wp_bind, wp_gets. rewrite Hl. by apply wp_modify. Qed.

Definition heap_same (h h' : heap_t) : Prop := locked h' = locked h /\ herrno h' = herrno h.

Lemma live_one base top h b :
  heap_ok base top h -> Live h b ->
  numallocmaps h = 1 /\ arena h = one (base + ARENASIZE) (chunks h).
Proof.
  intros H (c & Hc & _). destruct (hk_maps _ _ _ H) as [[_ Ha]|[Hn [l Ha]]].
  - exfalso. unfold chunks in Hc. rewrite !elem_of_cons in Ha.
    destruct Ha as [E|[E|Ha]]; [rewrite E in Hc; by inversion Hc..|by inversion Ha].
  - split; [done|]. unfold chunks. by rewrite Ha.
Qed.

(** C20: Freeing a live block removes it from the live blocks and nothing else, and the heap
    stays well formed, as long as the words of the map of every chunk of small blocks add up
    to less than 2^64 ([sums_fit]): when they add up to 2^64, the chunk is taken for an empty
    one and its live blocks are lost ([empty_sum_loses_blocks]). *)
Theorem bzt_free_removes base top h p n :
  heap_ok base top h -> locked h = false -> Live h (p, n) -> sums_fit h ->
  exists h', bzt_free p h = Ret tt h' /\ heap_ok base top h' /\ heap_same h h'
    /\ forall b, Live h' b <-> Live h b /\ b <> (p, n).
Proof.
  intros H Hlk HL Hs. destruct (live_one _ _ _ _ H HL) as [Hn Ha]. pose proof (hk_list _ _ _ H) as Hl.
  pose proof (hk_base _ _ _ H). pose proof (hk_top _ _ _ H).
  apply live_zget in HL as (j & c & Hj & Hin).
  pose proof (list_ok_chunk _ _ _ _ _ Hl Hj) as Hc. pose proof (live_within _ _ _ _ _ Hc Hin).
  assert (Hf : small c = true -> total (map c) < 2 ^ 64).
  { unfold sums_fit in Hs. rewrite Forall_forall in Hs. apply Hs, elem_zget. by exists j. }
  destruct (live_freed _ _ _ _ _ _ _ Hl Hj Hin Hf) as [Hok Hlive].
  enough (wp (bzt_free p) (fun _ h' => heap_ok base top h' /\ heap_same h h'
    /\ forall b, Live h' b <-> Live h b /\ b <> (p, n)) h) as Hw
    by (apply wp_run in Hw as ([] & h' & ? & ?); by exists h').
  pose proof (ck_lo _ _ _ Hc). assert (0 < ALLOCSIZE) by done.
  unfold bzt_free. destruct (Z.eqb_spec p 0) as [->|_]; [lia|].
  wp_go. apply wp_lockacquire; [done|]. wp_go. cbn [arena numallocmaps set_locked]. rewrite Ha, Hn.
  assert (find_block p (one (base + ARENASIZE) (chunks h)) 1 0 1 = Some (1, j)) as ->.
  { cbn [find_block one chunk]. rewrite (find_live (base + 2 * ALLOCSIZE) top _ _ c p n) by (try done; lia). done. }
  eapply (wp_give_and_drop (base + ARENASIZE)); [done..|]. intros h' Hch Hlk' He Hm.
  unfold lockrelease. wp_go. unfold Live. rewrite <- Hch in *.
  split; [|split; [by split|done]]. split; try done; [apply H|].
  destruct Hm as [[? ?]|[? Hm]]; [right; done|left]. split; [done|].
  simpl. rewrite Hm. right. by left.
Qed.

(** ** Allocating *)

(** The quantum of a request of [s] bytes: the first power of two from 8 on that holds it. *)
Definition quantum_for (s q : Z) : Prop :=
  s <= q /\ (q = 8 \/ q < 2 * s) /\ exists e, 3 <= e <= 41 /\ q = 2 ^ e.

Lemma wp_quantum_of fuel s (Q : Z -> heap_t -> Prop) h :
  0 < s <= 2 ^ 40 -> (64 <= fuel)%nat -> (forall q, quantum_for s q -> Q q h) -> wp (quantum_of fuel s) Q h.
Proof.
  intros Hs Hf HQ. unfold quantum_of.
  apply (wp_iter (fun q h' => h' = h /\ (q = 8 \/ q < 2 * s) /\ exists e, 3 <= e <= 41 /\ q = 2 ^ e)
           (fun q _ => Z.to_nat (41 - Z.log2 q))).
  - intros q h' (-> & Hq & e & He & ->). apply wp_ret.
    destruct (Z.ltb_spec (2 ^ e) s); [|by apply HQ; split; [|split; [|exists e]]].
    assert (He' : e < 41).
    { destruct (Z.eq_dec e 41) as [->|]; [lia|lia]. }
    assert (Hn : u64 (Z.shiftl (2 ^ e) 1) = 2 ^ (e + 1)).
    { rewrite Z.shiftl_mul_pow2, Z.pow_add_r by lia. apply u64_small.
      assert (2 ^ e <= 2 ^ 40) by (apply Z.pow_le_mono_r; lia). lia. }
    rewrite Hn. split; [split; [done|split; [right; rewrite Z.pow_add_r by lia; lia|by exists (e + 1); lia]]|].
    rewrite !Z.log2_pow2 by lia. lia.
  - split; [done|]. split; [by left|]. by exists 3.
  - simpl. lia.
Qed.

Lemma quantum_for_bound s q : 0 < s <= 2 ^ 40 -> quantum_for s q -> 8 <= q < 2 ^ 42 /\ q mod 8 = 0.
Proof.
  intros Hs (H1 & H2 & e & He & ->). split.
  - change 8 with (2 ^ 3). split; [apply Z.pow_le_mono_r; lia|apply Z.pow_lt_mono_r; lia].
  - replace e with (3 + (e - 3)) by lia. rewrite Z.pow_add_r by lia. change (2 ^ 3) with 8.
    rewrite Z.mul_comm. by apply Z.mod_mul.
Qed.

Lemma quantum_for_align s q :
  0 < s <= 2 ^ 40 -> quantum_for s q -> ALLOCSIZE <= q -> q mod ALLOCSIZE = 0 /\ roundup s <= q.
Proof.
  intros Hs (H1 & H2 & e & He & Hq) Ha. change ALLOCSIZE with (2 ^ 21) in *. subst q.
  assert (21 <= e) by (apply (Z.pow_le_mono_r_iff 2); lia).
  assert (Hm : 2 ^ e = 2 ^ (e - 21) * 2 ^ 21) by (rewrite <- Z.pow_add_r by lia; f_equal; lia).
  split; [rewrite Hm; by apply Z.mod_mul|]. unfold roundup. change ALLOCSIZE with 2097152.
  rewrite u64_small by lia. change (2 ^ 21) with 2097152 in *.
  Z.to_euclidean_division_equations; lia.
Qed.

Lemma roundup_spec s : 0 < s <= 2 ^ 40 -> s <= roundup s < s + ALLOCSIZE /\ 0 < roundup s /\ (s <= ALLOCSIZE -> roundup s = ALLOCSIZE).
Proof.
  intros Hs. unfold roundup. change ALLOCSIZE with 2097152. rewrite u64_small by lia.
  Z.to_euclidean_division_equations; lia.
Qed.

(** *** The walk *)

Lemma free_slot_unused n c k k' :
  free_slot n c k 1 = Some k' -> 0 <= k -> 0 <= k' < 512 /\ used c k' = false.
Proof.
  revert k. induction n as [|n IH]; intros k Hn Hk; [done|]. simpl in Hn.
  change (BITMAPSIZE * 64) with 512 in Hn. destruct (Z.ltb_spec k 512); [|done].
  destruct (used c k) eqn:E; [|by injection Hn as <-].
  apply IH in Hn; [done|]. apply wrap_bound. lia.
Qed.

Section Scan.
Context (base top q : Z).
Let lo := base + 2 * ALLOCSIZE.

(** A chunk was chosen, if any, with a free block. *)
Definition chosen_ok (l : list chunkmap_t) (r : scan_t) : Prop :=
  match ncm r with
  | None => True
  | Some (i, j) => i = 1 /\ exists c, zget l j = Some c /\ quantum c = q /\ q < ALLOCSIZE
                   /\ 0 <= sh r < 512 /\ used c (sh r) = false
  end.

Lemma chosen_snoc l c r : chosen_ok l r -> chosen_ok (l ++ [c]) r.
Proof.
  unfold chosen_ok. destruct (ncm r) as [[i j]|]; [|done]. intros (-> & d & Hd & H). split; [done|].
  exists d. split; [|done]. rewrite zget_app_l; [done|]. apply zget_Some_lt in Hd. lia.
Qed.

Definition choose (l : list chunkmap_t) (c : chunkmap_t) (r : scan_t) : scan_t :=
  if (quantum c =? q) && (q <? ALLOCSIZE) && (Z.land (ptr c) (q - 1) =? 0) then
    match free_slot 512 c 0 (q / q) with
    | Some k => set_sh k (set_ncm (Some (1, zlen l)) r)
    | None => r
    end
  else r.

Lemma choose_ok l c r :
  0 < q -> chosen_ok l r -> chosen_ok (l ++ [c]) (choose l c r)
  /\ fp (choose l c r) = fp r /\ sp (choose l c r) = sp r /\ ocm (choose l c r) = ocm r.
Proof.
  intros Hq H%(chosen_snoc _ c). unfold choose. destruct ((_ && _) && _) eqn:E; [|done]. b2p.
  destruct (free_slot 512 c 0 (q / q)) as [k|] eqn:Ek; [|done].
  rewrite Z.div_same in Ek by lia. apply free_slot_unused in Ek as [Hk Hu]; [|lia].
  split; [|done]. split; [done|]. exists c. simpl. split_and!; try done; try lia.
  by rewrite zget_app_r, Z.sub_diag by lia.
Qed.

Definition first_of (c : chunkmap_t) (r : scan_t) : scan_t :=
  if (sp r =? 0) || (ptr c <? sp r) then set_sp (ptr c) r else r.

(** The address of the first chunk. *)
Definition first_ok (l : list chunkmap_t) (p : Z) : Prop :=
  ((l = [] /\ p = 0) \/ exists c, c ∈ l /\ p = ptr c) /\ forall c, c ∈ l -> p <= ptr c.

Lemma elem_snoc {A} (l : list A) x y : y ∈ l ++ [x] <-> y ∈ l \/ y = x.
Proof. by rewrite elem_of_app, list_elem_of_singleton. Qed.

Lemma first_of_ok l c r :
  0 < lo -> chunk_ok lo top c -> Forall (chunk_ok lo top) l -> first_ok l (sp r) ->
  first_ok (l ++ [c]) (sp (first_of c r)).
Proof.
  intros Hlo Hc Hl [H1 H2]. pose proof (ck_lo _ _ _ Hc). rewrite Forall_forall in Hl.
  assert (Hold : forall d, d ∈ l -> sp r <> 0).
  { intros d Hd. destruct H1 as [[-> _]|(e & He & ->)]; [by inversion Hd|].
    pose proof (ck_lo _ _ _ (Hl e He)). lia. }
  unfold first_of, first_ok. setoid_rewrite elem_snoc. destruct ((sp r =? 0) || _) eqn:E; simpl; split.
  - right. exists c. auto.
  - intros d [Hd| ->]; [|lia]. pose proof (H2 d Hd). pose proof (Hold d Hd).
    apply orb_prop in E as [E|E]; lia.
  - right. destruct H1 as [[_ Hz]|(d & Hd & ->)]; [b2p; lia|]. exists d. auto.
  - intros d [Hd| ->]; [by apply H2|]. b2p. lia.
Qed.

(** What the walk knows after the chunks [l], for a plain request; [room] is the map with
    room for a chunk. *)
Record scan_ok (room : Z) (l : list chunkmap_t) (r : scan_t) : Prop := {
  so_fp : lo <= fp r <= top;
  so_ends : forall c, c ∈ l -> ptr c + size_of c <= fp r;
  so_sp : first_ok l (sp r);
  so_ncm : chosen_ok l r;
  so_rest : ocm r = None /\ am r = 1 /\ lp r = lo /\ fc r = room;
}.

Lemma scan_chunk_ok room l c r :
  0 <= base -> top < 2 ^ 64 -> 0 < q -> chunk_ok lo top c -> Forall (chunk_ok lo top) l ->
  scan_ok room l r -> scan_ok room (l ++ [c]) (scan_chunk q q 0 1 (zlen l) c r).
Proof.
  intros Hb Ht Hq Hc Hl [H1 H2 H3 H4 H5]. assert (0 < ALLOCSIZE) by done.
  pose proof (ck_lo _ _ _ Hc). pose proof (ck_hi _ _ _ Hc).
  destruct (choose_ok l c r Hq H4) as (Hn & Hf & Hs & Ho).
  assert (Hrest : am (choose l c r) = am r /\ lp (choose l c r) = lp r /\ fc (choose l c r) = fc r).
  { unfold choose. destruct ((_ && _) && _); [|done]. by destruct (free_slot 512 c 0 (q / q)). }
  unfold scan_chunk. cbn [Z.eqb negb andb]. rewrite (end_exact lo top) by (try done; unfold lo; lia).
  fold (choose l c r). fold (first_of c (choose l c r)).
  assert (Hff : first_ok (l ++ [c]) (sp (first_of c (choose l c r))))
    by (apply first_of_ok; [unfold lo; lia|done|done|by rewrite Hs]).
  set (r' := first_of c (choose l c r)) in *.
  assert (Hr' : fp r' = fp r /\ (ocm r' = None /\ am r' = 1 /\ lp r' = lo /\ fc r' = room) /\ chosen_ok (l ++ [c]) r').
  { unfold r', first_of. destruct H5 as (? & ? & ? & ?), Hrest as (? & ? & ?).
    destruct ((_ =? _) || _); simpl; (split; [congruence|split; [split_and!; congruence|done]]). }
  clearbody r'. destruct Hr' as (Hf' & Hrest' & Hn').
  destruct (Z.ltb_spec (fp r') (ptr c + size_of c)); split; try done; simpl; try lia;
    (intros d [Hd| ->]%elem_snoc; [pose proof (H2 d Hd)|]; lia).
Qed.

Lemma scan_chunks_ok room l2 l1 r :
  0 <= base -> top < 2 ^ 64 -> 0 < q -> Forall (chunk_ok lo top) (l1 ++ l2) -> scan_ok room l1 r ->
  scan_ok room (l1 ++ l2) (scan_chunks q q 0 1 (zlen l1) l2 r).
Proof.
  revert l1 r. induction l2 as [|c l2 IH]; intros l1 r Hb Ht Hq Hl Hr; [by rewrite app_nil_r|].
  simpl. rewrite (cons_middle c l1 l2), app_assoc in *. 
  replace (zlen l1 + 1) with (zlen (l1 ++ [c])) by (rewrite zlen_app; done).
  apply IH; try done. apply Forall_app in Hl as [Hl _]. apply Forall_app in Hl as [Hl Hc].
  apply scan_chunk_ok; try done. by inversion Hc.
Qed.

(** The whole walk over one map. *)
Lemma scan_one l :
  0 <= base -> lo <= top -> top < 2 ^ 63 -> 0 < q -> Forall (chunk_ok lo top) l ->
  exists r, scan_maps q q 0 (one (base + ARENASIZE) l) 1 0 1 (scan_start base) = (r, 2)
    /\ scan_ok (if zlen l <? maxchunks then 1 else 0) l r.
Proof.
  intros Hb Hlo Ht Hq Hl. assert (0 < ALLOCSIZE) by done. assert (HA : ARENASIZE = ALLOCSIZE) by done.
  eexists. split; [reflexivity|].
  unfold scan_map. cbn [am_addr chunk].
  set (r0 := set_am 1 _). 
  assert (Hlt : (fp r0 <? base + ARENASIZE + ALLOCSIZE) = false) by (simpl; lia). rewrite Hlt.
  cbn [lp r0 set_am scan_start Z.eqb orb]. cbn [fc r0 set_am set_lp scan_start Z.eqb andb].
  replace 0 with (zlen (@nil chunkmap_t)) at 3 by done.
  apply (scan_chunks_ok _ l []); try done; [lia|].
  assert (Hno : forall c : chunkmap_t, c ∈ [] -> False) by (intros c Hc; by inversion Hc).
  destruct (zlen l <? maxchunks); split; simpl; try (unfold lo; split; lia); try (by intros c Hc%Hno);
    try (by split_and!; [..|unfold lo; lia|]); try done; (split; [by left|by intros c Hc%Hno]).
Qed.
End Scan.

(** *** A new chunk *)

(** The bytes a chunk of the quantum takes for a request. *)
Definition extent (q s : Z) : Z := if q <? ALLOCSIZE then 512 * q else roundup s.

(** The gap behind the map is large enough for a whole chunk whenever it is for the
    request: the request is of at most a page or of more than 1M, or the first chunk
    stands at the front. *)
Definition gap_ok (base s : Z) (l : list chunkmap_t) : Prop :=
  s <= PAGESIZE \/ 2 ^ 20 < s \/ l = [] \/ exists c, c ∈ l /\ ptr c <= base + 3 * ALLOCSIZE.

Definition aligned (q f : Z) : Z := if ALLOCSIZE <=? q then u64 (f + q - 1) / q * q else f.

Lemma small_extent s q :
  0 < s <= 2 ^ 40 -> quantum_for s q -> s <= PAGESIZE \/ 2 ^ 20 < s -> extent q s <= roundup s.
Proof.
  intros Hs Hq Hc. pose proof (quantum_for_bound _ _ Hs Hq). unfold extent.
  destruct (Z.ltb_spec q ALLOCSIZE) as [Hlt|]; [|lia].
  pose proof (roundup_spec s Hs) as (_ & _ & Hr). destruct Hq as (H1 & H2 & e & He & ->).
  change PAGESIZE with (2 ^ 12) in Hc. change ALLOCSIZE with (2 ^ 21) in *.
  assert (e < 21) by (apply (Z.pow_lt_mono_r_iff 2); lia).
  rewrite Hr by lia.
  assert (e <= 12); [|assert (2 ^ e <= 2 ^ 12) by (apply Z.pow_le_mono_r; lia); lia].
  destruct Hc as [Hc|Hc].
  - destruct H2 as [H2|H2]; [change 8 with (2 ^ 3) in H2; apply Z.pow_inj_r in H2; lia|].
    assert (e < 13) by (apply (Z.pow_lt_mono_r_iff 2); lia). lia.
  - assert (2 ^ e <= 2 ^ 20) by (apply Z.pow_le_mono_r; lia). lia.
Qed.

Lemma aligned_spec q f : 0 < q < 2 ^ 42 -> 0 <= f <= 2 ^ 62 -> f <= aligned q f < f + q.
Proof.
  intros Hq Hf. unfold aligned. destruct (Z.leb_spec ALLOCSIZE q); [|lia].
  rewrite u64_small by lia. pose proof (Z.mul_div_le (f + q - 1) q ltac:(lia)).
  pose proof (Z.mul_succ_div_gt (f + q - 1) q ltac:(lia)). lia.
Qed.

Lemma aligned_fix s q f :
  quantum_for s q -> 0 <= f <= 2 ^ 62 -> 0 < q < 2 ^ 42 -> Z.land f (q - 1) = 0 -> aligned q f = f.
Proof.
  intros (_ & _ & e & He & ->) Hf Hq Hl. unfold aligned. destruct (Z.leb_spec ALLOCSIZE (2 ^ e)); [|done].
  rewrite u64_small by lia. replace (2 ^ e - 1) with (Z.ones e) in Hl by (by rewrite Z.ones_equiv; lia).
  rewrite Z.land_ones in Hl by lia. apply Z.mod_divide in Hl as [k ->]; [|lia]. f_equal.
  replace (k * 2 ^ e + 2 ^ e - 1) with (2 ^ e - 1 + k * 2 ^ e) by lia.
  rewrite Z.div_add, Z.div_small by lia. done.
Qed.

Lemma place_apart base top s q l r room :
  0 <= base -> base + 2 * ALLOCSIZE <= top <= 2 ^ 62 -> 0 < s <= 2 ^ 40 -> quantum_for s q ->
  gap_ok base s l -> scan_ok base top q room l r ->
  let f := aligned q (place q s r) in
  base + 2 * ALLOCSIZE <= f /\ f < top + q
  /\ forall c, c ∈ l -> apart (ptr c) (size_of c) f (extent q s).
Proof.
  intros Hb Ht Hs Hq Hg Hr. destruct (quantum_for_bound _ _ Hs Hq) as [Hqb _].
  pose proof (roundup_spec s Hs) as (Hru & Hr0 & _). assert (HA : ALLOCSIZE = 2097152) by done.
  destruct (so_rest _ _ _ _ _ _ Hr) as (_ & _ & Hlp & _). pose proof (so_fp _ _ _ _ _ _ Hr) as Hfp.
  destruct (so_sp _ _ _ _ _ _ Hr) as [Hsp1 Hsp2].
  unfold place. rewrite Hlp. rewrite (u64_small (_ + roundup s)) by lia.
  destruct (_ && _) eqn:E; cbn zeta.
  - b2p. rewrite (aligned_fix s) by (try done; lia). split; [lia|]. split; [lia|]. intros c Hc.
    pose proof (Hsp2 c Hc). right. 
    destruct (Z.leb_spec s PAGESIZE); [pose proof (small_extent _ _ Hs Hq ltac:(lia)); lia|].
    destruct (Z.ltb_spec (2 ^ 20) s); [pose proof (small_extent _ _ Hs Hq ltac:(lia)); lia|].
    exfalso. destruct Hg as [?|[?|[->|(d & Hd & Hle)]]]; [lia|lia|by inversion Hc|].
    pose proof (Hsp2 d Hd). destruct (roundup_spec s Hs) as (_ & _ & Hone). rewrite Hone in * by lia. lia.
  - pose proof (aligned_spec q (fp r) ltac:(lia) ltac:(lia)). split; [lia|]. split; [lia|].
    intros c Hc. pose proof (so_ends _ _ _ _ _ _ Hr c Hc). left. lia.
Qed.

(** *** Runs of the steps *)

Section Steps.
Context (x q : Z) (sparse : bool).
Implicit Types (l : list chunkmap_t) (s : heap_t).

Definition empty_chunk (f : Z) : chunkmap_t := mk_chunk q f (List.repeat 0 (Z.to_nat BITMAPSIZE)).

Lemma wp_maps_if (b : bool) a n (Q : bool -> heap_t -> Prop) s :
  maps_ok s = [] -> (forall g, Q true (set_hlog g s)) -> wp (if b then mmap a n else ret true) Q s.
Proof.
  intros Hm HQ. destruct b; [by apply wp_mmap|]. apply wp_ret. specialize (HQ (hlog s)). by destruct s.
Qed.

Lemma wp_new_chunk l f (Q : option (Z * Z) -> heap_t -> Prop) s :
  arena s = one x l -> maps_ok s = [] ->
  (forall g, Q (Some (zlen l, aligned q f)) (set_hlog g (set_arena (one x (l ++ [empty_chunk (aligned q f)])) s))) ->
  wp (new_chunk q q 1 f sparse) Q s.
Proof.
  intros Ha Hm HQ. unfold new_chunk. wp_go. eapply wp_am_at; [done|]. cbn zeta. fold (aligned q f).
  wp_go. apply wp_arena_put; [by rewrite Ha|]. apply wp_bind, wp_maps_if; [done|]. intros g. wp_go. apply HQ.
Qed.

Lemma wp_take_small l j c k f n (Q : option Z -> heap_t -> Prop) s :
  arena s = one x l -> maps_ok s = [] -> zget l j = Some c -> q < ALLOCSIZE -> k < 512 ->
  (forall g, Q (Some (u64 (ptr c + k * quantum c))) (set_hlog g (set_arena (one x (zset l j (set_bit k c))) s))) ->
  wp (take_block q 1 j k f n sparse) Q s.
Proof.
  intros Ha Hm Hj Hq Hk HQ. pose proof (zget_Some_lt _ _ _ Hj). unfold take_block.
  destruct (Z.ltb_spec q ALLOCSIZE); [|lia]. destruct (Z.eqb_spec k (2 ^ 64 - 1)); [lia|].
  wp_go. eapply wp_chunk_mod; [done..|]. wp_go.
  eapply wp_chunk_at; [reflexivity|by apply zget_zset_eq|]. apply wp_bind, wp_maps_if; [done|].
  intros g. wp_go. apply HQ.
Qed.

Lemma wp_take_large l j c k f n (Q : option Z -> heap_t -> Prop) s :
  arena s = one x l -> maps_ok s = [] -> zget l j = Some c -> ALLOCSIZE <= q ->
  (forall g, Q (Some f) (set_hlog g (set_arena (one x (zset l j (set_map (zset (map c) 0 (roundup n)) c))) s))) ->
  wp (take_block q 1 j k f n sparse) Q s.
Proof.
  intros Ha Hm Hj Hq HQ. unfold take_block. destruct (Z.ltb_spec q ALLOCSIZE); [lia|]. apply wp_bind.
  replace (if sparse then ret true else mmap f (roundup n)) with (if negb sparse then mmap f (roundup n) else ret true)
    by (by destruct sparse).
  apply wp_maps_if; [done|]. intros g. cbn beta iota delta [negb]. apply wp_bind. eapply wp_chunk_mod; [done..|]. wp_go. apply HQ.
Qed.

End Steps.

(** *** The list of chunks with the new block *)

Definition list_fresh (lo top : Z) (l l' : list chunkmap_t) (p n : Z) : Prop :=
  list_ok lo top l' /\ (forall b, live_list l' b <-> b = (p, n) \/ live_list l b)
  /\ forall p' n', live_list l (p', n') -> apart p' n' p n.

Lemma fresh_in_chunk lo top l j c k :
  list_ok lo top l -> zget l j = Some c -> small c = true -> 0 <= k < 512 -> used c k = false ->
  list_fresh lo top l (zset l j (set_bit k c)) (ptr c + k * quantum c) (quantum c).
Proof.
  intros Hl Hj Hs Hk Hu. pose proof (list_ok_chunk _ _ _ _ _ Hl Hj) as Hc.
  pose proof (ck_quantum _ _ _ Hc). split; [|split].
  - eapply list_ok_zset; [done..|by apply set_bit_ok|done|by apply size_same_small].
  - intros b. rewrite (live_zset _ _ _ _ _ Hj), (live_split _ _ _ _ Hj).
    pose proof (live_set_bit lo top c k b Hc Hs Hk). unfold block_of in *. tauto.
  - intros p n (i & d & Hd & Hin)%live_zget. pose proof (list_ok_chunk _ _ _ _ _ Hl Hd) as Hdk.
    destruct (Z.eq_dec i j) as [->|Hne].
    + rewrite Hj in Hd. injection Hd as <-. unfold live_in in Hin. rewrite Hs in Hin.
      destruct Hin as (k' & Hk' & Hu' & [= -> ->]). assert (k <> k') by congruence. unfold apart. nia.
    + pose proof (lk_apart _ _ _ Hl _ _ _ _ Hd Hj Hne) as Ha. pose proof (live_within _ _ _ _ _ Hdk Hin).
      unfold chunk_apart, apart in *. rewrite (size_small _ _ _ Hc Hs) in Ha. nia.
Qed.

Lemma fresh_chunk lo top top' l c p n :
  list_ok lo top l -> top <= top' -> chunk_ok lo top' c -> (forall b, live_in c b <-> b = (p, n)) ->
  (forall d, d ∈ l -> chunk_apart d c) -> list_fresh lo top' l (l ++ [c]) p n.
Proof.
  intros Hl Ht Hc Hb Ha. pose proof (list_ok_top _ _ _ _ Ht Hl) as Hl'. split; [|split].
  - by apply list_ok_snoc.
  - intros b. by rewrite live_snoc, Hb.
  - intros p' n' (d & Hd & Hin). assert (Hdk : chunk_ok lo top' d).
    { pose proof (lk_chunks _ _ _ Hl') as Hf. rewrite Forall_forall in Hf. by apply Hf. }
    eapply (live_apart lo top' d c); [done..|by apply Ha|done|by apply Hb].
Qed.

Lemma zset_snoc {A} (l : list A) x y : zset (l ++ [x]) (zlen l) y = l ++ [y].
Proof.
  rewrite zset_put by apply zlen_nonneg. unfold zlen. rewrite Nat2Z.id.
  by rewrite insert_app_r_alt, Nat.sub_diag by lia.
Qed.

Lemma empty_ok lo top q f :
  0 < q < 2 ^ 42 -> q mod 8 = 0 -> lo <= f -> f + (if q <? ALLOCSIZE then 512 * q else 0) <= top ->
  chunk_ok lo top (empty_chunk q f).
Proof.
  intros Hq Hm Hf Ht. split; try done; try (simpl; lia); [simpl; repeat constructor; lia|].
  unfold size_of, small. cbn [quantum ptr empty_chunk]. destruct (Z.ltb_spec q ALLOCSIZE); [|done].
  rewrite chunksize_exact; lia.
Qed.

(** The first block of a new chunk. *)
Definition first_block (q s f : Z) : chunkmap_t :=
  if q <? ALLOCSIZE then set_bit 0 (empty_chunk q f)
  else set_map (zset (map (empty_chunk q f)) 0 (roundup s)) (empty_chunk q f).
Definition length_of (q s : Z) : Z := if q <? ALLOCSIZE then q else roundup s.

Lemma first_block_ok lo top q s f :
  0 < q < 2 ^ 42 -> q mod 8 = 0 -> 0 < s <= 2 ^ 40 -> lo <= f -> f + extent q s <= top ->
  chunk_ok lo top (first_block q s f) /\ ptr (first_block q s f) = f
  /\ size_of (first_block q s f) = extent q s
  /\ forall b, live_in (first_block q s f) b <-> b = (f, length_of q s).
Proof.
  intros Hq Hm Hs Hf Ht. pose proof (roundup_spec s Hs) as (Hr & Hr0 & _).
  assert (HA : ALLOCSIZE = 2097152) by done.
  unfold first_block, extent, length_of in *. destruct (Z.ltb_spec q ALLOCSIZE) as [Hlt|Hge].
  - assert (Hc : chunk_ok lo top (empty_chunk q f))
      by (apply empty_ok; try done; by destruct (Z.ltb_spec q ALLOCSIZE); [|lia]).
    assert (Hsm : small (empty_chunk q f) = true) by (unfold small; simpl; lia).
    split; [by apply set_bit_ok|]. split; [done|].
    split; [unfold set_bit; rewrite size_same_small by done; by apply (size_small lo top)|].
    intros b. rewrite (live_set_bit lo top) by done. unfold block_of. cbn [ptr quantum empty_chunk].
    rewrite Z.mul_0_l, Z.add_0_r. split; [intros [?|Hin]; [done|]|by left].
    unfold live_in in Hin. rewrite Hsm in Hin. destruct Hin as (k & Hk & Hu & _). exfalso.
    unfold used, word in Hu. pose proof (bit_range k Hk) as [Hb _].
    destruct (zget (map (empty_chunk q f)) (Z.shiftr k 6)) as [w|] eqn:E; simpl in Hu; [|by rewrite Z.bits_0 in Hu].
    apply zget_In in E. cbn [map empty_chunk] in E. apply repeat_spec in E as ->. by rewrite Z.bits_0 in Hu.
  - assert (Hns : (q <? ALLOCSIZE) = false) by lia.
    split; [|split; [done|split]].
    + split; try done; try (simpl; lia); [constructor; [simpl; lia|repeat constructor; lia]|].
      unfold size_of, small. cbn [quantum set_map empty_chunk ptr]. rewrite Hns. done.
    + unfold size_of, small. cbn [quantum set_map empty_chunk ptr]. by rewrite Hns.
    + intros b. unfold live_in, small. cbn [quantum set_map empty_chunk ptr]. rewrite Hns.
      unfold word. cbn. naive_solver.
Qed.

Lemma fresh_new_chunk base top s q l r room :
  0 <= base -> base + 2 * ALLOCSIZE <= top <= 2 ^ 62 -> 0 < s <= 2 ^ 40 -> quantum_for s q ->
  gap_ok base s l -> scan_ok base top q room l r -> list_ok (base + 2 * ALLOCSIZE) top l ->
  let f := aligned q (place q s r) in
  list_fresh (base + 2 * ALLOCSIZE) (top + q + extent q s) l (l ++ [first_block q s f]) f (length_of q s)
  /\ base + 2 * ALLOCSIZE <= f < top + q.
Proof.
  intros Hb Ht Hs Hq Hg Hr Hl f. destruct (quantum_for_bound _ _ Hs Hq) as [Hqb Hqm].
  destruct (place_apart base top s q l r room) as (H1 & H2 & H3); try done. fold f in H1, H2, H3.
  destruct (first_block_ok (base + 2 * ALLOCSIZE) (top + q + extent q s) q s f) as (Hc & Hp & Hz & Hin);
    [lia|done|done|lia|lia|].
  split; [|done]. eapply fresh_chunk; [done| |done|done|].
  - pose proof (roundup_spec s Hs). unfold extent. destruct (q <? ALLOCSIZE); lia.
  - intros d Hd. unfold chunk_apart. rewrite Hp, Hz. by apply H3.
Qed.


(** *** The whole of an allocation *)

Lemma wp_first_map base top (Q : bool -> heap_t -> Prop) s :
  heap_ok base top s -> maps_ok s = [] ->
  (forall g, Q true (set_hlog g (set_numallocmaps 1 (set_arena (one (base + ARENASIZE) (chunks s)) s)))) ->
  wp (first_map base) Q s.
Proof.
  intros H Hm HQ. unfold first_map. destruct (hk_maps _ _ _ H) as [[Hn Ha]|[Hn [l Ha]]].
  - assert (Hl : zlen (arena s) <= 1 /\ chunks s = []).
    { unfold chunks. rewrite !elem_of_cons in Ha. destruct Ha as [->|[->|Ha]]; [done|done|by inversion Ha]. }
    destruct Hl as [Hl Hch]. rewrite Hch in HQ.
    apply wp_bind, wp_gets. rewrite Hn. cbn [Z.eqb]. apply wp_bind, wp_mmap; [done|]. intros g.
    cbn [negb]. wp_go. apply wp_arena_put; [done|]. apply wp_ret. cbn [numallocmaps set_hlog]. rewrite Hn. apply HQ.
  - apply wp_bind, wp_gets. rewrite Hn. cbn [Z.eqb]. apply wp_ret. specialize (HQ (hlog s)).
    unfold chunks in HQ. rewrite Ha in HQ. destruct s; simpl in *. by subst.
Qed.

(** Choosing a chunk and taking the block of it. *)
Lemma wp_choose_take {A} base top s q l r sparse x (K0 : M heap_t A) (K : Z -> Z -> Z -> option Z -> M heap_t A)
    (Q : A -> heap_t -> Prop) h :
  0 <= base -> base + 2 * ALLOCSIZE <= top <= 2 ^ 61 -> 0 < s <= 2 ^ 40 -> quantum_for s q ->
  gap_ok base s l -> scan_ok base top q 1 l r -> list_ok (base + 2 * ALLOCSIZE) top l ->
  arena h = one x l -> maps_ok h = [] ->
  (forall g l' p j c, 0 < p -> list_fresh (base + 2 * ALLOCSIZE) (top + q + extent q s) l l' p (length_of q s) ->
     zget l' j = Some c -> wp (K 1 1 j (Some p)) Q (set_hlog g (set_arena (one x l') h))) ->
  wp (n <-- choose_chunk base q q r 2 (place q s r) sparse ;;
      match n with
      | None => K0
      | Some (m, i, j, k, f) => b <-- take_block q i j k f s sparse ;; K m i j b
      end) Q h.
Proof.
  intros Hb Ht Hs Hq Hg Hr Hl Ha Hm HK. destruct (quantum_for_bound _ _ Hs Hq) as [Hqb Hqm].
  destruct (so_rest _ _ _ _ _ _ Hr) as (Ho & Hm1 & Hlp & Hfc). pose proof (so_ncm _ _ _ _ _ _ Hr) as Hn.
  assert (HA : ALLOCSIZE = 2097152) by done. pose proof (roundup_spec s Hs) as (_ & Hr0 & _).
  assert (Hext : 0 < extent q s) by (unfold extent; destruct (q <? ALLOCSIZE); lia).
  apply wp_bind. unfold choose_chunk. unfold chosen_ok in Hn. destruct (ncm r) as [[i j]|].
  - destruct Hn as (-> & c & Hj & Hqc & Hlt & Hk & Hu). apply wp_ret, wp_bind. rewrite Hm1.
    pose proof (list_ok_chunk _ _ _ _ _ Hl Hj) as Hc. pose proof (ck_lo _ _ _ Hc). pose proof (ck_hi _ _ _ Hc).
    assert (Hsm : small c = true) by (unfold small; rewrite Hqc; lia).
    pose proof (size_small _ _ _ Hc Hsm).
    eapply wp_take_small; [done..|lia|]. intros g. rewrite u64_small by nia.
    eapply HK; [nia| |by apply zget_zset_eq; eapply zget_Some_lt].
    unfold length_of. destruct (Z.ltb_spec q ALLOCSIZE); [|lia].
    assert (Hl' : list_ok (base + 2 * ALLOCSIZE) (top + q + extent q s) l) by (eapply list_ok_top; [|done]; lia).
    pose proof (fresh_in_chunk _ _ l j c (sh r) Hl' Hj Hsm Hk Hu) as Hfr. by rewrite Hqc in *.
  - destruct (fresh_new_chunk base top s q l r 1) as [Hf Hf0]; try done; [lia|].
    set (f := aligned q (place q s r)) in *.
    rewrite Hfc. cbn [Z.eqb]. apply wp_bind, wp_ret, wp_bind. eapply wp_new_chunk; [done..|].
    intros g. apply wp_ret, wp_bind. fold f.
    assert (Hz : zget (l ++ [empty_chunk q f]) (zlen l) = Some (empty_chunk q f))
      by (by rewrite zget_app_r, Z.sub_diag by lia).
    unfold first_block in Hf. destruct (Z.ltb_spec q ALLOCSIZE).
    + eapply (wp_take_small x); [reflexivity|done|exact Hz|done|lia|]. intros g'.
      cbn [ptr empty_chunk]. rewrite Z.mul_0_l, Z.add_0_r, u64_small, zset_snoc by lia.
      refine (HK g' _ f (zlen l) _ _ Hf _); [lia|]. by rewrite zget_app_r, Z.sub_diag by lia.
    + eapply (wp_take_large x); [reflexivity|done|exact Hz|lia|]. intros g'. rewrite zset_snoc.
      refine (HK g' _ f (zlen l) _ _ Hf _); [lia|]. by rewrite zget_app_r, Z.sub_diag by lia.
Qed.

(** C10: A plain request, of up to 2^40 bytes, without an old block and without an alignment
    above 8, is answered with a block that is large enough and apart from all live blocks;
    nothing else becomes live, none is lost, and the heap stays well formed.  The heap has
    at most one map, with room for a chunk, mapping memory succeeds, and the gap in front of the first
    chunk is not used for too long a chunk ([gap_ok]): the request is of at most a page or of
    more than 1M, or there is no chunk yet, or one right behind the map.  Without that, blocks overlap
    ([gap_chunk_overlaps]). *)
Theorem bzt_alloc_fresh base top h a s flag fuel :
  heap_ok base top h -> top <= 2 ^ 61 -> locked h = false -> maps_ok h = [] ->
  0 < s <= 2 ^ 40 -> 0 <= a <= 8 -> (64 <= fuel)%nat ->
  zlen (chunks h) < maxchunks -> gap_ok base s (chunks h) ->
  exists p n h', bzt_alloc fuel base a 0 s flag h = Ret p h'
    /\ 0 < p /\ s <= n
    /\ (forall b, Live h' b <-> b = (p, n) \/ Live h b)
    /\ (forall p' n', Live h (p', n') -> apart p' n' p n)
    /\ heap_same h h' /\ maps_ok h' = []
    /\ exists q, quantum_for s q /\ heap_ok base (top + q + extent q s) h'.
Proof.
  intros H Ht Hlk Hm Hs Hal Hfuel Hroom Hgap. pose proof (hk_list _ _ _ H) as Hl.
  pose proof (hk_base _ _ _ H). pose proof (hk_lo _ _ _ H). assert (HA : ALLOCSIZE = 2097152) by done.
  enough (wp (bzt_alloc fuel base a 0 s flag) (fun p h' => exists q l',
    (0 < p /\ quantum_for s q /\ list_fresh (base + 2 * ALLOCSIZE) (top + q + extent q s) (chunks h) l' p (length_of q s))
    /\ arena h' = one (base + ARENASIZE) l' /\ numallocmaps h' = 1 /\ maps_ok h' = [] /\ heap_same h h') h) as Hw.
  { apply wp_run in Hw as (p & h' & Hrun & q & l' & (Hp & Hq & Hok & Hlive & Hap) & Ha & Hn & Hm' & Hsame).
    destruct (quantum_for_bound _ _ Hs Hq) as [Hqb _]. pose proof (roundup_spec s Hs) as (Hr & _ & _).
    assert (Hch : chunks h' = l') by (unfold chunks; by rewrite Ha).
    assert (Hex : 0 <= extent q s <= 2 ^ 60 /\ s <= length_of q s).
    { destruct Hq as [Hsq _]. unfold extent, length_of. destruct (Z.ltb_spec q ALLOCSIZE); lia. }
    exists p, (length_of q s), h'. unfold Live. rewrite Hch. split_and!; try done; [lia|].
    exists q. split; [done|]. split; try done; try lia; [|by rewrite Hch].
    right. split; [done|]. by exists l'. }
  unfold bzt_alloc. destruct (Z.eqb_spec s 0); [lia|]. cbn zeta.
  apply wp_bind, wp_quantum_of; [done..|]. intros q Hq. destruct (quantum_for_bound _ _ Hs Hq) as [Hqb _].
  assert (Haq : (if a <? q then q else a) = q) by (destruct (Z.ltb_spec a q); lia). rewrite Haq.
  apply wp_bind, wp_lockacquire; [done|]. apply wp_bind.
  eapply (wp_first_map base top); [by destruct H|done|]. intros g. cbn [negb].
  apply wp_bind, wp_get. cbn [arena numallocmaps set_hlog set_numallocmaps set_arena].
  change (chunks (set_locked true h)) with (chunks h).
  destruct (scan_one base top q (chunks h)) as (r & Hscan & Hr); [done..|lia|lia|by apply Hl|].
  rewrite Hscan. replace (zlen (chunks h) <? maxchunks) with true in Hr by lia.
  destruct (so_rest _ _ _ _ _ _ Hr) as (Ho & _). cbn [Z.eqb negb andb]. rewrite andb_false_r. cbn [andb].
  eapply (wp_choose_take base top s q (chunks h)); try done; try lia.
  intros g' l' p j c Hp Hf Hj. rewrite Ho. unfold lockrelease. apply wp_bind, wp_bind.
  eapply (wp_chunk_at (base + ARENASIZE)); [reflexivity|done|].
  apply wp_when; intros _; [apply wp_emit; intros g2|]; apply wp_bind, wp_modify, wp_ret; exists q, l';
    (split; [done|]; split; [done|]; split_and!; try done; by split; [rewrite Hlk|]).
Qed.

(** ** Concrete heaps *)

Definition heap0 : heap_t := mk_heap 0 false [] [] 0 [].
Definition sample_chunk : chunkmap_t := mk_chunk 128 (DYN_ADDRESS + 2 * ALLOCSIZE) [5; 0; 0; 0; 0; 0; 0; 0].
Definition sample : heap_t := mk_heap 1 false (one (DYN_ADDRESS + ARENASIZE) [sample_chunk]) [] 0 [].

Lemma list_ok_nil lo top : list_ok lo top [].
Proof. split; [constructor|]. intros i j c d Hc. by apply zget_Some_lt in Hc; change (zlen (@nil chunkmap_t)) with 0 in Hc; lia. Qed.

Lemma sample_chunk_ok : chunk_ok (DYN_ADDRESS + 2 * ALLOCSIZE) (DYN_ADDRESS + 3 * ALLOCSIZE) sample_chunk.
Proof.
  split; [done|done|done| |done|by apply Z.leb_le].
  simpl. repeat constructor; lia.
Qed.

Lemma sample_ok : heap_ok DYN_ADDRESS (DYN_ADDRESS + 3 * ALLOCSIZE) sample.
Proof.
  split; [done|done|done|right; split; [done|by eexists]|].
  change (chunks sample) with ([] ++ [sample_chunk]).
  apply list_ok_snoc; [apply list_ok_nil|apply sample_chunk_ok|intros d Hd; inversion Hd].
Qed.

Lemma sample_live k : 0 <= k < 512 -> used sample_chunk k = true ->
  Live sample (DYN_ADDRESS + 2 * ALLOCSIZE + k * 128, 128).
Proof.
  intros Hk Hu. exists sample_chunk. split; [by constructor|]. unfold live_in. change (small sample_chunk) with true.
  by exists k.
Qed.

Lemma bzt_free_removes_witness :
  exists h', bzt_free (DYN_ADDRESS + 2 * ALLOCSIZE + 256) sample = Ret tt h'
    /\ heap_ok DYN_ADDRESS (DYN_ADDRESS + 3 * ALLOCSIZE) h' /\ heap_same sample h'
    /\ forall b, Live h' b <-> Live sample b /\ b <> (DYN_ADDRESS + 2 * ALLOCSIZE + 256, 128).
Proof.
  apply (bzt_free_removes DYN_ADDRESS (DYN_ADDRESS + 3 * ALLOCSIZE) sample _ 128);
    [apply sample_ok|reflexivity|apply (sample_live 2); [lia|reflexivity]|].
  repeat constructor.
Defined.

Lemma bzt_alloc_fresh_witness :
  exists p n h', bzt_alloc 64 DYN_ADDRESS 8 0 100 MAP_PRIVATE sample = Ret p h'
    /\ 0 < p /\ 100 <= n
    /\ (forall b, Live h' b <-> b = (p, n) \/ Live sample b)
    /\ (forall p' n', Live sample (p', n') -> apart p' n' p n)
    /\ heap_same sample h' /\ maps_ok h' = []
    /\ exists q, quantum_for 100 q /\ heap_ok DYN_ADDRESS (DYN_ADDRESS + 3 * ALLOCSIZE + q + extent q 100) h'.
Proof.
  apply (bzt_alloc_fresh DYN_ADDRESS (DYN_ADDRESS + 3 * ALLOCSIZE) sample 8 100 MAP_PRIVATE 64);
    [apply sample_ok|by vm_compute|reflexivity|reflexivity|lia|lia|lia|by vm_compute|].
  left. by vm_compute.
Defined.

(** ** What breaks the promises *)

Fixpoint mallocs (n : nat) (s : Z) : M heap_t (list Z) :=
  match n with
  | O => ret []
  | S n' => p <-- malloc 64 s ;; l <-- mallocs n' s ;; ret (p :: l)
  end.
Fixpoint frees (l : list Z) : M heap_t unit :=
  match l with [] => ret tt | p :: l' => free p ;;; frees l' end.

(** The gap in front of the chunks is used when it holds the bytes asked for, not the whole
    chunk: the 129th block of 16384 bytes lies over a live block. *)
Definition gap_run : M heap_t (Z * Z) :=
  a <-- malloc 64 8 ;; b <-- malloc 64 4096 ;; c <-- malloc 64 8192 ;; free a ;;; free b ;;;
  l <-- mallocs 129 16384 ;; ret (c, List.last l 0).
Theorem gap_chunk_overlaps :
  exists c p h, gap_run heap0 = Ret (c, p) h /\ Live h (c, 8192) /\ Live h (p, 16384) /\ p <= c < p + 16384.
Proof.
  eexists _, _, _. split; [vm_compute; reflexivity|]. split; [|split; [|done]].
  - eexists. split; [left|]. exists 0. by split.
  - eexists. split; [right; left|]. exists 128. by split.
Qed.

(** The words of a chunk are added up in 64 bits, and two words with the last block each
    add up to 0: the chunk of two live blocks is taken for an empty one. *)
Definition sum_run : M heap_t (Z * Z) :=
  l <-- mallocs 128 8 ;;
  frees (take 63 l ++ take 63 (drop 64 l)) ;;; ret (List.nth 63 l 0, List.nth 127 l 0).
Theorem empty_sum_loses_blocks :
  exists p p' h, sum_run heap0 = Ret (p, p') h /\ 0 < p < p' /\ arena h = [None].
Proof. eexists _, _, _. split; [vm_compute; reflexivity|]. by split. Qed.

(** A call that moves a block adds the words up in 32 bits: a chunk whose live blocks are all
    in the upper half of a word is taken for an empty one, and its blocks are lost. *)
Definition move_run : M heap_t (Z * Z) :=
  l <-- mallocs 40 8 ;;
  frees (take 31 l) ;;; p <-- realloc 64 (List.nth 31 l 0) 16 ;; ret (List.nth 32 l 0, p).
Theorem moving_loses_blocks :
  exists b p h, move_run heap0 = Ret (b, p) h /\ 0 < b /\ Forall (fun c => inside b c = false) (chunks h).
Proof. eexists _, _, _. split; [vm_compute; reflexivity|]. split; [done|]. by repeat constructor. Qed.

(** A block made smaller is copied in its old length, over the blocks behind the new one. *)
Definition shrink_run : M heap_t (Z * Z * Z) :=
  a <-- malloc 64 8 ;; b <-- malloc 64 8 ;; c <-- malloc 64 4096 ;; free a ;;;
  r <-- realloc 64 c 8 ;; ret (b, c, r).
Theorem shrinking_overwrites :
  exists b c r h, shrink_run heap0 = Ret (b, c, r) h /\ In (EvCopy r c 4096) (hlog h)
    /\ Live h (b, 8) /\ r < b < r + 4096.
Proof.
  eexists _, _, _, _. split; [vm_compute; reflexivity|]. split; [simpl; tauto|]. split; [|done].
  eexists. split; [left|]. exists 1. by split.
Qed.

(** A chunk whose memory could not be mapped stays, and its blocks are handed out. *)
Definition unmapped_run : M heap_t (Z * Z) := p <-- malloc 64 8 ;; p' <-- malloc 64 8 ;; ret (p, p').
Theorem unmapped_chunk_is_used :
  exists p' h, unmapped_run (set_maps_ok [true; false] heap0) = Ret (0, p') h /\ 0 < p'
    /\ forall a n, In (EvMap a n) (hlog h) -> apart a n p' 8.
Proof.
  eexists _, _. split; [vm_compute; reflexivity|]. split; [done|].
  intros a n Hin. simpl in Hin. unfold apart. destruct Hin as [[= <- <-]|[|[]]]; [lia|done].
Qed.

(** A large block is cleared in the length of its quantum, behind the memory mapped for it. *)
Theorem large_block_overruns :
  exists p h, malloc 64 4194305 heap0 = Ret p h
    /\ In (EvZero p 8388608) (hlog h)
    /\ forall a n, In (EvMap a n) (hlog h) -> a + n < p + 8388608.
Proof.
  eexists _, _. split; [vm_compute; reflexivity|]. split; [simpl; tauto|].
  intros a n Hin. simpl in Hin. destruct Hin as [[= <- <-]|[[= <- <-]|[|[]]]]; [lia|lia|done].
Qed.

(** A new chunk of small blocks is not placed at a multiple of the alignment. *)
Theorem new_chunk_misaligned :
  exists p h, (malloc 64 8 ;;; aligned_alloc 64 8192 8) heap0 = Ret p h /\ p mod 8192 = 4096.
Proof. eexists _, _. split; [vm_compute; reflexivity|]. done. Qed.

(** No quantum is found for more than 2^63 bytes: the shift ends at 0. *)
Theorem huge_request_never_ends s fuel base a old flag h :
  2 ^ 63 < s < 2 ^ 64 -> bzt_alloc fuel base a old s flag h = Loop.
Proof.
  intros Hs. unfold bzt_alloc. destruct (Z.eqb_spec s 0); [lia|]. cbn zeta. unfold bind at 1.
  replace (quantum_of fuel s h) with (@Loop heap_t Z); [done|]. symmetry.
  apply wlp_never, (wlp_iter (fun q _ => q = 0 \/ exists e, 3 <= e <= 63 /\ q = 2 ^ e)); [|by right; exists 3].
  intros q h' Hq. unfold wlp, ret.
  assert (q <= 2 ^ 63) by (destruct Hq as [->|(e & He & ->)]; [lia|apply Z.pow_le_mono_r; lia]).
  destruct (Z.ltb_spec q s); [|lia]. rewrite Z.shiftl_mul_pow2 by lia.
  destruct Hq as [->|(e & He & ->)]; [by left|].
  destruct (Z.eq_dec e 63) as [->|]; [by left|]. right. exists (e + 1). split; [lia|].
  rewrite Z.pow_add_r by lia. apply u64_small.
  assert (2 ^ e <= 2 ^ 62) by (apply Z.pow_le_mono_r; lia). lia.
Qed.

Lemma scan_large a q i j l r :
  ALLOCSIZE <= q ->
  ncm (scan_chunks a q 0 i j l r) = ncm r /\ fc (scan_chunks a q 0 i j l r) = fc r
  /\ ocm (scan_chunks a q 0 i j l r) = ocm r.
Proof.
  intros Hq. revert j r. induction l as [|c l IH]; intros j r; [done|]. simpl.
  destruct (IH (j + 1) (scan_chunk a q 0 i j c r)) as (-> & -> & ->).
  unfold scan_chunk. destruct (Z.ltb_spec q ALLOCSIZE); [lia|]. rewrite andb_false_r. cbn [andb negb Z.eqb].
  destruct ((sp r =? 0) || _); destruct (_ <? _); by simpl.
Qed.

(** A second map is never made: the index behind the maps is never below their number.
    With the first map full, a new chunk is refused for want of memory. *)
Theorem full_map_refuses h fuel base x l s flag :
  arena h = one x l -> numallocmaps h = 1 -> locked h = false -> zlen l = maxchunks ->
  2 ^ 20 < s <= 2 ^ 40 -> (64 <= fuel)%nat ->
  exists h', bzt_alloc fuel base 8 0 s flag h = Ret 0 h' /\ herrno h' = ENOMEM /\ chunks h' = chunks h.
Proof.
  intros Ha Hn Hlk Hfull Hs Hfuel.
  enough (wp (bzt_alloc fuel base 8 0 s flag) (fun p h' => p = 0 /\ herrno h' = ENOMEM /\ chunks h' = chunks h) h) as Hw
    by (apply wp_run in Hw as (p & h' & ? & -> & ?); by exists h').
  unfold bzt_alloc. destruct (Z.eqb_spec s 0); [lia|]. cbn zeta.
  apply wp_bind, wp_quantum_of; [lia|done|]. intros q Hq. set (a := if 8 <? q then q else 8).
  assert (HA : ALLOCSIZE <= q).
  { destruct Hq as (H1 & _ & e & He & ->). change ALLOCSIZE with (2 ^ 21). apply Z.pow_le_mono_r; [lia|].
    assert (20 < e); [|lia]. apply (Z.pow_lt_mono_r_iff 2); lia. }
  apply wp_bind, wp_lockacquire; [done|]. apply wp_bind. unfold first_map. apply wp_bind, wp_gets.
  cbn [numallocmaps set_locked]. rewrite Hn. cbn [Z.eqb]. apply wp_ret. cbn [negb]. apply wp_bind, wp_get.
  cbn [arena numallocmaps set_locked]. rewrite Ha, Hn.
  destruct (scan_maps a q 0 (one x l) 1 0 1 (scan_start base)) as [r i] eqn:E.
  cbn [scan_maps one] in E. change ((1 <? MAXARENA) && (0 <? 1)) with true in E.
  change ((1 + 1 <? MAXARENA) && (0 + 1 <? 1)) with false in E. cbv iota in E. injection E as <- <-.
  unfold scan_map. cbn [am_addr chunk]. rewrite Hfull, Z.ltb_irrefl, andb_false_r.
  match goal with |- context [scan_chunks a q 0 1 0 l ?r0] => set (r1 := r0) end.
  assert (Hr1 : ncm r1 = None /\ fc r1 = 0 /\ ocm r1 = None).
  { unfold r1. cbn [fp lp set_am scan_start]. by destruct (_ <? x + ALLOCSIZE), (_ || _). }
  clearbody r1. destruct Hr1 as (H1 & H2 & H3). destruct (scan_large a q 1 0 l r1 HA) as (E1 & E2 & E3).
  set (r := scan_chunks a q 0 1 0 l r1) in *. cbn [negb Z.eqb]. rewrite ?andb_false_r. cbn [andb].
  unfold choose_chunk. rewrite E1, H1, E2, H2. cbn [Z.eqb]. unfold new_map, nomem, seterr, lockrelease.
  do 3 apply wp_bind. apply wp_gets. cbn [numallocmaps set_locked]. rewrite Hn. wp_go; try done.
Qed.

Lemma full_map_refuses_witness :
  exists h', bzt_alloc 64 0 8 0 (2 ^ 21) 0
      (mk_heap 1 false (one 0 (List.repeat sample_chunk (Z.to_nat maxchunks))) [] 0 []) = Ret 0 h'
    /\ herrno h' = ENOMEM
    /\ chunks h' = chunks (mk_heap 1 false (one 0 (List.repeat sample_chunk (Z.to_nat maxchunks))) [] 0 []).
Proof.
  apply (full_map_refuses _ 64 0 0 (List.repeat sample_chunk (Z.to_nat maxchunks)));
    [reflexivity|reflexivity|reflexivity| |lia|lia].
  unfold zlen. rewrite repeat_length. apply Z2Nat.id. by apply Z.leb_le.
Defined.
End BztallocFacts.
