(* ===== verification/CoreLib.v ===== *)
(** The core's own library, src/core/libc.c: formatted text, a few string functions and
    the entropy pool. *)
From Stdlib Require Import ZArith Lia List.
From stdpp Require Import base option list gmap.
From S2P Require Import Prelude CoreState Pmm LibcString.

Module CoreLib.

(** ** Formatted text

    The variable arguments: integers, and strings that may be null. *)
Inductive va : Type :=
| VInt (n : Z)
| VStr (s : option (list Z)).

(** The text written by a call, [None] for undefined behaviour. *)
Definition text : Type := option (list Z).

(** "(null)" *)
Definition nullstr : list Z := [40; 110; 117; 108; 108; 41].

(** A buffer up to its first zero. *)
Fixpoint cstr (l : list Z) : list Z :=
  match l with [] => [] | c :: l' => if c =? 0 then [] else c :: cstr l' end.

(** The last [n] bytes. *)
Definition lastn (n : Z) (l : list Z) : list Z := drop (Z.to_nat (zlen l - n)) l.

Definition sprintf_putascii (cnt c : Z) : text :=
  let n := if (0 <? cnt) && (cnt <=? 8) then cnt else 8 in
  Some (cstr (take (Z.to_nat n) (LibcString.bytes_of 8 c))).

Definition DECMAX : Z := 99999999999999999.

(** [do { ... c/=10; } while(c!=0 && i>0);]: the buffer from [i] on. *)
Fixpoint dec_digits (i : nat) (c : Z) (acc : list Z) : nat * list Z :=
  match i with
  | O => (O, acc)
  | S i' => let acc := u8 (48 + Z.rem c 10) :: acc in
            if Z.quot c 10 =? 0 then (i', acc) else dec_digits i' (Z.quot c 10) acc
  end.

(** With a width, exactly that many characters from the end. *)
Definition sprintf_putdec (cnt c : Z) : text :=
  let s := s64 c <? 0 in
  let c := if s then s64 (- s64 c) else s64 c in
  let c := if DECMAX <? c then DECMAX else c in
  let '(i, l) := dec_digits 18 c [] in
  if s && (Z.of_nat i =? 0) then None else
  let l := if s then 45 :: l else l in
  Some (if (0 <? cnt) && (cnt <? 18) then lastn cnt (List.repeat 32 (Z.to_nat (cnt - zlen l)) ++ l) else l).

Definition hexdigit (n : Z) : Z := if n <? 10 then 48 + n else 65 + n - 10.
Fixpoint hex_digits (i : nat) (c : Z) (acc : list Z) : list Z :=
  match i with
  | O => acc
  | S i' => let acc := hexdigit (Z.land c 0xf) :: acc in
            if Z.shiftr c 4 =? 0 then acc else hex_digits i' (Z.shiftr c 4) acc
  end.

Definition sprintf_puthex (cnt c : Z) : text :=
  let l := hex_digits 16 (s64 c) [] in
  Some (if (0 <? cnt) && (cnt <=? 8) then lastn (cnt * 2) (List.repeat 48 (Z.to_nat (cnt * 2 - zlen l)) ++ l) else l).

(** The width in the format, 8 bits. *)
Fixpoint width (fmt : list Z) (cnt : Z) : Z * list Z :=
  match fmt with
  | c :: fmt' => if (48 <=? c) && (c <=? 57) then width fmt' (u8 (u8 (cnt * 10) + (c - 48))) else (cnt, fmt)
  | [] => (cnt, fmt)
  end.

(** One conversion behind the percent sign and the width: its text, the rest of the format
    and of the arguments. *)
Definition conversion (cnt : Z) (fmt : list Z) (args : list va) : option (list Z * list Z * list va) :=
  let c := default 0 (head fmt) in
  a ← (if c =? 115 then Some (0, args) else match args with VInt a :: args => Some (a, args) | _ => None end);
  let '(arg, args) := (a : Z * list va) in
  if c =? 99 then Some ([u8 arg], drop 1 fmt, args) else
  let fmt := if c =? 108 then drop 1 fmt else fmt in
  let c := default 0 (head fmt) in
  (* the terminator is stepped over when the format ends here *)
  if c =? 0 then None else
  let fmt := drop 1 fmt in
  if c =? 97 then t ← sprintf_putascii cnt arg; Some (t, fmt, args)
  else if c =? 100 then t ← sprintf_putdec cnt arg; Some (t, fmt, args)
  else if c =? 120 then t ← sprintf_puthex cnt arg; Some (t, fmt, args)
  else if c =? 115 then
    match args with
    | VStr p :: args =>
        let p := default nullstr p in
        Some (p ++ (if zlen p <? cnt then List.repeat 32 (Z.to_nat (cnt - zlen p)) else []), fmt, args)
    | _ => None
    end
  else Some ([], fmt, args).

(** [fuel] is more than the length of the format. *)
Fixpoint vsprintf_from (fuel : nat) (fmt : list Z) (args : list va) : text :=
  match fuel with
  | O => None
  | S fuel' =>
      match fmt with
      | [] => Some []
      | 37 :: 37 :: fmt => t ← vsprintf_from fuel' fmt args; Some (37 :: t)
      | 37 :: fmt =>
          let '(cnt, fmt) := width fmt 0 in
          x ← conversion cnt fmt args;
          let '(t, fmt, args) := (x : list Z * list Z * list va) in
          r ← vsprintf_from fuel' fmt args; Some (t ++ r)
      | c :: fmt => t ← vsprintf_from fuel' fmt args; Some (c :: t)
      end
  end.

(** The strings have no zero bytes; the answer is what is written before the terminator. *)
Definition vsprintf (fmt : list Z) (args : list va) : text := vsprintf_from (S (length fmt)) fmt args.
Definition sprintf (fmt : list Z) (args : list va) : text := vsprintf fmt args.

(** ** Entropy *)

Definition word (l : list Z) (i : Z) : Z := default 0 (zget l (Z.land i 3)).
Definition upd (i : Z) (f : Z -> Z) (l : list Z) : list Z := zset l (Z.land i 3) (f (word l i)).
Definition LCG : Z := 16807.

Definition kentropy (clock_ts clock_ns : Z) (r : list Z) : list Z :=
  let r := upd 3 (Z.lxor clock_ts) r in
  let r := upd (clock_ts + clock_ns) (fun x => u64 (x * LCG)) r in
  let r := upd (Z.shiftr (word r 0) 16) (fun x => u64 (x * LCG)) r in
  let r := upd (word r 0) (fun x => u64 (Z.shiftl x 1)) r in
  let r := upd (Z.shiftr (word r 0) 8) (fun x => Z.shiftr x 1) r in
  let r := upd (word r 1) (fun x => Z.lxor x (word r (word r 2))) r in
  let r := upd (word r 3) (fun x => u64 (x * LCG)) r in
  let r := upd 0 (fun x => Z.lxor x (word r 1)) r in
  let r := upd 1 (fun x => Z.lxor x (word r 2)) r in
  let r := upd 2 (fun x => Z.lxor x (word r 3)) r in
  upd 3 (fun x => Z.lxor x (word r 0)) r.

(** What the page allocator is given. *)
#[export] Instance core_entropy (clock_ts clock_ns : Z) : Pmm.Entropy | 10 := kentropy clock_ts clock_ns.

(** ** Strings *)

(** [memcmp] on ranges of the same length; its answer is 0 for a null pointer. *)
Fixpoint memcmp (a b : list Z) : Z :=
  match a, b with
  | x :: a', y :: b' => if x =? y then memcmp a' b' else x - y
  | _, _ => 0
  end.

(** The characters of a UTF-8 string; [None] when it runs over the terminator. *)
Fixpoint mbstrlen_from (fuel : nat) (s : list Z) : option Z :=
  match fuel with
  | O => None
  | S fuel' =>
      match s with
      | [] => Some 0
      | c :: _ =>
          let n := 1 + (if Z.land c 128 =? 0 then 0 else if Z.land c 32 =? 0 then 1
                        else if Z.land c 16 =? 0 then 2 else if Z.land c 8 =? 0 then 3 else 0) in
          if zlen s <? n then None else k ← mbstrlen_from fuel' (drop (Z.to_nat n) s); Some (1 + k)
      end
  end.
Definition mbstrlen (s : option (list Z)) : option Z :=
  match s with None => Some 0 | Some s => mbstrlen_from (S (length s)) s end.

Definition strlen (s : option (list Z)) : Z := match s with None => 0 | Some s => zlen s end.

(** [strncpy]: the bytes copied, a terminator follows them; nothing for [n] 0. *)
Definition strncpy (src : list Z) (n : Z) : option (list Z) :=
  if n =? 0 then None else Some (take (Z.to_nat n) src).

End CoreLib.
