(* ===== verification/FsState.v ===== *)
(** The state of the FS task, src/fs: file control blocks, pipes, open files of the
    tasks, mounts, devices and the block cache, and the environment the code runs in. *)
From Stdlib Require Import ZArith Lia List.
From stdpp Require Import base option list gmap.
From S2P Require Import Prelude CoreState.

Module FsState.

(** ** Constants *)

(** src/fs/fcb.h *)
Definition FCB_TYPE_REG_FILE : Z := 0.
Definition FCB_TYPE_REG_DIR : Z := 1.
Definition FCB_TYPE_DEVICE : Z := 2.
Definition FCB_TYPE_PIPE : Z := 3.
Definition FCB_TYPE_SOCKET : Z := 4.
Definition FCB_TYPE_UNION : Z := 5.
Definition FCB_FLAG_EXCL : Z := 1.

(** include/osZ/stdio.h, src/fs/taskctx.h *)
Definition O_READ : Z := 1.
Definition O_WRITE : Z := 2.
Definition O_EXCL : Z := 4.
Definition O_APPEND : Z := 8.
Definition O_CREAT : Z := 16.
Definition O_TMPFILE : Z := 256.
Definition O_FIFO : Z := 512.
Definition O_AMSK : Z := 15.
Definition O_RDONLY : Z := 1.
Definition O_WRONLY : Z := 2.
Definition O_RDWR : Z := 3.
Definition OF_MODE_TTY : Z := 16384.
Definition OF_MODE_READDIR : Z := 32768.
Definition SEEK_SET : Z := 0.
Definition SEEK_CUR : Z := 1.
Definition SEEK_END : Z := 2.

(** src/fs/vfs.h, src/fs/devfs.h *)
Definition ROOTFCB : Z := 0.
Definition DEVFCB : Z := 1.
Definition MEMFS_MAJOR : Z := 0.
Definition MEMFS_ZERO : Z := 0.
Definition MEMFS_RAMDISK : Z := 1.
Definition MEMFS_RANDOM : Z := 2.
Definition MEMFS_NULL : Z := 3.

(** include/osZ/types.h: file types in [st_mode] *)
Definition S_IFLNK : Z := 0x01000000.
Definition S_IFUNI : Z := 0x02000000.
Definition S_IFCHR : Z := 0x03000000.
Definition S_IFMT : Z := 0xFF0000.
Definition S_IFDIR : Z := 0x010000.
Definition S_IFDEV : Z := 0x020000.
Definition S_IFIFO : Z := 0x030000.
Definition S_IFTTY : Z := 0x080000.
Definition S_IMODE : Z := 0xFFF.
Definition BUFSIZ : Z := 65536.

(** [(uint16_t)-1] *)
Definition m1U16 : Z := 65535.

(** ** Data

    C strings are lists of their bytes without the terminator, null pointers are
    [None]; 16 byte identifiers are lists. *)

(** A pending write, [writebuf_t]; the chain of a file is a list. *)
Record writebuf_t : Type := mk_wb {
  wb_offs : Z; (* 64 bits *)
  wb_size : Z; (* 64 bits *)
  wb_data : option (list Z); (* None for a null pointer *)
}.
#[export] Instance eta_writebuf_t : Eta writebuf_t :=
  fun s => mk_wb (wb_offs s) (wb_size s) (wb_data s).
Definition set_wb_offs (v : Z) (s : writebuf_t) : writebuf_t := s <| wb_offs := v |>.
Definition set_wb_size (v : Z) (s : writebuf_t) : writebuf_t := s <| wb_size := v |>.
Definition set_wb_data (v : option (list Z)) (s : writebuf_t) : writebuf_t := s <| wb_data := v |>.

(** A file control block [fcb_t]; the members of its union are kept side by side. *)
Record fcb_t : Type := mk_fcb {
  abspath : option (list Z); (* None for a free slot *)
  nopen : Z;
  ftype : Z; (* the field [type] *)
  fflags : Z; (* the field [flags] *)
  ffs : Z; (* the field [fs], 16 bits *)
  fmode : Z; (* the field [mode] *)
  storage : Z; (* [data.reg.storage]; also [data.pipe.idx], which shares its place *)
  inode : Z;
  filesize : Z;
  blksize : Z; (* 32 bits *)
  buf : list writebuf_t;
  ver : Z;
  unionlist : option (list Z); (* [data.uni.unionlist] *)
}.
#[export] Instance eta_fcb_t : Eta fcb_t :=
  fun s => mk_fcb (abspath s) (nopen s) (ftype s) (fflags s) (ffs s) (fmode s) (storage s) (inode s) (filesize s) (blksize s) (buf s) (ver s) (unionlist s).
Definition set_abspath (v : option (list Z)) (s : fcb_t) : fcb_t := s <| abspath := v |>.
Definition set_nopen (v : Z) (s : fcb_t) : fcb_t := s <| nopen := v |>.
Definition set_ftype (v : Z) (s : fcb_t) : fcb_t := s <| ftype := v |>.
Definition set_fflags (v : Z) (s : fcb_t) : fcb_t := s <| fflags := v |>.
Definition set_ffs (v : Z) (s : fcb_t) : fcb_t := s <| ffs := v |>.
Definition set_fmode (v : Z) (s : fcb_t) : fcb_t := s <| fmode := v |>.
Definition set_storage (v : Z) (s : fcb_t) : fcb_t := s <| storage := v |>.
Definition set_inode (v : Z) (s : fcb_t) : fcb_t := s <| inode := v |>.
Definition set_filesize (v : Z) (s : fcb_t) : fcb_t := s <| filesize := v |>.
Definition set_blksize (v : Z) (s : fcb_t) : fcb_t := s <| blksize := v |>.
Definition set_buf (v : list writebuf_t) (s : fcb_t) : fcb_t := s <| buf := v |>.
Definition set_ver (v : Z) (s : fcb_t) : fcb_t := s <| ver := v |>.
Definition set_unionlist (v : option (list Z)) (s : fcb_t) : fcb_t := s <| unionlist := v |>.

(** Memory handed out by the allocator is zero. *)
Definition zero_fcb : fcb_t := mk_fcb None 0 0 0 0 0 0 0 0 0 [] 0 None.

(** A pipe, [pipe_t]. *)
Record pipe_t : Type := mk_pipe {
  p_reader : Z; (* pid, 0 when not locked *)
  p_fid : Z;
  p_nopen : Z;
  p_rd : Z;
  p_size : Z;
  p_data : option (list Z);
  p_owner : list Z;
  p_rdtime : Z;
  p_wrtime : Z;
}.
#[export] Instance eta_pipe_t : Eta pipe_t :=
  fun s => mk_pipe (p_reader s) (p_fid s) (p_nopen s) (p_rd s) (p_size s) (p_data s) (p_owner s) (p_rdtime s) (p_wrtime s).
Definition set_p_reader (v : Z) (s : pipe_t) : pipe_t := s <| p_reader := v |>.
Definition set_p_fid (v : Z) (s : pipe_t) : pipe_t := s <| p_fid := v |>.
Definition set_p_nopen (v : Z) (s : pipe_t) : pipe_t := s <| p_nopen := v |>.
Definition set_p_rd (v : Z) (s : pipe_t) : pipe_t := s <| p_rd := v |>.
Definition set_p_size (v : Z) (s : pipe_t) : pipe_t := s <| p_size := v |>.
Definition set_p_data (v : option (list Z)) (s : pipe_t) : pipe_t := s <| p_data := v |>.
Definition set_p_owner (v : list Z) (s : pipe_t) : pipe_t := s <| p_owner := v |>.
Definition set_p_rdtime (v : Z) (s : pipe_t) : pipe_t := s <| p_rdtime := v |>.
Definition set_p_wrtime (v : Z) (s : pipe_t) : pipe_t := s <| p_wrtime := v |>.

Definition zero_pipe : pipe_t := mk_pipe 0 0 0 0 0 None (List.repeat 0 16) 0 0.

(** An open file of a task, [openfiles_t]. *)
Record openfile_t : Type := mk_of {
  of_fid : Z;
  of_mode : Z;
  of_offs : Z;
  of_unionidx : Z;
}.
#[export] Instance eta_openfile_t : Eta openfile_t :=
  fun s => mk_of (of_fid s) (of_mode s) (of_offs s) (of_unionidx s).
Definition set_of_fid (v : Z) (s : openfile_t) : openfile_t := s <| of_fid := v |>.
Definition set_of_mode (v : Z) (s : openfile_t) : openfile_t := s <| of_mode := v |>.
Definition set_of_offs (v : Z) (s : openfile_t) : openfile_t := s <| of_offs := v |>.
Definition set_of_unionidx (v : Z) (s : openfile_t) : openfile_t := s <| of_unionidx := v |>.

Definition zero_of : openfile_t := mk_of 0 0 0 0.

(** A message, [msg_t] of include/osZ/types.h; both members of its union have the same six words. *)
Record msg_t : Type := mk_msg {
  m_evt : Z; (* sender, function and flags *)
  m_arg0 : Z; (* also the address of the buffer *)
  m_arg1 : Z; (* also its size *)
  m_arg2 : Z; (* also [type] *)
  m_arg3 : Z; (* also [attr0] *)
  m_arg4 : Z; (* also [attr1] *)
  m_arg5 : Z; (* also [attr2] *)
  m_serial : Z;
  m_buf : list Z; (* the bytes mapped along with the message *)
}.
#[export] Instance eta_msg_t : Eta msg_t :=
  fun s => mk_msg (m_evt s) (m_arg0 s) (m_arg1 s) (m_arg2 s) (m_arg3 s) (m_arg4 s) (m_arg5 s) (m_serial s) (m_buf s).
Definition set_m_evt (v : Z) (s : msg_t) : msg_t := s <| m_evt := v |>.
Definition set_m_arg0 (v : Z) (s : msg_t) : msg_t := s <| m_arg0 := v |>.
Definition set_m_arg1 (v : Z) (s : msg_t) : msg_t := s <| m_arg1 := v |>.
Definition set_m_arg2 (v : Z) (s : msg_t) : msg_t := s <| m_arg2 := v |>.
Definition set_m_arg3 (v : Z) (s : msg_t) : msg_t := s <| m_arg3 := v |>.
Definition set_m_arg4 (v : Z) (s : msg_t) : msg_t := s <| m_arg4 := v |>.
Definition set_m_arg5 (v : Z) (s : msg_t) : msg_t := s <| m_arg5 := v |>.
Definition set_m_serial (v : Z) (s : msg_t) : msg_t := s <| m_serial := v |>.
Definition set_m_buf (v : list Z) (s : msg_t) : msg_t := s <| m_buf := v |>.

Definition zero_msg : msg_t := mk_msg 0 0 0 0 0 0 0 0 [].

(** The context of a task, [taskctx_t]. *)
Record taskctx_t : Type := mk_ctx {
  t_pid : Z;
  rootdir : Z;
  workdir : Z;
  workoffs : Z;
  workleft : Z;
  nopenfiles : Z;
  nfiles : Z;
  openfiles : option (list openfile_t);
  t_msg : msg_t; (* the suspended message *)
  t_next : Z; (* address, 0 for none *)
}.
#[export] Instance eta_taskctx_t : Eta taskctx_t :=
  fun s => mk_ctx (t_pid s) (rootdir s) (workdir s) (workoffs s) (workleft s) (nopenfiles s) (nfiles s) (openfiles s) (t_msg s) (t_next s).
Definition set_t_pid (v : Z) (s : taskctx_t) : taskctx_t := s <| t_pid := v |>.
Definition set_rootdir (v : Z) (s : taskctx_t) : taskctx_t := s <| rootdir := v |>.
Definition set_workdir (v : Z) (s : taskctx_t) : taskctx_t := s <| workdir := v |>.
Definition set_workoffs (v : Z) (s : taskctx_t) : taskctx_t := s <| workoffs := v |>.
Definition set_workleft (v : Z) (s : taskctx_t) : taskctx_t := s <| workleft := v |>.
Definition set_nopenfiles (v : Z) (s : taskctx_t) : taskctx_t := s <| nopenfiles := v |>.
Definition set_nfiles (v : Z) (s : taskctx_t) : taskctx_t := s <| nfiles := v |>.
Definition set_openfiles (v : option (list openfile_t)) (s : taskctx_t) : taskctx_t := s <| openfiles := v |>.
Definition set_t_msg (v : msg_t) (s : taskctx_t) : taskctx_t := s <| t_msg := v |>.
Definition set_t_next (v : Z) (s : taskctx_t) : taskctx_t := s <| t_next := v |>.

Definition zero_ctx : taskctx_t := mk_ctx 0 0 0 0 0 0 0 None zero_msg 0.

(** The parts of the suspended message that the pipes look at. *)
Definition msg_evt (t : taskctx_t) : Z := m_evt (t_msg t).
Definition msg_ptr (t : taskctx_t) : Z := m_arg0 (t_msg t).
Definition msg_size (t : taskctx_t) : Z := m_arg1 (t_msg t).
Definition msg_serial (t : taskctx_t) : Z := m_serial (t_msg t).
Definition set_msg_evt (v : Z) (t : taskctx_t) : taskctx_t := set_t_msg (set_m_evt v (t_msg t)) t.

(** A mount, [mtab_t]. *)
Record mtab_t : Type := mk_mtab {
  mountpoint : Z; (* fcb index *)
  m_storage : Z; (* fcb index *)
  fstype : Z;
}.
#[export] Instance eta_mtab_t : Eta mtab_t :=
  fun s => mk_mtab (mountpoint s) (m_storage s) (fstype s).
Definition set_mountpoint (v : Z) (s : mtab_t) : mtab_t := s <| mountpoint := v |>.
Definition set_m_storage (v : Z) (s : mtab_t) : mtab_t := s <| m_storage := v |>.
Definition set_fstype (v : Z) (s : mtab_t) : mtab_t := s <| fstype := v |>.

Definition zero_mtab : mtab_t := mk_mtab 0 0 0.

(** A device, [devfs_t]. *)
Record devfs_t : Type := mk_dev {
  d_fid : Z;
  drivertask : Z;
  device : Z;
  recent : Z;
  d_total : Z;
  d_out : Z;
}.
#[export] Instance eta_devfs_t : Eta devfs_t :=
  fun s => mk_dev (d_fid s) (drivertask s) (device s) (recent s) (d_total s) (d_out s).
Definition set_d_fid (v : Z) (s : devfs_t) : devfs_t := s <| d_fid := v |>.
Definition set_drivertask (v : Z) (s : devfs_t) : devfs_t := s <| drivertask := v |>.
Definition set_device (v : Z) (s : devfs_t) : devfs_t := s <| device := v |>.
Definition set_recent (v : Z) (s : devfs_t) : devfs_t := s <| recent := v |>.
Definition set_d_total (v : Z) (s : devfs_t) : devfs_t := s <| d_total := v |>.
Definition set_d_out (v : Z) (s : devfs_t) : devfs_t := s <| d_out := v |>.

Definition zero_dev : devfs_t := mk_dev 0 0 0 0 0 0.

(** A cached block, [cache_t]. *)
Record cache_t : Type := mk_cache {
  c_fd : Z; (* device in the low 60 bits, priority in the high 4 *)
  c_lsn : Z;
  c_blk : list Z;
  c_next : Z; (* address, 0 for none *)
}.
#[export] Instance eta_cache_t : Eta cache_t :=
  fun s => mk_cache (c_fd s) (c_lsn s) (c_blk s) (c_next s).
Definition set_c_fd (v : Z) (s : cache_t) : cache_t := s <| c_fd := v |>.
Definition set_c_lsn (v : Z) (s : cache_t) : cache_t := s <| c_lsn := v |>.
Definition set_c_blk (v : list Z) (s : cache_t) : cache_t := s <| c_blk := v |>.
Definition set_c_next (v : Z) (s : cache_t) : cache_t := s <| c_next := v |>.

(** A file system driver, [fsdrv_t]: which of its functions are there. *)
Record fsdrv_t : Type := mk_fsdrv {
  fs_name : list Z;
  has_detect : bool;
  has_locate : bool;
  has_resizefs : bool;
  has_checkfs : bool;
  has_stat : bool;
  has_getdirent : bool;
  has_read : bool;
  has_writetrb : bool;
  has_write : bool;
  has_writetre : bool;
}.
#[export] Instance eta_fsdrv_t : Eta fsdrv_t :=
  fun s => mk_fsdrv (fs_name s) (has_detect s) (has_locate s) (has_resizefs s) (has_checkfs s) (has_stat s) (has_getdirent s) (has_read s) (has_writetrb s) (has_write s) (has_writetre s).
Definition set_fs_name (v : list Z) (s : fsdrv_t) : fsdrv_t := s <| fs_name := v |>.
Definition set_has_detect (v : bool) (s : fsdrv_t) : fsdrv_t := s <| has_detect := v |>.
Definition set_has_locate (v : bool) (s : fsdrv_t) : fsdrv_t := s <| has_locate := v |>.
Definition set_has_resizefs (v : bool) (s : fsdrv_t) : fsdrv_t := s <| has_resizefs := v |>.
Definition set_has_checkfs (v : bool) (s : fsdrv_t) : fsdrv_t := s <| has_checkfs := v |>.
Definition set_has_stat (v : bool) (s : fsdrv_t) : fsdrv_t := s <| has_stat := v |>.
Definition set_has_getdirent (v : bool) (s : fsdrv_t) : fsdrv_t := s <| has_getdirent := v |>.
Definition set_has_read (v : bool) (s : fsdrv_t) : fsdrv_t := s <| has_read := v |>.
Definition set_has_writetrb (v : bool) (s : fsdrv_t) : fsdrv_t := s <| has_writetrb := v |>.
Definition set_has_write (v : bool) (s : fsdrv_t) : fsdrv_t := s <| has_write := v |>.
Definition set_has_writetre (v : bool) (s : fsdrv_t) : fsdrv_t := s <| has_writetre := v |>.

(** The file status, [stat_t] of include/osZ/types.h. *)
Record stat_t : Type := mk_stat {
  st_dev : Z;
  st_ino : Z;
  st_mode : Z; (* 32 bits *)
  st_type : list Z;
  st_mime : list Z;
  st_nlink : Z;
  st_owner : list Z;
  st_size : Z;
  st_blksize : Z;
  st_blocks : Z;
  st_atime : Z;
  st_mtime : Z;
  st_ctime : Z;
}.
#[export] Instance eta_stat_t : Eta stat_t :=
  fun s => mk_stat (st_dev s) (st_ino s) (st_mode s) (st_type s) (st_mime s) (st_nlink s) (st_owner s) (st_size s) (st_blksize s) (st_blocks s) (st_atime s) (st_mtime s) (st_ctime s).
Definition set_st_dev (v : Z) (s : stat_t) : stat_t := s <| st_dev := v |>.
Definition set_st_ino (v : Z) (s : stat_t) : stat_t := s <| st_ino := v |>.
Definition set_st_mode (v : Z) (s : stat_t) : stat_t := s <| st_mode := v |>.
Definition set_st_type (v : list Z) (s : stat_t) : stat_t := s <| st_type := v |>.
Definition set_st_mime (v : list Z) (s : stat_t) : stat_t := s <| st_mime := v |>.
Definition set_st_nlink (v : Z) (s : stat_t) : stat_t := s <| st_nlink := v |>.
Definition set_st_owner (v : list Z) (s : stat_t) : stat_t := s <| st_owner := v |>.
Definition set_st_size (v : Z) (s : stat_t) : stat_t := s <| st_size := v |>.
Definition set_st_blksize (v : Z) (s : stat_t) : stat_t := s <| st_blksize := v |>.
Definition set_st_blocks (v : Z) (s : stat_t) : stat_t := s <| st_blocks := v |>.
Definition set_st_atime (v : Z) (s : stat_t) : stat_t := s <| st_atime := v |>.
Definition set_st_mtime (v : Z) (s : stat_t) : stat_t := s <| st_mtime := v |>.
Definition set_st_ctime (v : Z) (s : stat_t) : stat_t := s <| st_ctime := v |>.

Definition zero_stat : stat_t := mk_stat 0 0 0 (List.repeat 0 4) (List.repeat 0 44) 0 (List.repeat 0 16) 0 0 0 0 0 0.

(** A directory entry, [dirent_t] of include/osZ/types.h. *)
Record dirent_t : Type := mk_dirent {
  d_dev : Z;
  d_ino : Z;
  d_icon : list Z; (* 8 bytes *)
  d_filesize : Z;
  d_type : Z;
  d_len : Z;
  d_name : list Z;
}.
#[export] Instance eta_dirent_t : Eta dirent_t :=
  fun s => mk_dirent (d_dev s) (d_ino s) (d_icon s) (d_filesize s) (d_type s) (d_len s) (d_name s).
Definition set_d_dev (v : Z) (s : dirent_t) : dirent_t := s <| d_dev := v |>.
Definition set_d_ino (v : Z) (s : dirent_t) : dirent_t := s <| d_ino := v |>.
Definition set_d_icon (v : list Z) (s : dirent_t) : dirent_t := s <| d_icon := v |>.
Definition set_d_filesize (v : Z) (s : dirent_t) : dirent_t := s <| d_filesize := v |>.
Definition set_d_type (v : Z) (s : dirent_t) : dirent_t := s <| d_type := v |>.
Definition set_d_len (v : Z) (s : dirent_t) : dirent_t := s <| d_len := v |>.
Definition set_d_name (v : list Z) (s : dirent_t) : dirent_t := s <| d_name := v |>.

(** What [locate] of a driver leaves in [locate_t]. *)
Record locate_t : Type := mk_loc {
  l_inode : Z;
  l_filesize : Z;
  l_fileblk : list Z; (* the bytes of the block it points to *)
  l_adv : Z; (* how far the path was followed, in bytes *)
  l_type : Z;
  l_path : list Z; (* the buffer of the path, which may be changed *)
}.
#[export] Instance eta_locate_t : Eta locate_t :=
  fun s => mk_loc (l_inode s) (l_filesize s) (l_fileblk s) (l_adv s) (l_type s) (l_path s).
Definition set_l_inode (v : Z) (s : locate_t) : locate_t := s <| l_inode := v |>.
Definition set_l_filesize (v : Z) (s : locate_t) : locate_t := s <| l_filesize := v |>.
Definition set_l_fileblk (v : list Z) (s : locate_t) : locate_t := s <| l_fileblk := v |>.
Definition set_l_adv (v : Z) (s : locate_t) : locate_t := s <| l_adv := v |>.
Definition set_l_type (v : Z) (s : locate_t) : locate_t := s <| l_type := v |>.
Definition set_l_path (v : list Z) (s : locate_t) : locate_t := s <| l_path := v |>.

Definition zero_loc : locate_t := mk_loc 0 0 [] 0 0 [].

Definition zero_dirent : dirent_t := mk_dirent 0 0 (List.repeat 0 8) 0 0 0 [].

(** What the FS task sends: messages, with their destination, event and arguments, and
    bytes copied to a task's buffer or to shared memory. *)
Inductive fs_event : Type :=
| EvSend (dest evt : Z) (args : list Z)
| EvSendBuf (dest evt : Z) (data : list Z) (args : list Z) (* a buffer goes along *)
| EvCopy (pid : Z) (ptr : Z) (data : list Z)
| EvStat (pid : Z) (ptr : Z) (st : stat_t)
| EvDirent (pid : Z) (ptr : Z) (d : dirent_t).

(** The globals of the FS task. *)
Record fs_state : Type := mk_fs {
  nfcb : Z;
  fcb : list fcb_t;
  npipe : Z;
  pipe : list pipe_t;
  nfsdrv : Z;
  fsdrv : list fsdrv_t;
  devfsidx : Z; (* 16 bits *)
  nmtab : Z;
  mtab : list mtab_t;
  rootmounted : bool;
  ndev : Z;
  dev : list devfs_t;
  dev_recent : Z;
  devidx : list Z;
  cachelines : Z;
  cache : list Z; (* heads, addresses *)
  cnodes : gmap Z cache_t; (* cached blocks by address *)
  cache_inflush : Z;
  taskctx : list Z; (* 256 heads, addresses *)
  ctxs : gmap Z taskctx_t; (* contexts by address *)
  ntaskctx : Z;
  ctx : Z; (* address of the current context *)
  fsck_dev : Z;
  fsck_step : Z;
  fsck_fix : bool;
  fsck_fs : Z;
  st : stat_t;
  dirent : dirent_t;
  lastlink : option (list Z);
  pathmax : Z;
  pathstack : list (Z * Z); (* 64 entries: inode, and place in the buffer of the path *)
  pathstackidx : Z;
  ramdisk : list Z; (* the initial ram disk, at BUF_ADDRESS *)
  ackdelayed : bool;
  nomem : bool;
  cachelimit : Z; (* percent of free memory *)
  fstab : option (list Z); (* the text of /etc/fstab *)
  lastsec : Z; (* of the FS/Z driver: the block read last *)
  errn : Z; (* what errno() returns *)
  allocs : list bool; (* outcomes of the next allocations, true for success; all succeed once the list is used up *)
  fresh : Z; (* next free address *)
  events : list fs_event;
}.
#[export] Instance eta_fs_state : Eta fs_state :=
  fun s => mk_fs (nfcb s) (fcb s) (npipe s) (pipe s) (nfsdrv s) (fsdrv s) (devfsidx s) (nmtab s) (mtab s) (rootmounted s) (ndev s) (dev s) (dev_recent s) (devidx s) (cachelines s) (cache s) (cnodes s) (cache_inflush s) (taskctx s) (ctxs s) (ntaskctx s) (ctx s) (fsck_dev s) (fsck_step s) (fsck_fix s) (fsck_fs s) (st s) (dirent s) (lastlink s) (pathmax s) (pathstack s) (pathstackidx s) (ramdisk s) (ackdelayed s) (nomem s) (cachelimit s) (fstab s) (lastsec s) (errn s) (allocs s) (fresh s) (events s).
Definition set_nfcb (v : Z) (s : fs_state) : fs_state := s <| nfcb := v |>.
Definition set_fcb (v : list fcb_t) (s : fs_state) : fs_state := s <| fcb := v |>.
Definition set_npipe (v : Z) (s : fs_state) : fs_state := s <| npipe := v |>.
Definition set_pipe (v : list pipe_t) (s : fs_state) : fs_state := s <| pipe := v |>.
Definition set_nfsdrv (v : Z) (s : fs_state) : fs_state := s <| nfsdrv := v |>.
Definition set_fsdrv (v : list fsdrv_t) (s : fs_state) : fs_state := s <| fsdrv := v |>.
Definition set_devfsidx (v : Z) (s : fs_state) : fs_state := s <| devfsidx := v |>.
Definition set_nmtab (v : Z) (s : fs_state) : fs_state := s <| nmtab := v |>.
Definition set_mtab (v : list mtab_t) (s : fs_state) : fs_state := s <| mtab := v |>.
Definition set_rootmounted (v : bool) (s : fs_state) : fs_state := s <| rootmounted := v |>.
Definition set_ndev (v : Z) (s : fs_state) : fs_state := s <| ndev := v |>.
Definition set_dev (v : list devfs_t) (s : fs_state) : fs_state := s <| dev := v |>.
Definition set_dev_recent (v : Z) (s : fs_state) : fs_state := s <| dev_recent := v |>.
Definition set_devidx (v : list Z) (s : fs_state) : fs_state := s <| devidx := v |>.
Definition set_cachelines (v : Z) (s : fs_state) : fs_state := s <| cachelines := v |>.
Definition set_cache (v : list Z) (s : fs_state) : fs_state := s <| cache := v |>.
Definition set_cnodes (v : gmap Z cache_t) (s : fs_state) : fs_state := s <| cnodes := v |>.
Definition set_cache_inflush (v : Z) (s : fs_state) : fs_state := s <| cache_inflush := v |>.
Definition set_taskctx (v : list Z) (s : fs_state) : fs_state := s <| taskctx := v |>.
Definition set_ctxs (v : gmap Z taskctx_t) (s : fs_state) : fs_state := s <| ctxs := v |>.
Definition set_ntaskctx (v : Z) (s : fs_state) : fs_state := s <| ntaskctx := v |>.
Definition set_ctx (v : Z) (s : fs_state) : fs_state := s <| ctx := v |>.
Definition set_fsck_dev (v : Z) (s : fs_state) : fs_state := s <| fsck_dev := v |>.
Definition set_fsck_step (v : Z) (s : fs_state) : fs_state := s <| fsck_step := v |>.
Definition set_fsck_fix (v : bool) (s : fs_state) : fs_state := s <| fsck_fix := v |>.
Definition set_fsck_fs (v : Z) (s : fs_state) : fs_state := s <| fsck_fs := v |>.
Definition set_st (v : stat_t) (s : fs_state) : fs_state := s <| st := v |>.
Definition set_dirent (v : dirent_t) (s : fs_state) : fs_state := s <| dirent := v |>.
Definition set_lastlink (v : option (list Z)) (s : fs_state) : fs_state := s <| lastlink := v |>.
Definition set_pathmax (v : Z) (s : fs_state) : fs_state := s <| pathmax := v |>.
Definition set_pathstack (v : list (Z * Z)) (s : fs_state) : fs_state := s <| pathstack := v |>.
Definition set_pathstackidx (v : Z) (s : fs_state) : fs_state := s <| pathstackidx := v |>.
Definition set_ramdisk (v : list Z) (s : fs_state) : fs_state := s <| ramdisk := v |>.
Definition set_ackdelayed (v : bool) (s : fs_state) : fs_state := s <| ackdelayed := v |>.
Definition set_nomem (v : bool) (s : fs_state) : fs_state := s <| nomem := v |>.
Definition set_cachelimit (v : Z) (s : fs_state) : fs_state := s <| cachelimit := v |>.
Definition set_fstab (v : option (list Z)) (s : fs_state) : fs_state := s <| fstab := v |>.
Definition set_lastsec (v : Z) (s : fs_state) : fs_state := s <| lastsec := v |>.
Definition set_errn (v : Z) (s : fs_state) : fs_state := s <| errn := v |>.
Definition set_allocs (v : list bool) (s : fs_state) : fs_state := s <| allocs := v |>.
Definition set_fresh (v : Z) (s : fs_state) : fs_state := s <| fresh := v |>.
Definition set_events (v : list fs_event) (s : fs_state) : fs_state := s <| events := v |>.

(** The globals before the task starts. *)
Definition init_fs : fs_state :=
  mk_fs 0 [] 0 [] 0 [] m1U16 0 [] false 0 [] 0 [] 0 [] ∅ 0 (List.repeat 0 256) ∅ 0 0 0 0 false 0
        zero_stat zero_dirent None 0 (List.repeat (0, 0) 64) 0 [] false false 0 None 0 0 [] 1 [].

(** ** The environment *)

(** Services of the core the code asks for.  [sent] is the error code of a message to a
    task, after what was sent before; [meminfo] is the number of free and of all pages. *)
Class FsEnv : Type := {
  getuidp : Z -> list Z;
  time : fs_state -> Z;
  getentropy : fs_state -> Z -> list Z;
  sent : list fs_event -> Z -> Z -> Z;
  rand : list fs_event -> Z;
  meminfo : fs_state -> Z * Z;
}.

(** The functions of the file system drivers, loaded at run time: driver, device, then
    the arguments of the call.  [drv_read] answers the block, [None] for a hole, and the
    number of bytes. *)
Class FsDrivers : Type := {
  drv_detect : Z -> Z -> list Z -> M fs_state bool;
  drv_read : Z -> Z -> Z -> Z -> Z -> Z -> M fs_state (option (list Z) * Z);
  drv_writetrb : Z -> Z -> Z -> M fs_state unit;
  drv_write : Z -> Z -> Z -> Z -> list Z -> M fs_state bool;
  drv_writetre : Z -> Z -> Z -> M fs_state unit;
  drv_stat : Z -> Z -> Z -> M fs_state bool;
  drv_getdirent : Z -> list Z -> Z -> M fs_state Z;
  drv_checkfs : Z -> Z -> M fs_state bool;
  drv_locate : Z -> Z -> list Z -> bool -> M fs_state (Z * locate_t);
  drv_resizefs : Z -> Z -> M fs_state unit;
}.

(** ** Shared steps *)

Definition seterr (e : Z) : M fs_state unit := modify (set_errn e).
Definition emit (e : fs_event) : M fs_state unit := modify (fun s => set_events (events s ++ [e]) s).

(** Whether the next allocation succeeds; a failure sets the error code. *)
Definition alloc_ok : M fs_state bool :=
  s <-- get ;;
  match allocs s with
  | [] => ret true
  | b :: l => put (set_allocs l s) ;;; when (negb b) (seterr ENOMEM) ;;; ret b
  end.

(** An address for a new object, 0 when there is no memory. *)
Definition new_address : M fs_state Z :=
  ok <-- alloc_ok ;;
  if (ok : bool) then s <-- get ;; put (set_fresh (fresh s + 1) s) ;;; ret (fresh s) else ret 0.

(** [realloc(l, n * sizeof( *l))]: the entries kept, new ones zero. *)
Definition resize {A} (z : A) (n : Z) (l : list A) : list A :=
  take (Z.to_nat n) l ++ List.repeat z (Z.to_nat n - length l).

(** [!strcmp(a, b)]: the same string (of two that are not empty), or a null pointer. *)
Definition streq (a b : list Z) : bool := bool_decide (a = b).
Definition streq_null (a : option (list Z)) (b : list Z) : bool :=
  match a with Some a => streq a b | None => true end.

(** The [n] bytes of [l] at [o]; [None] when they are not all there. *)
Definition slice (l : list Z) (o n : Z) : option (list Z) :=
  if (0 <=? o) && (0 <=? n) && (o + n <=? zlen l)
  then Some (take (Z.to_nat n) (drop (Z.to_nat o) l)) else None.
(** [memcpy] of [d] over the bytes [l] at [o]; [None] behind the end. *)
Definition overlay (l : list Z) (o : Z) (d : list Z) : option (list Z) :=
  if (0 <=? o) && (o + zlen d <=? zlen l)
  then Some (take (Z.to_nat o) l ++ d ++ drop (Z.to_nat (o + zlen d)) l) else None.

(** Access to the arrays. *)
Definition fcb_at (i : Z) : M fs_state fcb_t := s <-- get ;; need (zget (fcb s) i).
Definition fcb_mod (i : Z) (f : fcb_t -> fcb_t) : M fs_state unit :=
  s <-- get ;; x <-- need (zget (fcb s) i) ;; put (set_fcb (zset (fcb s) i (f x)) s).
Definition pipe_at (i : Z) : M fs_state pipe_t := s <-- get ;; need (zget (pipe s) i).
Definition pipe_mod (i : Z) (f : pipe_t -> pipe_t) : M fs_state unit :=
  s <-- get ;; x <-- need (zget (pipe s) i) ;; put (set_pipe (zset (pipe s) i (f x)) s).
Definition dev_at (i : Z) : M fs_state devfs_t := s <-- get ;; need (zget (dev s) i).
Definition dev_mod (i : Z) (f : devfs_t -> devfs_t) : M fs_state unit :=
  s <-- get ;; x <-- need (zget (dev s) i) ;; put (set_dev (zset (dev s) i (f x)) s).
Definition fsdrv_at (i : Z) : M fs_state fsdrv_t := s <-- get ;; need (zget (fsdrv s) i).

(** [p->field] through a pointer to a task context or to a cached block. *)
Definition ctx_at (p : Z) : M fs_state taskctx_t := s <-- get ;; need (ctxs s !! p).
Definition ctx_mod (p : Z) (f : taskctx_t -> taskctx_t) : M fs_state unit :=
  s <-- get ;; x <-- need (ctxs s !! p) ;; put (set_ctxs (<[p := f x]> (ctxs s)) s).
Definition cnode_at (p : Z) : M fs_state cache_t := s <-- get ;; need (cnodes s !! p).
Definition cnode_mod (p : Z) (f : cache_t -> cache_t) : M fs_state unit :=
  s <-- get ;; x <-- need (cnodes s !! p) ;; put (set_cnodes (<[p := f x]> (cnodes s)) s).

(** A message leaves; the library stores the error code the core answers. *)
Definition send {E : FsEnv} (dest evt : Z) (ev : fs_event) : M fs_state unit :=
  emit ev ;;; s <-- get ;; seterr (sent (events s) dest evt).
(** [mq_send] with its arguments without the destination. *)
Definition mq_send {E : FsEnv} (dest evt : Z) (args : list Z) : M fs_state unit :=
  send dest evt (EvSend dest evt args).

(** Bytes for the buffer at [ptr] of task [p]: [memcpy] when the buffer is in shared
    memory (event with pid 0), else [tskcpy], a message to the core. *)
Definition SYS_tskcpy : Z := 25.
Definition tskcpy {E : FsEnv} (ev : fs_event) : M fs_state unit := send SRV_CORE SYS_tskcpy ev.
Definition copy_out {E : FsEnv} (p ptr : Z) (data : list Z) : M fs_state unit :=
  if s64 ptr <? 0 then emit (EvCopy 0 ptr data) else tskcpy (EvCopy p ptr data).

(** Functions sent to. *)
Definition EVT_ack : Z := 0x3FFA.
Definition SYS_fread : Z := 18.
Definition SYS_datapacket : Z := 0x52.
Definition SYS_devprogress : Z := 0x0F.
Definition DRV_read : Z := 3.
Definition DRV_write : Z := 4.

(** [fcb[i].fs < nfsdrv && fsdrv[fcb[i].fs].f] *)
Definition drv_has (fs : Z) (has : fsdrv_t -> bool) : M fs_state bool :=
  n <-- gets nfsdrv ;;
  if fs <? n then d <-- fsdrv_at fs ;; ret (has d) else ret false.

End FsState.
