(* ===== verification/FsFacts.v ===== *)
(** Shared lemmas about the state of the FS task: the rules of the accesses to its arrays,
    and byte slices. *)
From Stdlib Require Import ZArith Lia List.
From stdpp Require Import base option list gmap.
From S2P Require Import Prelude CoreState FsState.
Import FsState.

(** ** One entry replaced *)
Section Put.
Implicit Types s : fs_state.

Definition put_pipe (i : Z) (p : pipe_t) s : fs_state := set_pipe (zset (pipe s) i p) s.
Definition put_fcb (i : Z) (f : fcb_t) s : fs_state := set_fcb (zset (fcb s) i f) s.
Definition put_ctx (a : Z) (t : taskctx_t) s : fs_state := set_ctxs (<[a := t]> (ctxs s)) s.

Lemma put_pipe_get i p s : 0 <= i < zlen (pipe s) -> zget (pipe (put_pipe i p s)) i = Some p.
Proof. apply zget_zset_eq. Qed.
Lemma put_fcb_get i f s : 0 <= i < zlen (fcb s) -> zget (fcb (put_fcb i f s)) i = Some f.
Proof. apply zget_zset_eq. Qed.
Lemma put_ctx_get a t s : ctxs (put_ctx a t s) !! a = Some t.
Proof. apply lookup_insert_eq. Qed.

Lemma put_put_pipe i p q s : put_pipe i q (put_pipe i p s) = put_pipe i q s.
Proof. unfold put_pipe, set_pipe. cbn. by rewrite zset_zset. Qed.
Lemma put_put_fcb i f g s : put_fcb i g (put_fcb i f s) = put_fcb i g s.
Proof. unfold put_fcb, set_fcb. cbn. by rewrite zset_zset. Qed.
Lemma put_put_ctx a t u s : put_ctx a u (put_ctx a t s) = put_ctx a u s.
Proof. unfold put_ctx, set_ctxs. cbn. by rewrite insert_insert_eq. Qed.

Lemma zlen_put_pipe i p s : zlen (pipe (put_pipe i p s)) = zlen (pipe s).
Proof. apply zlen_zset. Qed.
Lemma zlen_put_fcb i f s : zlen (fcb (put_fcb i f s)) = zlen (fcb s).
Proof. apply zlen_zset. Qed.

End Put.

(** ** Weakest preconditions of the shared steps *)
Section Wp.
Implicit Types s : fs_state.

Lemma wp_fcb_at i f (Q : fcb_t -> fs_state -> Prop) s :
  zget (fcb s) i = Some f -> Q f s -> wp (fcb_at i) Q s.
Proof. intros H HQ. unfold fcb_at. wp_go. by eapply wp_need. Qed.

Lemma wp_fcb_mod i g f (Q : unit -> fs_state -> Prop) s :
  zget (fcb s) i = Some f -> Q tt (put_fcb i (g f) s) -> wp (fcb_mod i g) Q s.
Proof. intros H HQ. unfold fcb_mod. wp_go. eapply wp_need; [done|]. exact HQ. Qed.

Lemma wp_pipe_at i p (Q : pipe_t -> fs_state -> Prop) s :
  zget (pipe s) i = Some p -> Q p s -> wp (pipe_at i) Q s.
Proof. intros H HQ. unfold pipe_at. wp_go. by eapply wp_need. Qed.

Lemma wp_pipe_mod i g p (Q : unit -> fs_state -> Prop) s :
  zget (pipe s) i = Some p -> Q tt (put_pipe i (g p) s) -> wp (pipe_mod i g) Q s.
Proof. intros H HQ. unfold pipe_mod. wp_go. eapply wp_need; [done|]. exact HQ. Qed.

Lemma wp_dev_at i d (Q : devfs_t -> fs_state -> Prop) s :
  zget (dev s) i = Some d -> Q d s -> wp (dev_at i) Q s.
Proof. intros H HQ. unfold dev_at. wp_go. by eapply wp_need. Qed.

Lemma wp_dev_mod i g d (Q : unit -> fs_state -> Prop) s :
  zget (dev s) i = Some d -> Q tt (set_dev (zset (dev s) i (g d)) s) -> wp (dev_mod i g) Q s.
Proof. intros H HQ. unfold dev_mod. wp_go. eapply wp_need; [done|]. exact HQ. Qed.

Lemma wp_ctx_at p t (Q : taskctx_t -> fs_state -> Prop) s :
  ctxs s !! p = Some t -> Q t s -> wp (ctx_at p) Q s.
Proof. intros H HQ. unfold ctx_at. wp_go. by eapply wp_need. Qed.

Lemma wp_ctx_mod p g t (Q : unit -> fs_state -> Prop) s :
  ctxs s !! p = Some t -> Q tt (put_ctx p (g t) s) -> wp (ctx_mod p g) Q s.
Proof. intros H HQ. unfold ctx_mod. wp_go. eapply wp_need; [done|]. exact HQ. Qed.

Lemma wp_cnode_at p c (Q : cache_t -> fs_state -> Prop) s :
  cnodes s !! p = Some c -> Q c s -> wp (cnode_at p) Q s.
Proof. intros H HQ. unfold cnode_at. wp_go. by eapply wp_need. Qed.

Lemma wp_cnode_mod p g c (Q : unit -> fs_state -> Prop) s :
  cnodes s !! p = Some c -> Q tt (set_cnodes (<[p := g c]> (cnodes s)) s) -> wp (cnode_mod p g) Q s.
Proof. intros H HQ. unfold cnode_mod. wp_go. eapply wp_need; [done|]. exact HQ. Qed.

(** With memory left, allocations succeed. *)
Lemma wp_alloc_ok (Q : bool -> fs_state -> Prop) s : allocs s = [] -> Q true s -> wp alloc_ok Q s.
Proof. intros H HQ. unfold alloc_ok. wp_go. rewrite H. by apply wp_ret. Qed.

Lemma wp_new_address (Q : Z -> fs_state -> Prop) s :
  allocs s = [] -> Q (FsState.fresh s) (set_fresh (FsState.fresh s + 1) s) -> wp new_address Q s.
Proof. intros H HQ. unfold new_address. wp_go. apply wp_alloc_ok; [done|]. exact HQ. Qed.

(** What is sent is recorded; the error code afterwards is the core's. *)
Definition sending (ev : fs_event) (e : Z) s : fs_state := set_errn e (set_events (events s ++ [ev]) s).

Lemma wp_send {E : FsEnv} dest evt ev (Q : unit -> fs_state -> Prop) s :
  (forall e, Q tt (sending ev e s)) -> wp (send dest evt ev) Q s.
Proof. intros HQ. unfold send, emit, seterr. wp_go. apply HQ. Qed.

Lemma wp_mq_send {E : FsEnv} dest evt args (Q : unit -> fs_state -> Prop) s :
  (forall e, Q tt (sending (EvSend dest evt args) e s)) -> wp (mq_send dest evt args) Q s.
Proof. apply wp_send. Qed.

Lemma wp_copy_out {E : FsEnv} p ptr d (Q : unit -> fs_state -> Prop) s :
  (forall e, Q tt (sending (EvCopy (if s64 ptr <? 0 then 0 else p) ptr d) e s)) -> wp (copy_out p ptr d) Q s.
Proof.
  intros HQ. unfold copy_out. destruct (s64 ptr <? 0); [|by apply wp_send].
  specialize (HQ (errn s)). unfold emit. wp_go. destruct s. exact HQ.
Qed.

End Wp.

(** One step of a proof about the FS task; the side goals of an access are the facts about
    the array, found among the hypotheses when they are there. *)
Ltac fs_step :=
  match goal with
  | |- wp (fcb_at _) _ _ => eapply wp_fcb_at; [eassumption|]
  | |- wp (fcb_mod _ _) _ _ => eapply wp_fcb_mod; [eassumption|]
  | |- wp (pipe_at _) _ _ => eapply wp_pipe_at; [eassumption|]
  | |- wp (pipe_mod _ _) _ _ => eapply wp_pipe_mod; [eassumption|]
  | |- wp (dev_at _) _ _ => eapply wp_dev_at; [eassumption|]
  | |- wp (dev_mod _ _) _ _ => eapply wp_dev_mod; [eassumption|]
  | |- wp (ctx_at _) _ _ => eapply wp_ctx_at; [eassumption|]
  | |- wp (ctx_mod _ _) _ _ => eapply wp_ctx_mod; [eassumption|]
  | |- wp (cnode_at _) _ _ => eapply wp_cnode_at; [eassumption|]
  | |- wp (cnode_mod _ _) _ _ => eapply wp_cnode_mod; [eassumption|]
  | |- wp alloc_ok _ _ => apply wp_alloc_ok; [done|]
  | |- wp (seterr _) _ _ => unfold seterr
  | |- wp (mq_send _ _ _) _ _ => apply wp_mq_send; intros ?
  | |- wp (copy_out _ _ _) _ _ => apply wp_copy_out; intros ?
  | |- wp (emit _) _ _ => unfold emit
  | |- wp (bind _ _) _ _ => apply wp_bind
  | |- wp (ret _) _ _ => apply wp_ret
  | |- wp (gets _) _ _ => apply wp_gets
  | |- wp get _ _ => apply wp_get
  | |- wp (put _) _ _ => hnf
  | |- wp (modify _) _ _ => apply wp_modify
  | |- wp (when _ _) _ _ => apply wp_when; intros ?
  end.
#[export] Hint Rewrite put_put_pipe put_put_fcb put_put_ctx zlen_put_pipe zlen_put_fcb : osz.
Ltac fs_go := repeat (fs_step; cbn beta iota zeta).

(** ** Byte slices *)
Section Slices.
Implicit Types l d : list Z.

Lemma slice_Some l o n : 0 <= o -> 0 <= n -> o + n <= zlen l ->
  slice l o n = Some (take (Z.to_nat n) (drop (Z.to_nat o) l)).
Proof.
  intros. unfold slice. replace ((0 <=? o) && (0 <=? n) && (o + n <=? zlen l)) with true by lia. done.
Qed.

Lemma slice_all l : slice l 0 (zlen l) = Some l.
Proof.
  rewrite slice_Some by (pose proof (zlen_nonneg l); lia). unfold zlen. rewrite Nat2Z.id.
  simpl. by rewrite take_ge.
Qed.

Lemma zlen_resize {A} (z : A) n (l : list A) : 0 <= n -> zlen (resize z n l) = n.
Proof. intros. unfold resize, zlen. rewrite length_app, length_take, repeat_length. lia. Qed.

(** Growing keeps the old entries. *)
Lemma resize_grow {A} (z : A) n (l : list A) : zlen l <= n ->
  resize z n l = l ++ List.repeat z (Z.to_nat (n - zlen l)).
Proof.
  unfold resize, zlen. intros. rewrite take_ge by lia. do 2 f_equal. lia.
Qed.

Lemma resize_shrink {A} (z : A) n (l : list A) : n <= zlen l -> resize z n l = take (Z.to_nat n) l.
Proof.
  unfold resize, zlen. intros. replace (Z.to_nat n - length l)%nat with 0%nat by lia. apply app_nil_r.
Qed.

(** Appending to a grown buffer. *)
Lemma overlay_append l d :
  overlay (resize 0 (zlen l + zlen d) l) (zlen l) d = Some (l ++ d).
Proof.
  pose proof (zlen_nonneg l). pose proof (zlen_nonneg d).
  unfold overlay. rewrite zlen_resize by lia.
  replace ((0 <=? zlen l) && (zlen l + zlen d <=? zlen l + zlen d)) with true by lia.
  rewrite resize_grow by lia. do 2 f_equal.
  - rewrite take_app_le by (unfold zlen; lia). apply take_ge. unfold zlen. lia.
  - rewrite drop_ge; [apply app_nil_r|]. rewrite length_app, repeat_length. unfold zlen. lia.
Qed.

End Slices.

#[export] Hint Rewrite @zlen_resize using lia : osz.

(** ** An environment, for the instances *)
#[export] Instance sample_env : FsEnv :=
  {| getuidp := fun _ => []; FsState.time := fun _ => 7; getentropy := fun _ n => List.repeat 0 (Z.to_nat n);
     sent := fun _ _ _ => 0; FsState.rand := fun _ => 4; meminfo := fun _ => (50, 100) |}.
