(* ===== verification/Fcb.v ===== *)
(** File control blocks, src/fs/fcb.c: lookup, reference counts and the pending writes
    of regular files. *)
From Stdlib Require Import ZArith Lia List.
From stdpp Require Import base option list gmap.
From S2P Require Import Prelude CoreState FsState.
Import FsState.

Module Fcb.

Section Ops.
Context {D : FsDrivers}.

(** A path with a slash at its end. *)
Definition SLASH : Z := 47.
Definition ends_slash (p : list Z) : bool := match List.last p 0 with 47 => true | _ => false end.

(** The first used entry, from index [i] on, that carries one of two names. *)
Fixpoint find_path (l : list fcb_t) (i : Z) (p : list Z) (ap : option (list Z)) : Z :=
  match l with
  | [] => m1U
  | f :: l' =>
      match abspath f with
      | Some a => if streq a p || match ap with Some q => streq a q | None => false end then i
                  else find_path l' (i + 1) p ap
      | None => find_path l' (i + 1) p ap
      end
  end.

Definition fcb_get (path : option (list Z)) : M fs_state Z :=
  match path with
  | None | Some [] => ret m1U
  | Some p =>
      ap <-- (if ends_slash p then ret None
              else ok <-- alloc_ok ;; ret (if (ok : bool) then Some (p ++ [SLASH]) else None)) ;;
      s <-- get ;;
      ret (find_path (take (Z.to_nat (nfcb s)) (fcb s)) 0 p ap)
  end.

(** The first used entry with the name, or the first free one: [inl] and [inr]. *)
Fixpoint find_slot (l : list fcb_t) (i : Z) (p : list Z) (free : Z) : Z + Z :=
  match l with
  | [] => inr free
  | f :: l' =>
      match abspath f with
      | Some a => if streq a p then inl i else find_slot l' (i + 1) p free
      | None => find_slot l' (i + 1) p (if free =? m1U then i else free)
      end
  end.

Definition fcb_add (p : list Z) (ty : Z) : M fs_state Z :=
  s <-- get ;;
  match find_slot (take (Z.to_nat (nfcb s)) (fcb s)) 0 p m1U with
  | inl i => ret i
  | inr j =>
      i <-- (if j =? m1U then
               modify (fun s => set_nfcb (nfcb s + 1) s) ;;;
               ok <-- alloc_ok ;;
               n <-- gets nfcb ;;
               if (ok : bool)
               then modify (fun s => set_fcb (resize zero_fcb n (fcb s)) s) ;;; ret (Some (n - 1))
               else modify (set_fcb []) ;;; ret None
             else ret (Some j)) ;;
      match i with
      | None => ret m1U
      | Some i =>
          ok <-- alloc_ok ;;
          fcb_mod i (fun f =>
            let f := set_ftype ty (set_abspath (if (ok : bool) then Some p else None) f) in
            if ty <? FCB_TYPE_PIPE then set_ffs m1U16 f else f) ;;;
          ret i
      end
  end.

(** [while(idx > 0 && !fcb[idx-1].abspath) idx--;] over the first [n] entries. *)
Fixpoint trim (l : list fcb_t) (n : nat) : nat :=
  match n with
  | O => O
  | S n' => match l !! n' with
            | Some f => match abspath f with None => trim l n' | Some _ => n end
            | None => n
            end
  end.

(** The end of [fcb_del]: the list loses its free entries at the end. *)
Definition fcb_shrink : M fs_state unit :=
  s <-- get ;;
  let k := Z.of_nat (trim (fcb s) (Z.to_nat (nfcb s))) in
  when (negb (k =? nfcb s)) (put (set_fcb (resize zero_fcb k (fcb s)) (set_nfcb k s))).

(** [fuel] bounds the nesting of unions; the members of a union end with a zero. *)
Fixpoint fcb_del (fuel : nat) (idx : Z) : M fs_state unit :=
  match fuel with
  | O => loop
  | S fuel' =>
      n <-- gets nfcb ;;
      if n <=? idx then ret tt else
      f <-- fcb_at idx ;;
      match abspath f with
      | None => ret tt
      | Some _ =>
          when (0 <? nopen f) (fcb_mod idx (set_nopen (nopen f - 1))) ;;;
          f <-- fcb_at idx ;;
          when (nopen f =? 0)
           ((if (ftype f =? FCB_TYPE_UNION) && match unionlist f with Some _ => true | None => false end then
               (fix members (l : list Z) : M fs_state unit :=
                  match l with
                  | [] => ub
                  | x :: l' => if x =? 0 then ret tt
                               else when (negb (idx =? x)) (fcb_del fuel' x) ;;; members l'
                  end) (default [] (unionlist f)) ;;;
               fcb_mod idx (set_unionlist None)
             else ret tt) ;;;
            fcb_mod idx (fun f => set_filesize 0 (set_abspath None f)) ;;;
            fcb_shrink)
      end
  end.

(** One pass of [fcb_free] over the entries from [i] on; it answers [was]. *)
Definition fcb_free_pass (fuel : nat) : M fs_state bool :=
  iter fuel (fun iw => let (i, was) := (iw : Z * bool) in
    n <-- gets nfcb ;;
    if i <? n then
      f <-- fcb_at i ;;
      if nopen f =? 0 then fcb_del fuel i ;;; ret (inl (i + 1, true)) else ret (inl (i + 1, was))
    else ret (inr was)) (0, false).

Definition fcb_free (fuel : nat) : M fs_state unit :=
  iter fuel (fun _ : unit => was <-- fcb_free_pass fuel ;;
                             if (was : bool) then ret (inl tt) else ret (inr tt)) tt.

(** [fcb_unionlist_add(&fl, f, n)]: the list, its zero at the end included, and its
    length. *)
Definition fcb_unionlist_add (fl : list Z) (f n : Z) : M fs_state (list Z * Z) :=
  if f =? m1U then ret (fl, n) else
  if existsb (Z.eqb f) (take (Z.to_nat n) fl) then ret (fl, n) else
  ok <-- alloc_ok ;;
  if (ok : bool) then
    let fl := resize 0 (n + 1) fl in
    need (zget fl (n - 1)) ;;; ret (zset fl (n - 1) f, n + 1)
  else ret ([], 0).

Definition fcb_readlink (idx : Z) : M fs_state (option (list Z)) :=
  n <-- gets nfcb ;;
  if n <=? idx then ret None else
  f <-- fcb_at idx ;;
  match abspath f with
  | None => ret None
  | Some _ =>
      if negb (ftype f =? FCB_TYPE_UNION) && negb (ftype f =? FCB_TYPE_REG_FILE) then ret None else
      h <-- drv_has (ffs f) has_read ;;
      if negb h then ret None else
      d <-- fcb_at (storage f) ;;
      do2 blk bs <-- drv_read (ffs f) (storage f) (ver f) (inode f) 0 (blksize d) ;; ret blk
  end.

(** ** Pending writes *)

Definition wb_end (w : writebuf_t) : Z := u64 (wb_offs w + wb_size w).

(** The checks [fcb_write] and [fcb_flush] share: [Some e] is the error to set. *)
Definition write_error (f : fcb_t) : M fs_state (option Z) :=
  if negb (ftype f =? FCB_TYPE_REG_FILE) then ret (Some EBADF) else
  k <-- gets fsck_dev ;;
  if negb (storage f =? m1U) && (k =? storage f) then ret (Some EBUSY) else
  if negb (has (fmode f) O_WRITE) then ret (Some EACCES) else
  h <-- drv_has (ffs f) has_write ;;
  ret (if h then None else Some EROFS).

(** The first loop of [fcb_write]: buffers that the new one covers are dropped.  When
    it is the first buffer the code goes on from a null pointer. *)
Definition covered (offs e : Z) (w : writebuf_t) : bool :=
  ((offs <=? wb_offs w) && (wb_end w <=? e)) || match wb_data w with None => true | Some _ => false end.
Definition drop_covered (offs e : Z) (l : list writebuf_t) : option (list writebuf_t) :=
  match l with
  | [] => Some []
  | w :: l' => if covered offs e w then None
               else Some (w :: List.filter (fun w => negb (covered offs e w)) l')
  end.

(** The second loop of [fcb_write], for the new bytes [d] at [offs], on the buffers
    [l] behind the buffers [before].  It answers the new chain, or [None] when no case
    applied. *)
Fixpoint place_write (offs : Z) (d : list Z) (before l : list writebuf_t)
    : M fs_state (option (list writebuf_t) + bool) :=
  match l with
  | [] => ret (inl None)
  | w :: l' =>
      let e := u64 (offs + zlen d) in
      let we := wb_end w in
      let nw := mk_wb offs (zlen d) (Some d) in
      if e <? wb_offs w then
        (* the variable l of the code is null here: the chain starts at the new buffer *)
        ret (inl (Some (nw :: w :: l')))
      else if (offs <? wb_offs w) && (wb_offs w <=? e) && (e <? we) then
        ok <-- alloc_ok ;;
        if negb ok then ret (inr false) else
        old <-- need (wb_data w) ;;
        data <-- need (overlay (resize 0 (we - offs) d) (zlen d) (take (Z.to_nat (we - e)) old)) ;;
        ret (inl (Some (before ++ mk_wb offs (we - offs) (Some data) :: l')))
      else if (wb_offs w <=? offs) && (e <=? we) then
        old <-- need (wb_data w) ;;
        data <-- need (overlay old (offs - wb_offs w) d) ;;
        ret (inl (Some (before ++ set_wb_data (Some data) w :: l')))
      else if (wb_offs w <? offs) && (offs <=? we) && (we <? e) then
        (* the new data is reallocated and then freed through its old pointer *)
        ub
      else place_write offs d (before ++ [w]) l'
  end.

Definition fcb_write (idx offs : Z) (d : list Z) : M fs_state bool :=
  n <-- gets nfcb ;;
  if n <=? idx then seterr EFAULT ;;; ret false else
  f <-- fcb_at idx ;;
  e <-- write_error f ;;
  match e with
  | Some e => seterr e ;;; ret false
  | None =>
      ok <-- alloc_ok ;;
      if negb ok then ret false else
      (* malloc of no bytes answers the null pointer *)
      ok <-- (if zlen d =? 0 then ret false else alloc_ok) ;;
      if negb ok then ret false else
      l <-- need (drop_covered offs (u64 (offs + zlen d)) (buf f)) ;;
      fcb_mod idx (set_buf l) ;;;
      r <-- place_write offs d [] l ;;
      match r with
      | inr b => ret b
      | inl None => ret false
      | inl (Some l) => fcb_mod idx (set_buf l) ;;; ret true
      end
  end.

(** ** Writing the pending buffers *)

(** [(int64_t)bs < 1] *)
Definition bad_blksize (bs : Z) : bool := s64 bs <? 1.

(** The block around [offs] read through the driver: [inl] to stop, else the block. *)
Definition flush_read (f : fcb_t) (old : option (list Z)) (offs bs : Z)
    : M fs_state (unit + option (list Z)) :=
  d <-- fsdrv_at (ffs f) ;;
  if has_read d then
    do2 blk bs' <-- drv_read (ffs f) (storage f) (ver f) (inode f) offs bs ;;
    a <-- gets ackdelayed ;;
    if a || (bs' =? 0) then ret (inl tt) else ret (inr blk)
  else ret (inr old).

(** The first bytes of a buffer from the block before them. *)
Definition flush_front (w : writebuf_t) (a bs : Z) (blk : option (list Z)) : option writebuf_t :=
  match wb_data w with
  | None => None
  | Some data =>
      match blk with
      | Some b => if wb_size w + a <? bs then None
                  else Some (mk_wb (wb_offs w - a) (wb_size w + a) (Some (take (Z.to_nat a) b ++ data)))
      | None => Some (mk_wb (wb_offs w - a) (wb_size w + a) (Some (List.repeat 0 (Z.to_nat a) ++ data)))
      end
  end.

(** The last bytes of a buffer from the block behind them. *)
Definition flush_back (w : writebuf_t) (bs : Z) (blk : option (list Z)) : option writebuf_t :=
  match wb_data w with
  | None => None
  | Some data =>
      let a := wb_size w mod bs in
      let s := wb_size w - a + bs in
      let tail := match blk with
                  | Some b => take (Z.to_nat (bs - a)) (drop (Z.to_nat a) b)
                  | None => List.repeat 0 (Z.to_nat (bs - a))
                  end in
      Some (mk_wb (wb_offs w) s (Some (data ++ tail)))
  end.

(** The round for the first buffer [w] of the chain [w :: rest]: [Some] is an early
    return. *)
Definition flush_round (idx : Z) (w : writebuf_t) (rest : list writebuf_t) : M fs_state (option bool) :=
  f <-- fcb_at idx ;;
  dv <-- fcb_at (storage f) ;;
  let bs := blksize dv in
  when (bs =? 0) ub ;;;
  let a := wb_offs w mod bs in
  r1 <-- (if a =? 0 then ret (inr (w, None)) else
            b <-- flush_read f None (wb_offs w) bs ;;
            match b with
            | inl _ => ret (inl tt)
            | inr blk =>
                ok <-- alloc_ok ;;
                if negb ok then ret (inl tt) else
                w <-- need (flush_front w a bs blk) ;;
                fcb_mod idx (set_buf (w :: rest)) ;;; ret (inr (w, blk))
            end) ;;
  match r1 with
  | inl _ => ret (Some false)
  | inr (w, blk0) =>
      r2 <-- (if wb_size w mod bs =? 0 then ret (inr w) else
                b <-- flush_read f blk0 (u64 (wb_offs w + wb_size w - wb_size w mod bs)) bs ;;
                match b with
                | inl _ => ret (inl tt)
                | inr blk =>
                    ok <-- alloc_ok ;;
                    if negb ok then fcb_mod idx (set_buf (set_wb_data None w :: rest)) ;;; ret (inl tt) else
                    w <-- need (flush_back w bs blk) ;;
                    fcb_mod idx (set_buf (w :: rest)) ;;; ret (inr w)
                end) ;;
      match r2 with
      | inl _ => ret (Some false)
      | inr w =>
          data <-- need (wb_data w) ;;
          ok <-- drv_write (ffs f) (storage f) (inode f) (wb_offs w) data ;;
          if negb ok then ret (Some false) else
          fcb_mod idx (set_buf rest) ;;; ret None
      end
  end.

Definition fcb_flush (idx : Z) : M fs_state bool :=
  n <-- gets nfcb ;;
  if n <=? idx then seterr EFAULT ;;; ret false else
  f <-- fcb_at idx ;;
  dv <-- fcb_at (storage f) ;;
  c <-- gets ctx ;;
  tc <-- ctx_at c ;;
  e <-- (if workleft tc =? m1UL then
           e <-- write_error f ;;
           match e with
           | Some e => ret (Some e)
           | None => ret (if bad_blksize (blksize dv) then Some EINVAL else None)
           end
         else ret None) ;;
  match e with
  | Some e => seterr e ;;; ret false
  | None =>
      d <-- fsdrv_at (ffs f) ;;
      when (workleft tc =? m1UL)
        (ctx_mod c (set_workleft 0) ;;;
         when (has_writetrb d) (drv_writetrb (ffs f) (storage f) (inode f))) ;;;
      r <-- match buf f with
            | [] => ret None
            | w :: rest =>
                r <-- flush_round idx w rest ;;
                match r, rest with
                | Some b, _ => ret (Some b)
                | None, [] => ret None
                | None, _ => ub (* the loop goes on with the buffer just freed *)
                end
            end ;;
      match r with
      | Some b => ret b
      | None =>
          when (has_writetre d) (drv_writetre (ffs f) (storage f) (inode f)) ;;;
          ctx_mod c (set_workleft m1U) ;;;
          ret true
      end
  end.

End Ops.
End Fcb.
