(* ===== verification/FcbFacts.v ===== *)
(** Correctness of Fcb.v: registration and lookup of paths, reference counts, and what
    becomes of pending writes. *)
From Stdlib Require Import ZArith Lia List.
From stdpp Require Import base option list gmap.
From S2P Require Import Prelude CoreState FsState FsFacts Fcb.
Import FsState Fcb.

(** ** The table *)

(** The count and the array agree, and the count fits its type. *)
Definition table_wf (s : fs_state) : Prop := nfcb s = zlen (fcb s) /\ nfcb s < m1U.

(** A free entry. *)
Definition is_free (f : fcb_t) : Prop := abspath f = None.

Lemma take_all_fcb s : table_wf s -> take (Z.to_nat (nfcb s)) (fcb s) = fcb s.
Proof. intros [H _]. rewrite H. unfold zlen. rewrite Nat2Z.id. by apply take_ge. Qed.

(** [find_path] answers the first entry with one of the two names. *)
Definition named (p : list Z) (ap : option (list Z)) (f : fcb_t) : Prop :=
  abspath f = Some p \/ (exists q, ap = Some q /\ abspath f = Some q).

Lemma find_path_spec l i p ap :
  (exists k f, zget l k = Some f /\ named p ap f /\ find_path l i p ap = i + k /\
     forall j g, 0 <= j < k -> zget l j = Some g -> ~ named p ap g) \/
  ((forall k f, zget l k = Some f -> ~ named p ap f) /\ find_path l i p ap = m1U).
Proof.
  revert i. induction l as [|f l IH]; intros i.
  { right. split; [|done]. intros k f H. apply zget_Some_lt in H. unfold zlen in H. simpl in H. lia. }
  assert (Hdec : named p ap f \/ ~ named p ap f /\ find_path (f :: l) i p ap = find_path l (i + 1) p ap).
  { unfold named. simpl. destruct (abspath f) as [a|]; [|right; split; [naive_solver|done]].
    unfold streq. destruct (bool_decide_reflect (a = p)) as [->|Hp]; simpl; [by left; left|].
    destruct ap as [q|]; [|right; split; [naive_solver|done]].
    destruct (bool_decide_reflect (a = q)) as [->|Hq]; [by left; right; eexists|right; split; [naive_solver|done]]. }
  destruct Hdec as [Hn|[Hn Heq]].
  - left. exists 0, f. split; [done|]. split; [done|]. split; [|intros; lia].
    unfold named in Hn. simpl. unfold streq.
    destruct Hn as [->|(q&->&->)]; [rewrite (bool_decide_true (p = p)) by done; simpl; lia|].
    rewrite (bool_decide_true (q = q)) by done. rewrite orb_true_r. lia.
  - rewrite Heq. destruct (IH (i + 1)) as [(k&g&Hk&Hg&->&Hb)|[Hb ->]].
    + left. exists (k + 1), g. pose proof (zget_Some_lt _ _ _ Hk). rewrite zget_cons_S by lia.
      replace (k + 1 - 1) with k by lia. split; [done|]. split; [done|]. split; [lia|].
      intros j h Hj Hh. destruct (Z.eq_dec j 0) as [->|]; [by injection Hh as <-|].
      rewrite zget_cons_S in Hh by lia. eapply Hb; [|done]. lia.
    + right. split; [|done]. intros k g Hk. destruct (Z.eq_dec k 0) as [->|]; [by injection Hk as <-|].
      pose proof (zget_Some_lt _ _ _ Hk). rewrite zget_cons_S in Hk by lia. by eapply Hb.
Qed.

(** [find_slot] answers the entry with the name, or the first free one. *)
Lemma find_slot_spec l i p fr :
  match find_slot l i p fr with
  | inl j => (exists f, zget l (j - i) = Some f /\ abspath f = Some p) /\
             forall k g, 0 <= k < j - i -> zget l k = Some g -> abspath g <> Some p
  | inr j => (forall k f, zget l k = Some f -> abspath f <> Some p) /\
             (j = fr \/ exists f, zget l (j - i) = Some f /\ is_free f)
  end.
Proof.
  revert i fr. induction l as [|f l IH]; intros i fr; simpl.
  { split; [|by left]. intros k f H. apply zget_Some_lt in H. unfold zlen in H. simpl in H. lia. }
  assert (Hsh : forall j g, zget l (j - (i + 1)) = Some g -> zget (f :: l) (j - i) = Some g).
  { intros j g H. pose proof (zget_Some_lt _ _ _ H). rewrite zget_cons_S by lia. by replace (j - i - 1) with (j - (i + 1)) by lia. }
  assert (Hall : abspath f <> Some p -> (forall k g, zget l k = Some g -> abspath g <> Some p) ->
                 forall k g, zget (f :: l) k = Some g -> abspath g <> Some p).
  { intros H1 H2 k g Hk. destruct (Z.eq_dec k 0) as [->|]; [by injection Hk as <-|].
    pose proof (zget_Some_lt _ _ _ Hk). rewrite zget_cons_S in Hk by lia. by eapply H2. }
  assert (Hlow : forall j, abspath f <> Some p ->
     (forall k g, 0 <= k < j - (i + 1) -> zget l k = Some g -> abspath g <> Some p) ->
     forall k g, 0 <= k < j - i -> zget (f :: l) k = Some g -> abspath g <> Some p).
  { intros j H1 H2 k g Hk Hg. destruct (Z.eq_dec k 0) as [->|]; [by injection Hg as <-|].
    rewrite zget_cons_S in Hg by lia. eapply (H2 (k - 1)); [lia|done]. }
  destruct (abspath f) as [a|] eqn:Ha.
  - unfold streq. destruct (bool_decide_reflect (a = p)) as [->|Hp].
    + split; [exists f; by rewrite Z.sub_diag|]. intros k g Hk. lia.
    + specialize (IH (i + 1) fr). destruct (find_slot l (i + 1) p fr) as [j|j].
      * destruct IH as [(g&Hg&?) Hfst]. split; [exists g; split; [by apply Hsh|done]|].
        eapply Hlow; [congruence|exact Hfst].
      * destruct IH as [H1 H2]. split; [by apply Hall; [congruence|]|].
        destruct H2 as [|(g&Hg&?)]; [by left|right; exists g; split; [by apply Hsh|done]].
  - specialize (IH (i + 1) (if fr =? m1U then i else fr)).
    destruct (find_slot l (i + 1) p _) as [j|j].
    + destruct IH as [(g&Hg&?) Hfst]. split; [exists g; split; [by apply Hsh|done]|].
      eapply Hlow; [congruence|exact Hfst].
    + destruct IH as [H1 H2]. split; [by apply Hall; [congruence|]|].
      destruct H2 as [->|(g&Hg&?)]; [|right; exists g; split; [by apply Hsh|done]].
      destruct (fr =? m1U); [|by left]. right. exists f. by rewrite Z.sub_diag.
Qed.

(** The first entry with the name is the one [fcb_get] answers. *)
Lemma find_path_first l p ap j f :
  zget l j = Some f -> abspath f = Some p ->
  (forall k g, 0 <= k < j -> zget l k = Some g -> ~ named p ap g) ->
  find_path l 0 p ap = j.
Proof.
  intros Hj Hf Hb. destruct (find_path_spec l 0 p ap) as [(k&g&Hk&Hg&->&Hfst)|[Hno _]].
  - pose proof (zget_Some_lt _ _ _ Hj). pose proof (zget_Some_lt _ _ _ Hk).
    destruct (Z.lt_trichotomy k j) as [|[->|]]; [|lia|].
    + exfalso. eapply Hb; [|exact Hk|done]. lia.
    + exfalso. eapply Hfst; [|exact Hj|by left]. lia.
  - exfalso. eapply Hno; [exact Hj|by left].
Qed.

(** ** Registration *)

(** The other name [fcb_get] accepts. *)
Definition with_slash (p : list Z) : option (list Z) :=
  if ends_slash p then None else Some (p ++ [SLASH]).

Lemma wp_fcb_get p (Q : Z -> fs_state -> Prop) s :
  table_wf s -> allocs s = [] -> p <> [] ->
  Q (find_path (fcb s) 0 p (with_slash p)) s -> wp (fcb_get (Some p)) Q s.
Proof.
  intros Hwf Ha Hp HQ. unfold fcb_get, with_slash in *. destruct p as [|c p]; [done|].
  fs_go. destruct (ends_slash (c :: p)); fs_go; by rewrite take_all_fcb.
Qed.

(** What [fcb_add] does to the table: an entry that was free or behind the end. *)
Lemma wp_fcb_add p ty s :
  table_wf s -> nfcb s + 1 < m1U -> allocs s = [] ->
  wp (fcb_add p ty)
     (fun i s' => table_wf s' /\ allocs s' = [] /\
        (exists f, zget (fcb s') i = Some f /\ abspath f = Some p) /\
        (forall k g, k <> i -> zget (fcb s) k = Some g -> zget (fcb s') k = Some g) /\
        (forall k g, k <> i -> zget (fcb s') k = Some g -> zget (fcb s) k = Some g) /\
        (forall k g, 0 <= k < i -> zget (fcb s') k = Some g -> abspath g <> Some p) /\
        ((exists f, zget (fcb s) i = Some f /\ abspath f = Some p /\ s' = s) \/
         (forall k g, zget (fcb s) k = Some g -> abspath g <> Some p))) s.
Proof.
  intros Hwf Hn Ha. pose proof Hwf as [Hlen _]. unfold fcb_add. fs_go. rewrite take_all_fcb by done.
  pose proof (find_slot_spec (fcb s) 0 p m1U) as Hsp.
  destruct (find_slot (fcb s) 0 p m1U) as [i|j].
  { destruct Hsp as [(f&Hf&Hp) Hfst]. rewrite Z.sub_0_r in *. fs_go.
    split; [done|]. split; [done|]. split; [by exists f|]. do 2 (split; [done|]).
    split; [done|]. left. by exists f. }
  destruct Hsp as [Hno Hfr]. rewrite Z.sub_0_r in Hfr. pose proof (zlen_nonneg (fcb s)).
  destruct (Z.eqb_spec j m1U) as [->|Hj].
  - fs_go. eapply (wp_fcb_mod _ _ zero_fcb).
    { cbn. rewrite resize_grow by lia. rewrite zget_app_r by lia. rewrite Hlen.
      replace (zlen (fcb s) + 1 - zlen (fcb s)) with 1 by lia.
      by replace (zlen (fcb s) + 1 - 1 - zlen (fcb s)) with 0 by lia. }
    fs_go. cbn [nfcb fcb set_nfcb set_fcb put_fcb].
    set (g := _ : fcb_t).
    assert (Hz : forall k, k <> nfcb s -> zget (zset (resize zero_fcb (nfcb s + 1) (fcb s)) (nfcb s + 1 - 1) g) k = zget (fcb s) k).
    { intros k Hk. rewrite zget_zset_ne by lia. rewrite resize_grow by lia.
      destruct (Z.lt_ge_cases k (zlen (fcb s))).
      - by rewrite zget_app_l by lia.
      - rewrite zget_app_r by lia. rewrite Hlen. replace (zlen (fcb s) + 1 - zlen (fcb s)) with 1 by lia.
        unfold zget. destruct (Z.ltb_spec (k - zlen (fcb s)) 0), (Z.ltb_spec k 0); try lia.
        rewrite !lookup_ge_None_2; [done|unfold zlen in *; lia|simpl; lia]. }
    replace (nfcb s + 1 - 1) with (nfcb s) in * by lia.
    split; [split; [cbn; rewrite zlen_zset, zlen_resize; lia|cbn; lia]|]. split; [done|].
    split; [exists g; split; [apply zget_zset_eq; rewrite zlen_resize; lia|unfold g; by destruct (ty <? FCB_TYPE_PIPE)]|].
    split; [intros k f Hk Hf; cbn; by rewrite Hz|].
    split; [intros k f Hk Hf; cbn in Hf; by rewrite Hz in Hf|].
    split; [|by right]. intros k f Hk Hf. cbn in Hf. rewrite Hz in Hf by lia. by eapply Hno.
  - destruct Hfr as [|(f&Hf&Hfree)]; [done|]. pose proof (zget_Some_lt _ _ _ Hf). fs_go.
    set (g := _ : fcb_t).
    split; [split; [cbn; by rewrite zlen_zset|by destruct Hwf]|]. split; [done|].
    split; [exists g; split; [by apply zget_zset_eq|unfold g; by destruct (ty <? FCB_TYPE_PIPE)]|].
    split; [intros k h Hk Hh; cbn; by rewrite zget_zset_ne|].
    split; [intros k h Hk Hh; cbn in Hh; by rewrite zget_zset_ne in Hh|].
    split; [|by right]. intros k h Hk Hh. cbn in Hh. rewrite zget_zset_ne in Hh by lia. by eapply Hno.
Qed.

(** C37: a path that [fcb_add] has registered is found by [fcb_get] at the index it
    answered, every other entry stays as it was, and registering the path again changes
    nothing.  The path is not empty, there is memory and a free index, and no entry has the
    path with a slash behind it as its name: [fcb_get] takes such an entry too, when it comes
    first, while [fcb_add] does not ([directory_shadows_file]). *)
Theorem fcb_add_get p ty ty' s :
  table_wf s -> nfcb s + 1 < m1U -> allocs s = [] -> p <> [] ->
  (forall k f, zget (fcb s) k = Some f -> with_slash p <> None -> abspath f <> with_slash p) ->
  wp (i <-- fcb_add p ty ;; t <-- get ;; j <-- fcb_get (Some p) ;; k <-- fcb_add p ty' ;; ret (i, j, k, t))
     (fun r s' => let '(i, j, k, t) := r in i = j /\ i = k /\ s' = t /\
        (exists f, zget (fcb t) i = Some f /\ abspath f = Some p) /\
        (forall k g, k <> i -> zget (fcb s) k = Some g -> zget (fcb t) k = Some g)) s.
Proof.
  intros Hwf Hn Ha Hp Hsl. wp_step. eapply wp_mono; [by apply wp_fcb_add|].
  intros i t (Hwft&Hat&(f&Hf&Hfp)&Hkeep&Hold&Hfst&_). wp_step. wp_step. wp_step. apply wp_fcb_get; [done..|].
  assert (Hfind : find_path (fcb t) 0 p (with_slash p) = i).
  { eapply find_path_first; [exact Hf|done|]. intros k g Hk Hg [Hn1|(q&Hq&Hn1)]; [by eapply Hfst|].
    eapply (Hsl k g); [apply Hold; [lia|done]|by rewrite Hq|by rewrite Hq]. }
  rewrite Hfind. wp_step. unfold fcb_add. fs_go. rewrite take_all_fcb by done.
  pose proof (find_slot_spec (fcb t) 0 p m1U) as Hsp.
  destruct (find_slot (fcb t) 0 p m1U) as [j|j].
  - destruct Hsp as [(g&Hg&Hgp) Hjf]. rewrite Z.sub_0_r in *. fs_go.
    assert (i = j) as ->; [|split_and!; try done; by exists f].
    pose proof (zget_Some_lt _ _ _ Hf). pose proof (zget_Some_lt _ _ _ Hg).
    destruct (Z.lt_trichotomy i j) as [|[|]]; [|done|].
    + exfalso. eapply (Hjf i); [lia|done|done].
    + exfalso. eapply (Hfst j); [lia|done|done].
  - exfalso. destruct Hsp as [Hno _]. by eapply Hno.
Qed.

(** ** Reference counts *)

Lemma trim_spec l n :
  (n <= length l)%nat ->
  (trim l n <= n)%nat /\ (forall k f, (trim l n <= k < n)%nat -> l !! k = Some f -> is_free f) /\
  (trim l n <> 0%nat -> exists f, l !! (trim l n - 1)%nat = Some f /\ ~ is_free f).
Proof.
  unfold is_free. induction n as [|n IH]; intros Hn; simpl; [split_and!; [lia|lia|done]|].
  destruct (lookup_lt_is_Some_2 l n ltac:(lia)) as [f Hf]. rewrite Hf.
  destruct (abspath f) eqn:Ha.
  - split_and!; [lia|lia|]. intros _. exists f. replace (S n - 1)%nat with n by lia. by rewrite Ha.
  - destruct IH as (H1&H2&H3); [lia|]. split; [lia|]. split; [|done].
    intros k g Hk Hg. destruct (decide (k = n)) as [->|]; [by simplify_eq|]. eapply H2; [|done]. lia.
Qed.

(** [fcb_shrink] drops exactly the free entries at the end. *)
Definition shrunk (s s' : fs_state) : Prop :=
  table_wf s' /\ nfcb s' <= nfcb s /\ allocs s' = allocs s /\
  (forall k f, zget (fcb s') k = Some f -> zget (fcb s) k = Some f) /\
  (forall k f, zget (fcb s) k = Some f -> ~ is_free f -> zget (fcb s') k = Some f) /\
  (0 < nfcb s' -> exists f, zget (fcb s') (nfcb s' - 1) = Some f /\ ~ is_free f).

Lemma wp_fcb_shrink s : table_wf s -> wp fcb_shrink (fun _ s' => shrunk s s') s.
Proof.
  intros [Hlen Hb]. pose proof (zlen_nonneg (fcb s)). unfold fcb_shrink. wp_step. wp_step. cbv zeta.
  pose proof (trim_spec (fcb s) (Z.to_nat (nfcb s))) as (Ht&Hfree&Hlast); [unfold zlen in *; lia|].
  set (k := Z.of_nat (trim (fcb s) (Z.to_nat (nfcb s)))) in *.
  assert (Hk : 0 <= k <= nfcb s) by lia.
  assert (Hlast' : 0 < k -> exists f, zget (fcb s) (k - 1) = Some f /\ ~ is_free f).
  { intros. destruct Hlast as (f&Hf&?); [lia|]. exists f. rewrite zget_nonneg by lia.
    replace (Z.to_nat (k - 1)) with (trim (fcb s) (Z.to_nat (nfcb s)) - 1)%nat by lia. done. }
  apply wp_when; intros Hc; b2p.
  - fs_go. unfold shrunk. cbn [fcb nfcb set_fcb set_nfcb allocs]. rewrite resize_shrink by lia.
    assert (Hg : forall j, zget (take (Z.to_nat k) (fcb s)) j = if j <? k then zget (fcb s) j else None)
      by (intros; apply zget_take; lia).
    split; [split; [cbn; rewrite zlen_take by lia; lia|cbn; lia]|]. split; [lia|]. split; [done|]. split; [|split].
    + intros j f. rewrite Hg. by destruct (j <? k).
    + intros j f Hf Hnf. rewrite Hg. destruct (Z.ltb_spec j k); [done|]. exfalso. apply Hnf.
      pose proof (zget_Some_lt _ _ _ Hf). rewrite zget_nonneg in Hf by lia.
      eapply (Hfree (Z.to_nat j)); [|done]. lia.
    + intros Hpos. destruct (Hlast' Hpos) as (f&Hf&?). exists f. rewrite Hg. by replace (k - 1 <? k) with true by lia.
  - unfold shrunk. split; [by split|]. split; [lia|]. split; [done|]. do 2 (split; [done|]). rewrite <- Hc. done.
Qed.

(** The entry after its last reference is gone. *)
Definition cleared (f : fcb_t) : fcb_t := set_filesize 0 (set_abspath None f).

Lemma wp_fcb_del_plain fuel idx f s :
  table_wf s -> zget (fcb s) idx = Some f -> abspath f <> None -> unionlist f = None -> 0 <= nopen f ->
  wp (fcb_del (S fuel) idx)
     (fun _ s' => if 1 <? nopen f then s' = put_fcb idx (set_nopen (nopen f - 1) f) s
                  else shrunk (put_fcb idx (cleared (set_nopen 0 f)) s) s') s.
Proof.
  intros Hwf Hf Hused Hun Hno. pose proof Hwf as [Hlen _]. pose proof (zget_Some_lt _ _ _ Hf) as Hlt.
  simpl. fs_go. replace (nfcb s <=? idx) with false by lia. fs_go.
  destruct (abspath f) as [a|] eqn:Ha; [|done]. fs_go.
  - b2p. eapply wp_fcb_at; [by apply put_fcb_get|]. fs_go; change (nopen (set_nopen (nopen f - 1) f)) with (nopen f - 1) in *; b2p.
    + change (unionlist (set_nopen (nopen f - 1) f)) with (unionlist f). rewrite Hun, andb_false_r. fs_go.
      eapply wp_fcb_mod; [by apply put_fcb_get|]. rewrite put_put_fcb.
      eapply wp_mono; [apply wp_fcb_shrink; split; [cbn; by rewrite zlen_zset|by destruct Hwf]|].
      intros u s' Hs. replace (1 <? nopen f) with false by lia. by replace 0 with (nopen f - 1) by lia.
    + by replace (1 <? nopen f) with true by lia.
  - b2p. rewrite Hun, andb_false_r. fs_go.
    eapply wp_mono; [apply wp_fcb_shrink; split; [cbn; by rewrite zlen_zset|by destruct Hwf]|].
    intros u s' Hs. replace (1 <? nopen f) with false by lia. replace (set_nopen 0 f) with f; [done|]. clear - H0. by destruct f; cbn in *; subst.
  - b2p. lia.
Qed.

(** [fcb_del] of a used entry that is not a union takes away one reference; the last
    one frees the entry, keeps every other used entry at its index, and leaves no free
    entry at the end of the list. *)
Theorem fcb_del_counts fuel idx f s :
  table_wf s -> zget (fcb s) idx = Some f -> abspath f <> None -> unionlist f = None -> 0 <= nopen f ->
  wp (fcb_del (S fuel) idx)
     (fun _ s' => if 1 <? nopen f
        then fcb s' = zset (fcb s) idx (set_nopen (nopen f - 1) f) /\ nfcb s' = nfcb s
        else table_wf s' /\ (forall g, zget (fcb s') idx = Some g -> is_free g) /\
             (forall k g, k <> idx -> zget (fcb s) k = Some g -> ~ is_free g -> zget (fcb s') k = Some g) /\
             (forall k g, k <> idx -> zget (fcb s') k = Some g -> zget (fcb s) k = Some g) /\
             (0 < nfcb s' -> exists g, zget (fcb s') (nfcb s' - 1) = Some g /\ ~ is_free g)) s.
Proof.
  intros Hwf Hf Hused Hun Hno. eapply wp_mono; [by apply wp_fcb_del_plain|].
  intros u s' Hs. destruct (1 <? nopen f); [by subst s'|]. destruct Hs as (Hwf'&_&_&Hold&Hkeep&Hlast).
  pose proof (zget_Some_lt _ _ _ Hf) as Hlt.
  split; [done|]. split; [|split; [|split; [|done]]].
  - intros g Hg%Hold. rewrite put_fcb_get in Hg by done. by injection Hg as <-.
  - intros k g Hk Hg Hu. apply Hkeep; [|done]. cbn. by rewrite zget_zset_ne.
  - intros k g Hk Hg%Hold. cbn in Hg. by rewrite zget_zset_ne in Hg.
Qed.

(** ** Freeing what is not in use *)

(** A free entry [i] below an entry [j] that is in use, and no unions. *)
Definition gap (i j : Z) (s : fs_state) : Prop :=
  table_wf s /\ i < j /\
  (exists f, zget (fcb s) i = Some f /\ is_free f /\ nopen f = 0) /\
  (exists f, zget (fcb s) j = Some f /\ ~ is_free f /\ 0 < nopen f) /\
  (forall k f, zget (fcb s) k = Some f -> unionlist f = None /\ 0 <= nopen f).

Lemma gap_del fuel i j k f s :
  gap i j s -> zget (fcb s) k = Some f -> nopen f = 0 ->
  wlp (fcb_del fuel k) (fun _ s' => gap i j s') s.
Proof.
  intros (Hwf&Hij&(fi&Hi&Hfi&Hni)&(fj&Hj&Hfj&Hnj)&Hall) Hk Hn0.
  pose proof Hwf as [Hlen _]. pose proof (zget_Some_lt _ _ _ Hk) as Hlt. pose proof (zget_Some_lt _ _ _ Hi).
  destruct fuel as [|fuel]; [done|].
  destruct (abspath f) as [a|] eqn:Ha.
  2: { apply wlp_wp. simpl. fs_go. replace (nfcb s <=? k) with false by lia. fs_go. rewrite Ha. fs_go.
       split; [done|]. split; [done|]. split; [by exists fi|]. split; [by exists fj|done]. }
  apply wlp_wp. destruct (Hall _ _ Hk) as [Hu Hnn].
  eapply wp_mono; [eapply wp_fcb_del_plain; [done|exact Hk|by rewrite Ha|done|done]|].
  intros u s'. rewrite Hn0. cbn. intros (Hwf'&Hle&_&Hold&Hkeep&_).
  assert (Hki : k <> i) by (intros ->; rewrite Hk in Hi; injection Hi as <-; unfold is_free in Hfi; congruence).
  assert (Hkj : k <> j) by (intros ->; rewrite Hk in Hj; injection Hj as <-; lia).
  assert (Hj' : zget (fcb s') j = Some fj) by (apply Hkeep; [cbn; by rewrite zget_zset_ne|done]).
  pose proof (zget_Some_lt _ _ _ Hj').
  assert (Hi' : zget (fcb s') i = Some fi).
  { destruct (zget_is_Some (fcb s') i ltac:(lia)) as [h Hh]. rewrite Hh. apply Hold in Hh.
    cbn in Hh. rewrite zget_zset_ne in Hh by done. congruence. }
  split; [done|]. split; [done|]. split; [by exists fi|]. split; [by exists fj|].
  intros m g Hg%Hold. destruct (Z.eq_dec k m) as [->|Hne].
  - rewrite put_fcb_get in Hg by done. by injection Hg as <-.
  - cbn in Hg. rewrite zget_zset_ne in Hg by done. by eapply Hall.
Qed.

(** Once a free entry lies below one that is in use, [fcb_free] never returns: it
    counts the free entry as work left in every pass, but [fcb_del] does not touch it. *)
Theorem fcb_free_never_ends fuel i j s : gap i j s -> fcb_free fuel s = Loop.
Proof.
  intros Hgap. apply wlp_never. unfold fcb_free.
  eapply (wlp_iter (fun _ s => gap i j s)); [|exact Hgap]. clear s Hgap. intros _ s Hgap.
  apply wlp_bind. apply (wlp_mono _ (fun was s' => was = true /\ gap i j s')); [|by intros was s' [-> H]].
  unfold fcb_free_pass.
  eapply (wlp_iter (fun (kw : Z * bool) s => gap i j s /\ 0 <= fst kw /\ (i < fst kw -> snd kw = true))).
  2: { cbn. split; [done|]. split; [lia|]. destruct Hgap as (_&_&(f&Hf&_)&_). pose proof (zget_Some_lt _ _ _ Hf). lia. }
  clear s Hgap. intros [k was] s (Hgap&Hk&Hwas). cbn in Hk, Hwas.
  pose proof Hgap as ([Hlen Hb]&Hij&(fi&Hi&Hfi&Hni)&(fj&Hj&_)&_). pose proof (zget_Some_lt _ _ _ Hj).
  apply wlp_bind, wlp_wp, wp_gets. destruct (Z.ltb_spec k (nfcb s)) as [Hlt|Hge].
  - destruct (zget_is_Some (fcb s) k ltac:(lia)) as [f Hf].
    apply wlp_bind, wlp_wp. eapply wp_fcb_at; [exact Hf|].
    destruct (Z.eqb_spec (nopen f) 0) as [H0|H0].
    + apply wlp_bind. eapply wlp_mono; [by eapply gap_del|]. intros [] s' Hg. by split; [|split; [cbn; lia|]].
    + split; [done|]. split; [cbn; lia|]. cbn. intros Hik.
      destruct (Z.eq_dec i k) as [->|]; [|apply Hwas; lia]. congruence.
  - split; [apply Hwas; lia|done].
Qed.

(** ** Writing *)

(** An allocation, successful or not, touches only the error code. *)
Lemma wp_alloc_any (Q : bool -> fs_state -> Prop) s :
  (forall b l e, Q b (set_errn e (set_allocs l s))) -> wp alloc_ok Q s.
Proof.
  intros HQ. unfold alloc_ok. wp_go. destruct (allocs s) as [|b l] eqn:Ha.
  - apply wp_ret. specialize (HQ true (allocs s) (errn s)). destruct s. exact HQ.
  - destruct b; fs_go; [|apply HQ]. specialize (HQ true l (errn s)). destruct s. exact HQ.
Qed.

Lemma wp_drv_has fs h (Q : bool -> fs_state -> Prop) s :
  nfsdrv s = zlen (fsdrv s) -> 0 <= fs -> (forall b, Q b s) -> wp (drv_has fs h) Q s.
Proof.
  intros Hn Hfs HQ. unfold drv_has. wp_step. wp_step. destruct (Z.ltb_spec fs (nfsdrv s)); fs_go; [|apply HQ].
  destruct (zget_is_Some (fsdrv s) fs ltac:(lia)) as [d Hd].
  unfold fsdrv_at. fs_go. eapply wp_need; [done|]. fs_go. apply HQ.
Qed.

Lemma wp_write_error f (Q : option Z -> fs_state -> Prop) s :
  nfsdrv s = zlen (fsdrv s) -> 0 <= ffs f -> (forall o, Q o s) -> wp (write_error f) Q s.
Proof.
  intros Hn Hfs HQ. unfold write_error. wp_go; try apply HQ. apply wp_drv_has; [done..|]. intros b. wp_go. apply HQ.
Qed.

(** A write to a file without pending writes always fails and changes no file: the
    loop over the buffers has nothing to link the new buffer to.  So no file ever gets a
    first pending write. *)
Theorem fcb_write_never_starts {D : FsDrivers} idx offs d f s :
  idx < nfcb s -> zget (fcb s) idx = Some f -> buf f = [] ->
  nfsdrv s = zlen (fsdrv s) -> 0 <= ffs f ->
  wp (fcb_write idx offs d) (fun r s' => r = false /\ fcb s' = fcb s) s.
Proof.
  intros Hidx Hf Hbuf Hn Hfs. unfold fcb_write. fs_go. replace (nfcb s <=? idx) with false by lia. fs_go.
  apply wp_write_error; [done..|]. intros [e|]; [fs_go; done|]. fs_go.
  apply wp_alloc_any. intros [|] l e; cbn [negb]; [|fs_go; done]. fs_go.
  assert (Hrest : forall s', fcb s' = fcb s ->
    wp (l <-- need (drop_covered offs (u64 (offs + zlen d)) (buf f)) ;;
        fcb_mod idx (set_buf l) ;;;
        r <-- place_write offs d [] l ;;
        match r with
        | inr b => ret b
        | inl None => ret false
        | inl (Some l) => fcb_mod idx (set_buf l) ;;; ret true
        end) (fun r s'' => r = false /\ fcb s'' = fcb s) s').
  { intros s' Hs'. rewrite Hbuf. cbn. fs_go.
    eapply (wp_fcb_mod _ _ f); [by rewrite Hs'|]. cbn. fs_go. split; [done|].
    rewrite Hs'. apply zset_id. rewrite Hf. f_equal. rewrite <- Hbuf. clear; by destruct f. }
  destruct (zlen d =? 0); fs_go; cbn [negb]; [fs_go; done|].
  apply wp_alloc_any. intros [|] l' e'; cbn [negb]; [|fs_go; done].
  by apply Hrest.
Qed.

(** ** Instances *)

Definition PATH_ROOT : list Z := [47].
Definition PATH_A : list Z := [47; 97].
Definition held (n : Z) (p : list Z) : fcb_t := set_nopen n (set_abspath (Some p) zero_fcb).
Definition files (l : list fcb_t) : fs_state := set_fcb l (set_nfcb (zlen l) init_fs).

Lemma all_entries (P : fcb_t -> Prop) l :
  Forall P l -> forall k f, zget (fcb (files l)) k = Some f -> P f.
Proof. intros H k f Hf. rewrite List.Forall_forall in H. by apply H, (zget_In _ k). Qed.

Lemma fcb_add_get_witness :
  exists i t s', (i <-- fcb_add PATH_A 0 ;; t <-- get ;; j <-- fcb_get (Some PATH_A) ;; k <-- fcb_add PATH_A 1 ;; ret (i, j, k, t))
    (files [held 1 PATH_ROOT]) = Ret (i, i, i, t) s' /\ s' = t.
Proof.
  assert (H : table_wf (files [held 1 PATH_ROOT])) by (by split).
  pose proof (fcb_add_get PATH_A 0 1 (files [held 1 PATH_ROOT]) H ltac:(done) ltac:(done) ltac:(done)) as Hw.
  apply wp_run in Hw as ([[[i j] k] t]&s'&Hr&(<-&<-&->&_)).
  - exists i, t, t. split; [exact Hr|reflexivity].
  - apply (all_entries (fun f => with_slash PATH_A <> None -> abspath f <> with_slash PATH_A)).
    repeat constructor. by vm_compute.
Defined.

(** With the directory "/a/" registered, "/a" gets an entry of its own, and [fcb_get] answers
    that of the directory. *)
Definition PATH_A_ : list Z := [47; 97; 47].
Theorem directory_shadows_file :
  exists t s', (i <-- fcb_add PATH_A FCB_TYPE_PIPE ;; t <-- get ;; j <-- fcb_get (Some PATH_A) ;; ret (i, j, t))
    (files [held 1 PATH_ROOT; held 1 PATH_A_]) = Ret (2, 1, t) s' /\
    abspath <$> zget (fcb t) 2 = Some (Some PATH_A) /\ abspath <$> zget (fcb t) 1 = Some (Some PATH_A_).
Proof. eexists _, _. split; [vm_compute; reflexivity|]. by split. Qed.

Lemma fcb_del_counts_witness :
  exists s', fcb_del 1 1 (files [held 1 PATH_ROOT; held 1 PATH_A]) = Ret tt s' /\ nfcb s' = 1.
Proof.
  assert (H : table_wf (files [held 1 PATH_ROOT; held 1 PATH_A])) by (by split).
  pose proof (fcb_del_counts 0 1 (held 1 PATH_A) _ H ltac:(done) ltac:(done) ltac:(done) ltac:(done)) as Hw.
  apply wp_run in Hw as ([]&s'&Hr&_). vm_compute in Hr. eexists. split; [vm_compute; reflexivity|done].
Defined.

Lemma fcb_free_never_ends_witness : fcb_free 50 (files [zero_fcb; held 1 PATH_A]) = Loop.
Proof.
  apply (fcb_free_never_ends 50 0 1). split; [by split|]. split; [lia|].
  split; [by exists zero_fcb|]. split; [by exists (held 1 PATH_A)|]. apply (all_entries (fun f => unionlist f = None /\ 0 <= nopen f)). repeat constructor; done.
Defined.

#[export] Instance no_drivers : FsDrivers :=
  {| drv_detect := fun _ _ _ => ret false; drv_read := fun _ _ _ _ _ _ => ret (None, 0);
     drv_writetrb := fun _ _ _ => ret tt; drv_write := fun _ _ _ _ _ => ret false;
     drv_writetre := fun _ _ _ => ret tt; drv_stat := fun _ _ _ => ret false;
     drv_getdirent := fun _ _ _ => ret 0; drv_checkfs := fun _ _ => ret false;
     drv_locate := fun _ _ _ _ => ret (2, zero_loc); drv_resizefs := fun _ _ => ret tt |}.

Lemma fcb_write_never_starts_witness :
  exists s', fcb_write 0 10 [1; 2] (files [held 1 PATH_A]) = Ret false s' /\ fcb s' = [held 1 PATH_A].
Proof.
  pose proof (fcb_write_never_starts 0 10 [1; 2] (held 1 PATH_A) (files [held 1 PATH_A])
    ltac:(done) ltac:(done) ltac:(done) ltac:(done) ltac:(done)) as Hw.
  apply wp_run in Hw as (r&s1&Hr&->&Hf). exists s1. split; [exact Hr|exact Hf].
Defined.
