(* ===== verification/Pipe.v ===== *)
(** Pipes, src/fs/pipe.c. *)
From Stdlib Require Import ZArith Lia List.
From stdpp Require Import base option list gmap.
From S2P Require Import Prelude CoreState FsState.
Import FsState.

Module Pipe.

Section Ops.
Context {E : FsEnv}.

(** The first entry nobody has open. *)
Fixpoint find_unused (l : list pipe_t) (i : Z) : Z :=
  match l with
  | [] => m1U
  | p :: l' => if p_nopen p =? 0 then i else find_unused l' (i + 1)
  end.

Definition pipe_add (fid pid : Z) : M fs_state Z :=
  s <-- get ;;
  let j := find_unused (take (Z.to_nat (npipe s)) (pipe s)) 0 in
  i <-- (if j =? m1U then
           modify (set_npipe (npipe s + 1)) ;;;
           ok <-- alloc_ok ;;
           if (ok : bool)
           then modify (fun s => set_pipe (resize zero_pipe (npipe s) (pipe s)) s) ;;; ret (Some (npipe s))
           else modify (set_pipe []) ;;; ret None
         else ret (Some j)) ;;
  match i with
  | None => ret m1U
  | Some i =>
      pipe_mod i (fun p => set_p_owner (getuidp pid) (set_p_rd 0 (set_p_size 0
                             (set_p_reader 0 (set_p_fid fid p))))) ;;;
      ret i
  end.

(** [while(idx > 0 && !pipe[idx-1].nopen) idx--;] over the first [n] entries. *)
Fixpoint trim (l : list pipe_t) (n : nat) : nat :=
  match n with
  | O => O
  | S n' => match l !! n' with
            | Some p => if p_nopen p =? 0 then trim l n' else n
            | None => n
            end
  end.

Definition pipe_shrink : M fs_state unit :=
  s <-- get ;;
  let k := Z.of_nat (trim (pipe s) (Z.to_nat (npipe s))) in
  when (negb (k =? npipe s)) (put (set_pipe (resize zero_pipe k (pipe s)) (set_npipe k s))).

Definition pipe_del (idx : Z) : M fs_state unit :=
  n <-- gets npipe ;;
  if n <=? idx then ret tt else
  p <-- pipe_at idx ;;
  when (0 <? p_nopen p) (pipe_mod idx (set_p_nopen (p_nopen p - 1))) ;;;
  p <-- pipe_at idx ;;
  when (p_nopen p =? 0)
   (pipe_mod idx (fun p => set_p_rd 0 (set_p_size 0 (set_p_reader 0 (set_p_data None p)))) ;;;
    pipe_shrink).

(** [lockid(pid, &p->reader)]: compare and exchange against 0. *)
Definition lockid (pid : Z) (p : pipe_t) : pipe_t :=
  if p_reader p =? 0 then set_p_reader pid p else p.

(** The fix-ups of [pipe_read] before anything is read: the mark of a direct copy, the
    read position, and a buffer that was read to its end. *)
Definition settle (p : pipe_t) : pipe_t :=
  let p := if p_size p =? m1U then set_p_size 0 p else p in
  let p := if p_size p <? p_rd p then set_p_rd (p_size p) p else p in
  match p_data p with
  | Some _ => if p_rd p =? p_size p then set_p_data None (set_p_rd 0 (set_p_size 0 p)) else p
  | None => p
  end.

Definition pipe_read (idx ptr s pid : Z) : M fs_state Z :=
  n <-- gets npipe ;;
  if n <=? idx then seterr EPIPE ;;; ret 0 else
  pipe_mod idx (lockid pid) ;;;
  p <-- pipe_at idx ;;
  if negb (p_reader p =? pid) then seterr EACCES ;;; ret 0 else
  pipe_mod idx settle ;;;
  now <-- gets time ;;
  pipe_mod idx (set_p_rdtime now) ;;;
  p <-- pipe_at idx ;;
  match p_data p with
  | Some data =>
      if u64 (p_rd p + s) <? p_size p then
        d <-- need (slice data (p_rd p) s) ;;
        copy_out pid ptr d ;;;
        pipe_mod idx (fun q => set_p_reader 0 (set_p_rd (p_rd p + s) q)) ;;;
        ret s
      else
        let s := p_size p - p_rd p in
        d <-- need (slice data (p_rd p) s) ;;
        copy_out pid ptr d ;;;
        pipe_mod idx (fun q => set_p_reader 0 (set_p_data None (set_p_rd 0 (set_p_size 0 q)))) ;;;
        ret s
  | None => modify (set_ackdelayed true) ;;; ret 0
  end.

(** The context of a task among those linked from [p], without adding one. *)
Definition ctx_find (fuel : nat) (pid p : Z) : M fs_state Z :=
  iter fuel (fun p => if p =? 0 then ret (inr 0) else
                      t <-- ctx_at p ;;
                      if t_pid t =? pid then ret (inr p) else ret (inl (t_next t))) p.

(** The context of the reader a pipe is locked by, if it waits in a read; 0 if not. *)
Definition blocked_reader (fuel : nat) (reader : Z) : M fs_state Z :=
  if reader =? 0 then ret 0 else
  h <-- gets taskctx ;;
  p <-- need (zget h (Z.land reader 0xFF)) ;;
  p <-- ctx_find fuel reader p ;;
  if p =? 0 then ret 0 else
  t <-- ctx_at p ;;
  ret (if EVT_FUNC (msg_evt t) =? SYS_fread then p else 0).

(** The answer to a waiting reader. *)
Definition ack (tc : Z) : M fs_state unit :=
  t <-- ctx_at tc ;;
  j <-- gets errn ;;
  mq_send (t_pid t) EVT_ack [0; 0; j; 0; 0; 0; msg_serial t] ;;;
  ctx_mod tc (set_msg_evt 0).

(** [d] are the bytes at the sender's pointer. *)
Definition pipe_write (fuel : nat) (idx : Z) (d : list Z) : M fs_state bool :=
  n <-- gets npipe ;;
  if n <=? idx then seterr EPIPE ;;; ret false else
  now <-- gets time ;;
  pipe_mod idx (set_p_wrtime now) ;;;
  p <-- pipe_at idx ;;
  tc <-- blocked_reader fuel (p_reader p) ;;
  direct <-- (if tc =? 0 then ret None else
                t <-- ctx_at tc ;;
                ret (if (zlen d <=? msg_size t) && match p_data p with None => true | Some _ => false end &&
                        (p_size p =? 0) && negb (p_size p =? m1U)
                     then Some t else None)) ;;
  match direct with
  | Some t =>
      copy_out (p_reader p) (msg_ptr t) d ;;;
      pipe_mod idx (set_p_size m1U) ;;;
      ack tc ;;; ret true
  | None =>
      when (p_size p =? m1U) (pipe_mod idx (set_p_size 0)) ;;;
      p <-- pipe_at idx ;;
      let size := u64 (p_size p + zlen d) in
      (* realloc to no bytes answers the null pointer *)
      ok <-- (if size =? 0 then ret false else alloc_ok) ;;
      if negb ok then pipe_mod idx (set_p_data None) ;;; ret false else
      data <-- need (overlay (resize 0 size (default [] (p_data p))) (p_size p) d) ;;
      pipe_mod idx (fun q => set_p_size size (set_p_data (Some data) q)) ;;;
      when (negb (tc =? 0))
       (t <-- ctx_at tc ;;
        pipe_read idx (msg_ptr t) (msg_size t) (t_pid t) ;;;
        ack tc) ;;;
      ret true
  end.

Definition pipe_stat (idx mode : Z) : M fs_state bool :=
  n <-- gets npipe ;;
  if n <=? idx then ret false else
  p <-- pipe_at idx ;;
  let m := Z.lor (Z.lor (Z.lor (Z.land mode S_IMODE) S_IFIFO) (if has mode OF_MODE_TTY then S_IFTTY else 0))
                 (if has mode O_WRITE then O_APPEND else 0) in
  modify (set_st (mk_stat (p_fid p) m1U m [97; 112; 112; 108]
                          ([112; 105; 112; 101] ++ List.repeat 0 40)
                          (p_nopen p) (p_owner p) 0 1 (p_size p) (p_rdtime p) (p_wrtime p)
                          (Z.max (p_rdtime p) (p_wrtime p)))) ;;;
  ret true.

End Ops.
End Pipe.
