(* ===== verification/PipeFacts.v ===== *)
(** Correctness of Pipe.v: a pipe is a queue of bytes, and what a write does to a task that
    waits in a read. *)
From Stdlib Require Import ZArith Lia List.
From stdpp Require Import base option list gmap.
From S2P Require Import Prelude CoreState FsState FsFacts Pipe.
Import FsState Pipe.

(** ** The bytes in a pipe *)

(** What was written and not yet read. *)
Definition pending (p : pipe_t) : list Z :=
  match p_data p with Some d => drop (Z.to_nat (p_rd p)) d | None => [] end.

(** The buffer has the size the entry says and the read position is inside; a free buffer
    has neither. *)
Definition pipe_wf (p : pipe_t) : Prop :=
  match p_data p with
  | Some d => p_size p = zlen d /\ 0 <= p_rd p <= p_size p /\ p_size p < m1U
  | None => p_size p = 0 /\ p_rd p = 0
  end.

(** A pipe in a state, unlocked. *)
Definition idle_pipe (idx : Z) (p : pipe_t) (s : fs_state) : Prop :=
  idx < npipe s /\ zget (pipe s) idx = Some p /\ p_reader p = 0 /\ pipe_wf p.

Lemma zlen_pending p : pipe_wf p -> zlen (pending p) = p_size p - p_rd p.
Proof.
  unfold pipe_wf, pending. destruct (p_data p) as [d|]; [|intros [-> ->]; done].
  intros (->&?&?). unfold zlen in *. rewrite length_drop. lia.
Qed.

(** The fix-ups at the start of a read do not change what is pending. *)
Lemma settle_pending p : pipe_wf p -> pending (settle p) = pending p /\
  p_reader (settle p) = p_reader p /\ pipe_wf (settle p) /\ p_size (settle p) <= p_size p /\
  (p_data (settle p) = None <-> pending p = []).
Proof.
  intros Hwf. pose proof (zlen_pending p Hwf) as Hlen. unfold pipe_wf in Hwf.
  assert (Hmark : (p_size p =? m1U) = false).
  { destruct (p_data p); destruct Hwf as [? Hr]; [|unfold m1U; lia]. destruct Hr; unfold m1U in *; lia. }
  unfold settle. rewrite Hmark.
  replace (p_size p <? p_rd p) with false by (destruct (p_data p); lia).
  destruct (p_data p) as [d|] eqn:Hd.
  - destruct Hwf as (Hs&Hr&Hb). destruct (Z.eqb_spec (p_rd p) (p_size p)) as [He|Hne].
    + assert (pending p = []) as Hp.
      { unfold pending. rewrite Hd. apply drop_ge. unfold zlen in *. lia. }
      rewrite Hp. cbn. pose proof (zlen_nonneg d). split; [done|split; [done|split; [done|split; [lia|done]]]].
    + split; [done|split; [done|split; [by unfold pipe_wf; rewrite Hd|split; [lia|]]]].
      rewrite Hd. split; [done|]. intros Hp. rewrite Hp in Hlen. unfold zlen in Hlen. simpl in Hlen. lia.
  - split; [done|split; [done|split; [by unfold pipe_wf; rewrite Hd|split; [lia|]]]].
    unfold pending. by rewrite Hd.
Qed.

Section Env.
Context {E : FsEnv}.

(** ** One write and one read *)

(** The state after a step on pipe [idx]: its entry and the events. *)
Definition after (idx : Z) (p : pipe_t) (evs : list fs_event) (s s' : fs_state) : Prop :=
  idle_pipe idx p s' /\ events s' = events s ++ evs /\ allocs s' = allocs s.

(** Bytes are appended. *)
Lemma wp_write_idle fuel idx p d s :
  idle_pipe idx p s -> allocs s = [] -> d <> [] -> p_size p + zlen d < m1U ->
  wp (pipe_write fuel idx d)
     (fun r s' => r = true /\ exists p', after idx p' [] s s' /\ pending p' = pending p ++ d /\
        p_size p' = p_size p + zlen d) s.
Proof.
  intros (Hidx&Hp&Hr&Hwf) Ha Hd Hb. unfold pipe_write.
  assert (0 < zlen d) as Hd1 by (destruct d; [done|rewrite zlen_cons; pose proof (zlen_nonneg d); lia]).
  pose proof (zget_Some_lt _ _ _ Hp) as Hlt.
  assert (Hs0 : 0 <= p_size p) by (unfold pipe_wf in Hwf; destruct (p_data p); lia).
  fs_go. replace (npipe s <=? idx) with false by lia. fs_go.
  set (p1 := set_p_wrtime (time s) p).
  eapply wp_pipe_at; [by apply put_pipe_get|]. fs_go.
  unfold blocked_reader. change (p_reader p1) with (p_reader p). rewrite Hr, Z.eqb_refl.
  fs_go. rewrite Z.eqb_refl. fs_go.
  { exfalso. b2p. change (p_size p1) with (p_size p) in *. unfold pipe_wf in Hwf.
    destruct (p_data p); unfold m1U in *; lia. }
  eapply wp_pipe_at; [by apply put_pipe_get|]. fs_go.
  change (p_size p1) with (p_size p). change (p_data p1) with (p_data p).
  assert (Hsz : u64 (p_size p + zlen d) = p_size p + zlen d)
    by (apply u64_small; unfold m1U in *; lia).
  rewrite Hsz. replace (p_size p + zlen d =? 0) with false by lia. fs_go. cbn [negb]. fs_go.
  assert (Hdat : zlen (default [] (p_data p)) = p_size p)
    by (unfold pipe_wf in Hwf; destruct (p_data p); simpl; unfold zlen in *; simpl; lia).
  rewrite <- Hdat, overlay_append, Hdat.
  eapply wp_need; [done|]. fs_go.
  eapply wp_pipe_mod; [by apply put_pipe_get|]. rewrite put_put_pipe. fs_go. { done. }
  split; [done|]. eexists. split; [split; [split; [done|split; [|split]]|]|]; cbn.
  - by apply put_pipe_get.
  - done.
  - unfold pipe_wf in *. cbn. rewrite zlen_app, Hdat. destruct (p_data p); lia.
  - by rewrite app_nil_r.
  - split; [|done]. unfold pending. cbn. unfold pipe_wf in Hwf.
    destruct (p_data p) as [d0|]; simpl.
    + rewrite drop_app_le by (unfold zlen in *; lia). done.
    + destruct Hwf as [_ ->]. done.
Qed.

(** Bytes are taken off the front and given to the reader, and the pipe is unlocked. *)
Lemma wp_read_idle idx p ptr n pid s :
  idle_pipe idx p s -> pid <> 0 -> 0 <= n < 2 ^ 63 -> pending p <> [] ->
  wp (pipe_read idx ptr n pid)
     (fun r s' => r = zlen (take (Z.to_nat n) (pending p)) /\ exists p',
        after idx p' [EvCopy (if s64 ptr <? 0 then 0 else pid) ptr (take (Z.to_nat n) (pending p))] s s' /\
        pending p' = drop (Z.to_nat n) (pending p) /\ p_size p' <= p_size p) s.
Proof.
  intros (Hidx&Hp&Hr&Hwf) Hpid Hn Hpend. unfold pipe_read.
  pose proof (zget_Some_lt _ _ _ Hp) as Hlt.
  fs_go. replace (npipe s <=? idx) with false by lia. fs_go.
  eapply wp_pipe_at; [by apply put_pipe_get|]. fs_go.
  unfold lockid. rewrite Hr, Z.eqb_refl.
  set (p0 := set_p_reader pid p). change (p_reader p0) with pid. rewrite Z.eqb_refl. cbn [negb]. fs_go.
  assert (Hwf0 : pipe_wf p0) by exact Hwf.
  eapply wp_pipe_mod; [by apply put_pipe_get|]. rewrite put_put_pipe. fs_go.
  destruct (settle_pending p0 Hwf0) as (Hpe&Hre&Hwf1&Hle&Hnone). change (pending p0) with (pending p) in *. change (p_size p0) with (p_size p) in Hle.
  set (p1 := settle p0) in *.
  eapply wp_pipe_mod; [by apply put_pipe_get|]. rewrite put_put_pipe. fs_go.
  set (p2 := set_p_rdtime _ p1).
  eapply wp_pipe_at; [by apply put_pipe_get|]. fs_go. change (p_data p2) with (p_data p1).
  destruct (p_data p1) as [d|] eqn:Hd; [|by destruct Hpend; apply Hnone].
  change (p_rd p2) with (p_rd p1). change (p_size p2) with (p_size p1).
  unfold pipe_wf in Hwf1. rewrite Hd in Hwf1. destruct Hwf1 as (Hs&Hrd&Hb).
  assert (Hpd : pending p = drop (Z.to_nat (p_rd p1)) d) by (rewrite <- Hpe; unfold pending; by rewrite Hd).
  rewrite u64_small by (unfold m1U in *; lia).
  assert (Hl : zlen (pending p) = zlen d - p_rd p1) by (rewrite Hpd; unfold zlen; rewrite length_drop; unfold zlen in *; lia).
  assert (Hlt2 : 0 <= idx < zlen (pipe (put_pipe idx p2 s))) by (by rewrite zlen_put_pipe).
  destruct (Z.ltb_spec (p_rd p1 + n) (p_size p1)) as [Hless|Hmore].
  - rewrite slice_Some by lia. fs_go. eapply wp_need; [done|]. rewrite <- Hpd. fs_go.
    eapply (wp_pipe_mod _ _ p2); [by apply put_pipe_get|]. fs_go.
    split; [rewrite zlen_take; lia|]. eexists. split; [split; [split; [done|split; [by apply put_pipe_get|]]|done]|].
    + split; [done|]. unfold pipe_wf. cbn. rewrite Hd. lia.
    + split; [|done]. unfold pending at 1. cbn. rewrite Hd, Hpd, drop_drop. f_equal. lia.
  - rewrite slice_Some by lia. fs_go. eapply wp_need; [done|]. rewrite <- Hpd. fs_go.
    eapply (wp_pipe_mod _ _ p2); [by apply put_pipe_get|]. fs_go.
    assert (Hall : forall k, zlen (pending p) <= k -> take (Z.to_nat k) (pending p) = pending p)
      by (intros; apply take_ge; unfold zlen in *; lia).
    rewrite !Hall by lia.
    split; [lia|]. eexists. split; [split; [split; [done|split; [by apply put_pipe_get|by split]]|done]|].
    split; [|cbn; lia]. unfold pending at 1. cbn. symmetry. apply drop_ge. unfold zlen in *. lia.
Qed.

(** ** A pipe is a queue *)

(** A client's operations: writing bytes, and reading a number of bytes to a buffer. *)
Inductive op : Type := W (d : list Z) | R (ptr n : Z).

(** What they do to a pipe that nobody waits on. *)
Fixpoint run (fuel : nat) (idx pid : Z) (ops : list op) : M fs_state unit :=
  match ops with
  | [] => ret tt
  | W d :: ops' => pipe_write fuel idx d ;;; run fuel idx pid ops'
  | R ptr n :: ops' => pipe_read idx ptr n pid ;;; run fuel idx pid ops'
  end.

(** The same on a queue of bytes: the bytes each read gives, and the queue left.  A read
    of an empty queue, which blocks, and a write of nothing, which fails, are outside. *)
Fixpoint fifo (q : list Z) (ops : list op) : option (list (Z * list Z) * list Z) :=
  match ops with
  | [] => Some ([], q)
  | W d :: ops' => match d with [] => None | _ => fifo (q ++ d) ops' end
  | R ptr n :: ops' =>
      match q with
      | [] => None
      | _ => '(outs, q') ← fifo (drop (Z.to_nat n) q) ops'; Some ((ptr, take (Z.to_nat n) q) :: outs, q')
      end
  end.

Definition written (ops : list op) : Z :=
  foldr (fun o n => match o with W d => zlen d + n | R _ _ => n end) 0 ops.
Definition sizes_ok (ops : list op) : Prop :=
  Forall (fun o => match o with W _ => True | R _ n => 0 <= n < 2 ^ 63 end) ops.
Definition given (pid : Z) (out : Z * list Z) : fs_event :=
  EvCopy (if s64 (fst out) <? 0 then 0 else pid) (fst out) (snd out).

Lemma written_nonneg ops : 0 <= written ops.
Proof. induction ops as [|[d|ptr n] ops IH]; simpl; [lia|pose proof (zlen_nonneg d); lia|done]. Qed.

(** C36: a pipe nobody is blocked on behaves as a queue of bytes: for any sequence of
    writes and reads that the queue [fifo] accepts, the code gives the readers exactly the
    bytes the queue gives, in the order they were written, and holds the same rest; the
    buffer must not reach the 4G mark. *)
Theorem pipe_fifo fuel idx pid ops p s outs q :
  idle_pipe idx p s -> allocs s = [] -> pid <> 0 -> sizes_ok ops ->
  p_size p + written ops < m1U -> fifo (pending p) ops = Some (outs, q) ->
  wp (run fuel idx pid ops)
     (fun _ s' => exists p', idle_pipe idx p' s' /\ pending p' = q /\
        events s' = events s ++ map (given pid) outs) s.
Proof.
  intros Hi Ha Hpid. revert p s outs q Hi Ha.
  induction ops as [|[d|ptr n] ops IH]; intros p s outs q Hi Ha Hok Hb Hq; simpl in *.
  - apply wp_ret. injection Hq as <- <-. exists p. by rewrite app_nil_r.
  - apply Forall_cons in Hok as [_ Hok]. pose proof (written_nonneg ops).
    assert (d <> []) by (by destruct d). replace (match d with [] => _ | _ => _ end) with (fifo (pending p ++ d) ops) in Hq by (by destruct d).
    apply wp_bind. eapply wp_mono; [apply wp_write_idle; try done; lia|].
    intros r s' (_&p'&(Hi'&He&Ha')&Hp&Hsz). rewrite <- Hp in Hq.
    eapply wp_mono; [eapply (IH p'); try done; [by rewrite Ha'|lia]|].
    intros _ s'' (p''&?&?&Hev). exists p''. by rewrite Hev, He, app_nil_r.
  - apply Forall_cons in Hok as [Hn Hok].
    assert (Hpend : pending p <> []) by (by intros Heq; rewrite Heq in Hq).
    destruct (fifo (drop (Z.to_nat n) (pending p)) ops) as [[o q0]|] eqn:Hf;
      [|by destruct (pending p)].
    assert (Hq' : outs = (ptr, take (Z.to_nat n) (pending p)) :: o /\ q = q0)
      by (destruct (pending p); simpl in Hq; [done|]; by injection Hq as <- <-).
    destruct Hq' as [-> ->].
    apply wp_bind. eapply wp_mono; [by apply wp_read_idle|].
    intros r s' (_&p'&(Hi'&He&Ha')&Hp&Hsz). rewrite <- Hp in Hf.
    eapply wp_mono; [eapply (IH p'); try done; [by rewrite Ha'|lia]|].
    intros _ s'' (p''&?&?&Hev). exists p''. rewrite Hev, He, <- app_assoc. done.
Qed.

(** ** A waiting reader *)

(** The contexts linked from address [p]. *)
Fixpoint linked (m : gmap Z taskctx_t) (p : Z) (l : list (Z * taskctx_t)) : Prop :=
  match l with
  | [] => p = 0
  | (a, t) :: l' => p = a /\ a <> 0 /\ m !! a = Some t /\ linked m (t_next t) l'
  end.

Lemma wp_ctx_find fuel pid p l s :
  linked (ctxs s) p l -> (length l < fuel)%nat ->
  wp (ctx_find fuel pid p)
     (fun r s' => s' = s /\
        r = match List.find (fun at_ => t_pid (snd at_) =? pid) l with Some (a, _) => a | None => 0 end) s.
Proof.
  revert fuel p. induction l as [|[a t] l IH]; intros fuel p Hl Hf; (destruct fuel; [simpl in Hf; lia|]);
    unfold ctx_find, iter; fold (@iter fs_state Z Z); simpl in Hl.
  - subst p. fs_go. done.
  - destruct Hl as (->&Ha&Ht&Hl). replace (a =? 0) with false by lia. fs_go. simpl.
    destruct (t_pid t =? pid); fs_go; [done|]. apply IH; [done|]. simpl in Hf. lia.
Qed.

(** Bytes written to an empty pipe whose reader waits in a read large enough go
    straight to the reader's buffer; its suspended message is cleared and it is answered,
    but with 0 as the number of bytes read, whatever was copied. *)
Theorem pipe_write_direct fuel idx d p h l a t s :
  idx < npipe s -> zget (pipe s) idx = Some p -> p_data p = None -> p_size p = 0 ->
  p_reader p <> 0 -> zget (taskctx s) (Z.land (p_reader p) 0xFF) = Some h -> linked (ctxs s) h l -> (length l < fuel)%nat ->
  List.find (fun at_ => t_pid (snd at_) =? p_reader p) l = Some (a, t) ->
  EVT_FUNC (msg_evt t) = SYS_fread -> zlen d <= msg_size t ->
  wp (pipe_write fuel idx d)
     (fun r s' => r = true /\
        (exists e, events s' = events s ++ [EvCopy (if s64 (msg_ptr t) <? 0 then 0 else t_pid t) (msg_ptr t) d;
                                            EvSend (t_pid t) EVT_ack [0; 0; e; 0; 0; 0; msg_serial t]]) /\
        ctxs s' = <[a := set_msg_evt 0 t]> (ctxs s) /\
        (exists p', zget (pipe s') idx = Some p' /\ p_size p' = m1U /\ p_reader p' = p_reader p)) s.
Proof.
  intros Hidx Hp Hdata Hsize Hrd Hh Hl Hf Hfind Hevt Hd. unfold pipe_write.
  pose proof (zget_Some_lt _ _ _ Hp) as Hlt.
  assert (Hmem : In (a, t) l /\ t_pid t = p_reader p)
    by (apply List.find_some in Hfind as [? H%Z.eqb_eq]; done).
  destruct Hmem as [Hin Hpid].
  assert (Hat : a <> 0 /\ ctxs s !! a = Some t).
  { clear - Hl Hin. revert h Hl. induction l as [|[b u] l IH]; intros h Hl; [done|].
    destruct Hl as (->&?&?&?). destruct Hin as [[= -> ->]|Hin]; [done|by eapply IH]. }
  destruct Hat as [Ha0 Hat].
  fs_go. replace (npipe s <=? idx) with false by lia. fs_go.
  set (p1 := set_p_wrtime (time s) p).
  eapply wp_pipe_at; [by apply put_pipe_get|]. fs_go.
  unfold blocked_reader. change (p_reader p1) with (p_reader p).
  replace (p_reader p =? 0) with false by lia. fs_go. eapply wp_need; [exact Hh|]. fs_go.
  eapply wp_mono; [apply (wp_ctx_find _ _ _ l); done|]. intros r ? [-> ->]. rewrite Hfind. fs_go.
  replace (a =? 0) with false by lia. fs_go.
  rewrite Hevt, Z.eqb_refl. replace (a =? 0) with false by lia. fs_go.
  change (p_data p1) with (p_data p). change (p_size p1) with (p_size p). rewrite Hdata, Hsize.
  replace (zlen d <=? msg_size t) with true by lia. cbn. fs_go.
  eapply (wp_pipe_mod _ _ p1); [by apply put_pipe_get|]. fs_go. unfold ack. fs_go.
  split; [done|]. split; [eexists; cbn; rewrite <- app_assoc, Hpid; done|]. split; [done|].
  eexists. split; [apply zget_zset_eq; cbn; by rewrite zlen_zset|done].
Qed.

End Env.

(** ** Instances *)

Definition one_pipe : fs_state := set_pipe [zero_pipe] (set_npipe 1 init_fs).

Lemma pipe_fifo_witness :
  exists s', run 9 0 5 [W [1; 2; 3]; R 4096 2; W [4]; R 8192 9] one_pipe = Ret tt s' /\
    events s' = [EvCopy 5 4096 [1; 2]; EvCopy 5 8192 [3; 4]].
Proof.
  assert (H : wp (run 9 0 5 [W [1; 2; 3]; R 4096 2; W [4]; R 8192 9])
    (fun _ s' => exists p', idle_pipe 0 p' s' /\ pending p' = [] /\
        events s' = events one_pipe ++ map (given 5) [(4096, [1; 2]); (8192, [3; 4])]) one_pipe).
  { apply (pipe_fifo 9 0 5 _ zero_pipe); [done|done|done|repeat constructor; lia|done|done]. }
  apply wp_run in H as ([]&s'&Hs&p'&_&_&He). exists s'. done.
Defined.

(** Task 5 waits for 8 bytes. *)
Definition reader : taskctx_t := mk_ctx 5 0 0 0 0 0 0 None (mk_msg SYS_fread 4096 8 0 0 0 0 77 []) 0.
Definition waiting : fs_state :=
  set_pipe [set_p_reader 5 zero_pipe] (set_npipe 1
    (set_ctxs {[1 := reader]} (set_taskctx (zset (taskctx init_fs) 5 1) init_fs))).

Lemma pipe_write_direct_witness :
  exists s' e, pipe_write 9 0 [1; 2; 3] waiting = Ret true s' /\
    events s' = [EvCopy 5 4096 [1; 2; 3]; EvSend 5 EVT_ack [0; 0; e; 0; 0; 0; 77]].
Proof.
  pose proof (pipe_write_direct 9 0 [1; 2; 3] (set_p_reader 5 zero_pipe) 1 [(1, reader)] 1 reader waiting) as H.
  assert (Hw : wp (pipe_write 9 0 [1; 2; 3]) (fun r s' => r = true /\ exists e,
    events s' = [EvCopy 5 4096 [1; 2; 3]; EvSend 5 EVT_ack [0; 0; e; 0; 0; 0; 77]]) waiting).
  { eapply wp_mono; [apply H; first [done | by repeat split | simpl; lia | by vm_compute]|].
    intros r s' (?&(e&?)&_). split; [done|]. by exists e. }
  apply wp_run in Hw as (r&s'&Hs&->&e&He). exists s', e. done.
Defined.
