(* ===== verification/Devfs.v ===== *)
(** The list of devices, src/fs/devfs.c: registration, the order of last use, and the
    directory entries of /dev. *)
From Stdlib Require Import ZArith Lia List.
From stdpp Require Import base option list gmap.
From S2P Require Import Prelude CoreState FsState Qsort Fcb.
Import FsState.

Module Devfs.

(** "/dev/" *)
Definition DEVPATH : list Z := [47; 100; 101; 118; 47].
(** sizeof(devfs_t): six 64 bit members *)
Definition SIZEOF_DEV : Z := 48.

(** The difference at the first place where two strings differ, as [strcmp] answers it;
    characters are signed. *)
Fixpoint strdiff (a b : list Z) : Z :=
  match a, b with
  | [], [] => 0
  | [], y :: _ => - sgn 8 y
  | x :: _, [] => sgn 8 x
  | x :: a', y :: b' => if x =? y then strdiff a' b' else sgn 8 x - sgn 8 y
  end.

(** The path of the device at place [i]. *)
Definition dev_path (s : fs_state) (i : Z) : option (list Z) :=
  d ← zget (dev s) i; f ← zget (fcb s) (d_fid d); abspath f.

Definition devfs_cmp (s : fs_state) (a b : Z) : option Z :=
  if a =? m1U then Some 1 else
  if b =? m1U then Some (-1) else
  pb ← dev_path s b; pa ← dev_path s a; Some (strdiff pb pa).

(** [qsort(devidx, ndev, sizeof(uint32_t), devfs_cmp)] *)
Definition sort_devidx (fuel : nat) : M fs_state unit :=
  s <-- get ;;
  match Qsort.qsort (devfs_cmp s) fuel 0 (ndev s) (devidx s) with
  | Ret _ l => put (set_devidx l s)
  | Exit c _ => stop c
  | UB => ub
  | Loop => loop
  end.

(** The place, from [i] on, of the device with the name. *)
Fixpoint find_dev (name : list Z) (l : list devfs_t) (i : Z) : M fs_state (option Z) :=
  match l with
  | [] => ret None
  | d :: l' =>
      f <-- fcb_at (d_fid d) ;;
      if streq_null (abspath f) name then ret (Some i) else find_dev name l' (i + 1)
  end.

Definition devfs_add (fuel : nat) (name : list Z) (drivertask device mode blksize blkcnt : Z) : M fs_state Z :=
  let tmp := DEVPATH ++ take 64 name in
  s <-- get ;;
  r <-- find_dev tmp (take (Z.to_nat (ndev s)) (dev s)) 0 ;;
  match r with
  | Some i => ret i
  | None =>
      let i := ndev s in
      modify (set_ndev (ndev s + 1)) ;;;
      fcb_mod 1 (set_filesize (u32 ((i + 1) * SIZEOF_DEV))) ;;;
      ok1 <-- alloc_ok ;;
      modify (fun s => set_dev (if (ok1 : bool) then resize zero_dev (i + 1) (dev s) else []) s) ;;;
      ok2 <-- alloc_ok ;;
      modify (fun s => set_devidx (if (ok2 : bool) then resize 0 (i + 1) (devidx s) else []) s) ;;;
      if negb (ok1 && ok2) then stop 2 else
      f <-- Fcb.fcb_add tmp FCB_TYPE_DEVICE ;;
      fcb_mod f (fun x => set_nopen (nopen x + 1) x) ;;;
      fcb_mod f (fun x => set_storage DEVFCB (set_filesize (u64 (blksize * blkcnt))
                  (set_blksize blksize (set_inode i (set_fmode (Z.land mode O_AMSK) x))))) ;;;
      modify (fun s => set_dev_recent (u64 (dev_recent s + 1)) s) ;;;
      r <-- gets dev_recent ;;
      dev_mod i (fun d => set_recent r (set_device device (set_drivertask drivertask (set_d_fid f d)))) ;;;
      modify (fun s => set_devidx (zset (devidx s) i i) s) ;;;
      sort_devidx fuel ;;;
      ret i
  end.

(** The guard against the overflow of the counter. *)
Definition age (d : devfs_t) : devfs_t :=
  if d_fid d =? m1U then d else set_recent (Z.shiftr (recent d) 48 + 1) d.

Definition devfs_used (idx : Z) : M fs_state unit :=
  s <-- get ;;
  if ndev s <=? idx then ret tt else
  when (0xFFFFFFFFFFFFFFF <? dev_recent s)
   (put (set_dev (map age (take (Z.to_nat (ndev s)) (dev s)) ++ drop (Z.to_nat (ndev s)) (dev s))
           (set_dev_recent (Z.shiftr (dev_recent s) 48) s))) ;;;
  modify (fun s => set_dev_recent (u64 (dev_recent s + 1)) s) ;;;
  r <-- gets dev_recent ;;
  dev_mod idx (set_recent r).

(** The loop of [devfs_lastused]: [k] is the smallest use so far and [l] its device. *)
Fixpoint oldest (all : bool) (ds : list devfs_t) (i k l : Z) : Z * Z :=
  match ds with
  | [] => (k, l)
  | d :: ds' =>
      if negb (d_fid d =? m1U) && (recent d <? k) && (all || negb (recent d =? 0))
      then oldest all ds' (i + 1) (u32 (recent d)) i
      else oldest all ds' (i + 1) k l
  end.

Definition devfs_lastused (all : bool) : M fs_state Z :=
  s <-- get ;;
  let (k, l) := oldest all (take (Z.to_nat (ndev s)) (dev s)) 0 (u32 (dev_recent s)) 0 in
  when (negb all) (dev_mod l (set_recent 0)) ;;;
  ret l.

(** The free places skipped by [devfs_getdirent] from [offs] on: how many, and where it
    stops.  [fuel] is more than the number of devices. *)
Fixpoint skip_free (fuel : nat) (offs s : Z) : M fs_state (Z * Z) :=
  match fuel with
  | O => loop
  | S fuel' =>
      st <-- get ;;
      if negb (offs =? m1U) && (offs <? ndev st) then
        x <-- need (zget (devidx st) offs) ;;
        if x =? m1U then ret (offs, s) else
        d <-- dev_at x ;;
        if d_fid d =? m1U then skip_free fuel' (offs + 1) (s + 1) else ret (offs, s)
      else ret (offs, s)
  end.

Definition devfs_getdirent (offs : Z) : M fs_state Z :=
  st <-- get ;;
  do2 offs n <-- skip_free (S (Z.to_nat (ndev st))) offs 1 ;;
  if ndev st <=? offs then ret 0 else
  x <-- need (zget (devidx st) offs) ;;
  if x =? m1U then ret 0 else
  d <-- dev_at x ;;
  f <-- fcb_at (d_fid d) ;;
  p <-- need (abspath f) ;;
  let nm := drop 5 p in
  modify (fun s => set_dirent (mk_dirent DEVFCB offs ([100; 101; 118] ++ drop 3 (d_icon (dirent s)))
            (filesize f)
            (Z.lor FCB_TYPE_DEVICE (if blksize f <=? 1 then Z.shiftr S_IFCHR 16 else 0))
            (zlen nm) nm) s) ;;;
  ret n.

End Devfs.
