(* ===== verification/Cache.v ===== *)
(** The block cache, src/fs/cache.c: lines of singly linked blocks, most recently used
    first.  The links are followed as the code does, [fuel] bounds the length of a line. *)
From Stdlib Require Import ZArith Lia List.
From stdpp Require Import base option list gmap.
From S2P Require Import Prelude CoreState FsState Devfs.
Import FsState.

Module Cache.

Definition CACHE_FD (x : Z) : Z := Z.land x 0xFFFFFFFFFFFFFFF.
Definition CACHE_PRIO (x : Z) : Z := Z.shiftr x 60.
Definition BLKPRIO_NOTDIRTY : Z := 0.
Definition BLKPRIO_CRIT : Z := 1.
Definition BLKPRIO_DATA : Z := 2.
Definition BLKPRIO_MAPPING : Z := 3.
Definition BLKPRIO_META : Z := 4.

(** [limit] and [lines] are the answers of [env_num("cachelimit", 5, 1, 50)] and
    [env_num("cachelines", 16, 16, 65535)]. *)
Definition cache_init (limit lines : Z) : M fs_state unit :=
  modify (set_cachelimit limit) ;;;
  modify (set_cachelines lines) ;;;
  ok <-- alloc_ok ;;
  modify (set_cache (if (ok : bool) then List.repeat 0 (Z.to_nat lines) else [])) ;;;
  e <-- gets errn ;;
  if negb ok || negb (e =? 0) then stop 2 else modify (set_cache_inflush 0).

(** [lsn%cachelines], the line's head, and a new head for it. *)
Definition line_of (lsn : Z) : M fs_state Z :=
  n <-- gets cachelines ;; if n =? 0 then ub else ret (lsn mod n).
Definition head (j : Z) : M fs_state Z := s <-- get ;; need (zget (cache s) j).
Definition set_head (j p : Z) : M fs_state unit :=
  s <-- get ;; need (zget (cache s) j) ;;; put (set_cache (zset (cache s) j p) s).

(** [CACHE_FD(c->fd) == fd && c->lsn == lsn] *)
Definition holds (fd lsn : Z) (c : cache_t) : bool := (CACHE_FD (c_fd c) =? fd) && (c_lsn c =? lsn).

(** The block [fd], [lsn] among those linked from [p]: the block before it, 0 for none,
    and its own address, 0 when it is not there. *)
Definition search (fuel : nat) (fd lsn p : Z) : M fs_state (Z * Z) :=
  iter fuel (fun lc : Z * Z => let (l, c) := lc in
    if c =? 0 then ret (inr (l, 0)) else
    x <-- cnode_at c ;;
    if holds fd lsn x then ret (inr (l, c)) else ret (inl (c, c_next x))) (0, p).

(** [fd >= nfcb || lsn == -1U || fcb[fd].type != FCB_TYPE_DEVICE] *)
Definition no_device (fd lsn : Z) : M fs_state bool :=
  n <-- gets nfcb ;;
  if (n <=? fd) || (lsn =? m1U) then ret true else
  f <-- fcb_at fd ;; ret (negb (ftype f =? FCB_TYPE_DEVICE)).

(** [if(l) l->next = c->next;] *)
Definition bypass (l c : Z) : M fs_state unit :=
  x <-- cnode_at c ;; when (negb (l =? 0)) (cnode_mod l (set_c_next (c_next x))).

Section Ops.
Context {E : FsEnv}.

Definition cache_getblock (fuel : nat) (fd lsn : Z) : M fs_state (option (list Z)) :=
  j <-- line_of lsn ;;
  bad <-- no_device fd lsn ;;
  if (bad : bool) then ret None else
  h <-- head j ;;
  if h =? 0 then ret None else
  f <-- fcb_at fd ;;
  if filesize f <? u64 (u64 (lsn + 1) * blksize f) then seterr EFAULT ;;; ret None else
  do2 l c <-- search fuel fd lsn h ;;
  if negb (c =? 0) then
    bypass l c ;;;
    h <-- head j ;;
    cnode_mod c (set_c_next h) ;;;
    set_head j c ;;;
    x <-- cnode_at c ;; ret (Some (c_blk x))
  else
    let i := inode f in
    let bs := if (lsn =? 0) && (blksize f <? BUFSIZ) then BUFSIZ else blksize f in
    d <-- dev_at i ;;
    c <-- gets ctx ;;
    tc <-- ctx_at c ;;
    mq_send (drivertask d) DRV_read [device d; lsn; bs; t_pid tc; i] ;;;
    modify (set_ackdelayed true) ;;;
    ret None.

(** [blk] are the bytes at the given pointer. *)
Definition cache_setblock (fuel : nat) (fd lsn : Z) (blk : list Z) (prio : Z) : M fs_state bool :=
  j <-- line_of lsn ;;
  bad <-- no_device fd lsn ;;
  if (bad : bool) then ret false else
  f <-- fcb_at fd ;;
  let bs := blksize f in
  if bs <=? 1 then ret false else
  if filesize f <? u64 (u64 (lsn + 1) * bs) then seterr EFAULT ;;; ret false else
  h <-- head j ;;
  do2 l c <-- search fuel fd lsn h ;;
  nc <-- (if negb (c =? 0) then bypass l c ;;; ret c else
            p <-- new_address ;;
            if p =? 0 then ret 0 else
            ok <-- alloc_ok ;;
            if negb ok then ret 0 else
            modify (fun s => set_cnodes (<[p := mk_cache 0 lsn (List.repeat 0 (Z.to_nat bs)) 0]> (cnodes s)) s) ;;;
            ret p) ;;
  if nc =? 0 then ret false else
  h <-- head j ;;
  cnode_mod nc (set_c_next h) ;;;
  set_head j nc ;;;
  b <-- need (slice blk 0 bs) ;;
  cnode_mod nc (fun c => set_c_blk b (set_c_fd (Z.lor (CACHE_FD fd) (u64 (Z.shiftl (Z.land prio 0xF) 60))) c)) ;;;
  ret true.

(** ** Freeing blocks *)

Definition free_node (c : Z) : M fs_state unit := modify (fun s => set_cnodes (delete c (cnodes s)) s).

(** The array [r] for one line, the last block first, and its capacity; [inr] when it
    cannot grow. *)
Definition collect (fuel : nat) (k p : Z) : M fs_state (list Z * Z + unit) :=
  iter fuel (fun rkc : list Z * Z * Z => let '(r, k, c) := rkc in
    if c =? 0 then ret (inr (inl (r, k))) else
    x <-- cnode_at c ;;
    let r := c :: r in
    if k <=? zlen r + 1 then
      ok <-- alloc_ok ;;
      if (ok : bool) then ret (inl (r, k * 2, c_next x)) else ret (inr (inr tt))
    else ret (inl (r, k, c_next x))) ([], k, p).

(** The blocks of the device in one line are freed, from the last on; it answers their
    number. *)
Fixpoint free_line (fd j : Z) (r : list Z) : M fs_state Z :=
  match r with
  | [] => ret 0
  | c :: r' =>
      x <-- cnode_at c ;;
      if CACHE_FD (c_fd x) =? fd then
        match r' with
        | b :: _ => cnode_mod b (set_c_next (c_next x))
        | [] => set_head j (c_next x)
        end ;;;
        free_node c ;;;
        n <-- free_line fd j r' ;; ret (n + 1)
      else free_line fd j r'
  end.

(** The lines [n - 1] down to 0: [inl] of the count, or [inr] when there is no memory for
    the array. *)
Fixpoint free_lines (fuel n : nat) (fd needed k cnt : Z) : M fs_state (Z + Z) :=
  match n with
  | O => ret (inl cnt)
  | S n' =>
      if (needed =? 0) || (cnt <? needed) then
        let j := Z.of_nat n' in
        h <-- head j ;;
        if h =? 0 then free_lines fuel n' fd needed k cnt else
        r <-- collect fuel k h ;;
        match r with
        | inl (r, k) => c <-- free_line fd j r ;; free_lines fuel n' fd needed k (cnt + c)
        | inr _ => ret (inr cnt)
        end
      else ret (inl cnt)
  end.

(** The code at [failsafe]: one line, then all. *)
Definition failsafe_line (fuel : nat) (fd h cnt : Z) : M fs_state Z :=
  iter fuel (fun lcn : Z * Z * Z => let '(l, c, cnt) := lcn in
    if c =? 0 then ret (inr cnt) else
    x <-- cnode_at c ;;
    do2 c cnt <-- (if CACHE_FD (c_fd x) =? fd then
                     cnode_mod l (set_c_next (c_next x)) ;;;
                     free_node c ;;; ret (c_next x, cnt + 1)
                   else ret (c, cnt)) ;;
    x <-- cnode_at c ;;
    ret (inl (c, c_next x, cnt))) (h, h, cnt).
Fixpoint failsafe (fuel n : nat) (fd needed cnt : Z) : M fs_state Z :=
  match n with
  | O => ret cnt
  | S n' =>
      if (needed =? 0) || (cnt <? needed) then
        h <-- head (Z.of_nat n') ;;
        if h =? 0 then failsafe fuel n' fd needed cnt else
        cnt <-- failsafe_line fuel fd h cnt ;;
        failsafe fuel n' fd needed cnt
      else ret cnt
  end.

Definition cache_freeblocks (fuel : nat) (fd needed : Z) : M fs_state Z :=
  n <-- gets nfcb ;;
  if n <=? fd then ret 0 else
  f <-- fcb_at fd ;;
  if negb (ftype f =? FCB_TYPE_DEVICE) || (blksize f <=? 1) then ret 0 else
  lines <-- gets cachelines ;;
  ok <-- alloc_ok ;;
  r <-- (if (ok : bool) then free_lines fuel (Z.to_nat lines) fd needed 512 0 else ret (inr 0)) ;;
  match r with
  | inl cnt => ret cnt
  | inr cnt => failsafe fuel (Z.to_nat lines) fd needed cnt
  end.

(** ** Writing dirty blocks out *)

(** A walk over the blocks linked from [p]. *)
Definition walk (fuel : nat) (f : cache_t -> M fs_state unit) (p : Z) : M fs_state unit :=
  iter fuel (fun c => if c =? 0 then ret (inr tt) else
                      x <-- cnode_at c ;; f x ;;; ret (inl (c_next x))) p.

Definition flush_block (p : Z) (c : cache_t) : M fs_state unit :=
  when (CACHE_PRIO (c_fd c) =? p)
   (let f := CACHE_FD (c_fd c) in
    x <-- fcb_at f ;;
    let k := inode x in
    d <-- dev_at k ;;
    send (drivertask d) (Z.lor DRV_write MSG_PTRDATA) (EvSendBuf (drivertask d) (Z.lor DRV_write MSG_PTRDATA) (c_blk c)
            [blksize x; device d; f; c_lsn c; k]) ;;;
    dev_mod k (fun d => set_d_total (u64 (d_total d + 1)) d) ;;;
    modify (fun s => set_cache_inflush (u64 (cache_inflush s + 1)) s)).

Fixpoint flush_lines (fuel : nat) (p : Z) (ls : list Z) : M fs_state unit :=
  match ls with
  | [] => ret tt
  | i :: ls' => h <-- head i ;; walk fuel (flush_block p) h ;;; flush_lines fuel p ls'
  end.

(** The lines, in order. *)
Definition lines (s : fs_state) : list Z := map Z.of_nat (seq 0 (Z.to_nat (cachelines s))).

Fixpoint flush_prios (fuel : nat) (ps : list Z) : M fs_state unit :=
  match ps with
  | [] => ret tt
  | p :: ps' => ls <-- gets lines ;; flush_lines fuel p ls ;;; flush_prios fuel ps'
  end.

Definition cache_flush (fuel : nat) : M fs_state unit :=
  modify (set_cache_inflush 0) ;;;
  flush_prios fuel [BLKPRIO_CRIT; BLKPRIO_DATA; BLKPRIO_MAPPING; BLKPRIO_META].

Definition cache_cleardirty (fuel : nat) (fd lsn : Z) : M fs_state bool :=
  j <-- line_of lsn ;;
  bad <-- no_device fd lsn ;;
  if (bad : bool) then ret false else
  h <-- head j ;;
  if h =? 0 then ret false else
  do2 l c <-- search fuel fd lsn h ;;
  when (negb (c =? 0)) (cnode_mod c (set_c_fd (CACHE_FD fd))) ;;;
  f <-- fcb_at fd ;;
  let i := inode f in
  dev_mod i (fun d => set_d_out (u64 (d_out d + 1)) d) ;;;
  d <-- dev_at i ;;
  when (d_total d <=? d_out d) (dev_mod i (fun d => set_d_total 0 (set_d_out 0 d))) ;;;
  d <-- dev_at i ;;
  mq_send SRV_UI SYS_devprogress [fd; d_out d; d_total d] ;;;
  modify (fun s => set_cache_inflush (u64 (cache_inflush s - 1)) s) ;;;
  n <-- gets cache_inflush ;;
  ret (n =? 0).

(** ** Making room *)

Fixpoint count_lines (fuel : nat) (ls : list Z) (total : Z) : M fs_state Z :=
  match ls with
  | [] => ret total
  | i :: ls' =>
      h <-- head i ;;
      t <-- iter fuel (fun tc : Z * Z => let (t, c) := tc in
              if c =? 0 then ret (inr t) else x <-- cnode_at c ;; ret (inl (t + 1, c_next x))) (total, h) ;;
      count_lines fuel ls' t
  end.

Definition cache_free (fuel : nat) : M fs_state unit :=
  ls <-- gets lines ;;
  t <-- count_lines fuel ls 0 ;;
  let total := Z.shiftr t 1 in
  iter fuel (fun x : Z * Z * Z => let '(i, k, freed) := x in
    if (freed <? total) && negb (i =? k) then
      let i := k in
      k <-- Devfs.devfs_lastused false ;;
      d <-- dev_at k ;;
      n <-- cache_freeblocks fuel (d_fid d) (total - freed) ;;
      ret (inl (i, k, freed + n))
    else ret (inr tt)) (0, m1UL, 0).

End Ops.
End Cache.
