(* ===== verification/CacheFacts.v ===== *)
(** Correctness of Cache.v: a stored block is found again, and what a hit at the head of a
    line does to the line. *)
From Stdlib Require Import ZArith Lia List.
From stdpp Require Import base option list gmap.
From S2P Require Import Prelude CoreState FsState FsFacts Devfs Cache.
Import FsState Cache.

(** ** Lines as lists of blocks *)

(** The blocks linked from address [p]. *)
Fixpoint chain (m : gmap Z cache_t) (p : Z) (l : list (Z * cache_t)) : Prop :=
  match l with
  | [] => p = 0
  | (a, c) :: l' => p = a /\ a <> 0 /\ m !! a = Some c /\ chain m (c_next c) l'
  end.

Lemma chain_insert m p l a c :
  chain m p l -> Forall (fun bc => fst bc <> a) l -> chain (<[a := c]> m) p l.
Proof.
  revert p. induction l as [|[b d] l IH]; intros p H Hl; [done|]. simpl in *.
  apply Forall_cons in Hl as [Hb Hl]. destruct H as (->&?&Hd&H).
  split; [done|]. split; [done|]. split; [by rewrite lookup_insert_ne|by apply IH].
Qed.

(** An address that is not in use is not in any line. *)
Lemma chain_fresh m p l a : chain m p l -> m !! a = None -> Forall (fun bc => fst bc <> a) l.
Proof.
  revert p. induction l as [|[b d] l IH]; intros p H Ha; [done|]. destruct H as (_&_&Hd&H).
  constructor; [cbn; congruence|by eapply IH].
Qed.

(** No block of the line is the one searched for: the search ends at the end. *)
Lemma wp_search_absent fuel fd lsn l : forall p0 p (Q : Z * Z -> fs_state -> Prop) s,
  chain (cnodes s) p l -> Forall (fun bc => holds fd lsn (snd bc) = false) l -> (length l < fuel)%nat ->
  (forall q, Q (q, 0) s) ->
  wp (iter fuel (fun lc : Z * Z => let (l, c) := lc in
    if c =? 0 then ret (inr (l, 0)) else
    x <-- cnode_at c ;;
    if holds fd lsn x then ret (inr (l, c)) else ret (inl (c, c_next x))) (p0, p)) Q s.
Proof.
  revert fuel. induction l as [|[a c] l IH]; intros fuel p0 p Q s Hc Hn Hf HQ;
    (destruct fuel as [|fuel]; [simpl in Hf; lia|]); unfold iter; fold (@iter fs_state (Z * Z) (Z * Z)); simpl in Hc.
  - subst p. fs_go. apply HQ.
  - destruct Hc as (->&Ha&Hlk&Hc). apply Forall_cons in Hn as [Hh Hn]. replace (a =? 0) with false by lia.
    fs_go. cbn in Hh. rewrite Hh. fs_go. apply IH; [done|done|simpl in Hf; lia|done].
Qed.

(** The block at the head of the line. *)
Lemma wp_search_head fuel fd lsn a c (Q : Z * Z -> fs_state -> Prop) s :
  (0 < fuel)%nat -> a <> 0 -> cnodes s !! a = Some c -> holds fd lsn c = true -> Q (0, a) s ->
  wp (search fuel fd lsn a) Q s.
Proof.
  intros Hf Ha Hc Hh HQ. destruct fuel as [|fuel]; [lia|]. unfold search, iter. fold (@iter fs_state (Z * Z) (Z * Z)).
  replace (a =? 0) with false by lia. fs_go. by rewrite Hh; fs_go.
Qed.

(** ** A block of a device *)

(** [lsn] is a block of the device [fd], with blocks of more than a byte. *)
Record block_of (fd lsn : Z) (f : fcb_t) (s : fs_state) : Prop := {
  bo_fd : 0 <= fd < nfcb s;
  bo_fcb : zget (fcb s) fd = Some f;
  bo_type : ftype f = FCB_TYPE_DEVICE;
  bo_size : 1 < blksize f;
  bo_lsn : 0 <= lsn < m1U;
  bo_in : (lsn + 1) * blksize f <= filesize f < 2 ^ 64;
  bo_lines : 0 < cachelines s;
  bo_cache : zlen (cache s) = cachelines s;
}.

Lemma wp_line_of lsn (Q : Z -> fs_state -> Prop) s :
  0 < cachelines s -> Q (lsn mod cachelines s) s -> wp (line_of lsn) Q s.
Proof. intros H HQ. unfold line_of. fs_go. by replace (cachelines s =? 0) with false by lia. Qed.

Lemma wp_no_device fd lsn f (Q : bool -> fs_state -> Prop) s :
  block_of fd lsn f s -> Q false s -> wp (no_device fd lsn) Q s.
Proof.
  intros [] HQ. unfold no_device. fs_go. replace (nfcb s <=? fd) with false by lia.
  replace (lsn =? m1U) with false by lia. cbn [orb]. fs_go. rewrite bo_type0. exact HQ.
Qed.

Lemma wp_head j h (Q : Z -> fs_state -> Prop) s : zget (cache s) j = Some h -> Q h s -> wp (head j) Q s.
Proof. intros H HQ. unfold head. fs_go. by eapply wp_need. Qed.

Lemma wp_set_head j p h (Q : unit -> fs_state -> Prop) s :
  zget (cache s) j = Some h -> Q tt (set_cache (zset (cache s) j p) s) -> wp (set_head j p) Q s.
Proof. intros H HQ. unfold set_head. fs_go. eapply wp_need; [done|]. fs_go. exact HQ. Qed.

Lemma block_in_range fd lsn f s : block_of fd lsn f s ->
  (filesize f <? u64 (u64 (lsn + 1) * blksize f)) = false.
Proof.
  intros []. unfold m1U in *. rewrite (u64_small (lsn + 1)) by lia. rewrite u64_small by lia. lia.
Qed.

(** Where the line of a block starts. *)
Lemma block_line fd lsn f s : block_of fd lsn f s -> is_Some (zget (cache s) (lsn mod cachelines s)).
Proof. intros []. apply zget_is_Some. rewrite bo_cache0. by apply Z.mod_pos_bound. Qed.

Lemma fd_bits fd p : 0 <= fd < 2 ^ 60 -> CACHE_FD (Z.lor (CACHE_FD fd) (u64 (Z.shiftl (Z.land p 0xF) 60))) = fd.
Proof.
  intros H. unfold CACHE_FD. change 0xFFFFFFFFFFFFFFF with (Z.ones 60). rewrite Z.land_lor_distr_l.
  rewrite !Z.land_ones by lia. rewrite Zmod_mod, Z.mod_small by lia.
  assert (Hz : u64 (Z.shiftl (Z.land p 15) 60) mod 2 ^ 60 = 0).
  { unfold u64, wrap. rewrite Z.shiftl_mul_pow2 by lia.
    change (2 ^ 64) with (2 ^ 60 * 2 ^ 4). rewrite Z.mul_comm, Z.mul_mod_distr_l by lia.
    rewrite Z.mul_comm. apply Z.mod_mul. lia. }
  by rewrite Hz, Z.lor_0_r.
Qed.

(** ** Storing and finding *)

(** A block that is not in the line is stored at its head. *)
Lemma wp_setblock_new fuel fd lsn blk prio f h l s :
  block_of fd lsn f s -> fd < 2 ^ 60 -> allocs s = [] ->
  zget (cache s) (lsn mod cachelines s) = Some h -> chain (cnodes s) h l ->
  Forall (fun bc => holds fd lsn (snd bc) = false) l -> (length l < fuel)%nat ->
  FsState.fresh s <> 0 -> cnodes s !! FsState.fresh s = None -> blksize f <= zlen blk ->
  wp (cache_setblock fuel fd lsn blk prio)
     (fun r s' => r = true /\ exists c,
        holds fd lsn c = true /\ c_blk c = take (Z.to_nat (blksize f)) blk /\ CACHE_PRIO (c_fd c) = Z.land prio 0xF /\
        zget (cache s') (lsn mod cachelines s) = Some (FsState.fresh s) /\
        chain (cnodes s') (FsState.fresh s) ((FsState.fresh s, c) :: l) /\
        block_of fd lsn f s' /\ cachelines s' = cachelines s) s.
Proof.
  intros Hb Hfd Ha Hh Hc Hno Hf Hfr Hnew Hblk. pose proof Hb as []. set (p := FsState.fresh s) in *.
  pose proof (zget_Some_lt _ _ _ Hh) as Hlt.
  unfold cache_setblock. wp_step. apply wp_line_of; [done|]. wp_step. eapply wp_no_device; [done|]. fs_go.
  replace (blksize f <=? 1) with false by lia. rewrite (block_in_range fd lsn f s Hb). cbn iota.
  wp_step. eapply wp_head; [done|]. wp_step. apply (wp_search_absent _ _ _ l); [done..|]. intros q. cbn. fs_go.
  apply wp_new_address; [done|]. fold p. replace (p =? 0) with false by lia. fs_go. cbn [negb]. fs_go.
  replace (p =? 0) with false by lia. cbn iota. wp_step. eapply wp_head; [exact Hh|]. fs_go.
  eapply wp_cnode_mod; [apply lookup_insert_eq|]. fs_go.
  eapply wp_set_head; [exact Hh|]. fs_go. rewrite slice_Some by lia. fs_go. eapply wp_need; [done|]. fs_go.
  eapply wp_cnode_mod; [cbn; rewrite insert_insert_eq; apply lookup_insert_eq|]. fs_go.
  split; [done|]. eexists. split; [|split; [|split; [|split; [|split; [|split]]]]]; cycle 4.
  - cbn. rewrite !insert_insert_eq. split; [done|]. split; [done|]. split; [apply lookup_insert_eq|]. cbn.
    apply chain_insert; [done|]. by eapply chain_fresh.
  - constructor; cbn; try done. by rewrite zlen_zset.
  - done.
  - unfold holds. cbn. rewrite fd_bits by lia. rewrite !Z.eqb_refl. done.
  - done.
  - cbn. unfold CACHE_PRIO. rewrite Z.shiftr_lor. unfold CACHE_FD. change 0xFFFFFFFFFFFFFFF with (Z.ones 60).
    rewrite Z.land_ones by lia. rewrite (Z.mod_small fd) by lia. rewrite (Z.shiftr_div_pow2 fd), Z.div_small by lia.
    pose proof (Z.land_nonneg prio 15) as Hn. 
    assert (Hr : 0 <= Z.land prio 15 < 16).
    { change 15 with (Z.ones 4). rewrite Z.land_ones by lia. by apply Z.mod_pos_bound. }
    rewrite u64_small; [|rewrite Z.shiftl_mul_pow2 by lia; lia].
    rewrite Z.shiftr_shiftl_l by lia. apply Z.shiftl_0_r.
  - by apply zget_zset_eq.
Qed.

Section Ops.
Context {E : FsEnv}.

(** A block at the head of its line is found, and moved there again: it is linked to
    itself. *)
Lemma wp_getblock_head fuel fd lsn f a c s :
  block_of fd lsn f s -> zget (cache s) (lsn mod cachelines s) = Some a -> a <> 0 ->
  cnodes s !! a = Some c -> holds fd lsn c = true -> (0 < fuel)%nat ->
  wp (cache_getblock fuel fd lsn)
     (fun r s' => r = Some (c_blk c) /\ cnodes s' = <[a := set_c_next a c]> (cnodes s) /\
        cache s' = cache s /\ cachelines s' = cachelines s /\ nfcb s' = nfcb s /\ fcb s' = fcb s) s.
Proof.
  intros Hb Hh Ha Hc Hhold Hf. pose proof Hb as [].
  unfold cache_getblock. wp_step. apply wp_line_of; [done|]. wp_step. eapply wp_no_device; [done|]. cbn iota.
  wp_step. eapply wp_head; [done|]. replace (a =? 0) with false by lia. cbn iota. fs_go.
  rewrite (block_in_range fd lsn f s Hb). cbn iota. wp_step. eapply wp_search_head; [done..|].
  replace (a =? 0) with false by lia. cbn [negb]. cbn iota. unfold bypass, when.
  rewrite Z.eqb_refl. cbn [negb]. cbn iota. fs_go. eapply wp_head; [exact Hh|]. fs_go. eapply wp_set_head; [exact Hh|]. fs_go.
  eapply wp_cnode_at; [apply lookup_insert_eq|]. fs_go. split; [done|]. split; [done|].
  split; [cbn; by apply zset_id|done].
Qed.

(** C38: a block stored in a line that does not have it is put in front of the blocks
    there, with its priority, and reading it back at once gives its bytes.  The line with
    the new block and all others is the one right behind [cache_setblock]: it is not claimed
    for the read, which may link the head of the line to itself ([cache_hit_locks_line]).
    The block is one of a device's with a valid block size, within the device, and there is
    memory for it. *)
Theorem cache_set_get fuel fd lsn blk prio f h l s :
  block_of fd lsn f s -> fd < 2 ^ 60 -> allocs s = [] ->
  zget (cache s) (lsn mod cachelines s) = Some h -> chain (cnodes s) h l ->
  Forall (fun bc => holds fd lsn (snd bc) = false) l -> (length l < fuel)%nat ->
  FsState.fresh s <> 0 -> cnodes s !! FsState.fresh s = None -> blksize f <= zlen blk ->
  wp (r <-- cache_setblock fuel fd lsn blk prio ;; t <-- get ;; b <-- cache_getblock fuel fd lsn ;; ret (r, t, b))
     (fun x _ => let '(r, t, b) := x in
        r = true /\ b = Some (take (Z.to_nat (blksize f)) blk) /\ exists c,
        CACHE_PRIO (c_fd c) = Z.land prio 0xF /\
        zget (cache t) (lsn mod cachelines s) = Some (FsState.fresh s) /\
        chain (cnodes t) (FsState.fresh s) ((FsState.fresh s, c) :: l)) s.
Proof.
  intros. wp_step. eapply wp_mono; [by eapply wp_setblock_new|].
  intros r t (->&c&Hhold&Hblk&Hprio&Hhead&Hchain&Hb'&Hl). wp_step. wp_step. wp_step.
  pose proof Hchain as (_&Hne&Hlk&_).
  eapply wp_mono; [eapply wp_getblock_head; [done|by rewrite Hl|done|done|done|lia]|].
  intros b t' (->&_). wp_step. split; [done|]. split; [by rewrite Hblk|]. by exists c.
Qed.

(** A search that reaches a block linked to itself never ends. *)
Lemma search_loops fuel fd lsn a c s :
  a <> 0 -> cnodes s !! a = Some c -> c_next c = a -> holds fd lsn c = false ->
  forall q, iter fuel (fun lc : Z * Z => let (l, c) := lc in
    if c =? 0 then ret (inr (l, 0)) else
    x <-- cnode_at c ;;
    if holds fd lsn x then ret (inr (l, c)) else ret (inl (c, c_next x))) (q, a) s = Loop.
Proof.
  intros Ha Hc Hn Hh. induction fuel as [|fuel IH]; intros q; [done|].
  unfold iter; fold (@iter fs_state (Z * Z) (Z * Z)). unfold bind at 1.
  replace (a =? 0) with false by lia. unfold cnode_at, get, bind, need. rewrite Hc. cbn. rewrite Hh. cbn.
  rewrite Hn. apply IH.
Qed.

(** A block found at the head of its line is linked to itself, so that the next
    request for a block of the device that falls into the same line and is not this one
    never returns. *)
Theorem cache_hit_locks_line fuel fuel' fd lsn lsn' f a c s :
  block_of fd lsn f s -> block_of fd lsn' f s -> lsn' <> lsn ->
  lsn' mod cachelines s = lsn mod cachelines s ->
  zget (cache s) (lsn mod cachelines s) = Some a -> a <> 0 ->
  cnodes s !! a = Some c -> holds fd lsn c = true -> (0 < fuel)%nat ->
  wp (cache_getblock fuel fd lsn)
     (fun r s' => r = Some (c_blk c) /\ cache_getblock fuel' fd lsn' s' = Loop) s.
Proof.
  intros Hb Hb' Hne Hmod Hh Ha Hc Hhold Hf. eapply wp_mono; [by eapply wp_getblock_head|].
  intros r t (->&Hn&Hca&Hl&Hnf&Hfc). split; [done|].
  assert (Hbt : block_of fd lsn' f t) by (destruct Hb'; constructor; congruence).
  assert (Hh' : holds fd lsn' (set_c_next a c) = false).
  { unfold holds in *. cbn. b2p. apply andb_false_intro2. lia. }
  apply wlp_never. pose proof Hbt as [].
  unfold cache_getblock. apply wlp_bind, wlp_wp, wp_line_of; [done|].
  apply wlp_bind, wlp_wp. eapply wp_no_device; [done|]. cbn iota.
  apply wlp_bind, wlp_wp. eapply wp_head; [by rewrite Hca, Hl, Hmod|]. replace (a =? 0) with false by lia.
  apply wlp_bind, wlp_wp. eapply wp_fcb_at; [done|]. rewrite (block_in_range fd lsn' f t Hbt).
  apply wlp_bind. unfold wlp, search.
  by rewrite (search_loops fuel' fd lsn' a (set_c_next a c)); [|done|rewrite Hn; apply lookup_insert_eq|done|done].
Qed.

End Ops.

(** ** Instances *)

(** A device of 16 blocks of 512 bytes, and a cache of two lines. *)
Definition disk : fcb_t := mk_fcb (Some [47; 100]) 1 FCB_TYPE_DEVICE 0 0 3 DEVFCB 0 8192 512 [] 0 None.
Definition disk_state : fs_state :=
  set_cache [0; 0] (set_cachelines 2 (set_fcb [zero_fcb; zero_fcb; disk] (set_nfcb 3 init_fs))).

Lemma cache_set_get_witness :
  exists s', (r <-- cache_setblock 9 2 3 (List.repeat 7 512) 2 ;; t <-- get ;; b <-- cache_getblock 9 2 3 ;; ret (r, b))
    disk_state = Ret (true, Some (List.repeat 7 512)) s'.
Proof.
  assert (Hb : block_of 2 3 disk disk_state) by (constructor; vm_compute; intuition congruence).
  pose proof (cache_set_get 9 2 3 (List.repeat 7 512) 2 disk 0 [] disk_state Hb ltac:(done) eq_refl eq_refl eq_refl
    ltac:(constructor) ltac:(simpl; lia) ltac:(done) eq_refl ltac:(by vm_compute)) as H.
  apply wp_run in H as ([[r t] b]&s'&Hr&->&->&_). eexists. vm_compute. reflexivity.
Defined.

Definition block3 : cache_t := mk_cache 2 3 (List.repeat 7 512) 0.
Definition cached : fs_state := set_cache [0; 1] (set_cnodes {[1 := block3]} disk_state).

Lemma cache_hit_locks_line_witness :
  exists s', cache_getblock 9 2 3 cached = Ret (Some (List.repeat 7 512)) s' /\ cache_getblock 99 2 5 s' = Loop.
Proof.
  assert (Hb : forall n, 0 <= n < 16 -> block_of 2 n disk cached)
    by (intros; constructor; cbn; unfold m1U, zlen; cbn; try done; lia).
  pose proof (cache_hit_locks_line 9 99 2 3 5 disk 1 block3 cached (Hb 3 ltac:(lia)) (Hb 5 ltac:(lia))
    ltac:(done) eq_refl eq_refl ltac:(done) eq_refl eq_refl ltac:(lia)) as H.
  apply wp_run in H as (r&s'&Hr&->&Hl). exists s'. split; [exact Hr|exact Hl].
Defined.
