(* ===== verification/DevfsFacts.v ===== *)
(** Correctness of Devfs.v: the order of last use of the devices. *)
From Stdlib Require Import ZArith Lia List.
From stdpp Require Import base option list gmap.
From S2P Require Import Prelude CoreState FsState FsFacts Qsort Fcb Devfs.
Import FsState.

(** A device that has not been removed. *)
Definition live (d : devfs_t) : bool := negb (d_fid d =? m1U).

(** The counter of uses bounds the uses recorded, and it is below the guard's limit by
    less than one use. *)
Record uses_ok (s : fs_state) : Prop := {
  uses_ndev : ndev s = zlen (dev s);
  uses_recent : 0 <= dev_recent s <= 0x1000000000000000;
  uses_bound : forall i d, zget (dev s) i = Some d -> live d = true -> 0 <= recent d <= dev_recent s;
}.

(** ** The oldest device *)

(** The devices [devfs_lastused] looks at. *)
Definition eligible (all : bool) (d : devfs_t) : bool :=
  live d && (all || negb (recent d =? 0)).

Lemma oldest_spec all ds : forall i k l k' l',
  0 <= i ->
  (forall d, d ∈ ds -> eligible all d = true -> 0 <= recent d < 2 ^ 32) ->
  Devfs.oldest all ds i k l = (k', l') ->
  (* nothing is older than the answer *)
  (forall d, d ∈ ds -> eligible all d = true -> k' <= recent d) /\
  k' <= k /\
  ((k' = k /\ l' = l) \/
   (k' < k /\ exists d, zget ds (l' - i) = Some d /\ eligible all d = true /\ recent d = k')).
Proof.
  induction ds as [|d ds IH]; simpl; intros i k l k' l' Hi Hb Ho.
  { injection Ho as <- <-. split; [intros d Hd; by inversion Hd|]. split; [lia|by left]. }
  assert (Hb' : forall e, e ∈ ds -> eligible all e = true -> 0 <= recent e < 2 ^ 32)
    by (intros e He; apply Hb; by right).
  destruct (negb (d_fid d =? m1U) && (recent d <? k) && (all || negb (recent d =? 0))) eqn:Hc.
  - assert (He : eligible all d = true) by (unfold eligible, live; b2p; rewrite andb_true_iff, negb_true_iff; split; [by apply Z.eqb_neq|done]).
    assert (Hr := Hb d ltac:(by left) He). b2p.
    change (u32 (recent d)) with (wrap 32 (recent d)) in Ho. rewrite (wrap_small 32 (recent d)) in Ho by done.
    destruct (IH (i + 1) _ _ _ _ ltac:(lia) Hb' Ho) as (P1&P2&P3).
    split; [|split; [lia|right]].
    + intros e [->|Hin]%elem_of_cons ?; [lia|by apply P1].
    + destruct P3 as [[-> ->]|(P3&e&Hg&?&?)].
      * split; [lia|]. exists d. rewrite Z.sub_diag. done.
      * split; [lia|]. exists e. apply zget_Some_lt in Hg as Hlt.
        rewrite zget_cons_S by lia. split; [|done]. rewrite <- Hg. f_equal. lia.
  - destruct (IH (i + 1) _ _ _ _ ltac:(lia) Hb' Ho) as (P1&P2&P3).
    split; [|split; [lia|]].
    + intros e [->|Hin]%elem_of_cons He; [|by apply P1].
      unfold eligible, live in He. apply andb_prop in He as [E1 E2].
      rewrite E1, E2, andb_true_r in Hc. simpl in Hc. lia.
    + destruct P3 as [?|(P3&e&Hg&?&?)]; [by left|right].
      split; [lia|]. exists e. apply zget_Some_lt in Hg as Hlt.
      rewrite zget_cons_S by lia. split; [|done]. rewrite <- Hg. f_equal. lia.
Qed.

Lemma uses_live s i d : uses_ok s -> zget (dev s) i = Some d -> live d = true -> 0 <= recent d <= dev_recent s.
Proof. intros H. by apply H. Qed.

Lemma live_devices s : uses_ok s -> take (Z.to_nat (ndev s)) (dev s) = dev s.
Proof. intros H. rewrite (uses_ndev s H). unfold zlen. rewrite Nat2Z.id. by apply take_ge. Qed.

(** ** The ages after the overflow guard *)

Lemma age_recent d : live d = true -> recent (Devfs.age d) = Z.shiftr (recent d) 48 + 1.
Proof. unfold live, Devfs.age. by destruct (d_fid d =? m1U). Qed.
Lemma age_live d : live (Devfs.age d) = live d.
Proof. unfold live, Devfs.age. destruct (d_fid d =? m1U) eqn:E; cbn; by rewrite ?E. Qed.

Lemma shiftr_mono a b n : 0 <= n -> a <= b -> Z.shiftr a n <= Z.shiftr b n.
Proof. intros. rewrite !Z.shiftr_div_pow2 by done. apply Z.div_le_mono; lia. Qed.

(** [keeps_order f]: what [f] does to the devices keeps their order of use. *)
Definition keeps_order (l l' : list devfs_t) (except : Z) : Prop :=
  forall i j d e d' e', i <> except -> j <> except ->
    zget l i = Some d -> zget l j = Some e -> zget l' i = Some d' -> zget l' j = Some e' ->
    live d = true -> live e = true -> recent d <= recent e -> recent d' <= recent e'.

(** The guard of [devfs_used]. *)
Definition guard (s : fs_state) : fs_state :=
  if 0xFFFFFFFFFFFFFFF <? dev_recent s
  then set_dev (map Devfs.age (dev s)) (set_dev_recent (Z.shiftr (dev_recent s) 48) s) else s.

Lemma guard_spec s : uses_ok s ->
  zlen (dev (guard s)) = zlen (dev s) /\ 0 <= dev_recent (guard s) < 2 ^ 60 /\
  (forall i d, zget (dev (guard s)) i = Some d -> live d = true -> 0 <= recent d <= dev_recent (guard s) + 1) /\
  keeps_order (dev s) (dev (guard s)) (-1).
Proof.
  intros [Hn Hr Hb]. unfold guard. destruct (Z.ltb_spec 0xFFFFFFFFFFFFFFF (dev_recent s)); cbn.
  - split; [unfold zlen; by rewrite length_map|]. split.
    { rewrite Z.shiftr_div_pow2 by lia. change (2 ^ 48) with 281474976710656. split; [apply Z.div_pos|apply Z.div_lt_upper_bound]; lia. }
    assert (Hg : forall i d', zget (map Devfs.age (dev s)) i = Some d' ->
              exists d, zget (dev s) i = Some d /\ d' = Devfs.age d).
    { intros i d' H1. change (map Devfs.age (dev s)) with (Devfs.age <$> dev s) in H1.
      rewrite zget_fmap in H1. destruct (zget (dev s) i) as [d|] eqn:Hd; [|done].
      injection H1 as <-. by exists d. }
    split.
    + intros i d' (d&Hd&->)%Hg Hl. rewrite age_live in Hl. rewrite age_recent by done.
      destruct (Hb i d Hd Hl). pose proof (shiftr_mono (recent d) (dev_recent s) 48 ltac:(lia) ltac:(lia)).
      pose proof (Z.shiftr_nonneg (recent d) 48). lia.
    + intros i j d e d' e' _ _ Hd He (d2&Hd2&->)%Hg (e2&He2&->)%Hg Hl Hl' Hle.
      rewrite Hd in Hd2. rewrite He in He2. injection Hd2 as <-. injection He2 as <-.
      rewrite !age_recent by done. pose proof (shiftr_mono (recent d) (recent e) 48). lia.
  - split; [done|]. split; [lia|]. split.
    + intros i d Hd Hl. destruct (Hb i d Hd Hl). lia.
    + intros i j d e d' e' _ _ ???????. by simplify_eq.
Qed.

(** ** The operations *)

(** [devfs_used] makes the device the one used last, in every state also with the
    counter at its limit: the order of the uses of the other devices is kept, and the
    counter stays a bound of all of them. *)
Theorem devfs_used_last idx s d :
  uses_ok s -> zget (dev s) idx = Some d ->
  wp (Devfs.devfs_used idx) (fun _ s' =>
    uses_ok s' /\
    (exists d', zget (dev s') idx = Some d' /\ recent d' = dev_recent s' /\ live d' = live d) /\
    keeps_order (dev s) (dev s') idx) s.
Proof.
  intros Hok Hd. pose proof (zget_Some_lt _ _ _ Hd) as Hi. pose proof (guard_spec s Hok) as (Hz&Hr&Hb&Ho).
  pose proof (uses_ndev s Hok) as Hn.
  unfold Devfs.devfs_used. fs_go. replace (ndev s <=? idx) with false by lia. cbn iota.
  apply wp_bind. eapply (wp_mono _ (fun _ t => t = guard s)).
  { unfold guard. apply wp_when; intros ->; [|done]. fs_go. rewrite live_devices by done.
    rewrite drop_ge, app_nil_r by (rewrite Hn; unfold zlen; lia). done. }
  intros [] t ->. fs_go.
  assert (exists e, zget (dev (guard s)) idx = Some e /\ live e = live d) as (e&He&Hle).
  { destruct (zget_is_Some (dev (guard s)) idx ltac:(lia)) as [e He]. exists e. split; [done|].
    unfold guard in He. destruct (_ <? _); [|by simplify_eq]. cbn in He.
    change (map Devfs.age (dev s)) with (Devfs.age <$> dev s) in He. rewrite zget_fmap, Hd in He.
    injection He as <-. apply age_live. }
  eapply wp_dev_mod; [exact He|]. cbn. rewrite u64_small by lia.
  split; [|split].
  - constructor; cbn.
    + rewrite zlen_zset, Hz. unfold guard. by destruct (_ <? _).
    + lia.
    + intros i f Hf Hl. destruct (Z.eq_dec i idx) as [->|].
      * rewrite zget_zset_eq in Hf by lia. injection Hf as <-. cbn. lia.
      * rewrite zget_zset_ne in Hf by done. by eapply Hb.
  - eexists. split; [apply zget_zset_eq; lia|]. done.
  - intros i j x y x' y' Hi' Hj'. rewrite !zget_zset_ne by done.
    intros Hx Hy. pose proof (zget_Some_lt _ _ _ Hx). pose proof (zget_Some_lt _ _ _ Hy).
    apply (Ho i j x y x' y'); [lia|lia|done|done].
Qed.

(** with a device that may be taken, [devfs_lastused] answers one that is not used
    later than any other; a device taken out with [all] false is not taken again. *)
Theorem devfs_lastused_oldest all s i0 d0 :
  uses_ok s -> dev_recent s < 2 ^ 32 ->
  zget (dev s) i0 = Some d0 -> eligible all d0 = true -> recent d0 < dev_recent s ->
  wp (Devfs.devfs_lastused all) (fun l s' =>
    (exists d, zget (dev s) l = Some d /\ eligible all d = true /\
       forall i e, zget (dev s) i = Some e -> eligible all e = true -> recent d <= recent e) /\
    (all = true -> s' = s) /\
    (all = false -> exists d', zget (dev s') l = Some d' /\ eligible false d' = false)) s.
Proof.
  intros Hok H32 Hd0 He0 Hlt. unfold Devfs.devfs_lastused. fs_go.
  rewrite live_devices by done.
  assert (Hk : u32 (dev_recent s) = dev_recent s) by (apply wrap_small; pose proof (uses_recent s Hok); lia).
  rewrite Hk. destruct (Devfs.oldest all (dev s) 0 (dev_recent s) 0) as [k l] eqn:Ho.
  apply oldest_spec in Ho as (H1&_&H2); [|lia|].
  2:{ intros d [i Hi]%elem_zget [Hl _]%andb_prop. pose proof (uses_live s i d Hok Hi Hl). lia. }
  destruct H2 as [[-> _]|(_&d&Hg&He&<-)].
  { pose proof (H1 d0 (proj2 (elem_zget _ _) (ex_intro _ _ Hd0)) He0). lia. }
  rewrite Z.sub_0_r in Hg. pose proof (zget_Some_lt _ _ _ Hg).
  assert (Hmin : exists d, zget (dev s) l = Some d /\ eligible all d = true /\
       forall i e, zget (dev s) i = Some e -> eligible all e = true -> recent d <= recent e).
  { exists d. split; [done|]. split; [done|]. intros i e Hi' ?. apply H1; [|done]. apply elem_zget. by eexists. }
  destruct all; unfold when; cbn [negb]; fs_go; [done|].
  split; [done|]. split; [done|]. intros _. eexists. split; [apply zget_zset_eq; lia|].
  unfold eligible. cbn. by rewrite andb_false_r.
Qed.

(** ** Instances *)

(** Three devices, the second of them removed, the third used last. *)
Definition three : fs_state :=
  set_ndev 3 (set_dev_recent 9 (set_dev [mk_dev 2 0 0 4 0 0; mk_dev m1U 0 0 1 0 0; mk_dev 3 0 0 9 0 0] init_fs)).

Lemma three_ok : uses_ok three.
Proof.
  constructor; [done|cbn; lia|]. intros i d Hd Hl.
  pose proof (zget_Some_lt _ _ _ Hd) as Hi. change (zlen (dev three)) with 3 in Hi. assert (i = 0 \/ i = 1 \/ i = 2) as [->|[->| ->]] by lia;
    vm_compute in Hd; injection Hd as <-; first [done|cbn; lia].
Qed.

Lemma devfs_used_last_witness :
  wp (Devfs.devfs_used 0) (fun _ s' => keeps_order (dev three) (dev s') 0 /\
    exists d', zget (dev s') 0 = Some d' /\ recent d' = dev_recent s') three.
Proof.
  eapply wp_mono; [apply (devfs_used_last 0 three (mk_dev 2 0 0 4 0 0)); [apply three_ok|reflexivity]|].
  intros [] s' (_&(d'&?&?&_)&Ho). split; [exact Ho|]. by exists d'.
Defined.

Lemma devfs_lastused_oldest_witness :
  wp (Devfs.devfs_lastused false) (fun l s' =>
    exists d, zget (dev three) l = Some d /\ eligible false d = true) three.
Proof.
  eapply wp_mono; [apply (devfs_lastused_oldest false three 0 (mk_dev 2 0 0 4 0 0));
    [apply three_ok|done|done|done|done]|].
  intros l s' ((d&?&?&_)&_). by exists d.
Defined.
