(* ===== verification/Vfs.v ===== *)
(** The layer between the FS task and the file systems, src/fs/vfs.c: the path stack,
    paths and their canonical form, and blocks of image files and devices. *)
From Stdlib Require Import ZArith Lia List.
From stdpp Require Import base option list gmap.
From S2P Require Import Prelude CoreState LibcStd FsState Fcb Devfs Cache.
Import FsState.

Module Vfs.

Definition PATHSTACKSIZE : Z := 64.

(** Paths are places in the buffer of the path looked up. *)
Definition pathpush (lsn : Z) (path : Z) : M fs_state unit :=
  s <-- get ;;
  if pathstackidx s =? PATHSTACKSIZE then
    put (set_pathstack (drop 1 (pathstack s) ++ [(lsn, path)]) s)
  else
    need (zget (pathstack s) (pathstackidx s)) ;;;
    put (set_pathstackidx (pathstackidx s + 1) (set_pathstack (zset (pathstack s) (pathstackidx s) (lsn, path)) s)).

Definition pathpop : M fs_state (option (Z * Z)) :=
  s <-- get ;;
  if pathstackidx s =? 0 then ret None else
  modify (set_pathstackidx (pathstackidx s - 1)) ;;;
  e <-- need (zget (pathstack s) (pathstackidx s - 1)) ;; ret (Some e).

(** ** Paths *)

Definition SLASH : Z := 47.
Definition COLON : Z := 58.
Definition SEMI : Z := 59.
Definition HASH : Z := 35.
Definition DOT : Z := 46.
Definition MINUS : Z := 45.

(** [path[i]]; the terminator behind the end. *)
Definition at_ (p : list Z) (i : Z) : Z := default 0 (zget p i).
Definition PATHEND (a : Z) : bool := (a =? SEMI) || (a =? HASH) || (a =? 0).

(** The path with the file name at its end, null when it is too long. *)
Definition pathcat (path : option (list Z)) (filename : option (list Z)) : M fs_state (option (list Z)) :=
  match path with
  | None | Some [] => ret None
  | Some p =>
      match filename with
      | None | Some [] => ret path
      | Some f =>
          mx <-- gets pathmax ;;
          if mx <=? zlen p + zlen f then ret None else
          let p := if at_ p (zlen p - 1) =? SLASH then p else p ++ [SLASH] in
          ret (Some (p ++ (if at_ f 0 =? SLASH then drop 1 f else f)))
      end
  end.

(** The first index from [i] on where the test fails; at most the length. *)
Fixpoint span (test : Z -> bool) (l : list Z) : Z :=
  match l with
  | [] => 0
  | c :: l' => if test c then 1 + span test l' else 0
  end.
Definition skip (test : Z -> bool) (p : list Z) (i : Z) : Z := i + span test (drop (Z.to_nat i) p).

(** [result[j-1]], and the result without it. *)
Definition last_of (r : list Z) : option Z := zget r (zlen r - 1).
Definition chop (n : Z) (r : list Z) : list Z := take (Z.to_nat (zlen r - n)) r.

(** A version number behind the semicolon at [i]: the new position and result. *)
Definition version (p : list Z) (i : Z) (r : list Z) : Z * list Z :=
  let k := zlen p in
  let i := i + 1 in
  let i := if (i <? k) && (at_ p i =? MINUS) then i + 1 else i in
  if (i + 1 <? k) && (49 <=? at_ p i) && (at_ p i <=? 57) && ((at_ p (i + 1) =? HASH) || (at_ p (i + 1) =? 0))
  then (i + 1, r ++ [SEMI; at_ p i]) else (i, r).

(** An offset behind the hash at [i]. *)
Definition is_digit (c : Z) : bool := (48 <=? c) && (c <=? 57).
Definition offset (p : list Z) (i : Z) (r : list Z) : Z * list Z :=
  let k := zlen p in
  let i := i + 1 in
  let i := if (i <? k) && (at_ p i =? MINUS) then i + 1 else i in
  if (i <? k) && (49 <=? at_ p i) && (at_ p i <=? 57) then
    let r := r ++ [HASH] ++ (if at_ p (i - 1) =? MINUS then [MINUS] else []) in
    let e := skip is_digit p i in
    (e, r ++ take (Z.to_nat (e - i)) (drop (Z.to_nat i) p))
  else (i, r).

(** One member of the path: [inl] to go on, [inr] when the loop ends.  The result is
    undefined when it is empty, since the code looks at the byte before it. *)
Definition member (p : list Z) (i : Z) (r : list Z) : option ((Z * list Z) + (Z * list Z)) :=
  let k := zlen p in
  if negb ((i <? k) && negb (PATHEND (at_ p i))) then Some (inr (i, r)) else
  c ← last_of r;
  let r := if c =? SLASH then r else r ++ [SLASH] in
  let i := skip (Z.eqb SLASH) p i in
  if (at_ p i =? DOT) && (i + 1 <? k) && ((at_ p (i + 1) =? SLASH) || PATHEND (at_ p (i + 1)))
  then Some (inl (i + 2, r)) else
  if (4 <? zlen r) && (at_ p i =? DOT) && (i + 2 <? k) && (at_ p (i + 1) =? DOT) &&
     ((at_ p (i + 2) =? SLASH) || PATHEND (at_ p (i + 2))) &&
     bool_decide (drop (Z.to_nat (zlen r - 4)) r = [DOT; DOT; DOT; SLASH])
  then Some (inl (i + 3, chop 4 r)) else
  let e := skip (fun c => negb (c =? SLASH) && negb (PATHEND c)) p i in
  let r := r ++ take (Z.to_nat (e - i)) (drop (Z.to_nat i) p) in
  let i := e in
  c ← last_of r;
  if (at_ p i =? SEMI) && (c =? SLASH) then Some (inr (i, r)) else
  let '(i, r) := if at_ p i =? SEMI then version p i r else (i, r) in
  c ← last_of r;
  if at_ p i =? HASH then
    if c =? SLASH then Some (inr (i, r)) else Some (inr (offset p i r))
  else Some (inl (i + 1, r)).

(** The loop; every round moves on in the path, so its length bounds the rounds.  The
    result must stay in its buffer of [mx] bytes. *)
Fixpoint members (fuel : nat) (mx : Z) (p : list Z) (i : Z) (r : list Z) : option (Z * list Z) :=
  match fuel with
  | O => None
  | S fuel' =>
      if mx <=? zlen r then None else
      x ← member p i r;
      match x with
      | inl (i, r) => members fuel' mx p i r
      | inr ir => Some ir
      end
  end.

(** A buffer read as a C string. *)
Definition cstring (r : list Z) : list Z := take (Z.to_nat (span (fun c => negb (c =? 0)) r)) r.

Definition ROOTNAME : list Z := [114; 111; 111; 116].

(** The start of the result and the position in the path behind a device's name or a
    leading slash. *)
Definition canon_start (p : list Z) : M fs_state (Z * list Z) :=
  let k := zlen p in
  let i := skip (fun c => negb (c =? COLON) && negb (c =? SLASH) && negb (PATHEND c)) p 0 in
  if at_ p i =? COLON then
    let r := if (i =? 4) && bool_decide (take 4 p = ROOTNAME) then []
             else Devfs.DEVPATH ++ [0] ++ take (Z.to_nat i) p in
    let i := i + 1 in
    ret ((if (i <? k) && (at_ p i =? SLASH) then i + 1 else i), r ++ [SLASH])
  else
    c <-- gets ctx ;;
    tc <-- ctx_at c ;;
    rf <-- fcb_at (rootdir tc) ;;
    root <-- need (abspath rf) ;;
    if at_ p 0 =? SLASH then
      c <-- need (last_of root) ;;
      ret ((if c =? SLASH then 1 else 0), root)
    else
      wf <-- fcb_at (workdir tc) ;;
      wd <-- need (abspath wf) ;;
      ret (0, wd).

(** The whole buffer; the string in it ends at the first zero. *)
Definition canonize_buf (path : option (list Z)) : M fs_state (option (list Z)) :=
  match path with
  | None | Some [] => ret None
  | Some p =>
      ok <-- alloc_ok ;;
      if negb ok then ret None else
      do2 i r <-- canon_start p ;;
      mx <-- gets pathmax ;;
      do2 i r <-- need (members (S (length p)) mx p i r) ;;
      let r := match last_of r with Some 47 => chop 1 r | _ => r end in
      let r := if (0 <? i) && (at_ p (i - 1) =? SLASH) then r ++ [SLASH] else r in
      if mx <=? zlen r then ub else ret (Some r)
  end.
Definition canonize (path : option (list Z)) : M fs_state (option (list Z)) :=
  r <-- canonize_buf path ;; ret (cstring <$> r).

(** A number reader of the C library on a string of its own: what it answers, or nothing
    when it reads behind the string. *)
Definition number (f : nat -> Z -> M (gmap Z Z) Z) (l : list Z) : option Z :=
  match f (S (length l)) 1 (list_to_map (imap (fun n b => (1 + Z.of_nat n, b)) (l ++ [0]))) with
  | Ret v _ => Some v
  | _ => None
  end.

(** The numbers behind the first semicolon and the first hash of a path. *)
Definition getver (abspath : option (list Z)) : option Z :=
  match abspath with
  | None | Some [] => Some 0
  | Some p => let i := skip (fun c => negb (c =? SEMI)) p 0 in
              if at_ p i =? SEMI then u8 <$> number LibcStd.atoi (drop (Z.to_nat (i + 1)) p) else Some 0
  end.
Definition getoffs (abspath : option (list Z)) : option Z :=
  match abspath with
  | None | Some [] => Some 0
  | Some p => let i := skip (fun c => negb (c =? HASH)) p 0 in
              if at_ p i =? HASH then u64 <$> number LibcStd.atol (drop (Z.to_nat (i + 1)) p) else Some 0
  end.

(** ** Blocks *)

(** A block is the list of the bytes from the pointer the code answers on. *)
Section Ops.
Context {E : FsEnv} {D : FsDrivers}.

(** The pending write that holds all bytes from [o] to [e]. *)
Definition buffered (o e : Z) (l : list writebuf_t) : option writebuf_t :=
  List.find (fun w => (wb_offs w <=? o) && (e <=? u64 (wb_offs w + wb_size w))) l.

(** A block read from [o] to [e] against the pending writes [l] behind [before]: the first
    one that overlaps its end or its start grows by the block; it answers the block and
    the chain. *)
Fixpoint merge_wb (o e : Z) (blk : option (list Z)) (before l : list writebuf_t)
    : M fs_state (option (list Z) * list writebuf_t) :=
  match l with
  | [] => ret (blk, before)
  | w :: l' =>
      let we := u64 (wb_offs w + wb_size w) in
      if (o <? wb_offs w) && (wb_offs w <? e) && (e <=? we) then
        ok <-- alloc_ok ;;
        if negb ok then ret (blk, before ++ l) else
        b <-- need (blk ≫= fun b => slice b 0 (wb_offs w - o)) ;;
        d <-- need (wb_data w) ;;
        let p := b ++ d in
        ret (Some p, before ++ mk_wb o (we - o) (Some p) :: l')
      else if (wb_offs w <? o) && (o <? we) && (we <? e) then
        ok <-- alloc_ok ;;
        if negb ok then ret (blk, before ++ set_wb_data None w :: l') else
        d <-- need (wb_data w) ;;
        b <-- need (blk ≫= fun b => slice b (we - o) (e - we)) ;;
        let p := d ++ b in
        ret (Some (drop (Z.to_nat (o - wb_offs w)) p), before ++ mk_wb (wb_offs w) (e - wb_offs w) (Some p) :: l')
      else merge_wb o e blk (before ++ [w]) l'
  end.

(** [zeroblk = realloc(zeroblk, bs)] *)
Definition zero_block (bs : Z) : M fs_state (option (list Z)) :=
  ok <-- alloc_ok ;; ret (if (ok : bool) then Some (List.repeat 0 (Z.to_nat bs)) else None).

(** A block of an image file. *)
Definition read_image (fd lsn : Z) (f : fcb_t) : M fs_state (option (list Z)) :=
  if storage f =? m1U then seterr ENODEV ;;; ret None else
  dv <-- fcb_at (storage f) ;;
  if negb (ftype dv =? FCB_TYPE_DEVICE) then seterr ENODEV ;;; ret None else
  Devfs.devfs_used (inode dv) ;;;
  let bs := if (lsn =? 0) && (blksize dv <? BUFSIZ) then BUFSIZ else blksize dv in
  if s64 bs <? 1 then seterr EINVAL ;;; ret None else
  let o := u64 (lsn * bs) in
  let e := u64 (o + bs) in
  match buffered o e (buf f) with
  | Some w => d <-- need (wb_data w) ;; ret (Some (drop (Z.to_nat (o - wb_offs w)) d))
  | None =>
      if filesize f <? u64 (u64 (lsn + 1) * bs) then seterr EFAULT ;;; ret None else
      h <-- drv_has (ffs f) has_read ;;
      r <-- (if (h : bool) then
               do2 blk bs' <-- drv_read (ffs f) (storage f) (ver f) (inode f) o bs ;;
               a <-- gets ackdelayed ;;
               ret (if a || (bs' =? 0) then None else Some (blk, bs'))
             else ret (Some (None, bs))) ;;
      match r with
      | None => ret None
      | Some (blk, bs) =>
          blk <-- match blk with Some b => ret (Some b) | None => zero_block bs end ;;
          f <-- fcb_at fd ;;
          do2 blk l <-- merge_wb o e blk [] (buf f) ;;
          fcb_mod fd (set_buf l) ;;;
          ret blk
      end
  end.

(** A block of a device. *)
Definition read_device (fuel : nat) (fd lsn : Z) (f : fcb_t) : M fs_state (option (list Z)) :=
  n <-- gets ndev ;;
  if n <=? inode f then seterr ENODEV ;;; ret None else
  d <-- dev_at (inode f) ;;
  Devfs.devfs_used (inode f) ;;;
  let bs := blksize f in
  if s32 bs <? 1 then seterr EINVAL ;;; ret None else
  if drivertask d =? MEMFS_MAJOR then
    if device d =? MEMFS_NULL then ret None
    else if device d =? MEMFS_ZERO then zero_block bs
    else if device d =? MEMFS_RANDOM then
      ok <-- alloc_ok ;;
      s <-- get ;;
      ret (if (ok : bool) then Some (getentropy s bs) else None)
    else if device d =? MEMFS_RAMDISK then
      if filesize f <? u64 (u64 (lsn + 1) * bs) then seterr EFAULT ;;; ret None else
      m <-- gets ramdisk ;;
      ret (Some (drop (Z.to_nat (u64 (lsn * bs))) m))
    else seterr ENODEV ;;; ret None
  else Cache.cache_getblock fuel fd lsn.

Definition readblock (fuel : nat) (fd lsn : Z) : M fs_state (option (list Z)) :=
  n <-- gets nfcb ;;
  if (n <=? fd) || (lsn =? m1U) then seterr EFAULT ;;; ret None else
  f <-- fcb_at fd ;;
  if negb (has (fmode f) O_READ) then seterr EACCES ;;; ret None else
  if ftype f =? FCB_TYPE_REG_FILE then read_image fd lsn f
  else if ftype f =? FCB_TYPE_DEVICE then read_device fuel fd lsn f
  else seterr EPERM ;;; ret None.

Definition write_image (fd lsn : Z) (blk : list Z) (f : fcb_t) : M fs_state bool :=
  if storage f =? m1U then seterr ENODEV ;;; ret false else
  dv <-- fcb_at (storage f) ;;
  if negb (ftype dv =? FCB_TYPE_DEVICE) then seterr ENODEV ;;; ret false else
  k <-- gets fsck_dev ;;
  if k =? storage f then seterr EBUSY ;;; ret false else
  h <-- drv_has (ffs f) has_write ;;
  if negb (has (fmode dv) O_WRITE) || negb h then seterr EROFS ;;; ret false else
  Devfs.devfs_used (inode dv) ;;;
  let bs := blksize dv in
  d <-- need (slice blk 0 bs) ;;
  Fcb.fcb_write fd (u64 (lsn * bs)) d.

Definition write_device (fuel : nat) (fd lsn : Z) (blk : list Z) (prio : Z) (f : fcb_t) : M fs_state bool :=
  n <-- gets ndev ;;
  if n <=? inode f then seterr ENODEV ;;; seterr EPERM ;;; ret false else
  d <-- dev_at (inode f) ;;
  Devfs.devfs_used (inode f) ;;;
  let bs := blksize f in
  if drivertask d =? MEMFS_MAJOR then
    if device d =? MEMFS_NULL then ret true
    else if device d =? MEMFS_RAMDISK then
      if filesize f <? u64 (u64 (lsn + 1) * bs) then seterr EFAULT ;;; ret false else
      (* a block that is already in place is not copied, which makes no difference *)
      b <-- need (slice blk 0 bs) ;;
      m <-- gets ramdisk ;;
      m' <-- need (overlay m (u64 (lsn * bs)) b) ;;
      modify (set_ramdisk m') ;;; ret true
    else seterr EACCES ;;; ret false
  else Cache.cache_setblock fuel fd lsn blk prio.

Definition writeblock (fuel : nat) (fd lsn : Z) (blk : list Z) (prio : Z) : M fs_state bool :=
  n <-- gets nfcb ;;
  if (n <=? fd) || (lsn =? m1U) then seterr EFAULT ;;; ret false else
  f <-- fcb_at fd ;;
  if negb (has (fmode f) O_WRITE) then seterr EACCES ;;; ret false else
  if ftype f =? FCB_TYPE_REG_FILE then write_image fd lsn blk f
  else if ftype f =? FCB_TYPE_DEVICE then write_device fuel fd lsn blk prio f
  else seterr EPERM ;;; ret false.

(** [statfs] fills the global [st]; it answers whether there is something to read there. *)
Definition statfs (idx : Z) : M fs_state bool :=
  n <-- gets nfcb ;;
  if n <=? idx then ret false else
  f <-- fcb_at idx ;;
  match abspath f with
  | None => ret false
  | Some _ =>
      let m := Z.lor (Z.land (fmode f) S_IMODE)
                 (if ftype f =? FCB_TYPE_UNION then Z.lor S_IFDIR S_IFUNI else Z.shiftl (ftype f) 16) in
      modify (set_st (set_st_size (filesize f) (set_st_mode m (set_st_nlink (nopen f)
               (set_st_ino (inode f) (set_st_dev (storage f) zero_stat)))))) ;;;
      (if (ftype f =? FCB_TYPE_PIPE) || (ftype f =? FCB_TYPE_SOCKET) then ret tt
       else if ftype f =? FCB_TYPE_DEVICE then
         modify (fun s => set_st (set_st_blksize (blksize f) (st s)) s) ;;;
         when (blksize f =? 1) (modify (fun s => set_st (set_st_mode (Z.lor (st_mode (st s)) S_IFCHR) (st s)) s))
       else
         h <-- drv_has (ffs f) has_stat ;;
         when h (drv_stat (ffs f) (storage f) (inode f) ;;; ret tt) ;;;
         dv <-- fcb_at (storage f) ;;
         modify (fun s => set_st (set_st_blksize (blksize dv) (st s)) s)) ;;;
      ret true
  end.

End Ops.
End Vfs.
