(* ===== verification/VfsFacts.v ===== *)
(** Correctness of Vfs.v: the canonical form of paths. *)
From Stdlib Require Import ZArith Lia List.
From stdpp Require Import base option list gmap.
From S2P Require Import Prelude CoreState LibcStd FsState FsFacts Fcb Devfs Cache Vfs.
Import FsState.
Import Vfs.

(** ** Scanning a path *)

Lemma span_app test a b : Forall (fun c => test c = true) a ->
  match b with [] => True | c :: _ => test c = false end -> span test (a ++ b) = zlen a.
Proof.
  intros Ha Hb. induction Ha as [|c a Hc _ IH]; simpl.
  - destruct b; [done|]. simpl. by rewrite Hb.
  - rewrite Hc, IH. unfold zlen. simpl. lia.
Qed.

Lemma at_hd p i : 0 <= i -> at_ p i = hd 0 (drop (Z.to_nat i) p).
Proof.
  intros Hi. unfold at_. rewrite zget_nonneg by done.
  rewrite <- (Nat.add_0_r (Z.to_nat i)) at 1. rewrite <- lookup_drop. by destruct (drop _ p).
Qed.

Lemma drop_past (p a b : list Z) i : 0 <= i -> drop (Z.to_nat i) p = a ++ b -> drop (Z.to_nat (i + zlen a)) p = b.
Proof.
  intros Hi H. replace (Z.to_nat (i + zlen a)) with (Z.to_nat i + length a)%nat by (unfold zlen; lia).
  rewrite <- drop_drop, H. apply drop_app_length.
Qed.

(** What is left of a path bounds the position in it. *)
Lemma drop_len (p b : list Z) i c : 0 <= i -> drop (Z.to_nat i) p = c :: b -> i + 1 + zlen b = zlen p.
Proof.
  intros Hi H. assert (Hl : length (drop (Z.to_nat i) p) = S (length b)) by by rewrite H.
  rewrite length_drop in Hl. unfold zlen. lia.
Qed.

(** ** Plain absolute paths *)

(** The bytes of a name. *)
Definition name_byte (c : Z) : bool := negb (c =? SLASH) && negb (PATHEND c).

(** A member of a path: not empty, and not the parent directory. *)
Definition name_ok (n : list Z) : bool :=
  forallb name_byte n && negb (bool_decide (n = [])) && negb (bool_decide (n = [DOT; DOT])).

(** Members with the number of additional slashes in front of each. *)
Definition text (l : list (nat * list Z)) : list Z :=
  concat (map (fun x => SLASH :: List.repeat SLASH (fst x) ++ snd x) l).

Definition canonical (l : list (nat * list Z)) : list Z :=
  concat (map (fun x => if bool_decide (snd x = [DOT]) then [] else SLASH :: snd x) l).

(** The result with a slash at its end. *)
Definition slashed (r : list Z) : list Z :=
  match last_of r with Some c => if c =? SLASH then r else r ++ [SLASH] | None => r end.

Example canonical_1 : canonical [(0%nat, [97]); (2%nat, [46]); (1%nat, [98; 99])] = [47; 97; 47; 98; 99].
Proof. reflexivity. Qed.

Lemma last_of_app r c : last_of (r ++ [c]) = Some c.
Proof.
  unfold last_of. rewrite zlen_app. rewrite zget_app_r by (unfold zlen; simpl; lia).
  replace (zlen r + zlen [c] - 1 - zlen r) with 0 by (unfold zlen; simpl; lia). done.
Qed.

Lemma last_of_name r n : name_ok n = true -> exists c, last_of (r ++ n) = Some c /\ (c =? SLASH) = false.
Proof.
  unfold name_ok. intros H. b2p. destruct (rev n) as [|c n'] eqn:Hr.
  { apply (f_equal (@rev Z)) in Hr. rewrite rev_involutive in Hr. subst n. done. }
  apply (f_equal (@rev Z)) in Hr. rewrite rev_involutive in Hr. simpl in Hr. subst n.
  exists c. rewrite app_assoc, last_of_app. split; [done|].
  rewrite forallb_app in H. simpl in H. unfold name_byte in H. b2p. by apply Z.eqb_neq.
Qed.

(** What follows a name: the end of the path or a slash. *)
Definition follows (b : list Z) : Prop := match b with [] => True | c :: _ => c = SLASH end.

Lemma skip_past test p i a b : 0 <= i -> drop (Z.to_nat i) p = a ++ b ->
  Forall (fun c => test c = true) a -> match b with [] => True | c :: _ => test c = false end ->
  skip test p i = i + zlen a.
Proof. intros Hi H Ha Hb. unfold skip. rewrite H. by rewrite span_app. Qed.

Lemma slashed_step r c : last_of r = Some c -> (if c =? SLASH then r else r ++ [SLASH]) = slashed r.
Proof. intros H. unfold slashed. by rewrite H. Qed.

Lemma name_cons n : name_ok n = true -> exists x m, n = x :: m /\ name_byte x = true /\ forallb name_byte m = true.
Proof.
  unfold name_ok. destruct n as [|x m]; intros H; b2p; [done|]. simpl in H. b2p. by exists x, m.
Qed.

Lemma name_byte_spec x : name_byte x = true -> x <> SLASH /\ x <> SEMI /\ x <> HASH /\ x <> 0.
Proof. unfold name_byte, PATHEND. intros H. b2p. done. Qed.

(** The test of [member] for the current directory fails on another name. *)
Lemma not_dot p i n b : 0 <= i -> name_ok n = true -> n <> [DOT] -> drop (Z.to_nat i) p = n ++ b ->
  at_ p i = DOT -> (at_ p (i + 1) =? SLASH) || PATHEND (at_ p (i + 1)) = false.
Proof.
  intros Hi Hn Hne Hd. destruct (name_cons n Hn) as (x&m&->&Hx&Hm).
  pose proof (drop_past p [x] (m ++ b) i Hi Hd) as Hd1. change (zlen [x]) with 1 in Hd1.
  rewrite (at_hd p (i + 1)), Hd1, (at_hd p i), Hd by lia. simpl. intros ->.
  destruct m as [|y m]; [done|]. simpl in Hm. apply andb_prop in Hm as [Hy _]. simpl.
  unfold name_byte in Hy. b2p. unfold PATHEND in *. lia.
Qed.

(** The test of [member] for a step into the parent of "..." fails on a name. *)
Lemma not_dotdot p i n b : 0 <= i -> name_ok n = true -> follows b -> drop (Z.to_nat i) p = n ++ b ->
  at_ p (i + 1) = DOT -> at_ p i = DOT -> (at_ p (i + 2) =? SLASH) || PATHEND (at_ p (i + 2)) = false.
Proof.
  intros Hi Hn Hb Hd. pose proof (drop_past p n b i Hi Hd) as Hd'.
  destruct (name_cons n Hn) as (x&m&->&Hx&Hm). pose proof (drop_past p [x] (m ++ b) i Hi Hd) as Hd1.
  change (zlen [x]) with 1 in Hd1. rewrite (at_hd p (i + 1)), Hd1 by lia. intros Hy.
  destruct m as [|y m]; simpl in Hy.
  { destruct b; simpl in *; [done|]. subst. done. }
  pose proof (drop_past p [y] (m ++ b) (i + 1) ltac:(lia) Hd1) as Hd2.
  change (zlen [y]) with 1 in Hd2. replace (i + 1 + 1) with (i + 2) in Hd2 by lia.
  rewrite (at_hd p (i + 2)), Hd2, (at_hd p i), Hd by lia. simpl. intros ->. subst y.
  destruct m as [|z m]; [done|]. simpl in Hm. apply andb_prop in Hm as [Hz _]. simpl.
  unfold name_byte in Hz. b2p. unfold PATHEND in *. lia.
Qed.

(** The slashes before a member are skipped. *)
Lemma member_start p i n x b : 0 <= i -> drop (Z.to_nat i) p = List.repeat SLASH n ++ x :: b -> name_byte x = true ->
  i < zlen p /\ PATHEND (at_ p i) = false /\ skip (Z.eqb SLASH) p i = i + Z.of_nat n /\
  drop (Z.to_nat (i + Z.of_nat n)) p = x :: b.
Proof.
  intros Hi Hd Hx. pose proof (name_byte_spec x Hx) as (X1&X2&X3&X4).
  assert (Hz : zlen (List.repeat SLASH n) = Z.of_nat n) by (unfold zlen; by rewrite repeat_length).
  rewrite <- Hz. rewrite at_hd by done. split; [|split; [|split]].
  - assert (0 < zlen (drop (Z.to_nat i) p)).
    { rewrite Hd, zlen_app, zlen_cons. pose proof (zlen_nonneg b). lia. }
    unfold zlen in *. rewrite length_drop in *. lia.
  - rewrite Hd. unfold PATHEND. destruct n; simpl; [lia|done].
  - apply (skip_past _ p i _ (x :: b)); [done|done|..].
    + apply Forall_forall. intros y Hy%list_elem_of_In%repeat_spec. by subst.
    + apply Z.eqb_neq. congruence.
  - by apply drop_past.
Qed.

(** A name is copied behind a slash. *)
Lemma member_name p i r n name b :
  0 <= i -> is_Some (last_of r) -> drop (Z.to_nat i) p = List.repeat SLASH n ++ name ++ b ->
  name_ok name = true -> name <> [DOT] -> follows b ->
  member p i r = Some (inl (i + Z.of_nat n + zlen name + 1, slashed r ++ name)).
Proof.
  intros Hi [c Hc] Hd Hn Hdot Hb. destruct (name_cons name Hn) as (x&m&Hxm&Hx&Hm).
  destruct (member_start p i n x (m ++ b) Hi) as (Hik&Hpe&Hs&Hdj); [by rewrite Hd, Hxm|done|].
  change (x :: m ++ b) with ((x :: m) ++ b) in Hdj. rewrite <- Hxm in Hdj.
  set (j := i + Z.of_nat n) in *. assert (Hj : 0 <= j) by lia.
  assert (He : skip (fun c => negb (c =? SLASH) && negb (PATHEND c)) p j = j + zlen name).
  { apply (skip_past _ p j name b); [done|done|..].
    - unfold name_ok in Hn. b2p. apply Forall_forall. intros y Hy%list_elem_of_In.
      by eapply forallb_forall in Hy; [|done].
    - destruct b; [done|]. simpl in Hb. by subst. }
  assert (Hde : drop (Z.to_nat (j + zlen name)) p = b) by (by apply drop_past).
  assert (Hae : at_ p (j + zlen name) = SLASH \/ at_ p (j + zlen name) = 0).
  { rewrite at_hd, Hde by (pose proof (zlen_nonneg name); lia). destruct b; [by right|left; done]. }
  unfold member. rewrite Hpe. replace (i <? zlen p) with true by lia. cbn [andb negb]. cbv zeta. rewrite Hc. simpl.
  rewrite (slashed_step r c Hc), Hs. fold j.
  assert (H1 : (at_ p j =? DOT) && (j + 1 <? zlen p) && ((at_ p (j + 1) =? SLASH) || PATHEND (at_ p (j + 1))) = false).
  { destruct (Z.eqb_spec (at_ p j) DOT) as [Hx'|]; [|done].
    rewrite (not_dot p j name b Hj Hn Hdot Hdj Hx'). by rewrite andb_false_r. }
  assert (H2 : (at_ p j =? DOT) && (j + 2 <? zlen p) && (at_ p (j + 1) =? DOT) &&
               ((at_ p (j + 2) =? SLASH) || PATHEND (at_ p (j + 2))) = false).
  { destruct (Z.eqb_spec (at_ p j) DOT) as [Hx'|]; [|done].
    destruct (Z.eqb_spec (at_ p (j + 1)) DOT) as [Hy'|]; [|by rewrite !andb_false_r].
    rewrite (not_dotdot p j name b Hj Hn Hb Hdj Hy' Hx'). by rewrite andb_false_r. }
  rewrite H1. replace ((4 <? zlen (slashed r)) && _ && _ && _ && _ && _) with false.
  2:{ rewrite <- !andb_assoc in *. destruct (4 <? zlen (slashed r)); [|done]. cbn [andb].
      rewrite !andb_assoc in *. by rewrite H2. }
  rewrite He, Hdj. replace (Z.to_nat (j + zlen name - j)) with (length name) by (unfold zlen; lia).
  rewrite take_app_length. destruct (last_of_name (slashed r) name Hn) as (cl&Hcl&Hns). rewrite Hcl. simpl.
  replace (at_ p (j + zlen name) =? SEMI) with false by (unfold SLASH, SEMI in *; lia). simpl. rewrite Hcl. simpl.
  replace (at_ p (j + zlen name) =? HASH) with false by (unfold SLASH, HASH in *; lia). done.
Qed.

(** The current directory is skipped. *)
Lemma member_dot p i r n b :
  0 <= i -> is_Some (last_of r) -> drop (Z.to_nat i) p = List.repeat SLASH n ++ DOT :: SLASH :: b ->
  member p i r = Some (inl (i + Z.of_nat n + 2, slashed r)).
Proof.
  intros Hi [c Hc] Hd.
  destruct (member_start p i n DOT (SLASH :: b) Hi Hd eq_refl) as (Hik&Hpe&Hs&Hdj).
  set (j := i + Z.of_nat n) in *. assert (Hj : 0 <= j) by lia.
  pose proof (drop_past p [DOT] (SLASH :: b) j Hj Hdj) as Hd1. change (zlen [DOT]) with 1 in Hd1.
  pose proof (drop_len _ _ _ _ Hj Hdj) as Hlen. rewrite zlen_cons in Hlen. pose proof (zlen_nonneg b).
  unfold member. rewrite Hpe. replace (i <? zlen p) with true by lia. cbn [andb negb]. cbv zeta. rewrite Hc. simpl.
  rewrite (slashed_step r c Hc), Hs. fold j.
  rewrite (at_hd p j), (at_hd p (j + 1)), Hdj, Hd1 by lia. simpl.
  replace (j + 1 <? zlen p) with true by lia. done.
Qed.

(** ** The loop *)

(** The result [r] when [c] is the canonical form so far. *)
Definition res_ok (r c : list Z) : Prop :=
  r = c ++ [SLASH] \/ (r = c /\ exists x, last_of c = Some x /\ (x =? SLASH) = false).

Lemma res_slashed r c : res_ok r c -> slashed r = c ++ [SLASH].
Proof.
  unfold slashed. intros [->|(->&x&Hx&Hs)]; [by rewrite last_of_app|]. by rewrite Hx, Hs.
Qed.
Lemma res_last r c : res_ok r c -> is_Some (last_of r).
Proof. intros [->|(->&x&Hx&_)]; [by rewrite last_of_app|]. by exists x. Qed.
Lemma res_len r c : res_ok r c -> zlen r <= zlen c + 1.
Proof. intros [->|(->&_)]; [rewrite zlen_app; unfold zlen; simpl; lia|lia]. Qed.

(** The end of a directory's path. *)
Definition ending (dir : bool) : list Z := if dir then [SLASH] else [].

(** Every member is a name, and the last is not the current directory unless a slash
    follows. *)
Fixpoint path_ok (l : list (nat * list Z)) (dir : bool) : bool :=
  match l with
  | [] => true
  | (_, n) :: l' =>
      name_ok n && path_ok l' dir &&
      match l' with [] => dir || negb (bool_decide (n = [DOT])) | _ => true end
  end.

(** The position [i], behind the slash that comes before the members [l]. *)
Definition behind (p : list Z) (i : Z) (l : list (nat * list Z)) (dir : bool) : Prop :=
  match l with
  | [] => if dir then i = zlen p /\ at_ p (i - 1) = SLASH else i = zlen p + 1
  | (n, name) :: l' => drop (Z.to_nat i) p = List.repeat SLASH n ++ name ++ text l' ++ ending dir
  end.

Lemma text_follows l dir : follows (text l ++ ending dir).
Proof. destruct l as [|[n name] l]; [by destruct dir|done]. Qed.

(** Moving over a member, up to what follows it. *)
Lemma behind_next p i l dir :
  0 <= i <= zlen p -> drop (Z.to_nat i) p = text l ++ ending dir -> behind p (i + 1) l dir.
Proof.
  intros Hi Hd. destruct l as [|[n name] l].
  - destruct dir; simpl in *.
    + pose proof (drop_len p [] i SLASH ltac:(lia) Hd) as Hl. change (zlen (@nil Z)) with 0 in Hl.
      split; [lia|]. rewrite at_hd by lia. replace (i + 1 - 1) with i by lia. by rewrite Hd.
    + apply (f_equal length) in Hd. rewrite length_drop in Hd. simpl in Hd. unfold zlen in *. lia.
  - change (text ((n, name) :: l)) with ((SLASH :: List.repeat SLASH n ++ name) ++ text l) in Hd.
    rewrite <- app_assoc in Hd. simpl in Hd. rewrite <- app_assoc in Hd.
    apply (drop_past p [SLASH] _ i); [lia|exact Hd].
Qed.

Lemma drop_in_range (p b : list Z) i : 0 <= i -> drop (Z.to_nat i) p = b -> b <> [] -> i <= zlen p - zlen b.
Proof.
  intros Hi <- Hne. unfold zlen. rewrite length_drop.
  assert (length (drop (Z.to_nat i) p) <> 0%nat) by (by destruct (drop _ p)).
  rewrite length_drop in *. lia.
Qed.

(** A round over a member, and what the members are then. *)
Lemma member_ok p i r c n name l dir :
  0 <= i -> res_ok r c -> behind p i ((n, name) :: l) dir -> path_ok ((n, name) :: l) dir = true ->
  exists i' r', member p i r = Some (inl (i', r')) /\ 0 < i' /\ behind p i' l dir /\
    res_ok r' (c ++ canonical [(n, name)]) /\ (l = [] -> dir = false -> r' = c ++ canonical [(n, name)]).
Proof.
  intros Hi Hr Hb Hok. simpl in Hb, Hok. b2p. pose proof (text_follows l dir) as Hf.
  pose proof (drop_past p _ _ i Hi Hb) as Hb1. assert (Hz : zlen (List.repeat SLASH n) = Z.of_nat n)
    by (unfold zlen; by rewrite repeat_length). rewrite Hz in Hb1.
  destruct (name_cons name H) as (x&m&Hxm&_&_). assert (Hne : name ++ text l ++ ending dir <> []) by (by rewrite Hxm).
  pose proof (drop_in_range p _ (i + Z.of_nat n) ltac:(lia) Hb1 Hne) as Hlen. rewrite zlen_app in Hlen.
  pose proof (zlen_nonneg name). pose proof (zlen_nonneg (text l ++ ending dir)).
  pose proof (drop_past p _ _ (i + Z.of_nat n) ltac:(lia) Hb1) as Hb2.
  pose proof (behind_next p (i + Z.of_nat n + zlen name) l dir ltac:(lia) Hb2) as Hnext.
  unfold canonical. simpl. destruct (bool_decide_reflect (name = [DOT])) as [->|Hdot].
  - change (zlen [DOT]) with 1 in *. destruct (text l ++ ending dir) as [|y b] eqn:Ht.
    { destruct l as [|[? ?] ?]; [|done]. by destruct dir. }
    simpl in Hf. subst y. exists (i + Z.of_nat n + 2), (slashed r).
    split; [eapply member_dot; [done|by apply res_last in Hr|exact Hb]|]. split; [lia|].
    replace (i + Z.of_nat n + 2) with (i + Z.of_nat n + 1 + 1) by lia. split; [done|].
    rewrite !app_nil_r, (res_slashed r c Hr). split; [by left|]. intros -> ->. done.
  - exists (i + Z.of_nat n + zlen name + 1), (slashed r ++ name).
    split; [eapply member_name; try done; by apply res_last in Hr|]. split; [lia|]. split; [done|].
    rewrite (res_slashed r c Hr), <- app_assoc, app_nil_r. split; [|done]. right. split; [done|].
    change (SLASH :: name) with ([SLASH] ++ name). rewrite app_assoc. by apply (last_of_name (c ++ [SLASH]) name).
Qed.

Lemma members_ok p dir mx l : forall fuel i r c,
  0 < i -> res_ok r c -> behind p i l dir -> path_ok l dir = true -> (l = [] -> dir = false -> r = c) ->
  (length l < fuel)%nat -> zlen c + zlen (canonical l) + 1 < mx ->
  exists i' r', members fuel mx p i r = Some (i', r') /\ 0 < i' /\ behind p i' [] dir /\
    res_ok r' (c ++ canonical l) /\ (dir = false -> r' = c ++ canonical l).
Proof.
  induction l as [|[n name] l IH]; intros fuel i r c Hi Hr Hb Hok He Hf Hmx; (destruct fuel; [simpl in Hf; lia|]).
  - unfold canonical in *. simpl in Hmx |- *. change (zlen (@nil Z)) with 0 in Hmx. pose proof (res_len r c Hr).
    replace (mx <=? zlen r) with false by lia. exists i, r. rewrite app_nil_r.
    assert (Hend : (i <? zlen p) = false) by (simpl in Hb; destruct dir; lia).
    unfold member. rewrite Hend. simpl. split; [done|]. split; [done|]. split; [done|]. split; [done|]. by apply He.
  - destruct (member_ok p i r c n name l dir ltac:(lia) Hr Hb Hok) as (i1&r1&Hm&Hi1&Hb1&Hr1&He1).
    assert (Hz : canonical ((n, name) :: l) = canonical [(n, name)] ++ canonical l)
      by (unfold canonical; simpl; by rewrite app_nil_r).
    rewrite Hz, zlen_app in Hmx. pose proof (zlen_nonneg (canonical l)). pose proof (zlen_nonneg (canonical [(n, name)])).
    pose proof (res_len r c Hr). simpl in Hok. b2p.
    destruct (IH fuel i1 r1 (c ++ canonical [(n, name)])) as (i2&r2&Hm2&?&?&?&?); try done.
    { simpl in Hf. lia. } { rewrite zlen_app. lia. }
    exists i2, r2. simpl. replace (mx <=? zlen r) with false by lia. rewrite Hm. simpl. rewrite Hm2, Hz, app_assoc. done.
Qed.

(** ** The canonical form *)

Lemma text_bytes l dir : path_ok l dir = true -> Forall (fun c => c <> 0) (canonical l).
Proof.
  induction l as [|[n name] l IH]; simpl; intros H; [constructor|]. b2p. unfold canonical in *. simpl.
  apply Forall_app. split; [|by apply IH]. destruct (bool_decide _); constructor; [done|].
  unfold name_ok in H. b2p. apply Forall_forall. intros x Hx%list_elem_of_In.
  assert (Hb : name_byte x = true) by (by eapply forallb_forall in Hx; [|done]). by apply name_byte_spec in Hb as (_&_&_&?).
Qed.

Lemma cstring_id r : Forall (fun c => c <> 0) r -> cstring r = r.
Proof.
  intros H. unfold cstring. rewrite <- (app_nil_r r) at 1. rewrite span_app; [|eapply Forall_impl; [exact H|]; intros c Hc; cbn beta in *; lia|done].
  apply take_ge. unfold zlen. lia.
Qed.

Lemma text_length l : (length l <= length (text l))%nat.
Proof.
  induction l as [|[n name] l IH]; [done|].
  change (text ((n, name) :: l)) with ((SLASH :: List.repeat SLASH n ++ name) ++ text l).
  rewrite length_app. simpl length. lia.
Qed.

(** The slash at the end of the result. *)
Lemma strip_slash r c : res_ok r c -> (match last_of r with Some 47 => chop 1 r | _ => r end) = c.
Proof.
  intros [->|(->&x&->&Hx)].
  - rewrite last_of_app. change SLASH with 47. unfold chop. rewrite zlen_app.
    replace (zlen c + zlen [47] - 1) with (zlen c) by (unfold zlen; simpl; lia).
    unfold zlen. rewrite Nat2Z.id. apply take_app_length.
  - destruct x as [|q|q]; try done. do 6 (destruct q; try done).
Qed.

(** The context of the task served has the root directory of the file system. *)
Definition at_root (s : fs_state) : Prop :=
  exists t f, ctxs s !! ctx s = Some t /\ zget (fcb s) (rootdir t) = Some f /\ abspath f = Some [SLASH].

Lemma wp_canon_start p dir l (Q : Z * list Z -> fs_state -> Prop) s :
  at_root s -> p = text l ++ ending dir -> p <> [] -> Q (1, [SLASH]) s -> wp (canon_start p) Q s.
Proof.
  intros (t&f&Ht&Hf&Hp) Hl Hne HQ. assert (Hh : exists b, p = SLASH :: b).
  { pose proof (text_follows l dir) as Hf'. rewrite <- Hl in Hf'. destruct p as [|c b]; [done|].
    simpl in Hf'. subst c. by exists b. }
  destruct Hh as [b ->]. unfold canon_start.
  replace (skip (fun c => negb (c =? COLON) && negb (c =? SLASH) && negb (PATHEND c)) (SLASH :: b) 0) with 0 by done.
  change (at_ (SLASH :: b) 0) with SLASH. change (SLASH =? COLON) with false. cbn iota zeta.
  fs_go. eapply wp_need; [done|]. change (SLASH =? SLASH) with true. cbn iota. fs_go.
  eapply wp_need; [done|]. change (SLASH =? SLASH) with true. cbn iota. by fs_go.
Qed.

(** C39: the canonical form of an absolute path keeps its members, with one slash before
    each, without the references to the current directory, and a slash at its end if the
    path has one.  This is for a task whose root is "/", and for paths of members that are
    not empty, have no slash, semicolon, hash sign or terminator in them and are not "..";
    of which the last is not "." unless a slash follows; with at most one slash at the end,
    and with any number between members; whose form is shorter than [pathmax]; when there is
    memory for it.  What becomes of other paths is in [canonize_quirks]. *)
Theorem canonize_members l dir s :
  at_root s -> allocs s = [] -> path_ok l dir = true -> text l ++ ending dir <> [] ->
  zlen (canonical l) + 1 < pathmax s ->
  canonize (Some (text l ++ ending dir)) s = Ret (Some (canonical l ++ ending dir)) s.
Proof.
  intros Hroot Hal Hok Hne Hmx. remember (text l ++ ending dir) as p eqn:Hpt.
  assert (Hlen : (length l < S (length p))%nat) by (pose proof (text_length l); rewrite Hpt, length_app; lia).
  assert (Hb : behind p 1 l dir) by (apply (behind_next p 0 l dir); [pose proof (zlen_nonneg p); lia|done]).
  destruct (members_ok p dir (pathmax s) l (S (length p)) 1 [SLASH] []) as (i&r&Hm&Hi&Hend&Hr&Hr'); try done.
  { by left. } { intros -> ->. done. }
  assert (Hw : wp (canonize (Some p)) (fun r s' => r = Some (canonical l ++ ending dir) /\ s' = s) s).
  { destruct p as [|c b]; [done|]. unfold canonize, canonize_buf. fs_go. cbn [negb]. cbn iota. fs_go.
    eapply wp_canon_start; [done|exact Hpt|done|]. fs_go. eapply wp_need; [exact Hm|].
    cbn beta iota. rewrite !(strip_slash r _ Hr). simpl in Hr, Hr'.
    replace (0 <? i) with true by lia. pose proof (text_bytes l dir Hok) as Hbytes. simpl in Hend.
    set (q := c :: b) in *. destruct dir; simpl.
    - destruct Hend as [-> Hsl]. rewrite Hsl. change (SLASH =? SLASH) with true. cbn iota.
      rewrite zlen_app. change (zlen [SLASH]) with 1. replace (pathmax s <=? _) with false by lia.
      fs_go. cbn. rewrite cstring_id; [done|]. apply Forall_app. split; [done|]. by repeat constructor.
    - subst i. rewrite (at_hd q (zlen q + 1 - 1)) by (pose proof (zlen_nonneg q); lia).
      rewrite drop_ge by (unfold zlen; lia). change (hd 0 [] =? SLASH) with false. cbn iota.
      replace (pathmax s <=? _) with false by lia. fs_go. cbn. rewrite cstring_id, app_nil_r; done. }
  apply wp_run in Hw as (r'&s'&Hrun&->&->). exact Hrun.
Qed.

(** ** Instances *)

(** A task at the root directory. *)
Definition rooted : fs_state :=
  set_pathmax 512 (set_ctx 8 (set_ctxs {[ 8 := set_t_pid 7 zero_ctx ]}
    (set_nfcb 1 (set_fcb [set_ftype FCB_TYPE_REG_DIR (set_abspath (Some [47]) zero_fcb)] init_fs)))).

Lemma rooted_ok : at_root rooted.
Proof. do 2 eexists. split; [reflexivity|]. split; reflexivity. Qed.

(** "//a/./bc/" is "/a/bc/". *)
Lemma canonize_members_witness :
  canonize (Some [47; 47; 97; 47; 46; 47; 98; 99; 47]) rooted = Ret (Some [47; 97; 47; 98; 99; 47]) rooted.
Proof.
  apply (canonize_members [(1%nat, [97]); (0%nat, [46]); (0%nat, [98; 99])] true rooted);
    [apply rooted_ok|reflexivity|reflexivity|done|reflexivity].
Defined.

(** What [canonize] does not keep or remove: the version number of "/a;3" is dropped,
    the last member of "/a/." stays, two slashes at the end of "/a//" are lost, in
    "/a.../../b" the end of a name is taken for the member "...", and of "sd:/foo" only the
    directory of the devices is left. *)
Theorem canonize_quirks :
  canonize (Some [47; 97; 59; 51]) rooted = Ret (Some [47; 97]) rooted /\
  canonize (Some [47; 97; 47; 46]) rooted = Ret (Some [47; 97; 47; 46]) rooted /\
  canonize (Some [47; 97; 47; 47]) rooted = Ret (Some [47; 97]) rooted /\
  canonize (Some [47; 97; 46; 46; 46; 47; 46; 46; 47; 98]) rooted = Ret (Some [47; 97; 47; 98]) rooted /\
  canonize (Some [115; 100; 58; 47; 102; 111; 111]) rooted = Ret (Some Devfs.DEVPATH) rooted.
Proof. repeat split; vm_compute; reflexivity. Qed.
