(* ===== verification/Mounts.v ===== *)
(** File system drivers, mounts, device removal and the consistency check:
    src/fs/fsdrv.c, src/fs/mtab.c, [devfs_del] and [devfs_init] of src/fs/devfs.c, and
    [dofsck] of src/fs/vfs.c. *)
From Stdlib Require Import ZArith Lia List.
From stdpp Require Import base option list gmap.
From S2P Require Import Prelude CoreState FsState Fcb Devfs Cache Vfs.
Import FsState.

Module Fsdrv.
Section Ops.
Context {E : FsEnv} {D : FsDrivers}.

(** "devfs" *)
Definition DEVFS : list Z := [100; 101; 118; 102; 115].

Definition fsdrv_reg (fs : fsdrv_t) : M fs_state Z :=
  match fs_name fs with
  | [] => ret m1U16
  | _ =>
      let isdevfs := bool_decide (fs_name fs = DEVFS) in
      if negb isdevfs && (negb (has_detect fs) || negb (has_locate fs)) then ret m1U16 else
      modify (fun s => set_nfsdrv (u16 (nfsdrv s + 1)) s) ;;;
      ok <-- alloc_ok ;;
      n <-- gets nfsdrv ;;
      modify (fun s => set_fsdrv (if (ok : bool) then resize fs n (fsdrv s) else []) s) ;;;
      e <-- gets errn ;;
      if negb ok || negb (e =? 0) then stop 2 else
      s <-- get ;;
      need (zget (fsdrv s) (n - 1)) ;;;
      modify (set_fsdrv (zset (fsdrv s) (n - 1) fs)) ;;;
      when ((devfsidx s =? m1U16) && isdevfs) (modify (set_devfsidx (u16 (n - 1)))) ;;;
      ret (u16 (n - 1))
  end.

(** The first driver, from index [i] on, with the name. *)
Fixpoint find_drv (name : list Z) (l : list fsdrv_t) (i : Z) : Z :=
  match l with
  | [] => m1U16
  | d :: l' => if streq (fs_name d) name then i else find_drv name l' (i + 1)
  end.
Definition fsdrv_get (name : list Z) : M fs_state Z :=
  s <-- get ;; ret (find_drv name (take (Z.to_nat (nfsdrv s)) (fsdrv s)) 0).

(** The first of [n] drivers, from index [i] on, that knows the superblock. *)
Fixpoint detect_from (n : nat) (i : Z) (dev : Z) (blk : list Z) : M fs_state Z :=
  match n with
  | O => ret m1U16
  | S n' =>
      d <-- fsdrv_at i ;;
      r <-- (if has_detect d then drv_detect i dev blk else ret false) ;;
      if (r : bool) then ret i else detect_from n' (i + 1) dev blk
  end.

(** The answer, a signed 16 bit number, is kept as its unsigned pattern. *)
Definition fsdrv_detect (fuel : nat) (dev : Z) : M fs_state Z :=
  if dev =? DEVFCB then gets devfsidx else
  blk <-- Vfs.readblock fuel dev 0 ;;
  match blk with
  | None => ret m1U16
  | Some blk => n <-- gets nfsdrv ;; detect_from (Z.to_nat n) 0 dev blk
  end.

End Ops.
End Fsdrv.

Module Mtab.
Section Ops.
Context {E : FsEnv} {D : FsDrivers}.

Definition mtab_init : M fs_state unit := Fcb.fcb_add [47] FCB_TYPE_REG_DIR ;;; ret tt.

(** The first mount, from index [i] on, at the mount point. *)
Fixpoint find_mount (ff : Z) (l : list mtab_t) (i : Z) : option (Z * mtab_t) :=
  match l with
  | [] => None
  | m :: l' => if mountpoint m =? ff then Some (i, m) else find_mount ff l' (i + 1)
  end.

Definition seterr_first (e : Z) : M fs_state unit := c <-- gets errn ;; when (c =? 0) (seterr e).

(** [depth] bounds the nesting: mounting the root mounts /dev. *)
Fixpoint mtab_add (depth fuel : nat) (dev file : option (list Z)) : M fs_state Z :=
  match depth with
  | O => loop
  | S depth' =>
      match dev, file with
      | Some (_ :: _), Some (_ :: _) =>
          fd <-- Fcb.fcb_get dev ;;
          bad <-- (if fd =? m1U then ret true else
                     f <-- fcb_at fd ;;
                     ret (negb (fd =? DEVFCB) && negb (ftype f =? FCB_TYPE_DEVICE) &&
                          negb (ftype f =? FCB_TYPE_REG_FILE))) ;;
          if (bad : bool) then seterr_first ENODEV ;;; ret m1U16 else
          ff <-- Fcb.fcb_get file ;;
          bad <-- (if ff =? m1U then ret true else f <-- fcb_at ff ;; ret (negb (ftype f =? FCB_TYPE_REG_DIR))) ;;
          if (bad : bool) then seterr_first ENOTDIR ;;; ret m1U16 else
          s <-- get ;;
          if ((fd =? ff) && rootmounted s) || (negb (ff =? ROOTFCB) && (nmtab s =? 0))
          then seterr EINVAL ;;; ret m1U16 else
          fs <-- Fsdrv.fsdrv_detect fuel fd ;;
          s <-- get ;;
          if fs =? m1U16 then
            if negb (rootmounted s) || (nmtab s =? 0) then stop 1 else seterr ENOFS ;;; ret m1U16
          else
          i <-- match find_mount ff (take (Z.to_nat (nmtab s)) (mtab s)) 0 with
                | Some (i, m) => fcb_mod (m_storage m) (fun f => set_nopen (u64 (nopen f - 1)) f) ;;; ret (Some i)
                | None =>
                    let n := u16 (nmtab s + 1) in
                    modify (set_nmtab n) ;;;
                    ok <-- alloc_ok ;;
                    if (ok : bool) then
                      modify (fun s => set_mtab (resize zero_mtab n (mtab s)) s) ;;;
                      fcb_mod ff (fun f => set_nopen (nopen f + 1) f) ;;; ret (Some (n - 1))
                    else modify (set_mtab []) ;;; ret None
                end ;;
          match i with
          | None => ret m1U16
          | Some i =>
              s <-- get ;;
              need (zget (mtab s) i) ;;;
              put (set_mtab (zset (mtab s) i (mk_mtab ff fd fs)) s) ;;;
              df <-- fcb_at fd ;;
              fcb_mod ff (fun f => let f := set_fmode (fmode df) (set_ffs fs f) in
                                   if ff =? DEVFCB then set_fmode O_RDONLY f else set_storage fd f) ;;;
              fcb_mod fd (fun f => set_nopen (nopen f + 1) f) ;;;
              s <-- get ;;
              when ((ff =? ROOTFCB) && negb (rootmounted s))
               (mtab_add depth' fuel (Some Devfs.DEVPATH) (Some Devfs.DEVPATH) ;;;
                modify (set_rootmounted true)) ;;;
              ret m1U16
          end
      | _, _ => seterr EINVAL ;;; ret m1U16
      end
  end.

(** The entry [i] is dropped: the ones behind it move up, and the array shrinks to the
    new count. *)
Definition drop_mount (i : Z) : M fs_state unit :=
  s <-- get ;;
  let n := nmtab s - 1 in
  put (set_mtab (resize zero_mtab n (take (Z.to_nat i) (mtab s) ++ drop (Z.to_nat (i + 1)) (mtab s)))
         (set_nmtab n s)).

(** The first mount, from index [i] on, of the device or at the mount point. *)
Fixpoint find_either (absdev absmnt : option (list Z)) (l : list mtab_t) (i : Z) : M fs_state (option Z) :=
  match l with
  | [] => ret None
  | m :: l' =>
      d <-- match absdev with Some a => f <-- fcb_at (m_storage m) ;; ret (streq_null (abspath f) a) | None => ret false end ;;
      p <-- (if (d : bool) then ret true else
               match absmnt with Some a => f <-- fcb_at (mountpoint m) ;; ret (streq_null (abspath f) a) | None => ret false end) ;;
      if (p : bool) then ret (Some i) else find_either absdev absmnt l' (i + 1)
  end.

Definition mtab_del (dev file : option (list Z)) : M fs_state bool :=
  absdev <-- Vfs.canonize dev ;;
  absmnt <-- Vfs.canonize file ;;
  match absdev, absmnt with
  | None, None => seterr EINVAL ;;; ret false
  | _, _ =>
      s <-- get ;;
      r <-- find_either absdev absmnt (take (Z.to_nat (nmtab s)) (mtab s)) 0 ;;
      match r with
      | None => ret false
      | Some i =>
          drop_mount i ;;;
          (* realloc to no entries answers the null pointer *)
          n <-- gets nmtab ;;
          ok <-- (if n =? 0 then ret false else alloc_ok) ;;
          when (negb ok) (modify (set_mtab [])) ;;;
          ret ok
      end
  end.

End Ops.
End Mtab.

(** ** Devices that leave, and the devices there are from the start *)
Module Unplug.
Section Ops.
Context {E : FsEnv} {D : FsDrivers}.

(** The mounts of the device go; the index moves on behind a removed entry. *)
Definition drop_mounts (fuel : nat) (fid : Z) : M fs_state unit :=
  iter fuel (fun i => n <-- gets nmtab ;;
    if i <? n then
      s <-- get ;;
      m <-- need (zget (mtab s) i) ;;
      when (m_storage m =? fid) (Fcb.fcb_del fuel (mountpoint m) ;;; Mtab.drop_mount i) ;;;
      ret (inl (i + 1))
    else ret (inr tt)) 0.

(** The files on the device go. *)
Definition drop_files (fuel : nat) (fid : Z) : M fs_state unit :=
  iter fuel (fun i => n <-- gets nfcb ;;
    if i <? n then
      f <-- fcb_at i ;;
      when ((ftype f <? FCB_TYPE_PIPE) && (storage f =? fid))
        (fcb_mod i (set_nopen 0) ;;; Fcb.fcb_del fuel i) ;;;
      ret (inl (i + 1))
    else ret (inr tt)) 0.

(** [for(i = ndev; i > 0 && dev[i-1].fid == -1U; i--);] *)
Fixpoint trim (l : list devfs_t) (n : nat) : nat :=
  match n with
  | O => O
  | S n' => match l !! n' with
            | Some d => if d_fid d =? m1U then trim l n' else n
            | None => n
            end
  end.

Definition devfs_del (fuel : nat) (idx : Z) : M fs_state unit :=
  n <-- gets ndev ;;
  if n <=? idx then ret tt else
  d <-- dev_at idx ;;
  drop_mounts fuel (d_fid d) ;;;
  drop_files fuel (d_fid d) ;;;
  Cache.cache_freeblocks fuel (d_fid d) 0 ;;;
  fcb_mod (d_fid d) (set_nopen 0) ;;;
  Fcb.fcb_del fuel (d_fid d) ;;;
  dev_mod idx (set_d_fid m1U) ;;;
  s <-- get ;;
  let k := Z.of_nat (trim (dev s) (Z.to_nat (ndev s))) in
  when (negb (k =? ndev s)) (put (set_dev (resize zero_dev k (dev s)) (set_ndev k s))) ;;;
  modify (fun s => set_devidx (map (fun x => if x =? idx then m1U else x) (take (Z.to_nat (ndev s)) (devidx s)) ++
                               drop (Z.to_nat (ndev s)) (devidx s)) s) ;;;
  Devfs.sort_devidx fuel ;;;
  modify (fun s => set_devidx (resize 0 (ndev s) (devidx s)) s).

Definition devdrv : fsdrv_t :=
  mk_fsdrv Fsdrv.DEVFS false false false false false false false false false false.

(** [numsec] and [logsec] are fields of the superblock of the ram disk. *)
Definition devfs_init (fuel : nat) (numsec logsec : Z) : M fs_state unit :=
  Fsdrv.fsdrv_reg devdrv ;;;
  let s := Z.shiftr (u64 (numsec * Z.shiftl 1 (logsec + 11) + PAGESIZE - 1)) PAGEBITS in
  Fcb.fcb_add Devfs.DEVPATH FCB_TYPE_REG_DIR ;;;
  let add name dv mode cnt :=
    i <-- Devfs.devfs_add fuel name MEMFS_MAJOR dv mode PAGESIZE cnt ;;
    if i =? m1U then stop 2 else ret tt in
  add [122; 101; 114; 111] MEMFS_ZERO O_RDONLY 1 ;;;
  add Vfs.ROOTNAME MEMFS_RAMDISK O_RDWR s ;;;
  add [114; 97; 110; 100; 111; 109] MEMFS_RANDOM O_RDONLY 1 ;;;
  add [110; 117; 108; 108] MEMFS_NULL O_WRONLY 0.

End Ops.
End Unplug.

Module Fsck.
Section Ops.
Context {E : FsEnv} {D : FsDrivers}.

Definition FSCKSTEP_SB : Z := 0.
Definition FSCKSTEP_DONE : Z := 4.

(** The guard, the fields of [fd] looked at last. *)
Definition not_permitted (fd : Z) : M fs_state bool :=
  k <-- gets fsck_dev ;;
  if (fd =? m1U) || negb (k =? m1U) || negb (k =? fd) then ret true else
  f <-- fcb_at fd ;;
  ret (negb (ftype f =? FCB_TYPE_DEVICE) || negb (storage f =? DEVFCB)).

Definition reset : M fs_state unit := modify (fun s => set_fsck_step 0 (set_fsck_dev m1U s)).

(** The steps left, through the driver. *)
Definition steps (fuel : nat) (fd : Z) : M fs_state bool :=
  iter fuel (fun _ : unit =>
    s <-- get ;;
    if fsck_step s <? FSCKSTEP_DONE then
      r <-- drv_checkfs (fsck_fs s) fd ;;
      a <-- gets ackdelayed ;;
      if negb r || a then ret (inr false) else
      modify (fun s => set_fsck_step (u8 (fsck_step s + 1)) s) ;;; ret (inl tt)
    else ret (inr true)) tt.

Definition dofsck (fuel : nat) (fd : Z) (fix_ : bool) : M fs_state bool :=
  bad <-- not_permitted fd ;;
  if (bad : bool) then seterr EPERM ;;; ret false else
  k <-- gets fsck_dev ;;
  when (k =? m1U)
   (modify (fun s => set_fsck_step FSCKSTEP_SB (set_fsck_fix fix_ (set_fsck_dev fd s))) ;;;
    fs <-- Fsdrv.fsdrv_detect fuel fd ;;
    modify (set_fsck_fs (u16 fs))) ;;;
  s <-- get ;;
  h <-- (if fsck_fs s =? m1U16 then ret false else drv_has (fsck_fs s) has_checkfs) ;;
  if negb h then reset ;;; seterr EPERM ;;; ret false else
  ok <-- steps fuel fd ;;
  if (ok : bool) then modify (fun s => set_fsck_step 0 (set_fsck_dev m1UL s)) ;;; ret true
  else ret false.

End Ops.
End Fsck.
