(* ===== verification/MountsFacts.v ===== *)
(** Correctness of Mounts.v: the answer of [mtab_add], and the guard of the file system
    check. *)
From Stdlib Require Import ZArith Lia List.
From stdpp Require Import base option list gmap.
From S2P Require Import Prelude CoreState FsState FsFacts Fcb FcbFacts Pipe PipeFacts Devfs Cache Vfs Mounts.
Import FsState.

(** ** Values a computation can return *)

(** Whenever [m] returns, it returns a value in [P]. *)
Definition answers {A} (P : A -> Prop) (m : M fs_state A) : Prop :=
  forall s a s', m s = Ret a s' -> P a.

Lemma answers_ret {A} (P : A -> Prop) a : P a -> answers P (ret a).
Proof. intros HP s b s' [= <- _]. done. Qed.
Lemma answers_bind {A B} (P : B -> Prop) (m : M fs_state A) k :
  (forall a, answers P (k a)) -> answers P (bind m k).
Proof. intros Hk s b s'. unfold bind. destruct (m s); try done. apply Hk. Qed.
Lemma answers_stop {A} (P : A -> Prop) c : answers P (stop c).
Proof. by intros s a s'. Qed.
Lemma answers_loop {A} (P : A -> Prop) : answers P loop.
Proof. by intros s a s'. Qed.

Ltac answers_step :=
  match goal with
  | |- answers _ (bind _ _) => apply answers_bind; intros ?
  | |- answers _ (ret _) => apply answers_ret
  | |- answers _ (stop _) => apply answers_stop
  | |- answers _ loop => apply answers_loop
  | |- answers _ (if ?c then _ else _) => destruct c
  | |- answers _ (match ?x with _ => _ end) => destruct x
  end.

Section Ops.
Context {E : FsEnv} {D : FsDrivers}.

(** [mtab_add] answers the error value (uint16_t)-1 on every path, also when it has
    mounted the file system. *)
Theorem mtab_add_answers_error depth fuel dev file s r s' :
  Mtab.mtab_add depth fuel dev file s = Ret r s' -> r = m1U16.
Proof.
  revert s r s'. change (answers (fun r => r = m1U16) (Mtab.mtab_add depth fuel dev file)).
  destruct depth; simpl; repeat answers_step; done.
Qed.

(** [dofsck] refuses every device in every state: its guard asks for no check to be
    running and, at once, for one on this device to be. *)
Theorem dofsck_always_refused fuel fd fix_ s :
  Fsck.dofsck fuel fd fix_ s = Ret false (set_errn EPERM s).
Proof.
  unfold Fsck.dofsck, Fsck.not_permitted, bind, gets.
  destruct (Z.eqb_spec fd m1U) as [->|Hfd]; [done|].
  destruct (Z.eqb_spec (fsck_dev s) m1U) as [He|]; [|done].
  destruct (Z.eqb_spec (fsck_dev s) fd); [congruence|done].
Qed.

End Ops.

(** ** An instance: mounting the root *)

Definition started : fs_state :=
  match (Fcb.fcb_add [47] FCB_TYPE_REG_DIR ;;; Unplug.devfs_init 50 16 0) init_fs with
  | Ret _ s => set_nfsdrv 2 (set_fsdrv [Unplug.devdrv; mk_fsdrv [102] true true false false false false false false false false] s)
  | _ => init_fs
  end.

(** A driver that knows every superblock. *)
Definition knows_all : FsDrivers :=
  {| drv_detect := fun _ _ _ => ret true; drv_read := fun _ _ _ _ _ _ => ret (None, 0);
     drv_writetrb := fun _ _ _ => ret tt; drv_write := fun _ _ _ _ _ => ret false;
     drv_writetre := fun _ _ _ => ret tt; drv_stat := fun _ _ _ => ret false;
     drv_getdirent := fun _ _ _ => ret 0; drv_checkfs := fun _ _ => ret false;
     drv_locate := fun _ _ _ _ => ret (2, zero_loc); drv_resizefs := fun _ _ => ret tt |}.

Lemma mount_root_runs : exists r s',
    Mtab.mtab_add (D := knows_all) 2 50 (Some (Devfs.DEVPATH ++ Vfs.ROOTNAME)) (Some [47]) started = Ret r s' /\ nmtab s' = 2 /\ rootmounted s' = true.
Proof. do 2 eexists. split; [vm_compute; reflexivity|done]. Qed.

Lemma mtab_add_answers_error_witness :
  exists s',
    Mtab.mtab_add (D := knows_all) 2 50 (Some (Devfs.DEVPATH ++ Vfs.ROOTNAME)) (Some [47]) started = Ret m1U16 s' /\ nmtab s' = 2 /\ rootmounted s' = true.
Proof.
  destruct mount_root_runs as (r&s'&Hr&Hs).
  pose proof (mtab_add_answers_error (D := knows_all) 2 50 (Some (Devfs.DEVPATH ++ Vfs.ROOTNAME)) (Some [47]) started r s' Hr) as ->.
  exists s'. split; [exact Hr|exact Hs].
Defined.
