(* ===== verification/Taskctx.v ===== *)
(** The contexts of the tasks the FS task serves, src/fs/taskctx.c: their directories,
    open files, and reading and writing through them. *)
From Stdlib Require Import ZArith Lia List.
From stdpp Require Import base option list gmap.
From S2P Require Import Prelude CoreState FsState Fcb Pipe Devfs Vfs.
Import FsState.

Module Taskctx.

Section Ops.
Context {E : FsEnv} {D : FsDrivers}.

Definition bucket (pid : Z) : Z := Z.land pid 0xFF.
Definition bucket_head (pid : Z) : M fs_state Z := s <-- get ;; need (zget (taskctx s) (bucket pid)).
Definition set_bucket (pid p : Z) : M fs_state unit := modify (fun s => set_taskctx (zset (taskctx s) (bucket pid) p) s).

Definition taskctx_get (fuel : nat) (pid : Z) : M fs_state Z :=
  h <-- bucket_head pid ;;
  if pid =? 0 then ret 0 else
  tc <-- Pipe.ctx_find fuel pid h ;;
  if negb (tc =? 0) then ret tc else
  ntc <-- new_address ;;
  if ntc =? 0 then ret 0 else
  modify (fun s => set_ctxs (<[ntc := set_t_pid pid zero_ctx]> (ctxs s)) s) ;;;
  (* the loop before has left tc null *)
  set_bucket pid ntc ;;;
  fcb_mod 0 (fun f => set_nopen (nopen f + 2) f) ;;;
  modify (fun s => set_ntaskctx (ntaskctx s + 1) s) ;;;
  ret ntc.

(** The first context of the task or the last one of the list, with the one before it. *)
Definition find_or_last (fuel : nat) (pid p : Z) : M fs_state (Z * Z) :=
  iter fuel (fun lt : Z * Z => let (l, p) := lt in
    t <-- ctx_at p ;;
    if (t_next t =? 0) || (t_pid t =? pid) then ret (inr (l, p)) else ret (inl (p, t_next t))) (0, p).

Fixpoint del_files (fuel : nat) (l : list openfile_t) : M fs_state unit :=
  match l with [] => ret tt | o :: l' => Fcb.fcb_del fuel (of_fid o) ;;; del_files fuel l' end.

Definition taskctx_del (fuel : nat) (pid : Z) : M fs_state unit :=
  h <-- bucket_head pid ;;
  if h =? 0 then ret tt else
  do2 ltc tc <-- find_or_last fuel pid h ;;
  t <-- ctx_at tc ;;
  (if ltc =? 0 then set_bucket pid (t_next t) else ctx_mod ltc (set_t_next (t_next t))) ;;;
  modify (fun s => set_ntaskctx (u64 (ntaskctx s - 1)) s) ;;;
  Fcb.fcb_del fuel (workdir t) ;;;
  Fcb.fcb_del fuel (rootdir t) ;;;
  match openfiles t with
  | Some l => del_files fuel (take (Z.to_nat (nopenfiles t)) l)
  | None => ret tt
  end ;;;
  modify (fun s => set_ctxs (delete tc (ctxs s)) s).

(** [!tc || fid >= nfcb || !fcb[fid].abspath] *)
Definition no_file (tc fid : Z) : M fs_state bool :=
  n <-- gets nfcb ;;
  if (tc =? 0) || (n <=? fid) then ret true else
  f <-- fcb_at fid ;; ret (match abspath f with None => true | Some _ => false end).

Definition taskctx_rootdir (fuel : nat) (tc fid : Z) : M fs_state unit :=
  b <-- no_file tc fid ;;
  if (b : bool) then ret tt else
  t <-- ctx_at tc ;;
  Fcb.fcb_del fuel (rootdir t) ;;;
  ctx_mod tc (set_rootdir fid) ;;;
  fcb_mod fid (fun f => set_nopen (nopen f + 1) f).

Definition taskctx_workdir (fuel : nat) (tc fid : Z) : M fs_state unit :=
  b <-- no_file tc fid ;;
  if (b : bool) then ret tt else
  t <-- ctx_at tc ;;
  Fcb.fcb_del fuel (workdir t) ;;;
  ctx_mod tc (set_workdir fid) ;;;
  fcb_mod fid (fun f => set_nopen (nopen f + 1) f).

(** [tc->openfiles[i]] *)
Definition of_at (tc i : Z) : M fs_state openfile_t :=
  t <-- ctx_at tc ;; need (openfiles t ≫= fun l => zget l i).
Definition of_mod (tc i : Z) (f : openfile_t -> openfile_t) : M fs_state unit :=
  o <-- of_at tc i ;;
  ctx_mod tc (fun t => set_openfiles ((fun l => zset l i (f o)) <$> openfiles t) t).

(** ** Opening and closing *)

(** The mode with what it implies. *)
Definition open_mode (mode : Z) : Z :=
  let mode := if negb (has mode O_READ) && negb (has mode O_WRITE) then Z.lor mode O_READ else mode in
  if has mode O_CREAT || has mode O_APPEND then Z.lor mode O_WRITE else mode.

(** The access checks on the file: an error, or the mode and the index to open, which is
    the pipe's for a named pipe. *)
Definition open_check (fid mode : Z) : M fs_state (Z + Z * Z) :=
  b <-- no_file 1 fid ;;
  if (b : bool) then ret (inl ENOENT) else
  f <-- fcb_at fid ;;
  if has (fflags f) FCB_FLAG_EXCL then ret (inl EBUSY) else
  if (Z.land (Z.land mode O_AMSK) (Z.land (fmode f) O_AMSK) =? 0) &&
     negb (has mode (Z.lor O_APPEND O_CREAT) && has (fmode f) O_WRITE) then ret (inl EACCES) else
  if ftype f =? FCB_TYPE_PIPE then
    let i := storage f in
    n <-- gets npipe ;;
    if n <=? i then ret (inl EPIPE) else
    p <-- pipe_at i ;;
    if negb (p_fid p =? fid) then ret (inl EPIPE) else
    ret (inr (Z.lor mode O_FIFO, i))
  else ret (inr (mode, fid)).

(** The first free place among open files, from index [i] on. *)
Fixpoint free_place (l : list openfile_t) (i : Z) : option Z :=
  match l with
  | [] => None
  | o :: l' => if of_fid o =? m1U then Some i else free_place l' (i + 1)
  end.

(** The place of the new open file: the one asked for, a free one, or a new one. *)
Definition open_place (tc idx : Z) : M fs_state (option Z) :=
  t <-- ctx_at tc ;;
  forced <-- (if negb (idx =? 0) && (idx <=? nopenfiles t) then
                o <-- of_at tc (idx - 1) ;; ret (of_fid o =? m1U)
              else ret false) ;;
  if (forced : bool) then ret (Some (idx - 1)) else
  let '(n, found) := match openfiles t with
                     | Some l => (nopenfiles t, free_place (take (Z.to_nat (nopenfiles t)) l) 0)
                     | None => (0, None)
                     end in
  match found with
  | Some i => ret (Some i)
  | None =>
      ctx_mod tc (set_nopenfiles (n + 1)) ;;;
      ok <-- alloc_ok ;;
      if (ok : bool) then
        ctx_mod tc (fun t => set_openfiles (Some (resize zero_of (n + 1) (default [] (openfiles t)))) t) ;;;
        ret (Some n)
      else ctx_mod tc (set_openfiles None) ;;; ret None
  end.

Definition taskctx_open (tc fid mode offs idx : Z) : M fs_state Z :=
  if tc =? 0 then seterr ENOENT ;;; ret 0 else
  let mode := open_mode mode in
  let tty := has mode OF_MODE_TTY in
  r <-- (if tty then ret (inr (mode, fid)) else open_check fid mode) ;;
  match r with
  | inl e => seterr e ;;; ret 0
  | inr (mode, fid') =>
      n <-- gets npipe ;;
      if has mode O_FIFO && ((fid' =? m1U) || (n <=? fid')) then seterr EPIPE ;;; ret 0 else
      i <-- open_place tc idx ;;
      match i with
      | None => ret 0
      | Some i =>
          of_mod tc i (fun o => set_of_unionidx 0 (set_of_offs offs (set_of_mode mode (set_of_fid fid' o)))) ;;;
          ctx_mod tc (fun t => set_nfiles (nfiles t + 1) t) ;;;
          when (negb tty)
           (fcb_mod fid (fun f =>
              let f := set_nopen (nopen f + 1) f in
              if has mode O_EXCL || has (fmode f) O_EXCL
              then set_fflags (Z.lor (fflags f) FCB_FLAG_EXCL) f else f)) ;;;
          when (has mode O_FIFO) (pipe_mod fid' (fun p => set_p_nopen (p_nopen p + 1) p)) ;;;
          ret (i + 1)
      end
  end.

Definition taskctx_validfid (tc idx : Z) : M fs_state bool :=
  if (idx <=? 0) || (tc =? 0) then ret false else
  t <-- ctx_at tc ;;
  match openfiles t with
  | None => ret false
  | Some l =>
      if nopenfiles t <? idx then ret false else
      o <-- need (zget l (idx - 1)) ;;
      if of_fid o =? m1U then ret false else
      s <-- get ;;
      p <-- (if has (of_mode o) O_FIFO && (of_fid o <? npipe s)
             then p <-- pipe_at (of_fid o) ;; ret (0 <? p_nopen p) else ret false) ;;
      if p || has (of_mode o) OF_MODE_TTY then ret true else
      b <-- no_file tc (of_fid o) ;; ret (negb b)
  end.

(** The part of [taskctx_close] for a pipe; afterwards the place holds the file of a
    named one. *)
Definition close_pipe (tc i : Z) : M fs_state unit :=
  o <-- of_at tc i ;;
  t <-- ctx_at tc ;;
  let pi := of_fid o in
  p <-- pipe_at pi ;;
  let fid := if p_fid p =? 0 then m1U else p_fid p in
  when (p_reader p =? t_pid t) (pipe_mod pi (set_p_reader 0)) ;;;
  Pipe.pipe_del pi ;;;
  (* the entry is looked at again, even if the array has lost it *)
  p <-- pipe_at pi ;;
  when (negb (p_fid p =? 0) && negb (fid =? m1U)) (of_mod tc i (set_of_fid fid)).

(** [while(idx > 0 && tc->openfiles[idx-1].fid == -1U) idx--;] *)
Fixpoint trim (l : list openfile_t) (n : nat) : nat :=
  match n with
  | O => O
  | S n' => match l !! n' with
            | Some o => if of_fid o =? m1U then trim l n' else n
            | None => n
            end
  end.

Definition taskctx_close (fuel : nat) (tc idx : Z) (dontfree : bool) : M fs_state bool :=
  v <-- taskctx_validfid tc idx ;;
  if negb v then ret false else
  let i := idx - 1 in
  o <-- of_at tc i ;;
  when (has (of_mode o) O_FIFO) (close_pipe tc i) ;;;
  o <-- of_at tc i ;;
  n <-- gets nfcb ;;
  when (negb (has (of_mode o) OF_MODE_TTY) && negb (of_fid o =? m1U) && (of_fid o <? n))
   (when (has (of_mode o) O_WRITE && negb (has (of_mode o) O_FIFO)) (Fcb.fcb_flush (of_fid o) ;;; ret tt) ;;;
    fcb_mod (of_fid o) (fun f => set_fflags (Z.ldiff (fflags f) FCB_FLAG_EXCL) f) ;;;
    Fcb.fcb_del fuel (of_fid o)) ;;;
  of_mod tc i (set_of_fid m1U) ;;;
  ctx_mod tc (fun t => set_nfiles (u64 (nfiles t - 1)) t) ;;;
  if dontfree then ret true else
  t <-- ctx_at tc ;;
  let l := default [] (openfiles t) in
  let k := Z.of_nat (trim l (Z.to_nat (nopenfiles t))) in
  if k =? nopenfiles t then ret true else
  if k =? 0 then ctx_mod tc (fun t => set_openfiles None (set_nopenfiles k t)) ;;; ret true else
  ok <-- alloc_ok ;;
  ctx_mod tc (fun t => set_openfiles (if (ok : bool) then Some (resize zero_of k l) else None) (set_nopenfiles k t)) ;;;
  ret ok.

(** ** Seeking, reading and writing *)

Definition taskctx_seek (tc idx offs whence : Z) : M fs_state bool :=
  v <-- taskctx_validfid tc idx ;;
  if negb v then seterr EBADF ;;; ret false else
  let i := idx - 1 in
  o <-- of_at tc i ;;
  notreg <-- (if has (of_mode o) OF_MODE_TTY || has (of_mode o) O_FIFO then ret true else
                f <-- fcb_at (of_fid o) ;; ret (negb (ftype f =? FCB_TYPE_REG_FILE))) ;;
  if (notreg : bool) then seterr ESPIPE ;;; ret false else
  if has (of_mode o) O_APPEND then seterr EACCES ;;; ret false else
  f <-- fcb_at (of_fid o) ;;
  let n := u64 (if whence =? SEEK_CUR then of_offs o + offs
                else if whence =? SEEK_END then filesize f + offs else offs) in
  if s64 n <? 0 then of_mod tc i (set_of_offs 0) ;;; seterr EINVAL ;;; ret false
  else of_mod tc i (set_of_offs n) ;;; ret true.

(** Bytes for the reader, [p] being the start of its whole buffer. *)
Definition give (pid p o : Z) (data : list Z) : M fs_state unit :=
  if s64 p <? 0 then emit (EvCopy 0 (u64 (p + o)) data) else tskcpy (EvCopy pid (u64 (p + o)) data).

(** The bytes at [o] of the file [fi] for one round: [inl] to stop with the count. *)
Definition read_block (tc fi o : Z) : M fs_state (Z + (list Z * Z)) :=
  f <-- fcb_at fi ;;
  dv <-- fcb_at (storage f) ;;
  let bs := blksize dv in
  let e := u64 (o + bs) in
  match Vfs.buffered o e (buf f) with
  | Some w => d <-- need (wb_data w) ;; ret (inr (drop (Z.to_nat (o - wb_offs w)) d, bs))
  | None =>
      do2 blk bs <-- drv_read (ffs f) (storage f) (ver f) (inode f) o bs ;;
      a <-- gets ackdelayed ;;
      if (a : bool) then ret (inl 0) else
      if bs =? 0 then t <-- ctx_at tc ;; ctx_mod tc (set_workleft m1UL) ;;; ret (inl (workoffs t)) else
      dv <-- fcb_at (storage f) ;;
      blk <-- match blk with Some b => ret (Some b) | None => Vfs.zero_block (blksize dv) end ;;
      f <-- fcb_at fi ;;
      do2 blk l <-- Vfs.merge_wb o e blk [] (buf f) ;;
      fcb_mod fi (set_buf l) ;;;
      b <-- need blk ;; ret (inr (b, bs))
  end.

(** The loop over the blocks; it answers the value of [ret] of the code. *)
Definition read_blocks (fuel : nat) (tc i fi ptr : Z) : M fs_state Z :=
  iter fuel (fun r : Z =>
    t <-- ctx_at tc ;;
    if (workleft t =? m1UL) || (workleft t =? 0) then ret (inr r) else
    o <-- of_at tc i ;;
    b <-- read_block tc fi (u64 (of_offs o + workoffs t)) ;;
    match b with
    | inl r' => ret (inr r')
    | inr (blk, bs) =>
        do2 bs r <-- (if workleft t <=? bs
                      then ctx_mod tc (set_workleft m1UL) ;;; ret (workleft t, workoffs t + workleft t)
                      else ctx_mod tc (set_workleft (workleft t - bs)) ;;; ret (bs, r)) ;;
        d <-- need (slice blk 0 bs) ;;
        give (t_pid t) ptr (workoffs t) d ;;;
        ctx_mod tc (set_workoffs (workoffs t + bs)) ;;;
        ret (inl r)
    end) 0.

(** A regular file, a directory or a union: the checks, the buffered case, the blocks. *)
Definition read_file (fuel : nat) (tc i ptr size : Z) : M fs_state Z :=
  o <-- of_at tc i ;;
  f <-- fcb_at (of_fid o) ;;
  k <-- gets fsck_dev ;;
  if negb (storage f =? m1U) && (k =? storage f) then seterr EBUSY ;;; ret 0 else
  fi <-- (if (ftype f =? FCB_TYPE_UNION) && has (of_mode o) OF_MODE_READDIR then
            u <-- need (unionlist f ≫= fun l => zget l (of_unionidx o)) ;; ret u
          else ret (of_fid o)) ;;
  if (ftype f =? FCB_TYPE_UNION) && has (of_mode o) OF_MODE_READDIR && (fi =? 0) then ret 0 else
  f <-- fcb_at fi ;;
  h <-- drv_has (ffs f) has_read ;;
  if negb h then seterr EACCES ;;; ret 0 else
  t <-- ctx_at tc ;;
  let whole := if workleft t =? m1UL then Vfs.buffered (of_offs o) (u64 (of_offs o + size)) (buf f) else None in
  match whole with
  | Some w =>
      d <-- need (wb_data w) ;;
      d <-- need (slice d (of_offs o - wb_offs w) size) ;;
      give (t_pid t) ptr 0 d ;;; ret size
  | None =>
      when (workleft t =? m1UL) (ctx_mod tc (fun t => set_workoffs 0 (set_workleft size t))) ;;;
      r <-- read_blocks fuel tc i fi ptr ;;
      when (negb (has (of_mode o) OF_MODE_READDIR)) (of_mod tc i (fun o => set_of_offs (u64 (of_offs o + r)) o)) ;;;
      ret r
  end.

Definition taskctx_read (fuel : nat) (tc idx ptr size : Z) : M fs_state Z :=
  v <-- taskctx_validfid tc idx ;;
  if negb v then seterr EBADF ;;; ret 0 else
  let i := idx - 1 in
  o <-- of_at tc i ;;
  if has (of_mode o) O_FIFO then t <-- ctx_at tc ;; Pipe.pipe_read (of_fid o) ptr size (t_pid t) else
  f <-- fcb_at (of_fid o) ;;
  s <-- get ;;
  if (ffs f =? devfsidx s) && has (of_mode o) OF_MODE_READDIR
  then ret (if of_offs o <? ndev s then 1 else 0) else
  if negb (has (fmode f) O_READ) then seterr EACCES ;;; ret 0 else
  if (ftype f =? FCB_TYPE_PIPE) || (ftype f =? FCB_TYPE_SOCKET) then ret 0 else
  read_file fuel tc i ptr size.

(** [d] are the bytes at the task's pointer. *)
Definition taskctx_write (fuel : nat) (tc idx : Z) (d : list Z) : M fs_state Z :=
  v <-- taskctx_validfid tc idx ;;
  if negb v then seterr EBADF ;;; ret 0 else
  let i := idx - 1 in
  o <-- of_at tc i ;;
  if negb (has (of_mode o) O_WRITE) && negb (has (of_mode o) O_APPEND) then seterr EACCES ;;; ret 0 else
  if has (of_mode o) O_FIFO then Pipe.pipe_write fuel (of_fid o) d ;;; ret (zlen d) else
  if has (of_mode o) OF_MODE_TTY then
    send SRV_UI (Z.lor SYS_datapacket MSG_PTRDATA) (EvSendBuf SRV_UI (Z.lor SYS_datapacket MSG_PTRDATA) d [zlen d]) ;;;
    modify (set_ackdelayed true) ;;; ret (zlen d) else
  f <-- fcb_at (of_fid o) ;;
  if negb (has (fmode f) O_WRITE) then seterr EACCES ;;; ret 0 else
  let t := ftype f in
  if (t =? FCB_TYPE_PIPE) || (t =? FCB_TYPE_SOCKET) || (t =? FCB_TYPE_DEVICE) then ret 0 else
  if (t =? FCB_TYPE_REG_DIR) || (t =? FCB_TYPE_UNION) then seterr EPERM ;;; ret 0 else
  ok <-- Fcb.fcb_write (of_fid o) (of_offs o) d ;;
  if (ok : bool) then of_mod tc i (fun o => set_of_offs (u64 (of_offs o + zlen d)) o) ;;; ret (zlen d)
  else ret 0.

End Ops.
End Taskctx.
