(* ===== verification/TaskctxFacts.v ===== *)
(** Correctness of Taskctx.v: looking contexts up, opening files and seeking in them. *)
From Stdlib Require Import ZArith Lia List.
From stdpp Require Import base option list gmap.
From S2P Require Import Prelude CoreState FsState FsFacts Fcb FcbFacts Pipe PipeFacts Devfs Vfs Taskctx.
Import FsState.
Import Taskctx.

(** ** Contexts *)

Section Ops.
Context {E : FsEnv} {D : FsDrivers}.

(** The contexts of the tasks whose pid has the same low byte. *)
Definition chain (pid : Z) (l : list (Z * taskctx_t)) (s : fs_state) : Prop :=
  exists h, zget (taskctx s) (bucket pid) = Some h /\ linked (ctxs s) h l.

Definition is_pid (pid : Z) (at_ : Z * taskctx_t) : bool := t_pid (snd at_) =? pid.

Lemma bucket_range pid : 0 <= bucket pid < 256.
Proof. unfold bucket. rewrite (Z.land_ones _ 8) by lia. apply Z.mod_pos_bound. lia. Qed.

Lemma linked_nonzero m p l a t : linked m p l -> (a, t) ∈ l -> a <> 0 /\ m !! a = Some t.
Proof.
  revert p. induction l as [|[b u] l IH]; intros p Hl Hin; [by inversion Hin|].
  destruct Hl as (->&?&?&?). apply elem_of_cons in Hin as [[= -> ->]|?]; [done|by eapply IH].
Qed.

(** A context there is found, and nothing changes. *)
Lemma wp_get_found fuel pid l a t s :
  chain pid l s -> (length l < fuel)%nat -> pid <> 0 ->
  List.find (is_pid pid) l = Some (a, t) ->
  wp (taskctx_get fuel pid) (fun r s' => r = a /\ s' = s) s.
Proof.
  intros (h&Hh&Hl) Hf Hp Hfind. unfold taskctx_get, bucket_head. fs_go.
  eapply wp_need; [done|]. replace (pid =? 0) with false by lia. fs_go.
  eapply wp_mono; [by eapply wp_ctx_find|]. unfold is_pid in Hfind. rewrite Hfind. intros r s' [-> ->].
  pose proof (List.find_some _ _ Hfind) as [Hin _]. apply list_elem_of_In in Hin.
  destruct (linked_nonzero _ _ _ _ _ Hl Hin). replace (a =? 0) with false by lia. cbn. fs_go. done.
Qed.

(** A new context becomes the only one that can be found among those of its list. *)
Lemma wp_get_new fuel pid l f0 s :
  chain pid l s -> (length l < fuel)%nat -> pid <> 0 ->
  List.find (is_pid pid) l = None -> allocs s = [] -> FsState.fresh s <> 0 ->
  zlen (taskctx s) = 256 -> zget (fcb s) 0 = Some f0 ->
  wp (taskctx_get fuel pid) (fun r s' =>
    r = FsState.fresh s /\ chain pid [(r, set_t_pid pid zero_ctx)] s' /\
    zget (fcb s') 0 = Some (set_nopen (nopen f0 + 2) f0) /\ ntaskctx s' = ntaskctx s + 1 /\
    (forall a, a <> r -> ctxs s' !! a = ctxs s !! a) /\
    allocs s' = [] /\ FsState.fresh s' = FsState.fresh s + 1 /\ zlen (taskctx s') = 256) s.
Proof.
  intros (h&Hh&Hl) Hf Hp Hfind Hal Hfr Hz Hf0. unfold taskctx_get, bucket_head. fs_go.
  eapply wp_need; [done|]. replace (pid =? 0) with false by lia. fs_go.
  eapply wp_mono; [by eapply wp_ctx_find|]. unfold is_pid in Hfind. rewrite Hfind. intros r s' [-> ->]. cbn. fs_go.
  apply wp_new_address; [done|]. replace (FsState.fresh s =? 0) with false by lia. fs_go.
  unfold set_bucket. fs_go.
  split; [done|]. split; [|split; [|split; [|split]]].
  - exists (FsState.fresh s). cbn. split; [apply zget_zset_eq; pose proof (bucket_range pid); lia|].
    split; [done|]. split; [done|]. split; [apply lookup_insert_eq|done].
  - apply (zget_zset_eq (fcb s) 0). by eapply zget_Some_lt.
  - done.
  - intros a Ha. cbn. by rewrite lookup_insert_ne.
  - cbn. rewrite zlen_zset. done.
Qed.

(** What the lookups rely on: the lists hold contexts, memory is left, and the addresses
    handed out are new. *)
Record ctx_state (fuel : nat) (pid : Z) (l : list (Z * taskctx_t)) (s : fs_state) : Prop := {
  cs_chain : chain pid l s;
  cs_fuel : (length l < fuel)%nat;
  cs_allocs : allocs s = [];
  cs_fresh : 0 < FsState.fresh s;
  cs_below : forall a t, (a, t) ∈ l -> a < FsState.fresh s;
  cs_heads : zlen (taskctx s) = 256;
  cs_root : exists f, zget (fcb s) 0 = Some f;
}.

(** [taskctx_get] answers a context of the task, and asked again it answers the same
    one without changing anything. *)
Theorem taskctx_get_again fuel pid l s :
  ctx_state fuel pid l s -> pid <> 0 -> (1 < fuel)%nat ->
  wp (taskctx_get fuel pid) (fun r s' =>
    r <> 0 /\ (exists t, ctxs s' !! r = Some t /\ t_pid t = pid) /\
    taskctx_get fuel pid s' = Ret r s') s.
Proof.
  intros [Hc Hf Hal Hfr _ Hz [f0 Hf0]] Hp H1. destruct (List.find (is_pid pid) l) as [[a t]|] eqn:Hfind.
  - pose proof (wp_get_found _ _ _ _ _ _ Hc Hf Hp Hfind) as Hw. eapply wp_mono; [exact Hw|].
    intros r s' [-> ->]. pose proof (List.find_some _ _ Hfind) as [Hin Ht].
    destruct Hc as (h&_&Hl). apply list_elem_of_In in Hin.
    destruct (linked_nonzero _ _ _ _ _ Hl Hin). split; [done|]. split.
    + exists t. split; [done|]. by apply Z.eqb_eq in Ht.
    + apply wp_run in Hw as (r&s'&Hr&->&->). exact Hr.
  - eapply wp_mono; [by eapply wp_get_new; [..|lia|done|exact Hf0]|].
    intros r s' (->&Hch&_). split; [lia|]. split.
    + exists (set_t_pid pid zero_ctx). destruct Hch as (h&_&->&_&?&_). done.
    + assert (Hw : wp (taskctx_get fuel pid) (fun r t => r = FsState.fresh s /\ t = s') s').
      { eapply wp_get_found; [exact Hch|simpl; lia|done|]. cbn. unfold is_pid. cbn. by rewrite Z.eqb_refl. }
      apply wp_run in Hw as (r&t&Hr&->&->). exact Hr.
Qed.

(** adding the context of a task hides the ones already in its list: they stay in
    memory, but the next lookup of their task answers another, empty context. *)
Theorem taskctx_get_hides_others fuel pid l s a t :
  ctx_state fuel pid l s -> pid <> 0 -> (1 < fuel)%nat ->
  List.find (is_pid pid) l = None ->
  (a, t) ∈ l -> t_pid t <> 0 -> bucket (t_pid t) = bucket pid ->
  wp (taskctx_get fuel pid ;;; taskctx_get fuel (t_pid t)) (fun r s' =>
    r <> a /\ ctxs s' !! a = Some t /\ ctxs s' !! r = Some (set_t_pid (t_pid t) zero_ctx)) s.
Proof.
  intros [Hc Hf Hal Hfr Hb Hz [f0 Hf0]] Hp H1 Hfind Hin Ht Hbk.
  pose proof (Hb _ _ Hin). destruct (Hc) as (h&_&Hl). destruct (linked_nonzero _ _ _ _ _ Hl Hin) as [_ Ha].
  assert (Hne : t_pid t <> pid).
  { apply list_elem_of_In in Hin. intros He. apply (List.find_none _ _ Hfind) in Hin.
    unfold is_pid in Hin. cbn in Hin. lia. }
  apply wp_bind. eapply wp_mono; [by eapply wp_get_new; [..|lia|done|exact Hf0]|].
  intros r s1 (->&Hch&Hr0&_&Hm&Hal1&Hfr1&Hz1).
  eapply wp_mono; [eapply (wp_get_new fuel (t_pid t) [(FsState.fresh s, set_t_pid pid zero_ctx)]); [|simpl; lia|done|..]|].
  - unfold chain. rewrite Hbk. exact Hch.
  - cbn. unfold is_pid. cbn. by replace (pid =? t_pid t) with false by lia.
  - done.
  - lia.
  - done.
  - exact Hr0.
  - intros r s2 (->&(h2&_&->&_&Hn&_)&_&_&Hm2&_). split; [lia|]. split; [|exact Hn].
    rewrite Hm2, Hm by lia. done.
Qed.

(** ** Open files *)

(** The open files of a context fill its array. *)
Definition ctx_ok (t : taskctx_t) : Prop :=
  match openfiles t with Some l => zlen l = nopenfiles t | None => nopenfiles t = 0 end.

Definition open_file (t : taskctx_t) (i : Z) : option openfile_t := openfiles t ≫= fun l => zget l i.

Lemma put_ctx_id a t s : ctxs s !! a = Some t -> put_ctx a t s = s.
Proof. intros H. unfold put_ctx, set_ctxs. rewrite insert_id by done. by destruct s. Qed.

Lemma free_place_Some l : forall i k, free_place l i = Some k ->
  i <= k /\ exists o, zget l (k - i) = Some o /\ of_fid o = m1U.
Proof.
  induction l as [|o l IH]; simpl; intros i k H; [done|].
  destruct (Z.eqb_spec (of_fid o) m1U).
  - injection H as <-. split; [lia|]. exists o. by rewrite Z.sub_diag.
  - apply IH in H as (?&x&Hx&?). split; [lia|]. exists x. rewrite zget_cons_S by lia.
    split; [|done]. rewrite <- Hx. f_equal. lia.
Qed.

Lemma open_file_lt t i o : ctx_ok t -> open_file t i = Some o -> 0 <= i < nopenfiles t.
Proof.
  unfold ctx_ok, open_file. destruct (openfiles t); [|done]. simpl. intros <-. apply zget_Some_lt.
Qed.

Lemma open_file_is_Some t i : ctx_ok t -> 0 <= i < nopenfiles t -> is_Some (open_file t i).
Proof.
  unfold ctx_ok, open_file. destruct (openfiles t); simpl; [|lia]. intros <-. apply zget_is_Some.
Qed.

Lemma wp_of_at tc i t o (Q : openfile_t -> fs_state -> Prop) s :
  ctxs s !! tc = Some t -> open_file t i = Some o -> Q o s -> wp (of_at tc i) Q s.
Proof. intros Ht Ho HQ. unfold of_at. fs_go. by eapply wp_need. Qed.

Definition put_of (i : Z) (o : openfile_t) (t : taskctx_t) : taskctx_t :=
  set_openfiles ((fun l => zset l i o) <$> openfiles t) t.

Lemma wp_of_mod tc i f t o (Q : unit -> fs_state -> Prop) s :
  ctxs s !! tc = Some t -> open_file t i = Some o ->
  Q tt (put_ctx tc (put_of i (f o) t) s) -> wp (of_mod tc i f) Q s.
Proof.
  intros Ht Ho HQ. unfold of_mod. apply wp_bind. eapply wp_of_at; [done|done|].
  eapply wp_ctx_mod; [done|]. exact HQ.
Qed.

Lemma open_file_put i o t o' : open_file t i = Some o' -> open_file (put_of i o t) i = Some o.
Proof.
  unfold open_file, put_of. destruct (openfiles t); [|done]. cbn. intros H.
  apply zget_zset_eq. by eapply zget_Some_lt.
Qed.
Lemma open_file_put_ne i j o t : i <> j -> open_file (put_of i o t) j = open_file t j.
Proof. unfold open_file, put_of. destruct (openfiles t); [|done]. cbn. apply zget_zset_ne. Qed.
Lemma ctx_ok_put i o t : ctx_ok t -> ctx_ok (put_of i o t).
Proof. unfold ctx_ok, put_of. destruct (openfiles t); [|done]. cbn. by rewrite zlen_zset. Qed.


(** The place of a new open file: one that is free, the others staying where they are. *)
Lemma wp_open_place tc idx t s :
  ctxs s !! tc = Some t -> ctx_ok t -> allocs s = [] -> 0 <= idx -> 0 <= nopenfiles t ->
  wp (open_place tc idx) (fun r s' => exists k t',
    r = Some k /\ s' = put_ctx tc t' s /\ ctx_ok t' /\ is_Some (open_file t' k) /\
    t_pid t' = t_pid t /\ nfiles t' = nfiles t /\
    (forall j o, open_file t j = Some o -> open_file t' j = Some o) /\
    (forall o, open_file t k = Some o -> of_fid o = m1U)) s.
Proof.
  intros Ht Hok Hal Hidx Hn. unfold open_place. apply wp_bind. fs_step.
  set (Q := fun (r : option Z) (s' : fs_state) => _).
  assert (Hold : forall k o, open_file t k = Some o -> of_fid o = m1U -> Q (Some k) s).
  { intros k o Ho Hf. exists k, t. split; [done|]. split; [by rewrite put_ctx_id|]. split; [done|].
    split; [by eexists|]. split; [done|]. split; [done|]. split; [done|]. intros o' Ho'. congruence. }
  apply wp_bind. eapply (wp_mono _ (fun b s' => s' = s /\
    (b = true -> exists o, open_file t (idx - 1) = Some o /\ of_fid o = m1U))).
  { destruct (negb (idx =? 0) && (idx <=? nopenfiles t)) eqn:Hc; fs_go; [|done].
    destruct (open_file_is_Some t (idx - 1) Hok ltac:(lia)) as [o Ho].
    eapply wp_of_at; [done|done|]. fs_go. split; [done|]. intros ?. exists o. split; [done|lia]. }
  intros forced s' [-> Hforced]. destruct forced.
  { destruct (Hforced eq_refl) as (o&Ho&Hf). fs_go. by eapply Hold. }
  assert (Hgrow : ctx_ok t -> wp (ctx_mod tc (set_nopenfiles (nopenfiles t + 1)) ;;;
      ok <-- alloc_ok ;;
      if (ok : bool) then
        ctx_mod tc (fun u => set_openfiles (Some (resize zero_of (nopenfiles t + 1) (default [] (openfiles u)))) u) ;;;
        ret (Some (nopenfiles t))
      else ctx_mod tc (set_openfiles None) ;;; ret None) Q s).
  { intros _. fs_go. eapply wp_ctx_mod; [apply put_ctx_get|].
    fs_go. rewrite put_put_ctx. eexists _, _. split; [done|]. split; [done|].
    assert (Hz : zlen (default [] (openfiles t)) = nopenfiles t).
    { unfold ctx_ok in Hok. destruct (openfiles t); simpl; [done|]. unfold zlen. simpl. lia. }
    split; [unfold ctx_ok; cbn; apply zlen_resize; lia|].
    pose proof (resize_grow zero_of (nopenfiles t + 1) (default [] (openfiles t)) ltac:(lia)) as Hr.
    split; [|split; [done|split; [done|split]]].
    - unfold open_file. cbn. rewrite Hr. apply zget_is_Some. rewrite zlen_app. unfold zlen at 2. rewrite repeat_length. lia.
    - intros j o Ho. pose proof (open_file_lt _ _ _ Hok Ho). unfold open_file in *. cbn. rewrite Hr.
      destruct (openfiles t); [|done]. simpl in *. rewrite zget_app_l by lia. done.
    - intros o Ho. pose proof (open_file_lt _ _ _ Hok Ho). lia. }
  destruct (openfiles t) as [l|] eqn:Hl.
  - assert (Hz : zlen l = nopenfiles t) by (unfold ctx_ok in Hok; by rewrite Hl in Hok).
    rewrite take_ge by (unfold zlen in Hz; lia).
    destruct (free_place l 0) as [k|] eqn:Hk; [|by apply Hgrow].
    apply free_place_Some in Hk as (_&o&Ho&Hf). rewrite Z.sub_0_r in Ho. apply wp_ret. eapply Hold; [|done].
    unfold open_file. by rewrite Hl.
  - replace (nopenfiles t) with 0 in * by (unfold ctx_ok in Hok; rewrite Hl in Hok; done). by apply Hgrow.
Qed.

Lemma has_lor a b m : has (Z.lor a b) m = has a m || has b m.
Proof.
  unfold has. rewrite Z.land_lor_distr_l.
  destruct (Z.eqb_spec (Z.lor (Z.land a m) (Z.land b m)) 0) as [H|H].
  - apply Z.lor_eq_0_iff in H as [-> ->]. done.
  - destruct (Z.eqb_spec (Z.land a m) 0) as [Ha|], (Z.eqb_spec (Z.land b m) 0) as [Hb|]; try done.
    rewrite Ha, Hb in H. done.
Qed.

(** What the mode implies does not change whether it is one of a terminal or a pipe. *)
Lemma open_mode_has mode m : has O_READ m = false -> has O_WRITE m = false ->
  has (open_mode mode) m = has mode m.
Proof.
  intros Hr Hw. unfold open_mode.
  destruct (negb (has mode O_READ) && negb (has mode O_WRITE)), (_ || _);
    by rewrite ?has_lor, ?Hr, ?Hw, ?orb_false_r.
Qed.

(** A mode the file's own mode grants. *)
Definition granted (mode : Z) (f : fcb_t) : bool :=
  has (Z.land mode O_AMSK) (Z.land (fmode f) O_AMSK) || (has mode (Z.lor O_APPEND O_CREAT) && has (fmode f) O_WRITE).

(** A file, not a pipe, that a task may open. *)
Record openable (mode fid : Z) (f : fcb_t) (s : fs_state) : Prop := {
  op_file : zget (fcb s) fid = Some f;
  op_used : abspath f <> None;
  op_range : fid < nfcb s;
  op_id : fid <> m1U;
  op_shared : has (fflags f) FCB_FLAG_EXCL = false;
  op_granted : granted mode f = true;
  op_type : ftype f <> FCB_TYPE_PIPE;
}.

Lemma wp_no_file tc fid f s (Q : bool -> fs_state -> Prop) :
  tc <> 0 -> zget (fcb s) fid = Some f -> abspath f <> None -> fid < nfcb s ->
  Q false s -> wp (no_file tc fid) Q s.
Proof.
  intros Htc Hf Hp Hr HQ. unfold no_file. fs_go.
  replace ((tc =? 0) || (nfcb s <=? fid)) with false by lia. fs_go. by destruct (abspath f).
Qed.

Lemma wp_open_check mode fid f s (Q : Z + Z * Z -> fs_state -> Prop) :
  openable mode fid f s -> Q (inr (mode, fid)) s -> wp (open_check fid mode) Q s.
Proof.
  intros [Hf Hp Hr _ He Hg Ht] HQ. unfold open_check. fs_go. eapply wp_no_file; [done..|]. fs_go.
  rewrite He. unfold granted, has at 1 in Hg.
  replace (_ && negb _) with false.
  2:{ destruct (Z.land (Z.land mode O_AMSK) _ =? 0), (_ && has (fmode f) O_WRITE); done. }
  replace (ftype f =? FCB_TYPE_PIPE) with false by lia. by apply wp_ret.
Qed.

(** A descriptor that refers to a file is valid. *)
Lemma validfid_file tc i t o f s :
  tc <> 0 -> ctxs s !! tc = Some t -> ctx_ok t -> open_file t i = Some o -> of_fid o <> m1U ->
  has (of_mode o) O_FIFO = false -> zget (fcb s) (of_fid o) = Some f -> abspath f <> None ->
  of_fid o < nfcb s -> taskctx_validfid tc (i + 1) s = Ret true s.
Proof.
  intros Htc Ht Hok Ho Hid Hm Hf Hp Hr.
  assert (Hw : wp (taskctx_validfid tc (i + 1)) (fun b s' => b = true /\ s' = s) s).
  { pose proof (open_file_lt _ _ _ Hok Ho). unfold taskctx_validfid.
    replace ((i + 1 <=? 0) || (tc =? 0)) with false by lia. fs_go.
    unfold ctx_ok, open_file in *. destruct (openfiles t) as [l|]; [|done]. simpl in Ho.
    replace (nopenfiles t <? i + 1) with false by lia. fs_go. eapply wp_need; [by replace (i + 1 - 1) with i by lia|].
    replace (of_fid o =? m1U) with false by lia. rewrite Hm. fs_go.
    destruct (has (of_mode o) OF_MODE_TTY); cbn [orb]; cbn iota; [by apply wp_ret|].
    apply wp_bind. eapply wp_no_file; [done..|]. by fs_go. }
  apply wp_run in Hw as (b&s'&Hr'&->&->). exact Hr'.
Qed.

(** C35: opening a file takes a free place of the context for it, or a new one, leaves the
    other open files alone, counts the opening, marks an exclusive one, and answers a
    descriptor that is valid. *)
Theorem taskctx_open_ok tc fid mode offs idx t f s :
  tc <> 0 -> ctxs s !! tc = Some t -> ctx_ok t -> 0 <= nopenfiles t -> allocs s = [] -> 0 <= idx ->
  has mode OF_MODE_TTY = false -> has mode O_FIFO = false -> openable (open_mode mode) fid f s ->
  wp (taskctx_open tc fid mode offs idx) (fun r s' => exists t' f',
    0 < r /\ ctxs s' !! tc = Some t' /\ ctx_ok t' /\
    open_file t' (r - 1) = Some (mk_of fid (open_mode mode) offs 0) /\
    (forall o, open_file t (r - 1) = Some o -> of_fid o = m1U) /\
    (forall j o, j <> r - 1 -> open_file t j = Some o -> open_file t' j = Some o) /\
    nfiles t' = nfiles t + 1 /\
    zget (fcb s') fid = Some f' /\ nopen f' = nopen f + 1 /\
    has (fflags f') FCB_FLAG_EXCL = (has (open_mode mode) O_EXCL || has (fmode f) O_EXCL) /\
    taskctx_validfid tc r s' = Ret true s') s.
Proof.
  intros Htc Ht Hok Hn Hal Hidx Htty Hfifo Hop. unfold taskctx_open.
  replace (tc =? 0) with false by lia. cbn iota. cbn zeta.
  rewrite !(open_mode_has mode OF_MODE_TTY) by done. rewrite Htty.
  apply wp_bind. cbn iota. eapply wp_open_check; [exact Hop|]. fs_go.
  rewrite !(open_mode_has mode O_FIFO) by done. rewrite Hfifo. cbn [andb]. cbn iota.
  apply wp_bind. eapply wp_mono; [by apply (wp_open_place tc idx t)|].
  intros r s1 (k&t1&->&->&Hok1&[o Ho]&_&Hnf&Hkeep&Hfree). cbn iota.
  pose proof (open_file_lt _ _ _ Hok1 Ho).
  apply wp_bind. eapply wp_of_mod; [apply put_ctx_get|exact Ho|]. rewrite put_put_ctx.
  apply wp_bind. eapply wp_ctx_mod; [apply put_ctx_get|]. rewrite put_put_ctx. cbn [negb when].
  apply wp_bind. eapply wp_fcb_mod; [exact (op_file _ _ _ _ Hop)|].
  change (set_of_unionidx 0 _) with (mk_of fid (open_mode mode) offs 0).
  set (o1 := mk_of fid (open_mode mode) offs 0). set (t2 := set_nfiles _ _). cbn beta iota zeta.
  change (fmode (set_nopen (nopen f + 1) f)) with (fmode f).
  set (x := has (open_mode mode) O_EXCL || has (fmode f) O_EXCL). set (f2 := if x then _ else _).
  fs_go. destruct Hop as [Hf Hp Hrg Hid Hsh _ _]. pose proof (zget_Some_lt _ _ _ Hf).
  assert (Ht2 : open_file t2 k = Some o1) by (eapply (open_file_put k o1 t1), Ho).
  assert (Hok2 : ctx_ok t2) by (apply (ctx_ok_put k o1 t1), Hok1).
  assert (Hf2 : nopen f2 = nopen f + 1 /\ abspath f2 = abspath f /\ has (fflags f2) FCB_FLAG_EXCL = x).
  { unfold f2. destruct x; cbn; [|done]. rewrite has_lor, orb_true_r. done. }
  destruct Hf2 as (Hn2&Ha2&Hx2).
  exists t2, f2. replace (k + 1 - 1) with k by lia. split; [lia|].
  split; [apply (put_ctx_get tc t2 s)|]. split; [done|]. split; [done|]. split; [done|]. split.
  { intros j p Hj Hp'. rewrite <- (Hkeep j p Hp'). apply (open_file_put_ne k j o1 t1). done. }
  split; [cbn; lia|]. split; [by apply zget_zset_eq|]. split; [done|]. split; [done|].
  eapply (validfid_file tc k t2 o1 f2); try done.
  - apply (put_ctx_get tc t2 s).
  - cbn. by rewrite open_mode_has.
  - by apply zget_zset_eq.
  - by rewrite Ha2.
Qed.

(** Where a seek goes. *)
Definition seek_target (o : openfile_t) (f : fcb_t) (offs whence : Z) : Z :=
  if whence =? SEEK_CUR then of_offs o + offs else if whence =? SEEK_END then filesize f + offs else offs.

Lemma s64_u64 x : - 2 ^ 63 <= x < 2 ^ 63 -> s64 (u64 x) = x.
Proof.
  intros Hx. unfold s64, sgn, u64, wrap. rewrite Z.mod_mod by lia.
  destruct (Z.lt_ge_cases x 0).
  - replace (x mod 2 ^ 64) with (x + 2 ^ 64); [destruct (Z.ltb_spec (x + 2 ^ 64) (2 ^ (64 - 1))); lia|].
    apply Zmod_unique with (-1); lia.
  - rewrite Z.mod_small by lia. destruct (Z.ltb_spec x (2 ^ (64 - 1))); lia.
Qed.

(** Seeking in a regular file moves to the place asked for, from the start, the
    current place or the end; a place before the start is refused and the file rewound.
    Nothing else changes. *)
Theorem taskctx_seek_ok tc i offs whence t o f s :
  tc <> 0 -> ctxs s !! tc = Some t -> ctx_ok t -> open_file t i = Some o -> of_fid o <> m1U ->
  has (of_mode o) O_FIFO = false -> has (of_mode o) OF_MODE_TTY = false -> has (of_mode o) O_APPEND = false ->
  zget (fcb s) (of_fid o) = Some f -> abspath f <> None -> of_fid o < nfcb s -> ftype f = FCB_TYPE_REG_FILE ->
  - 2 ^ 63 <= seek_target o f offs whence < 2 ^ 63 ->
  taskctx_seek tc (i + 1) offs whence s =
    let n := seek_target o f offs whence in
    if n <? 0 then Ret false (set_errn EINVAL (put_ctx tc (put_of i (set_of_offs 0 o) t) s))
    else Ret true (put_ctx tc (put_of i (set_of_offs n o) t) s).
Proof.
  intros Htc Ht Hok Ho Hid Hff Htty Happ Hf Hp Hr Hty Hn.
  pose proof (validfid_file tc i t o f s Htc Ht Hok Ho Hid Hff Hf Hp Hr) as Hv.
  set (r := if _ <? 0 then _ else _).
  assert (Hw : wp (taskctx_seek tc (i + 1) offs whence) (fun b s' => Ret b s' = r) s).
  { unfold taskctx_seek. apply wp_bind. apply wp_run. exists true, s. split; [exact Hv|]. cbn [negb]. cbn iota zeta.
    replace (i + 1 - 1) with i by lia. apply wp_bind. eapply wp_of_at; [done|done|].
    apply wp_bind. rewrite Htty, Hff. cbn [orb]. cbn iota. fs_go. rewrite Hty, Happ. change (negb (FCB_TYPE_REG_FILE =? FCB_TYPE_REG_FILE)) with false. cbn iota. fs_go.
    change (if whence =? SEEK_CUR then _ else _) with (seek_target o f offs whence).
    rewrite s64_u64 by done. unfold r. destruct (Z.ltb_spec (seek_target o f offs whence) 0).
    - fs_step. eapply wp_of_mod; [done|done|]. fs_go. done.
    - fs_step. eapply wp_of_mod; [done|done|]. fs_go. rewrite u64_small by lia. done. }
  apply wp_run in Hw as (b&s'&Hrun&<-). exact Hrun.
Qed.

End Ops.

(** ** Instances *)

(** A task with one open file and the root directory, and a regular file. *)
Definition root_fcb : fcb_t := set_nopen 2 (set_ftype FCB_TYPE_REG_DIR (set_abspath (Some [47]) zero_fcb)).
Definition file_fcb : fcb_t := set_filesize 100 (set_fmode O_RDWR (set_nopen 1 (set_abspath (Some [47; 97]) zero_fcb))).
Definition one_open : taskctx_t :=
  set_nfiles 1 (set_nopenfiles 1 (set_openfiles (Some [mk_of 1 O_READ 40 0]) (set_t_pid 7 zero_ctx))).
Definition one_task : fs_state :=
  set_fresh 9 (set_taskctx (zset (List.repeat 0 256) 7 8) (set_ctxs {[ 8 := one_open ]}
    (set_nfcb 2 (set_fcb [root_fcb; file_fcb] init_fs)))).

Lemma one_task_ctx pid : bucket pid = 7 -> ctx_state 5 pid [(8, one_open)] one_task.
Proof.
  intros Hb. constructor; try done.
  - exists 8. rewrite Hb. split; [done|]. repeat split; done.
  - simpl. lia.
  - intros a t [= -> ->]%list_elem_of_singleton. cbn. lia.
  - by eexists.
Qed.

Lemma taskctx_get_again_witness :
  wp (taskctx_get 5 263) (fun r s' => r <> 0 /\ taskctx_get 5 263 s' = Ret r s') one_task.
Proof.
  eapply wp_mono; [apply (taskctx_get_again 5 263 [(8, one_open)]); [by apply one_task_ctx|done|lia]|].
  intros r s' (?&_&?). done.
Defined.

Lemma taskctx_get_hides_others_witness :
  wp (taskctx_get 5 263 ;;; taskctx_get 5 7) (fun r s' => r <> 8 /\ ctxs s' !! 8 = Some one_open) one_task.
Proof.
  eapply wp_mono; [apply (taskctx_get_hides_others 5 263 [(8, one_open)] one_task 8 one_open);
    [by apply one_task_ctx|done|lia|done|by left|done|done]|].
  intros r s' (?&?&_). done.
Defined.

Lemma taskctx_open_ok_witness :
  wp (taskctx_open 8 1 O_WRITE 20 0) (fun r s' => exists t', ctxs s' !! 8 = Some t' /\
    open_file t' (r - 1) = Some (mk_of 1 O_WRITE 20 0) /\ taskctx_validfid 8 r s' = Ret true s') one_task.
Proof.
  eapply wp_mono; [apply (taskctx_open_ok 8 1 O_WRITE 20 0 one_open file_fcb); try done; by constructor|].
  intros r s' (t'&f'&_&?&_&?&_&_&_&_&_&_&?). by exists t'.
Defined.

Lemma taskctx_seek_ok_witness :
  taskctx_seek 8 1 (-10) SEEK_CUR one_task =
  Ret true (put_ctx 8 (put_of 0 (mk_of 1 O_READ 30 0) one_open) one_task).
Proof.
  apply (taskctx_seek_ok 8 0 (-10) SEEK_CUR one_open (mk_of 1 O_READ 40 0) file_fcb one_task); try done.
Defined.
