(* ===== verification/CoreEnv.v ===== *)
(** The start-up environment, src/core/env.c, and the wall clock's start, src/core/clock.c:
    the time stamp of a date, the parsers of the values, and the loop over the text. *)
From Stdlib Require Import ZArith Lia List.
From stdpp Require Import base option list gmap.
From S2P Require Import Prelude CoreState LibcString CoreLib Vfs.

Module CoreEnv.

(** ** Dates *)

(** A [char], signed on x86_64, as an [int]. *)
Definition char_at (p : list Z) (i : Z) : option Z := LibcString.schar <$> zget p i.

(** The parts of a date: year, month, day, hour, minute, second as 64 bit numbers. *)
Definition date : Type := Z * Z * Z * Z * Z * Z.

Definition bcd (x : Z) : Z := Z.shiftr x 4 * 10 + Z.land x 0x0F.

(** The BCD form is told from the binary one by the ranges of its bytes. *)
Definition read_date (p : list Z) : option date :=
  p0 ← char_at p 0; p1 ← char_at p 1; p2 ← char_at p 2; p3 ← char_at p 3; p4 ← char_at p 4;
  p5 ← char_at p 5; p6 ← char_at p 6;
  Some
  (if (0x20 <=? p0) && (p0 <=? 0x30) && (u8 p1 <=? 0x99) && (0x01 <=? p2) && (p2 <=? 0x12) &&
      (0x01 <=? p3) && (p3 <=? 0x31) && (p4 <=? 0x23) && (p5 <=? 0x59) && (p6 <=? 0x60)
   then (u64 (Z.shiftr p0 4 * 1000 + Z.land p0 0x0F * 100 + bcd p1), u64 (bcd p2), u64 (bcd p3), u64 (bcd p4),
         u64 (bcd p5), u64 (bcd p6))
   else (u64 (p1 * 256 + p0), u64 p2, u64 p3, u64 p4, u64 p5, u64 p6)).

(** The leap year test, as it is written twice. *)
Definition february (y : Z) : Z :=
  if negb (Z.land y 3 =? 0) then 28 else if (y mod 100 =? 0) && negb (y mod 400 =? 0) then 28 else 29.
Definition year_days (j : Z) : Z :=
  if negb (Z.land j 3 =? 0) then 365 else if (j mod 100 =? 0) && negb (j mod 400 =? 0) then 365 else 366.

Definition month_days (y : Z) : list Z := [31; february y; 31; 30; 31; 30; 31; 31; 30; 31; 30; 31].

(** [for(j=2016;j<y;j++)], [n] rounds from [j] on. *)
Fixpoint years (n : nat) (j r : Z) : Z :=
  match n with O => r | S n' => years n' (j + 1) (u64 (r + year_days j)) end.
(** [for(j=1;j<m;j++) r += md[j-1];] *)
Fixpoint months (n : nat) (md : list Z) (j r : Z) : option Z :=
  match n with O => Some r | S n' => d ← zget md (j - 1); months n' md (j + 1) (u64 (r + d)) end.

Definition env_getts (p : list Z) (timezone : Z) : option Z :=
  let tz := if (timezone <? -1440) || (1440 <? timezone) then 0 else timezone in
  x ← read_date p;
  let '(y, m, d, h, i, s) := (x : date) in
  let r := years (Z.to_nat (y - 2016)) 2016 16801 in
  r ← months (Z.to_nat (m - 1)) (month_days y) 1 r;
  let r := u64 (r + (d - 1)) in
  let r := u64 (r * (24 * 60 * 60)) in
  Some (u64 (r + (h * 60 * 60 + (tz + i) * 60 + s))).

(** ** The parsed values *)

Record env_state : Type := mk_env {
  dmabuf : Z;
  debug : Z;
  display : Z;
  quantum : Z;
  flags : Z;
  lang : list Z;
  display_drv : list Z;
  display_env : list Z;
  asktime : bool;
  clock_tz : Z; (* 16 bits, signed *)
}.
#[export] Instance eta_env_state : Eta env_state :=
  fun s => mk_env (dmabuf s) (debug s) (display s) (quantum s) (flags s) (lang s) (display_drv s) (display_env s)
                  (asktime s) (clock_tz s).
Definition set_dmabuf (v : Z) (s : env_state) : env_state := s <| dmabuf := v |>.
Definition set_debug (v : Z) (s : env_state) : env_state := s <| debug := v |>.
Definition set_display (v : Z) (s : env_state) : env_state := s <| display := v |>.
Definition set_quantum (v : Z) (s : env_state) : env_state := s <| quantum := v |>.
Definition set_flags (v : Z) (s : env_state) : env_state := s <| flags := v |>.
Definition set_lang (v : list Z) (s : env_state) : env_state := s <| lang := v |>.
Definition set_display_drv (v : list Z) (s : env_state) : env_state := s <| display_drv := v |>.
Definition set_display_env (v : list Z) (s : env_state) : env_state := s <| display_env := v |>.
Definition set_asktime (v : bool) (s : env_state) : env_state := s <| asktime := v |>.
Definition set_clock_tz (v : Z) (s : env_state) : env_state := s <| clock_tz := v |>.

(** src/core/env.h *)
Definition FLAG_ASLR : Z := 1.
Definition FLAG_SYSLOG : Z := 2.
Definition FLAG_INET : Z := 4.
Definition FLAG_SOUND : Z := 8.
Definition FLAG_PRINT : Z := 16.
Definition FLAG_RESCUESH : Z := 32.
Definition FLAG_SPACEMODE : Z := 64.
Definition PBT_MONO_MONO : Z := 0.
Definition PBT_MONO_COLOR : Z := 1.
Definition PBT_STEREO_MONO : Z := 2.
Definition PBT_STEREO_COLOR : Z := 3.
Definition DBG_DEVICES : Z := 128.
Definition DBG_LOG : Z := 1024.

(** ** Parsers

    The text is in memory up to its length; a position behind it is outside. *)
Section Parse.
Context (text : list Z) (fuel : nat).

Definition ch (i : Z) : M env_state Z := need (zget text i).
Definition blank (c : Z) : bool := (c =? 32) || (c =? 9).
Definition digit (c : Z) : bool := (48 <=? c) && (c <=? 57).
Definition skip_blanks (i : Z) : Z := Vfs.skip blank text i.

(** The digit's value, nothing for another character. *)
Definition hexval (c : Z) : option Z :=
  if digit c then Some (c - 48)
  else if (97 <=? c) && (c <=? 102) then Some (c - 97 + 10)
  else if (65 <=? c) && (c <=? 70) then Some (c - 65 + 10) else None.

Definition clamp (v lo hi : Z) : Z :=
  let v := if v <? lo then lo else v in if negb (hi =? 0) && (hi <? v) then hi else v.

(** [v] is the variable's value before, [None] for a variable that has none; a hexadecimal
    number is shifted into it. *)
Definition env_hex (i : Z) (v : option Z) (lo hi : Z) : M env_state (Z * Z) :=
  let i := skip_blanks i in
  c <-- ch i ;;
  i <-- (if c =? 48 then c <-- ch (i + 1) ;; ret (if c =? 120 then i + 2 else i) else ret i) ;;
  v <-- need v ;;
  do2 i v <-- iter fuel (fun iv : Z * Z => let (i, v) := iv in
    c <-- ch i ;;
    let v := u64 (u64 (Z.shiftl v 4) + default 0 (hexval c)) in
    c <-- ch (i + 1) ;;
    ret (match hexval c with Some _ => inl (i + 1, v) | None => inr (i + 1, v) end)) (i, v) ;;
  ret (i, clamp v lo hi).

Definition env_dec (i : Z) (v : option Z) (lo hi : Z) : M env_state (Z * Z) :=
  let i := skip_blanks i in
  c <-- ch i ;;
  hex <-- (if c =? 48 then c <-- ch (i + 1) ;; ret (c =? 120) else ret false) ;;
  if (hex : bool) then env_hex (i + 2) v lo hi else
  do2 i v <-- iter fuel (fun iv : Z * Z => let (i, v) := iv in
    c <-- ch i ;;
    let v := u64 (u64 (v * 10) + u64 (c - 48)) in
    c <-- ch (i + 1) ;;
    ret (if digit c then inl (i + 1, v) else inr (i + 1, v))) (i, 0) ;;
  ret (i, clamp v lo hi).

(** [(int16_t)(sign*v)] *)
Definition s16 (x : Z) : Z := sgn 16 x.

Definition env_tz (i : Z) : M env_state Z :=
  let i := skip_blanks i in
  c <-- ch i ;;
  let '(i, sign) := if c =? 45 then (i + 1, -1) else (i, 1) in
  c <-- ch i ;;
  if digit c then
    do2 i v <-- env_dec i None 0 1440 ;;
    modify (fun s => set_asktime false (set_clock_tz (s16 (sign * v)) s)) ;;; ret i
  else
    when (c =? 97) (modify (fun s => set_asktime true (set_clock_tz 0 s))) ;;; ret (i + 1).

(** Words for no: 0, f, n, h, k, d and of, in both cases. *)
Definition env_bool (i v flag : Z) : M env_state (Z * Z) :=
  let i := skip_blanks i in
  c <-- ch i ;;
  no <-- (if existsb (Z.eqb c) [48; 102; 70; 110; 78; 104; 72; 107; 75; 100; 68] then ret true
          else if c =? 111 then c <-- ch (i + 1) ;; ret (c =? 102)
          else if c =? 79 then c <-- ch (i + 1) ;; ret (c =? 70)
          else ret false) ;;
  ret (i + 1, if (no : bool) then v else Z.lor v flag).

(** "/sys/drv/display/" *)
Definition DRVPATH : list Z := [47; 115; 121; 115; 47; 100; 114; 118; 47; 100; 105; 115; 112; 108; 97; 121; 47].
(** ".so" *)
Definition SO : list Z := [46; 115; 111].

Definition two (i a b : Z) : bool := (Vfs.at_ text i =? a) && (Vfs.at_ text (i + 1) =? b).

(** The mode of the words mm, mc, sm, an, sc and vr. *)
Definition display_word (i : Z) : Z :=
  if two i 109 109 then PBT_MONO_MONO else if two i 109 99 then PBT_MONO_COLOR
  else if two i 115 109 || two i 97 110 then PBT_STEREO_MONO
  else if two i 115 99 || two i 118 114 then PBT_STEREO_COLOR else 1.

Definition endline (c : Z) : bool := (c =? 0) || (c =? 10).

(** The characters from [i] on up to one where the test holds, at most [n]. *)
Definition run (test : Z -> bool) (n i : Z) : list Z * Z :=
  let l := take (Z.to_nat n) (drop (Z.to_nat i) text) in
  let k := Vfs.span (fun c => negb (test c)) l in (take (Z.to_nat k) l, i + k).

Definition env_display (i : Z) : M env_state Z :=
  let i := skip_blanks i in
  c <-- ch i ;;
  i <-- (if digit c then
           do2 i v <-- env_dec i None 0 3 ;; modify (set_display (u8 v)) ;;; ret i
         else
           modify (set_display (display_word i)) ;;;
           ret (Vfs.skip (fun c => negb (endline c) && negb (c =? 44)) text i)) ;;
  c <-- ch i ;;
  if negb (c =? 44) then ret i else
  let '(name, i) := run (fun c => endline c || (c =? 47) || (c =? 46) || (c =? 58)) (128 - 4 - 17) (i + 1) in
  c <-- ch i ;;
  name_i <-- (if c =? 58 then
                let '(env, i) := run endline (128 - 1) (i + 1) in
                modify (set_display_env env) ;;; ret ([114; 101; 109; 111; 116; 101], i)
              else ret (name, i)) ;;
  let '(name, i) := (name_i : list Z * Z) in
  modify (set_display_drv (DRVPATH ++ name ++ SO)) ;;;
  let i := Vfs.skip (fun c => negb (endline c)) text i in
  ch i ;;; ret i.

Definition letter (c : Z) : bool := ((97 <=? c) && (c <=? 122)) || ((65 <=? c) && (c <=? 90)) || (c =? 95).

Definition env_lang (i : Z) : M env_state Z :=
  let i := skip_blanks i in
  let '(l, i) := run (fun c => negb (letter c)) 5 i in
  ch i ;;;
  modify (set_lang (if zlen l <? 2 then [101; 110] else l)) ;;; ret i.

(** The flags of a build without the debugger. *)
Definition env_debug (i : Z) : M env_state Z :=
  c <-- ch i ;;
  if digit c then do2 i v <-- env_dec i None 0 0xFFFF ;; modify (set_debug (u16 v)) ;;; ret i else
  modify (set_debug 0) ;;;
  iter fuel (fun i : Z =>
    c <-- ch i ;;
    if endline c then ret (inr i) else
    if blank c || (c =? 44) then ret (inl (i + 1)) else
    if two i 102 97 || two i 110 111 || two i 110 101 then modify (set_debug 0) ;;; ret (inr i) else
    when (two i 100 101) (modify (fun s => set_debug (Z.lor (debug s) DBG_DEVICES) s)) ;;;
    when (two i 108 111) (modify (fun s => set_debug (Z.lor (debug s) DBG_LOG) s)) ;;;
    ret (inl (i + 1))) i.

(** ** The loop *)

(** [!memcmp(env, k, n)] at [i]. *)
Definition key (k : list Z) (i : Z) : M env_state bool :=
  let l := take (length k) (drop (Z.to_nat i) text) in
  if bool_decide (l = k) then ret true
  else if bool_decide (take (length l) k = l) then ub else ret false.

Definition flag_key (i flag : Z) : M env_state Z :=
  f <-- gets flags ;; do2 i v <-- env_bool i f flag ;; modify (set_flags v) ;;; ret i.
Definition num_key (get : env_state -> Z) (put : Z -> env_state -> env_state) (lo hi i : Z) : M env_state Z :=
  v <-- gets get ;; do2 i v <-- env_dec i (Some v) lo hi ;; modify (put v) ;;; ret i.

(** The keys in the order they are tried, with their parsers. *)
Definition keys : list (list Z * (Z -> M env_state Z)) :=
  [ (* tz= *) ([116; 122; 61], env_tz);
    (* lang= *) ([108; 97; 110; 103; 61], env_lang);
    (* dmabuf= *) ([100; 109; 97; 98; 117; 102; 61], num_key dmabuf set_dmabuf 0 2048);
    (* aslr= *) ([97; 115; 108; 114; 61], fun i => flag_key i FLAG_ASLR);
    (* syslog= *) ([115; 121; 115; 108; 111; 103; 61], fun i => flag_key i FLAG_SYSLOG);
    (* internet= *) ([105; 110; 116; 101; 114; 110; 101; 116; 61; 0], fun i => flag_key i FLAG_INET);
    (* sound= *) ([115; 111; 117; 110; 100; 61], fun i => flag_key i FLAG_SOUND);
    (* print= *) ([112; 114; 105; 110; 116; 61], fun i => flag_key i FLAG_PRINT);
    (* rescueshell= *) ([114; 101; 115; 99; 117; 101; 115; 104; 101; 108; 108; 61], fun i => flag_key i FLAG_RESCUESH);
    (* spacemode= and its terminator *) ([115; 112; 97; 99; 101; 109; 111; 100; 101; 61; 0], fun i => flag_key i FLAG_SPACEMODE);
    (* quantum= *) ([113; 117; 97; 110; 116; 117; 109; 61], num_key quantum set_quantum 10 1000000);
    (* display= *) ([100; 105; 115; 112; 108; 97; 121; 61], env_display);
    (* debug= *) ([100; 101; 98; 117; 103; 61], env_debug) ].

(** The first key that fits is parsed; else one character is skipped, since the platform
    has no keys of its own. *)
Fixpoint value (ks : list (list Z * (Z -> M env_state Z))) (i : Z) : M env_state Z :=
  match ks with
  | [] => ret (i + 1)
  | (k, f) :: ks' =>
      b <-- key k i ;;
      if (b : bool) then f (i + zlen k) else value ks' i
  end.

Definition PAGE : Z := 4096.

(** A comment to the end of the line, and the start of a block comment. *)
Definition line_comment (i : Z) : M env_state Z :=
  c <-- ch i ;;
  start <-- (if c =? 47 then c <-- ch (i + 1) ;; ret (c =? 47) else ret (c =? 35)) ;;
  ret (if (start : bool) then Z.min PAGE (Vfs.skip (fun c => negb (endline c)) text i) else i).
Definition block_comment (i : Z) : M env_state Z :=
  c <-- ch i ;;
  start <-- (if c =? 47 then c <-- ch (i + 1) ;; ret (c =? 42) else ret false) ;;
  if negb start then ret i else
  iter fuel (fun i : Z =>
    if negb (i <? PAGE) then ret (inr i) else
    c <-- ch i ;; b <-- ch (i - 1) ;;
    ret (if negb (c =? 0) && negb (b =? 42) && negb (c =? 47) then inl (i + 1) else inr i)) (i + 2).

Definition env_loop : M env_state unit :=
  iter fuel (fun i : Z =>
    if negb (i <? PAGE) then ret (inr tt) else
    c <-- ch i ;;
    if c =? 0 then ret (inr tt) else
    i <-- line_comment i ;;
    i <-- block_comment i ;;
    c <-- ch i ;;
    i <-- (if (c =? 13) || (c =? 10) || (c =? 9) || (c =? 32) then ret (i + 1) else value keys i) ;;
    ret (inl i)) 0.

(** The defaults, those of the platform, and the text. *)
Definition env_init (datetime0 timezone : Z) : M env_state unit :=
  modify (fun s =>
    set_lang [101; 110] (set_clock_tz timezone (set_asktime (datetime0 =? 0) (set_debug 0 (set_display PBT_MONO_COLOR
     (set_quantum 1000 (set_dmabuf 0 (set_flags (Z.lor (Z.lor FLAG_SYSLOG FLAG_INET) (Z.lor FLAG_SOUND FLAG_PRINT)) s)))))))) ;;;
  modify (set_dmabuf 256) ;;;
  env_loop.

End Parse.

(** ** Editing the time *)

(** The limits of the fields of the date, in BCD. *)
Definition limit (p : list Z) : list Z :=
  let at_ i := default 0 (zget p i) in
  let p := if at_ 2 <? 0x01 then zset p 2 0x12 else p in
  let p := if 0x12 <? default 0 (zget p 2) then zset p 2 0x01 else p in
  let p := if default 0 (zget p 3) <? 0x01 then zset p 3 0x31 else p in
  let p := if 0x31 <? default 0 (zget p 3) then zset p 3 0x01 else p in
  let p := if 0x23 <? default 0 (zget p 4) then zset p 4 0x23 else p in
  let p := if 0x59 <? default 0 (zget p 5) then zset p 5 0x59 else p in
  if 0x59 <? default 0 (zget p 6) then zset p 6 0x59 else p.

(** [p] is the date, [tz] the time zone; digit [i] of the line becomes [c]. *)
Definition env_asktime_setdigit (c i : Z) (p : list Z) (tz : Z) : list Z * Z :=
  let c := u8 c in
  let c := if 57 <? c then 48 else c in
  let c := if c <? 48 then 57 else c in
  let c := c - 48 in
  let '(p, tz) :=
    if (i =? 14) || (i =? 15) then (p, s16 (if c <? 5 then tz - 60 else tz + 60))
    else if i =? 16 then (p, s16 (if c <? 5 then tz - 10 else tz + 10))
    else if i =? 17 then (p, s16 (if c <? 5 then tz - 1 else tz + 1))
    else
      let b := default 0 (zget p (i / 2)) in
      let b := if i mod 2 =? 1 then Z.lor (Z.land b 0xF0) c else Z.lor (Z.land b 0xF) (u8 (c * 16)) in
      (limit (zset p (i / 2) b), tz) in
  let tz := if tz <? -1440 then 1440 else tz in
  let tz := if 1440 <? tz then -1440 else tz in
  (p, tz).

End CoreEnv.
