(* ===== verification/CoreEnvFacts.v ===== *)
(** The start-up environment: its time stamps are the Gregorian ones, its values stay
    within their limits whatever the text, and its loops end. *)
From Stdlib Require Import ZArith Lia List.
From stdpp Require Import base option list.
From S2P Require Import Prelude CoreState LibcString CoreLib Vfs CoreEnv.
Import CoreEnv.

Module CoreEnvFacts.

(** ** The calendar *)

(** Days since 1970 in the Gregorian calendar, counted in years that begin in March: the
    reference definition, with no loop. *)
Definition day_number (y m d : Z) : Z :=
  let y := if m <=? 2 then y - 1 else y in
  let m := if m <=? 2 then m + 9 else m - 3 in
  365 * y + y / 4 - y / 100 + y / 400 + (153 * m + 2) / 5 + d - 1 - 719468.

Example epoch : day_number 1970 1 1 = 0.
Proof. reflexivity. Qed.
Example leap_day : day_number 2000 3 1 - day_number 2000 2 28 = 2.
Proof. reflexivity. Qed.

Lemma land_3 y : Z.land y 3 = y mod 4.
Proof. change 3 with (Z.ones 2). by rewrite Z.land_ones. Qed.

Lemma year_days_step y : 0 <= y -> day_number (y + 1) 1 1 = day_number y 1 1 + year_days y.
Proof.
  intros Hy. unfold day_number, year_days. rewrite land_3. simpl.
  destruct (Z.eqb_spec (y mod 4) 0), (Z.eqb_spec (y mod 100) 0), (Z.eqb_spec (y mod 400) 0); simpl;
    Z.to_euclidean_division_equations; lia.
Qed.

Lemma years_ok n y r : 0 <= y -> years n y r = u64 (r + day_number (y + Z.of_nat n) 1 1 - day_number y 1 1) \/ n = O.
Proof.
  revert y r. induction n as [|n IH]; intros y r Hy; [by right|left].
  simpl. destruct (IH (y + 1) (u64 (r + year_days y)) ltac:(lia)) as [-> | ->].
  - pose proof (year_days_step y Hy). unfold u64, wrap.
    replace (y + 1 + Z.of_nat n) with (y + Z.of_nat (S n)) by lia.
    rewrite Zminus_mod, Zplus_mod, Z.mod_mod, <- Zplus_mod, <- Zminus_mod by lia. f_equal. lia.
  - simpl. f_equal. rewrite year_days_step by done. lia.
Qed.

(** The days before a month of the year. *)
Lemma months_ok y m r :
  0 <= y -> 1 <= m <= 12 -> 0 <= r < 2 ^ 63 ->
  months (Z.to_nat (m - 1)) (month_days y) 1 r = Some (r + day_number y m 1 - day_number y 1 1).
Proof.
  intros Hy Hm Hr.
  assert (Hf : february y = day_number y 3 1 - day_number y 2 1).
  { unfold february, day_number. rewrite land_3. simpl.
    destruct (Z.eqb_spec (y mod 4) 0), (Z.eqb_spec (y mod 100) 0), (Z.eqb_spec (y mod 400) 0); simpl;
      Z.to_euclidean_division_equations; lia. }
  assert (Hb : 28 <= february y <= 29) by (unfold february; repeat case_match; lia).
  unfold month_days. generalize dependent (february y). intros f Hf Hb.
  assert (Hcases : m = 1 \/ m = 2 \/ m = 3 \/ m = 4 \/ m = 5 \/ m = 6 \/ m = 7 \/ m = 8 \/ m = 9 \/ m = 10 \/ m = 11 \/ m = 12) by lia.
  assert (H1 : day_number y 2 1 = day_number y 1 1 + 31) by (unfold day_number; simpl; Z.to_euclidean_division_equations; lia).
  assert (H2 : forall k, 3 <= k <= 12 -> day_number y k 1 = day_number y 3 1 + ((153 * (k - 3) + 2) / 5)).
  { intros k Hk. unfold day_number. destruct (Z.leb_spec k 2); [lia|]. simpl. Z.to_euclidean_division_equations. lia. }
  repeat destruct Hcases as [-> | Hcases]; [| | | | | | | | | | |subst m];
    simpl; repeat first [rewrite u64_u64_add | rewrite <- Z.add_assoc]; rewrite ?u64_small by lia; f_equal; try lia.
  all: rewrite H2 by lia; Z.to_euclidean_division_equations; lia.
Qed.

(** ** Dates *)

Definition to_bcd (x : Z) : Z := x / 10 * 16 + x mod 10.

Definition upto (n : Z) : list Z := map Z.of_nat (seq 0 (Z.to_nat n)).
Lemma upto_all (P : Z -> bool) n : forallb P (upto n) = true -> forall x, 0 <= x < n -> P x = true.
Proof.
  intros H x Hx. rewrite forallb_forall in H. apply H, in_map_iff. exists (Z.to_nat x). split; [lia|].
  apply in_seq. lia.
Qed.

(** Below 80 the byte is not negative and is read back. *)
Lemma bcd_to_bcd x : 0 <= x < 80 -> LibcString.schar (to_bcd x) = to_bcd x /\ bcd (to_bcd x) = x /\ u8 (to_bcd x) = to_bcd x.
Proof.
  intros Hx. assert (H : (LibcString.schar (to_bcd x) =? to_bcd x) && (bcd (to_bcd x) =? x) && (u8 (to_bcd x) =? to_bcd x) = true).
  { revert x Hx. apply upto_all. by vm_compute. }
  rewrite !andb_true_iff, !Z.eqb_eq in H. tauto.
Qed.
Lemma to_bcd_mono x y : 0 <= x <= y -> to_bcd x <= to_bcd y.
Proof. unfold to_bcd. intros. Z.to_euclidean_division_equations. lia. Qed.

(** The date as the boot loader hands it over. *)
Definition bcd_date (y m d h i s : Z) : list Z :=
  [to_bcd (y / 100); to_bcd (y mod 100); to_bcd m; to_bcd d; to_bcd h; to_bcd i; to_bcd s].

(** A date and time of day that the BCD form can hold, in a year of its century below 80. *)
Record valid_date (y m d h i s : Z) : Prop := {
  vd_year : 2016 <= y < 3080;
  vd_century : y mod 100 < 80;
  vd_month : 1 <= m <= 12;
  vd_day : 1 <= d <= 31;
  vd_hour : 0 <= h <= 23;
  vd_minute : 0 <= i <= 59;
  vd_second : 0 <= s <= 60;
}.

Lemma read_bcd_date y m d h i s : valid_date y m d h i s -> read_date (bcd_date y m d h i s) = Some (y, m, d, h, i, s).
Proof.
  intros []. assert (Hc : 20 <= y / 100 <= 30) by (Z.to_euclidean_division_equations; lia).
  assert (Hy : 0 <= y mod 100 < 80) by (pose proof (Z.mod_pos_bound y 100); lia).
  unfold read_date, char_at, bcd_date, zget. simpl.
  pose proof (bcd_to_bcd (y / 100) ltac:(lia)) as (-> & Ey1 & _). pose proof (bcd_to_bcd (y mod 100) Hy) as (-> & Ey2 & ->).
  pose proof (bcd_to_bcd m ltac:(lia)) as (-> & Em & _). pose proof (bcd_to_bcd d ltac:(lia)) as (-> & Ed & _).
  pose proof (bcd_to_bcd h ltac:(lia)) as (-> & Eh & _). pose proof (bcd_to_bcd i ltac:(lia)) as (-> & Ei & _).
  pose proof (bcd_to_bcd s ltac:(lia)) as (-> & Es & _).
  pose proof (to_bcd_mono 20 (y / 100) ltac:(lia)). pose proof (to_bcd_mono (y / 100) 30 ltac:(lia)).
  pose proof (to_bcd_mono (y mod 100) 79 ltac:(lia)). pose proof (to_bcd_mono 1 m ltac:(lia)). pose proof (to_bcd_mono m 12 ltac:(lia)).
  pose proof (to_bcd_mono 1 d ltac:(lia)). pose proof (to_bcd_mono d 31 ltac:(lia)). pose proof (to_bcd_mono h 23 ltac:(lia)).
  pose proof (to_bcd_mono i 59 ltac:(lia)). pose proof (to_bcd_mono s 60 ltac:(lia)).
  change (to_bcd 20) with 32 in *. change (to_bcd 30) with 48 in *. change (to_bcd 79) with 121 in *. change (to_bcd 1) with 1 in *.
  change (to_bcd 12) with 18 in *. change (to_bcd 31) with 49 in *. change (to_bcd 23) with 35 in *. change (to_bcd 59) with 89 in *.
  change (to_bcd 60) with 96 in *.
  repeat match goal with |- context [?a <=? ?b] => rewrite (proj2 (Z.leb_le a b)) by lia end. simpl.
  rewrite Em, Ed, Eh, Ei, Es. unfold bcd in Ey1, Ey2.
  replace (Z.shiftr (to_bcd (y / 100)) 4 * 1000 + Z.land (to_bcd (y / 100)) 15 * 100 + bcd (to_bcd (y mod 100))) with y.
  2:{ unfold bcd. rewrite Ey2. Z.to_euclidean_division_equations. lia. }
  by rewrite !u64_small by lia.
Qed.

(** C9: the loops over the years and months count the days of the Gregorian calendar: the
    time stamp of a BCD date of the years 2016 to 3079 whose last two digits are below 80 is
    its day number in seconds, with the time of day and the time zone, of a day at most,
    added.  (The years 80 to 99 of a century are misread: [env_getts_misreads].) *)
Theorem env_getts_gregorian y m d h i s tz :
  valid_date y m d h i s -> -1440 <= tz <= 1440 ->
  env_getts (bcd_date y m d h i s) tz = Some (u64 (day_number y m d * 86400 + h * 3600 + (tz + i) * 60 + s)).
Proof.
  intros Hd Htz. unfold env_getts. rewrite read_bcd_date by done. destruct Hd. simpl.
  replace ((tz <? -1440) || (1440 <? tz)) with false by (destruct (Z.ltb_spec tz (-1440)), (Z.ltb_spec 1440 tz); lia || done).
  assert (Hr : years (Z.to_nat (y - 2016)) 2016 16801 = day_number y 1 1 /\ 0 <= day_number y 1 1 < 2 ^ 62).
  { assert (Hb : 0 <= day_number y 1 1 < 2 ^ 62) by (unfold day_number; simpl; Z.to_euclidean_division_equations; lia).
    split; [|done]. destruct (years_ok (Z.to_nat (y - 2016)) 2016 16801 ltac:(lia)) as [-> | H0].
    - rewrite Z2Nat.id by lia. replace (2016 + (y - 2016)) with y by lia. change (day_number 2016 1 1) with 16801.
      rewrite u64_small; lia.
    - rewrite H0. assert (y = 2016) as -> by lia. done. }
  destruct Hr as [-> Hr]. rewrite months_ok by lia. simpl. f_equal.
  assert (Hm : day_number y m d = day_number y m 1 + (d - 1)) by (unfold day_number; destruct (m <=? 2); lia).
  rewrite Hm. unfold u64, wrap. rewrite Zplus_mod_idemp_l. f_equal.
  replace (day_number y 1 1 + day_number y m 1 - day_number y 1 1) with (day_number y m 1) by lia.
  assert (Hb : 0 <= day_number y m 1 < 2 ^ 62).
  { unfold day_number. destruct (Z.leb_spec m 2); Z.to_euclidean_division_equations; lia. }
  rewrite (Z.mod_small _ (2 ^ 64)) by lia. lia.
Qed.

Lemma env_getts_gregorian_witness :
  env_getts (bcd_date 2024 2 29 13 37 5) 60 = Some (u64 (day_number 2024 2 29 * 86400 + 13 * 3600 + (60 + 37) * 60 + 5)).
Proof. apply env_getts_gregorian; [split; vm_compute; (done || split; done)|lia]. Defined.

(** In the years from 80 on of a century the tens of the year are taken for a negative
    number, and a binary date of the years 2016 to 2047, whose low byte is negative as
    well, is read 256 years too early, which ends at the days of 2016. *)
Theorem env_getts_misreads :
  read_date (bcd_date 2080 1 1 0 0 0) = Some (u64 (2 * 1000 - 8 * 10), 1, 1, 0, 0, 0) /\
  forall y m d h i s, 2016 <= y < 2048 -> Forall (fun x => 0 <= x < 128) [m; d; h; i; s] ->
    read_date [y mod 256; y / 256; m; d; h; i; s] = Some (y - 256, m, d, h, i, s).
Proof.
  split; [by vm_compute|]. intros y m d h i s Hy Hf. rewrite !Forall_cons in Hf. destruct Hf as (Hm & Hd & Hh & Hi & Hs & _).
  assert (Hsm : forall x, 0 <= x < 128 -> LibcString.schar x = x).
  { intros x Hx. apply Z.eqb_eq. revert x Hx. apply upto_all. by vm_compute. }
  assert (Hy2 : y / 256 = 7) by (Z.to_euclidean_division_equations; lia).
  assert (Hy1 : LibcString.schar (y mod 256) = y - 8 * 256).
  { replace (y mod 256) with (y - 1792) by (Z.to_euclidean_division_equations; lia).
    assert (forall k, 0 <= k < 32 -> LibcString.schar (k + 224) =? k - 32 = true) as H by (apply upto_all; by vm_compute).
    specialize (H (y - 2016) ltac:(lia)). apply Z.eqb_eq in H. replace (y - 1792) with (y - 2016 + 224) by lia. lia. }
  unfold read_date, char_at, zget. simpl. rewrite Hy1, Hy2, !Hsm by lia.
  destruct (Z.leb_spec 32 (y - 8 * 256)); [lia|]. simpl. rewrite !u64_small by lia. do 6 f_equal. lia.
Qed.

(** ** Every text

    [safe m Q s]: the run of [m] ends, with [Q] when it does not read outside the text. *)
Definition safe {S A} (m : M S A) (Q : A -> S -> Prop) (s : S) : Prop :=
  match m s with Ret a s' => Q a s' | UB => True | _ => False end.

Section Safe.
Context {S : Type}.

Lemma safe_bind {A B} (m : M S A) (k : A -> M S B) (Q : B -> S -> Prop) s :
  safe m (fun a => safe (k a) Q) s -> safe (bind m k) Q s.
Proof. unfold safe, bind. by destruct (m s). Qed.
Lemma safe_mono {A} (m : M S A) (P Q : A -> S -> Prop) s :
  safe m P s -> (forall a s', P a s' -> Q a s') -> safe m Q s.
Proof. unfold safe. destruct (m s); naive_solver. Qed.
Lemma safe_ret {A} (a : A) (Q : A -> S -> Prop) s : Q a s -> safe (ret a) Q s.
Proof. done. Qed.
Lemma safe_modify (f : S -> S) (Q : unit -> S -> Prop) s : Q tt (f s) -> safe (modify f) Q s.
Proof. done. Qed.
Lemma safe_gets {A} (f : S -> A) (Q : A -> S -> Prop) s : Q (f s) s -> safe (gets f) Q s.
Proof. done. Qed.
Lemma safe_need {A} (o : option A) (Q : A -> S -> Prop) s : (forall a, o = Some a -> Q a s) -> safe (need o) Q s.
Proof. destruct o; [by intros H; apply H|done]. Qed.
Lemma safe_when (c : bool) (m : M S unit) (Q : unit -> S -> Prop) s : safe m Q s -> Q tt s -> safe (when c m) Q s.
Proof. by destruct c. Qed.
Lemma safe_iter {A B} (I : A -> S -> Prop) (mu : A -> nat) (body : A -> M S (A + B)) (Q : B -> S -> Prop) :
  (forall a s, I a s -> safe (body a) (fun r s' => match r with
                                                   | inl a' => I a' s' /\ (mu a' < mu a)%nat
                                                   | inr b => Q b s'
                                                   end) s) ->
  forall n a s, I a s -> (mu a < n)%nat -> safe (iter n body a) Q s.
Proof.
  intros Hb n. induction n as [|n IH]; intros a s HI Hn; [lia|].
  simpl. apply safe_bind. eapply safe_mono; [by apply Hb|].
  intros [a'|b] s' Hr; [|done]. destruct Hr. apply IH; [done|lia].
Qed.

End Safe.

Lemma span_nonneg test l : 0 <= Vfs.span test l.
Proof. induction l as [|c l IH]; simpl; [lia|]. destruct (test c); lia. Qed.
Lemma skip_le test text i : i <= Vfs.skip test text i.
Proof. unfold Vfs.skip. pose proof (span_nonneg test (drop (Z.to_nat i) text)). lia. Qed.

(** The parsed values within their limits; the flags that are on by default stay on. *)
Record in_limits (s : env_state) : Prop := {
  il_dmabuf : 0 <= dmabuf s <= 2048;
  il_quantum : 10 <= quantum s <= 1000000;
  il_clock_tz : -1440 <= clock_tz s <= 1440;
  il_display : 0 <= display s <= 3;
  il_debug : 0 <= debug s <= 65535;
  il_lang : 2 <= zlen (lang s) <= 5;
  il_flags : Z.land (flags s) 30 = 30;
}.

Section Text.
Context (text : list Z) (fuel : nat) (Hfuel : (length text < fuel)%nat).

Definition mu (i : Z) : nat := Z.to_nat (zlen text - i).
Lemma mu_start i : 0 <= i -> (mu i < fuel)%nat.
Proof. unfold mu, zlen. lia. Qed.
Lemma mu_next i j c : zget text i = Some c -> i < j -> (mu j < mu i)%nat.
Proof. intros H%zget_Some_lt Hj. unfold mu. lia. Qed.

Lemma safe_ch i (Q : Z -> env_state -> Prop) s : (forall c, zget text i = Some c -> Q c s) -> safe (ch text i) Q s.
Proof. apply safe_need. Qed.

(** A parser that moves on and keeps the limits. *)
Definition parser (f : Z -> M env_state Z) : Prop :=
  forall i s, 0 <= i -> in_limits s -> safe (f i) (fun i' s' => i <= i' /\ in_limits s') s.

Lemma clamp_bounds v lo hi : 0 <= v -> 0 <= lo < hi -> lo <= clamp v lo hi <= hi.
Proof.
  unfold clamp. intros ? ?. destruct (Z.ltb_spec v lo), (Z.eqb_spec hi 0); try lia; cbn [negb andb];
    match goal with |- context [?a <? ?b] => destruct (Z.ltb_spec a b) end; lia.
Qed.

Lemma env_hex_safe i v lo hi s :
  0 <= i -> 0 <= lo < hi -> safe (env_hex text fuel i v lo hi) (fun r s' => i <= fst r /\ lo <= snd r <= hi /\ s' = s) s.
Proof.
  intros Hi Hl. unfold env_hex. pose proof (skip_le blank text i) as Hs. fold (skip_blanks text i) in Hs.
  set (i0 := skip_blanks text i) in *. apply safe_bind, safe_ch. intros c Hc. apply safe_bind.
  apply (safe_mono _ (fun i1 s' => i <= i1 /\ s' = s)).
  { destruct (c =? 48); [|by apply safe_ret]. apply safe_bind, safe_ch. intros d Hd. apply safe_ret.
    destruct (d =? 120); split; (lia || done). }
  intros i1 s1 [Hi1 ->]. apply safe_bind, safe_need. intros v0 _. apply safe_bind.
  apply (safe_mono _ (fun r s' => i <= fst r /\ s' = s /\ 0 <= snd r)).
  - apply (safe_iter (fun iv s' => i <= fst iv /\ s' = s) (fun iv => mu (fst iv))); [|done|simpl; apply mu_start; lia].
    intros [j w] s' [Hj ->]. simpl in Hj. apply safe_bind, safe_ch. intros d Hd.
    apply safe_bind, safe_ch. intros e He. apply safe_ret.
    destruct (hexval e); simpl; [|split; [lia|split; [done|apply u64_bound]]].
    split; [split; [lia|done]|]. apply (mu_next _ _ _ Hd). lia.
  - intros [j w] s' (Hj & -> & Hw). apply safe_ret. split; [done|]. split; [by apply clamp_bounds|done].
Qed.

Lemma env_dec_safe i v lo hi s :
  0 <= i -> 0 <= lo < hi -> safe (env_dec text fuel i v lo hi) (fun r s' => i <= fst r /\ lo <= snd r <= hi /\ s' = s) s.
Proof.
  intros Hi Hl. unfold env_dec. pose proof (skip_le blank text i) as Hs. fold (skip_blanks text i) in Hs.
  set (i0 := skip_blanks text i) in *. apply safe_bind, safe_ch. intros c Hc. apply safe_bind.
  apply (safe_mono _ (fun _ s' => s' = s)).
  { destruct (c =? 48); [|by apply safe_ret]. apply safe_bind, safe_ch. intros d Hd. by apply safe_ret. }
  intros [] s1 ->.
  { eapply safe_mono; [apply env_hex_safe; lia|]. intros r s' (? & ? & ?). split_and!; try done; lia. }
  apply safe_bind. apply (safe_mono _ (fun r s' => i <= fst r /\ s' = s /\ 0 <= snd r)).
  - apply (safe_iter (fun iv s' => i <= fst iv /\ s' = s) (fun iv => mu (fst iv))); [|done|simpl; apply mu_start; lia].
    intros [j w] s' [Hj ->]. simpl in Hj. apply safe_bind, safe_ch. intros d Hd.
    apply safe_bind, safe_ch. intros e He. apply safe_ret.
    destruct (digit e); simpl; [|split; [lia|split; [done|apply u64_bound]]].
    split; [split; [lia|done]|]. apply (mu_next _ _ _ Hd). lia.
  - intros [j w] s' (Hj & -> & Hw). apply safe_ret. split; [done|]. split; [by apply clamp_bounds|done].
Qed.

Lemma env_tz_safe : parser (env_tz text fuel).
Proof.
  intros i s Hi Hs. unfold env_tz. pose proof (skip_le blank text i) as Hk. fold (skip_blanks text i) in Hk.
  set (i0 := skip_blanks text i) in *. apply safe_bind, safe_ch. intros c Hc.
  assert (Hsg : exists i1 sign, (if c =? 45 then (i0 + 1, -1) else (i0, 1)) = (i1, sign) /\ i <= i1 /\ (sign = 1 \/ sign = -1)).
  { destruct (c =? 45); [exists (i0 + 1), (-1)|exists i0, 1]; split_and!; (done || lia). }
  destruct Hsg as (i1 & sign & -> & Hi1 & Hsign). apply safe_bind, safe_ch. intros d Hd. destruct (digit d).
  - apply safe_bind. eapply safe_mono; [apply env_dec_safe; lia|]. intros [j v] s' (Hj & Hv & ->). simpl in Hj, Hv.
    apply safe_bind, safe_modify, safe_ret. split; [lia|]. destruct Hs. split; try done. simpl.
    assert (s16 (sign * v) = sign * v) as -> by (unfold s16, sgn, wrap; cbv zeta; repeat case_match; Z.to_euclidean_division_equations; lia).
    lia.
  - apply safe_bind, safe_when; [apply safe_modify|]; apply safe_ret; (split; [lia|]); [|done].
    destruct Hs. by split.
Qed.

Lemma env_lang_safe : parser (env_lang text).
Proof.
  intros i s Hi Hs. unfold env_lang. pose proof (skip_le blank text i) as Hk. fold (skip_blanks text i) in Hk.
  set (i0 := skip_blanks text i) in *. unfold run. cbv zeta. set (w := take (Z.to_nat 5) _).
  set (k := Vfs.span _ w). pose proof (span_nonneg (fun c => negb (negb (letter c))) w : 0 <= k).
  apply safe_bind, safe_ch. intros c Hc. apply safe_bind, safe_modify, safe_ret. split; [lia|].
  destruct Hs. split; try done. simpl. destruct (Z.ltb_spec (zlen (take (Z.to_nat k) w)) 2); [by vm_compute|].
  split; [done|]. unfold w, zlen. rewrite !length_take. lia.
Qed.

Lemma env_debug_safe : parser (env_debug text fuel).
Proof.
  intros i s Hi Hs. unfold env_debug. apply safe_bind, safe_ch. intros c Hc. destruct (digit c).
  - apply safe_bind. eapply safe_mono; [apply env_dec_safe; lia|]. intros [j v] s' (Hj & Hv & ->). simpl in Hj, Hv.
    apply safe_bind, safe_modify, safe_ret. split; [lia|]. destruct Hs. split; try done. simpl. unfold u16. pose proof (wrap_bound 16 v). lia.
  - apply safe_bind, safe_modify.
    apply (safe_iter (fun j s' => i <= j /\ in_limits s' /\ exists b, debug s' = Z.land b 1152) mu).
    + clear Hs s. intros j s (Hj & Hs & b & Hb). apply safe_bind, safe_ch. intros d Hd.
      destruct (endline d); [by apply safe_ret|].
      assert (Hn : (mu (j + 1) < mu j)%nat) by (apply (mu_next _ _ _ Hd); lia).
      destruct (blank d || (d =? 44)); [apply safe_ret; split; [split; [lia|split; [done|by exists b]]|done]|].
      destruct (two text j 102 97 || two text j 110 111 || two text j 110 101).
      { apply safe_bind, safe_modify, safe_ret. split; [done|]. by destruct Hs. }
      assert (Hflag : forall x s0, in_limits s0 -> (exists b, debug s0 = Z.land b 1152) -> Z.land x 1152 = x ->
                in_limits (set_debug (Z.lor (debug s0) x) s0) /\ exists b, debug (set_debug (Z.lor (debug s0) x) s0) = Z.land b 1152).
      { clear. intros x s0 [] [b Hb] Hx.
        assert (He : Z.lor (debug s0) x = Z.land (Z.lor b x) 1152) by (rewrite Hb, <- Hx at 1; by rewrite <- Z.land_lor_distr_l).
        split; [|exists (Z.lor b x); done]. split; try done. simpl. rewrite He.
        assert (Hnn : 0 <= Z.land (Z.lor b x) 1152) by (apply Z.land_nonneg; lia).
        split; [done|]. assert (H16 : Z.land (Z.lor b x) 1152 = Z.land (Z.land (Z.lor b x) 1152) (Z.ones 16))
          by (by rewrite <- Z.land_assoc).
        rewrite H16, Z.land_ones by lia. pose proof (Z.mod_pos_bound (Z.land (Z.lor b x) 1152) (2 ^ 16)). lia. }
      apply safe_bind, safe_when; [apply safe_modify|];
        [destruct (Hflag DBG_DEVICES s Hs (ex_intro _ b Hb) eq_refl) as [Hs1 Hb1]|pose proof Hs as Hs1; pose proof (ex_intro (fun b => debug s = Z.land b 1152) b Hb) as Hb1];
        (apply safe_bind, safe_when; [apply safe_modify|]; apply safe_ret; (split; [split; [lia|]|done]));
        [apply (Hflag DBG_LOG _ Hs1 Hb1 eq_refl)|done|apply (Hflag DBG_LOG _ Hs1 Hb1 eq_refl)|done].
    + split; [lia|]. split; [|by exists 0]. by destruct Hs.
    + apply mu_start. lia.
Qed.

Lemma display_word_bounds i : 0 <= display_word text i <= 3.
Proof. unfold display_word, PBT_MONO_MONO, PBT_MONO_COLOR, PBT_STEREO_MONO, PBT_STEREO_COLOR. repeat case_match; lia. Qed.

Lemma run_le test n i : i <= snd (run text test n i).
Proof.
  unfold run. simpl.
  pose proof (span_nonneg (fun c => negb (test c)) (take (Z.to_nat n) (drop (Z.to_nat i) text))). lia.
Qed.

Lemma env_display_safe : parser (env_display text fuel).
Proof.
  intros i s Hi Hs. unfold env_display. pose proof (skip_le blank text i) as Hk. fold (skip_blanks text i) in Hk.
  set (i0 := skip_blanks text i) in *. apply safe_bind, safe_ch. intros c Hc. apply safe_bind.
  apply (safe_mono _ (fun i1 s' => i <= i1 /\ in_limits s')).
  { destruct (digit c).
    - apply safe_bind. eapply safe_mono; [apply env_dec_safe; lia|]. intros [j v] s' (Hj & Hv & ->). simpl in Hj, Hv.
      apply safe_bind, safe_modify, safe_ret. split; [lia|]. destruct Hs. split; try done. simpl.
      unfold u8. rewrite wrap_small; lia.
    - apply safe_bind, safe_modify, safe_ret.
      pose proof (skip_le (fun c => negb (endline c) && negb (c =? 44)) text i0). split; [lia|].
      destruct Hs. split; try done. apply display_word_bounds. }
  clear Hs s. intros i1 s [Hi1 Hs]. apply safe_bind, safe_ch. intros d Hd.
  destruct (negb (d =? 44)); [by apply safe_ret|].
  pose proof (run_le (fun c => endline c || (c =? 47) || (c =? 46) || (c =? 58)) (128 - 4 - 17) (i1 + 1)) as Hr.
  destruct (run text _ _ _) as [name i2]. simpl in Hr. apply safe_bind, safe_ch. intros e He. apply safe_bind.
  apply (safe_mono _ (fun r s' => i <= snd r /\ in_limits s')).
  { destruct (e =? 58); [|apply safe_ret; split; [simpl; lia|done]].
    pose proof (run_le endline (128 - 1) (i2 + 1)) as Hr2. destruct (run text endline _ _) as [env i3]. simpl in Hr2.
    apply safe_bind, safe_modify, safe_ret. split; [simpl; lia|]. by destruct Hs. }
  clear Hs s. intros [n2 i3] s [Hi3 Hs]. simpl in Hi3. apply safe_bind, safe_modify, safe_bind, safe_ch. intros g Hg.
  apply safe_ret. pose proof (skip_le (fun c => negb (endline c)) text i3). split; [lia|]. by destruct Hs.
Qed.

Lemma flag_key_safe flag : parser (fun i => flag_key text i flag).
Proof.
  intros i s Hi Hs. unfold flag_key. apply safe_bind, safe_gets, safe_bind.
  apply (safe_mono _ (fun r s' => i <= fst r /\ s' = s /\ (snd r = flags s \/ snd r = Z.lor (flags s) flag))).
  - unfold env_bool. pose proof (skip_le blank text i) as Hk. fold (skip_blanks text i) in Hk.
    apply safe_bind, safe_ch. intros c Hc. apply safe_bind. apply (safe_mono _ (fun _ s' => s' = s)).
    { repeat match goal with |- context [if ?b then _ else _] => destruct b end; try by apply safe_ret.
      - apply safe_bind, safe_ch. by intros d Hd.
      - apply safe_bind, safe_ch. by intros d Hd. }
    intros no s1 ->. apply safe_ret. simpl. split; [lia|]. split; [done|]. destruct no; auto.
  - intros [j v] s1 (Hj & -> & Hv). simpl in Hj, Hv. apply safe_bind, safe_modify, safe_ret. split; [done|].
    destruct Hs. split; try done. simpl. destruct Hv as [->| ->]; [done|].
    rewrite Z.land_lor_distr_l, il_flags0. apply Z.bits_inj'. intros n _. rewrite Z.lor_spec, Z.land_spec.
    by destruct (Z.testbit 30 n), (Z.testbit flag n).
Qed.

Lemma num_key_safe get put lo hi :
  0 <= lo < hi -> (forall s v, in_limits s -> lo <= v <= hi -> in_limits (put v s)) -> parser (num_key text fuel get put lo hi).
Proof.
  intros Hl Hp i s Hi Hs. unfold num_key. apply safe_bind, safe_gets, safe_bind.
  eapply safe_mono; [by apply env_dec_safe|]. intros [j v] s' (Hj & Hv & ->). simpl in Hj, Hv.
  apply safe_bind, safe_modify, safe_ret. split; [done|]. by apply Hp.
Qed.

Lemma keys_safe : Forall (fun kf => 0 < zlen (fst kf) /\ parser (snd kf)) (keys text fuel).
Proof.
  unfold keys. repeat apply Forall_cons_2; try apply Forall_nil_2; (split; [reflexivity|]); cbn [snd];
    first [apply env_tz_safe | apply env_lang_safe | apply flag_key_safe | apply env_display_safe | apply env_debug_safe
          | apply num_key_safe; [lia|]; intros s v [] Hv; split; try done; simpl; lia ].
Qed.

Lemma value_safe ks :
  Forall (fun kf => 0 < zlen (fst kf) /\ parser (snd kf)) ks ->
  forall i s, 0 <= i -> in_limits s -> safe (value text ks i) (fun i' s' => i < i' /\ in_limits s') s.
Proof.
  induction 1 as [|[k f] ks [Hk Hf] _ IH]; intros i s Hi Hs; simpl; [apply safe_ret; split; [lia|done]|].
  apply safe_bind. apply (safe_mono _ (fun _ s' => s' = s)).
  { unfold key. repeat case_match; done. }
  intros b s1 ->. destruct b; [|by apply IH]. simpl in Hk, Hf.
  eapply safe_mono; [apply Hf; [lia|done]|]. intros j s' [Hj Hs']. split; [lia|done].
Qed.

Lemma comments_safe i s :
  0 <= i < PAGE -> safe (i <-- line_comment text i ;; block_comment text fuel i) (fun i' s' => i <= i' /\ s' = s) s.
Proof.
  intros Hi. apply safe_bind. apply (safe_mono _ (fun i' s' => i <= i' /\ s' = s)).
  - unfold line_comment. apply safe_bind, safe_ch. intros c Hc. apply safe_bind.
    apply (safe_mono _ (fun _ s' => s' = s)).
    { destruct (c =? 47); [apply safe_bind, safe_ch; by intros d Hd|by apply safe_ret]. }
    intros [] s1 ->; apply safe_ret; (split; [|done]); [|lia].
    pose proof (skip_le (fun c => negb (endline c)) text i). lia.
  - clear Hi. intros j s1 [Hj ->]. unfold block_comment. apply safe_bind, safe_ch. intros c Hc. apply safe_bind.
    apply (safe_mono _ (fun _ s' => s' = s)).
    { destruct (c =? 47); [apply safe_bind, safe_ch; by intros d Hd|by apply safe_ret]. }
    intros [] s1 ->; [|apply safe_ret; split; [done|done]]. cbn [negb].
    apply zget_Some_lt in Hc.
    apply (safe_iter (fun k s' => j <= k /\ s' = s) mu); [|split; [lia|done]|apply mu_start; lia].
    intros k s' [Hk ->]. destruct (negb (k <? PAGE)); [apply safe_ret; split; [lia|done]|].
    apply safe_bind, safe_ch. intros d Hd. apply safe_bind, safe_ch. intros e He. apply safe_ret.
    destruct (negb (d =? 0) && negb (e =? 42) && negb (d =? 47)); [|split; [lia|done]].
    split; [split; [lia|done]|]. apply (mu_next _ _ _ Hd). lia.
Qed.

Lemma env_loop_safe s : in_limits s -> safe (env_loop text fuel) (fun _ s' => in_limits s') s.
Proof.
  intros Hs. unfold env_loop. apply (safe_iter (fun i s' => 0 <= i /\ in_limits s') mu); [|split; [lia|done]|apply mu_start; lia].
  clear Hs s. intros i s [Hi Hs]. destruct (Z.ltb_spec i PAGE); [|by apply safe_ret]. cbn [negb].
  apply safe_bind, safe_ch. intros c Hc. destruct (c =? 0); [by apply safe_ret|].
  pose proof (comments_safe i s ltac:(lia)) as Hcm. apply safe_bind.
  assert (Hassoc : forall (k : Z -> M env_state (Z + unit)) Q s, safe (bind (i <-- line_comment text i ;; block_comment text fuel i) k) Q s ->
            safe (line_comment text i) (fun j => safe (bind (block_comment text fuel j) k) Q) s).
  { intros k Q s0. unfold safe, bind. by destruct (line_comment text i s0). }
  apply Hassoc, safe_bind. eapply safe_mono; [exact Hcm|]. intros j s1 [Hj ->]. cbv beta.
  apply safe_bind, safe_ch. intros d Hd. apply safe_bind.
  apply (safe_mono _ (fun i' s' => j < i' /\ in_limits s')).
  { destruct ((d =? 13) || (d =? 10) || (d =? 9) || (d =? 32)); [apply safe_ret; split; [lia|done]|].
    apply value_safe; [apply keys_safe|lia|done]. }
  intros j' s2 [Hj' Hs2]. apply safe_ret. split; [split; [lia|done]|]. apply (mu_next _ _ _ Hc). lia.
Qed.

(** Parsing the start-up environment, with a time zone of a day at most, ends for every text.
    When its behaviour is defined, it leaves the values within their limits, whatever the
    text says, and the flags of the syslog, network, sound and print services, which are on
    by default, are on afterwards.  It is not defined when it reads behind the text, and
    when a time zone, display or debug level is given in hexadecimal, which is added to a
    variable without a value. *)
Theorem env_init_limits datetime0 timezone s :
  -1440 <= timezone <= 1440 ->
  env_init text fuel datetime0 timezone s = UB \/
  exists s', env_init text fuel datetime0 timezone s = Ret tt s' /\ in_limits s'.
Proof.
  intros Htz. assert (H : safe (env_init text fuel datetime0 timezone) (fun _ s' => in_limits s') s).
  { unfold env_init. apply safe_bind, safe_modify, safe_bind, safe_modify, env_loop_safe. split; try done. }
  unfold safe in H. destruct (env_init text fuel datetime0 timezone s) as [[] s'| | |]; try done; [right|by left].
  by exists s'.
Qed.

End Text.

(** [quantum=5], [sound=no], [tz=-90], [dmabuf=99999], [lang=hu_HU], one per line. *)
Definition sample : list Z :=
  [113; 117; 97; 110; 116; 117; 109; 61; 53; 10; 115; 111; 117; 110; 100; 61; 110; 111; 10; 116; 122; 61; 45; 57; 48; 10; 100; 109; 97; 98; 117; 102; 61; 57; 57; 57; 57; 57; 10; 108; 97; 110; 103; 61; 104; 117; 95; 72; 85; 10] ++ List.repeat 0 16.
Definition blank_env : env_state := mk_env 0 0 0 0 0 [] [] [] false 0.

Lemma env_init_limits_witness :
  env_init sample 200 0 0 blank_env = UB \/ exists s', env_init sample 200 0 0 blank_env = Ret tt s' /\ in_limits s'.
Proof. apply (env_init_limits sample 200); [apply Nat.ltb_lt; reflexivity|lia]. Defined.

(** What is read: the quantum and the buffer are moved to their limits, and the sound
    stays on. *)
Example sample_values :
  match env_init sample 200 0 0 blank_env with
  | Ret _ s => (quantum s, flags s, clock_tz s, dmabuf s, lang s) = (10, 30, -90, 2048, [104; 117; 95; 72; 85])
  | _ => False
  end.
Proof. vm_compute. reflexivity. Qed.

End CoreEnvFacts.
