(* ===== verification/Msg.v ===== *)
(** Messages between tasks, src/core/msg.c: the queue of a task, and receiving, sending and
    notifying on top of the scheduler, the permissions and the page allocator. *)
From Stdlib Require Import ZArith Lia List.
From stdpp Require Import base option list gmap.
From S2P Require Import Prelude CoreState Pmm Sched Security CoreLib.

(** ** The queue of a task

    Its pages follow the task control block: the header, then the messages in a ring of
    slots; slot 0 is the header.  The pages behind the first one come when they are first
    needed. *)
Module Mq.

Record msg_t : Type := mk_msg {
  evt : Z;
  arg0 : Z;
  arg1 : Z;
  arg2 : Z;
  arg3 : Z;
  arg4 : Z;
  arg5 : Z;
  serial : Z;
}.
#[export] Instance eta_msg_t : Eta msg_t :=
  fun s => mk_msg (evt s) (arg0 s) (arg1 s) (arg2 s) (arg3 s) (arg4 s) (arg5 s) (serial s).
Definition set_evt (v : Z) (s : msg_t) : msg_t := s <| evt := v |>.
Definition zero_msg : msg_t := mk_msg 0 0 0 0 0 0 0 0.

Definition SIZEOF_MSG : Z := 64.
Definition MQ_BUF : Z := 16384.
Definition MQ_MAX : Z := (MQ_BUF - PAGESIZE) / SIZEOF_MSG.
Definition USHRT_MAX : Z := 65535.

Record mq_t : Type := mk_mq {
  mq_start : Z;
  mq_end : Z;
  mq_serial : Z;
  mq_total : Z;
  mq_bufstart : Z;
  mq_bufend : Z;
  slots : list msg_t; (* MQ_MAX entries *)
  pt : list Z; (* the entries of the task's first page table *)
}.
#[export] Instance eta_mq_t : Eta mq_t :=
  fun s => mk_mq (mq_start s) (mq_end s) (mq_serial s) (mq_total s) (mq_bufstart s) (mq_bufend s) (slots s) (pt s).
Definition set_mq_start (v : Z) (s : mq_t) : mq_t := s <| mq_start := v |>.
Definition set_mq_end (v : Z) (s : mq_t) : mq_t := s <| mq_end := v |>.
Definition set_mq_serial (v : Z) (s : mq_t) : mq_t := s <| mq_serial := v |>.
Definition set_mq_total (v : Z) (s : mq_t) : mq_t := s <| mq_total := v |>.
Definition set_mq_bufstart (v : Z) (s : mq_t) : mq_t := s <| mq_bufstart := v |>.
Definition set_mq_bufend (v : Z) (s : mq_t) : mq_t := s <| mq_bufend := v |>.
Definition set_slots (v : list msg_t) (s : mq_t) : mq_t := s <| slots := v |>.
Definition set_pt (v : list Z) (s : mq_t) : mq_t := s <| pt := v |>.

Definition MSG_ISRESP (e : Z) : bool := has e MSG_RESPONSED.
Definition MSG_ISPTR (e : Z) : bool := has e MSG_PTRDATA.
Definition vmm_ispresent (p : Z) : bool := Z.odd p.

(** The entry of the page table that maps the byte [j] of the queue. *)
Definition page_of (j : Z) : Z := Z.land (Z.shiftr j PAGEBITS + 1) 511.
Definition page_up (a : Z) : Z := Z.shiftl (Z.shiftr (u64 (a + PAGESIZE - 1)) PAGEBITS) PAGEBITS.

(** The message in slot [i], through the address space of the task: a page fault when its
    page is not there. *)
Definition slot (i : Z) : M mq_t msg_t :=
  q <-- get ;;
  e <-- need (zget (pt q) (page_of (i * SIZEOF_MSG))) ;;
  if vmm_ispresent e then need (zget (slots q) i) else ub.

(** The slot behind and before [i]. *)
Definition after (i : Z) : Z := if MQ_MAX <=? i + 1 then 1 else i + 1.
Definition before (i : Z) : Z := if i - 1 =? 0 then MQ_MAX - 1 else i - 1.

(** The oldest message that is not answered yet, from anybody. *)
Definition recv_any : M mq_t (option msg_t) :=
  m <-- iter (Z.to_nat MQ_MAX) (fun _ : unit =>
    q <-- get ;;
    m <-- slot (mq_start q) ;;
    modify (fun q => set_mq_start (after (mq_start q)) q) ;;;
    q <-- get ;;
    ret (if MSG_ISRESP (evt m) && negb (mq_start q =? mq_end q) then inl tt else inr m)) tt ;;
  if MSG_ISRESP (evt m) then ret None else
  modify (fun q => set_mq_total (u64 (mq_total q + 1)) q) ;;;
  when (MSG_ISPTR (evt m)) (modify (set_mq_bufstart (page_up (u64 (arg0 m + arg1 m))))) ;;;
  ret (Some m).

(** The youngest answer with the serial number; it leaves the queue when it is the last
    one, or is marked. *)
Definition recv_serial (n : Z) : M mq_t (option msg_t) :=
  q <-- get ;;
  let j := before (mq_end q) in
  do2 i m <-- iter (Z.to_nat MQ_MAX) (fun i : Z =>
    let i := before i in
    m <-- slot i ;;
    ret (if (MSG_ISRESP (evt m) || negb (serial m =? n)) && negb (i =? mq_start q) then inl i else inr (i, m)))
    (mq_end q) ;;
  if MSG_ISRESP (evt m) || negb (serial m =? n) then ret None else
  modify (fun q => set_mq_total (u64 (mq_total q + 1)) q) ;;;
  if i =? j then
    modify (set_mq_end j) ;;;
    when (MSG_ISPTR (evt m)) (modify (set_mq_bufend (Z.ldiff (arg0 m) (PAGESIZE - 1)))) ;;;
    ret (Some m)
  else
    let m := set_evt (Z.lor (evt m) MSG_RESPONSED) m in
    modify (fun q => set_slots (zset (slots q) i m) q) ;;;
    ret (Some m).

Definition recv (n : Z) : M mq_t (option msg_t) :=
  q <-- get ;;
  if mq_start q =? mq_end q then ret None else
  if n =? 0 then recv_any else recv_serial n.

(** The indices must not point at the header. *)
Definition fix_indices : M mq_t unit :=
  modify (fun q => let q := if mq_start q =? 0 then set_mq_start 1 q else q in
                   if mq_end q =? 0 then set_mq_end 1 q else q).

(** The place of the next message, in bytes, and the end moved behind it. *)
Definition take_place : M mq_t Z :=
  q <-- get ;; modify (set_mq_end (after (mq_end q))) ;;; ret (SIZEOF_MSG * mq_end q).

Definition next_serial (n : Z) : Z := if USHRT_MAX <=? n then 1 else n + 1.

(** The message at byte [j], through the core's own mapping. *)
Definition put_msg (j : Z) (m : msg_t) : M mq_t unit :=
  q <-- get ;;
  need (zget (slots q) (j / SIZEOF_MSG)) ;;;
  put (set_slots (zset (slots q) (j / SIZEOF_MSG) m) q).

(** A message goes to its place under the next serial number, which is answered. *)
Definition store_msg (j : Z) (m : Z -> msg_t) : M mq_t Z :=
  modify (fun q => set_mq_serial (next_serial (mq_serial q)) q) ;;;
  n <-- gets mq_serial ;; put_msg j (m n) ;;; ret n.

(** The slots of a new page are zero. *)
Definition clear_page (p : Z) (l : list msg_t) : list msg_t :=
  imap (fun n m => if page_of (Z.of_nat n * SIZEOF_MSG) =? p then zero_msg else m) l.

End Mq.

Module Msg.
Import Mq.

(** ** The state of the core *)

Record core_t : Type := mk_core {
  sched : Sched.sched_state;
  pmm : Pmm.pmm_state;
  mqs : gmap Z mq_t; (* by pid *)
  vpages : gmap (Z * Z) Z; (* page table entries of the tasks: pid, page number *)
  services : list Z;
  cur : Z; (* the task whose address space is active *)
  core_errno : Z;
  in_trace : bool;
  clock_ts : Z;
  clock_ns : Z;
}.
#[export] Instance eta_core_t : Eta core_t :=
  fun s => mk_core (sched s) (pmm s) (mqs s) (vpages s) (services s) (cur s) (core_errno s) (in_trace s)
                   (clock_ts s) (clock_ns s).
Definition set_sched (v : Sched.sched_state) (s : core_t) : core_t := s <| sched := v |>.
Definition set_pmm (v : Pmm.pmm_state) (s : core_t) : core_t := s <| pmm := v |>.
Definition set_mqs (v : gmap Z mq_t) (s : core_t) : core_t := s <| mqs := v |>.
Definition set_vpages (v : gmap (Z * Z) Z) (s : core_t) : core_t := s <| vpages := v |>.
Definition set_services (v : list Z) (s : core_t) : core_t := s <| services := v |>.
Definition set_cur (v : Z) (s : core_t) : core_t := s <| cur := v |>.
Definition set_core_errno (v : Z) (s : core_t) : core_t := s <| core_errno := v |>.
Definition set_in_trace (v : bool) (s : core_t) : core_t := s <| in_trace := v |>.
Definition set_clock_ts (v : Z) (s : core_t) : core_t := s <| clock_ts := v |>.
Definition set_clock_ns (v : Z) (s : core_t) : core_t := s <| clock_ns := v |>.

Definition seterr (e : Z) : M core_t unit := modify (set_core_errno e).

(** A part of the state run by its own component; the error code is that of the core. *)
Definition on {S A} (get_ : core_t -> S) (put_ : S -> core_t -> core_t) (m : M S A) : M core_t A :=
  fun s => match m (get_ s) with
           | Ret a x => Ret a (put_ x s)
           | Exit c x => Exit c (put_ x s)
           | UB => UB
           | Loop => Loop
           end.
Definition on_sched {A} : M Sched.sched_state A -> M core_t A :=
  on (fun s => Sched.set_serrno (core_errno s) (sched s))
     (fun x s => set_sched (Sched.set_serrno (Sched.serrno (sched s)) x) (set_core_errno (Sched.serrno x) s)).
Definition on_pmm {A} : M Pmm.pmm_state A -> M core_t A :=
  on (fun s => Pmm.set_errno (core_errno s) (pmm s))
     (fun x s => set_pmm (Pmm.set_errno (Pmm.errno (pmm s)) x) (set_core_errno (Pmm.errno x) s)).
Definition on_mq {A} (p : Z) (m : M mq_t A) : M core_t A :=
  s <-- get ;;
  match mqs s !! p with
  | Some q => on (fun _ => q) (fun x s => set_mqs (<[p := x]> (mqs s)) s) m
  | None => ub
  end.

(** The task control block of a task, through a page of its own. *)
Definition tcb_of (p : Z) : M core_t tcb_t := on_sched (Sched.tload (Sched.Task p)).
Definition tcb_mod (p : Z) (f : tcb_t -> tcb_t) : M core_t unit := on_sched (Sched.tmod (Sched.Task p) f).
(** The same when the page may hold something else. *)
Definition tcb_at (p : Z) : M core_t (option tcb_t) :=
  s <-- get ;;
  ret (match Sched.tasks (sched s) !! p with
       | Some t => if magic t =? OSZ_TCB_MAGICH then Some t else None
       | None => None
       end).

Definition service (srv : Z) : M core_t Z := s <-- get ;; need (zget (services s) (- srv)).

(** ** Receiving *)

(** A sender that waits for this task is woken. *)
Definition wake_sender : M core_t unit :=
  me <-- gets cur ;;
  tcb <-- tcb_of me ;;
  if blksend tcb =? 0 then ret tt else
  snd_ <-- tcb_at (blksend tcb) ;;
  match snd_ with
  | Some t =>
      if pid tcb =? pid t then tcb_mod me (set_blksend 0) else
      tcb_mod me (set_blksend (blksend t)) ;;;
      tcb_mod (blksend tcb) (set_blksend 0) ;;;
      on_sched (Sched.sched_awake (Sched.Task (blksend tcb)))
  | None => tcb_mod me (set_blksend 0)
  end.

(** The texts of a traced call. *)
Definition trace_send (ticks dst e event : Z) (args : list Z) : option (list Z) :=
  (* "[%d] %3x.%2x(" *)
  a ← CoreLib.sprintf [91; 37; 100; 93; 32; 37; 51; 120; 46; 37; 50; 120; 40]
        [CoreLib.VInt ticks; CoreLib.VInt dst; CoreLib.VInt e];
  (* "*%x[%d]" and "%x,%x" *)
  b ← CoreLib.sprintf (if MSG_ISPTR event then [42; 37; 120; 91; 37; 100; 93] else [37; 120; 44; 37; 120])
        (map CoreLib.VInt (take 2 args));
  (* ",%x,%x,%x,%x)\n" *)
  c ← CoreLib.sprintf [44; 37; 120; 44; 37; 120; 44; 37; 120; 44; 37; 120; 41; 10]
        (map CoreLib.VInt (drop 2 args));
  Some (a ++ b ++ c).
Definition trace_recv (ticks n : Z) : option (list Z) :=
  (* "[%d] 000000.0000(%x)\n" *)
  CoreLib.sprintf [91; 37; 100; 93; 32; 48; 48; 48; 48; 48; 48; 46; 48; 48; 48; 48; 40; 37; 120; 41; 10]
    [CoreLib.VInt ticks; CoreLib.VInt n].

(** ** Sending *)

Section Send.
Context {E : Pmm.Entropy}.
(** The start of the services by the scheduler; see [Sched.sched_pick]. *)
Context (drivers_ready : M Sched.sched_state unit).

(** The scheduler's choice runs next, in its own address space when it is another task
    than the last choice. *)
Definition pick : M core_t unit :=
  let ccb := on_sched (c <-- gets Sched.cpu ;; Sched.ccb_get c) in
  old <-- ccb ;;
  on_sched (Sched.sched_pick drivers_ready) ;;;
  new <-- ccb ;;
  when (negb (Sched.current new =? Sched.current old)) (modify (set_cur (Sched.current new))).

(** [srand[dst&3] ^= clock_ts;] *)
Definition stir (dst : Z) : M core_t unit :=
  modify (fun s => set_pmm (Pmm.set_srand (CoreLib.upd dst (Z.lxor (clock_ts s)) (Pmm.srand (pmm s))) (pmm s)) s).

(** The pages of a message's place are there, are reset to the first one, or one is
    added; it answers the place. *)
Definition ensure_page (dst j : Z) : M core_t Z :=
  s <-- get ;;
  q <-- need (mqs s !! dst) ;;
  e <-- need (zget (pt q) (page_of j)) ;;
  if vmm_ispresent e then ret j else
  if mq_start q + 1 =? mq_end q then
    on_mq dst (modify (set_mq_end 1)) ;;; ret SIZEOF_MSG
  else
    t <-- tcb_of dst ;;
    do2 p t <-- on_pmm (Pmm.pmm_alloc t 1) ;;
    tcb_mod dst (fun _ => t) ;;;
    (* user, read only, not executable *)
    on_mq dst (modify (fun q => set_slots (clear_page (page_of j) (slots q))
                                  (set_pt (zset (pt q) (page_of j) (Z.lor p (Z.lor 5 (Z.shiftl 1 63)))) q))) ;;;
    ret j.

(** One page of the buffer after the other, from the sender's page [v] to the entry [i]. *)
Fixpoint map_pages (n : nat) (src dst v i : Z) : M core_t unit :=
  match n with
  | O => ret tt
  | S n' =>
      s <-- get ;;
      q <-- need (mqs s !! dst) ;;
      old <-- need (zget (pt q) i) ;;
      when (negb (old =? 0)) (tcb_mod dst (fun t => set_linkmem (u64 (linkmem t - 1)) t)) ;;;
      e <-- need (vpages s !! (src, v)) ;;
      (* user, read only, uncached and shared *)
      on_mq dst (modify (fun q => set_pt (zset (pt q) i (Z.lor (Z.land e 0xFFFFFFFFFFF000) (Z.lor 0x1d (Z.shiftl 1 11)))) q)) ;;;
      map_pages n' src dst (v + 1) (i + 1)
  end.

(** The buffer of [b] bytes at [a] is mapped behind the queue; its new address, or
    nothing with an error set. *)
Definition map_buffer (src dst a b : Z) : M core_t (option Z) :=
  if (a <? TEXT_ADDRESS) || ((BUF_ADDRESS <=? a) && (a <? SDYN_ADDRESS)) || (u64 LDYN_ADDRESS <=? a)
  then seterr EFAULT ;;; ret None else
  if BUF_ADDRESS <=? a then ret (Some a) else
  on_mq dst (modify (fun q => let q := if mq_bufstart q <? MQ_BUF then set_mq_bufstart MQ_BUF q else q in
                              if mq_bufend q <? MQ_BUF then set_mq_bufend MQ_BUF q else q)) ;;;
  q <-- on_mq dst get ;;
  if (BUFFSIZE <? b) || ((SLOTSIZE <? u64 (mq_bufend q + b)) && (mq_bufstart q <? u64 (MQ_BUF + b)))
  then seterr ENOTSHM ;;; ret None else
  let i := Z.shiftr (if u64 (mq_bufend q + b) <? SLOTSIZE then mq_bufend q else MQ_BUF) PAGEBITS in
  let i := if i <? 2 then 2 else i in
  let j := Z.land (Z.shiftr a PAGEBITS) 511 in
  let k := Z.land (Z.shiftr (a + b + PAGESIZE - 1) PAGEBITS) 511 in
  let a' := Z.shiftl i PAGEBITS + Z.land a (PAGESIZE - 1) in
  on_mq dst (modify (set_mq_bufend (page_up (a' + b)))) ;;;
  tcb_mod dst (fun t => set_linkmem (u64 (linkmem t + (k - j))) t) ;;;
  map_pages (Z.to_nat (k - j)) src dst (Z.shiftr a PAGEBITS) i ;;;
  ret (Some a').

(** The destination of an event: a task or a service; [inl] when there is none. *)
Definition destination (task : Z) : M core_t (option Z) :=
  if task <? 0 then
    if - task <? NUMSRV then
      d <-- service task ;;
      if d =? 0 then seterr ESRCH ;;; ret None else ret (Some d)
    else seterr ESRCH ;;; ret None
  else ret (Some task).

(** From the place in the queue of [dst] on. *)
Definition deliver (src dst a b c d e f event n : Z) : M core_t Z :=
  on_mq dst fix_indices ;;;
  j <-- on_mq dst take_place ;;
  q <-- on_mq dst get ;;
  if mq_end q =? mq_start q then
    tr <-- gets in_trace ;;
    if negb tr && negb (src =? dst) then
      t <-- tcb_of dst ;;
      tcb_mod src (set_blksend (blksend t)) ;;;
      tcb_mod dst (set_blksend src) ;;;
      on_sched (Sched.sched_block (Sched.Task src)) ;;;
      pick ;;; ret 0
    else seterr EBUSY ;;; ret 0
  else
    j <-- ensure_page dst j ;;
    a <-- (if MSG_ISPTR event then map_buffer src dst a b else ret (Some a)) ;;
    match a with
    | None => ret 0
    | Some a =>
        let key i := Z.lor (EVT_DEST src) i in
        i <-- on_mq dst (store_msg j (fun i =>
                mk_msg (Z.lor (EVT_DEST src) (Z.land event 0x7FFF)) a b c d e f (if n =? 0 then key i else n))) ;;
        on_sched (Sched.sched_awake (Sched.Task dst)) ;;; ret (key i)
    end.

(** [int64_t] of the event without its function, divided by 65536. *)
Definition task_of (event : Z) : Z := Z.shiftr (s64 event) 16.

(** The event of a trace: a write to the file 3 of the FS task. *)
Definition TRACE_EVENT : Z := Z.lor (EVT_DEST SRV_FS) (Z.lor 19 MSG_PTRDATA).

(** [trace] sends the text of a traced call. *)
Definition send_with (trace : list Z -> Z -> M core_t unit) (a b c d e f event n : Z) : M core_t Z :=
  me <-- gets cur ;;
  srctcb <-- tcb_of me ;;
  let task := task_of event in
  let ev := EVT_FUNC event in
  if task =? 0 then ret 0 else
  sv <-- gets services ;;
  ok <-- on core_errno set_core_errno (Security.msg_allowed sv srctcb (u64 task) ev) ;;
  if negb ok then ret 0 else
  dst <-- destination task ;;
  match dst with
  | None => ret 0
  | Some dst =>
      stir dst ;;;
      t <-- tcb_at dst ;;
      match t with
      | None => seterr ESRCH ;;; ret 0
      | Some t =>
          fs <-- service SRV_FS ;;
          if (priority t =? PRI_DRV) && (negb (pid srctcb =? fs) || (ev =? 0)) then seterr EPERM ;;; ret 0 else
          tr <-- gets in_trace ;;
          when (negb tr && negb (tracebuf srctcb =? 0) && negb (pid srctcb =? fs))
           (s <-- get ;;
            text <-- need (trace_send (Sched.clock_ticks (sched s)) dst ev event [a; b; c; d; e; f]) ;;
            trace text (tracebuf srctcb)) ;;;
          seterr SUCCESS ;;;
          deliver (pid srctcb) dst a b c d e f event n
      end
  end.

(** A message of the trace itself is not traced. *)
Definition msg_trace (text : list Z) (buf : Z) : M core_t unit :=
  modify (set_in_trace true) ;;;
  send_with (fun _ _ => ret tt) buf (zlen text + 1) 3 0 0 0 TRACE_EVENT 0 ;;;
  modify (set_in_trace false).

Definition msg_send (a b c d e f event n : Z) : M core_t Z := send_with msg_trace a b c d e f event n.

(** A received message, null for none; the idle task has no queue. *)
Definition msg_recv (n : Z) : M core_t (option msg_t) :=
  me <-- gets cur ;;
  tcb <-- tcb_of me ;;
  idle <-- on_sched (gets Sched.idle_tcb) ;;
  if pid tcb =? pid idle then ret None else
  fs <-- service SRV_FS ;;
  when (negb (tracebuf tcb =? 0) && negb (pid tcb =? fs))
   (s <-- get ;;
    text <-- need (trace_recv (Sched.clock_ticks (sched s)) n) ;;
    msg_send (tracebuf tcb) (zlen text + 1) 3 0 0 0 TRACE_EVENT 0 ;;; ret tt) ;;;
  m <-- on_mq me (recv n) ;;
  (match m with
   | Some m => when (EVT_FUNC (evt m) =? Security.EVT_ack) (seterr (arg2 m))
   | None => ret tt
   end) ;;;
  wake_sender ;;;
  ret m.

(** A notice in the name of the core, which is always delivered. *)
Definition msg_notify (dst event a : Z) : M core_t unit :=
  if dst =? 0 then ret tt else
  t <-- tcb_at dst ;;
  match t with
  | None => ret tt
  | Some t =>
      on_sched (Sched.sched_awake (Sched.Task dst)) ;;;
      on_mq dst (fix_indices ;;; modify (fun q => set_mq_serial (next_serial (mq_serial q)) q)) ;;;
      j <-- on_mq dst take_place ;;
      j <-- ensure_page dst j ;;
      s <-- get ;;
      on_mq dst
       (q <-- get ;;
        old <-- need (zget (slots q) (j / SIZEOF_MSG)) ;;
        put_msg j (mk_msg (EVT_FUNC event) a (Sched.clock_ticks (sched s)) (arg2 old) (arg3 old) (arg4 old) (arg5 old)
                          (mq_serial q)))
  end.

End Send.
End Msg.
