(* ===== verification/MsgFacts.v ===== *)
(** The queue of a task as a first-in first-out list: what receiving and sending do to
    the messages in it, and where they fall out of it. *)
From Stdlib Require Import ZArith Lia List.
From stdpp Require Import base option list gmap.
From S2P Require Import Prelude CoreState Pmm Sched SchedFacts Security CoreLib Msg.
Import Mq.

Module MsgFacts.

(** ** The ring

    Positions 1 to 191; [pos i k] is [k] places behind [i]. *)

Definition RING : Z := 191.
Definition pos (i k : Z) : Z := (i - 1 + k) mod RING + 1.
Definition in_ring (i : Z) : Prop := 1 <= i < 192.
Definition count (q : mq_t) : Z := (mq_end q - mq_start q) mod RING.

(** The entries from the start to the end, and those not answered yet. *)
Definition entries (q : mq_t) : list msg_t :=
  map (fun k => default zero_msg (zget (slots q) (pos (mq_start q) (Z.of_nat k)))) (seq 0 (Z.to_nat (count q))).
Definition live (q : mq_t) : list msg_t := List.filter (fun m => negb (MSG_ISRESP (evt m))) (entries q).

(** A queue whose three pages are there. *)
Record mq_ok (q : mq_t) : Prop := {
  ok_start : in_ring (mq_start q);
  ok_end : in_ring (mq_end q);
  ok_slots : zlen (slots q) = 192;
  ok_pages : forall p, 1 <= p <= 3 -> exists e, zget (pt q) p = Some e /\ vmm_ispresent e = true;
}.

Lemma pos_in i k : in_ring (pos i k).
Proof. unfold pos, in_ring, RING. pose proof (Z.mod_pos_bound (i - 1 + k) 191). lia. Qed.
Lemma pos_0 i : in_ring i -> pos i 0 = i.
Proof. unfold pos, in_ring, RING. intros ?. rewrite Z.mod_small; lia. Qed.
Lemma pos_pos i a b : pos (pos i a) b = pos i (a + b).
Proof.
  unfold pos, RING. f_equal. replace ((i - 1 + a) mod 191 + 1 - 1 + b) with ((i - 1 + a) mod 191 + b) by lia.
  rewrite Zplus_mod_idemp_l. f_equal. lia.
Qed.
Lemma pos_ring i : in_ring i -> pos i (RING - 1 + 1) = i.
Proof.
  intros Hi. rewrite <- (pos_0 i) at 2 by done. unfold pos, RING. f_equal.
  replace (i - 1 + (191 - 1 + 1)) with (i - 1 + 0 + 1 * 191) by lia. apply Z.mod_add. lia.
Qed.
Lemma pos_inj i a b : 0 <= a < RING -> 0 <= b < RING -> pos i a = pos i b -> a = b.
Proof.
  unfold pos, RING. intros Ha Hb H.
  assert (H' : (i - 1 + a) mod 191 = (i - 1 + b) mod 191) by lia. clear H.
  pose proof (Z.div_mod (i - 1 + a) 191 ltac:(lia)). pose proof (Z.div_mod (i - 1 + b) 191 ltac:(lia)). lia.
Qed.
Lemma after_pos i : in_ring i -> after i = pos i 1.
Proof.
  unfold after, in_ring. intros H. change MQ_MAX with 192. unfold pos, RING. destruct (Z.leb_spec 192 (i + 1)).
  - replace i with 191 by lia. done.
  - rewrite Z.mod_small by lia. lia.
Qed.

Lemma count_bounds q : 0 <= count q < RING.
Proof. unfold count, RING. apply Z.mod_pos_bound. lia. Qed.
Lemma end_pos q : mq_ok q -> mq_end q = pos (mq_start q) (count q).
Proof.
  intros [[] [] _ _]. unfold pos, count, RING.
  rewrite Zplus_mod_idemp_r. replace (_ - 1 + _) with (mq_end q - 1) by lia. rewrite Z.mod_small; lia.
Qed.
Lemma count_of q k : mq_ok q -> 0 <= k < RING -> mq_end q = pos (mq_start q) k -> count q = k.
Proof.
  intros Hq Hk H. apply (pos_inj (mq_start q)); [apply count_bounds|done|]. by rewrite <- end_pos.
Qed.
Lemma count_0 q : mq_ok q -> count q = 0 <-> mq_start q = mq_end q.
Proof.
  intros Hq. split.
  - intros H. rewrite (end_pos q Hq), H. symmetry. apply pos_0, Hq.
  - intros H. unfold count. rewrite H. by rewrite Z.sub_diag.
Qed.

Lemma page_of_slot i : in_ring i -> 1 <= page_of (i * SIZEOF_MSG) <= 3.
Proof.
  intros [H1 H2]. unfold page_of, SIZEOF_MSG, PAGEBITS. rewrite Z.shiftr_div_pow2 by lia.
  change 511 with (Z.ones 9). rewrite Z.land_ones by lia. change (2 ^ 12) with 4096. change (2 ^ 9) with 512.
  assert (0 <= i * 64 / 4096 <= 2) by (split; [apply Z.div_pos; lia|apply Z.lt_succ_r, Z.div_lt_upper_bound; lia]).
  rewrite Z.mod_small by lia. lia.
Qed.

Lemma slot_ok q i : mq_ok q -> in_ring i -> slot i q = Ret (default zero_msg (zget (slots q) i)) q.
Proof.
  intros Hq Hi. destruct (ok_pages q Hq _ (page_of_slot i Hi)) as (e & He & Hp).
  unfold slot, bind, get. rewrite He. simpl. rewrite Hp.
  destruct (zget_is_Some (slots q) i) as [m Hm]; [rewrite (ok_slots q Hq); unfold in_ring in Hi; lia|].
  by rewrite Hm.
Qed.

(** ** Entries one by one *)

Definition ring_from (l : list msg_t) (i : Z) (n : nat) : list msg_t :=
  map (fun k => default zero_msg (zget l (pos i (Z.of_nat k)))) (seq 0 n).

Lemma entries_ring q : entries q = ring_from (slots q) (mq_start q) (Z.to_nat (count q)).
Proof. done. Qed.

Lemma ring_from_S l i n :
  in_ring i -> ring_from l i (S n) = default zero_msg (zget l i) :: ring_from l (pos i 1) n.
Proof.
  intros Hi. unfold ring_from. simpl. rewrite pos_0 by done. f_equal.
  rewrite <- seq_shift, map_map. apply map_ext. intros k. do 2 f_equal. rewrite pos_pos. f_equal. lia.
Qed.

Lemma ring_from_snoc l i n : ring_from l i (S n) = ring_from l i n ++ [default zero_msg (zget l (pos i (Z.of_nat n)))].
Proof. unfold ring_from. by rewrite seq_S, map_app. Qed.

Lemma ring_from_set l i n j m :
  (forall k, 0 <= k < Z.of_nat n -> pos i k <> j) -> ring_from (zset l j m) i n = ring_from l i n.
Proof.
  intros H. unfold ring_from. apply map_ext_in. intros k Hk%in_seq. rewrite zget_zset_ne; [done|].
  intros E. apply (H (Z.of_nat k)); [lia|done].
Qed.

Definition advanced (q : mq_t) : mq_t := set_mq_start (after (mq_start q)) q.

Lemma advanced_ok q : mq_ok q -> mq_ok (advanced q).
Proof.
  intros [Hs He Hl Hp]. split; try done. simpl. rewrite after_pos by done. apply pos_in.
Qed.

Lemma advanced_count q : mq_ok q -> 0 < count q -> count (advanced q) = count q - 1.
Proof.
  intros Hq Hc. pose proof (count_bounds q). apply count_of; [by apply advanced_ok|lia|].
  simpl. rewrite after_pos by apply Hq. rewrite pos_pos, (end_pos q Hq). f_equal. lia.
Qed.

Lemma advanced_entries q :
  mq_ok q -> 0 < count q ->
  entries q = default zero_msg (zget (slots q) (mq_start q)) :: entries (advanced q).
Proof.
  intros Hq Hc. rewrite !entries_ring, advanced_count by done.
  replace (Z.to_nat (count q)) with (S (Z.to_nat (count q - 1))) by lia.
  rewrite ring_from_S by apply Hq. f_equal. simpl. by rewrite after_pos by apply Hq.
Qed.

(** The fields the indices do not touch. *)
Definition same_rest (q q' : mq_t) : Prop :=
  slots q' = slots q /\ pt q' = pt q /\ mq_serial q' = mq_serial q /\ mq_end q' = mq_end q.

Definition any_loop : M mq_t msg_t :=
  iter (Z.to_nat MQ_MAX) (fun _ : unit =>
    q <-- get ;;
    m <-- slot (mq_start q) ;;
    modify (fun q => set_mq_start (after (mq_start q)) q) ;;;
    q <-- get ;;
    ret (if MSG_ISRESP (evt m) && negb (mq_start q =? mq_end q) then inl tt else inr m)) tt.

Lemma any_loop_ok q :
  mq_ok q -> 0 < count q ->
  wp any_loop (fun m q' =>
    mq_ok q' /\ same_rest q q' /\
    if MSG_ISRESP (evt m) then live q = [] /\ entries q' = [] else live q = m :: live q') q.
Proof.
  intros Hq Hc. unfold any_loop.
  apply (wp_iter (fun _ q0 => mq_ok q0 /\ 0 < count q0 /\ same_rest q q0 /\ live q0 = live q)
           (fun _ q0 => Z.to_nat (count q0))).
  - clear Hq Hc. intros [] q0 (Hq & Hc & Hr & Hl). apply wp_bind, wp_get, wp_bind. unfold wp.
    rewrite slot_ok by (done || apply Hq). apply wp_bind, wp_modify.
    fold (advanced q0). apply wp_bind, wp_get, wp_ret.
    pose proof (advanced_ok _ Hq) as Hq1. pose proof (advanced_count _ Hq Hc) as Hc1.
    assert (Hlive : live q0 = List.filter (fun m => negb (MSG_ISRESP (evt m)))
                                [default zero_msg (zget (slots q0) (mq_start q0))] ++ live (advanced q0)).
    { unfold live. rewrite (advanced_entries q0) at 1 by done. apply (List.filter_app _ [_] _). }
    revert Hlive. generalize (default zero_msg (zget (slots q0) (mq_start q0))). intros m Hlive.
    simpl in Hlive. destruct (MSG_ISRESP (evt m)) eqn:Em; simpl.
    + destruct (Z.eqb_spec (after (mq_start q0)) (mq_end q0)) as [E|E]; cbn [negb].
      * split; [done|]. split; [done|]. rewrite Em. rewrite <- Hl, Hlive. simpl.
        apply (proj2 (count_0 _ Hq1)) in E. unfold live. rewrite entries_ring, E. done.
      * assert (count (advanced q0) <> 0) by (intros E'; by apply E, (count_0 _ Hq1)).
        split; [|lia]. split; [done|]. split; [lia|]. split; [done|]. by rewrite <- Hl, Hlive.
    + split; [done|]. split; [done|]. rewrite Em. by rewrite <- Hl, Hlive.
  - by split_and!.
  - change (Z.to_nat MQ_MAX) with 192%nat. pose proof (count_bounds q). unfold RING in *. lia.
Qed.

(** Receiving from anybody: the oldest live message. *)
Lemma recv_0_ok q :
  mq_ok q ->
  exists q', recv 0 q = Ret (head (live q)) q' /\ mq_ok q' /\ live q' = tail (live q) /\
             slots q' = slots q /\ pt q' = pt q /\ (count q = 0 -> q' = q) /\ mq_serial q' = mq_serial q /\
             mq_end q' = mq_end q.
Proof.
  intros Hq. unfold recv, bind at 1, get at 1. destruct (Z.eqb_spec (mq_start q) (mq_end q)) as [E|E].
  { exists q. apply (count_0 _ Hq) in E. assert (live q = []) as -> by (unfold live; by rewrite entries_ring, E). done. }
  assert (Hc : 0 < count q) by (pose proof (count_bounds q); assert (count q <> 0) by (intros E'; by apply E, (count_0 _ Hq)); lia).
  simpl. pose proof (any_loop_ok q Hq Hc) as H. apply wp_run in H as (m & q1 & H & Hq1 & (Hs & Hp & Hse & He) & Hl).
  unfold recv_any. rewrite (run_bind _ _ _ _ _ H).
  assert (Hzero : count q = 0 -> False) by lia.
  destruct (MSG_ISRESP (evt m)).
  - destruct Hl as [Hl Hl']. exists q1. rewrite Hl. split_and!; try done.
    unfold live. by rewrite Hl'.
  - rewrite Hl. unfold bind, modify, when.
    destruct (MSG_ISPTR (evt m)); simpl; (eexists; split; [done|]); destruct Hq1; split_and!; try done;
      by constructor.
Qed.

(** The oldest message on a page that is not there. *)
Lemma recv_missing q e :
  mq_start q <> mq_end q -> zget (pt q) (page_of (mq_start q * SIZEOF_MSG)) = Some e -> vmm_ispresent e = false ->
  recv 0 q = UB.
Proof.
  intros Hne He Hp. unfold recv, bind at 1, get at 1. destruct (Z.eqb_spec (mq_start q) (mq_end q)); [done|].
  cbn [Z.eqb]. unfold recv_any. change (Z.to_nat MQ_MAX) with (S 191).
  assert (Hs : slot (mq_start q) q = UB) by (unfold slot, bind, get, need; rewrite He; simpl; by rewrite Hp).
  unfold iter; fold (@iter mq_t unit msg_t). unfold bind at 1 2 3, get at 1. unfold bind at 1. by rewrite Hs.
Qed.

(** ** Receiving an answer by its number *)

Lemma before_pos i k : in_ring i -> before (pos i k) = pos i (k - 1).
Proof.
  intros _. unfold before, pos, RING. change MQ_MAX with 192.
  replace (i - 1 + (k - 1)) with (i - 1 + k + -1) by lia. set (x := i - 1 + k).
  pose proof (Z.mod_pos_bound x 191 ltac:(lia)). rewrite <- (Zplus_mod_idemp_l x (-1)).
  destruct (Z.eqb_spec (x mod 191 + 1 - 1) 0) as [E|E].
  - replace (x mod 191) with 0 by lia. done.
  - rewrite (Z.mod_small (x mod 191 + -1)) by lia. lia.
Qed.

(** Nothing is received when no entry has the number, and the queue stays. *)
Lemma recv_serial_none q n :
  mq_ok q -> n <> 0 -> Forall (fun m => serial m <> n) (entries q) -> recv n q = Ret None q.
Proof.
  intros Hq Hn Hno. unfold recv, bind at 1, get at 1. destruct (Z.eqb_spec (mq_start q) (mq_end q)) as [E|E]; [done|].
  destruct (Z.eqb_spec n 0); [done|].
  assert (Hc : 0 < count q) by (pose proof (count_bounds q); assert (count q <> 0) by (intros E'; by apply E, (count_0 _ Hq)); lia).
  pose proof (count_bounds q) as Hb. unfold RING in Hb.
  assert (Hw : wp (iter (Z.to_nat MQ_MAX) (fun i : Z =>
      let i := before i in
      m <-- slot i ;;
      ret (if (MSG_ISRESP (evt m) || negb (serial m =? n)) && negb (i =? mq_start q) then inl i else inr (i, m))) (mq_end q))
      (fun im s => s = q /\ serial (snd im) <> n) q).
  { apply (wp_iter (fun i s => s = q /\ exists k, 1 <= k <= count q /\ i = pos (mq_start q) k)
             (fun i _ => Z.to_nat ((i - mq_start q) mod RING))).
    - intros i s (-> & k & Hk & ->). cbn zeta. rewrite before_pos by apply Hq. apply wp_bind. unfold wp. rewrite slot_ok by (done || apply pos_in).
      set (m := default zero_msg _). assert (Hm : serial m <> n).
      { rewrite Forall_forall in Hno. apply Hno. apply list_elem_of_In, in_map_iff. exists (Z.to_nat (k - 1)).
        rewrite Z2Nat.id by lia. split; [done|]. apply in_seq. lia. }
      rewrite (proj2 (Z.eqb_neq _ _) Hm), orb_true_r. cbn [negb andb].
      destruct (Z.eqb_spec (pos (mq_start q) (k - 1)) (mq_start q)) as [Es|Es]; cbn [negb].
      + apply wp_ret. by split.
      + apply wp_ret. split.
        * split; [done|]. exists (k - 1). split; [|done]. destruct (Z.eq_dec k 1) as [->|]; [|lia].
          exfalso. apply Es. apply pos_0, Hq.
        * assert (Hd : forall j, 0 <= j <= count q -> (pos (mq_start q) j - mq_start q) mod RING = j).
          { intros j Hj. unfold pos, RING. replace ((mq_start q - 1 + j) mod 191 + 1 - mq_start q) with ((mq_start q - 1 + j) mod 191 + (1 - mq_start q)) by lia.
            rewrite Zplus_mod_idemp_l. replace (mq_start q - 1 + j + (1 - mq_start q)) with j by lia. apply Z.mod_small. lia. }
          rewrite !Hd by lia. lia.
    - split; [done|]. exists (count q). split; [lia|]. apply end_pos, Hq.
    - change (Z.to_nat MQ_MAX) with 192%nat. unfold RING. pose proof (Z.mod_pos_bound (mq_end q - mq_start q) 191 ltac:(lia)). lia. }
  unfold recv_serial, bind at 1, get at 1. apply wp_run in Hw as ([i m] & s & Hrun & -> & Hm). simpl in Hm.
  rewrite (run_bind _ _ _ _ _ Hrun). rewrite (proj2 (Z.eqb_neq _ _) Hm), orb_true_r. done.
Qed.

(** ** Sending *)

(** What [Msg.deliver] does to the queue for a message without a buffer: the serial
    number, or nothing when the queue is full. *)
Definition enqueue (m : Z -> msg_t) : M mq_t (option Z) :=
  fix_indices ;;;
  j <-- take_place ;;
  q <-- get ;;
  if mq_end q =? mq_start q then ret None else n <-- store_msg j m ;; ret (Some n).

Definition bumped (q : mq_t) : mq_t := set_mq_end (after (mq_end q)) q.

Lemma fix_indices_ok q : mq_ok q -> fix_indices q = Ret tt q.
Proof.
  intros [Hs He _ _]. unfold fix_indices, modify, in_ring in *.
  destruct (Z.eqb_spec (mq_start q) 0); [lia|]. destruct (Z.eqb_spec (mq_end q) 0); [lia|]. done.
Qed.

Lemma bumped_ok q : mq_ok q -> mq_ok (bumped q).
Proof. intros [Hs He Hl Hp]. split; try done. simpl. rewrite after_pos by done. apply pos_in. Qed.

Lemma bumped_count q : mq_ok q -> count q < RING - 1 -> count (bumped q) = count q + 1.
Proof.
  intros Hq Hc. pose proof (count_bounds q). apply count_of; [by apply bumped_ok|lia|].
  simpl. rewrite after_pos by apply Hq. rewrite (end_pos q Hq) at 1. by rewrite pos_pos.
Qed.
Lemma bumped_full q : mq_ok q -> count q = RING - 1 -> mq_end (bumped q) = mq_start q.
Proof.
  intros Hq Hc. simpl. rewrite after_pos by apply Hq. rewrite (end_pos q Hq), pos_pos, Hc.
  apply pos_ring, Hq.
Qed.

Lemma store_msg_ok q i m :
  mq_ok q -> in_ring i ->
  let n := next_serial (mq_serial q) in
  store_msg (SIZEOF_MSG * i) m q = Ret n (set_slots (zset (slots q) i (m n)) (set_mq_serial n q)).
Proof.
  intros Hq [H1 H2]. unfold store_msg, put_msg, bind, modify, gets, get, put. simpl.
  assert (SIZEOF_MSG * i / SIZEOF_MSG = i) as -> by (unfold SIZEOF_MSG; rewrite Z.mul_comm; apply Z.div_mul; lia).
  destruct (zget_is_Some (slots q) i) as [x Hx]; [rewrite (ok_slots q Hq); lia|]. by rewrite Hx.
Qed.

(** A queue with room gets the message at its end. *)
Lemma enqueue_ok q m :
  mq_ok q -> count q < RING - 1 ->
  let n := next_serial (mq_serial q) in
  exists q', enqueue m q = Ret (Some n) q' /\ mq_ok q' /\ entries q' = entries q ++ [m n] /\ mq_serial q' = n.
Proof.
  intros Hq Hc n. pose proof (count_bounds q) as Hb. unfold enqueue.
  rewrite (run_bind _ _ _ _ _ (fix_indices_ok _ Hq)). unfold take_place, bind at 1 2 3 4, get, modify, ret at 1.
  fold (bumped q). pose proof (bumped_count _ Hq Hc) as Hc'. pose proof (bumped_ok _ Hq) as Hq'.
  destruct (Z.eqb_spec (mq_end (bumped q)) (mq_start (bumped q))) as [E|E].
  { symmetry in E. apply (count_0 _ Hq') in E. lia. }
  rewrite (run_bind _ _ _ _ _ (store_msg_ok _ _ _ Hq' (ok_end q Hq))).
  change (mq_serial (bumped q)) with (mq_serial q). fold n.
  eexists. split; [done|]. split; [|split; [|done]].
  - destruct Hq'. split; try done. simpl. by rewrite zlen_zset.
  - rewrite !entries_ring.
    change (count (set_slots _ _)) with (count (bumped q)). rewrite Hc'.
    replace (Z.to_nat (count q + 1)) with (S (Z.to_nat (count q))) by lia.
    rewrite ring_from_snoc. simpl. rewrite Z2Nat.id by lia. f_equal.
    + apply ring_from_set. rewrite Z2Nat.id by lia. intros k Hk. rewrite (end_pos q Hq).
      intros E'. apply pos_inj in E'; unfold RING in *; lia.
    + rewrite (end_pos q Hq) at 1. rewrite zget_zset_eq; [done|]. rewrite (ok_slots q Hq).
      pose proof (pos_in (mq_start q) (count q)) as Hi. unfold in_ring in Hi. lia.
Qed.

(** A full queue looks empty behind a refused message. *)
Lemma enqueue_full q m :
  mq_ok q -> count q = RING - 1 -> enqueue m q = Ret None (bumped q) /\ mq_ok (bumped q) /\ entries (bumped q) = [].
Proof.
  intros Hq Hc. pose proof (bumped_full _ Hq Hc) as He. pose proof (bumped_ok _ Hq) as Hq'. split.
  - unfold enqueue. rewrite (run_bind _ _ _ _ _ (fix_indices_ok _ Hq)).
    unfold take_place, bind, get, modify, ret. fold (bumped q).
    change (mq_start (bumped q)) with (mq_start q). rewrite He, Z.eqb_refl. done.
  - split; [done|]. assert (count (bumped q) = 0) as E by (apply count_0; done). by rewrite entries_ring, E.
Qed.

Lemma live_app q q' m :
  entries q' = entries q ++ [m] -> MSG_ISRESP (evt m) = false -> live q' = live q ++ [m].
Proof. intros H Hm. unfold live. rewrite H, List.filter_app. simpl. by rewrite Hm. Qed.

(** The oldest entry, when it is live. *)
Lemma recv_0_head q m l :
  mq_ok q -> entries q = m :: l -> MSG_ISRESP (evt m) = false ->
  exists q', recv 0 q = Ret (Some m) q' /\ mq_ok q' /\ entries q' = l /\ mq_serial q' = mq_serial q.
Proof.
  intros Hq He Hm.
  assert (Hc : 0 < count q).
  { pose proof (count_bounds q). destruct (Z.eq_dec (count q) 0) as [E|E]; [|lia].
    by rewrite entries_ring, E in He. }
  rewrite advanced_entries in He by done. injection He as He1 He2.
  unfold recv, bind at 1, get at 1.
  destruct (Z.eqb_spec (mq_start q) (mq_end q)) as [E|E]; [apply (count_0 _ Hq) in E; lia|].
  simpl. unfold recv_any. change (Z.to_nat MQ_MAX) with (S 191). unfold iter; fold (@iter mq_t unit msg_t).
  unfold bind at 1 2 3 4 5, get at 1. rewrite slot_ok by (done || apply Hq). rewrite He1.
  unfold modify at 1, get at 1, ret at 1. rewrite Hm. simpl. rewrite Hm. unfold bind, modify, when. fold (advanced q).
  pose proof (advanced_ok _ Hq) as Hq1.
  destruct (MSG_ISPTR (evt m)); simpl; (eexists; split; [done|]); (split; [|done]); destruct Hq1; by constructor.
Qed.

(** ** Entries and their number *)

Definition all_live (q : mq_t) : Prop := Forall (fun m => MSG_ISRESP (evt m) = false) (entries q).

Lemma entries_count q : mq_ok q -> zlen (entries q) = count q.
Proof.
  intros Hq. pose proof (count_bounds q). unfold zlen, entries. rewrite length_map, length_seq. lia.
Qed.
Lemma all_live_live q : all_live q -> live q = entries q.
Proof.
  unfold all_live, live. induction 1 as [|m l Hm _ IH]; simpl; [done|]. rewrite Hm. simpl. by rewrite IH.
Qed.

(** An empty queue as it is once a message was sent and received. *)
Definition empty_mq (i : Z) (pages : list Z) : mq_t :=
  mk_mq i i 0 0 0 0 (List.repeat zero_msg 192) (0 :: pages ++ List.repeat 0 508).
Lemma empty_mq_ok i : in_ring i -> mq_ok (empty_mq i [1; 1; 1]).
Proof.
  intros Hi. split; try done. intros p Hp. exists 1. split; [|done].
  assert (p = 1 \/ p = 2 \/ p = 3) as [->|[->| ->]] by lia; done.
Qed.

Definition note (a n : Z) : msg_t := mk_msg 0x2a0005 a 0 0 0 0 0 n.

(** ** The queues inside the core *)

Section Core.
Context {E : Pmm.Entropy} (drivers_ready : M Sched.sched_state unit).
Import Msg.

Lemma on_mq_run {A} p (m : M mq_t A) s q a q' :
  mqs s !! p = Some q -> m q = Ret a q' -> on_mq p m s = Ret a (set_mqs (<[p := q']> (mqs s)) s).
Proof. intros Hq Hm. unfold on_mq, bind, get, on. by rewrite Hq, Hm. Qed.

Lemma on_mq_get p s q : mqs s !! p = Some q -> on_mq p get s = Ret q s.
Proof.
  intros Hq. rewrite (on_mq_run _ _ _ _ q q Hq) by done. rewrite insert_id by done. by destruct s.
Qed.

Lemma tcb_of_run p s t : Sched.tasks (sched s) !! p = Some t -> tcb_of p s = Ret t s.
Proof. intros Ht. unfold tcb_of, on_sched, on, Sched.tload, bind, get. simpl. rewrite Ht. by destruct s, sched0. Qed.

Lemma tcb_at_run p s t :
  Sched.tasks (sched s) !! p = Some t -> magic t = OSZ_TCB_MAGICH -> tcb_at p s = Ret (Some t) s.
Proof. intros Ht Hm. unfold tcb_at, bind, get, ret. rewrite Ht, Hm, Z.eqb_refl. done. Qed.

(** A queue whose pages are there needs no page. *)
Lemma ensure_page_ok d i s q :
  mqs s !! d = Some q -> mq_ok q -> in_ring i -> ensure_page d (SIZEOF_MSG * i) s = Ret (SIZEOF_MSG * i) s.
Proof.
  intros Hq Hok Hi. rewrite Z.mul_comm. destruct (ok_pages q Hok _ (page_of_slot i Hi)) as (e & He & Hp).
  unfold ensure_page, bind at 1 2 3, get, need at 1. rewrite Hq. simpl. rewrite He. simpl. by rewrite Hp.
Qed.

(** The message as it is stored. *)
Definition letter (src a b c d e f event n serial : Z) : msg_t :=
  mk_msg (Z.lor (EVT_DEST src) (Z.land event 0x7FFF)) a b c d e f
         (if n =? 0 then Z.lor (EVT_DEST src) serial else n).

Definition awake (d : Z) (s : core_t) (x : Sched.sched_state) : Prop :=
  Sched.sched_awake (Sched.Task d) (Sched.set_serrno (core_errno s) (sched s)) = Ret tt x.

Definition awoken (x : Sched.sched_state) (s : core_t) : core_t :=
  set_sched (Sched.set_serrno (Sched.serrno (sched s)) x) (set_core_errno (Sched.serrno x) s).

(** The place is taken before anything is checked. *)
Lemma deliver_place src dst a b c d e f event n s q :
  mqs s !! dst = Some q -> mq_ok q ->
  exists rest, deliver drivers_ready src dst a b c d e f event n s = rest (set_mqs (<[dst := bumped q]> (mqs s)) s) /\
    rest = (if mq_end (bumped q) =? mq_start q then
              tr <-- gets in_trace ;;
              if negb tr && negb (src =? dst) then
                t <-- tcb_of dst ;;
                tcb_mod src (set_blksend (blksend t)) ;;;
                tcb_mod dst (set_blksend src) ;;;
                on_sched (Sched.sched_block (Sched.Task src)) ;;;
                pick drivers_ready ;;; ret 0
              else seterr EBUSY ;;; ret 0
            else
              j <-- ensure_page dst (SIZEOF_MSG * mq_end q) ;;
              a <-- (if MSG_ISPTR event then map_buffer src dst a b else ret (Some a)) ;;
              match a with
              | None => ret 0
              | Some a =>
                  i <-- on_mq dst (store_msg j (letter src a b c d e f event n)) ;;
                  on_sched (Sched.sched_awake (Sched.Task dst)) ;;; ret (Z.lor (EVT_DEST src) i)
              end).
Proof.
  intros Hq Hok. eexists. split; [|done]. unfold deliver.
  rewrite (run_bind _ _ _ _ _ (on_mq_run _ _ _ _ _ _ Hq (fix_indices_ok _ Hok))).
  set (s1 := set_mqs _ s).
  assert (Hq1 : mqs s1 !! dst = Some q) by apply lookup_insert_eq.
  rewrite (run_bind _ _ _ _ _ (on_mq_run dst take_place s1 q (SIZEOF_MSG * mq_end q) (bumped q) Hq1 eq_refl)).
  set (s2 := set_mqs _ s1).
  assert (s2 = set_mqs (<[dst := bumped q]> (mqs s)) s) as -> by (unfold s2, s1; simpl; by rewrite insert_insert_eq).
  rewrite (run_bind _ _ _ _ _ (on_mq_get dst _ (bumped q) (lookup_insert_eq _ _ _))). done.
Qed.

Lemma deliver_ok src dst a b c d e f event n s q x :
  mqs s !! dst = Some q -> mq_ok q -> count q < RING - 1 -> MSG_ISPTR event = false -> awake dst s x ->
  exists q' i, deliver drivers_ready src dst a b c d e f event n s =
                 Ret (Z.lor (EVT_DEST src) i)
                     (awoken x (set_mqs (<[dst := q']> (mqs s)) s)) /\
    mq_ok q' /\ entries q' = entries q ++ [letter src a b c d e f event n i] /\ i = next_serial (mq_serial q) /\
    mq_serial q' = i.
Proof.
  intros Hq Hok Hc Hp Ha. destruct (deliver_place src dst a b c d e f event n s q Hq Hok) as (rest & -> & ->).
  destruct (enqueue_ok q (letter src a b c d e f event n) Hok Hc) as (q' & He & Hq' & Hent & Hser).
  unfold enqueue in He. rewrite (run_bind _ _ _ _ _ (fix_indices_ok _ Hok)) in He.
  unfold take_place in He. unfold bind at 1 2 3 4, get, modify, ret at 1 in He. fold (bumped q) in He.
  change (mq_start (bumped q)) with (mq_start q) in He.
  destruct (mq_end (bumped q) =? mq_start q); [by injection He as ? _|].
  set (s2 := set_mqs _ s).
  assert (Hs2 : mqs s2 !! dst = Some (bumped q)) by apply lookup_insert_eq.
  rewrite (run_bind _ _ _ _ _ (ensure_page_ok _ _ _ _ Hs2 (bumped_ok _ Hok) (ok_end q Hok))), Hp.
  unfold bind at 1, ret at 1.
  unfold bind in He. destruct (store_msg _ _ (bumped q)) as [i q1| | |] eqn:Hst; try done. injection He as -> ->.
  rewrite (run_bind _ _ _ _ _ (on_mq_run _ _ _ _ _ _ Hs2 Hst)).
  exists q', (next_serial (mq_serial q)). split; [|done].
  unfold bind, on_sched, on, ret. unfold awake in Ha. simpl. rewrite Ha. f_equal.
  unfold s2. simpl. by rewrite insert_insert_eq.
Qed.

(** Steps that leave the queues alone and answer what [P] says. *)
Definition keeps {A} (P : A -> Prop) (m : M core_t A) : Prop :=
  forall s a s', m s = Ret a s' -> P a /\ mqs s' = mqs s.
Lemma keeps_ret {A} (P : A -> Prop) a : P a -> keeps P (ret a).
Proof. by intros ? ? ? ? [= <- <-]. Qed.
Lemma keeps_bind {A B} P (Q : B -> Prop) (m : M core_t A) k :
  keeps P m -> (forall a, P a -> keeps Q (k a)) -> keeps Q (bind m k).
Proof.
  intros Hm Hk s b s2 H. unfold bind in H. destruct (m s) as [a s1| | |] eqn:Em; try done.
  destruct (Hm _ _ _ Em) as [Ha H1]. destruct (Hk a Ha _ _ _ H) as [Hb H2]. split; [done|]. by rewrite H2.
Qed.
Lemma keeps_on_sched {A} (m : M Sched.sched_state A) : keeps (fun _ => True) (on_sched m).
Proof. intros s a s' H. unfold on_sched, on in H. destruct (m _); try done. by injection H as _ <-. Qed.
Lemma keeps_cur (b : bool) p : keeps (fun _ => True) (when b (modify (set_cur p))).
Proof. by destruct b; intros s [] s' [= <-]. Qed.

(** What a task must be to be sent to, and the sender to send. *)
Record may_send (s : core_t) (p d event fs : Z) (src dst : tcb_t) : Prop := {
  ms_cur : cur s = p;
  ms_src : Sched.tasks (sched s) !! p = Some src;
  ms_pid : pid src = p;
  ms_dst : Sched.tasks (sched s) !! d = Some dst;
  ms_magic : magic dst = OSZ_TCB_MAGICH;
  ms_task : task_of event = d;
  ms_pos : 0 < d;
  ms_allowed : Security.allowed (services s) src (u64 d) (EVT_FUNC event) = true;
  ms_fs : zget (services s) 1 = Some fs;
  ms_driver : priority dst <> PRI_DRV;
  ms_trace : tracebuf src = 0;
}.

Lemma msg_send_deliver s p d event fs src dst a b c d' e f n :
  may_send s p d event fs src dst ->
  msg_send drivers_ready a b c d' e f event n s =
  deliver drivers_ready p d a b c d' e f event n
    (set_core_errno SUCCESS (set_pmm (Pmm.set_srand (CoreLib.upd d (Z.lxor (clock_ts s)) (Pmm.srand (pmm s))) (pmm s)) s)).
Proof.
  intros []. unfold msg_send, send_with. unfold bind at 1, gets at 1. rewrite ms_cur0.
  rewrite (run_bind _ _ _ _ _ (tcb_of_run p s src ms_src0)). rewrite ms_task0.
  destruct (Z.eqb_spec d 0); [lia|]. unfold bind at 1, gets at 1.
  assert (Hal : on core_errno set_core_errno (Security.msg_allowed (services s) src (u64 d) (EVT_FUNC event)) s = Ret true s).
  { unfold on, Security.msg_allowed. rewrite ms_allowed0. simpl. by destruct s. }
  rewrite (run_bind _ _ _ _ _ Hal). cbn beta iota delta [negb].
  assert (Hd : destination d s = Ret (Some d) s) by (unfold destination; destruct (Z.ltb_spec d 0); [lia|done]).
  rewrite (run_bind _ _ _ _ _ Hd). cbn iota.
  unfold bind at 1, stir at 1, modify at 1. set (s1 := set_pmm _ s).
  assert (Ht : tcb_at d s1 = Ret (Some dst) s1) by (by apply tcb_at_run).
  rewrite (run_bind _ _ _ _ _ Ht). cbn iota.
  assert (Hf : service SRV_FS s1 = Ret fs s1).
  { unfold service, bind, get. change (- SRV_FS) with 1. change (services s1) with (services s). by rewrite ms_fs0. }
  rewrite (run_bind _ _ _ _ _ Hf).
  destruct (Z.eqb_spec (priority dst) PRI_DRV); [done|]. cbn beta iota delta [andb].
  unfold bind at 1, gets at 1. rewrite ms_trace0, Z.eqb_refl. cbn beta iota delta [negb].
  rewrite andb_false_r. cbn beta iota delta [andb].
  unfold bind, when, ret, seterr, modify. by rewrite ms_pid0.
Qed.

(** C4: a message without a buffer, between two tasks that may exchange it, of which the
    receiver is no driver and the sender is not traced, for a queue that has room and whose
    pages are there, is the new last entry of that queue, under the sender's pid and a
    serial number that is answered; no other queue changes, and the receiver is awake.
    Without room or pages the message is lost (see [full_queue_is_lost] and
    [missing_page_loses_message]). *)
Theorem msg_send_ok s p d event fs src dst a b c d' e f n q x :
  may_send s p d event fs src dst ->
  mqs s !! d = Some q -> mq_ok q -> count q < RING - 1 -> MSG_ISPTR event = false ->
  awake d (set_core_errno SUCCESS s) x ->
  let i := next_serial (mq_serial q) in
  exists s' q', msg_send drivers_ready a b c d' e f event n s = Ret (Z.lor (EVT_DEST p) i) s' /\
    mqs s' = <[d := q']> (mqs s) /\ mq_ok q' /\ entries q' = entries q ++ [letter p a b c d' e f event n i] /\
    Sched.tasks (sched s') = Sched.tasks x.
Proof.
  intros Hs Hq Hok Hc Hp Ha i. rewrite (msg_send_deliver _ _ _ _ _ _ _ _ _ _ _ _ _ _ Hs).
  destruct (deliver_ok p d a b c d' e f event n
              (set_core_errno SUCCESS (set_pmm (Pmm.set_srand (CoreLib.upd d (Z.lxor (clock_ts s)) (Pmm.srand (pmm s))) (pmm s)) s))
              q x Hq Hok Hc Hp Ha) as (q' & i' & Hd & Hq' & Hent & -> & _).
  rewrite Hd. eexists _, q'. by split_and!.
Qed.

(** What a task must be to receive: not idle, not traced, and nobody waits for it. *)
Record may_recv (s : core_t) (p fs : Z) (t : tcb_t) : Prop := {
  mr_cur : cur s = p;
  mr_tcb : Sched.tasks (sched s) !! p = Some t;
  mr_idle : pid t <> pid (Sched.idle_tcb (sched s));
  mr_fs : zget (services s) 1 = Some fs;
  mr_trace : tracebuf t = 0;
  mr_blksend : blksend t = 0;
}.

Lemma wake_sender_none s p fs t : may_recv s p fs t -> wake_sender s = Ret tt s.
Proof.
  intros []. unfold wake_sender. unfold bind at 1, gets at 1. rewrite mr_cur0.
  by rewrite (run_bind _ _ _ _ _ (tcb_of_run p s t mr_tcb0)), mr_blksend0.
Qed.

(** Receiving is receiving from the queue; an acknowledgement sets the error code to its
    third argument. *)
Lemma msg_recv_queue s p fs t q n m q' :
  may_recv s p fs t -> mqs s !! p = Some q -> recv n q = Ret m q' ->
  msg_recv drivers_ready n s =
  Ret m (let s' := set_mqs (<[p := q']> (mqs s)) s in
         match m with
         | Some m => if EVT_FUNC (evt m) =? Security.EVT_ack then set_core_errno (arg2 m) s' else s'
         | None => s'
         end).
Proof.
  intros Hr Hq Hm. pose proof Hr as []. unfold msg_recv. unfold bind at 1, gets at 1. rewrite mr_cur0.
  rewrite (run_bind _ _ _ _ _ (tcb_of_run p s t mr_tcb0)).
  assert (Hi : on_sched (gets Sched.idle_tcb) s = Ret (Sched.idle_tcb (sched s)) s).
  { unfold on_sched, on, gets. simpl. by destruct s, sched0. }
  rewrite (run_bind _ _ _ _ _ Hi). destruct (Z.eqb_spec (pid t) (pid (Sched.idle_tcb (sched s)))); [done|].
  assert (Hf : service SRV_FS s = Ret fs s).
  { unfold service, bind, get. change (- SRV_FS) with 1. by rewrite mr_fs0. }
  rewrite (run_bind _ _ _ _ _ Hf), mr_trace0. unfold bind at 1. simpl when. unfold ret at 1.
  rewrite (run_bind _ _ _ _ _ (on_mq_run _ _ _ _ _ _ Hq Hm)). set (s1 := set_mqs _ s).
  assert (Hw : forall e, wake_sender (set_core_errno e s1) = Ret tt (set_core_errno e s1)).
  { intros e. apply (wake_sender_none _ p fs t). by constructor. }
  assert (Hw1 : wake_sender s1 = Ret tt s1) by (apply (wake_sender_none _ p fs t); by constructor).
  destruct m as [m|]; simpl.
  - unfold when. destruct (EVT_FUNC (evt m) =? Security.EVT_ack).
    + unfold bind, seterr, modify, ret. by rewrite Hw.
    + unfold bind, ret. by rewrite Hw1.
  - unfold bind, ret. by rewrite Hw1.
Qed.

(** C21: a task that receives from anybody (serial number 0), is not traced and has nobody
    waiting to send to it, gets its oldest live message, which leaves its queue, or null
    when there is none, provided the pages of the queue are there; no other queue changes.
    The error code becomes the third argument of an acknowledgement and stays for other
    messages. *)
Theorem msg_recv_ok s p fs t q :
  may_recv s p fs t -> mqs s !! p = Some q -> mq_ok q ->
  exists s' q', msg_recv drivers_ready 0 s = Ret (head (live q)) s' /\ mqs s' = <[p := q']> (mqs s) /\
    mq_ok q' /\ live q' = tail (live q) /\
    core_errno s' = match head (live q) with
                    | Some m => if EVT_FUNC (evt m) =? Security.EVT_ack then arg2 m else core_errno s
                    | None => core_errno s
                    end.
Proof.
  intros Hr Hq Hok. destruct (recv_0_ok q Hok) as (q' & Hm & Hq' & Hl & _).
  rewrite (msg_recv_queue _ _ _ _ _ _ _ _ Hr Hq Hm). eexists _, q'. split; [done|].
  destruct (head (live q)) as [m|]; [destruct (EVT_FUNC (evt m) =? Security.EVT_ack)|]; by split_and!.
Qed.

(** ** Sequences of sends and receives *)

Lemma bind_step {S A B C} (m : M S A) (m' : M S B) (k : B -> M S C) s b s' :
  (m ;;; m') s = Ret b s' -> (m ;;; bind m' k) s = k b s'.
Proof. unfold bind. destruct (m s); try done. by intros ->. Qed.

Lemma letter_live src a b c d e f event n i : MSG_ISRESP (evt (letter src a b c d e f event n i)) = false.
Proof.
  unfold MSG_ISRESP, has. simpl. rewrite Z.land_lor_distr_l, <- Z.land_assoc. change (Z.land 0x7FFF MSG_RESPONSED) with 0.
  rewrite Z.land_0_r, Z.lor_0_r. apply negb_false_iff, Z.eqb_eq.
  unfold EVT_DEST, u64, wrap, MSG_RESPONSED. rewrite Z.shiftl_mul_pow2 by lia. change 0x8000 with (2 ^ 15).
  apply Z.bits_inj'. intros j Hj. rewrite Z.land_spec, Z.bits_0, Z.pow2_bits_eqb by lia.
  destruct (Z.eqb_spec 15 j) as [<-|]; [|apply andb_false_r]. rewrite andb_true_r.
  rewrite Z.mod_pow2_bits_low by lia. rewrite Z.mul_pow2_bits_low; done.
Qed.

(** Waking a task that is ready touches only its place in the round of its priority. *)
Definition can_run (x : Sched.sched_state) (t : tcb_t) : Prop :=
  Sched.bad_tcb (Sched.numcores x) t = false /\
  exists ccb, zget (Sched.ccbs x) (cpuid t) = Some ccb /\ is_Some (zget (Sched.cr_active ccb) (priority t)).

Lemma awake_ready d s t :
  Sched.tasks (sched s) !! d = Some t -> tstate t = TCB_STATE_RUNNING -> can_run (sched s) t ->
  exists x, awake d s x /\ Sched.tasks x = Sched.tasks (sched s) /\ Sched.idle_tcb x = Sched.idle_tcb (sched s) /\ can_run x t.
Proof.
  intros Ht Hst (Hbad & ccb & Hccb & w & Hw). unfold awake. set (s0 := Sched.set_serrno _ _).
  set (ccb' := Sched.set_hasactivetask true (Sched.set_cr_active (zset (Sched.cr_active ccb) (priority t) (pid t)) ccb)).
  exists (Sched.set_ccbs (zset (Sched.ccbs s0) (cpuid t) ccb') s0). split_and!; [|done|done|].
  - assert (Hl : Sched.tload (Sched.Task d) s0 = Ret t s0) by (unfold Sched.tload, bind, get, need; simpl; by rewrite Ht).
    unfold Sched.sched_awake. rewrite (run_bind _ _ _ _ _ Hl). unfold bind at 1, gets at 1.
    change (Sched.numcores s0) with (Sched.numcores (sched s)). rewrite Hbad, Hst. cbn [Z.eqb negb].
    rewrite (run_bind (when _ _) _ s0 tt s0) by (by rewrite Z.eqb_refl). rewrite (run_bind _ _ _ _ _ Hl).
    assert (Hg : Sched.ccb_get (cpuid t) s0 = Ret ccb s0) by (unfold Sched.ccb_get, bind, get, need; simpl; by rewrite Hccb).
    rewrite (run_bind _ _ _ _ _ Hg). rewrite Hw. unfold need at 1, bind at 1, ret at 1.
    unfold Sched.ccb_mod, bind, get, need, put, ret. simpl. by rewrite Hccb.
  - split; [done|]. pose proof (zget_Some_lt _ _ _ Hccb). pose proof (zget_Some_lt _ _ _ Hw).
    exists ccb'. split; [simpl; by apply zget_zset_eq|]. simpl. rewrite zget_zset_eq by done. by eexists.
Qed.

(** Task [d], whose control block is [t], runs or is ready, and may receive. *)
Record ready (s : core_t) (d fs : Z) (t : tcb_t) : Prop := {
  rd_recv : may_recv (set_cur d s) d fs t;
  rd_state : tstate t = TCB_STATE_RUNNING;
  rd_run : can_run (sched s) t;
}.

(** What tasks send and [d] receives. *)
Inductive op : Type :=
| OpSend (p event a b c d' e f n : Z)
| OpRecv.

Fixpoint run (d : Z) (ops : list op) : M core_t (list (option msg_t)) :=
  match ops with
  | [] => ret []
  | OpSend p event a b c d' e f n :: ops =>
      modify (set_cur p) ;;; msg_send drivers_ready a b c d' e f event n ;;; run d ops
  | OpRecv :: ops =>
      modify (set_cur d) ;;; m <-- msg_recv drivers_ready 0 ;; l <-- run d ops ;; ret (m :: l)
  end.

(** A list with the number of the last message: what the receives answer, and the list at
    the end. *)
Fixpoint fifo (ops : list op) (l : list msg_t) (n : Z) : list (option msg_t) * list msg_t :=
  match ops with
  | [] => ([], l)
  | OpSend p event a b c d' e f k :: ops =>
      let n := next_serial n in fifo ops (l ++ [letter p a b c d' e f event k n]) n
  | OpRecv :: ops => let '(out, l') := fifo ops (tail l) n in (head l :: out, l')
  end.

(** The list never holds more than 190 messages. *)
Fixpoint fits (ops : list op) (k : Z) : Prop :=
  match ops with
  | [] => True
  | OpSend _ _ _ _ _ _ _ _ _ :: ops => k < RING - 1 /\ fits ops (k + 1)
  | OpRecv :: ops => fits ops (Z.max 0 (k - 1))
  end.

(** Whoever sends may send to [d], and no buffer. *)
Definition sender (s : core_t) (d fs : Z) (t : tcb_t) (o : op) : Prop :=
  match o with
  | OpSend p event _ _ _ _ _ _ _ => MSG_ISPTR event = false /\ exists src, may_send (set_cur p s) p d event fs src t
  | OpRecv => True
  end.

(** The parts these conditions depend on. *)
Definition same_tasks (s s' : core_t) : Prop :=
  Sched.tasks (sched s') = Sched.tasks (sched s) /\ Sched.idle_tcb (sched s') = Sched.idle_tcb (sched s) /\
  services s' = services s.

Lemma same_recv s s' d fs t : same_tasks s s' -> may_recv (set_cur d s) d fs t -> may_recv (set_cur d s') d fs t.
Proof. intros (Ht & Hi & Hs) []. split; try done; simpl in *; by rewrite ?Ht, ?Hi, ?Hs. Qed.
Lemma same_sender s s' d fs t o : same_tasks s s' -> sender s d fs t o -> sender s' d fs t o.
Proof.
  intros (Ht & Hi & Hs). destruct o as [p event a b c d' e f n|]; [|done]. intros (Hp & src & []). split; [done|].
  exists src. split; try done; simpl in *; by rewrite ?Ht, ?Hi, ?Hs.
Qed.

Lemma send_step s d fs t q p event a b c d' e f n :
  ready s d fs t -> sender s d fs t (OpSend p event a b c d' e f n) -> mqs s !! d = Some q -> mq_ok q -> count q < RING - 1 ->
  let i := next_serial (mq_serial q) in
  exists k s' q', (modify (set_cur p) ;;; msg_send drivers_ready a b c d' e f event n) s = Ret k s' /\
    same_tasks s s' /\ ready s' d fs t /\ mqs s' !! d = Some q' /\ mq_ok q' /\
    entries q' = entries q ++ [letter p a b c d' e f event n i] /\ mq_serial q' = i.
Proof.
  intros [Hr Hst Hrun] (Hp & src & Hs) Hq Hok Hc i. unfold bind at 1, modify at 1.
  rewrite (msg_send_deliver _ _ _ _ _ _ _ _ _ _ _ _ _ _ Hs). set (s1 := set_core_errno _ _).
  destruct (awake_ready d s1 t) as (x & Hx & Hxt & Hxi & Hxr); [by destruct Hr|done|done|].
  destruct (deliver_ok p d a b c d' e f event n s1 q x Hq Hok Hc Hp Hx) as (q' & i' & Hd & Hq' & Hent & Hi & Hser).
  rewrite Hd, Hi in *. eexists _, _, q'. split; [done|].
  assert (same_tasks s (awoken x (set_mqs (<[d := q']> (mqs s1)) s1))) as Hsame by done.
  split; [done|]. split; [|split; [apply lookup_insert_eq|by split_and!]].
  split; [by apply (same_recv s)|done|done].
Qed.

Lemma recv_step s d fs t q :
  may_recv (set_cur d s) d fs t -> mqs s !! d = Some q -> mq_ok q ->
  exists s' q', (modify (set_cur d) ;;; msg_recv drivers_ready 0) s = Ret (head (live q)) s' /\
    same_tasks s s' /\ sched s' = sched s /\ mqs s' !! d = Some q' /\ mq_ok q' /\ live q' = tail (live q) /\
    (all_live q -> entries q' = tail (entries q)) /\ mq_serial q' = mq_serial q.
Proof.
  intros Hr Hq Hok. assert (Hstep : exists q', recv 0 q = Ret (head (live q)) q' /\ mq_ok q' /\ live q' = tail (live q) /\
     (all_live q -> entries q' = tail (entries q)) /\ mq_serial q' = mq_serial q).
  { destruct (recv_0_ok q Hok) as (q' & H1 & H2 & H3 & _ & _ & Hz & H4 & _). exists q'. split_and!; try done.
    intros Ha. destruct (entries q) as [|m l] eqn:He.
    - rewrite Hz; [done|]. by rewrite <- entries_count, He.
    - assert (MSG_ISRESP (evt m) = false) as Hm by (unfold all_live in Ha; rewrite He in Ha; by inversion Ha).
      destruct (recv_0_head q m l Hok He Hm) as (q1 & H1' & _ & He1 & _). rewrite H1' in H1. injection H1 as _ <-. done. }
  destruct Hstep as (q' & Hm & Hq' & Hl & He & Hs). unfold bind at 1, modify at 1.
  rewrite (msg_recv_queue (set_cur d s) d fs t q 0 _ q' Hr Hq Hm). eexists _, q'. split; [done|].
  destruct (head (live q)) as [m|]; [destruct (EVT_FUNC (evt m) =? Security.EVT_ack)|];
    split_and!; try done; apply lookup_insert_eq.
Qed.

(** C2: the queue of a task that runs or is ready is a first-in first-out list, with the ring
    of slots, its wrap-around and its serial numbers: whatever tasks that may send to it send
    without buffers, and whenever it receives, the receives answer what those of the list
    answer, and the entries are the list, as long as it never holds more than 190 messages,
    the three pages of the queue are there, and all it holds at first is unanswered.  A full
    queue and a missing page lose messages (see [full_queue_is_lost] and
    [missing_page_loses_message]). *)
Theorem mq_refines_fifo ops s d fs t q :
  ready s d fs t -> Forall (sender s d fs t) ops -> mqs s !! d = Some q ->
  mq_ok q -> all_live q -> fits ops (count q) ->
  exists s' q', run d ops s = Ret (fst (fifo ops (entries q) (mq_serial q))) s' /\ mqs s' !! d = Some q' /\ mq_ok q' /\
                entries q' = snd (fifo ops (entries q) (mq_serial q)).
Proof.
  revert s q. induction ops as [|[p event a b c d' e f n|] ops IH]; intros s q Hr Hs Hq Hok Ha Hf; [by exists s, q| |];
    apply Forall_cons in Hs as [Ho Hs].
  - destruct Hf as (Hk & Hf).
    destruct (send_step s d fs t q p event a b c d' e f n Hr Ho Hq Hok Hk) as (k & s1 & q1 & H1 & Hsame & Hr1 & Hq1 & Hok1 & He & Hser).
    cbn [run fifo]. rewrite (bind_step _ _ _ _ _ _ H1), <- He, <- Hser. apply IH; try done.
    + eapply Forall_impl; [exact Hs|]. intros o. by apply same_sender.
    + unfold all_live. rewrite He. apply Forall_app. split; [done|]. constructor; [apply letter_live|done].
    + rewrite <- entries_count, He, zlen_app, entries_count by done. done.
  - destruct (recv_step s d fs t q (rd_recv _ _ _ _ Hr) Hq Hok) as (s1 & q1 & H1 & Hsame & Hsch & Hq1 & Hok1 & _ & He & Hser).
    specialize (He Ha). rewrite (all_live_live q Ha) in H1. cbn [run fifo]. rewrite (bind_step _ _ _ _ _ _ H1).
    destruct (IH s1 q1) as (s2 & q2 & H2 & Hq2 & Hok2 & He2); try done.
    + destruct Hr as [Hr Hst Hrun]. split; [by apply (same_recv s)|done|by rewrite Hsch].
    + eapply Forall_impl; [exact Hs|]. intros o. by apply same_sender.
    + unfold all_live in *. rewrite He. destruct (entries q); [done|by inversion Ha].
    + rewrite <- entries_count, He by done. simpl in Hf. rewrite <- entries_count in Hf by done.
      replace (zlen (tail (entries q))) with (Z.max 0 (zlen (entries q) - 1)); [done|].
      unfold zlen. destruct (entries q); simpl; lia.
    + rewrite (run_bind _ _ _ _ _ H2). rewrite He, Hser in *.
      destruct (fifo ops (tail (entries q)) (mq_serial q)) as [out l']. by exists s2, q2.
Qed.

(** A live message is received behind those before it. *)
Lemma recv_all d fs t m l s q :
  may_recv (set_cur d s) d fs t -> mqs s !! d = Some q -> mq_ok q -> live q = l ++ [m] ->
  exists out s', run d (List.repeat OpRecv (S (length l))) s = Ret out s' /\ List.last out None = Some m.
Proof.
  revert s q. induction l as [|y l IH]; intros s q Hr Hq Hok Hl.
  - destruct (recv_step s d fs t q Hr Hq Hok) as (s2 & q2 & H2 & _). exists [Some m], s2. split; [|done].
    cbn [length List.repeat run]. rewrite (bind_step _ _ _ _ _ _ H2). by rewrite Hl.
  - destruct (recv_step s d fs t q Hr Hq Hok) as (s2 & q2 & H2 & Hsame & _ & Hq2 & Hok2 & Hl2 & _).
    rewrite Hl in H2, Hl2. simpl in Hl2.
    destruct (IH s2 q2 (same_recv _ _ _ _ _ Hsame Hr) Hq2 Hok2 Hl2) as (out & s3 & H3 & Hlast).
    exists (Some y :: out), s3. change (length (y :: l)) with (S (length l)). set (k := S (length l)) in *.
    cbn [List.repeat run]. rewrite (bind_step _ _ _ _ _ _ H2), (run_bind _ _ _ _ _ H3). split; [done|]. by destruct out.
Qed.

(** C26: a message without a buffer that a task may send, for a queue that has room and whose
    pages are there, is received: the receiver, blocked or not, is woken, and after as many
    receives from anybody as there are live messages before it, the next one answers it,
    whatever answered entries lie between.  A full queue and a missing page lose it (see
    [full_queue_is_lost] and [missing_page_loses_message]). *)
Theorem mq_delivers s p d event fs src dst a b c d' e f n q x t :
  may_send s p d event fs src dst ->
  mqs s !! d = Some q -> mq_ok q -> count q < RING - 1 -> MSG_ISPTR event = false ->
  awake d (set_core_errno SUCCESS s) x ->
  (* the receiver behind that *)
  Sched.tasks x !! d = Some t -> pid t <> pid (Sched.idle_tcb x) -> tracebuf t = 0 -> blksend t = 0 ->
  exists k s1 out s2, msg_send drivers_ready a b c d' e f event n s = Ret k s1 /\
    run d (List.repeat OpRecv (S (length (live q)))) s1 = Ret out s2 /\
    List.last out None = Some (letter p a b c d' e f event n (next_serial (mq_serial q))).
Proof.
  intros Hs Hq Hok Hc Hp Ha Ht Hi Htr Hb. rewrite (msg_send_deliver _ _ _ _ _ _ _ _ _ _ _ _ _ _ Hs). set (s0 := set_core_errno _ _).
  destruct (deliver_ok p d a b c d' e f event n s0 q x Hq Hok Hc Hp Ha) as (q1 & i & -> & Hok1 & He & -> & _).
  set (s1 := awoken _ _). pose proof (live_app _ _ _ He (letter_live _ _ _ _ _ _ _ _ _ _)) as Hl.
  assert (Hr : may_recv (set_cur d s1) d fs t) by (destruct Hs; by split).
  destruct (recv_all d fs t _ (live q) s1 q1 Hr (lookup_insert_eq _ _ _) Hok1 Hl) as (out & s2 & Hrun & Hlast).
  by exists (Z.lor (EVT_DEST p) (next_serial (mq_serial q))), s1, out, s2.
Qed.

(** C25: A message that finds the queue full is not only refused: its place, which is
    taken before the test, makes the ring look empty, so that the receiver loses all 190
    messages in it, whoever sends; a task that sends to itself is told EBUSY. *)
Theorem full_queue_is_lost src dst a b c d e f event n s q :
  mqs s !! dst = Some q -> mq_ok q -> count q = RING - 1 ->
  (forall r s', deliver drivers_ready src dst a b c d e f event n s = Ret r s' ->
     r = 0 /\ exists q', mqs s' !! dst = Some q' /\ entries q' = [] /\ recv 0 q' = Ret None q') /\
  (src = dst -> exists s', deliver drivers_ready src dst a b c d e f event n s = Ret 0 s' /\ core_errno s' = EBUSY).
Proof.
  intros Hq Hok Hc. destruct (deliver_place src dst a b c d e f event n s q Hq Hok) as (rest & -> & ->).
  rewrite (bumped_full _ Hok Hc), Z.eqb_refl. set (s1 := set_mqs _ s).
  assert (Hlost : mqs s1 !! dst = Some (bumped q) /\ entries (bumped q) = [] /\ recv 0 (bumped q) = Ret None (bumped q)).
  { split; [apply lookup_insert_eq|]. destruct (enqueue_full q (fun _ => zero_msg) Hok Hc) as (_ & Hb & He).
    split; [done|]. unfold recv, bind, get. change (mq_start (bumped q)) with (mq_start q).
    by rewrite (bumped_full _ Hok Hc), Z.eqb_refl. }
  split.
  - intros r s' H. unfold bind at 1, gets at 1 in H. destruct Hlost as (Hm & Hlost).
    destruct (negb (in_trace s1) && negb (src =? dst)); [|injection H as <- <-; split; [done|]; by exists (bumped q)].
    assert (Hk : keeps (fun r => r = 0)
                   (t <-- tcb_of dst ;; tcb_mod src (set_blksend (blksend t)) ;;; tcb_mod dst (set_blksend src) ;;;
                    on_sched (Sched.sched_block (Sched.Task src)) ;;; pick drivers_ready ;;; ret 0)).
    { unfold tcb_of, tcb_mod, pick. repeat first [apply keeps_on_sched | apply keeps_cur | eapply keeps_bind; [|intros ? ?] | by apply keeps_ret]. }
    destruct (Hk _ _ _ H) as [Hr Hs]. split; [done|]. exists (bumped q). by rewrite Hs.
  - intros ->. unfold bind at 1, gets at 1. rewrite Z.eqb_refl. cbn beta iota delta [negb]. rewrite andb_false_r.
    by eexists.
Qed.

(** A message whose buffer is refused has taken its place already: the queue of the
    receiver grows by whatever the slot held before, which is received like a message. *)
Theorem refused_buffer_enqueues_stale src dst a b c d e f event n s q :
  mqs s !! dst = Some q -> mq_ok q -> count q < RING - 1 -> MSG_ISPTR event = true -> a < TEXT_ADDRESS ->
  exists s' q', deliver drivers_ready src dst a b c d e f event n s = Ret 0 s' /\ core_errno s' = EFAULT /\
    mqs s' !! dst = Some q' /\ entries q' = entries q ++ [default zero_msg (zget (slots q) (mq_end q))].
Proof.
  intros Hq Hok Hc Hp Ha. destruct (deliver_place src dst a b c d e f event n s q Hq Hok) as (rest & -> & ->).
  pose proof (bumped_count _ Hok Hc) as Hc'. pose proof (bumped_ok _ Hok) as Hok'. pose proof (count_bounds q) as Hb.
  destruct (Z.eqb_spec (mq_end (bumped q)) (mq_start q)) as [He|He].
  { symmetry in He. change (mq_start q) with (mq_start (bumped q)) in He. apply (count_0 _ Hok') in He. lia. }
  set (s2 := set_mqs _ s).
  assert (Hs2 : mqs s2 !! dst = Some (bumped q)) by apply lookup_insert_eq.
  rewrite (run_bind _ _ _ _ _ (ensure_page_ok _ _ _ _ Hs2 Hok' (ok_end q Hok))), Hp. unfold map_buffer.
  destruct (Z.ltb_spec a TEXT_ADDRESS); [|lia]. cbn beta iota delta [orb].
  eexists _, (bumped q). split; [done|]. split; [done|]. split; [done|].
  rewrite !entries_ring, Hc'. replace (Z.to_nat (count q + 1)) with (S (Z.to_nat (count q))) by lia.
  rewrite ring_from_snoc. simpl. rewrite Z2Nat.id by lia. by rewrite <- (end_pos q Hok).
Qed.

(** When the queue of a task is empty at the first slot of a page that is not there
    yet, the message is put into slot 1 and the end is set to 1, but the start stays: the
    message is outside the queue, and the next receive reads the missing page. *)
Theorem missing_page_loses_message src dst a b c d e f event n s q i x :
  mqs s !! dst = Some q -> zlen (slots q) = 192 -> 1 < i < RING -> mq_start q = i -> mq_end q = i ->
  (exists t, zget (pt q) (page_of (i * SIZEOF_MSG)) = Some t /\ vmm_ispresent t = false) ->
  MSG_ISPTR event = false -> awake dst s x ->
  exists s' q', deliver drivers_ready src dst a b c d e f event n s =
                  Ret (Z.lor (EVT_DEST src) (next_serial (mq_serial q))) s' /\
    mqs s' !! dst = Some q' /\ mq_start q' = i /\ mq_end q' = 1 /\
    zget (slots q') 1 = Some (letter src a b c d e f event n (next_serial (mq_serial q))) /\ recv 0 q' = UB.
Proof.
  intros Hq Hl Hi Hs He (t & Ht & Hnp) Hp Ha. unfold RING in Hi.
  assert (Hfix : fix_indices q = Ret tt q).
  { unfold fix_indices, modify. rewrite Hs. destruct (Z.eqb_spec i 0); [lia|]. rewrite He.
    destruct (Z.eqb_spec i 0); [lia|]. done. }
  assert (Hafter : after i = i + 1) by (unfold after; change MQ_MAX with 192; destruct (Z.leb_spec 192 (i + 1)); lia).
  unfold deliver. rewrite (run_bind _ _ _ _ _ (on_mq_run _ _ _ _ _ _ Hq Hfix)). rewrite insert_id by done.
  assert (Hid : set_mqs (mqs s) s = s) by (by destruct s). rewrite Hid.
  rewrite (run_bind _ _ _ _ _ (on_mq_run dst take_place s q (SIZEOF_MSG * mq_end q) (bumped q) Hq eq_refl)).
  set (s1 := set_mqs _ s). assert (Hq1 : mqs s1 !! dst = Some (bumped q)) by apply lookup_insert_eq.
  rewrite (run_bind _ _ _ _ _ (on_mq_get _ _ _ Hq1)). change (mq_start (bumped q)) with (mq_start q).
  change (mq_end (bumped q)) with (after (mq_end q)). rewrite Hs, He, Hafter.
  destruct (Z.eqb_spec (i + 1) i); [lia|].
  set (q2 := set_mq_end 1 (bumped q)).
  assert (Hen : ensure_page dst (SIZEOF_MSG * i) s1 = Ret SIZEOF_MSG (set_mqs (<[dst := q2]> (mqs s1)) s1)).
  { unfold ensure_page. unfold bind at 1, get at 1. rewrite Hq1. unfold need at 1, bind at 1, ret at 1.
    change (pt (bumped q)) with (pt q). rewrite (Z.mul_comm SIZEOF_MSG), Ht. unfold need at 1, bind at 1, ret at 1.
    rewrite Hnp. change (mq_start (bumped q)) with (mq_start q). change (mq_end (bumped q)) with (after (mq_end q)).
    rewrite Hs, He, Hafter, Z.eqb_refl.
    by rewrite (run_bind _ _ _ _ _ (on_mq_run dst (modify (set_mq_end 1)) s1 _ tt q2 Hq1 eq_refl)). }
  rewrite (run_bind _ _ _ _ _ Hen), Hp. unfold bind at 1, ret at 1.
  set (s2 := set_mqs (<[dst := q2]> (mqs s1)) s1). assert (Hq2 : mqs s2 !! dst = Some q2) by apply lookup_insert_eq.
  set (m := letter src a b c d e f event n). set (k := next_serial (mq_serial q)).
  set (q3 := set_slots (zset (slots q) 1 (m k)) (set_mq_serial k q2)).
  assert (Hst : store_msg SIZEOF_MSG m q2 = Ret k q3).
  { unfold store_msg, put_msg, bind, modify, gets, get, put. simpl. change (SIZEOF_MSG / SIZEOF_MSG) with 1.
    destruct (zget_is_Some (slots q) 1) as [y Hy]; [lia|]. by rewrite Hy. }
  rewrite (run_bind _ _ _ _ _ (on_mq_run _ _ _ _ _ _ Hq2 Hst)). set (s3 := set_mqs _ s2).
  assert (Haw : on_sched (Sched.sched_awake (Sched.Task dst)) s3 = Ret tt (awoken x s3)).
  { unfold on_sched, on. unfold awake in Ha. change (core_errno s3) with (core_errno s).
    change (sched s3) with (sched s). by rewrite Ha. }
  rewrite (run_bind _ _ _ _ _ Haw). eexists _, q3. split; [done|]. split; [apply lookup_insert_eq|].
  split; [done|]. split; [done|]. split; [by apply zget_zset_eq; lia|].
  apply (recv_missing q3 t); unfold q3; simpl; rewrite ?Hs; [lia|done|done].
Qed.

End Core.
(** ** A concrete core

    Task 4 runs, task 6 is blocked; task 9 is the FS task. *)
Module Sample.
Import Msg.

Definition core (q : mq_t) : core_t :=
  mk_core SchedFacts.Sample.system (Pmm.mk_pmm [] 0 0 0 false [0; 0; 0; 0] RUNLVL_NORM 0 [])
    (<[6 := q]> (<[4 := q]> ∅)) ∅ [0; 9; 0; 0; 0; 0; 0; 0] 4 0 false 1000 0.

Definition ready_core (q : mq_t) : Sched.sched_state :=
  match Sched.sched_awake (Sched.Task 6) (Sched.set_serrno 0 SchedFacts.Sample.system) with
  | Ret _ x => x
  | _ => SchedFacts.Sample.system
  end.

(** A task of priority 5 sends function 5 to task 6. *)
Definition event : Z := Z.lor (EVT_DEST 6) 5.

Lemma may_send_6 q :
  may_send (core q) 4 6 event 9 (set_prev 3 (SchedFacts.Sample.task 4 5 TCB_STATE_RUNNING))
    (SchedFacts.Sample.task 6 5 TCB_STATE_BLOCKED).
Proof. by split. Qed.
Lemma may_recv_4 q :
  may_recv (core q) 4 9 (set_prev 3 (SchedFacts.Sample.task 4 5 TCB_STATE_RUNNING)).
Proof. by split. Qed.

End Sample.

Lemma ready_awake q : awake 6 (Msg.set_core_errno SUCCESS (Sample.core q)) (Sample.ready_core q).
Proof. by vm_compute. Qed.

Lemma msg_send_ok_witness :
  let q := empty_mq 191 [1; 1; 1] in
  exists s' q', Msg.msg_send (E := CoreLib.core_entropy 1000 0) (ret tt) 11 12 13 14 15 16 Sample.event 0 (Sample.core q) =
                  Ret (Z.lor (EVT_DEST 4) (next_serial (mq_serial q))) s' /\
    Msg.mqs s' = <[6 := q']> (Msg.mqs (Sample.core q)) /\ mq_ok q' /\
    entries q' = entries q ++ [letter 4 11 12 13 14 15 16 Sample.event 0 (next_serial (mq_serial q))] /\
    Sched.tasks (Msg.sched s') = Sched.tasks (Sample.ready_core q).
Proof.
  intros q. apply (msg_send_ok (E := CoreLib.core_entropy 1000 0) (ret tt) (Sample.core q) 4 6 Sample.event 9
           _ _ 11 12 13 14 15 16 0 q (Sample.ready_core q) (Sample.may_send_6 _)).
  - reflexivity.
  - apply empty_mq_ok. unfold in_ring. lia.
  - vm_compute. reflexivity.
  - vm_compute. reflexivity.
  - apply ready_awake.
Defined.

(** The tasks 3 and 6 send to task 4, around the end of its ring. *)
Definition to_4 : Z := Z.lor (EVT_DEST 4) 5.
Definition task_4 : tcb_t := set_prev 3 (SchedFacts.Sample.task 4 5 TCB_STATE_RUNNING).
Definition four_sends : list op :=
  [OpSend 3 to_4 1 0 0 0 0 0 0; OpSend 6 to_4 2 0 0 0 0 0 0; OpRecv; OpSend 3 to_4 3 0 0 0 0 0 0; OpRecv; OpRecv; OpRecv].

Lemma ready_4 q : ready (Sample.core q) 4 9 task_4.
Proof. split; [by split|done|]. split; [done|]. eexists. split; [done|]. by eexists. Qed.
Lemma senders_4 q : Forall (sender (Sample.core q) 4 9 task_4) four_sends.
Proof. repeat constructor; eexists; by split. Qed.

Lemma mq_refines_fifo_witness :
  let m p a i := letter p a 0 0 0 0 0 to_4 0 i in
  exists s' q', run (E := CoreLib.core_entropy 1000 0) (ret tt) 4 four_sends (Sample.core (empty_mq 190 [1; 1; 1])) =
                  Ret [Some (m 3 1 1); Some (m 6 2 2); Some (m 3 3 3); None] s' /\
    Msg.mqs s' !! 4 = Some q' /\ mq_ok q' /\ entries q' = [].
Proof.
  apply (mq_refines_fifo (E := CoreLib.core_entropy 1000 0) (ret tt) four_sends (Sample.core (empty_mq 190 [1; 1; 1]))
           4 9 task_4 (empty_mq 190 [1; 1; 1]) (ready_4 _) (senders_4 _)).
  - reflexivity.
  - apply empty_mq_ok. unfold in_ring. lia.
  - vm_compute. constructor.
  - vm_compute. by repeat split.
Defined.

Lemma mq_delivers_witness :
  let q := empty_mq 5 [1; 1; 1] in
  exists k s1 out s2, Msg.msg_send (E := CoreLib.core_entropy 1000 0) (ret tt) 7 0 0 0 0 0 Sample.event 0 (Sample.core q) = Ret k s1 /\
    run (E := CoreLib.core_entropy 1000 0) (ret tt) 6 [OpRecv] s1 = Ret out s2 /\
    List.last out None = Some (letter 4 7 0 0 0 0 0 Sample.event 0 1).
Proof.
  intros q.
  apply (mq_delivers (E := CoreLib.core_entropy 1000 0) (ret tt) (Sample.core q) 4 6 Sample.event 9 _ _ 7 0 0 0 0 0 0 q
           (Sample.ready_core q) (default zero_tcb (Sched.tasks (Sample.ready_core q) !! 6)) (Sample.may_send_6 _));
    try (by vm_compute).
  apply empty_mq_ok. unfold in_ring. lia.
Defined.

(** A note from the FS task, and its acknowledgement with error 7. *)
Definition acknowledged : mq_t :=
  mk_mq 5 6 0 0 0 0 (zset (List.repeat zero_msg 192) 5 (mk_msg (Z.lor (EVT_DEST 9) Security.EVT_ack) 0 0 7 0 0 0 1))
    (0 :: [1; 1; 1] ++ List.repeat 0 508).

Lemma acknowledged_ok : mq_ok acknowledged.
Proof.
  split; try done. intros p Hp. exists 1. split; [|done].
  assert (p = 1 \/ p = 2 \/ p = 3) as [->|[->| ->]] by lia; done.
Qed.

Lemma msg_recv_ok_witness :
  exists s' q', Msg.msg_recv (E := CoreLib.core_entropy 1000 0) (ret tt) 0
                  (Msg.set_mqs {[4 := acknowledged]} (Sample.core acknowledged)) =
                  Ret (Some (mk_msg (Z.lor (EVT_DEST 9) Security.EVT_ack) 0 0 7 0 0 0 1)) s' /\
    Msg.mqs s' = {[4 := q']} /\ mq_ok q' /\ live q' = [] /\ Msg.core_errno s' = 7.
Proof.
  assert (Hr : may_recv (Msg.set_mqs {[4 := acknowledged]} (Sample.core acknowledged)) 4 9
                 (set_prev 3 (SchedFacts.Sample.task 4 5 TCB_STATE_RUNNING))) by (by split).
  destruct (msg_recv_ok (E := CoreLib.core_entropy 1000 0) (ret tt) _ 4 9 _ acknowledged Hr eq_refl acknowledged_ok)
    as (s' & q' & H1 & H2 & H3 & H4 & H5).
  exists s', q'. split; [exact H1|]. split; [rewrite H2; apply insert_singleton_eq|]. by split_and!.
Defined.

(** A queue with 190 messages. *)
Definition full : mq_t := mk_mq 1 191 0 0 0 0 (List.repeat (note 1 1) 192) (0 :: [1; 1; 1] ++ List.repeat 0 508).
Lemma full_ok : mq_ok full.
Proof.
  split; try done. intros p Hp. exists 1. split; [|done].
  assert (p = 1 \/ p = 2 \/ p = 3) as [->|[->| ->]] by lia; done.
Qed.

Lemma full_queue_is_lost_witness :
  (forall r s', Msg.deliver (E := CoreLib.core_entropy 1000 0) (ret tt) 4 6 0 0 0 0 0 0 Sample.event 0 (Sample.core full) = Ret r s' ->
     r = 0 /\ exists q', Msg.mqs s' !! 6 = Some q' /\ entries q' = [] /\ recv 0 q' = Ret None q') /\
  (4 = 6 -> exists s', Msg.deliver (E := CoreLib.core_entropy 1000 0) (ret tt) 4 6 0 0 0 0 0 0 Sample.event 0 (Sample.core full) = Ret 0 s' /\
                       Msg.core_errno s' = EBUSY).
Proof.
  exact (full_queue_is_lost (E := CoreLib.core_entropy 1000 0) (ret tt) 4 6 0 0 0 0 0 0 Sample.event 0 (Sample.core full) full
           eq_refl full_ok eq_refl).
Defined.

(** The answer is there: a real sender does come back from the full queue. *)
Example full_queue_returns :
  exists s', Msg.deliver (E := CoreLib.core_entropy 1000 0) (ret tt) 4 6 0 0 0 0 0 0 Sample.event 0 (Sample.core full) = Ret 0 s'.
Proof. vm_compute. by eexists. Qed.

Lemma refused_buffer_enqueues_stale_witness :
  exists s' q', Msg.deliver (E := CoreLib.core_entropy 1000 0) (ret tt) 4 6 16 8 0 0 0 0 (Z.lor Sample.event MSG_PTRDATA) 0
                  (Sample.core (empty_mq 9 [1; 1; 1])) = Ret 0 s' /\ Msg.core_errno s' = EFAULT /\
    Msg.mqs s' !! 6 = Some q' /\ entries q' = [zero_msg].
Proof.
  apply (refused_buffer_enqueues_stale (E := CoreLib.core_entropy 1000 0) (ret tt) 4 6 16 8 0 0 0 0 (Z.lor Sample.event MSG_PTRDATA) 0
           (Sample.core (empty_mq 9 [1; 1; 1])) (empty_mq 9 [1; 1; 1])); try done.
  apply empty_mq_ok. unfold in_ring. lia.
Defined.

(** The pages a task is started with hold 63 messages; when these have been sent and
    received, the next place is on a page that is not there. *)
Lemma missing_page_reached :
  exists l s q, run (E := CoreLib.core_entropy 1000 0) (ret tt) 6
                  (List.concat (List.repeat [OpSend 4 Sample.event 1 0 0 0 0 0 0; OpRecv] 63)) (Sample.core (empty_mq 0 [1; 0; 0])) = Ret l s /\
    Msg.mqs s !! 6 = Some q /\ mq_start q = 64 /\ mq_end q = 64 /\ zget (pt q) (page_of (64 * SIZEOF_MSG)) = Some 0.
Proof. do 3 eexists. split; [vm_compute; reflexivity|]. split; [vm_compute; reflexivity|]. by vm_compute. Qed.

Lemma missing_page_loses_message_witness :
  let q := empty_mq 64 [1; 0; 0] in
  exists s' q', Msg.deliver (E := CoreLib.core_entropy 1000 0) (ret tt) 4 6 1 2 3 4 5 6 Sample.event 0 (Sample.core q) =
                  Ret (Z.lor (EVT_DEST 4) (next_serial (mq_serial q))) s' /\
    Msg.mqs s' !! 6 = Some q' /\ mq_start q' = 64 /\ mq_end q' = 1 /\
    zget (slots q') 1 = Some (letter 4 1 2 3 4 5 6 Sample.event 0 (next_serial (mq_serial q))) /\ recv 0 q' = UB.
Proof.
  intros q. apply (missing_page_loses_message (E := CoreLib.core_entropy 1000 0) (ret tt) 4 6 1 2 3 4 5 6 Sample.event 0
                     (Sample.core q) q 64 (Sample.ready_core q)).
  - reflexivity.
  - vm_compute. reflexivity.
  - by vm_compute.
  - reflexivity.
  - reflexivity.
  - exists 0. by vm_compute.
  - by vm_compute.
  - apply ready_awake.
Defined.

End MsgFacts.
