(* ===== verification/MsgBuf.v ===== *)
(** The buffer of a message: which pages of the sender are mapped behind the queue of the
    receiver, at which address, and what the counter of linked pages says. *)
From Stdlib Require Import ZArith Lia List.
From stdpp Require Import base option list gmap.
From S2P Require Import Prelude CoreState Pmm Sched SchedFacts Security CoreLib Msg MsgFacts.
Import Mq Msg MsgFacts.

Module MsgBuf.

(** The entries in use. *)
Definition used (l : list Z) : Z := zlen (List.filter (fun p => negb (p =? 0)) l).

Lemma used_app l k : used (l ++ k) = used l + used k.
Proof. unfold used. by rewrite List.filter_app, zlen_app. Qed.

Lemma used_zset l i e old :
  zget l i = Some old -> e <> 0 -> used (zset l i e) = used l + (if old =? 0 then 1 else 0).
Proof.
  intros Ho He. pose proof (zget_Some_lt _ _ _ Ho) as Hi. rewrite zget_nonneg in Ho by lia. rewrite zset_put by lia.
  rewrite <- (take_drop_middle l _ _ Ho) at 2. rewrite insert_take_drop by (by eapply lookup_lt_Some).
  rewrite !used_app, <- Z.add_assoc. f_equal. unfold used. simpl.
  destruct (Z.eqb_spec e 0); [done|]. simpl. destruct (Z.eqb_spec old 0); simpl; rewrite ?zlen_cons; lia.
Qed.

(** The entry of a page in the table of the receiver: the same page, for the user, read
    only, uncached and marked as shared. *)
Definition shared (e : Z) : Z := Z.lor (Z.land e 0xFFFFFFFFFFF000) (Z.lor 0x1d (Z.shiftl 1 11)).

Lemma shared_nonzero e : shared e <> 0.
Proof.
  unfold shared. intros H. apply (f_equal (fun x => Z.testbit x 0)) in H. rewrite Z.lor_spec in H.
  simpl in H. by rewrite orb_true_r in H.
Qed.

Section Buffers.
Context {E : Pmm.Entropy} (drivers_ready : M Sched.sched_state unit).

Lemma tcb_mod_run p f s t :
  Sched.tasks (sched s) !! p = Some t ->
  tcb_mod p f s = Ret tt (set_sched (Sched.set_tasks (<[p := f t]> (Sched.tasks (sched s))) (sched s)) s).
Proof.
  intros Ht. unfold tcb_mod, on_sched, on, Sched.tmod, Sched.tload, bind, get, modify. simpl.
  rewrite Ht. by destruct s, sched0.
Qed.

(** What mapping [n] pages does to the state: the entries from [i] on, and the counter by
    the entries that are newly in use, less those that were counted before. *)
Record mapped (s s' : core_t) (src dst v i n : Z) (q q' : mq_t) (t t' : tcb_t) : Prop := {
  mp_mqs : mqs s' = <[dst := q']> (mqs s);
  mp_task : Sched.tasks (sched s') !! dst = Some t';
  mp_vpages : vpages s' = vpages s;
  mp_errno : core_errno s' = core_errno s;
  mp_rest : q' = set_pt (pt q') q;
  mp_len : zlen (pt q') = zlen (pt q);
  mp_pages : forall m, 0 <= m < n -> exists e, vpages s !! (src, v + m) = Some e /\ zget (pt q') (i + m) = Some (shared e);
  mp_others : forall p, p < i \/ i + n <= p -> zget (pt q') p = zget (pt q) p;
  mp_count : u64 (linkmem t' + n) = u64 (linkmem t + used (pt q') - used (pt q));
}.

Lemma map_pages_step n src dst v i s q t old e :
  mqs s !! dst = Some q -> Sched.tasks (sched s) !! dst = Some t -> zget (pt q) i = Some old ->
  vpages s !! (src, v) = Some e ->
  exists s1 t1, map_pages (S n) src dst v i s = map_pages n src dst (v + 1) (i + 1) s1 /\
    mqs s1 = <[dst := set_pt (zset (pt q) i (shared e)) q]> (mqs s) /\
    Sched.tasks (sched s1) !! dst = Some t1 /\ vpages s1 = vpages s /\ core_errno s1 = core_errno s /\
    u64 (linkmem t1 + 1) = u64 (linkmem t + used (zset (pt q) i (shared e)) - used (pt q)).
Proof.
  intros Hq Ht Ho He. rewrite (used_zset _ _ _ _ Ho (shared_nonzero e)).
  set (q1 := set_pt (zset (pt q) i (shared e)) q).
  set (t1 := if old =? 0 then t else set_linkmem (u64 (linkmem t - 1)) t).
  set (s0 := if old =? 0 then s
             else set_sched (Sched.set_tasks (<[dst := t1]> (Sched.tasks (sched s))) (sched s)) s).
  assert (Hw : when (negb (old =? 0)) (tcb_mod dst (fun t => set_linkmem (u64 (linkmem t - 1)) t)) s = Ret tt s0).
  { unfold s0, t1. destruct (old =? 0); [done|]. simpl. by rewrite (tcb_mod_run _ _ _ _ Ht). }
  assert (H0 : mqs s0 = mqs s /\ vpages s0 = vpages s /\ core_errno s0 = core_errno s /\
               Sched.tasks (sched s0) !! dst = Some t1).
  { unfold s0, t1. destruct (old =? 0); [by split_and!|]. split_and!; try done. apply lookup_insert_eq. }
  destruct H0 as (Hm0 & Hv0 & He0 & Ht0).
  exists (set_mqs (<[dst := q1]> (mqs s0)) s0), t1. split.
  - simpl map_pages. unfold bind at 1, get at 1. rewrite Hq. unfold need at 1, bind at 1, ret at 1.
    rewrite Ho. unfold need at 1, bind at 1, ret at 1. rewrite (run_bind _ _ _ _ _ Hw). rewrite He.
    unfold need at 1, bind at 1, ret at 1.
    assert (Hq0 : mqs s0 !! dst = Some q) by (by rewrite Hm0).
    erewrite run_bind; [done|]. by apply (on_mq_run dst _ s0 q tt q1).
  - split; [simpl; by rewrite Hm0|]. split; [done|]. split; [done|]. split; [done|].
    unfold t1. destruct (old =? 0); [f_equal; lia|]. simpl. rewrite u64_u64_add. f_equal. lia.
Qed.

Lemma map_pages_ok n src dst v i s q t :
  mqs s !! dst = Some q -> Sched.tasks (sched s) !! dst = Some t ->
  (forall m, 0 <= m < Z.of_nat n -> is_Some (vpages s !! (src, v + m))) ->
  0 <= i -> i + Z.of_nat n <= zlen (pt q) ->
  exists s' q' t', map_pages n src dst v i s = Ret tt s' /\ mapped s s' src dst v i (Z.of_nat n) q q' t t'.
Proof.
  revert v i s q t. induction n as [|n IH]; intros v i s q t Hq Ht Hv Hi Hlen.
  - exists s, q, t. split; [done|]. split; try done; [by rewrite insert_id|by destruct q|lia|].
    f_equal. simpl. lia.
  - destruct (zget_is_Some (pt q) i) as [old Ho]; [lia|].
    destruct (Hv 0) as [e He]; [lia|]. rewrite Z.add_0_r in He.
    destruct (map_pages_step n src dst v i s q t old e Hq Ht Ho He) as (s1 & t1 & -> & Hm1 & Ht1 & Hv1 & He1 & Hc1).
    set (q1 := set_pt _ q) in *.
    destruct (IH (v + 1) (i + 1) s1 q1 t1) as (s' & q' & t' & -> & []).
    { by rewrite Hm1, lookup_insert_eq. } { done. }
    { intros m Hm. rewrite Hv1. replace (v + 1 + m) with (v + (m + 1)) by lia. apply Hv. lia. }
    { lia. } { unfold q1. simpl. rewrite zlen_zset. lia. }
    exists s', q', t'. split; [done|]. split.
    + by rewrite mp_mqs0, Hm1, insert_insert_eq.
    + done.
    + congruence.
    + congruence.
    + rewrite mp_rest0. done.
    + rewrite mp_len0. apply zlen_zset.
    + intros m Hm. destruct (Z.eq_dec m 0) as [->|Hne].
      * exists e. rewrite !Z.add_0_r. split; [done|]. rewrite mp_others0 by lia. apply zget_zset_eq. lia.
      * destruct (mp_pages0 (m - 1)) as (e' & He' & Hg); [lia|]. exists e'.
        replace (v + 1 + (m - 1)) with (v + m) in He' by lia. replace (i + 1 + (m - 1)) with (i + m) in Hg by lia.
        by rewrite <- Hv1.
    + intros p Hp. rewrite mp_others0 by lia. unfold q1. simpl. apply zget_zset_ne. lia.
    + replace (linkmem t' + Z.of_nat (S n)) with (linkmem t' + Z.of_nat n + 1) by lia.
      rewrite <- u64_u64_add, mp_count0, u64_u64_add.
      replace (linkmem t1 + used (pt q') - used (pt q1) + 1) with (linkmem t1 + 1 + (used (pt q') - used (pt q1))) by lia.
      rewrite <- u64_u64_add, Hc1, u64_u64_add. f_equal. unfold q1. simpl. lia.
Qed.

(** Entries behind the end of the table. *)
Lemma map_pages_behind n src dst v i s q t :
  mqs s !! dst = Some q -> Sched.tasks (sched s) !! dst = Some t ->
  (forall m, 0 <= m < Z.of_nat n -> is_Some (vpages s !! (src, v + m))) ->
  0 <= i <= zlen (pt q) -> zlen (pt q) < i + Z.of_nat n -> map_pages n src dst v i s = UB.
Proof.
  revert v i s q t. induction n as [|n IH]; intros v i s q t Hq Ht Hv Hi Hlen; [lia|].
  destruct (Z.eq_dec i (zlen (pt q))) as [->|Hne].
  - simpl. unfold bind at 1, get at 1. rewrite Hq. unfold need at 1, bind at 1, ret at 1.
    destruct (zget (pt q) (zlen (pt q))) eqn:Hz; [|done]. apply zget_Some_lt in Hz. lia.
  - destruct (zget_is_Some (pt q) i) as [old Ho]; [lia|]. destruct (Hv 0) as [e He]; [lia|]. rewrite Z.add_0_r in He.
    destruct (map_pages_step n src dst v i s q t old e Hq Ht Ho He) as (s1 & t1 & -> & Hm1 & Ht1 & Hv1 & _).
    eapply (IH (v + 1) (i + 1)); [by rewrite Hm1, lookup_insert_eq|done| |simpl; rewrite zlen_zset; lia|simpl; rewrite zlen_zset; lia].
    intros m Hm. rewrite Hv1. replace (v + 1 + m) with (v + (m + 1)) by lia. apply Hv. lia.
Qed.

(** The pages of a buffer, and the entry its first page gets. *)
Definition pages_of (a b : Z) : Z := (a + b + 4095) / 4096 - a / 4096.
Definition fixed (q : mq_t) : mq_t :=
  let q := if mq_bufstart q <? MQ_BUF then set_mq_bufstart MQ_BUF q else q in
  if mq_bufend q <? MQ_BUF then set_mq_bufend MQ_BUF q else q.
Definition first_page (q : mq_t) (b : Z) : Z :=
  let i := Z.shiftr (if u64 (mq_bufend (fixed q) + b) <? SLOTSIZE then mq_bufend (fixed q) else MQ_BUF) PAGEBITS in
  if i <? 2 then 2 else i.
Definition moved (q : mq_t) (a b : Z) : Z := first_page q b * 4096 + a mod 4096.

(** What makes a buffer acceptable: it lies below the shared memory and fits. *)
Record may_map (q : mq_t) (a b : Z) : Prop := {
  mm_address : TEXT_ADDRESS <= a < BUF_ADDRESS;
  mm_size : 0 < b <= BUFFSIZE;
  mm_room : u64 (mq_bufend (fixed q) + b) <= SLOTSIZE \/ u64 (MQ_BUF + b) <= mq_bufstart (fixed q);
}.

(** Whether the last page, rounded up, is in another 2M slot of the sender. *)
Definition crosses (a b : Z) : Prop := SLOTSIZE <= a mod SLOTSIZE + b + 4095.

Lemma page_index a : 0 <= a -> Z.land (Z.shiftr a PAGEBITS) 511 = (a / 4096) mod 512.
Proof.
  intros ?. change 511 with (Z.ones 9). rewrite Z.land_ones by lia. by rewrite Z.shiftr_div_pow2.
Qed.

Lemma page_span a b : 0 <= a -> 0 <= b -> ~ crosses a b ->
  ((a + b + 4095) / 4096) mod 512 - (a / 4096) mod 512 = pages_of a b.
Proof. unfold crosses, pages_of, SLOTSIZE. intros. Z.to_euclidean_division_equations. lia. Qed.
Lemma page_span_crossing a b : 0 <= a -> 0 < b <= BUFFSIZE -> crosses a b ->
  ((a + b + 4095) / 4096) mod 512 - (a / 4096) mod 512 = pages_of a b - 512 /\ pages_of a b - 512 < 0.
Proof. unfold crosses, pages_of, SLOTSIZE, BUFFSIZE. intros. Z.to_euclidean_division_equations. lia. Qed.

Lemma shiftl_page i x : Z.shiftl i PAGEBITS + Z.land x (PAGESIZE - 1) = i * 4096 + x mod 4096.
Proof.
  change (PAGESIZE - 1) with (Z.ones 12). rewrite Z.land_ones by lia.
  by rewrite Z.shiftl_mul_pow2.
Qed.

(** An acceptable buffer: the place is reserved, the pages counted and then mapped. *)
Lemma map_buffer_run src dst a b s q t :
  mqs s !! dst = Some q -> Sched.tasks (sched s) !! dst = Some t -> may_map q a b ->
  let n := ((a + b + 4095) / 4096) mod 512 - (a / 4096) mod 512 in
  exists s1, map_buffer src dst a b s =
      (map_pages (Z.to_nat n) src dst (a / 4096) (first_page q b) ;;; ret (Some (moved q a b))) s1 /\
    mqs s1 = <[dst := set_mq_bufend (page_up (moved q a b + b)) (fixed q)]> (mqs s) /\
    Sched.tasks (sched s1) !! dst = Some (set_linkmem (u64 (linkmem t + n)) t) /\
    vpages s1 = vpages s /\ core_errno s1 = core_errno s.
Proof.
  intros Hq Ht [[Ha1 Ha2] Hb Hr] n. pose proof (eq_refl TEXT_ADDRESS : TEXT_ADDRESS = 4194304) as HT.
  set (s0 := set_mqs (<[dst := fixed q]> (mqs s)) s).
  set (s2 := set_mqs (<[dst := set_mq_bufend (page_up (moved q a b + b)) (fixed q)]> (mqs s)) s).
  exists (set_sched (Sched.set_tasks (<[dst := set_linkmem (u64 (linkmem t + n)) t]> (Sched.tasks (sched s2))) (sched s2)) s2).
  split; [|split; [done|split; [apply lookup_insert_eq|done]]].
  assert (HB : BUF_ADDRESS = 545460846592) by done. assert (HL : u64 LDYN_ADDRESS = LDYN_ADDRESS) by done.
  assert (HL' : LDYN_ADDRESS = 18446744071562067968) by done.
  unfold map_buffer. destruct (Z.ltb_spec a TEXT_ADDRESS); [lia|]. destruct (Z.leb_spec BUF_ADDRESS a); [lia|].
  rewrite HL. destruct (Z.leb_spec LDYN_ADDRESS a); [lia|]. cbn beta iota delta [orb andb].
  rewrite (run_bind _ _ _ _ s0 (on_mq_run dst _ s q tt (fixed q) Hq eq_refl)).
  rewrite (run_bind _ _ _ _ _ (on_mq_get dst s0 (fixed q) (lookup_insert_eq _ _ _))).
  destruct (Z.ltb_spec BUFFSIZE b); [lia|].
  assert (Hroom : (SLOTSIZE <? u64 (mq_bufend (fixed q) + b)) && (mq_bufstart (fixed q) <? u64 (MQ_BUF + b)) = false).
  { apply andb_false_iff. rewrite !Z.ltb_ge. lia. }
  rewrite Hroom. cbn beta iota delta [orb]. fold (first_page q b).
  rewrite shiftl_page. fold (moved q a b).
  replace (a + b + PAGESIZE - 1) with (a + b + 4095) by (unfold PAGESIZE; lia). rewrite !page_index by lia. fold n.
  assert (Hins : forall (x : mq_t), <[dst := x]> (mqs s0) = <[dst := x]> (mqs s)) by (intros; unfold s0; simpl; apply insert_insert_eq).
  erewrite (run_bind _ _ s0 tt s2).
  2:{ erewrite (on_mq_run dst _ s0 (fixed q)); [|apply lookup_insert_eq|done]. unfold s2. by rewrite Hins. }
  rewrite (run_bind _ _ _ _ _ (tcb_mod_run dst _ s2 t Ht)).
  by rewrite Z.shiftr_div_pow2.
Qed.

Lemma moved_page q a b o : 0 <= a -> 0 <= o -> (moved q a b + o) / 4096 = first_page q b + ((a + o) / 4096 - a / 4096).
Proof. unfold moved. intros. Z.to_euclidean_division_equations. lia. Qed.

(** C28: a buffer is mapped behind the queue: each of its bytes is on a page of the receiver
    that is the sender's page, at the same place in it; the other entries stay, and the
    counter of linked pages follows the entries in use.  This is for a buffer that the checks
    of the code let through ([may_map]), whose end, rounded up to a page, is within the 2M
    slot of its start, and whose pages, those that it only touches included, end within the
    page table of the receiver: the check of the code leaves out where in its page the
    buffer starts, so it does not imply this ([buffer_behind_table]). *)
Theorem map_buffer_ok src dst a b s q t :
  mqs s !! dst = Some q -> Sched.tasks (sched s) !! dst = Some t -> may_map q a b -> ~ crosses a b ->
  first_page q b + pages_of a b <= zlen (pt q) ->
  (forall m, 0 <= m < pages_of a b -> is_Some (vpages s !! (src, a / 4096 + m))) ->
  exists a' s' q' t', map_buffer src dst a b s = Ret (Some a') s' /\
    mqs s' = <[dst := q']> (mqs s) /\ Sched.tasks (sched s') !! dst = Some t' /\
    a' mod 4096 = a mod 4096 /\
    (forall o, 0 <= o < b -> exists e, vpages s !! (src, (a + o) / 4096) = Some e /\
                                       zget (pt q') ((a' + o) / 4096) = Some (shared e)) /\
    (forall p, p < first_page q b \/ first_page q b + pages_of a b <= p -> zget (pt q') p = zget (pt q) p) /\
    slots q' = slots q /\ mq_start q' = mq_start q /\ mq_end q' = mq_end q /\ core_errno s' = core_errno s /\
    u64 (linkmem t') = u64 (linkmem t + used (pt q') - used (pt q)).
Proof.
  intros Hq Ht Hm Hc Hlen Hv. destruct (map_buffer_run src dst a b s q t Hq Ht Hm) as (s1 & -> & Hq1 & Ht1 & Hv1 & He1).
  pose proof Hm as [[Ha _] [Hb _] _]. pose proof (eq_refl TEXT_ADDRESS : TEXT_ADDRESS = 4194304) as HT.
  rewrite page_span in * by (done || lia).
  assert (Hn : 0 <= pages_of a b) by (unfold pages_of; Z.to_euclidean_division_equations; lia).
  assert (Hi : 0 <= first_page q b) by (unfold first_page; cbv zeta; destruct (Z.ltb_spec (Z.shiftr (if u64 (mq_bufend (fixed q) + b) <? SLOTSIZE then mq_bufend (fixed q) else MQ_BUF) PAGEBITS) 2); lia).
  set (q1 := set_mq_bufend _ (fixed q)) in *.
  assert (Hf : pt (fixed q) = pt q /\ slots (fixed q) = slots q /\ mq_start (fixed q) = mq_start q /\ mq_end (fixed q) = mq_end q).
  { unfold fixed. destruct (mq_bufstart q <? MQ_BUF); simpl; destruct (mq_bufend _ <? MQ_BUF); done. }
  destruct Hf as (Hpt & Hsl & Hst & Hen).
  assert (Hpt1 : pt q1 = pt q) by done.
  destruct (map_pages_ok (Z.to_nat (pages_of a b)) src dst (a / 4096) (first_page q b) s1 q1 _
             ltac:(by rewrite Hq1, lookup_insert_eq) Ht1)
    as (s' & q' & t' & Hrun & []); [rewrite Z2Nat.id, Hv1 by done; done|done|rewrite Hpt1; lia|].
  rewrite (run_bind _ _ _ _ _ Hrun). rewrite Z2Nat.id in * by done.
  exists (moved q a b), s', q', t'. split; [done|]. rewrite Hpt1 in *.
  split; [by rewrite mp_mqs0, Hq1, insert_insert_eq|]. split; [done|].
  split; [unfold moved; Z.to_euclidean_division_equations; lia|].
  split.
  { intros o Ho. rewrite moved_page by lia.
    destruct (mp_pages0 ((a + o) / 4096 - a / 4096)) as (e & He & Hg).
    { unfold pages_of. Z.to_euclidean_division_equations. lia. }
    exists e. rewrite <- Hv1. split; [|done]. rewrite <- He. do 2 f_equal. lia. }
  split; [done|]. rewrite mp_rest0. split; [done|]. split; [done|]. split; [done|]. split; [congruence|].
  simpl in mp_count0. change (pt (set_pt (pt q') q1)) with (pt q').
  replace (linkmem t') with (linkmem t' + pages_of a b + - pages_of a b) by lia.
  rewrite <- u64_u64_add, mp_count0, u64_u64_add.
  replace (u64 (linkmem t + pages_of a b) + used (pt q') - used (pt q) + - pages_of a b)
    with (u64 (linkmem t + pages_of a b) + (used (pt q') - used (pt q) - pages_of a b)) by lia.
  rewrite u64_u64_add. f_equal. lia.
Qed.

(** A buffer that the checks let through, but whose last page would be behind the last entry
    of the page table: the code writes there. *)
Theorem buffer_behind_table src dst a b s q t :
  mqs s !! dst = Some q -> Sched.tasks (sched s) !! dst = Some t -> may_map q a b -> ~ crosses a b ->
  first_page q b <= zlen (pt q) < first_page q b + pages_of a b ->
  (forall m, 0 <= m < pages_of a b -> is_Some (vpages s !! (src, a / 4096 + m))) ->
  map_buffer src dst a b s = UB.
Proof.
  intros Hq Ht Hm Hc Hlen Hv. destruct (map_buffer_run src dst a b s q t Hq Ht Hm) as (s1 & -> & Hq1 & Ht1 & Hv1 & _).
  pose proof Hm as [[Ha _] [Hb _] _]. pose proof (eq_refl TEXT_ADDRESS : TEXT_ADDRESS = 4194304) as HT.
  rewrite page_span in * by (done || lia).
  assert (Hn : 0 <= pages_of a b) by (unfold pages_of; Z.to_euclidean_division_equations; lia).
  assert (Hi : 0 <= first_page q b) by (unfold first_page; cbv zeta; destruct (Z.ltb_spec (Z.shiftr (if u64 (mq_bufend (fixed q) + b) <? SLOTSIZE then mq_bufend (fixed q) else MQ_BUF) PAGEBITS) 2); lia).
  assert (Hpt : pt (fixed q) = pt q) by (unfold fixed; destruct (mq_bufstart q <? MQ_BUF); simpl; destruct (mq_bufend _ <? MQ_BUF); done).
  unfold bind. erewrite map_pages_behind; [done|by rewrite Hq1, lookup_insert_eq|exact Ht1| |simpl; rewrite Hpt; lia|simpl; rewrite Hpt, Z2Nat.id; lia].
  rewrite Z2Nat.id, Hv1 by done. done.
Qed.

(** a buffer that crosses a 2M boundary of its sender is not mapped at all: the
    message carries an address with nothing behind it, and the counter of linked pages
    goes down, by 512 less the pages of the buffer. *)
Theorem crossing_buffer_not_mapped src dst a b s q t :
  mqs s !! dst = Some q -> Sched.tasks (sched s) !! dst = Some t -> may_map q a b -> crosses a b ->
  exists s' q', map_buffer src dst a b s = Ret (Some (moved q a b)) s' /\
    mqs s' = <[dst := q']> (mqs s) /\ pt q' = pt q /\
    linkmem <$> Sched.tasks (sched s') !! dst = Some (u64 (linkmem t - (512 - pages_of a b))) /\ pages_of a b < 512.
Proof.
  intros Hq Ht Hm Hc. destruct (map_buffer_run src dst a b s q t Hq Ht Hm) as (s1 & -> & Hq1 & Ht1 & _).
  pose proof Hm as [[Ha _] Hb _]. pose proof (eq_refl TEXT_ADDRESS : TEXT_ADDRESS = 4194304) as HT.
  destruct (page_span_crossing a b) as [Hn Hneg]; [lia|lia|done|]. rewrite Hn in *.
  rewrite Z2Nat.nonpos by lia. exists s1, (set_mq_bufend (page_up (moved q a b + b)) (fixed q)).
  split; [done|]. split; [done|]. split.
  { unfold fixed. destruct (mq_bufstart q <? MQ_BUF); simpl; destruct (mq_bufend _ <? MQ_BUF); done. }
  split; [|lia]. rewrite Ht1. simpl. do 2 f_equal. lia.
Qed.

End Buffers.
(** Two pages at 0x400ff0, mapped behind the queue as its first buffer. *)
Definition sender_pages : core_t :=
  set_vpages (<[(4, 0x400) := 0x7003]> {[(4, 0x401) := 0x9003]}) (MsgFacts.Sample.core (empty_mq 5 [1; 1; 1])).

Lemma map_buffer_ok_witness :
  let q := empty_mq 5 [1; 1; 1] in
  exists a' s' q' t', map_buffer 4 6 0x400ff0 0x100 sender_pages = Ret (Some a') s' /\
    mqs s' = <[6 := q']> (mqs sender_pages) /\ Sched.tasks (sched s') !! 6 = Some t' /\
    a' mod 4096 = 0x400ff0 mod 4096 /\
    (forall o, 0 <= o < 0x100 -> exists e, vpages sender_pages !! (4, (0x400ff0 + o) / 4096) = Some e /\
                                           zget (pt q') ((a' + o) / 4096) = Some (shared e)) /\
    (forall p, p < first_page q 0x100 \/ first_page q 0x100 + pages_of 0x400ff0 0x100 <= p -> zget (pt q') p = zget (pt q) p) /\
    slots q' = slots q /\ mq_start q' = mq_start q /\ mq_end q' = mq_end q /\ core_errno s' = core_errno sender_pages /\
    u64 (linkmem t') = u64 (linkmem (SchedFacts.Sample.task 6 5 TCB_STATE_BLOCKED) + used (pt q') - used (pt q)).
Proof.
  intros q. apply map_buffer_ok; [reflexivity|reflexivity| | | |].
  - split; [vm_compute; split; [intros [=]|reflexivity]|vm_compute; split; [reflexivity|intros [=]]|left; vm_compute; intros [=]].
  - vm_compute. intros H. by apply H.
  - vm_compute. intros [=].
  - intros m Hm. change (pages_of 0x400ff0 0x100) with 2 in Hm.
    assert (m = 0 \/ m = 1) as [->| ->] by lia; vm_compute; by eexists.
Defined.

(** The buffer of 256 bytes behind one that ends a page before the end of the slot: 16 bytes
    of it are on the last page of the table, the others behind it. *)
Example behind_table :
  let q := set_mq_bufend (SLOTSIZE - 4096) (empty_mq 5 [1; 1; 1]) in
  map_buffer 4 6 0x400ff0 0x100 (set_mqs (<[6 := q]> (mqs sender_pages)) sender_pages) = UB.
Proof.
  intros q. eapply buffer_behind_table; [apply lookup_insert_eq|reflexivity| | | |].
  - split; [vm_compute; split; [intros [=]|reflexivity]|vm_compute; split; [reflexivity|intros [=]]|left; vm_compute; intros [=]].
  - vm_compute. intros H. by apply H.
  - vm_compute. split; [intros [=]|done].
  - intros m Hm. change (pages_of 0x400ff0 0x100) with 2 in Hm.
    assert (m = 0 \/ m = 1) as [->| ->] by lia; vm_compute; by eexists.
Qed.

Lemma crossing_buffer_not_mapped_witness :
  let q := empty_mq 5 [1; 1; 1] in
  exists s' q', map_buffer 4 6 0x5fff00 0x200 (MsgFacts.Sample.core q) = Ret (Some (moved q 0x5fff00 0x200)) s' /\
    mqs s' = <[6 := q']> (mqs (MsgFacts.Sample.core q)) /\ pt q' = pt q /\
    linkmem <$> Sched.tasks (sched s') !! 6 =
      Some (u64 (linkmem (SchedFacts.Sample.task 6 5 TCB_STATE_BLOCKED) - (512 - pages_of 0x5fff00 0x200))) /\
    pages_of 0x5fff00 0x200 < 512.
Proof.
  intros q. apply crossing_buffer_not_mapped; [reflexivity|reflexivity| |].
  - split; [vm_compute; split; [intros [=]|reflexivity]|vm_compute; split; [reflexivity|intros [=]]|left; vm_compute; intros [=]].
  - vm_compute. intros [=].
Defined.

End MsgBuf.
