(* ===== verification/Initrd.v ===== *)
(** Files of the initial ram disk, src/core/fs.c: the core's own reader of FS/Z images,
    which it uses before the FS task runs, on the disk format of include/osZ/fsZ.h. *)
From Stdlib Require Import ZArith Lia List.
From stdpp Require Import base option list.
From S2P Require Import Prelude CoreState.

Module Initrd.

(** ** include/osZ/fsZ.h *)
Definition FSZ_MAGIC : list Z := [70; 83; 47; 90].
Definition FSZ_IN_MAGIC : list Z := [70; 83; 73; 78].
Definition FSZ_DIR_MAGIC : list Z := [70; 83; 68; 82].
Definition FSZ_FILETYPE_UNION : list Z := [117; 110; 105; 58].
Definition FSZ_FILETYPE_SYMLINK : list Z := [108; 110; 107; 58].
Definition FSZ_SB_FLAG_BIGINODE : Z := 1.
Definition FSZ_FLAG_TRANSLATION (x : Z) : Z := u8 x.
Definition FSZ_IN_FLAG_INLINE : Z := 0xFF.
Definition FSZ_IN_FLAG_DIRECT : Z := 0.
Definition FSZ_IN_FLAG_SDINLINE : Z := 0x7F.
Definition FSZ_IN_FLAG_SD : Z := 1.
Definition FSZ_IN_FLAG_SECLIST : Z := 0x80.
Definition FSZ_IN_FLAG_SECLIST0 : Z := 0x81.
Definition SIZEOF_DIRENT : Z := 128.

(** Exit code of the panic about an image that is too complex. *)
Definition PANIC_complex : Z := 4.

Record fs_t : Type := mk_fs {
  fs_size : Z;
  sys_fid : Z;
  fs_errno : Z; (* the error code of the core *)
}.
#[export] Instance eta_fs_t : Eta fs_t := fun s => mk_fs (fs_size s) (sys_fid s) (fs_errno s).
Definition set_fs_size (v : Z) (s : fs_t) : fs_t := s <| fs_size := v |>.
Definition set_sys_fid (v : Z) (s : fs_t) : fs_t := s <| sys_fid := v |>.
Definition set_fs_errno (v : Z) (s : fs_t) : fs_t := s <| fs_errno := v |>.

(** [fs_locate] looks for "/" and the signs behind which a file name ends. *)
Definition SLASH : Z := 47.
Definition COLON : Z := 58.
Definition SEMI : Z := 59.
Definition HASH : Z := 35.
Definition MINUS : Z := 45.
Definition root_ : list Z := [114; 111; 111; 116; 58].
Definition sys_ : list Z := [115; 121; 115; 47].
(** The characters of a name; [char] is signed. *)
Definition name_char (c : Z) : bool :=
  negb (c =? SLASH) && negb (c =? COLON) && negb (c =? SEMI) && negb (c =? HASH) && (32 <=? c) && (c <? 128).

(** A file name: a string of the caller, or text in the image. *)
Inductive path : Type := Str (s : list Z) | At (o : Z).

Section Image.
(** The bytes of the image, from the superblock on. *)
Context (img : Z -> option Z).

Definition byte (o : Z) : M fs_t Z := need (img o).
(** An unsigned number of [n] bytes. *)
Fixpoint word (n : nat) (o : Z) : M fs_t Z :=
  match n with
  | O => ret 0
  | S n' => b <-- byte o ;; r <-- word n' (o + 1) ;; ret (b + 256 * r)
  end.

(** The character [i] of a name; one behind the terminator is not to be read. *)
Definition chr (p : path) (i : Z) : M fs_t Z :=
  match p with
  | Str s => if i =? zlen s then ret 0 else need (zget s i)
  | At o => byte (o + i)
  end.

(** [memcmp] says equal. *)
Fixpoint same (a b : Z -> M fs_t Z) (i : Z) (n : nat) : M fs_t bool :=
  match n with
  | O => ret true
  | S n' => x <-- a i ;; y <-- b i ;; if x =? y then same a b (i + 1) n' else ret false
  end.
Definition text (l : list Z) : Z -> M fs_t Z := fun i => need (zget l i).
Definition image (o : Z) : Z -> M fs_t Z := fun i => byte (o + i).
Definition reads (o : Z) (l : list Z) : M fs_t bool := same (image o) (text l) 0 (length l).

(** The superblock *)
Definition sb_magic : M fs_t bool := reads 512 FSZ_MAGIC.
Definition sb_flags : M fs_t Z := word 1 518.
Definition sb_logsec : M fs_t Z := word 2 520.
Definition sb_rootdirfid : M fs_t Z := word 8 560.

(** The inode at [o]; version 0 is the current one. *)
Definition in_magic (o : Z) : M fs_t bool := reads o FSZ_IN_MAGIC.
Definition in_filetype (o : Z) (l : list Z) : M fs_t bool := reads (o + 8) l.
Definition version_at (o v : Z) : Z := o + 448 - 64 * v.
Definition in_sec (o v : Z) : M fs_t Z := word 8 (version_at o v).
Definition in_size (o v : Z) : M fs_t Z := word 8 (version_at o v + 16).
Definition in_flags (o v : Z) : M fs_t Z := word 8 (version_at o v + 40).
Definition inlinedata (o : Z) : M fs_t Z :=
  f <-- sb_flags ;; ret (o + if has f FSZ_SB_FLAG_BIGINODE then 2048 else 1024).

(** Directories *)
Definition dir_numentries (o : Z) : M fs_t Z := word 8 (o + 16).
Definition ent_fid (o : Z) : M fs_t Z := word 8 o.
Definition ent_name (o : Z) : Z := o + 17.

(** ** [fs_locate] *)

(** [1<<(sb->logsec+11)], an [int]. *)
Definition sector_size : M fs_t Z := l <-- sb_logsec ;; if 20 <=? l then ub else ret (Z.shiftl 1 (l + 11)).
Definition sector (ss n : Z) : Z := u64 (n * ss).

(** Behind the name that starts at [e], and behind a slash. *)
Definition member_end (fuel : nat) (fn : path) (e : Z) : M fs_t Z :=
  e <-- iter fuel (fun e => c <-- chr fn e ;; ret (if name_char c then inl (e + 1) else inr e)) e ;;
  c <-- chr fn e ;; ret (if c =? SLASH then e + 1 else e).

(** What the entries say: the file, another directory to go on with, or nothing. *)
Inductive found : Type := File (fid : Z) | Dir (fid : Z) | Nothing.

(** One entry at [ent], with [j] left to look at. *)
Definition entry_round (fn : path) (s e : Z) : Z * Z -> M fs_t (Z * Z + found) := fun '(j, ent) =>
  if negb (0 <? j) then ret (inr Nothing) else
  f <-- gets sys_fid ;;
  when (f =? 0) (b <-- reads (ent_name ent) sys_ ;; when b (fid <-- ent_fid ent ;; modify (set_sys_fid fid))) ;;;
  b <-- same (image (ent_name ent)) (fun i => chr fn (s + i)) 0 (Z.to_nat (e - s)) ;;
  if (b : bool) then
    fid <-- ent_fid ent ;;
    c <-- chr fn (e - 1) ;;
    ret (inr (if c =? SLASH then Dir fid else File fid))
  else ret (inl (j - 1, ent + SIZEOF_DIRENT)).
Definition entries (fn : path) (s e : Z) (dir : Z) : M fs_t found :=
  n <-- dir_numentries dir ;;
  iter (Z.to_nat (s32 n) + 1) (entry_round fn s e) (s32 n, dir + SIZEOF_DIRENT).

(** The directory in an inode. *)
Definition directory (ss in_ : Z) : M fs_t (option Z) :=
  inl_ <-- inlinedata in_ ;;
  b <-- reads inl_ FSZ_DIR_MAGIC ;;
  if (b : bool) then ret (Some inl_) else
  sec <-- in_sec in_ 0 ;;
  b <-- reads (sector ss sec) FSZ_DIR_MAGIC ;;
  ret (if (b : bool) then Some (sector ss sec) else None).

(** A name, where it starts and the jumps that are left; the inode to look in and the member
    of the name. *)
Record look_t : Type := mk_look { l_fn : path; l_start : Z; l_r : Z; l_in : Z; l_s : Z; l_e : Z }.

(** From the label [pathagain] on. *)
Definition start (ss : Z) (fn : path) (i r : Z) : M fs_t look_t :=
  fid <-- sb_rootdirfid ;;
  b <-- same (fun k => chr fn (i + k)) (text root_) 0 5 ;;
  let i := if (b : bool) then i + 5 else i in
  c <-- chr fn i ;;
  let i := if c =? SLASH then i + 1 else i in
  ret (mk_look fn i r (sector ss fid) i i).

(** From the label [again] on: the file and where its name ends, or the next member. *)
Definition look (fuel : nat) (ss : Z) (l : look_t) : M fs_t (look_t + option (path * Z * Z)) :=
  let '(mk_look fn i r in_ s e) := l in
  e <-- member_end fuel fn e ;;
  m <-- in_magic in_ ;;
  if negb (m : bool) then ret (inr None) else
  d <-- directory ss in_ ;;
  match d with
  | Some d =>
      f <-- entries fn s e d ;;
      match f with
      | File fid => ret (inr (Some (fn, e, fid)))
      | Dir fid => ret (inl (mk_look fn i r (sector ss fid) e e))
      | Nothing => ret (inr None)
      end
  | None =>
      lnk <-- in_filetype in_ FSZ_FILETYPE_SYMLINK ;;
      if (lnk : bool) then
        o <-- inlinedata in_ ;;
        if r - 1 =? 0 then stop PANIC_complex else l <-- start ss (At o) 0 (r - 1) ;; ret (inl l)
      else
        f <-- gets sys_fid ;;
        uni <-- (if f =? 0 then ret false else in_filetype in_ FSZ_FILETYPE_UNION) ;;
        if (uni : bool) then
          (* on with the whole name, from its start *)
          if r - 1 =? 0 then stop PANIC_complex else ret (inl (mk_look fn i (r - 1) (sector ss f) i i))
        else stop PANIC_complex
  end.

(** The version behind a semicolon, and the place behind it; none for the current one. *)
Definition version (fn : path) (e : Z) : M fs_t (option Z * Z) :=
  c <-- chr fn e ;;
  if negb (c =? SEMI) then ret (None, e) else
  c <-- chr fn (e + 1) ;;
  let e := if c =? MINUS then e + 2 else e + 1 in
  c <-- chr fn e ;;
  ret (if (49 <=? c) && (c <=? 53) then Some (c - 48) else None, e + 1).

(** The place of the file's data. *)
Definition content (ss : Z) (fn : path) (e fid : Z) : M fs_t (option Z) :=
  let in_ := sector ss fid in
  m <-- in_magic in_ ;;
  if negb (m : bool) then ret None else
  do2 v e <-- version fn e ;;
  do2 j sec <-- (match v with
                 | Some v => n <-- in_size in_ v ;; modify (set_fs_size n) ;;;
                             j <-- in_flags in_ v ;; s <-- in_sec in_ v ;; ret (s32 j, s)
                 | None => ret (0, 0)
                 end) ;;
  c <-- chr fn e ;;
  if c =? HASH then stop PANIC_complex else
  do2 j sec <-- (if sec =? 0 then
                   n <-- in_size in_ 0 ;; modify (set_fs_size n) ;;;
                   j <-- in_flags in_ 0 ;; s <-- in_sec in_ 0 ;; ret (s32 j, s)
                 else ret (j, sec)) ;;
  let t := FSZ_FLAG_TRANSLATION j in
  if t =? FSZ_IN_FLAG_INLINE then o <-- inlinedata in_ ;; ret (Some o)
  else if (t =? FSZ_IN_FLAG_SECLIST) || (t =? FSZ_IN_FLAG_SDINLINE) then
    o <-- inlinedata in_ ;; n <-- word 8 o ;; ret (Some (sector ss n))
  else if t =? FSZ_IN_FLAG_DIRECT then n <-- in_sec in_ 0 ;; ret (Some (sector ss n))
  else if (t =? FSZ_IN_FLAG_SECLIST0) || (t =? FSZ_IN_FLAG_SD) then
    n <-- word 4 (sector ss sec) ;; ret (Some (sector ss n))
  else stop PANIC_complex.

(** The place of a file's data in the image; its size is in [fs_size].  [fuel] bounds the
    length of the members and the number of steps. *)
Definition fs_locate (fuel : nat) (fn : option (list Z)) : M fs_t (option Z) :=
  modify (set_fs_size 0) ;;;
  let fails e := modify (set_fs_errno e) ;;; ret None in
  match fn with
  | None => fails EINVAL
  | Some fn =>
      if (default 0 (zget fn 0) =? 0) || (default 0 (zget fn 1) =? 0) then fails EINVAL else
      m <-- sb_magic ;;
      if negb (m : bool) then fails EINVAL else
      ss <-- sector_size ;;
      l <-- start ss (Str fn) 0 64 ;;
      r <-- iter fuel (look fuel ss) l ;;
      match r with
      | Some (fn, e, fid) =>
          if fid =? 0 then fails ENOENT else
          o <-- content ss fn e fid ;;
          match o with Some o => ret (Some o) | None => fails ENOENT end
      | None => fails ENOENT
      end
  end.

End Image.
End Initrd.
