(* ===== verification/InitrdFacts.v ===== *)
(** The initial ram disk: a name whose members stand in the directories of the image is
    located, and the core finds where the data of the file is. *)
From Stdlib Require Import ZArith Lia List.
From stdpp Require Import base option list.
From S2P Require Import Prelude Bytes CoreState Initrd.
Import Initrd.

Module InitrdFacts.

(** ** Comparing *)

(** What [a] reads from [i] on. *)
Definition gives (a : Z -> M fs_t Z) (i : Z) (l : list Z) : Prop := forall k x, l !! k = Some x -> a (i + Z.of_nat k) = ret x.

Lemma gives_cons a i x l : gives a i (x :: l) -> a i = ret x /\ gives a (i + 1) l.
Proof.
  intros H. split; [rewrite <- (H 0%nat x eq_refl); f_equal; lia|].
  intros k y Hy. rewrite <- (H (S k) y Hy). f_equal; lia.
Qed.

Lemma same_eq a b i la lb : gives a i la -> gives b i lb -> length la = length lb -> same a b i (length la) = ret (bool_decide (la = lb)).
Proof.
  revert i lb. induction la as [|x la IH]; intros i [|y lb] Ha Hb Hl; try done.
  apply gives_cons in Ha as [Ha Has], Hb as [Hb Hbs]. cbn [length same]. rewrite Ha, Hb.
  change (bind (ret x) ?k) with (k x). cbv beta. change (bind (ret y) ?k) with (k y). cbv beta.
  destruct (Z.eqb_spec x y) as [->|Hne].
  - rewrite (IH (i + 1) lb) by (done || (injection Hl; done)). f_equal. apply bool_decide_ext. split; congruence.
  - by rewrite bool_decide_false by congruence.
Qed.

(** A string, which ends before a word without zeros can pass it. *)
Lemma same_prefix a b i s w : gives a i (s ++ [0]) -> gives b i w -> 0 ∉ w -> same a b i (length w) = ret (bool_decide (w `prefix_of` s)).
Proof.
  revert i s. induction w as [|y w IH]; intros i s Ha Hb H0.
  - cbn. rewrite bool_decide_true; [done|apply prefix_nil].
  - apply gives_cons in Hb as [Hb Hbs]. apply not_elem_of_cons in H0 as [Hy H0]. cbn [length same].
    destruct s as [|x s]; apply gives_cons in Ha as [Ha Has]; rewrite Ha, Hb;
      change (bind (ret ?x) ?k) with (k x); cbv beta; change (bind (ret ?x) ?k) with (k x); cbv beta.
    + destruct (Z.eqb_spec 0 y); [congruence|]. rewrite bool_decide_false; [done|]. by intros ?%prefix_nil_inv.
    + destruct (Z.eqb_spec x y) as [->|Hne].
      * rewrite (IH (i + 1) s) by done. f_equal. apply bool_decide_ext. split; [apply prefix_cons|apply prefix_cons_inv_2].
      * rewrite bool_decide_false; [done|]. intros ?%prefix_cons_inv_1. congruence.
Qed.

Section Image.
Context (img : Z -> option Z).

(** ** Reading the image *)

(** The [n] bytes at [o], and their number. *)
Fixpoint bytes_at (o : Z) (n : nat) : option (list Z) :=
  match n with O => Some [] | S n => b ← img o; l ← bytes_at (o + 1) n; Some (b :: l) end.
Definition number (n : nat) (o : Z) : option Z := of_le <$> bytes_at o n.

Lemma bytes_S o n l : bytes_at o (S n) = Some l -> exists b l', l = b :: l' /\ img o = Some b /\ bytes_at (o + 1) n = Some l'.
Proof. cbn. destruct (img o) as [b|]; [|done]. cbn. destruct (bytes_at (o + 1) n) as [l'|]; [|done]. cbn. intros [= <-]. eauto. Qed.
Lemma bytes_length o n l : bytes_at o n = Some l -> length l = n.
Proof.
  revert o l. induction n as [|n IH]; intros o l H; [by injection H as <-|].
  apply bytes_S in H as (b&l'&->&_&H). cbn. f_equal. by eapply IH.
Qed.
Lemma bytes_give o n l : bytes_at o n = Some l -> gives (image img o) 0 l.
Proof.
  revert o l. induction n as [|n IH]; intros o l H; [by injection H as <-|].
  apply bytes_S in H as (b&l'&->&Hb&H). intros [|k] x Hx.
  - injection Hx as <-. unfold image, byte. replace (o + (0 + Z.of_nat 0)) with o by lia. by rewrite Hb.
  - specialize (IH _ _ H k x Hx). unfold image in *. rewrite <- IH. f_equal. lia.
Qed.
Lemma text_gives l : gives (text l) 0 l.
Proof. intros k x H. unfold text, zget. destruct (Z.ltb_spec (0 + Z.of_nat k) 0); [lia|]. replace (Z.to_nat (0 + Z.of_nat k)) with k by lia. by rewrite H. Qed.

Lemma reads_eq o l b : bytes_at o (length l) = Some b -> reads img o l = ret (bool_decide (b = l)).
Proof.
  intros H. unfold reads. pose proof (bytes_length _ _ _ H) as Hl. rewrite <- Hl.
  apply same_eq; [by eapply bytes_give|apply text_gives|done].
Qed.
Lemma bytes_take o n m l : (m <= n)%nat -> bytes_at o n = Some l -> bytes_at o m = Some (take m l).
Proof.
  revert o n l. induction m as [|m IH]; intros o n l Hm H; [done|]. destruct n as [|n]; [lia|].
  apply bytes_S in H as (b&l'&->&Hb&H). cbn. rewrite Hb. cbn. rewrite (IH _ n l') by (done || lia). done.
Qed.

Lemma word_eq n o v : number n o = Some v -> word img n o = ret v.
Proof.
  unfold number. revert o v. induction n as [|n IH]; intros o v H; [by injection H as <-|].
  destruct (bytes_at o (S n)) as [l|] eqn:E; [|done]. injection H as <-. apply bytes_S in E as (b&l'&->&Hb&E).
  cbn [word]. unfold byte. rewrite Hb. change (bind (need (Some b)) ?k) with (k b). cbv beta.
  rewrite (IH (o + 1) (of_le l')) by (by rewrite E). done.
Qed.

(** ** The disk as a tree *)

Lemma u8_s32 x : u8 (s32 x) = u8 x.
Proof.
  assert (H : wrap 8 (wrap 32 x) = wrap 8 x) by (unfold wrap; apply Z.mod_mod_divide; by exists (2 ^ 24)).
  unfold u8, s32, sgn. destruct (_ <? _); [done|]. rewrite <- H. unfold wrap at 1. rewrite Zminus_mod.
  change (2 ^ 32 mod 2 ^ 8) with 0. rewrite Z.sub_0_r. apply Z.mod_mod. lia.
Qed.

Context (ss : Z).

Definition inlined (i : Z) : option Z := f ← number 1 518; Some (i + if has f FSZ_SB_FLAG_BIGINODE then 2048 else 1024).
Definition dir_place (i d : Z) : Prop :=
  exists o b, inlined i = Some o /\ bytes_at o 4 = Some b /\
    ((b = FSZ_DIR_MAGIC /\ d = o) \/
     (b <> FSZ_DIR_MAGIC /\ exists sec, number 8 (i + 448) = Some sec /\ d = sector ss sec /\ bytes_at d 4 = Some FSZ_DIR_MAGIC)).

(** The inode at [i] has a directory at [d] with the names and inodes [ents]. *)
Record dir (i d : Z) (ents : list (list Z * Z)) : Prop := {
  dir_magic : bytes_at i 4 = Some FSZ_IN_MAGIC;
  dir_at : dir_place i d;
  dir_count : number 8 (d + 16) = Some (zlen ents);
  dir_small : zlen ents < 2 ^ 31;
  dir_ents k name fid : ents !! k = Some (name, fid) ->
    bytes_at (d + SIZEOF_DIRENT * (Z.of_nat k + 1) + 17) 111 = Some name /\ number 8 (d + SIZEOF_DIRENT * (Z.of_nat k + 1)) = Some fid;
}.

Definition begins (m name : list Z) : Prop := m `prefix_of` name.
(** [fid] is in the first entry that begins with [m]. *)
Definition first_entry (m : list Z) (ents : list (list Z * Z)) (fid : Z) : Prop :=
  exists pre name post, ents = pre ++ (name, fid) :: post /\ Forall (fun x => ~ begins m x.1) pre /\ begins m name.
Definition name_ok (m : list Z) : Prop := m <> [] /\ Forall (fun c => name_char c = true) m.

(** The name [rest] leads from the directory in the inode at [i] to the inode [fid]. *)
Inductive leads : nat -> Z -> list Z -> Z -> Prop :=
| leads_file i d ents m fid : dir i d ents -> name_ok m -> first_entry m ents fid -> leads 0 i m fid
| leads_dir k i d ents m fid rest final :
    dir i d ents -> name_ok m -> first_entry (m ++ [SLASH]) ents fid -> leads k (sector ss fid) rest final ->
    leads (S k) i (m ++ SLASH :: rest) final.

(** A file of [size] bytes with its data at [o]. *)
Definition data_at (i o : Z) : Prop :=
  exists fl sec, number 8 (i + 488) = Some fl /\ number 8 (i + 448) = Some sec /\
    let t := FSZ_FLAG_TRANSLATION fl in
    (t = FSZ_IN_FLAG_INLINE /\ inlined i = Some o) \/
    ((t = FSZ_IN_FLAG_SECLIST \/ t = FSZ_IN_FLAG_SDINLINE) /\ exists p n, inlined i = Some p /\ number 8 p = Some n /\ o = sector ss n) \/
    (t = FSZ_IN_FLAG_DIRECT /\ o = sector ss sec) \/
    ((t = FSZ_IN_FLAG_SECLIST0 \/ t = FSZ_IN_FLAG_SD) /\ exists n, number 4 (sector ss sec) = Some n /\ o = sector ss n).
Record file (i size o : Z) : Prop := {
  file_magic : bytes_at i 4 = Some FSZ_IN_MAGIC;
  file_size : number 8 (i + 464) = Some size;
  file_data : data_at i o;
}.

(** ** The search in one directory *)

Definition kept (s s' : fs_t) : Prop := fs_size s' = fs_size s /\ fs_errno s' = fs_errno s.

Lemma wp_same a b la lb i n (Q : bool -> fs_t -> Prop) s :
  gives a i la -> gives b i lb -> length la = n -> length lb = n -> Q (bool_decide (la = lb)) s -> wp (same a b i n) Q s.
Proof. intros Ha Hb <- Hl HQ. by rewrite (same_eq a b i la lb). Qed.

Lemma begins_take m (name : list Z) : begins m name <-> take (length m) name = m.
Proof.
  split; [intros [k ->]; apply take_app_length|]. intros H. rewrite <- H. exists (drop (length m) name).
  by rewrite take_drop.
Qed.

(** One entry, compared with the member [m] from [b] to [e]. *)
Lemma wp_entry_round fn b e ent name fid m c j (Q : Z * Z + found -> fs_t -> Prop) s :
  0 < j -> bytes_at (ent + 17) 111 = Some name -> number 8 ent = Some fid ->
  e - b = zlen m -> gives (fun k => chr img fn (b + k)) 0 m -> chr img fn (e - 1) = ret c -> zlen m <= 111 ->
  (forall s', kept s s' -> (begins m name -> Q (inr (if c =? SLASH then Dir fid else File fid)) s') /\
                           (~ begins m name -> Q (inl (j - 1, ent + SIZEOF_DIRENT)) s')) ->
  wp (entry_round img fn b e (j, ent)) Q s.
Proof.
  intros Hj Hn Hf He Hg Hc Hm HQ. cbn [entry_round]. replace (0 <? j) with true by lia. cbn [negb].
  assert (Hsame : same (image img (ent_name ent)) (fun i => chr img fn (b + i)) 0 (Z.to_nat (e - b)) = ret (bool_decide (begins m name))).
  { rewrite He. unfold zlen. rewrite Nat2Z.id.
    assert (Hb : bytes_at (ent_name ent) (length m) = Some (take (length m) name)) by (apply (bytes_take _ 111); [unfold zlen in Hm; lia|done]).
    pose proof (bytes_length _ _ _ Hb) as Hl. pose proof (same_eq _ _ 0 _ m (bytes_give _ _ _ Hb) Hg Hl) as Hs.
    rewrite Hl in Hs. rewrite Hs. f_equal. apply bool_decide_ext. symmetry. apply begins_take. }
  assert (Hrest : forall s', kept s s' -> wp (b <-- same (image img (ent_name ent)) (fun i => chr img fn (b + i)) 0 (Z.to_nat (e - b)) ;;
    if (b : bool) then fid <-- ent_fid img ent ;; c <-- chr img fn (e - 1) ;; ret (inr (if c =? SLASH then Dir fid else File fid))
    else ret (inl (j - 1, ent + SIZEOF_DIRENT))) Q s').
  { intros s' Hs. destruct (HQ s' Hs) as [H1 H2]. rewrite Hsame. apply wp_bind, wp_ret. case_bool_decide; [|by apply wp_ret, H2].
    unfold ent_fid. rewrite (word_eq _ _ fid), Hc by done. by apply wp_bind, wp_ret, wp_bind, wp_ret, wp_ret, H1. }
  apply wp_bind, wp_gets, wp_bind, wp_when; intros _; [|by apply Hrest].
  apply wp_bind. unfold ent_name at 1. rewrite (reads_eq _ _ (take 4 name)) by (apply (bytes_take _ 111 4); [lia|done]).
  apply wp_ret, wp_when; intros _; [|by apply Hrest]. apply wp_bind. unfold ent_fid at 1. rewrite (word_eq _ _ fid) by done.
  apply wp_ret, wp_modify. by apply Hrest.
Qed.

Lemma wp_initrd_entries fn b e i d ents m fid c (Q : found -> fs_t -> Prop) s :
  dir i d ents -> e - b = zlen m -> gives (fun k => chr img fn (b + k)) 0 m -> chr img fn (e - 1) = ret c ->
  first_entry m ents fid -> (forall s', kept s s' -> Q (if c =? SLASH then Dir fid else File fid) s') -> wp (entries img fn b e d) Q s.
Proof.
  intros Hd He Hg Hc (pre&name&post&->&Hpre&Hname) HQ. unfold entries. apply wp_bind.
  unfold dir_numentries. rewrite (word_eq _ _ _ (dir_count _ _ _ Hd)). apply wp_ret.
  pose proof (dir_small _ _ _ Hd) as Hsmall. pose proof (zlen_nonneg (pre ++ (name, fid) :: post)) as H0.
  assert (Hm : zlen m <= 111).
  { destruct (dir_ents _ _ _ Hd (length pre) name fid) as [Hb _]; [by apply list_lookup_middle|].
    apply bytes_length in Hb. apply prefix_length in Hname. unfold zlen. lia. }
  replace (s32 _) with (zlen (pre ++ (name, fid) :: post)) by (symmetry; unfold s32, sgn; rewrite wrap_small by lia; by replace (_ <? _) with true by lia).
  enough (Hk : forall k s', (k <= length pre)%nat -> kept s s' ->
    wp (iter (length pre - k + 2) (entry_round img fn b e) (zlen (pre ++ (name, fid) :: post) - Z.of_nat k, d + SIZEOF_DIRENT * (Z.of_nat k + 1))) Q s').
  { specialize (Hk O s ltac:(lia) ltac:(done)). rewrite Z.sub_0_r, Z.mul_1_r in Hk. 
    replace (Z.to_nat _ + 1)%nat with (length pre - 0 + 2 + length post)%nat by (rewrite zlen_app, zlen_cons in *; unfold zlen in *; lia).
    by eapply wp_iter_more. }
  intros k. remember (length pre - k)%nat as r eqn:Er. revert k Er. induction r as [|r IH]; intros k Er s' Hle Hs;
    (rewrite zlen_app, zlen_cons in *; cbn [Nat.add]; rewrite iter_S; apply wp_bind).
  - assert (k = length pre) as -> by lia.
    destruct (dir_ents _ _ _ Hd (length pre) name fid) as [Hb Hf]; [by apply list_lookup_middle|].
    eapply wp_entry_round; try done; [unfold zlen in *; lia|]. intros s'' Hs'. split; [|done]. intros _. apply wp_ret, HQ.
    unfold kept in *. intuition congruence.
  - destruct (lookup_lt_is_Some_2 pre k) as [[name' fid'] Hl]; [lia|].
    destruct (dir_ents _ _ _ Hd k name' fid') as [Hb Hf]; [by apply lookup_app_l_Some|].
    eapply wp_entry_round; try done; [unfold zlen in *; lia|]. intros s'' Hs'. split.
    + intros Hbeg. rewrite Forall_lookup in Hpre. by destruct (Hpre k _ Hl).
    + intros _. replace (d + SIZEOF_DIRENT * (Z.of_nat k + 1) + SIZEOF_DIRENT) with (d + SIZEOF_DIRENT * (Z.of_nat (S k) + 1)) by lia.
      replace (zlen pre + (1 + zlen post) - Z.of_nat k - 1) with (zlen pre + (1 + zlen post) - Z.of_nat (S k)) by lia.
      apply IH; [lia|lia|]. unfold kept in *. intuition congruence.
Qed.

Lemma inline_eq i o : inlined i = Some o -> inlinedata img i = ret o.
Proof.
  unfold inlined. destruct (number 1 518) as [f|] eqn:E; [|done]. intros [= <-]. unfold inlinedata, sb_flags.
  by rewrite (word_eq _ _ f).
Qed.
Lemma directory_eq i d ents : dir i d ents -> directory img ss i = ret (Some d).
Proof.
  intros [_ (o&b&Ho&Hb&Hd) _ _ _]. unfold directory. rewrite (inline_eq _ o Ho). change (bind (ret o) ?k) with (k o). cbv beta.
  rewrite (reads_eq _ _ b) by done. change (bind (ret ?x) ?k) with (k x). cbv beta.
  destruct Hd as [[-> ->]|(Hne&sec&Hsec&->&Hm)]; [by rewrite bool_decide_true|]. rewrite bool_decide_false by done.
  unfold in_sec, version_at. rewrite (word_eq _ _ sec) by (rewrite <- Hsec; f_equal; lia). change (bind (ret ?x) ?k) with (k x). cbv beta.
  rewrite (reads_eq _ _ FSZ_DIR_MAGIC) by done. change (bind (ret ?x) ?k) with (k x). cbv beta. by rewrite bool_decide_true.
Qed.

(** ** The members of a name *)

Lemma gives_app a i l k : gives a i (l ++ k) -> gives a i l.
Proof. intros H j x Hx. apply H. by apply lookup_app_l_Some. Qed.
Lemma gives_drop a i l k : gives a i (l ++ k) -> gives a (i + zlen l) k.
Proof. intros H j x Hx. rewrite <- (H (length l + j)%nat x); [f_equal; unfold zlen; lia|]. rewrite lookup_app_r by lia. by replace (length l + j - length l)%nat with j by lia. Qed.
Lemma gives_shift a i j l : gives a (i + j) l -> gives (fun k => a (i + k)) j l.
Proof. intros H k x Hx. rewrite <- (H k x Hx). f_equal. lia. Qed.

(** The characters of a string of the caller, with the terminator. *)
Lemma str_gives str : gives (chr img (Str str)) 0 (str ++ [0]).
Proof.
  intros k x Hx. cbn [chr]. apply lookup_app_Some in Hx as [Hx|[Hle Hx]].
  - pose proof (lookup_lt_Some _ _ _ Hx). unfold zlen. replace (_ =? _) with false by lia. unfold zget.
    destruct (Z.ltb_spec (0 + Z.of_nat k) 0); [lia|]. replace (Z.to_nat (0 + Z.of_nat k)) with k by lia. by rewrite Hx.
  - apply list_lookup_singleton_Some in Hx as [Hk <-]. unfold zlen. by replace (_ =? _) with true by lia.
Qed.
Lemma str_from a rest : gives (chr img (Str (a ++ rest))) (zlen a) (rest ++ [0]).
Proof. rewrite <- (Z.add_0_l (zlen a)). apply gives_drop. rewrite app_assoc. apply str_gives. Qed.

Lemma wp_member_end fuel fn e m c (Q : Z -> fs_t -> Prop) s :
  gives (chr img fn) e (m ++ [c]) -> Forall (fun c => name_char c = true) m -> name_char c = false -> (length m < fuel)%nat ->
  Q (e + zlen m + (if c =? SLASH then 1 else 0)) s -> wp (member_end img fuel fn e) Q s.
Proof.
  intros Hg Hm Hc Hfuel HQ. unfold member_end.
  assert (H : forall fuel e m, gives (chr img fn) e (m ++ [c]) -> Forall (fun c => name_char c = true) m -> (length m < fuel)%nat ->
    iter fuel (fun e => c <-- chr img fn e ;; ret (if name_char c then Datatypes.inl (e + 1) else inr e)) e s = Ret (e + zlen m) s).
  { clear -Hc. induction fuel as [|fuel IH]; intros e m Hg Hm Hf; [lia|]. destruct m as [|x m].
    - apply gives_cons in Hg as [Hx _]. rewrite iter_S, Hx. unfold bind, ret. rewrite Hc. f_equal. change (zlen []) with 0. lia.
    - apply gives_cons in Hg as [Hx Hg]. apply Forall_cons in Hm as [Hxm Hm]. rewrite iter_S, Hx. unfold bind at 1 2, ret at 1 2. rewrite Hxm.
      rewrite (IH (e + 1) m) by (done || (cbn in Hf; lia)). f_equal. rewrite zlen_cons. lia. }
  unfold wp. rewrite (run_bind _ _ _ _ _ (H fuel e m Hg Hm Hfuel)).
  apply gives_drop in Hg. apply gives_cons in Hg as [Hg _]. rewrite Hg. unfold bind, ret.
  by destruct (c =? SLASH); [|rewrite Z.add_0_r in HQ].
Qed.

(** From the member at the end of [a] on. *)
Lemma wp_looks k i rest fid : leads k i rest fid -> forall a st r n fuel (Q : option (path * Z * Z) -> fs_t -> Prop) s,
  (k < n)%nat -> (length rest < fuel)%nat ->
  (forall s', kept s s' -> Q (Some (Str (a ++ rest), zlen (a ++ rest), fid)) s') ->
  wp (iter n (look img fuel ss) (mk_look (Str (a ++ rest)) st r i (zlen a) (zlen a))) Q s.
Proof.
  intros Hl. induction Hl as [i d ents m fid Hd [Hm0 Hm] He|k i d ents m fid rest final Hd [Hm0 Hm] He Hl IH];
    intros a st r n fuel Q s Hn Hfuel HQ; (destruct n as [|n]; [lia|]); rewrite iter_S; apply wp_bind; cbn [look]; apply wp_bind.
  - pose proof (str_from a m) as Hg. eapply wp_member_end; [exact Hg|done|done|done|]. change (0 =? SLASH) with false. cbv iota.
    unfold in_magic. rewrite (reads_eq _ _ FSZ_IN_MAGIC) by apply (dir_magic _ _ _ Hd). apply wp_bind, wp_ret. rewrite bool_decide_true by done.
    cbn [negb]. rewrite (directory_eq _ _ _ Hd). apply wp_bind, wp_ret, wp_bind.
    destruct (exists_last Hm0) as (m'&c&->). apply Forall_app in Hm as [_ Hc]. apply Forall_cons in Hc as [Hc _].
    rewrite Z.add_0_r. eapply (wp_initrd_entries _ _ _ i d ents (m' ++ [c]) fid c); [done| | | |done|].
    + rewrite zlen_app. lia.
    + apply gives_shift. rewrite Z.add_0_r. by eapply gives_app.
    + replace (zlen a + zlen (m' ++ [c]) - 1) with (zlen a + zlen m') by (rewrite zlen_app; change (zlen [c]) with 1; lia).
      apply gives_app, gives_drop, gives_cons in Hg as [Hg _]. exact Hg.
    + intros s' Hs. replace (c =? SLASH) with false by (symmetry; apply Z.eqb_neq; intros ->; done).
      apply wp_ret. rewrite <- zlen_app. by apply HQ.
  - assert (Hg : gives (chr img (Str (a ++ m ++ SLASH :: rest))) (zlen a) (m ++ [SLASH])).
    { apply (gives_app _ _ _ (rest ++ [0])). replace ((m ++ [SLASH]) ++ rest ++ [0]) with ((m ++ SLASH :: rest) ++ [0]) by (by rewrite <- !app_assoc). apply str_from. }
    eapply wp_member_end; [exact Hg|done|done|rewrite length_app in Hfuel; lia|]. change (SLASH =? SLASH) with true. cbv iota.
    unfold in_magic. rewrite (reads_eq _ _ FSZ_IN_MAGIC) by apply (dir_magic _ _ _ Hd). apply wp_bind, wp_ret. rewrite bool_decide_true by done.
    cbn [negb]. rewrite (directory_eq _ _ _ Hd). apply wp_bind, wp_ret, wp_bind.
    eapply (wp_initrd_entries _ _ _ i d ents (m ++ [SLASH]) fid SLASH); [done| | | |done|].
    + rewrite zlen_app. change (zlen [SLASH]) with 1. lia.
    + apply gives_shift. by rewrite Z.add_0_r.
    + replace (zlen a + zlen m + 1 - 1) with (zlen a + zlen m) by lia. apply gives_drop, gives_cons in Hg as [Hg _]. exact Hg.
    + intros s' Hs. change (SLASH =? SLASH) with true. cbv iota. apply wp_ret.
      replace (zlen a + zlen m + 1) with (zlen (a ++ m ++ [SLASH])) by (rewrite !zlen_app; change (zlen [SLASH]) with 1; lia).
      assert (Ha : a ++ m ++ SLASH :: rest = (a ++ m ++ [SLASH]) ++ rest) by (by rewrite <- !app_assoc).
      rewrite Ha in HQ |- *. apply IH; [lia|rewrite length_app in Hfuel; cbn in Hfuel; lia|].
      intros s'' Hs'. apply HQ. unfold kept in *. intuition congruence.
Qed.

(** ** The whole search *)

(** What may stand before the members. *)
Definition prefixes : list (list Z) := [[]; [SLASH]; root_; root_ ++ [SLASH]].

(** A name that goes on with a member. *)
Definition member_first (str : list Z) : Prop := exists m rest, str = m ++ rest /\ name_ok m /\ (rest = [] \/ head rest = Some SLASH).

Lemma not_root str : member_first str -> ~ root_ `prefix_of` str.
Proof.
  intros (m&rest&->&[_ Hm]&Hrest) [k Hk]. unfold root_ in Hk.
  do 5 (destruct m as [|? m]; [destruct Hrest as [->|Hh]; [done|destruct rest as [|? rest]; [done|injection Hh as ->; done]]|
    apply Forall_cons in Hm as [? Hm]; injection Hk as -> Hk]). done.
Qed.
Lemma first_char str : member_first str -> exists c r, str = c :: r /\ (c =? SLASH) = false.
Proof.
  intros (m&rest&->&[H0 Hm]&_). destruct m as [|c m]; [done|]. exists c, (m ++ rest). split; [done|].
  apply Forall_cons in Hm as [Hc _]. apply Z.eqb_neq. by intros ->.
Qed.

Lemma wp_start pre str s (Q : look_t -> fs_t -> Prop) r fid :
  pre ∈ prefixes -> member_first str -> number 8 560 = Some fid ->
  Q (mk_look (Str (pre ++ str)) (zlen pre) r (sector ss fid) (zlen pre) (zlen pre)) s ->
  wp (start img ss (Str (pre ++ str)) 0 r) Q s.
Proof.
  intros Hpre Hstr Hfid HQ. unfold start, sb_rootdirfid. rewrite (word_eq _ _ fid) by done. apply wp_bind, wp_ret.
  assert (Hsame : same (fun k => chr img (Str (pre ++ str)) (0 + k)) (text root_) 0 5 = ret (bool_decide (root_ `prefix_of` pre ++ str))).
  { apply (same_prefix _ _ 0 (pre ++ str) root_); [|apply text_gives|intros H; unfold root_ in H; repeat (apply elem_of_cons in H as [H|H]; [done|]); by apply elem_of_nil in H].
    apply gives_shift. apply str_gives. }
  rewrite Hsame. apply wp_bind, wp_ret, wp_bind. destruct (first_char str Hstr) as (c&rest&->&Hc).
  assert (Hfirst : chr img (Str (pre ++ c :: rest)) (zlen pre) = ret c) by (pose proof (str_from pre (c :: rest)) as [? _]%gives_cons; done).
  unfold prefixes in Hpre. repeat (apply elem_of_cons in Hpre as [->|Hpre]); [..|by apply elem_of_nil in Hpre].
  - rewrite bool_decide_false by (by apply not_root). change (zlen []) with 0 in *. rewrite Hfirst. apply wp_ret. by rewrite Hc; apply wp_ret.
  - rewrite bool_decide_false by (intros H; by apply prefix_cons_inv_1 in H). apply wp_ret. by apply wp_ret.
  - rewrite bool_decide_true by by exists (c :: rest). change (0 + 5) with (zlen root_). rewrite Hfirst. apply wp_ret. by rewrite Hc; apply wp_ret.
  - rewrite bool_decide_true by by exists (SLASH :: c :: rest). pose proof (str_gives ((root_ ++ [SLASH]) ++ c :: rest) 5%nat SLASH eq_refl) as H5.
    replace (0 + 5) with (0 + Z.of_nat 5) by done. rewrite H5. apply wp_ret. by apply wp_ret.
Qed.

(** The data of the file at the end of the name. *)
Lemma wp_content fid str size o s (Q : option Z -> fs_t -> Prop) :
  file (sector ss fid) size o -> (forall s', fs_size s' = size -> fs_errno s' = fs_errno s -> Q (Some o) s') ->
  wp (content img ss (Str str) (zlen str) fid) Q s.
Proof.
  intros [Hm Hsize (fl&sec&Hfl&Hsec&Ht)] HQ.
  assert (Hend : chr img (Str str) (zlen str) = ret 0) by (cbn [chr]; by rewrite Z.eqb_refl).
  unfold content, in_magic. rewrite (reads_eq _ _ FSZ_IN_MAGIC) by done. apply wp_bind, wp_ret. rewrite bool_decide_true by done. cbn [negb].
  unfold version. rewrite Hend. apply wp_bind, wp_bind, wp_ret. change (negb (0 =? SEMI)) with true. cbv iota. apply wp_ret.
  apply wp_bind, wp_ret. rewrite Hend. apply wp_bind, wp_ret. change (0 =? HASH) with false. cbv iota. change (0 =? 0) with true. cbv iota.
  unfold in_size, in_flags, in_sec, version_at.
  rewrite (word_eq _ _ size) by (rewrite <- Hsize; f_equal; lia). rewrite (word_eq _ _ fl) by (rewrite <- Hfl; f_equal; lia).
  rewrite (word_eq _ _ sec) by (rewrite <- Hsec; f_equal; lia).
  apply wp_bind, wp_bind, wp_ret, wp_bind, wp_modify, wp_bind, wp_ret, wp_bind, wp_ret, wp_ret.
  assert (Htr : FSZ_FLAG_TRANSLATION (s32 fl) = FSZ_FLAG_TRANSLATION fl) by apply u8_s32. rewrite Htr. clear Htr.
  cbv zeta in Ht. assert (Hdone : Q (Some o) (set_fs_size size s)) by by apply HQ.
  destruct Ht as [[-> Ho]|[[Ht (p&n&Hp&Hn&->)]|[[-> ->]|[Ht (n&Hn&->)]]]].
  - rewrite Z.eqb_refl. rewrite (inline_eq _ o) by done. by apply wp_bind, wp_ret, wp_ret.
  - replace (_ =? FSZ_IN_FLAG_INLINE) with false by (by destruct Ht as [-> | ->]).
    replace (_ || _) with true by (by destruct Ht as [-> | ->]). cbv iota.
    rewrite (inline_eq _ p) by done. apply wp_bind, wp_ret. rewrite (word_eq _ _ n) by done. by apply wp_bind, wp_ret, wp_ret.
  - by apply wp_bind, wp_ret, wp_ret.
  - replace (_ =? FSZ_IN_FLAG_INLINE) with false by (by destruct Ht as [-> | ->]).
    replace (_ || _) with false by (by destruct Ht as [-> | ->]). replace (_ =? FSZ_IN_FLAG_DIRECT) with false by (by destruct Ht as [-> | ->]).
    replace (_ || _) with true by (by destruct Ht as [-> | ->]). cbv iota. rewrite (word_eq _ _ n) by done. by apply wp_bind, wp_ret, wp_ret.
Qed.

(** The search for a name that leads to a file. *)
Lemma initrd_locates pre str k root fid size o logsec fuel s :
  bytes_at 512 4 = Some FSZ_MAGIC -> number 2 520 = Some logsec -> logsec < 20 -> ss = Z.shiftl 1 (logsec + 11) ->
  number 8 560 = Some root -> pre ∈ prefixes -> leads k (sector ss root) str fid -> fid <> 0 ->
  file (sector ss fid) size o -> Forall (fun c => c <> 0) (pre ++ str) -> (1 < length (pre ++ str) < fuel)%nat ->
  (k < fuel)%nat ->
  wp (fs_locate img fuel (Some (pre ++ str))) (fun r s' => r = Some o /\ fs_size s' = size /\ fs_errno s' = fs_errno s) s.
Proof.
  intros Hmagic Hlog Hlog20 Hss Hroot Hpre Hl Hfid Hfile Hz Hlen Hk. unfold fs_locate. apply wp_bind, wp_modify.
  assert (Hz01 : (default 0 (zget (pre ++ str) 0) =? 0) || (default 0 (zget (pre ++ str) 1) =? 0) = false).
  { destruct (pre ++ str) as [|c0 [|c1 l]]; cbn in Hlen; [lia|lia|]. apply Forall_cons in Hz as [H0 Hz]. apply Forall_cons in Hz as [H1 _].
    change ((c0 =? 0) || (c1 =? 0) = false). by rewrite (proj2 (Z.eqb_neq c0 0) H0), (proj2 (Z.eqb_neq c1 0) H1). }
  rewrite Hz01. unfold sb_magic. rewrite (reads_eq _ _ FSZ_MAGIC) by done. apply wp_bind, wp_ret. rewrite bool_decide_true by done. cbn [negb].
  unfold sector_size, sb_logsec. rewrite (word_eq _ _ logsec) by done. apply wp_bind, wp_bind, wp_ret. replace (20 <=? logsec) with false by lia.
  apply wp_ret. rewrite <- Hss. apply wp_bind. eapply wp_start; [done| |done|].
  { inversion Hl as [i d ents m f Hd Hm He|? i d ents m f rest ? Hd Hm He Hr]; subst; [exists str, []|exists m, (SLASH :: rest)]; eauto using app_nil_r. }
  apply wp_bind. eapply (wp_looks k); [done|done|rewrite length_app in Hlen; lia|]. intros s' [Hs1 Hs2].
  replace (fid =? 0) with false by lia. apply wp_bind. eapply wp_content; [done|]. intros s'' Hsize He. apply wp_ret. split; [done|].
  split; [done|]. by rewrite He, Hs2.
Qed.

(** C15: A name, with or without "root:" and a slash before it, that leads from the root
    directory to a file is located: the place of its data is answered and its size kept. *)
Theorem initrd_locate_finds pre str k root fid size o logsec fuel s :
  bytes_at 512 4 = Some FSZ_MAGIC -> number 2 520 = Some logsec -> logsec < 20 -> ss = Z.shiftl 1 (logsec + 11) ->
  number 8 560 = Some root -> pre ∈ prefixes -> leads k (sector ss root) str fid -> fid <> 0 ->
  file (sector ss fid) size o -> Forall (fun c => c <> 0) (pre ++ str) -> (1 < length (pre ++ str) < fuel)%nat ->
  (k < fuel)%nat ->
  wp (fs_locate img fuel (Some (pre ++ str))) (fun r s' => r = Some o /\ fs_size s' = size /\ fs_errno s' = fs_errno s) s.
Proof. apply initrd_locates. Qed.

End Image.

(** ** A small image

    "sys/" in the root directory, with the files "corex" and "data" in it: the first one in
    two sectors behind a sector directory, the other one in its inode. *)

Definition put (o : Z) (l : list Z) (b : list Z) : list Z := take (Z.to_nat o) b ++ l ++ drop (Z.to_nat (o + zlen l)) b.
Definition block (parts : list (Z * list Z)) : list Z := fold_left (fun b p => put p.1 p.2 b) parts (List.repeat 0 2048).
Definition dirent (k : Z) (fid : Z) (name : list Z) : list (Z * list Z) := [(1024 + 128 * k, [fid]); (1024 + 128 * k + 17, name)].
Definition directory_ (names : list (Z * list Z)) : list Z :=
  block ([(0, FSZ_IN_MAGIC); (8, [100; 105; 114; 58]); (488, [255]); (1024, FSZ_DIR_MAGIC); (1040, [zlen names])]
         ++ concat (imap (fun k x => dirent (Z.of_nat k + 1) x.1 x.2) names)).
Definition corex_ : list Z := [99; 111; 114; 101; 120].
Definition data_ : list Z := [100; 97; 116; 97].
Definition sample : list Z :=
  block [(512, FSZ_MAGIC); (560, [1])] ++ directory_ [(2, sys_)] ++ directory_ [(3, corex_); (4, data_)]
  ++ block [(0, FSZ_IN_MAGIC); (448, [5]); (464, [0; 16]); (488, [1])]
  ++ block [(0, FSZ_IN_MAGIC); (464, [3]); (488, [255]); (1024, [7; 8; 9])]
  ++ block [(0, [6]); (16, [7])] ++ List.repeat 65 2048 ++ List.repeat 66 2048.
Definition sample_img : Z -> option Z := zget sample.

Definition name_field (l : list Z) : list Z := l ++ List.repeat 0 (111 - length l).

Lemma sample_root : dir sample_img 2048 2048 3072 [(name_field sys_, 2)].
Proof.
  split; [by vm_compute| |by vm_compute|by vm_compute|].
  - exists 3072, FSZ_DIR_MAGIC. split; [by vm_compute|]. split; [by vm_compute|]. by left.
  - intros [|[|k]] name fid [= <- <-]. split; by vm_compute.
Qed.
Lemma sample_sys : dir sample_img 2048 4096 5120 [(name_field corex_, 3); (name_field data_, 4)].
Proof.
  split; [by vm_compute| |by vm_compute|by vm_compute|].
  - exists 5120, FSZ_DIR_MAGIC. split; [by vm_compute|]. split; [by vm_compute|]. by left.
  - intros [|[|[|k]]] name fid [= <- <-]; split; by vm_compute.
Qed.
Lemma sample_leads m fid : name_ok m -> first_entry m [(name_field corex_, 3); (name_field data_, 4)] fid ->
  leads sample_img 2048 1 2048 (sys_ ++ m) fid.
Proof.
  intros Hm He. change (sys_ ++ m) with ([115; 121; 115] ++ SLASH :: m). eapply leads_dir; [exact sample_root| | |].
  - split; [done|]. by repeat constructor.
  - exists [], (name_field sys_), []. split; [done|]. split; [done|]. by exists (List.repeat 0 107).
  - eapply leads_file; [exact sample_sys|done|done].
Qed.

(** "root:/sys/data" is the file in the inode, and "sys/core" finds "corex", which begins
    with it. *)
Lemma initrd_locate_finds_witness :
  wp (fs_locate sample_img 20 (Some (root_ ++ [SLASH] ++ sys_ ++ data_)))
     (fun r s' => r = Some (4 * 2048 + 1024) /\ fs_size s' = 3 /\ fs_errno s' = SUCCESS) (mk_fs 0 0 SUCCESS) /\
  wp (fs_locate sample_img 20 (Some (sys_ ++ take 4 corex_)))
     (fun r s' => r = Some (6 * 2048) /\ fs_size s' = 4096 /\ fs_errno s' = SUCCESS) (mk_fs 0 0 SUCCESS).
Proof.
  split.
  - apply (initrd_locate_finds sample_img 2048 (root_ ++ [SLASH]) (sys_ ++ data_) 1 1 4 3 (4 * 2048 + 1024) 0 20 (mk_fs 0 0 SUCCESS)).
    1-5: by vm_compute.
    + by right; right; right; left.
    + apply sample_leads; [split; [done|by repeat constructor]|]. exists [(name_field corex_, 3)], (name_field data_), []. split; [done|].
      split; [|by exists (List.repeat 0 107)]. constructor; [|done]. by intros [k Hk].
    + done.
    + split; [by vm_compute|by vm_compute|]. exists 255, 0. split; [by vm_compute|]. split; [by vm_compute|]. left. split; by vm_compute.
    + by repeat constructor.
    + cbn. lia.
    + lia.
  - apply (initrd_locate_finds sample_img 2048 [] (sys_ ++ take 4 corex_) 1 1 3 4096 (6 * 2048) 0 20 (mk_fs 0 0 SUCCESS)).
    1-5: by vm_compute.
    + by left.
    + apply sample_leads; [split; [done|by repeat constructor]|]. exists [], (name_field corex_), [(name_field data_, 4)]. split; [done|].
      split; [done|]. by exists (120 :: List.repeat 0 106).
    + done.
    + split; [by vm_compute|by vm_compute|]. exists 1, 5. split; [by vm_compute|]. split; [by vm_compute|].
      right; right; right. split; [by right|]. exists 6. split; by vm_compute.
    + by repeat constructor.
    + cbn. lia.
    + lia.
Defined.

End InitrdFacts.
