(* ===== verification/Kernel.v ===== *)
(** The core as a whole: the state of its parts together, how each part's operations run on
    it, memory reached through the page tables, and the page fault handler,
    src/core/fault.c. *)
From Stdlib Require Import ZArith Lia List String Ascii.
From stdpp Require Import base option list gmap.
From S2P Require Import Prelude CoreState Pmm Vmm Sched Security CoreLib Msg Initrd CoreEnv.

Module Kernel.

(** A text as bytes. *)
Definition str (s : string) : list Z := List.map (fun a => Z.of_N (N_of_ascii a)) (list_ascii_of_string s).

(** ** src/core/elf.h *)

Record elfcache_t : Type := mk_elfcache {
  fn : option (list Z); (* null for a free entry *)
  data : list Z; (* physical addresses; empty for null *)
  idx : Z;
  numpages : Z;
  numref : Z; (* 32 bits *)
}.
#[export] Instance eta_elfcache_t : Eta elfcache_t := fun s => mk_elfcache (fn s) (data s) (idx s) (numpages s) (numref s).
Definition set_fn (v : option (list Z)) (s : elfcache_t) : elfcache_t := s <| fn := v |>.
Definition set_data (v : list Z) (s : elfcache_t) : elfcache_t := s <| data := v |>.
Definition set_idx (v : Z) (s : elfcache_t) : elfcache_t := s <| idx := v |>.
Definition set_numpages (v : Z) (s : elfcache_t) : elfcache_t := s <| numpages := v |>.
Definition set_numref (v : Z) (s : elfcache_t) : elfcache_t := s <| numref := v |>.
Definition zero_elfcache : elfcache_t := mk_elfcache None [] 0 0 0.

Record elfbin_t : Type := mk_elfbin { elfcacheidx : Z; addr : Z; end_ : Z; entry : Z }.
#[export] Instance eta_elfbin_t : Eta elfbin_t := fun s => mk_elfbin (elfcacheidx s) (addr s) (end_ s) (entry s).
Definition set_entry (v : Z) (s : elfbin_t) : elfbin_t := s <| entry := v |>.
Definition zero_elfbin : elfbin_t := mk_elfbin 0 0 0 0.

(** The loader's page; its buffer for paths is local to the function that uses it. *)
Record elfctx_t : Type := mk_elfctx { nextaddr : Z; extra_ptr : Z; env_ptr : Z; nelfbin : Z; ctx_elfbin : Z }.
#[export] Instance eta_elfctx_t : Eta elfctx_t := fun s => mk_elfctx (nextaddr s) (extra_ptr s) (env_ptr s) (nelfbin s) (ctx_elfbin s).
Definition set_nextaddr (v : Z) (s : elfctx_t) : elfctx_t := s <| nextaddr := v |>.
Definition set_extra_ptr (v : Z) (s : elfctx_t) : elfctx_t := s <| extra_ptr := v |>.
Definition set_env_ptr (v : Z) (s : elfctx_t) : elfctx_t := s <| env_ptr := v |>.
Definition set_nelfbin (v : Z) (s : elfctx_t) : elfctx_t := s <| nelfbin := v |>.
Definition set_ctx_elfbin (v : Z) (s : elfctx_t) : elfctx_t := s <| ctx_elfbin := v |>.
Definition zero_elfctx : elfctx_t := mk_elfctx 0 0 0 0 0.

(** ** The state *)

(** What the core tells the platform and the user. *)
Inductive event : Type :=
| EvEnable (irq : Z)
| EvDisable (irq : Z)
| EvClockAck
| EvConsole (text : list Z)
| EvScrollOff
| EvReboot
| EvPoweroff.

Record kern_t : Type := mk_kern {
  core : Msg.core_t; (* scheduler, page allocator, queues, services, clock *)
  frames : gmap Z (list Z); (* pages read as 512 words *)
  archs : gmap Z Vmm.arch_t;
  win : list Z;
  slotwin : Z;
  cr3 : Z;
  sharedroots : list Z;
  numtasks : list Z; (* of the CPU control blocks *)
  fs_size : Z;
  sys_fid : Z;
  initrd_ptr : Z; (* physical *)
  initrd_size : Z;
  elfcache : list elfcache_t; (* empty for null *)
  elfcache_at : Z; (* its address *)
  nelfcache : Z;
  elfctxs : gmap Z elfctx_t; (* the pages of the loader, by address *)
  ubins : gmap (Z * Z) (list elfbin_t); (* in the heaps of the tasks: pid, address *)
  heap_calls : nat;
  irt : list (option (list Z)); (* [irq_routing_table] *)
  irq_max : Z;
  sched_irq : Z; (* 16 bits *)
  clock_irq : Z;
  clock_freq : Z;
  clock_step : Z;
  clock_cnt : Z;
  clock_pids : Z;
  task_nextcpu : Z;
  numinit : Z;
  env : CoreEnv.env_state; (* flags, time zone, display, debug *)
  drvs : option (list Z); (* the text of /sys/drivers *)
  display_dev : option (list (Z * Z)); (* base and size *)
  drvmem : list (Z * Z);
  environment_phy : Z;
  syslog_phy : Z;
  envp : list (list Z);
  syslog_buffer : list Z; (* a page *)
  syslog_ptr : Z; (* index in it *)
  datetime : list Z; (* of the loader: 8 bytes in BCD *)
  log : list event;
}.
#[export] Instance eta_kern_t : Eta kern_t :=
  fun s => mk_kern (core s) (frames s) (archs s) (win s) (slotwin s) (cr3 s) (sharedroots s) (numtasks s) (fs_size s) (sys_fid s) (initrd_ptr s) (initrd_size s) (elfcache s) (elfcache_at s) (nelfcache s) (elfctxs s) (ubins s) (heap_calls s) (irt s) (irq_max s) (sched_irq s) (clock_irq s) (clock_freq s) (clock_step s) (clock_cnt s) (clock_pids s) (task_nextcpu s) (numinit s) (env s) (drvs s) (display_dev s) (drvmem s) (environment_phy s) (syslog_phy s) (envp s) (syslog_buffer s) (syslog_ptr s) (datetime s) (log s).
Definition set_core (v : Msg.core_t) (s : kern_t) : kern_t := s <| core := v |>.
Definition set_frames (v : gmap Z (list Z)) (s : kern_t) : kern_t := s <| frames := v |>.
Definition set_archs (v : gmap Z Vmm.arch_t) (s : kern_t) : kern_t := s <| archs := v |>.
Definition set_win (v : list Z) (s : kern_t) : kern_t := s <| win := v |>.
Definition set_slotwin (v : Z) (s : kern_t) : kern_t := s <| slotwin := v |>.
Definition set_cr3 (v : Z) (s : kern_t) : kern_t := s <| cr3 := v |>.
Definition set_numtasks (v : list Z) (s : kern_t) : kern_t := s <| numtasks := v |>.
Definition set_fs_size (v : Z) (s : kern_t) : kern_t := s <| fs_size := v |>.
Definition set_sys_fid (v : Z) (s : kern_t) : kern_t := s <| sys_fid := v |>.
Definition set_elfcache (v : list elfcache_t) (s : kern_t) : kern_t := s <| elfcache := v |>.
Definition set_elfcache_at (v : Z) (s : kern_t) : kern_t := s <| elfcache_at := v |>.
Definition set_nelfcache (v : Z) (s : kern_t) : kern_t := s <| nelfcache := v |>.
Definition set_elfctxs (v : gmap Z elfctx_t) (s : kern_t) : kern_t := s <| elfctxs := v |>.
Definition set_ubins (v : gmap (Z * Z) (list elfbin_t)) (s : kern_t) : kern_t := s <| ubins := v |>.
Definition set_heap_calls (v : nat) (s : kern_t) : kern_t := s <| heap_calls := v |>.
Definition set_irt (v : list (option (list Z))) (s : kern_t) : kern_t := s <| irt := v |>.
Definition set_irq_max (v : Z) (s : kern_t) : kern_t := s <| irq_max := v |>.
Definition set_clock_step (v : Z) (s : kern_t) : kern_t := s <| clock_step := v |>.
Definition set_clock_cnt (v : Z) (s : kern_t) : kern_t := s <| clock_cnt := v |>.
Definition set_env (v : CoreEnv.env_state) (s : kern_t) : kern_t := s <| env := v |>.
Definition set_clock_pids (v : Z) (s : kern_t) : kern_t := s <| clock_pids := v |>.
Definition set_task_nextcpu (v : Z) (s : kern_t) : kern_t := s <| task_nextcpu := v |>.
Definition set_numinit (v : Z) (s : kern_t) : kern_t := s <| numinit := v |>.
Definition set_drvs (v : option (list Z)) (s : kern_t) : kern_t := s <| drvs := v |>.
Definition set_display_dev (v : option (list (Z * Z))) (s : kern_t) : kern_t := s <| display_dev := v |>.
Definition set_envp (v : list (list Z)) (s : kern_t) : kern_t := s <| envp := v |>.
Definition set_syslog_buffer (v : list Z) (s : kern_t) : kern_t := s <| syslog_buffer := v |>.
Definition set_syslog_ptr (v : Z) (s : kern_t) : kern_t := s <| syslog_ptr := v |>.
Definition set_log (v : list event) (s : kern_t) : kern_t := s <| log := v |>.

Definition clock_tz (s : kern_t) : Z := CoreEnv.clock_tz (env s).
Definition debug (s : kern_t) : Z := CoreEnv.debug (env s).
Definition emit (e : event) : M kern_t unit := modify (fun s => set_log (log s ++ [e]) s).

(** ** Running the parts

    Each part sees its own state, with the error code of the core. *)
Definition on {S A} (get_ : kern_t -> S) (put_ : S -> kern_t -> kern_t) (m : M S A) : M kern_t A :=
  fun s => match m (get_ s) with
           | Ret a x => Ret a (put_ x s)
           | Exit c x => Exit c (put_ x s)
           | UB => UB
           | Loop => Loop
           end.

Definition seterr (e : Z) : M kern_t unit := modify (fun s => set_core (Msg.set_core_errno e (core s)) s).
Definition errno : M kern_t Z := gets (fun s => Msg.core_errno (core s)).
Definition fails {A} (e : Z) (a : A) : M kern_t A := seterr e ;;; ret a.

(** The address space follows the last switch of the scheduler. *)
Definition switched (old new : Msg.core_t) (root : Z) : Z :=
  foldl (fun r e => match e with Sched.EvSwitch x => x | _ => r end) root
        (drop (length (Sched.slog (Msg.sched old))) (Sched.slog (Msg.sched new))).
Definition on_core {A} (m : M Msg.core_t A) : M kern_t A :=
  on core (fun x s => set_cr3 (switched (core s) x (cr3 s)) (set_core x s)) m.
Definition on_sched {A} (m : M Sched.sched_state A) : M kern_t A := on_core (Msg.on_sched m).

Definition vmm_of (s : kern_t) : Vmm.vmm_t :=
  Vmm.mk_vmm (Pmm.set_errno (Msg.core_errno (core s)) (Msg.pmm (core s))) (frames s) (Sched.tasks (Msg.sched (core s))) (archs s)
    (Sched.idle_tcb (Msg.sched (core s))) (win s) (slotwin s) (cr3 s) (Sched.numcores (Msg.sched (core s))) (sharedroots s)
    (Sched.cpu (Msg.sched (core s))).
Definition vmm_to (x : Vmm.vmm_t) (s : kern_t) : kern_t :=
  set_frames (Vmm.frames x) (set_archs (Vmm.archs x) (set_win (Vmm.win x) (set_slotwin (Vmm.slotwin x)
   (set_core (Msg.set_core_errno (Pmm.errno (Vmm.pmm x))
     (Msg.set_pmm (Pmm.set_errno (Pmm.errno (Msg.pmm (core s))) (Vmm.pmm x))
     (Msg.set_sched (Sched.set_tasks (Vmm.tcbs x) (Sched.set_idle_tcb (Vmm.idle_tcb x) (Msg.sched (core s)))) (core s)))) s)))).
Definition on_vmm {A} : M Vmm.vmm_t A -> M kern_t A := on vmm_of vmm_to.

(** The bytes of a page, and of the physical memory. *)
Definition frame_byte (l : list Z) (i : Z) : option Z :=
  w ← zget l (i / 8); Some (Z.land (Z.shiftr w (8 * (i mod 8))) 255).
Definition phys_byte (fr : gmap Z (list Z)) (p : Z) : option Z :=
  l ← fr !! (p - p mod PAGESIZE); frame_byte l (p mod PAGESIZE).

(** The initial ram disk is where the loader has put it. *)
Definition on_fs {A} (m : (Z -> option Z) -> M Initrd.fs_t A) : M kern_t A :=
  fun s => on (fun s => Initrd.mk_fs (fs_size s) (sys_fid s) (Msg.core_errno (core s)))
     (fun x s => set_fs_size (Initrd.fs_size x) (set_sys_fid (Initrd.sys_fid x)
                  (set_core (Msg.set_core_errno (Initrd.fs_errno x) (core s)) s)))
     (m (fun o => phys_byte (frames s) (initrd_ptr s + o))) s.

(** ** Tasks *)

Definition tload (t : Vmm.tptr) : M kern_t tcb_t := on_vmm (Vmm.tload t).
Definition tmod (t : Vmm.tptr) (f : tcb_t -> tcb_t) : M kern_t unit := on_vmm (Vmm.tmod t f).
(** [(tcb_t* )0] *)
Definition current : M kern_t Vmm.tptr := p <-- gets (fun s => Msg.cur (core s)) ;; ret (Vmm.Task p).
Definition runlevel : M kern_t Z := gets (fun s => Sched.runlevel (Msg.sched (core s))).
Definition set_runlevel (v : Z) : M kern_t unit :=
  modify (fun s =>
    let p := Msg.pmm (core s) in
    let p := Pmm.mk_pmm (Pmm.pmm_entries p) (Pmm.pmm_size p) (Pmm.pmm_totalpages p) (Pmm.pmm_freepages p) (Pmm.pmm_lock p)
               (Pmm.srand p) v (Pmm.errno p) (Pmm.pmm_log p) in
    set_core (Msg.set_sched (Sched.set_runlevel v (Msg.sched (core s))) (Msg.set_pmm p (core s))) s).
Definition sched_ptr (t : Vmm.tptr) : Sched.tptr := match t with Vmm.Task p => Sched.Task p | Vmm.Idle => Sched.Idle end.
(** [vmm_switch] to the address space of the task [p]. *)
Definition vmm_switch (p : Z) : M kern_t unit :=
  x <-- tload (Vmm.Task p) ;; modify (fun s => set_cr3 (memroot x) (set_core (Msg.set_cur p (core s)) s)).
Definition cpu_of : M kern_t Z := gets (fun s => Sched.cpu (Msg.sched (core s))).
Definition numcores : M kern_t Z := gets (fun s => Sched.numcores (Msg.sched (core s))).

Definition stir (f : list Z -> list Z) : M kern_t unit :=
  modify (fun s => set_core (Msg.set_pmm (Pmm.set_srand (f (Pmm.srand (Msg.pmm (core s)))) (Msg.pmm (core s))) (core s)) s).
Definition kentropy : M kern_t unit :=
  s <-- get ;; stir (CoreLib.kentropy (Msg.clock_ts (core s)) (Msg.clock_ns (core s))).

Section Memory.
Context {E : Pmm.Entropy}.
(** The end of the core's own code and data, from the linker script. *)
Context (pmm_entries_buf : Z).

(** ** src/core/vmm.h, src/core/core.h *)
Definition MAXCPUS : Z := 1024.
Definition CCBS_ADDRESS : Z := 0xffffffffc0000000.
Definition CDYN_ADDRESS : Z := CCBS_ADDRESS + (MAXCPUS * PAGESIZE + SLOTSIZE - 1) / SLOTSIZE * SLOTSIZE.

(** Exit code of the panic about a page fault. *)
Definition PANIC_fault : Z := 5.

(** A page that is not there yet, in a part of the address space that grows. *)
Definition fault_pagefault (notpresent : bool) (a : Z) : M kern_t unit :=
  if notpresent && (((PAGESIZE <? a) && (a <? TEXT_ADDRESS)) || ((DYN_ADDRESS <=? a) && (a <? BUF_ADDRESS))
                    || ((SDYN_ADDRESS <=? a) && (a <? u64 LDYN_ADDRESS)) || ((CDYN_ADDRESS <=? a) && (a <? Vmm.CDYN_TOP))
                    || (pmm_entries_buf <? a))
  then t <-- current ;; on_vmm (Vmm.vmm_map 3 t a 0 PAGESIZE Vmm.PG_USER_RW) ;;; ret tt
  else stop PANIC_fault.

(** The physical address of [v] in the current address space. *)
Definition walk (s : kern_t) (v : Z) : option Z :=
  let table p i := l ← frames s !! Vmm.vmm_phyaddr p; e ← zget l i; if Vmm.vmm_ispresent e then Some e else None in
  e ← table (cr3 s) (Vmm.idx_512G v); e ← table e (Vmm.idx_1G v); e ← table e (Vmm.idx_2M v);
  if Vmm.vmm_isslot e then Some (Vmm.vmm_phyaddr e + v mod SLOTSIZE) else
  e ← table e (Vmm.idx_4K v); Some (Vmm.vmm_phyaddr e + v mod PAGESIZE).

(** An access, tried again when the page was missing. *)
Definition translate (v : Z) : M kern_t Z :=
  s <-- get ;;
  match walk s v with
  | Some p => ret p
  | None => fault_pagefault true v ;;; s <-- get ;; match walk s v with Some p => ret p | None => stop PANIC_fault end
  end.

Definition ld8 (v : Z) : M kern_t Z := p <-- translate v ;; s <-- get ;; need (phys_byte (frames s) p).
Definition st8 (v x : Z) : M kern_t unit :=
  p <-- translate v ;; s <-- get ;;
  let f := p - p mod PAGESIZE in
  let i := p mod PAGESIZE in
  l <-- need (frames s !! f) ;; w <-- need (zget l (i / 8)) ;;
  let k := 8 * (i mod 8) in
  put (set_frames (<[f := zset l (i / 8) (Z.lor (Z.ldiff w (Z.shiftl 255 k)) (Z.shiftl (u8 x) k))]> (frames s)) s).

(** Numbers of [n] bytes, and blocks. *)
Fixpoint ld (n : nat) (v : Z) : M kern_t Z :=
  match n with O => ret 0 | S n => b <-- ld8 v ;; r <-- ld n (v + 1) ;; ret (b + 256 * r) end.
Fixpoint st (n : nat) (v x : Z) : M kern_t unit :=
  match n with O => ret tt | S n => st8 v (x mod 256) ;;; st n (v + 1) (x / 256) end.
Fixpoint ld_block (n : nat) (v : Z) : M kern_t (list Z) :=
  match n with O => ret [] | S n => b <-- ld8 v ;; l <-- ld_block n (v + 1) ;; ret (b :: l) end.
Fixpoint st_block (v : Z) (l : list Z) : M kern_t unit :=
  match l with [] => ret tt | b :: l => st8 v b ;;; st_block (v + 1) l end.
(** A string. *)
Definition ld_str (fuel : nat) (v : Z) : M kern_t (list Z) :=
  iter fuel (fun '(v, acc) => c <-- ld8 v ;; ret (if c =? 0 then inr acc else inl (v + 1, acc ++ [c]))) (v, []).

(** [memcmp] with a text says equal; it stops at the first difference. *)
Fixpoint mem_is (v : Z) (l : list Z) : M kern_t bool :=
  match l with [] => ret true | b :: l => x <-- ld8 v ;; if x =? b then mem_is (v + 1) l else ret false end.

(** Through a window: the byte [i] of the page in it. *)
Definition win8 (w i : Z) : M kern_t Z :=
  s <-- get ;; e <-- need (zget (win s) w) ;; need (phys_byte (frames s) (Vmm.vmm_phyaddr e + i)).

(** ** Heap

    [bzt_alloc] on the arenas of the core and of the tasks: each call answers an address or
    null. *)
Class Heap : Type := heap_answer : nat -> Z.
Context {H : Heap}.
Definition alloc : M kern_t Z :=
  n <-- gets heap_calls ;; modify (set_heap_calls (S n)) ;;;
  let a := heap_answer n in
  when (a =? 0) (seterr ENOMEM) ;;; ret a.

End Memory.
End Kernel.
