(* ===== verification/KernelFacts.v ===== *)
(** Memory through the page tables of the current address space: what the core writes to a
    mapped range is what it reads from it, and nothing else changes. *)
From Stdlib Require Import ZArith Lia List String.
From stdpp Require Import base option list gmap.
From S2P Require Import Prelude Bytes CoreState Pmm Vmm Sched Security CoreLib Msg Initrd CoreEnv Kernel.
Import Kernel.

#[local] Ltac Zify.zify_post_hook ::= Z.div_mod_to_equations.

Module KernelFacts.

(** ** Bytes of words *)

Lemma byte_of_word w x k j : 0 <= k -> 0 <= j -> (k = j \/ k + 8 <= j \/ j + 8 <= k) ->
  Z.land (Z.shiftr (Z.lor (Z.ldiff w (Z.shiftl 255 k)) (Z.shiftl (u8 x) k)) j) 255 =
  if k =? j then u8 x else Z.land (Z.shiftr w j) 255.
Proof.
  intros Hk Hj Hkj. assert (Hu : 0 <= u8 x < 2 ^ 8) by apply Z.mod_pos_bound, eq_refl.
  change 255 with (Z.ones 8). apply Z.bits_inj'. intros n Hn.
  rewrite Z.land_spec, Z.shiftr_spec, Z.lor_spec, Z.ldiff_spec, !Z.shiftl_spec by lia.
  destruct (n <? 8) eqn:Hn8.
  - rewrite (Z.ones_spec_low 8 n) by lia. rewrite andb_true_r. destruct (k =? j) eqn:Ekj.
    + replace (n + j - k) with n by lia. rewrite (Z.ones_spec_low 8 n) by lia. by rewrite andb_false_r.
    + rewrite Z.land_spec, Z.shiftr_spec, (Z.ones_spec_low 8 n), andb_true_r by lia.
      destruct (n + j <? k) eqn:E.
      * rewrite !(Z.testbit_neg_r _ (n + j - k)) by lia. by rewrite andb_true_r, orb_false_r.
      * rewrite (Z.ones_spec_high 8 (n + j - k)) by lia. rewrite andb_true_r.
        rewrite (Z.bits_above_log2 (u8 x)), orb_false_r; [done|lia|].
        destruct (Z.eq_dec (u8 x) 0) as [->|]; [cbn; lia|]. apply Z.log2_lt_pow2; [lia|].
        eapply Z.lt_le_trans; [apply Hu|]. apply Z.pow_le_mono_r; lia.
  - rewrite (Z.ones_spec_high 8 n) by lia. rewrite andb_false_r. destruct (k =? j).
    + symmetry. apply Z.bits_above_log2; [lia|]. destruct (Z.eq_dec (u8 x) 0) as [->|]; [cbn; lia|].
      apply Z.log2_lt_pow2; [lia|]. eapply Z.lt_le_trans; [apply Hu|]. apply Z.pow_le_mono_r; lia.
    + by rewrite Z.land_spec, (Z.ones_spec_high 8 n), andb_false_r by lia.
Qed.

(** A page with the byte [i] replaced. *)
Definition put_byte (l : list Z) (i x : Z) : list Z :=
  zset l (i / 8) (Z.lor (Z.ldiff (default 0 (zget l (i / 8))) (Z.shiftl 255 (8 * (i mod 8)))) (Z.shiftl (u8 x) (8 * (i mod 8)))).

Lemma frame_put l i x j : zlen l = 512 -> 0 <= i < PAGESIZE -> 0 <= j < PAGESIZE ->
  frame_byte (put_byte l i x) j = if i =? j then Some (u8 x) else frame_byte l j.
Proof.
  intros Hl Hi Hj. change PAGESIZE with 4096 in *. unfold frame_byte, put_byte.
  destruct (zget_is_Some l (i / 8)) as [w Hw]; [lia|]. rewrite Hw. cbn [default].
  destruct (i / 8 =? j / 8) eqn:E.
  - assert (i / 8 = j / 8) as Hd by lia. rewrite <- Hd, Hw, zget_zset_eq by lia. cbn.
    rewrite byte_of_word by lia. replace (8 * (i mod 8) =? 8 * (j mod 8)) with (i =? j) by lia. by destruct (i =? j).
  - rewrite zget_zset_ne by lia. by replace (i =? j) with false by lia.
Qed.

(** ** The walk of an address *)

Definition table (s : kern_t) (p i : Z) : option Z :=
  l ← frames s !! Vmm.vmm_phyaddr p; e ← zget l i; if Vmm.vmm_ispresent e then Some e else None.
(** The pages that it reads. *)
Definition walk_tables (s : kern_t) (v : Z) : list Z :=
  Vmm.vmm_phyaddr (cr3 s) ::
  match table s (cr3 s) (Vmm.idx_512G v) with None => [] | Some e => Vmm.vmm_phyaddr e ::
  match table s e (Vmm.idx_1G v) with None => [] | Some e => Vmm.vmm_phyaddr e ::
  match table s e (Vmm.idx_2M v) with None => [] | Some e => [Vmm.vmm_phyaddr e] end end end.

Lemma table_other s f l p i : f <> Vmm.vmm_phyaddr p -> table (set_frames (<[f := l]> (frames s)) s) p i = table s p i.
Proof. intros Hf. unfold table. cbn. by rewrite lookup_insert_ne. Qed.

Lemma walk_eq s v : walk s v =
  (e ← table s (cr3 s) (Vmm.idx_512G v); e ← table s e (Vmm.idx_1G v); e ← table s e (Vmm.idx_2M v);
   if Vmm.vmm_isslot e then Some (Vmm.vmm_phyaddr e + v mod SLOTSIZE) else
   e ← table s e (Vmm.idx_4K v); Some (Vmm.vmm_phyaddr e + v mod PAGESIZE)).
Proof. done. Qed.

Lemma walk_other s f l v : f ∉ walk_tables s v ->
  let s' := set_frames (<[f := l]> (frames s)) s in walk s' v = walk s v /\ walk_tables s' v = walk_tables s v.
Proof.
  intros Hf s'. rewrite !walk_eq. unfold walk_tables in *. change (cr3 s') with (cr3 s).
  apply not_elem_of_cons in Hf as [H0 Hf]. unfold s'. rewrite table_other by done.
  destruct (table s (cr3 s) (Vmm.idx_512G v)) as [e1|]; [|done]. cbn [mbind option_bind].
  apply not_elem_of_cons in Hf as [H1 Hf]. rewrite table_other by done.
  destruct (table s e1 (Vmm.idx_1G v)) as [e2|]; [|done]. cbn [mbind option_bind].
  apply not_elem_of_cons in Hf as [H2 Hf]. rewrite table_other by done.
  destruct (table s e2 (Vmm.idx_2M v)) as [e3|]; [|done]. cbn [mbind option_bind].
  destruct (Vmm.vmm_isslot e3); [done|]. rewrite table_other by set_solver. done.
Qed.

(** ** A range of memory that can be written *)

Definition page (p : Z) : Z := p - p mod PAGESIZE.
Definition mem (s : kern_t) (v : Z) : option Z := p ← walk s v; phys_byte (frames s) p.

Record region (s : kern_t) (a n : Z) : Prop := mk_region {
  is_mapped : forall v, a <= v < a + n -> exists p l, walk s v = Some p /\ frames s !! page p = Some l /\ zlen l = 512;
  off_tables : forall v w p, a <= v < a + n -> a <= w < a + n -> walk s v = Some p -> page p ∉ walk_tables s w;
  one_each : forall v w p, a <= v < a + n -> a <= w < a + n -> walk s v = Some p -> walk s w = Some p -> v = w;
}.

(** A state after writes to the range [a, a + n): only pages change, and in them only the
    bytes that the range is mapped to. *)
Record wrote (a n : Z) (s s' : kern_t) : Prop := mk_wrote {
  only_frames : exists fr, s' = set_frames fr s;
  same_walk : forall v, a <= v < a + n -> walk s' v = walk s v;
  same_tables : forall v, a <= v < a + n -> walk_tables s' v = walk_tables s v;
  other_bytes : forall p, (forall v, a <= v < a + n -> walk s v <> Some p) -> phys_byte (frames s') p = phys_byte (frames s) p;
  whole_pages : forall f l, frames s !! f = Some l -> zlen l = 512 -> exists l', frames s' !! f = Some l' /\ zlen l' = 512;
}.

Lemma wrote_refl a n s : wrote a n s s.
Proof. split; try done; [by exists (frames s); destruct s|]. intros f l Hf Hl. by exists l. Qed.

Lemma wrote_trans a n s s' s'' : wrote a n s s' -> wrote a n s' s'' -> wrote a n s s''.
Proof.
  intros [[fr ->] W1 T1 O1 P1] [[fr' ->] W2 T2 O2 P2]. split.
  - by exists fr'.
  - intros v Hv. by rewrite W2, W1.
  - intros v Hv. by rewrite T2, T1.
  - intros p Hp. rewrite O2; [by apply O1|]. intros v Hv. rewrite W1 by done. by apply Hp.
  - intros f l Hf Hl. destruct (P1 f l Hf Hl) as (l1 & Hf1 & Hl1). by apply (P2 f l1).
Qed.

Lemma region_wrote a n s s' : region s a n -> wrote a n s s' -> region s' a n.
Proof.
  intros [R1 R2 R3] W. split.
  - intros v Hv. destruct (R1 v Hv) as (p & l & Hp & Hl & Hn). destruct (whole_pages _ _ _ _ W _ _ Hl Hn) as (l' & Hl' & Hn').
    exists p, l'. by rewrite (same_walk _ _ _ _ W).
  - intros v w p Hv Hw. rewrite (same_walk _ _ _ _ W), (same_tables _ _ _ _ W) by done. by apply R2.
  - intros v w p Hv Hw. rewrite !(same_walk _ _ _ _ W) by done. by apply R3.
Qed.

Section Memory.
Context {E : Pmm.Entropy}.
Context (pmm_entries_buf : Z).

Lemma wp_translate v p (Q : Z -> kern_t -> Prop) s : walk s v = Some p -> Q p s -> wp (translate pmm_entries_buf v) Q s.
Proof. intros Hp HQ. unfold translate. apply wp_bind, wp_get. by rewrite Hp. Qed.

Lemma ld8_mem s v b : mem s v = Some b -> ld8 pmm_entries_buf v s = Ret b s.
Proof.
  unfold mem. intros H. destruct (walk s v) as [p|] eqn:Hp; [|done]. cbn in H.
  unfold ld8, translate, bind, get. rewrite Hp. unfold ret, need. by rewrite H.
Qed.

Lemma phys_put fr f l i x p : fr !! f = Some l -> zlen l = 512 -> 0 <= i < PAGESIZE -> f mod PAGESIZE = 0 ->
  phys_byte (<[f := put_byte l i x]> fr) p = if p =? f + i then Some (u8 x) else phys_byte fr p.
Proof.
  intros Hf Hl Hi Hm. unfold phys_byte. fold (page p). assert (Hpm : 0 <= p mod PAGESIZE < PAGESIZE) by (apply Z.mod_pos_bound, eq_refl).
  destruct (decide (f = page p)) as [->|Hne].
  - rewrite lookup_insert_eq, Hf. cbn. rewrite frame_put by done. unfold page. by replace (i =? p mod PAGESIZE) with (p =? p - p mod PAGESIZE + i) by lia.
  - rewrite lookup_insert_ne by done. replace (p =? f + i) with false; [done|]. symmetry. apply Z.eqb_neq. intros ->. apply Hne.
    unfold page. rewrite Z.add_mod, Hm, Z.add_0_l, Z.mod_mod, (Z.mod_small i) by done. lia.
Qed.

Lemma wp_st8 a n v x (Q : unit -> kern_t -> Prop) s : region s a n -> a <= v < a + n ->
  (forall s', wrote a n s s' -> (forall w, a <= w < a + n -> mem s' w = if w =? v then Some (u8 x) else mem s w) -> Q tt s') ->
  wp (st8 pmm_entries_buf v x) Q s.
Proof.
  intros HR Hv HQ. destruct (is_mapped _ _ _ HR v Hv) as (p & l & Hp & Hl & Hn).
  unfold st8. apply wp_bind. eapply wp_translate; [exact Hp|]. apply wp_bind, wp_get. fold (page p).
  assert (Hpm : 0 <= p mod PAGESIZE < PAGESIZE) by (apply Z.mod_pos_bound, eq_refl).
  assert (Hpg : page p mod PAGESIZE = 0) by (unfold page; rewrite Zminus_mod_idemp_r, Z.sub_diag; done).
  apply wp_bind. eapply wp_need; [exact Hl|].
  destruct (zget_is_Some l (p mod PAGESIZE / 8)) as [w Hw]; [change PAGESIZE with 4096 in *; lia|].
  apply wp_bind. eapply wp_need; [exact Hw|].
  replace (zset _ _ _) with (put_byte l (p mod PAGESIZE) x) by (unfold put_byte; by rewrite Hw).
  set (s' := set_frames _ s).
  assert (Hwalk : forall w, a <= w < a + n -> walk s' w = walk s w /\ walk_tables s' w = walk_tables s w).
  { intros u Hu. apply walk_other. exact (off_tables _ _ _ HR v u p Hv Hu Hp). }
  apply (HQ s'); [split|].
  - by eexists.
  - intros u Hu. by apply Hwalk.
  - intros u Hu. by apply Hwalk.
  - intros q Hq. cbn. rewrite phys_put by done. replace (q =? page p + p mod PAGESIZE) with false; [done|].
    symmetry. apply Z.eqb_neq. intros ->. apply (Hq v Hv). rewrite Hp. f_equal. unfold page. lia.
  - intros f k Hf Hk. cbn. destruct (decide (f = page p)) as [->|]; [|rewrite lookup_insert_ne by done; by exists k].
    rewrite lookup_insert_eq. eexists. split; [done|]. unfold put_byte. by rewrite zlen_zset.
  - intros u Hu. unfold mem. rewrite (proj1 (Hwalk u Hu)). destruct (is_mapped _ _ _ HR u Hu) as (q & k & Hq & _).
    rewrite Hq. cbn. rewrite phys_put by done. replace (page p + p mod PAGESIZE) with p by (unfold page; lia).
    destruct (u =? v) eqn:Euv; [assert (u = v) as -> by lia|]; destruct (q =? p) eqn:Eqp; try done.
    + rewrite Hp in Hq. injection Hq as ->. lia.
    + assert (q = p) as -> by lia. exfalso. apply (Z.eqb_neq u v) in Euv. apply Euv. by apply (one_each _ _ _ HR u v p).
Qed.

(** Memory with the bytes [l] at [v]. *)
Definition upd (m : Z -> option Z) (v : Z) (l : list Z) (w : Z) : option Z := if (v <=? w) && (w <? v + zlen l) then zget l (w - v) else m w.

Lemma wp_st_block a n l v (Q : unit -> kern_t -> Prop) s : region s a n -> a <= v -> v + zlen l <= a + n -> Forall (fun b => u8 b = b) l ->
  (forall s', wrote a n s s' -> (forall w, a <= w < a + n -> mem s' w = upd (mem s) v l w) -> Q tt s') ->
  wp (st_block pmm_entries_buf v l) Q s.
Proof.
  revert v s Q. induction l as [|b l IH]; intros v s Q HR Hv Hl Hb HQ.
  - apply wp_ret, HQ; [apply wrote_refl|]. intros w Hw. unfold upd. by replace ((v <=? w) && (w <? v + zlen [])) with false by (unfold zlen; cbn; lia).
  - inversion Hb; subst. rewrite zlen_cons in Hl. pose proof (zlen_nonneg l). cbn [st_block]. apply wp_bind.
    eapply wp_st8; [exact HR|lia|]. intros s1 W1 M1. eapply IH; [by eapply region_wrote|lia|lia|done|].
    intros s2 W2 M2. apply HQ; [by eapply wrote_trans|]. intros w Hw. rewrite M2 by done. unfold upd. rewrite zlen_cons, (M1 w Hw).
    destruct (w =? v) eqn:Ewv.
    + replace ((v + 1 <=? w) && _) with false by lia. replace ((v <=? w) && _) with true by lia.
      replace (w - v) with 0 by lia. rewrite zget_cons_0. congruence.
    + destruct ((v + 1 <=? w) && (w <? v + 1 + zlen l)) eqn:Ein.
      * replace ((v <=? w) && (w <? v + (1 + zlen l))) with true by lia. rewrite zget_cons_S by lia. f_equal. lia.
      * by replace ((v <=? w) && (w <? v + (1 + zlen l))) with false by lia.
Qed.

(** Numbers are blocks. *)
Lemma st_le n v x : st pmm_entries_buf n v x = st_block pmm_entries_buf v (le n x).
Proof. revert v x. induction n as [|n IH]; intros v x; [done|]. cbn. by rewrite IH. Qed.

Lemma ld_le n v x s : 0 <= x < 256 ^ Z.of_nat n -> holds (mem s) v (le n x) -> ld pmm_entries_buf n v s = Ret x s.
Proof.
  revert v x. induction n as [|n IH]; intros v x Hx H.
  - cbn. change (256 ^ Z.of_nat 0) with 1 in Hx. by replace x with 0 by lia.
  - cbn [le] in H. apply holds_cons in H as [H1 H2]. cbn [ld]. rewrite (run_bind _ _ _ _ _ (ld8_mem _ _ _ H1)).
    rewrite Nat2Z.inj_succ, Z.pow_succ_r in Hx by lia. rewrite (run_bind _ _ _ _ _ (IH _ (x / 256) ltac:(lia) H2)). unfold ret. f_equal. lia.
Qed.

Lemma ld_str_holds fuel l v s : Forall (fun b => b <> 0) l -> (length l < fuel)%nat -> holds (mem s) v (l ++ [0]) ->
  ld_str pmm_entries_buf fuel v s = Ret l s.
Proof.
  unfold ld_str. intros Hl Hf H. match goal with |- iter fuel ?f _ s = _ => set (body := f) end.
  assert (Hgen : forall fuel v acc, (length l < fuel)%nat -> holds (mem s) v (l ++ [0]) -> iter fuel body (v, acc) s = Ret (acc ++ l) s).
  { clear v fuel Hf H. induction Hl as [|b l Hb Hl IH]; intros fuel v acc Hf H; (destruct fuel as [|fuel]; [cbn in Hf; lia|]).
    - cbn [app] in H. apply holds_cons in H as [H _]. rewrite iter_S. unfold bind at 1, body at 1. rewrite (run_bind _ _ _ _ _ (ld8_mem _ _ _ H)).
      cbn. by rewrite app_nil_r.
    - cbn [app] in H. apply holds_cons in H as [H1 H2]. rewrite iter_S. unfold bind at 1, body at 1. rewrite (run_bind _ _ _ _ _ (ld8_mem _ _ _ H1)).
      replace (b =? 0) with false by lia. unfold ret at 1. cbn in Hf. rewrite (IH fuel (v + 1) (acc ++ [b])) by (done || lia).
      by rewrite <- app_assoc. }
  by apply Hgen.
Qed.

End Memory.

(** ** A state to run examples on

    One task with five tables and one page: 4K below [TEXT_ADDRESS] of the buffer. *)
Module Sample.

Definition root : Z := 0x1000.
Definition stack_page : Z := 0x5000.
Definition sched : Sched.sched_state := Sched.mk_sched ∅ zero_tcb [] 1 0 0 0 0 RUNLVL_NORM 0 0 [].
Definition core : Msg.core_t :=
  Msg.mk_core sched (Pmm.mk_pmm [] 0 0 0 false [0; 0; 0; 0] RUNLVL_NORM 0 []) ∅ ∅ [0; 9; 0; 0; 0; 0; 0; 0] 4 0 false 1000 0.
Definition with_entry (i e : Z) : list Z := zset Vmm.zero_frame i e.
Definition frames : gmap Z (list Z) :=
  <[root := with_entry 0 0x2007]> (<[0x2000 := with_entry 508 0x3007]> (<[0x3000 := with_entry 1 0x4007]>
  (<[0x4000 := with_entry 511 0x5007]> (<[stack_page := Vmm.zero_frame]> ∅)))).
Definition env : CoreEnv.env_state := CoreEnv.mk_env 0 0 0 0 0 [] [] [] false 0.
(** A platform with 16 interrupts, the clock on line 8 with 1024 Hz. *)
Definition state : kern_t :=
  mk_kern core frames ∅ [] 0 root [] [] 0 0 0 0 [] 0 0 ∅ ∅ 0 (List.repeat None 16) 16 0 8 1024 976562500 1024 0 0 0 env None None [] 0 0 []
    [] 0 [] [].
Definition sp : Z := TEXT_ADDRESS - 256.
Definition stack : Z := BUF_ADDRESS + sp.

Lemma same_page v : stack <= v < stack + 256 ->
  Vmm.idx_512G v = 0 /\ Vmm.idx_1G v = 508 /\ Vmm.idx_2M v = 1 /\ Vmm.idx_4K v = 511 /\ v mod PAGESIZE = v - stack + 3840.
Proof.
  intros Hv. change stack with 0x7F003FFF00 in *.
  assert (E : forall n, 0 <= n -> Z.land (Z.shiftr v n) 511 = v / 2 ^ n mod 512).
  { intros n Hn. change 511 with (Z.ones 9). by rewrite Z.land_ones, Z.shiftr_div_pow2 by lia. }
  unfold Vmm.idx_512G, Vmm.idx_1G, Vmm.idx_2M, Vmm.idx_4K. rewrite !E by (done || lia).
  change (2 ^ 39) with 549755813888. change (2 ^ 30) with 1073741824. change (2 ^ 21) with 2097152. change (2 ^ PAGEBITS) with 4096.
  change PAGESIZE with 4096. lia.
Qed.

Lemma stack_walk v : stack <= v < stack + 256 ->
  walk state v = Some (stack_page + (v - stack + 3840)) /\ walk_tables state v = [0x1000; 0x2000; 0x3000; 0x4000].
Proof.
  intros Hv. destruct (same_page v Hv) as (E1 & E2 & E3 & E4 & E5). rewrite walk_eq. unfold walk_tables. rewrite E1, E2, E3, E4, E5.
  assert (T1 : table state (cr3 state) 0 = Some 0x2007) by by vm_compute. rewrite T1. cbn [mbind option_bind].
  assert (T2 : table state 0x2007 508 = Some 0x3007) by by vm_compute. rewrite T2. cbn [mbind option_bind].
  assert (T3 : table state 0x3007 1 = Some 0x4007) by by vm_compute. rewrite T3. cbn [mbind option_bind].
  change (Vmm.vmm_isslot 0x4007) with false. cbn iota.
  assert (T4 : table state 0x4007 511 = Some 0x5007) by by vm_compute. rewrite T4. by split.
Qed.

Lemma stack_region n : 0 <= n <= 256 -> region state stack n.
Proof.
  intros Hn. assert (Hp : forall v, stack <= v < stack + n -> page (stack_page + (v - stack + 3840)) = stack_page).
  { intros v Hv. unfold page. change PAGESIZE with 4096. change stack_page with 20480. lia. }
  split.
  - intros v Hv. destruct (stack_walk v) as [-> _]; [lia|]. exists (stack_page + (v - stack + 3840)), Vmm.zero_frame. split; [done|].
    by rewrite Hp.
  - intros v w p Hv Hw. destruct (stack_walk v) as [-> _]; [lia|]. destruct (stack_walk w) as [_ ->]; [lia|].
    intros [= <-]. rewrite Hp by done. rewrite !not_elem_of_cons. repeat (split; [done|]). apply not_elem_of_nil.
  - intros v w p Hv Hw. destruct (stack_walk v) as [-> _]; [lia|]. destruct (stack_walk w) as [-> _]; [lia|]. intros [= <-] [=]. lia.
Qed.

End Sample.
End KernelFacts.
