(* ===== verification/Irq.v ===== *)
(** The early log, the routing of interrupts to tasks and the wall clock: src/core/syslog.c,
    the routing table and the end of the start-up in src/core/drivers.c, src/core/clock.c. *)
From Stdlib Require Import ZArith Lia List String.
From stdpp Require Import base option list gmap.
From S2P Require Import Prelude CoreState Pmm Vmm Sched Security CoreLib Msg Initrd CoreEnv Kernel.
Import Kernel.

(** ** src/core/syslog.c *)
Module Syslog.

Definition LOG_ERR : Z := 3.
Definition LOG_INFO : Z := 6.
Definition LOG_CORE : Z := 0.
Definition DBG_LOG : Z := Z.shiftl 1 10.
Definition SYS_syslog : Z := 0x06.
Definition NEWLINE : Z := 10.

(** The start of a line: date, time and zone. *)
Definition stamp (d : list Z) (tz : Z) : CoreLib.text :=
  let p i := CoreLib.VInt (default 0 (zget d i)) in
  let a := Z.abs tz in
  t1 ← CoreLib.sprintf (str "%1x%1x-") [p 0; p 1];
  t2 ← CoreLib.sprintf (str "%1x-%1xT") [p 2; p 3];
  t3 ← CoreLib.sprintf (str "%1x:%1x:%1x") [p 4; p 5; p 6];
  t4 ← CoreLib.sprintf (str "%1d%1d:") [CoreLib.VInt (a / 600); CoreLib.VInt (a / 60 mod 10)];
  t5 ← CoreLib.sprintf (str "%1d%1d - boot - - - ") [CoreLib.VInt (a mod 60 / 10); CoreLib.VInt (a mod 10)];
  Some (t1 ++ t2 ++ t3 ++ [if tz <? 0 then 45 else 43] ++ t4 ++ t5).

(** [while( *syslog_ptr) syslog_ptr++;] *)
Definition seek_end : M kern_t unit :=
  s <-- get ;;
  i <-- iter (Z.to_nat PAGESIZE + 1) (fun i => c <-- need (zget (syslog_buffer s) i) ;; ret (if c =? 0 then inr i else inl (i + 1))) (syslog_ptr s) ;;
  put (set_syslog_ptr i s).

(** Bytes at the pointer, which goes behind them. *)
Fixpoint write (l : list Z) : M kern_t unit :=
  match l with
  | [] => ret tt
  | c :: l =>
      s <-- get ;; need (zget (syslog_buffer s) (syslog_ptr s)) ;;;
      put (set_syslog_ptr (syslog_ptr s + 1) (set_syslog_buffer (zset (syslog_buffer s) (syslog_ptr s) c) s)) ;;;
      write l
  end.
(** A terminator, which the next text overwrites. *)
Definition terminate : M kern_t unit :=
  s <-- get ;; need (zget (syslog_buffer s) (syslog_ptr s)) ;;;
  put (set_syslog_buffer (zset (syslog_buffer s) (syslog_ptr s) 0) s).

(** A line feed at the end of a message is stepped back over. *)
Definition step_back : M kern_t unit :=
  s <-- get ;;
  i <-- iter (Z.to_nat PAGESIZE + 1) (fun i => c <-- need (zget (syslog_buffer s) (i - 1)) ;; ret (if c =? NEWLINE then inl (i - 1) else inr i)) (syslog_ptr s) ;;
  put (set_syslog_ptr i s).

Section Log.
Context {E : Pmm.Entropy}.
Context (pick_ready : M Sched.sched_state unit).
(** The addresses of the buffer and of the text "core", in the core's own data. *)
Context (buffer_at name_at : Z).

Definition syslog (pri : Z) (fmt : option (list Z)) (args : list CoreLib.va) : M kern_t unit :=
  r <-- runlevel ;; srv <-- on_core (Msg.service (-3)) ;;
  let hasService := (r =? RUNLVL_NORM) && negb (srv =? 0) in
  let fmt := match fmt with Some (c :: l) => c :: l | _ => str "???" end in
  old <-- (if hasService then modify (set_syslog_ptr 0) ;;; ret 0 else
           seek_end ;;;
           p <-- gets syslog_ptr ;;
           when (PAGESIZE - 256 <=? p) (modify (set_syslog_ptr 0)) ;;;
           old <-- gets syslog_ptr ;;
           s <-- get ;; t <-- need (stamp (datetime s) (clock_tz s)) ;; write t ;;; ret old) ;;
  t <-- need (CoreLib.vsprintf fmt args) ;;
  write t ;;; terminate ;;; step_back ;;;
  if negb hasService then
    write [NEWLINE] ;;; terminate ;;;
    (* to the console, as a format *)
    s <-- get ;;
    when (has (debug s) DBG_LOG) (emit (EvConsole (CoreLib.cstr (drop (Z.to_nat old) (syslog_buffer s)))))
  else
    terminate ;;;
    on_core (Msg.msg_send pick_ready buffer_at pri LOG_CORE name_at 0 0 (Z.lor (EVT_DEST (-3)) (Z.lor (EVT_FUNC SYS_syslog) MSG_PTRDATA)) 0) ;;; ret tt.

End Log.
End Syslog.

(** ** src/core/drivers.c: interrupts *)
Module Irq.
Import Syslog.

Definition DRV_IRQ : Z := 0.
Definition SYS_mountfs : Z := 6.

(** Leaves the choice of a task where the drivers are done, see [Kernel.sched_pick]. *)
Definition READY : Z := 100.
Definition pick_ready : M Sched.sched_state unit := stop READY.

(** A list of pids with the place of its first entry that is not zero, which is where
    [for(i=0; !list[i]; i++)] stops. *)
Definition first_used (l : list Z) : M kern_t Z :=
  iter (S (length l)) (fun i => p <-- need (zget l i) ;; ret (if p =? 0 then inl (i + 1) else inr i)) 0.

Section Irq.
Context {E : Pmm.Entropy} {H : Heap}.
Context (buffer_at name_at : Z).

Definition drivers_regintr (irq task : Z) : M kern_t unit :=
  s <-- get ;;
  if (irq_max s <=? irq) || (irq =? sched_irq s) || (task =? 0) then seterr EINVAL else
  seterr SUCCESS ;;;
  l <-- need (zget (irt s) irq) ;;
  (* no entry that is passed can be the task *)
  i <-- match l with Some l => first_used l | None => ret 0 end ;;
  a <-- alloc ;;
  if a =? 0 then modify (fun s => set_irt (zset (irt s) irq None) s) else
  let old := default [] l in
  let new := take (Z.to_nat (i + 2)) (old ++ List.repeat 0 (Z.to_nat (i + 2))) in
  modify (fun s => set_irt (zset (irt s) irq (Some (zset new i task))) s).

(** The line [irq]. *)
Definition unregintr_line (irq : Z) : M kern_t unit :=
  s <-- get ;;
  l <-- need (zget (irt s) irq) ;;
  match l with
  | None => ret tt
  | Some l =>
      (* the task is not among the entries that are passed *)
      i <-- first_used l ;;
      when (i <=? 1) (modify (fun s => set_irt (zset (irt s) irq None) s))
  end.

Definition drivers_unregintr (task : Z) : M kern_t unit :=
  if task =? 0 then seterr EINVAL else
  s <-- get ;;
  iter (S (Z.to_nat (irq_max s))) (fun irq =>
    if irq <? irq_max s then unregintr_line irq ;;; ret (inl (irq + 1)) else ret (inr tt)) 0.

(** ** The end of the start-up *)

Definition mode_name (d : Z) : list Z :=
  if d =? 0 then str "mono mono" else if d =? 1 then str "mono color"
  else if d =? 2 then str "stereo mono" else str "stereo color".

Definition log_info (fmt : list Z) (args : list CoreLib.va) : M kern_t unit :=
  syslog pick_ready buffer_at name_at LOG_INFO (Some fmt) args.

(** One line of the table of routes. *)
Definition log_route (i : Z) : M kern_t unit :=
  s <-- get ;;
  let l := if i <? irq_max s then default None (zget (irt s) i) else None in
  (if i =? sched_irq s then log_info (str " %3d: core (scheduler)") [CoreLib.VInt i]
   else if i =? clock_irq s then log_info (str " %3d: core (wallclock %d Hz)") [CoreLib.VInt i; CoreLib.VInt (clock_freq s)]
   else match l with
        | Some l =>
            iter (S (length l)) (fun j =>
              p <-- need (zget l j) ;;
              if p =? 0 then ret (inr tt) else log_info (str " %3d: pid %x") [CoreLib.VInt i; CoreLib.VInt p] ;;; ret (inl (j + 1))) 0
        | None => ret tt
        end) ;;;
  when ((i =? sched_irq s) || (i =? clock_irq s) || match l with Some _ => true | None => false end) (emit (EvEnable i)).

(** The driver of the display without its extension. *)
Definition no_extension (l : list Z) : list Z :=
  let f := fix f (l : list Z) : list Z := match l with [] => [] | c :: l => if c =? 46 then [] else c :: f l end in f l.

(** The other CPUs are waited for. *)
Definition drivers_ready : M kern_t unit :=
  modify (fun s => set_numinit (numinit s + 1) s) ;;;
  s <-- get ;;
  c <-- on_sched (c <-- gets Sched.cpu ;; Sched.ccb_get c) ;;
  n <-- numcores ;; r <-- runlevel ;;
  if negb (Sched.id c =? 0) then (if r =? RUNLVL_NORM then ret tt else loop) else
  if numinit s <? n then loop else
  when (default 0 (head (CoreEnv.display_drv (env s))) =? 0)
    (modify (fun s => set_env (CoreEnv.set_display_drv (str "/sys/drv/display/fb.so") (env s)) s)) ;;;
  s <-- get ;;
  let e := env s in
  log_info (str " %s (%s) pid %d")
    [CoreLib.VStr (Some (no_extension (drop 9 (CoreEnv.display_drv e))));
     CoreLib.VStr (Some (if default 0 (head (CoreEnv.display_env e)) =? 0 then mode_name (CoreEnv.display e) else CoreEnv.display_env e));
     CoreLib.VInt (-2)] ;;;
  log_info (str "IRQ Routing Table (%d IRQs)") [CoreLib.VInt (irq_max s)] ;;;
  let k := u16 (Z.max (sched_irq s) (clock_irq s) + 1) in
  let k := u16 (Z.max (irq_max s) k) in
  iter (S (Z.to_nat k)) (fun i => if i <? k then log_route i ;;; ret (inl (i + 1)) else ret (inr tt)) 0 ;;;
  s <-- get ;;
  let p := Msg.pmm (core s) in
  log_info (str "Ready. Memory %d of %d pages free.") [CoreLib.VInt (Pmm.pmm_freepages p); CoreLib.VInt (Pmm.pmm_totalpages p)] ;;;
  emit EvScrollOff ;;; emit EvClockAck ;;;
  srv <-- on_core (Msg.service SRV_FS) ;;
  on_core (Msg.msg_notify srv SYS_mountfs 0) ;;;
  set_runlevel RUNLVL_NORM.

(** [sched_pick]: when the drivers are done, the choice goes on behind [drivers_ready]. *)
Definition sched_pick : M kern_t unit := fun s =>
  match on_core (Msg.pick pick_ready) s with
  | Exit c x =>
      if c =? READY then
        (drivers_ready ;;;
         let ccb := on_sched (c <-- gets Sched.cpu ;; Sched.ccb_get c) in
         old <-- ccb ;;
         t <-- on_sched (Sched.pick_started true) ;;
         on_sched (Sched.pick_switch t) ;;;
         new <-- ccb ;;
         when (negb (Sched.current new =? Sched.current old)) (modify (fun s => set_core (Msg.set_cur (Sched.current new) (core s)) s))) x
      else Exit c x
  | r => r
  end.

(** ** An interrupt of a device *)

Fixpoint notify_all (l : list Z) (irq : Z) (any : bool) : M kern_t bool :=
  match l with
  | [] => ub
  | p :: l =>
      if p =? 0 then ret any else
      s <-- get ;; stir (CoreLib.upd (Z.shiftr p 7) (Z.lxor (Msg.clock_ns (core s)))) ;;;
      on_core (Msg.msg_notify p DRV_IRQ irq) ;;; notify_all l irq true
  end.

Definition drivers_intr (irq : Z) : M kern_t unit :=
  s <-- get ;;
  any <-- (if irq <? irq_max s then
             l <-- need (zget (irt s) irq) ;;
             match l with
             | Some l => emit (EvDisable irq) ;;; stir (CoreLib.upd irq (Z.lxor (Msg.clock_ts (core s)))) ;;; notify_all l irq false
             | None => ret false
             end
           else ret false) ;;
  when any sched_pick.

End Irq.
End Irq.

(** ** src/core/clock.c *)
Module Clock.

Section Clock.
Context {E : Pmm.Entropy} {H : Heap}.
Context (buffer_at name_at : Z).

Definition set_time (ts ns : Z) : M kern_t unit :=
  modify (fun s => set_core (Msg.set_clock_ts ts (Msg.set_clock_ns ns (core s))) s).
Definition set_ticks (v : Z) : M kern_t unit :=
  modify (fun s => set_core (Msg.set_sched (Sched.set_clock_ticks v (Msg.sched (core s))) (core s)) s).

Definition clock_init : M kern_t unit :=
  s <-- get ;;
  t <-- need (CoreEnv.env_getts (datetime s) (clock_tz s)) ;;
  set_time (u64 (t + 1)) 0 ;;; set_ticks 0 ;;;
  if clock_freq s =? 0 then ub else
  modify (set_clock_step (1000000000000 / clock_freq s)) ;;;
  modify (set_clock_cnt (clock_freq s)) ;;;
  modify (set_clock_pids 0).

Definition USHRT_MAX : Z := 65535.

Definition clock_intr : M kern_t unit :=
  s <-- get ;;
  pid <-- need (zget (irt s) (clock_irq s)) ;;
  emit EvClockAck ;;;
  set_ticks (u64 (Sched.clock_ticks (Msg.sched (core s)) + clock_step s)) ;;;
  let n := u64 (clock_cnt s - 1) in
  modify (set_clock_cnt n) ;;;
  let ts := Msg.clock_ts (core s) in
  (* the entry of the task whose turn it is, null without a list *)
  p <-- match pid with Some l => need (zget l (clock_pids s)) | None => ret 0 end ;;
  if negb (n =? 0) then
    set_time ts (u64 (Msg.clock_ns (core s) + clock_step s)) ;;;
    when (negb (p =? 0))
     (modify (set_clock_pids (u64 (clock_pids s + 1))) ;;;
      on_core (Msg.msg_notify p Irq.DRV_IRQ USHRT_MAX) ;;;
      Irq.sched_pick buffer_at name_at)
  else
    set_time (u64 (ts + 1)) 0 ;;;
    modify (set_clock_cnt (clock_freq s)) ;;;
    match pid with
    | Some _ => when (p =? 0) (modify (set_clock_pids 0))
    | None => ret tt
    end.

End Clock.
End Clock.
