(* ===== verification/IrqFacts.v ===== *)
(** The routing of interrupts keeps its form and holds one task per line; the wall clock
    counts the time. *)
From Stdlib Require Import ZArith Lia List String.
From stdpp Require Import base option list gmap.
From S2P Require Import Prelude CoreState Pmm Vmm Sched Security CoreLib Msg Initrd CoreEnv Kernel KernelFacts Irq.
Import Kernel.

Module IrqFacts.

(** ** The table of routes *)
Section Routes.
Context {H : Heap}.

(** The form of a line: null, or one task and the terminator. *)
Definition line_ok (l : option (list Z)) : Prop := match l with Some l => exists t, t <> 0 /\ l = [t; 0] | None => True end.
Definition table_ok (s : kern_t) : Prop := zlen (irt s) = irq_max s /\ Forall line_ok (irt s).

Inductive irq_op : Type := Register (irq task : Z) | Unregister (task : Z).
Definition run_op (o : irq_op) : M kern_t unit :=
  match o with Register irq task => Irq.drivers_regintr irq task | Unregister task => Irq.drivers_unregintr task end.
Fixpoint run_ops (l : list irq_op) : M kern_t unit :=
  match l with [] => ret tt | o :: l => run_op o ;;; run_ops l end.

(** What the line [irq] holds, as the calls leave it: the task registered last, and nothing
    once any task leaves. *)
Definition line_after (s : kern_t) (irq : Z) (l : option (list Z)) (o : irq_op) : option (list Z) :=
  match o with
  | Register i t => if (i =? irq) && negb (i =? sched_irq s) && negb (t =? 0) then Some [t; 0] else l
  | Unregister t => if t =? 0 then l else None
  end.
Definition valid_op (o : irq_op) : Prop := match o with Register i _ => 0 <= i | Unregister _ => True end.

(** The parts of the state that the routes do not touch. *)
Definition lines_static (s s' : kern_t) : Prop := irq_max s' = irq_max s /\ sched_irq s' = sched_irq s.

Lemma line_first l : line_ok (Some l) -> forall s, Irq.first_used l s = Ret 0 s.
Proof.
  intros (t & Ht & ->) s. assert (E : (t =? 0) = false) by lia. unfold Irq.first_used. rewrite iter_S.
  unfold bind, need. change (zget [t; 0] 0) with (Some t). unfold ret. cbn beta iota. by rewrite E.
Qed.

Lemma get_line s i : table_ok s -> 0 <= i < irq_max s -> exists l, zget (irt s) i = Some l /\ line_ok l.
Proof.
  intros [Hn Hall] Hi. destruct (zget_is_Some (irt s) i) as [l Hl]; [lia|]. exists l. split; [done|].
  unfold zget in Hl. case_match; [lia|]. by eapply Forall_lookup_1.
Qed.

Lemma table_set s i l : table_ok s -> line_ok l -> table_ok (set_irt (zset (irt s) i l) s).
Proof.
  intros [Hn Hall] Hl. unfold table_ok. change (irt (set_irt ?x s)) with x. change (irq_max (set_irt ?x s)) with (irq_max s).
  split; [by rewrite zlen_zset|]. unfold zset. case_match; [done|]. by apply Forall_insert.
Qed.

Lemma zget_set {A} (l : list A) i j x : 0 <= i < zlen l -> zget (zset l i x) j = if i =? j then Some x else zget l j.
Proof.
  intros Hi. destruct (i =? j) eqn:E; [assert (i = j) as <- by lia; by apply zget_zset_eq|apply zget_zset_ne; lia].
Qed.

Context (Hheap : forall n, heap_answer n <> 0).

Lemma alloc_run s : alloc s = Ret (heap_answer (heap_calls s)) (set_heap_calls (S (heap_calls s)) s).
Proof.
  assert (E : (heap_answer (heap_calls s) =? 0) = false) by (apply Z.eqb_neq, Hheap).
  unfold alloc, bind, gets, modify, when, ret. by rewrite E.
Qed.

Lemma regintr_ok irq t s : table_ok s -> 0 <= irq ->
  wp (Irq.drivers_regintr irq t) (fun _ s' => table_ok s' /\ lines_static s s' /\
    forall i, 0 <= i < irq_max s -> zget (irt s') i = option_map (fun l => line_after s i l (Register irq t)) (zget (irt s) i)) s.
Proof.
  intros Hok Hirq. unfold Irq.drivers_regintr. apply wp_bind, wp_get.
  destruct ((irq_max s <=? irq) || (irq =? sched_irq s) || (t =? 0)) eqn:Hbad.
  { split; [done|]. split; [done|]. intros i Hi. cbn. destruct (get_line s i Hok Hi) as (l & -> & _). cbn.
    destruct ((irq =? i) && negb (irq =? sched_irq s) && negb (t =? 0)) eqn:E; [lia|done]. }
  destruct (get_line s irq Hok) as (l & Hl & Hlo); [lia|].
  apply wp_bind, wp_modify. apply wp_bind. change (irt s) with (irt (set_core (Msg.set_core_errno SUCCESS (core s)) s)) in Hl.
  eapply wp_need; [exact Hl|]. apply wp_bind.
  assert (Hf : forall s', (match l with Some l => Irq.first_used l | None => ret 0 end) s' = Ret 0 s').
  { intros s'. destruct l as [l|]; [by apply line_first|done]. }
  unfold wp at 1. rewrite Hf. apply wp_bind. unfold wp at 1. rewrite alloc_run.
  set (s0 := set_core _ s). replace (heap_answer (heap_calls s0) =? 0) with false by (symmetry; apply Z.eqb_neq, Hheap).
  apply wp_modify. set (s1 := set_heap_calls _ s0).
  assert (Hnew : zset (take (Z.to_nat (0 + 2)) (default [] l ++ List.repeat 0 (Z.to_nat (0 + 2)))) 0 t = [t; 0]).
  { destruct l as [l|]; [|done]. by destruct Hlo as (t' & _ & ->). }
  change (irt s1) with (irt s). rewrite Hnew. split; [|split; [done|]].
  - apply (table_set s1 irq (Some [t; 0])); [exact Hok|]. exists t. split; [lia|done].
  - intros i Hi. change (irt (set_irt ?x s1)) with x. rewrite zget_set by (destruct Hok as [-> _]; lia).
    destruct (get_line s i Hok Hi) as (l' & Hl' & _). change (irt s1) with (irt s). rewrite Hl'.
    unfold option_map, line_after. b2p. destruct (irq =? i); [|done].
    replace (irq =? sched_irq s) with false by lia. by replace (t =? 0) with false by lia.
Qed.

Lemma unregintr_ok t s : table_ok s -> 0 <= irq_max s ->
  wp (Irq.drivers_unregintr t) (fun _ s' => table_ok s' /\ lines_static s s' /\
    forall i, 0 <= i < irq_max s -> zget (irt s') i = option_map (fun l => line_after s i l (Unregister t)) (zget (irt s) i)) s.
Proof.
  intros Hok Hmax. unfold Irq.drivers_unregintr. destruct (t =? 0) eqn:Ht.
  { split; [done|]. split; [done|]. intros i Hi. cbn. rewrite Ht. by destruct (zget (irt s) i). }
  apply wp_bind, wp_get.
  apply (wp_iter (fun irq s' => 0 <= irq <= irq_max s /\ table_ok s' /\ lines_static s s' /\
           forall i, 0 <= i < irq_max s -> zget (irt s') i = if i <? irq then Some None else zget (irt s) i)
         (fun irq _ => Z.to_nat (irq_max s - irq))); [| |lia].
  - intros irq s' (Hi & Hok' & [Hm Hs] & Hz). destruct (irq <? irq_max s) eqn:E.
    + destruct (get_line s' irq Hok') as (l & Hl & Hlo); [lia|].
      apply wp_bind. unfold Irq.unregintr_line. apply wp_bind, wp_get, wp_bind. eapply wp_need; [exact Hl|].
      assert (Hgo : forall s2, table_ok s2 -> lines_static s s2 ->
        (forall i, 0 <= i < irq_max s -> zget (irt s2) i = if i <? irq + 1 then Some None else zget (irt s) i) ->
        wp (ret (inl (irq + 1))) (fun (r : Z + unit) s'' => match r with
          | inl j => (0 <= j <= irq_max s /\ table_ok s'' /\ lines_static s s'' /\
              forall i, 0 <= i < irq_max s -> zget (irt s'') i = if i <? j then Some None else zget (irt s) i)
              /\ (Z.to_nat (irq_max s - j) < Z.to_nat (irq_max s - irq))%nat
          | inr _ => table_ok s'' /\ lines_static s s'' /\
              forall i, 0 <= i < irq_max s -> zget (irt s'') i = option_map (fun l => line_after s i l (Unregister t)) (zget (irt s) i)
          end) s2).
      { intros s2 H1 H2 H3. apply wp_ret. split; [|lia]. split; [lia|]. by split_and!. }
      destruct l as [l|]; cbn beta iota.
      * apply wp_bind. unfold wp at 1. rewrite (line_first l Hlo). cbn [when Z.leb]. apply wp_modify.
        eapply wp_mono; [apply Hgo|].
        -- by apply table_set.
        -- done.
        -- intros i Hi'. cbn. rewrite zget_set by (destruct Hok' as [-> _]; lia). rewrite Hz by done.
           destruct (irq =? i) eqn:E1, (i <? irq) eqn:E2, (i <? irq + 1) eqn:E3; lia || done.
        -- done.
      * apply wp_ret. eapply wp_mono; [apply Hgo; [done|done|]|].
        -- intros i Hi'. rewrite Hz by done. destruct (i <? irq) eqn:E2, (i <? irq + 1) eqn:E3; try lia; [done| |done].
           assert (i = irq) as -> by lia. specialize (Hz irq Hi'). rewrite Z.ltb_irrefl in Hz. congruence.
        -- done.
    + apply wp_ret. split; [done|]. split; [done|]. intros i Hi'. rewrite Hz by done. replace (i <? irq) with true by lia.
      destruct (get_line s i Hok Hi') as (l & -> & _). cbn. by rewrite Ht.
  - split; [lia|]. split; [done|]. split; [done|]. intros i Hi. by replace (i <? 0) with false by lia.
Qed.

(** C23: The table keeps its form under any sequence of registrations and departures of
    tasks, no call runs out of a list, and a line holds the task registered last and none
    from the moment that any task has left. *)
Theorem routes_keep_form ops s :
  table_ok s -> 0 <= irq_max s -> Forall valid_op ops ->
  exists s', run_ops ops s = Ret tt s' /\ table_ok s' /\
    forall i, 0 <= i < irq_max s -> zget (irt s') i = option_map (fun l => foldl (line_after s i) l ops) (zget (irt s) i).
Proof.
  intros Hok Hmax Hops.
  assert (Hgen : forall ops s0, table_ok s0 -> 0 <= irq_max s0 -> lines_static s s0 -> Forall valid_op ops ->
    wp (run_ops ops) (fun _ s' => table_ok s' /\
      forall i, 0 <= i < irq_max s0 -> zget (irt s') i = option_map (fun l => foldl (line_after s i) l ops) (zget (irt s0) i)) s0).
  { clear -Hheap. intros ops. induction ops as [|o ops IH]; intros s0 Hok Hmax [Hm Hs] Hops.
    { apply wp_ret. split; [done|]. intros i Hi. by destruct (zget (irt s0) i). }
    inversion Hops as [|? ? Ho Hops']; subst. cbn [run_ops]. apply wp_bind.
    assert (Hstep : wp (run_op o) (fun _ s' => table_ok s' /\ lines_static s0 s' /\
       forall i, 0 <= i < irq_max s0 -> zget (irt s') i = option_map (fun l => line_after s0 i l o) (zget (irt s0) i)) s0).
    { destruct o; [by apply regintr_ok|by apply unregintr_ok]. }
    eapply wp_mono; [exact Hstep|]. intros _ s1 (Hok1 & [Hm1 Hs1] & Hz1).
    eapply wp_mono; [apply IH; [done|lia|split; congruence|done]|]. intros _ s2 (Hok2 & Hz2).
    split; [done|]. intros i Hi. rewrite Hz2 by lia. rewrite Hz1 by done. destruct (zget (irt s0) i); [|done]. cbn.
    do 2 f_equal. destruct o; cbn; [by rewrite Hs|done]. }
  destruct (proj1 (wp_run _ _ _) (Hgen ops s Hok Hmax (conj eq_refl eq_refl) Hops)) as ([] & s' & Hr & Hok' & Hz).
  by exists s'.
Qed.

End Routes.

(** Two drivers share a line, and another task leaves. *)
Lemma routes_keep_form_witness :
  let H : Heap := fun _ => 4096 in
  let ops := [Register 5 11; Register 5 12; Register 6 13; Unregister 9; Register 6 14] in
  exists s', run_ops ops KernelFacts.Sample.state = Ret tt s' /\ table_ok s' /\
    zget (irt s') 5 = Some None /\ zget (irt s') 6 = Some (Some [14; 0]).
Proof.
  intros H ops. destruct (routes_keep_form (H := H) ltac:(discriminate) ops KernelFacts.Sample.state) as (s' & Hr & Hok & Hz).
  - split; [reflexivity|]. repeat constructor.
  - discriminate.
  - repeat constructor; discriminate.
  - exists s'. split; [exact Hr|]. split; [exact Hok|]. split; [apply (Hz 5)|apply (Hz 6)]; split; reflexivity || discriminate.
Defined.


(** ** The wall clock *)
Section Time.
Context {E : Pmm.Entropy} {H : Heap}.
Context (buffer_at name_at : Z).

Definition ts (s : kern_t) : Z := Msg.clock_ts (core s).
Definition ns (s : kern_t) : Z := Msg.clock_ns (core s).
Definition ticks (s : kern_t) : Z := Sched.clock_ticks (Msg.sched (core s)).
(** The interrupts since the last whole second. *)
Definition since (s : kern_t) : Z := clock_freq s - clock_cnt s.

Definition clock_ok (s : kern_t) : Prop :=
  0 < clock_freq s < 2 ^ 64 /\ 1 <= clock_cnt s <= clock_freq s /\ clock_step s = 1000000000000 / clock_freq s /\
  ns s = since s * clock_step s /\ 0 <= ts s < 2 ^ 64 /\ 0 <= ticks s < 2 ^ 64.
(** Nobody has registered for the clock. *)
Definition unwatched (s : kern_t) : Prop := zget (irt s) (clock_irq s) = Some None.

Fixpoint clock_intrs (n : nat) : M kern_t unit :=
  match n with O => ret tt | S n => Clock.clock_intr buffer_at name_at ;;; clock_intrs n end.

(** What the clock says after [k] more interrupts. *)
Definition advanced (k : Z) (s s' : kern_t) : Prop :=
  clock_freq s' = clock_freq s /\ clock_step s' = clock_step s /\ irt s' = irt s /\ clock_irq s' = clock_irq s /\
  ts s' = u64 (ts s + (since s + k) / clock_freq s) /\
  since s' = (since s + k) mod clock_freq s /\
  ticks s' = u64 (ticks s + k * clock_step s).

Lemma step_bound s : clock_ok s -> 0 <= clock_step s /\ since s * clock_step s <= 1000000000000.
Proof.
  intros (Hf & Hc & Hst & _). unfold since. rewrite Hst. split; [apply Z.div_pos; lia|].
  pose proof (Z.mul_div_le 1000000000000 (clock_freq s)) as Hm. assert (0 <= 1000000000000 / clock_freq s) by (apply Z.div_pos; lia).
  nia.
Qed.

Lemma intr_step s : clock_ok s -> unwatched s ->
  wp (Clock.clock_intr buffer_at name_at) (fun _ s' => clock_ok s' /\ unwatched s' /\ advanced 1 s s') s.
Proof.
  intros Hok Hu. pose proof Hok as (Hf & Hc & Hst & Hns & Hts & Htk).
  assert (Hn : u64 (clock_cnt s - 1) = clock_cnt s - 1) by (unfold u64, wrap; rewrite Z.mod_small by lia; done).
  pose proof (step_bound s Hok) as [Hs0 Hs1].
  unfold Clock.clock_intr. apply wp_bind, wp_get, wp_bind. eapply wp_need; [exact Hu|].
  apply wp_bind, wp_modify, wp_bind, wp_modify, wp_bind, wp_modify, wp_bind, wp_ret. rewrite Hn.
  destruct (clock_cnt s - 1 =? 0) eqn:E0; cbn [negb].
  - apply wp_bind, wp_modify, wp_bind, wp_modify, wp_ret.
    assert (Hs' : since s + 1 = clock_freq s) by (unfold since; lia).
    split; [|split; [exact Hu|]].
    + split; [exact Hf|]. split; [cbn; lia|]. split; [exact Hst|].
      split; [unfold since; cbn; lia|]. split; apply Z.mod_pos_bound; lia.
    + repeat (split; [done|]). split; [|split].
      * rewrite Hs', Z.div_same by lia. done.
      * unfold since at 1. cbn. rewrite Hs', Z.mod_same by lia. lia.
      * unfold ticks. cbn. f_equal. lia.
  - apply wp_bind, wp_modify, wp_when; [done|]. intros _.
    assert (Hs' : since s + 1 < clock_freq s) by (unfold since; lia).
    assert (Hs2 : 0 <= since s) by (unfold since; lia).
    split; [|split; [exact Hu|]].
    + split; [exact Hf|]. split; [cbn; lia|]. split; [exact Hst|]. split; [|split; [exact Hts|apply Z.mod_pos_bound; lia]]. unfold since, ns. cbn.
      change (Msg.clock_ns (core s)) with (ns s). rewrite Hns. unfold u64, wrap. rewrite Z.mod_small; [unfold since; lia|].
      assert (clock_step s <= 1000000000000) by (rewrite Hst; apply Z.div_le_upper_bound; nia). nia.
    + repeat (split; [done|]). split; [|split].
      * rewrite Z.div_small by lia. rewrite Z.add_0_r. unfold u64, wrap. rewrite (Z.mod_small (ts s)) by exact Hts. reflexivity.
      * unfold since at 1. cbn. rewrite Z.mod_small by lia. unfold since. lia.
      * unfold ticks. cbn. f_equal. lia.
Qed.

Lemma advanced_trans j k s s' s'' : 0 < clock_freq s -> advanced j s s' -> advanced k s' s'' -> advanced (j + k) s s''.
Proof.
  intros Hf (F1 & S1 & I1 & Q1 & T1 & C1 & K1) (F2 & S2 & I2 & Q2 & T2 & C2 & K2). unfold advanced.
  rewrite F2, F1, S2, S1, I2, I1, Q2, Q1, T2, T1, C2, C1, K2, K1, F1, S1. repeat (split; [done|]).
  pose proof (Z.div_mod (since s + j) (clock_freq s)) as Hd. split; [|split].
  - rewrite Z.add_assoc. unfold u64, wrap. rewrite Zplus_mod_idemp_l. f_equal.
    replace (since s + j + k) with ((since s + j) mod clock_freq s + k + (since s + j) / clock_freq s * clock_freq s) by lia.
    rewrite Z.div_add by lia. lia.
  - rewrite Zplus_mod_idemp_l. f_equal. lia.
  - unfold u64, wrap. rewrite Zplus_mod_idemp_l. f_equal. lia.
Qed.

(** C24: As long as nobody watches the clock, [n] interrupts move it by exactly their number:
    whole seconds, the part of a second that has passed, and the ticks since the start all
    follow from the count of interrupts, without drift. *)
Theorem clock_keeps_time n s : clock_ok s -> unwatched s ->
  exists s', clock_intrs n s = Ret tt s' /\ clock_ok s' /\ advanced (Z.of_nat n) s s'.
Proof.
  intros Hok Hu.
  assert (Hgen : wp (clock_intrs n) (fun _ s' => clock_ok s' /\ advanced (Z.of_nat n) s s') s).
  { revert s Hok Hu. induction n as [|n IH]; intros s Hok Hu.
    - apply wp_ret. split; [done|]. destruct Hok as (Hf & Hc & Hst & Hns & Hts & Htk). repeat (split; [done|]).
      assert (0 <= since s < clock_freq s) by (unfold since; lia).
      change (Z.of_nat 0) with 0. unfold u64, wrap. split; [|split].
      + rewrite !Z.add_0_r, Z.div_small, Z.add_0_r by lia. by rewrite Z.mod_small by lia.
      + by rewrite Z.add_0_r, Z.mod_small by lia.
      + change (0 * clock_step s) with 0. by rewrite Z.add_0_r, Z.mod_small by lia.
    - cbn [clock_intrs]. apply wp_bind. eapply wp_mono; [by apply intr_step|]. intros _ s1 (Hok1 & Hu1 & H1).
      eapply wp_mono; [by apply IH|]. intros _ s2 (Hok2 & H2). split; [done|].
      replace (Z.of_nat (S n)) with (1 + Z.of_nat n) by lia. eapply advanced_trans; [apply Hok|done|done]. }
  apply wp_run in Hgen as ([] & s' & Hr & Hc). by exists s'.
Qed.

End Time.

(** Two and a half seconds at 1024 Hz. *)
Lemma clock_keeps_time_witness :
  let E : Pmm.Entropy := CoreLib.core_entropy 1000 0 in
  exists s', clock_intrs 0 0 2560 KernelFacts.Sample.state = Ret tt s' /\ ts s' = 1002 /\ since s' = 512.
Proof.
  intros E. destruct (clock_keeps_time (E := E) 0 0 2560 KernelFacts.Sample.state) as (s' & Hr & _ & Ha).
  - repeat split; vm_compute; reflexivity || discriminate.
  - reflexivity.
  - exists s'. split; [exact Hr|]. destruct Ha as (_ & _ & _ & _ & Hts & Hsince & _). split; [exact Hts|exact Hsince].
Defined.

End IrqFacts.
