(* ===== verification/Elf.v ===== *)
(** Loading and linking of programs, src/core/elf.c: the cache of files, the binaries of a
    task, and the run-time linker, on the ELF format of include/osZ/elf.h. *)
From Stdlib Require Import ZArith Lia List String.
From stdpp Require Import base option list gmap.
From S2P Require Import Prelude CoreState Pmm Vmm Sched Security LibcString CoreLib Msg Initrd CoreEnv Kernel Irq.
Import Kernel.

Module Elf.

(** ** include/osZ/errno.h, include/osZ/elf.h *)
Definition ENOEXEC : Z := 9.
Definition ERTEXEC : Z := 10.
Definition PT_LOAD : Z := 1.
Definition PT_DYNAMIC : Z := 2.
Definition PF_X : Z := 1.
Definition PF_W : Z := 2.
Definition ET_EXEC : Z := 2.
Definition ET_DYN : Z := 3.
Definition ELFCLASS64 : Z := 2.
Definition ELFDATA2LSB : Z := 1.
Definition ELFOSABI_OSZ : Z := 5.
Definition EM_X86_64 : Z := 62.
Definition DT_NULL : Z := 0.
Definition DT_NEEDED : Z := 1.
Definition DT_PLTRELSZ : Z := 2.
Definition DT_STRTAB : Z := 5.
Definition DT_SYMTAB : Z := 6.
Definition DT_RELA : Z := 7.
Definition DT_RELASZ : Z := 8.
Definition DT_RELAENT : Z := 9.
Definition DT_STRSZ : Z := 10.
Definition DT_SYMENT : Z := 11.
Definition DT_JMPREL : Z := 23.
Definition SIZEOF_DYN : Z := 16.
Definition SIZEOF_SYM : Z := 24.
Definition SIZEOF_RELA : Z := 24.
Definition STT_OBJECT : Z := 1.
Definition STB_GLOBAL : Z := 1.
Definition STV_DEFAULT : Z := 0.
Definition ELFMAG : list Z := [127; 69; 76; 70].

(** ** The cache of files *)

Definition root_ : list Z := str "root:".
(** The name without its root. *)
Definition local_name (fn : list Z) : list Z :=
  let fn := if bool_decide (take 5 fn = root_) then drop 5 fn else fn in
  if default 0 (head fn) =? 47 then drop 1 fn else fn.

(** [strcmp] says equal, with null too. *)
Definition streq (a : option (list Z)) (b : list Z) : M kern_t bool :=
  match a with None => ret true | Some [] => if bool_decide (b = []) then ub else ret false | Some a => ret (bool_decide (a = b)) end.

Definition cache_at (i : Z) : M kern_t elfcache_t := s <-- get ;; need (zget (elfcache s) i).
Definition cache_mod (i : Z) (f : elfcache_t -> elfcache_t) : M kern_t unit :=
  s <-- get ;; e <-- need (zget (elfcache s) i) ;; put (set_elfcache (zset (elfcache s) i (f e)) s).

(** The entry of the file, or else the first free one. *)
Definition search (fn_ : list Z) : M kern_t (Z + option Z) :=
  n <-- gets nelfcache ;;
  iter (S (Z.to_nat n)) (fun '(i, elf) =>
    if negb (i <? n) then ret (inr (inr elf)) else
    e <-- cache_at i ;;
    match fn e, elf with
    | None, None => ret (inl (i + 1, Some i))
    | f, _ => b <-- streq f fn_ ;; ret (if (b : bool) then inr (inl i) else inl (i + 1, elf))
    end) (0, None).

Section Ops.
Context {E : Pmm.Entropy} {H : Heap}.

(** [elfcache = ksrealloc(elfcache, n * sizeof(elfcache_t))]: with [n] entries, or lost. *)
Definition resize_cache (n : Z) : M kern_t unit :=
  a <-- alloc ;;
  modify (fun s => set_elfcache_at a (set_elfcache
    (if a =? 0 then [] else take (Z.to_nat n) (elfcache s ++ List.repeat zero_elfcache (Z.to_nat n))) s)).

(** A new entry at the end. *)
Definition add_entry : M kern_t (option Z) :=
  n <-- gets nelfcache ;;
  resize_cache (n + 1) ;;;
  s <-- get ;;
  if elfcache_at s =? 0 then ret None else
  cache_mod n (set_idx n) ;;; modify (set_nelfcache (n + 1)) ;;; ret (Some n).

(** The file into the entry [i], from the initial ram disk; after the start-up nothing is
    read. *)
Definition fill_entry (fuel : nat) (i : Z) (fn_ : list Z) : M kern_t (option Z) :=
  a <-- alloc ;;
  if a =? 0 then cache_mod i (set_fn None) ;;; ret None else
  cache_mod i (set_fn (Some (take 65536 fn_))) ;;;
  r <-- runlevel ;;
  if negb (r <? RUNLVL_NORM) then ret None else
  o <-- on_fs (fun img => Initrd.fs_locate img fuel (Some fn_)) ;;
  s <-- get ;;
  match o with
  | Some o =>
      if negb (0 <? fs_size s) then ret None else
      let p := initrd_ptr s + o in
      let n := (fs_size s + PAGESIZE - 1) / PAGESIZE in
      cache_mod i (set_numpages n) ;;;
      a <-- alloc ;;
      if a =? 0 then cache_mod i (set_data []) ;;; ret None else
      cache_mod i (set_data (List.map (fun k => p + Z.of_nat k * PAGESIZE) (seq 0 (Z.to_nat n)))) ;;; ret (Some i)
  | None => ret None
  end.

Definition elf_getfile (fuel : nat) (fn_ : option (list Z)) : M kern_t (option Z) :=
  match fn_ with
  | Some (_ :: _ :: _ as fn_) =>
      let fn_ := local_name fn_ in
      r <-- search fn_ ;;
      match r with
      | inl i => ret (Some i)
      | inr elf =>
          elf <-- match elf with Some i => ret (Some i) | None => add_entry end ;;
          match elf with Some i => fill_entry fuel i fn_ | None => ret None end
      end
  | _ => fails EINVAL None
  end.

(** ** Leaving an address space *)

(** The references of the binaries of a task are given back. *)
Fixpoint drop_refs (l : list elfbin_t) : M kern_t unit :=
  match l with
  | [] => ub
  | b :: l =>
      if addr b =? 0 then ret tt else
      n <-- gets nelfcache ;;
      when (elfcacheidx b <? n) (cache_mod (elfcacheidx b) (fun e => set_numref (u32 (numref e - 1)) e)) ;;;
      drop_refs l
  end.

(** The entries without references become free; the start of the free ones at the end. *)
Definition sweep : M kern_t Z :=
  n <-- gets nelfcache ;;
  iter (S (Z.to_nat n)) (fun '(i, l) =>
    if negb (i <? n) then ret (inr l) else
    e <-- cache_at i ;;
    if numref e =? 0 then
      cache_mod i (fun e => set_numpages 0 (set_data [] (set_fn None e))) ;;; ret (inl (i + 1, if i <? l then i else l))
    else ret (inl (i + 1, n))) (0, n).

Definition elf_unload (elfbin_ : Z) : M kern_t unit :=
  s <-- get ;;
  if (elfbin_ =? 0) || (nelfcache s =? 0) then ret tt else
  let key := (Msg.cur (core s), elfbin_) in
  l <-- need (ubins s !! key) ;;
  drop_refs l ;;;
  modify (fun s => set_ubins (delete key (ubins s)) s) ;;;
  l <-- sweep ;;
  n <-- gets nelfcache ;;
  when (l <=? n - 1) (modify (set_nelfcache (l + 1)) ;;; resize_cache (l + 1)).

(** ** Loading *)

(** The end of the core's data for the page fault handler, the addresses of the log buffer
    and of its name. *)
Context (pmm_entries_buf buffer_at name_at : Z).
Notation translate := (translate pmm_entries_buf).
Notation ld8 := (ld8 pmm_entries_buf).
Notation ld := (ld pmm_entries_buf).
Notation st := (st pmm_entries_buf).
Notation st_block := (st_block pmm_entries_buf).
Notation ld_block := (ld_block pmm_entries_buf).
Notation ld_str := (ld_str pmm_entries_buf).
Notation mem_is := (mem_is pmm_entries_buf).

(** [elftcb], the task whose page is mapped at [BUF_ADDRESS], and the loader's page. *)
Definition elftcb : M kern_t Vmm.tptr := p <-- translate BUF_ADDRESS ;; ret (Vmm.Task (Z.shiftr p PAGEBITS)).
Definition ctx_page : M kern_t Z := translate (BUF_ADDRESS + PAGESIZE).
Definition ctx_get : M kern_t elfctx_t := p <-- ctx_page ;; s <-- get ;; ret (default zero_elfctx (elfctxs s !! p)).
Definition ctx_mod (f : elfctx_t -> elfctx_t) : M kern_t unit :=
  p <-- ctx_page ;; modify (fun s => set_elfctxs (<[p := f (default zero_elfctx (elfctxs s !! p))]> (elfctxs s)) s).

(** The list of binaries at [a] in the heap of the task. *)
Definition bins_at (a : Z) : M kern_t (list elfbin_t) := s <-- get ;; need (ubins s !! (Msg.cur (core s), a)).
Definition bin_at (a i : Z) : M kern_t elfbin_t := l <-- bins_at a ;; need (zget l i).
Definition bin_mod (a i : Z) (f : elfbin_t -> elfbin_t) : M kern_t unit :=
  l <-- bins_at a ;; b <-- need (zget l i) ;;
  modify (fun s => set_ubins (<[(Msg.cur (core s), a) := zset l i (f b)]> (ubins s)) s).

(** [elfctx->elfbin = realloc(elfctx->elfbin, n * sizeof(elfbin_t))] *)
Definition resize_bins (n : Z) : M kern_t unit :=
  c <-- ctx_get ;;
  old <-- (if ctx_elfbin c =? 0 then ret [] else bins_at (ctx_elfbin c)) ;;
  a <-- alloc ;;
  modify (fun s =>
    let m := delete (Msg.cur (core s), ctx_elfbin c) (ubins s) in
    set_ubins (if a =? 0 then m else <[(Msg.cur (core s), a) := take (Z.to_nat n) (old ++ List.repeat zero_elfbin (Z.to_nat n))]> m) s) ;;;
  ctx_mod (set_ctx_elfbin a).

(** The start of the file, in the windows [tmpmap2] and [tmpmap3]. *)
Definition hd8 (o i : Z) : M kern_t Z :=
  let j := o + i in if j <? 2 * PAGESIZE then win8 (Vmm.tmpmap2 + j / PAGESIZE) (j mod PAGESIZE) else ub.
Fixpoint hd_ (n : nat) (o i : Z) : M kern_t Z :=
  match n with O => ret 0 | S n => b <-- hd8 o i ;; r <-- hd_ n o (i + 1) ;; ret (b + 256 * r) end.
Fixpoint hd_is (o i : Z) (l : list Z) : M kern_t bool :=
  match l with [] => ret true | b :: l => x <-- hd8 o i ;; if x =? b then hd_is o (i + 1) l else ret false end.

(** Elf64_Phdr *)
Record phdr_t : Type := mk_phdr { p_type : Z; p_flags : Z; p_offset : Z; p_vaddr : Z; p_filesz : Z; p_memsz : Z }.
Definition phdr_at (o i : Z) : M kern_t phdr_t :=
  t <-- hd_ 4 o i ;; f <-- hd_ 4 o (i + 4) ;; off <-- hd_ 8 o (i + 8) ;; v <-- hd_ 8 o (i + 16) ;;
  fs <-- hd_ 8 o (i + 32) ;; ms <-- hd_ 8 o (i + 40) ;; ret (mk_phdr t f off v fs ms).

(** An executable of this machine. *)
Definition valid_header (o : Z) : M kern_t bool :=
  m1 <-- hd_is o 0 ELFMAG ;; m2 <-- hd_is o 0 (str "OS/Z") ;;
  cls <-- hd8 o 4 ;; enc <-- hd8 o 5 ;; abi <-- hd8 o 7 ;;
  mach <-- hd_ 2 o 18 ;; phoff <-- hd_ 8 o 32 ;; phentsize <-- hd_ 2 o 54 ;; phnum <-- hd_ 2 o 56 ;;
  ret ((m1 || m2) && (cls =? ELFCLASS64) && (enc =? ELFDATA2LSB) && (abi =? ELFOSABI_OSZ) && (mach =? EM_X86_64)
       && (3 <=? phnum) && (u64 (phoff + phnum * phentsize) <=? 2 * PAGESIZE)).

(** Code, data and the dynamic section, in this order. *)
Definition valid_segments (entry : Z) (c d l : phdr_t) : bool :=
  (p_type c =? PT_LOAD) && (p_offset c =? 0) && negb (has (p_flags c) PF_W)
  && (p_type d =? PT_LOAD) && (Z.land (p_vaddr d) (PAGESIZE - 1) =? 0) && negb (has (p_flags d) PF_X)
  && (p_type l =? PT_DYNAMIC) && (entry <=? p_filesz c).

(** An object that is loaded already; it is moved behind those that were loaded since. *)
Definition already (ctx : elfctx_t) (idx_ : Z) : M kern_t bool :=
  let a := ctx_elfbin ctx in
  let n := nelfbin ctx in
  r <-- iter (S (Z.to_nat n)) (fun i =>
    if negb (i <? n) then ret (inr None) else
    b <-- bin_at a i ;; ret (if elfcacheidx b =? idx_ then inr (Some i) else inl (i + 1))) 0 ;;
  match r with
  | None => ret false
  | Some i =>
      when ((0 <? i) && (i + 1 <? n))
       (b <-- bin_at a i ;;
        iter (S (Z.to_nat n)) (fun i =>
          if negb (i <? n - 1) then ret (inr tt) else
          x <-- bin_at a (i + 1) ;; bin_mod a i (set_entry (entry x)) ;;; ret (inl (i + 1))) i ;;;
        bin_mod a (n - 1) (set_entry (entry b))) ;;;
      ret true
  end.

Definition PG_CORE_RONOCACHE : Z := 0x0019.
(** The bytes of the data segment, from the pages of the file. *)
Definition copy_data (pages : list Z) (i v n : Z) : M kern_t unit :=
  iter (S (length pages)) (fun '(i, v, n) =>
    if negb (0 <? n) then ret (inr tt) else
    p <-- need (zget pages i) ;;
    on_vmm (Vmm.vmm_page 0 LDYN_tmpmap1 p (Z.lor PG_CORE_RONOCACHE Vmm.PG_PAGE)) ;;;
    let k := if PAGESIZE <=? n then PAGESIZE else n in
    iter (S (Z.to_nat k)) (fun j =>
      if negb (j <? k) then ret (inr tt) else b <-- win8 Vmm.tmpmap1 j ;; st 1 (v + j) b ;;; ret (inl (j + 1))) 0 ;;;
    ret (if PAGESIZE <=? n then inl (i + 1, v + PAGESIZE, n - PAGESIZE) else inr tt)) (i, v, n).

(** The first entry of the dynamic section with a tag. *)
Definition dyn_find (fuel : nat) (d tag : Z) : M kern_t (option Z) :=
  iter fuel (fun d => t <-- ld 8 d ;;
    if t =? DT_NULL then ret (inr None) else
    if t =? tag then v <-- ld 8 (d + 8) ;; ret (inr (Some v)) else ret (inl (d + SIZEOF_DYN))) d.

(** The path of a library: below "/lib/" when it is not absolute, cut to the buffer. *)
Definition libpath (name : list Z) : list Z :=
  if default 0 (head name) =? 47 then take 127 name else str "/lib/" ++ take 122 name.

Definition LOG_ERR : Z := 3.
Definition LCG : Z := 16807.
(** The header of the new object stirs the entropy. *)
Definition stir_header (next page shoff : Z) : M kern_t unit :=
  let n := Z.shiftr next PAGEBITS in
  stir (fun r => CoreLib.upd (n + 3) (Z.lxor (u64 (Z.shiftl shoff 16))) (CoreLib.upd (n + 2) (fun x => u64 (x * LCG))
         (CoreLib.upd (n + 1) (Z.lxor page) (CoreLib.upd n (fun x => u64 (x * LCG)) r)))) ;;; kentropy.

(** Up to seven pages are left out. *)
Definition aslr (i idx_ next : Z) : M kern_t Z :=
  s <-- get ;;
  ret (if has (CoreEnv.flags (env s)) CoreEnv.FLAG_ASLR
       then u64 (next + PAGESIZE * Z.land (Z.shiftr (CoreLib.word (Pmm.srand (Msg.pmm (core s))) idx_)
                                             (Z.shiftr (elfcache_at s + 32 * i) PAGEBITS mod 55)) 7)
       else next).

Definition elferr (fn_ : list Z) : M kern_t bool :=
  r <-- runlevel ;;
  when (r <? RUNLVL_NORM) (Syslog.syslog Irq.pick_ready buffer_at name_at LOG_ERR (Some (str "Not a valid ELF: %s")) [CoreLib.VStr (Some fn_)]) ;;;
  fails ENOEXEC false.

(** The segments of the entry [i] of the cache become the last binary; its place, or none
    after an error. *)
Definition load_segments (i : Z) (fn_ : list Z) (o : Z) (c d l : phdr_t) : M kern_t (option Z) :=
  e <-- cache_at i ;; ctx <-- ctx_get ;;
  next <-- aslr i (idx e) (nextaddr ctx) ;;
  ctx_mod (set_nextaddr next) ;;;
  let n := nelfbin ctx in let a := ctx_elfbin ctx in
  bin_mod a n (fun b => mk_elfbin (idx e) next (end_ b) (entry b)) ;;;
  t <-- elftcb ;;
  r <-- on_vmm (Vmm.vmm_maptext (length (data e) + 2) t (BUF_ADDRESS + next) (data e) (p_filesz c)) ;;
  if r =? 0 then elferr fn_ ;;; ret None else
  ent <-- ld 8 (BUF_ADDRESS + next + 24) ;;
  bin_mod a n (set_entry (u64 (next + ent))) ;;;
  cache_mod i (fun e => set_numref (u32 (numref e + 1)) e) ;;;
  let next' := u64 (next + Vmm.page_up (p_filesz c)) in
  ctx_mod (set_nextaddr next') ;;;
  r <-- on_vmm (Vmm.vmm_map (Z.to_nat (p_memsz d / PAGESIZE) + 3) t (BUF_ADDRESS + next') 0 (p_memsz d) (Z.lor Vmm.PG_USER_RW Vmm.PG_PAGE)) ;;
  if r =? 0 then elferr fn_ ;;; ret None else
  copy_data (data e) (Z.shiftr (u64 (p_offset d + PAGESIZE - 1)) PAGEBITS) (BUF_ADDRESS + next') (u32 (p_filesz d)) ;;;
  let next' := u64 (next' + Vmm.page_up (p_memsz d)) in
  ctx_mod (set_nextaddr next') ;;;
  bin_mod a n (fun b => mk_elfbin (elfcacheidx b) (addr b) next' (entry b)) ;;;
  ctx_mod (set_nelfbin (n + 1)) ;;;
  ret (Some next).

(** A buffer of the core behind the data, for the user to read. *)
Definition map_extra (extrabuf extrasiz : Z) : M kern_t unit :=
  ctx <-- ctx_get ;;
  when (negb (extrabuf =? 0) && negb (extrasiz =? 0) && (extra_ptr ctx =? 0))
   (ctx_mod (set_extra_ptr (nextaddr ctx)) ;;;
    let n := Vmm.page_up extrasiz in
    t <-- elftcb ;;
    on_vmm (Vmm.vmm_map (Z.to_nat (n / PAGESIZE) + 3) t (BUF_ADDRESS + nextaddr ctx) extrabuf n (Z.lor Vmm.PG_USER_RO Vmm.PG_PAGE)) ;;;
    ctx_mod (set_nextaddr (u64 (nextaddr ctx + n)))).

(** [depth] is 4 less the depth of the call. *)
Fixpoint elf_load (fuel : nat) (depth : nat) (fn_ : list Z) (extrabuf extrasiz : Z) : M kern_t bool :=
  match depth, fn_ with
  | O, _ | _, [] => fails EINVAL false
  | S depth, fn_ =>
      i <-- elf_getfile fuel (Some fn_) ;;
      err <-- errno ;;
      e <-- match i with Some i => cache_at i | None => ret zero_elfcache end ;;
      let page := default 0 (head (data e)) in
      match i with
      | Some i =>
          if negb (err =? SUCCESS) || (numpages e =? 0) || (page =? 0) then
            when (err =? SUCCESS) (seterr EINVAL) ;;; ret false
          else
          ctx_mod (fun c => if nextaddr c <? TEXT_ADDRESS then set_nextaddr TEXT_ADDRESS c else c) ;;;
          ctx <-- ctx_get ;;
          loaded <-- (if nelfbin ctx =? 0 then ret false else already ctx (idx e)) ;;
          if (loaded : bool) then ret true else
          resize_bins (nelfbin ctx + 2) ;;;
          ctx <-- ctx_get ;;
          if ctx_elfbin ctx =? 0 then ret false else
          on_vmm (Vmm.vmm_page 0 (Vmm.LDYN_page Vmm.tmpmap2) page (Z.lor Vmm.PG_CORE_RWNOCACHE Vmm.PG_PAGE)) ;;;
          on_vmm (Vmm.vmm_page 0 (Vmm.LDYN_page Vmm.tmpmap3) page (Z.lor Vmm.PG_CORE_RWNOCACHE Vmm.PG_PAGE)) ;;;
          let o := Z.land page (PAGESIZE - 1) in
          ok <-- valid_header o ;;
          if negb (ok : bool) then elferr fn_ else
          shoff <-- hd_ 8 o 40 ;;
          stir_header (nextaddr ctx) page shoff ;;;
          phoff <-- hd_ 8 o 32 ;; phentsize <-- hd_ 2 o 54 ;; entry <-- hd_ 8 o 24 ;;
          c <-- phdr_at o phoff ;; d <-- phdr_at o (phoff + phentsize) ;; l <-- phdr_at o (phoff + 2 * phentsize) ;;
          if negb (valid_segments entry c d l) then elferr fn_ else
          r <-- load_segments i fn_ o c d l ;;
          match r with
          | None => ret false
          | Some at_ =>
              map_extra extrabuf extrasiz ;;;
              let elf := BUF_ADDRESS + at_ in
              let dyn := elf + p_offset l in
              strtab <-- dyn_find fuel dyn DT_STRTAB ;;
              match strtab with
              | None => ret true
              | Some strtab =>
                  iter fuel (fun d =>
                    t <-- ld 8 d ;;
                    if t =? DT_NULL then ret (inr tt) else
                    when (t =? DT_NEEDED)
                     (v <-- ld 8 (d + 8) ;; name <-- ld_str fuel (elf + strtab + v) ;;
                      elf_load fuel depth (libpath name) 0 0 ;;; ret tt) ;;;
                    ret (inl (d + SIZEOF_DYN))) dyn ;;;
                  ret true
              end
          end
      | None => when (err =? SUCCESS) (seterr EINVAL) ;;; ret false
      end
  end.

(** ** Linking *)

(** The parts of the dynamic section that the linker looks at; 0 for null. *)
Record dyn_t : Type := mk_dyn {
  strtab : Z; strsz : Z; symtab : Z; syment : Z;
  rela : Z; relasz : Z; relaent : Z; jmprel : Z; jmpsz : Z;
}.
#[export] Instance eta_dyn_t : Eta dyn_t :=
  fun s => mk_dyn (strtab s) (strsz s) (symtab s) (syment s) (rela s) (relasz s) (relaent s) (jmprel s) (jmpsz s).
(** [p] is where the object is; the sizes are 32 bit numbers. *)
Definition dyn_entry (p t v : Z) (x : dyn_t) : dyn_t :=
  if t =? DT_STRTAB then x <| strtab := u64 (p + v) |>
  else if t =? DT_SYMTAB then x <| symtab := u64 (p + v) |>
  else if t =? DT_SYMENT then x <| syment := u32 v |>
  else if t =? DT_STRSZ then x <| strsz := u32 v |>
  else if t =? DT_RELAENT then x <| relaent := u32 v |>
  else if t =? DT_RELASZ then x <| relasz := u32 v |>
  else if t =? DT_PLTRELSZ then x <| jmpsz := u32 v |>
  else if t =? DT_RELA then x <| rela := u64 (p + v) |>
  else if t =? DT_JMPREL then x <| jmprel := u64 (p + v) |>
  else x.
Definition dyn_read (fuel : nat) (p d : Z) (x : dyn_t) : M kern_t dyn_t :=
  iter fuel (fun '(d, x) =>
    t <-- ld 8 d ;;
    if t =? DT_NULL then ret (inr x) else v <-- ld 8 (d + 8) ;; ret (inl (d + SIZEOF_DYN, dyn_entry p t v x))) (d, x).

(** The dynamic section of the object at [p], started from [x] when it is not empty. *)
Definition dynamic (fuel : nat) (p : Z) (empty x : dyn_t) : M kern_t dyn_t :=
  phoff <-- ld 8 (p + 32) ;; phentsize <-- ld 2 (p + 54) ;;
  let l := p + phoff + 2 * phentsize in
  off <-- ld 8 (l + 8) ;; memsz <-- ld 8 (l + 40) ;;
  if u32 memsz =? 0 then ret empty else dyn_read fuel p (u64 (p + off)) x.

(** The range of the relocations: both tables, from the first one to the end of the last. *)
Definition rela_range (x : dyn_t) : Z * Z :=
  let '(r, sz) := if (rela x =? 0) && negb (jmprel x =? 0) && negb (jmpsz x =? 0) then (jmprel x, jmpsz x) else (rela x, relasz x) in
  let e := u64 (r + sz) in
  let r := if negb (jmprel x =? 0) && (jmprel x <? r) then jmprel x else r in
  let e := if e <? u64 (jmprel x + jmpsz x) then u64 (jmprel x + jmpsz x) else e in
  (r, u32 (e - r)).

(** A place to fill in, 0 when it is done, and the name it waits for. *)
Record rela_t : Type := mk_rela { offs : Z; sym : Z }.

(** The relocation at [r] of the object at [p], which is at [base] for the task: one more
    place that waits, or it is filled in.  None when it is out of bounds. *)
Definition relocate (p base vm : Z) (x : dyn_t) (r : Z) (relas : list rela_t) : M kern_t (option (list rela_t)) :=
  o <-- ld 8 r ;;
  let vo := u64 (p + o) in
  if (vo <? p) || (vm <? vo) then
    tcb <-- elftcb ;; t <-- tload tcb ;;
    Syslog.syslog Irq.pick_ready buffer_at name_at LOG_ERR (Some (str "pid %x: out of bounds rela %d %x"))
      [CoreLib.VInt (pid t); CoreLib.VInt 0; CoreLib.VInt (u64 (vo - BUF_ADDRESS))] ;;;
    ret None
  else
    info <-- ld 8 (r + 8) ;;
    let s := u64 (symtab x + Z.shiftr info 32 * syment x) in
    name <-- (if negb (syment x =? 0) && negb (symtab x =? 0) && negb (s =? 0) && negb (strtab x =? 0) then
                n <-- ld 4 s ;; c <-- ld8 (strtab x + n) ;; ret (if c =? 0 then None else Some n)
              else ret None) ;;
    match name with
    | Some n =>
        stir (CoreLib.upd n (fun w => u64 (w * LCG))) ;;;
        a <-- alloc ;;
        if a =? 0 then ub else ret (Some (relas ++ [mk_rela vo (strtab x + n)]))
    | None =>
        stir (CoreLib.upd (Z.shiftr vo 4) (fun w => u64 (w * LCG))) ;;;
        addend <-- ld 8 (r + 16) ;;
        st 8 vo (u64 (base + addend)) ;;; ret (Some relas)
    end.

(** All relocations of the object [e]: the places that wait, and the tables, which are
    still there for an object without its own; none after an error. *)
Definition collect (fuel : nat) (sp0 : Z) (e : Z) (b : elfbin_t) (x : dyn_t) (relas : list rela_t)
    : M kern_t (option (dyn_t * list rela_t)) :=
  let p := BUF_ADDRESS + addr b in
  type <-- ld 2 (p + 16) ;;
  if negb (type =? (if e =? 0 then ET_EXEC else ET_DYN)) then ret None else
  t <-- elftcb ;; t <-- tload t ;;
  (if e =? 0 then modify (fun s => set_archs (alter (Vmm.set_pc (entry b)) (pid t) (archs s)) s)
   else st 8 (BUF_ADDRESS + sp0 - 16 - 16 * e) (entry b)) ;;;
  let clear x := mk_dyn 0 (strsz x) 0 0 (rela x) 0 0 (jmprel x) 0 in
  x <-- dynamic fuel p (clear x) (mk_dyn 0 (strsz x) 0 SIZEOF_SYM 0 0 SIZEOF_RELA 0 0) ;;
  let '(r, sz) := rela_range x in
  if (relaent x =? 0) || (sz =? 0) || (r =? 0) then ret (Some (x <| rela := r |>, relas)) else
  let n := sz / relaent x in
  iter (S (Z.to_nat n)) (fun '(i, relas) =>
    if negb (i <? n) then ret (inr (Some (x <| rela := u64 (r + n * relaent x) |>, relas))) else
    y <-- relocate p (addr b) (BUF_ADDRESS + end_ b) x (u64 (r + i * relaent x)) relas ;;
    ret (match y with Some relas => inl (i + 1, relas) | None => inr None end)) (0, relas).

(** ** Data of the core for the programs *)

(** What the core has for them, from the loader, the platform and the dictionary. *)
Record boot_t : Type := mk_boot {
  fb_pixels : list Z; (* the first 8 bytes of the framebuffer *)
  fb_size : Z; (* [fb_scanline*fb_height] *)
  fb_struct : list Z; (* 12 bytes from [fb_width] on *)
  fb_type : Z;
  systables : list Z; (* 128 bytes *)
  platform : list Z; (* with its terminator, and the byte behind it *)
  libcerrstrs : list Z;
  osver : list Z; (* with its terminator *)
}.
Context (boot : boot_t).
Definition SIZEOF_ENTRY : Z := 16.
Definition entries_bytes (l : list (Z * Z)) : list Z :=
  flat_map (fun x => LibcString.bytes_of 8 x.1 ++ LibcString.bytes_of 8 x.2) l.
(** [for(; devspec[j].base && devspec[j].size; j++);] *)
Fixpoint used_entries (l : list (Z * Z)) : list (Z * Z) :=
  match l with [] => [] | x :: l => if negb (x.1 =? 0) && negb (x.2 =? 0) then x :: used_entries l else [] end.

(** The memory of the devices: the framebuffer for the display, its own regions, then those
    of the hardware, as far as there is room. *)
Definition export_bufmem (vo size : Z) (devspec : option (list (Z * Z))) (is_display : bool) : M kern_t unit :=
  st_block vo (List.repeat 0 (Z.to_nat size)) ;;;
  let k := u32 (size - SIZEOF_ENTRY) in
  s <-- get ;;
  do2 jl k <-- (match devspec with
   | Some dev =>
       do2 l k <-- (if is_display then
                      st_block vo (fb_pixels boot) ;;; st 8 (vo + 8) (fb_size boot) ;;; ret (SIZEOF_ENTRY, k - SIZEOF_ENTRY)
                    else ret (0, k)) ;;
       let b := entries_bytes (used_entries dev) in
       st_block (vo + l) (take (Z.to_nat k) b) ;;; ret ((zlen b, l), k)
   | None => ret ((0, 0), k)
   end) ;;
  let '(j, l) := jl in
  if j <? k then
    let b := entries_bytes (drvmem s) in
    st_block (vo + l + j) (take (Z.to_nat (if k <? j + zlen b then k - j else zlen b)) b)
  else ret tt.

(** A name, compared with as many bytes as the code says. *)
Definition named (p : Z) (name : list Z) (n : nat) : M kern_t bool := mem_is p (take n (name ++ [0])).

(** The variable with the name at [p], of [size] bytes at [vo]. *)
Definition export (p vo size : Z) (devspec : option (list (Z * Z))) : M kern_t unit :=
  tcb <-- elftcb ;; t <-- tload tcb ;; ctx <-- ctx_get ;; s <-- get ;;
  let display := match devspec, display_dev s with Some a, Some b => bool_decide (a = b) | _, _ => false end in
  bufmem <-- named p (str "drv_bufmem") 11 ;; phymem <-- named p (str "drv_phymem") 11 ;; plat <-- named p (str "_platform") 10 ;;
  envi <-- named p (str "_environment") 13 ;; fb <-- named p (str "_fb_struct") 11 ;;
  when ((priority t =? PRI_DRV) || (priority t =? PRI_SRV))
   (if bufmem && (4 * SIZEOF_ENTRY <? size) then export_bufmem vo size devspec display
    else if phymem && (128 <=? size) then st_block vo (systables boot)
    else if plat && (16 <=? size) then st_block vo (platform boot)
    else if envi && (size =? 8) then st 8 vo (extra_ptr ctx)
    else when (fb && (14 <=? size))
      (st_block vo (fb_struct boot) ;;; st 1 (vo + 12) (fb_type boot) ;;; st 1 (vo + 13) (CoreEnv.display (env s)))) ;;;
  args <-- named p (str "__argumen") 10 ;; environ <-- named p (str "__environ") 10 ;; libc <-- named p (str "_libc") 6 ;;
  if args && (8 <=? size) then
    a <-- need (archs s !! pid t) ;; st 8 vo (u64 (Vmm.sp a + nelfbin ctx * 16 + 8))
  else if environ && (8 <=? size) then st 8 vo (env_ptr ctx)
  else if libc then
    c <-- ld8 vo ;;
    when ((c =? 0) && (zlen (libcerrstrs boot) <=? size))
     (let both root access :=
        on_vmm (Vmm.vmm_page root vo m1UL access) ;;;
        when (negb (Z.land vo (PAGESIZE - 1) =? 0)) (on_vmm (Vmm.vmm_page root (vo + PAGESIZE) m1UL access)) in
      both (memroot t) (Z.lor Vmm.PG_USER_RW Vmm.PG_PAGE) ;;;
      st_block vo (libcerrstrs boot) ;;;
      st_block (vo + zlen (libcerrstrs boot)) (osver boot) ;;;
      both 0 (Z.lor Vmm.PG_USER_RO (Z.lor Vmm.PG_PAGE Vmm.PG_SHARED)))
  else ret tt.

(** ** Symbols *)

(** The places that wait for the name at [p] get the address [vo]. *)
Fixpoint resolve (fuel : nat) (p vo : Z) (relas : list rela_t) : M kern_t (list rela_t) :=
  match relas with
  | [] => ret []
  | r :: relas =>
      r <-- (if offs r =? 0 then ret r else
             name <-- ld_str fuel (sym r) ;; b <-- mem_is p (name ++ [0]) ;;
             if (b : bool) then st 8 (offs r) vo ;;; ret (mk_rela 0 (sym r)) else ret r) ;;
      relas <-- resolve fuel p vo relas ;; ret (r :: relas)
  end.

(** The symbol at [s] of the object at [p]. *)
Definition symbol (fuel : nat) (p : Z) (x : dyn_t) (devspec : option (list (Z * Z))) (s : Z) (relas : list rela_t) : M kern_t (list rela_t) :=
  n <-- ld 4 s ;; value <-- ld 8 (s + 8) ;;
  c <-- (if value =? 0 then ret 0 else ld8 (strtab x + n)) ;;
  if c =? 0 then ret relas else
  stir (CoreLib.upd n (Z.lxor value)) ;;;
  let vo := u64 (p + value) in
  info <-- ld 1 (s + 4) ;; other <-- ld 1 (s + 5) ;; size <-- ld 8 (s + 16) ;;
  when ((Z.land info 15 =? STT_OBJECT) && (Z.shiftr info 4 =? STB_GLOBAL) && (Z.land other 3 =? STV_DEFAULT))
    (export (strtab x + n) vo size devspec) ;;;
  resolve fuel (strtab x + n) (u64 (vo - BUF_ADDRESS)) relas.

(** All symbols of the object [e], up to the table of strings or the first one with a name
    outside it.  The addresses are cleared from the list. *)
Definition symbols (fuel : nat) (a e : Z) (devspec : option (list (Z * Z))) (relas : list rela_t) : M kern_t (list rela_t) :=
  b <-- bin_at a e ;;
  let p := BUF_ADDRESS + addr b in
  bin_mod a e (fun b => mk_elfbin (elfcacheidx b) m1UL m1UL m1UL) ;;;
  x <-- dynamic fuel p (mk_dyn 0 0 0 0 0 0 0 0 0) (mk_dyn 0 0 0 SIZEOF_SYM 0 0 0 0 0) ;;
  if (strtab x =? 0) || (strsz x =? 0) || (symtab x =? 0) || (syment x =? 0) then ret relas else
  let n := Z.quot (strtab x - symtab x) (syment x) in
  iter (S (Z.to_nat n)) (fun '(i, relas) =>
    if negb (i <? n) then ret (inr relas) else
    let s := symtab x + i * syment x in
    name <-- ld 4 s ;;
    if negb (name <? strsz x) then ret (inr relas) else
    relas <-- symbol fuel p x devspec s relas ;; ret (inl (i + 1, relas))) (0, relas).

Definition PANIC_unresolved : Z := 6.

(** The pages for the calls of the libraries, below the stack: there are none to map, since
    the stack grows down. *)
Definition grow_stack (t : Vmm.tptr) (sp_ n : Z) : M kern_t unit :=
  let j := Z.land (Z.shiftr sp_ PAGEBITS) 511 in
  let e := Z.land (Z.shiftr (u64 (sp_ - n * 16)) PAGEBITS) 511 in
  iter 513 (fun '(i, vo) =>
    if negb (i <? e) then ret (inr tt) else
    on_vmm (Vmm.vmm_map 3 t vo 0 PAGESIZE (Z.lor Vmm.PG_USER_RW Vmm.PG_PAGE)) ;;; ret (inl (i + 1, vo + PAGESIZE))) (j, BUF_ADDRESS + j * PAGESIZE).

Definition elf_rtlink (fuel : nat) (devspec : option (list (Z * Z))) : M kern_t bool :=
  tcb <-- elftcb ;; t <-- tload tcb ;; ctx <-- ctx_get ;;
  let err := fails ERTEXEC false in
  let n := nelfbin ctx in let a := ctx_elfbin ctx in
  if negb (magic t =? OSZ_TCB_MAGICH) || (n =? 0) || (a =? 0) then err else
  seterr SUCCESS ;;;
  s <-- get ;; arch <-- need (archs s !! pid t) ;;
  let sp0 := Vmm.sp arch in
  modify (fun s => set_archs (alter (Vmm.set_sp (u64 (sp0 - n * 16))) (pid t) (archs s)) s) ;;;
  grow_stack tcb sp0 n ;;;
  r <-- iter (S (Z.to_nat n)) (fun '(e, x, relas) =>
    if negb (e <? n) then ret (inr (Some relas)) else
    b <-- bin_at a e ;;
    y <-- collect fuel sp0 e b x relas ;;
    ret (match y with Some (x, relas) => inl (e + 1, x, relas) | None => inr None end))
    (0, mk_dyn 0 0 0 0 0 0 0 0 0, []) ;;
  match r with
  | None => err
  | Some relas =>
      relas <-- iter (S (Z.to_nat n)) (fun '(e, relas) =>
        if negb (e <? n) then ret (inr relas) else
        relas <-- symbols fuel a e devspec relas ;; ret (inl (e + 1, relas))) (0, relas) ;;
      match List.find (fun r => negb (offs r =? 0)) relas with
      | Some r =>
          l <-- runlevel ;;
          if l <? RUNLVL_COOP then stop PANIC_unresolved else
          Syslog.syslog Irq.pick_ready buffer_at name_at LOG_ERR (Some (str "pid %x: unresolved symbol '%x'")) [CoreLib.VInt (pid t); CoreLib.VInt (sym r)] ;;;
          err
      | None => ret true
      end
  end.

End Ops.
End Elf.
