(* ===== verification/Task.v ===== *)
(** Tasks, src/core/task.c: new tasks, the end of a task, and the two ends of loading a
    program, with the argument block on its stack. *)
From Stdlib Require Import ZArith Lia List String.
From stdpp Require Import base option list gmap.
From S2P Require Import Prelude CoreState Pmm Vmm Sched Security CoreLib Msg Initrd CoreEnv Kernel Irq Elf.
Import Kernel.

Module Task.

Definition A_EXEC : Z := 1.

(** [interp_t] *)
Record interp_t : Type := mk_interp { im_magic : list Z; im_offs : Z; im_interp : list Z }.
Definition interpreters : list interp_t :=
  [mk_interp (0 :: str "asm") 0 (str "/bin/wasi"); mk_interp (str "CSBC") 0 (str "/bin/csi")].

Section Ops.
Context {E : Pmm.Entropy} {H : Heap}.
Context (pmm_entries_buf buffer_at name_at : Z).
Notation st := (st pmm_entries_buf).
Notation st_block := (st_block pmm_entries_buf).

(** [numtasks] of a CPU. *)
Definition count_task (cpu d : Z) : M kern_t unit :=
  s <-- get ;; n <-- need (zget (numtasks s) cpu) ;; put (set_numtasks (zset (numtasks s) cpu (u64 (n + d))) s).

(** The CPU with the fewest tasks, the first one of them. *)
Definition fewest (l : list Z) (cpu : Z) : Z :=
  (foldl (fun '(i, n, cpu) k => if k <? n then (i + 1, k, i) else (i + 1, n, cpu)) (0, m1UL, cpu) l).2.

(** The owner "system". *)
Definition system_owner (old : list Z) : list Z := zset (str "system" ++ [0] ++ drop 7 old) 15 A_EXEC.

(** The task is answered by its pid, 0 for null. *)
Definition task_new (priority : Z) : M kern_t Z :=
  if PRI_IDLE <=? priority then fails EINVAL 0 else
  n <-- numcores ;; s <-- get ;;
  when (n <=? task_nextcpu s)
    (modify (set_task_nextcpu (fewest (take (Z.to_nat n) (numtasks s)) (task_nextcpu s)))) ;;;
  cpu <-- gets task_nextcpu ;;
  p <-- on_vmm (Vmm.vmm_new (u16 cpu) priority) ;;
  tmod (Vmm.Task p) (fun t => set_owner (system_owner (owner t)) (set_tstate TCB_STATE_RUNNING t)) ;;;
  t <-- tload (Vmm.Task p) ;;
  count_task (cpuid t) 1 ;;;
  vmm_switch p ;;;
  ret p.

Definition task_fork (tcb : Z) : M kern_t Z := ret tcb.

(** [fuel] bounds the pages of the task. *)
Definition task_del (fuel : nat) (p : Z) : M kern_t unit :=
  t <-- tload (Vmm.Task p) ;; s <-- get ;;
  if negb (magic t =? OSZ_TCB_MAGICH) || (pid t =? pid (Sched.idle_tcb (Msg.sched (core s)))) then seterr EINVAL else
  count_task (cpuid t) (-1) ;;;
  Elf.elf_unload (elfbin t) ;;;
  r <-- runlevel ;;
  when (RUNLVL_COOP <=? r)
   (on_vmm (Vmm.vmm_page 0 (Vmm.LDYN_page Vmm.tmpmap3) (u64 (Z.shiftl (pid t) PAGEBITS)) (Z.lor Vmm.PG_CORE_RWNOCACHE Vmm.PG_PAGE)) ;;;
    on_sched (Sched.sched_remove (Sched.Task p)) ;;;
    Irq.sched_pick buffer_at name_at) ;;;
  on_vmm (Vmm.vmm_del fuel (Vmm.Task p)).

(** ** The start of a program *)

Definition LF : Z := 10.
Definition SPACE : Z := 32.

(** The interpreter that a file names, as a text read byte by byte. *)
Definition reader : Type := Z -> M kern_t Z.
Definition reader_of (l : list Z) : reader := fun i => ret (default 0 (zget l i)).

(** The arguments in the first line of a script, and where the line ends. *)
Definition script_args (o : Z) : M kern_t (Z * Z) :=
  iter (Z.to_nat (2 * PAGESIZE)) (fun '(c, argc) =>
    b <-- Elf.hd8 o c ;;
    if (b =? 0) || (b =? LF) then ret (inr (c, argc)) else
    if b =? SPACE then
      c <-- iter (Z.to_nat (2 * PAGESIZE)) (fun c => b <-- Elf.hd8 o c ;; ret (if b =? SPACE then inl (c + 1) else inr c)) c ;;
      ret (inl (c, argc + 1))
    else ret (inl (c + 1, argc))) (2, 1).

(** The interpreter of bytecode that the file at [o] is for. *)
Fixpoint bytecode (o : Z) (l : list interp_t) : M kern_t (option (list Z)) :=
  match l with
  | [] => ret None
  | x :: l => b <-- Elf.hd_is o (im_offs x) (im_magic x) ;; if (b : bool) then ret (Some (im_interp x)) else bytecode o l
  end.

(** The interpreter, the number of arguments with the command, and the bytes it adds; none
    when its line is too long. *)
Definition interpreter (o : Z) : M kern_t (option (option reader * Z * Z)) :=
  a <-- Elf.hd8 o 0 ;; b <-- (if a =? 35 then Elf.hd8 o 1 else ret 0) ;;
  if (a =? 35) && (b =? 33) then
    do2 c argc <-- script_args o ;;
    if 2 + 1024 <? c then ret None else ret (Some (Some (fun i => Elf.hd8 o (2 + i)), argc + 1, c - 2))
  else
    x <-- bytecode o interpreters ;;
    ret (Some (match x with Some l => (Some (reader_of l), 2, zlen l + 1) | None => (None, 1, 0) end)).

(** The bytes of some strings with their terminators. *)
Definition sizes (l : list (list Z)) : Z := foldl (fun n s => n + zlen s + 1) 0 l.

(** The block on the stack is written through two pointers: the next word and the next
    byte of the strings. *)
Definition push_word (sp v : Z) : M kern_t Z := st 8 sp v ;;; ret (sp + 8).
(** [*stack++ = (uint64_t)c-BUF_ADDRESS;] *)
Definition push_ptr (sp c : Z) : M kern_t Z := push_word sp (u64 (c - BUF_ADDRESS)).

(** The words of the interpreter's line. *)
Definition push_words (fuel : nat) (rd : reader) (sp c : Z) : M kern_t (Z * Z) :=
  iter fuel (fun '(i, sp, c) =>
    b <-- rd i ;;
    if (b =? 0) || (b =? LF) then ret (inr (sp, c)) else
    sp <-- push_ptr sp c ;;
    do2 i c <-- iter fuel (fun '(i, c) =>
      b <-- rd i ;;
      if (b =? 0) || (b =? LF) || (b =? SPACE) then ret (inr (i, c)) else st 1 c b ;;; ret (inl (i + 1, c + 1))) (i, c) ;;
    i <-- iter fuel (fun i => b <-- rd i ;; ret (if b =? SPACE then inl (i + 1) else inr i)) i ;;
    st 1 c 0 ;;; ret (inl (i, sp, c + 1))) (0, sp, c).

(** The name of the command ends at a line feed or a space. *)
Fixpoint command (l : list Z) : list Z :=
  match l with [] => [] | c :: l => if (c =? LF) || (c =? SPACE) then [] else c :: command l end.
Definition push_command (cmd : list Z) (sp c : Z) : M kern_t (Z * Z) :=
  sp <-- push_ptr sp c ;;
  st_block c (command cmd ++ [0]) ;;; ret (sp, c + zlen (command cmd) + 1).

(** Strings copied with a limit of [ns] bytes. *)
Fixpoint push_strings (l : list (list Z)) (ns sp c : Z) : M kern_t (Z * Z) :=
  match l with
  | [] => ret (sp, c)
  | s :: l =>
      sp <-- push_ptr sp c ;;
      t <-- need (CoreLib.strncpy s ns) ;;
      st_block c (t ++ [0]) ;;; push_strings l ns sp (c + zlen t + 1)
  end.

(** The words in front of the pointers: the number of arguments, and where the pointers
    to them and to the variables are. *)
Definition push_head (sp argc argv env_ : Z) : M kern_t Z :=
  sp <-- push_word sp argc ;; sp <-- push_word sp argv ;; push_word sp env_.

(** The arguments, then the variables, when there are any: pointers and strings. *)
Definition push_vectors (fuel : nat) (intrp : option reader) (cmd : list Z) (args : list (list Z)) (envp_ : option (list (list Z)))
    (ns sp c : Z) : M kern_t unit :=
  do2 sp c <-- match intrp with Some rd => push_words fuel rd sp c | None => ret (sp, c) end ;;
  do2 sp c <-- push_command cmd sp c ;;
  do2 sp c <-- push_strings args ns sp c ;;
  (* a second zero behind the arguments *)
  st 1 c 0 ;;;
  let c := c + 1 in
  sp <-- push_word sp 0 ;;
  match envp_ with
  | Some l => do2 sp c <-- push_strings l ns sp c ;; push_word sp 0 ;;; ret tt
  | None => ret tt
  end.

(** A new page for the loader. *)
Definition fresh_ctx : M kern_t unit :=
  p <-- Elf.ctx_page pmm_entries_buf ;; modify (fun s => set_elfctxs (delete p (elfctxs s)) s).

(** [vmm_map] with the rounds it needs. *)
Definition map_ (t : Vmm.tptr) (bss phys size access : Z) : M kern_t Z :=
  on_vmm (Vmm.vmm_map (Z.to_nat (Vmm.page_up size / PAGESIZE) + 3) t bss phys size access).

Definition task_execinit (fuel : nat) (p : Z) (cmd : list Z) (argv envp_ : option (list (list Z))) : M kern_t bool :=
  let tcb := Vmm.Task p in
  t <-- tload tcb ;;
  if bool_decide (cmd = []) || negb (magic t =? OSZ_TCB_MAGICH) then fails EINVAL false else
  seterr SUCCESS ;;;
  i <-- Elf.elf_getfile fuel (Some cmd) ;;
  e <-- match i with Some i => Elf.cache_at i | None => ret zero_elfcache end ;;
  let page := default 0 (head (data e)) in
  if match i with None => true | Some _ => false end || (numpages e =? 0) || (page =? 0)
     || ((priority t =? PRI_DRV) && negb (numref e =? 0)) then ret false else
  on_vmm (Vmm.vmm_page 0 (Vmm.LDYN_page Vmm.tmpmap2) page (Z.lor Vmm.PG_CORE_RWNOCACHE Vmm.PG_PAGE)) ;;;
  x <-- interpreter (Z.land page (PAGESIZE - 1)) ;;
  match x with
  | None => fails Elf.ENOEXEC false
  | Some (intrp, argc, n) =>
      let args := default [] argv in
      let argc := argc + zlen args in
      let np := u32 (4 + match envp_ with Some l => 1 + zlen l | None => 0 end + argc) in
      let ns := u32 (1 + n + sizes (default [] envp_) + sizes args + zlen cmd + 1) in
      let i := u32 (u32 (ns + np * 8 + 15) / 16 * 16) in
      let j := Z.shiftl (Z.shiftr (u32 (i + PAGESIZE - 1)) PAGEBITS) PAGEBITS in
      if BUFFSIZE <? j then fails ENOMEM false else
      on_vmm (Vmm.vmm_free fuel tcb BUF_ADDRESS DYN_ADDRESS) ;;;
      map_ tcb (BUF_ADDRESS + TEXT_ADDRESS - j) 0 j Vmm.PG_USER_RW ;;;
      map_ tcb (BUF_ADDRESS + PAGESIZE) 0 PAGESIZE Vmm.PG_USER_RW ;;;
      map_ tcb BUF_ADDRESS (u64 (Z.shiftl (pid t) PAGEBITS)) PAGESIZE Vmm.PG_CORE_RW ;;;
      fresh_ctx ;;;
      let sp := TEXT_ADDRESS - i in
      modify (fun s => set_archs (alter (Vmm.set_sp sp) p (archs s)) s) ;;;
      let stack := BUF_ADDRESS + sp in
      let c := stack + np * 8 in
      let env_ := sp + 24 + match envp_ with Some _ => 8 | None => 0 end + argc * 8 in
      stack <-- push_head stack argc (sp + 24) env_ ;;
      Elf.ctx_mod pmm_entries_buf (set_env_ptr env_) ;;;
      tmod tcb (set_cmdline (u32 (c - BUF_ADDRESS))) ;;;
      push_vectors fuel intrp cmd args envp_ ns stack c ;;;
      map_ tcb DYN_ADDRESS 0 PAGESIZE Vmm.PG_USER_RW ;;;
      ret true
  end.

(** The message queue of a new program is empty; its pages are those of the first table. *)
Definition fresh_queue (p : Z) (pte : list Z) : M kern_t unit :=
  modify (fun s => set_core (Msg.set_mqs (<[p := Mq.mk_mq 0 0 0 0 0 0 (List.repeat Mq.zero_msg (Z.to_nat Mq.MQ_MAX)) pte]>
                               (Msg.mqs (core s))) (core s)) s).
(** The table of the first 2M of a task. *)
Definition first_table (s : kern_t) (root : Z) : option (list Z) :=
  let step (p : Z) := l ← frames s !! Vmm.vmm_phyaddr p; zget l 0 in
  e ← step root; e ← step e; e ← step e; frames s !! Vmm.vmm_phyaddr e.

Definition task_execfini (fuel : nat) (p : Z) : M kern_t bool :=
  let tcb := Vmm.Task p in
  t <-- tload tcb ;;
  if negb (magic t =? OSZ_TCB_MAGICH) then ret false else
  e <-- errno ;;
  (if e =? SUCCESS then
     Elf.elf_unload (elfbin t) ;;;
     ctx <-- Elf.ctx_get pmm_entries_buf ;;
     tmod tcb (set_elfbin (ctx_elfbin ctx)) ;;;
     fresh_ctx ;;;
     page <-- translate pmm_entries_buf (BUF_ADDRESS + PAGESIZE) ;;
     modify (fun s => set_frames (<[page := Vmm.zero_frame]> (frames s)) s) ;;;
     on_vmm (Vmm.vmm_swaptextbuf tcb) ;;;
     n <-- numcores ;; modify (set_task_nextcpu n) ;;;
     s <-- get ;; pte <-- need (first_table s (memroot t)) ;; fresh_queue p pte
   else
     ctx <-- Elf.ctx_get pmm_entries_buf ;; Elf.elf_unload (ctx_elfbin ctx)) ;;;
  on_vmm (Vmm.vmm_free fuel tcb BUF_ADDRESS DYN_ADDRESS) ;;;
  e <-- errno ;; ret (e =? SUCCESS).

End Ops.
End Task.
