(* ===== verification/TaskFacts.v ===== *)
(** The argument block of a new program: what is written to its stack reads back as the
    arguments and variables, within the space computed for it. *)
From Stdlib Require Import ZArith Lia List String.
From stdpp Require Import base option list gmap.
From S2P Require Import Prelude Bytes CoreState Pmm Vmm Sched Security CoreLib Msg Initrd CoreEnv Kernel KernelFacts Irq Elf Task.
Import Kernel KernelFacts.

#[local] Ltac Zify.zify_post_hook ::= Z.div_mod_to_equations.

Module TaskFacts.

Definition text (l : list (list Z)) : list Z := flat_map (fun x => x ++ [0]) l.
Definition words (l : list Z) : list Z := flat_map (le 8) l.
(** The pointers to strings that lie one behind the other from [c] on. *)
Fixpoint ptrs (c : Z) (l : list (list Z)) : list Z :=
  match l with [] => [] | x :: l => u64 (c - BUF_ADDRESS) :: ptrs (c + zlen x + 1) l end.
(** Strings without zeros. *)
Definition string_ok (l : list Z) : Prop := Forall (fun b => 0 < b < 256) l.

Lemma text_len l : zlen (text l) = Task.sizes l.
Proof.
  unfold Task.sizes. assert (H : forall k l, foldl (fun n s => n + zlen s + 1) k l = k + zlen (text l)).
  { clear. intros k l. revert k. induction l as [|x l IH]; intros k; [unfold zlen; cbn; lia|]. cbn [foldl text flat_map]. fold (text l).
    rewrite IH, !zlen_app. change (zlen [0]) with 1. lia. }
  by rewrite H.
Qed.
Lemma words_len l : zlen (words l) = 8 * zlen l.
Proof. induction l as [|x l IH]; [done|]. cbn [words flat_map]. fold (words l). rewrite zlen_app, le_length, IH, zlen_cons. lia. Qed.
Lemma ptrs_len c l : zlen (ptrs c l) = zlen l.
Proof. revert c. induction l as [|x l IH]; intros c; [done|]. cbn [ptrs]. by rewrite !zlen_cons, IH. Qed.

Section Block.
Context {E : Pmm.Entropy} {H : Heap}.
Context (pmm_entries_buf : Z).
(** The block: [np] words at [a], then [ns] bytes. *)
Context (a np ns : Z).
Context (s0 : kern_t).
Notation n := (8 * np + ns).
Context (Hns : 0 <= ns).
Notation c0 := (a + 8 * np).

(** The words [W] and the bytes [S] are written. *)
Record written (W S : list Z) (s : kern_t) : Prop := mk_written {
  is_region : region s a n;
  is_wrote : wrote a n s0 s;
  has_words : holds (mem s) a (words W);
  has_bytes : holds (mem s) c0 S;
}.

Lemma write_bytes W S l c (Q : unit -> kern_t -> Prop) s : written W S s -> c = c0 + zlen S -> zlen W <= np -> zlen S + zlen l <= ns -> Forall (fun b => u8 b = b) l ->
  (forall s', written W (S ++ l) s' -> Q tt s') -> wp (st_block pmm_entries_buf c l) Q s.
Proof.
  intros [R W0 HW HS] -> Hw Hl Hb HQ. pose proof (zlen_nonneg W). pose proof (zlen_nonneg S). pose proof (zlen_nonneg l).
  eapply wp_st_block; [exact R|lia|lia|done|]. intros s' W1 M1. apply HQ. split.
  - by eapply region_wrote.
  - by eapply wrote_trans.
  - intros i b Hi. pose proof (zget_Some_lt _ _ _ Hi) as Hlt. rewrite words_len in Hlt. rewrite M1 by lia. unfold upd.
    replace ((c0 + zlen S <=? a + i) && _) with false by lia. by apply HW.
  - apply holds_app. split; intros i b Hi; pose proof (zget_Some_lt _ _ _ Hi) as Hlt.
    + rewrite M1 by lia; unfold upd. replace ((c0 + zlen S <=? c0 + i) && _) with false by lia. by apply HS.
    + rewrite M1 by lia; unfold upd. replace ((c0 + zlen S <=? c0 + zlen S + i) && _) with true by lia. by replace (c0 + zlen S + i - (c0 + zlen S)) with i by lia.
Qed.

Lemma write_word W S v p (Q : Z -> kern_t -> Prop) s : written W S s -> p = a + 8 * zlen W -> zlen W < np -> zlen S <= ns ->
  (forall s', written (W ++ [v]) S s' -> Q (a + 8 * zlen (W ++ [v])) s') -> wp (Task.push_word pmm_entries_buf p v) Q s.
Proof.
  intros [R W0 HW HS] -> Hw Hs HQ. pose proof (zlen_nonneg W). unfold Task.push_word. rewrite st_le. apply wp_bind.
  pose proof (le_length 8 v) as Hlen.
  eapply wp_st_block; [exact R|lia|lia|apply le_bytes|]. intros s' W1 M1. apply wp_ret.
  replace (a + 8 * zlen W + 8) with (a + 8 * zlen (W ++ [v])) by (rewrite zlen_app; change (zlen [v]) with 1; lia). apply HQ. split.
  - by eapply region_wrote.
  - by eapply wrote_trans.
  - unfold words. rewrite flat_map_app. fold (words W). apply holds_app. rewrite words_len.
    split; intros i b Hi; pose proof (zget_Some_lt _ _ _ Hi) as Hlt.
    + rewrite words_len in Hlt. rewrite M1 by lia. unfold upd. replace ((a + 8 * zlen W <=? a + i) && _) with false by lia. by apply HW.
    + cbn [flat_map] in Hi, Hlt. rewrite app_nil_r in Hi, Hlt. rewrite M1 by lia. unfold upd.
      replace ((a + 8 * zlen W <=? a + 8 * zlen W + i) && _) with true by lia. by replace (a + 8 * zlen W + i - (a + 8 * zlen W)) with i by lia.
  - intros i b Hi. pose proof (zget_Some_lt _ _ _ Hi) as Hlt. rewrite M1 by lia. unfold upd.
    replace ((a + 8 * zlen W <=? c0 + i) && _) with false by lia. by apply HS.
Qed.

Lemma string_bytes x : string_ok x -> Forall (fun b => u8 b = b) (x ++ [0]).
Proof.
  intros Hx. apply Forall_app. split; [|by repeat constructor]. eapply Forall_impl; [exact Hx|]. intros b Hb. apply Z.mod_small. cbn in *. lia.
Qed.

Lemma write_string W S x c (Q : unit -> kern_t -> Prop) s : written W S s -> c = c0 + zlen S -> string_ok x -> zlen W <= np -> zlen S + zlen x + 1 <= ns ->
  (forall s', written W (S ++ x ++ [0]) s' -> Q tt s') -> wp (st_block pmm_entries_buf c (x ++ [0])) Q s.
Proof.
  intros Hi Hc Hx Hw Hs HQ. eapply write_bytes; [exact Hi|exact Hc|lia| |by apply string_bytes|done].
  rewrite zlen_app. change (zlen [0]) with 1. lia.
Qed.

(** Strings, each with its pointer. *)
Lemma write_strings l lim W S p c (Q : Z * Z -> kern_t -> Prop) s : written W S s -> p = a + 8 * zlen W -> c = c0 + zlen S -> Forall string_ok l ->
  Forall (fun x => zlen x <= lim) l -> 0 < lim -> zlen W + zlen l <= np -> zlen S + zlen (text l) <= ns ->
  (forall s', written (W ++ ptrs (c0 + zlen S) l) (S ++ text l) s' ->
     Q (a + 8 * zlen (W ++ ptrs (c0 + zlen S) l), c0 + zlen (S ++ text l)) s') ->
  wp (Task.push_strings pmm_entries_buf l lim p c) Q s.
Proof.
  revert W S p c s. induction l as [|x l IH]; intros W S p c s Hi -> -> Hl Hlim Hl0 Hw Hs HQ.
  - apply wp_ret. cbn [ptrs text flat_map] in HQ. rewrite !app_nil_r in HQ. by apply HQ.
  - inversion Hl as [|? ? Hx Hl']; subst. inversion Hlim as [|? ? Hxl Hlim']; subst. rewrite zlen_cons in Hw.
    cbn [text flat_map] in Hs. fold (text l) in Hs. rewrite !zlen_app in Hs.
    pose proof (zlen_nonneg l). pose proof (zlen_nonneg (text l)). change (zlen [0]) with 1 in Hs.
    cbn [Task.push_strings]. unfold Task.push_ptr. apply wp_bind.
    eapply write_word; [exact Hi|done|lia|pose proof (zlen_nonneg x); lia|]. intros s1 Hs1.
    apply wp_bind. assert (Hcpy : CoreLib.strncpy x lim = Some x).
    { unfold CoreLib.strncpy. replace (lim =? 0) with false by lia. f_equal. apply take_ge. unfold zlen in Hxl. lia. }
    eapply wp_need; [exact Hcpy|]. apply wp_bind.
    eapply write_string; [exact Hs1|done|done|rewrite zlen_app; change (zlen [_]) with 1; lia|lia|]. intros s2 Hs2.
    eapply IH; [exact Hs2|done|rewrite !zlen_app; change (zlen [0]) with 1; lia|done|done|done| | |].
    + rewrite zlen_app. change (zlen [_]) with 1. lia.
    + rewrite !zlen_app. change (zlen [0]) with 1. lia.
    + assert (Ep : (W ++ [u64 (c0 + zlen S - BUF_ADDRESS)]) ++ ptrs (c0 + zlen (S ++ x ++ [0])) l = W ++ ptrs (c0 + zlen S) (x :: l)).
      { rewrite <- app_assoc. cbn [ptrs app]. do 2 f_equal. rewrite !zlen_app. change (zlen [0]) with 1. f_equal. lia. }
      assert (Et : (S ++ x ++ [0]) ++ text l = S ++ text (x :: l)) by by rewrite <- app_assoc.
      rewrite Ep, Et. exact HQ.
Qed.

End Block.

(** ** Reading the block *)
Section Layout.
Context {E : Pmm.Entropy} {H : Heap}.
Context (pmm_entries_buf : Z).
Notation word s v x := (ld pmm_entries_buf 8 v s = Ret x s).

(** At [v] the program finds pointers to the strings [l], and a null pointer behind them.
    Its pointers are relative to the buffer that the block is prepared in. *)
Definition vector (s : kern_t) (v : Z) (l : list (list Z)) : Prop :=
  (forall i x, zget l i = Some x -> exists p, word s (v + 8 * i) p /\ ld_str pmm_entries_buf (S (length x)) (BUF_ADDRESS + p) s = Ret x s) /\
  word s (v + 8 * zlen l) 0.

Lemma holds_word m v W i x : holds m v (words W) -> zget W i = Some x -> holds m (v + 8 * i) (le 8 x).
Proof.
  revert v i. induction W as [|y W IH]; intros v i Hm Hi; [by unfold zget in Hi; case_match|].
  cbn [words flat_map] in Hm. fold (words W) in Hm. apply holds_app in Hm as [H1 H2]. rewrite le_length in H2.
  pose proof (zget_Some_lt _ _ _ Hi) as Hlt. destruct (decide (i = 0)) as [->|Hne].
  - rewrite zget_cons_0 in Hi. injection Hi as <-. by rewrite Z.mul_0_r, Z.add_0_r.
  - rewrite zget_cons_S in Hi by lia. replace (v + 8 * i) with (v + Z.of_nat 8 + 8 * (i - 1)) by lia. by apply IH.
Qed.

Lemma read_word s v W i x : holds (mem s) v (words W) -> zget W i = Some x -> 0 <= x < 2 ^ 64 -> word s (v + 8 * i) x.
Proof. intros Hm Hi Hx. apply ld_le; [exact Hx|]. by eapply holds_word. Qed.

Lemma ptr_string m c l i x : 0 <= c - BUF_ADDRESS -> c - BUF_ADDRESS + zlen (text l) < 2 ^ 64 -> holds m c (text l) -> zget l i = Some x ->
  exists p, zget (ptrs c l) i = Some p /\ 0 <= p < 2 ^ 64 /\ holds m (BUF_ADDRESS + p) (x ++ [0]).
Proof.
  revert c i. induction l as [|y l IH]; intros c i Hc Hlt Hm Hi; [by unfold zget in Hi; case_match|].
  cbn [text flat_map] in Hm, Hlt. fold (text l) in Hm, Hlt. rewrite !zlen_app in Hlt. change (zlen [0]) with 1 in Hlt.
  apply holds_app in Hm as [H1 H2]. rewrite zlen_app in H2. change (zlen [0]) with 1 in H2.
  pose proof (zget_Some_lt _ _ _ Hi). pose proof (zlen_nonneg y). pose proof (zlen_nonneg (text l)). cbn [ptrs].
  destruct (decide (i = 0)) as [->|Hne].
  - rewrite zget_cons_0 in Hi. injection Hi as <-. exists (u64 (c - BUF_ADDRESS)). split; [done|].
    unfold u64, wrap. rewrite Z.mod_small by lia. split; [lia|]. by replace (BUF_ADDRESS + (c - BUF_ADDRESS)) with c by lia.
  - rewrite zget_cons_S in Hi by lia. destruct (IH (c + zlen y + 1) (i - 1)) as (p & Hp & Hb & Hx); [lia|lia|by rewrite <- Z.add_assoc|done|].
    exists p. by rewrite zget_cons_S by lia.
Qed.

Lemma read_vector s v c l : 0 <= c - BUF_ADDRESS -> c - BUF_ADDRESS + zlen (text l) < 2 ^ 64 -> Forall string_ok l ->
  holds (mem s) v (words (ptrs c l ++ [0])) -> holds (mem s) c (text l) -> vector s v l.
Proof.
  intros Hc Hlt Hl Hw Ht. split.
  - intros i x Hi. destruct (ptr_string _ _ _ _ _ Hc Hlt Ht Hi) as (p & Hp & Hb & Hx). exists p. split.
    + eapply read_word; [exact Hw| |exact Hb]. rewrite zget_app_l; [done|]. apply zget_Some_lt in Hp. lia.
    + apply ld_str_holds; [|lia|done]. assert (Hin : x ∈ l) by (unfold zget in Hi; case_match; [done|by eapply list_elem_of_lookup_2]).
      rewrite Forall_forall in Hl. eapply Forall_impl; [by apply Hl|]. cbn. lia.
  - eapply read_word; [exact Hw| |done]. rewrite zget_app_r by (rewrite ptrs_len; lia). rewrite ptrs_len. by rewrite Z.sub_diag.
Qed.

(** ** The whole block *)

Lemma text_cons x l : zlen (text (x :: l)) = zlen x + 1 + zlen (text l).
Proof. cbn [text flat_map]. fold (text l). rewrite !zlen_app. by change (zlen [0]) with 1. Qed.

Lemma text_max l : Forall (fun x : list Z => zlen x <= zlen (text l)) l.
Proof.
  induction l as [|x l IH]; [constructor|]. rewrite text_cons.
  pose proof (zlen_nonneg (text l)). pose proof (zlen_nonneg x). constructor; [lia|].
  eapply Forall_impl; [exact IH|]. cbn. lia.
Qed.

(** The words up to the end of the vector of arguments, and the texts of the arguments; the
    variables come behind both. *)
Definition head_words (a np argc sp : Z) (cmd : list Z) (args : list (list Z)) : list Z :=
  [argc; sp + 24; sp + 24 + 8 + argc * 8] ++ ptrs (a + 8 * np) (cmd :: args) ++ [0].
Definition head_text (cmd : list Z) (args : list (list Z)) : list Z := text (cmd :: args) ++ [0].
Definition block_words (a np argc sp : Z) (cmd : list Z) (args envs : list (list Z)) : list Z :=
  head_words a np argc sp cmd args ++ ptrs (a + 8 * np + zlen (head_text cmd args)) envs ++ [0].

Lemma head_words_len a np argc sp cmd args : zlen (head_words a np argc sp cmd args) = 5 + zlen args.
Proof. unfold head_words. rewrite !zlen_app, ptrs_len, !zlen_cons. change (zlen []) with 0. lia. Qed.

Lemma head_text_len cmd args : zlen (head_text cmd args) = zlen cmd + zlen (text args) + 2.
Proof. unfold head_text. rewrite zlen_app, text_cons. change (zlen [0]) with 1. lia. Qed.

(** Where the block starts, and the words and bytes that are counted for it. *)
Record counted (a np ns argc sp : Z) (cmd : list Z) (args envs : list (list Z)) : Prop := mk_counted {
  cn_a : a = BUF_ADDRESS + sp;
  cn_argc : argc = 1 + zlen args;
  cn_np : np = 4 + (1 + zlen envs) + argc;
  cn_ns : ns = 1 + zlen (text envs) + zlen (text args) + zlen cmd + 1;
  cn_sp : 0 <= sp;
  cn_end : sp + 8 * np + ns < 2 ^ 32;
}.

Ltac lens :=
  repeat first [rewrite zlen_app | rewrite ptrs_len | rewrite text_cons | rewrite zlen_cons | rewrite head_words_len | rewrite head_text_len];
  try change (zlen []) with 0; lia.

(** The words and the texts are written one behind the other, as many as are counted. *)
Lemma wp_exec_block a np ns argc sp cmd args envs s :
  counted a np ns argc sp cmd args envs -> region s a (8 * np + ns) ->
  string_ok cmd -> Task.command cmd = cmd -> Forall string_ok args -> Forall string_ok envs ->
  wp (stack <-- Task.push_head pmm_entries_buf a argc (sp + 24) (sp + 24 + 8 + argc * 8) ;;
      Task.push_vectors pmm_entries_buf 0 None cmd args (Some envs) ns stack (a + np * 8))
     (fun _ => written a np ns s (block_words a np argc sp cmd args envs) (head_text cmd args ++ text envs)) s.
Proof.
  intros [Ea Ec Enp Ens Hsp Hend] HR Hcmd Hcc Hargs Henvs.
  pose proof (zlen_nonneg args). pose proof (zlen_nonneg envs). pose proof (zlen_nonneg (text args)).
  pose proof (zlen_nonneg (text envs)). pose proof (zlen_nonneg cmd). assert (Hns : 0 <= ns) by lia.
  pose proof (write_word pmm_entries_buf a np ns s Hns) as Ww. pose proof (write_strings pmm_entries_buf a np ns s Hns) as Wt.
  assert (Hs0 : written a np ns s [] [] s).
  { split; [exact HR|apply wrote_refl| |]; intros i b Hi; by unfold zget in Hi; case_match. }
  replace (np * 8) with (8 * np) by lia. unfold Task.push_head. do 2 apply wp_bind.
  eapply (Ww []); [exact Hs0|lens..|]. intros s1 Hs1. apply wp_bind.
  eapply Ww; [exact Hs1|lens..|]. intros s2 Hs2. eapply Ww; [exact Hs2|lens..|]. intros s3 Hs3.
  cbn [app] in Hs3 |- *. unfold Task.push_vectors. apply wp_bind, wp_ret. apply wp_bind.
  unfold Task.push_command, Task.push_ptr. rewrite Hcc. apply wp_bind.
  eapply Ww; [exact Hs3|lens..|]. intros s4 Hs4. apply wp_bind.
  eapply (write_string pmm_entries_buf a np ns s Hns); [exact Hs4|lens|exact Hcmd|lens..|]. intros s5 Hs5. apply wp_ret, wp_bind.
  cbn [app] in Hs5. eapply Wt; [exact Hs5|lens|lens|exact Hargs| |lens..|].
  { eapply Forall_impl; [apply (text_max args)|]. cbn. lia. }
  intros s6 Hs6. set (W5 := _ ++ ptrs _ _) in Hs6 |- *. set (S5 := (cmd ++ [0]) ++ text args) in Hs6 |- *.
  assert (HW5 : zlen W5 = 4 + zlen args) by (unfold W5; lens).
  assert (HS5 : zlen S5 = zlen cmd + 1 + zlen (text args)) by (unfold S5; lens).
  apply wp_bind. rewrite st_le. change (le 1 0) with [0].
  eapply (write_bytes pmm_entries_buf a np ns s Hns); [exact Hs6|lens..|by repeat constructor|]. intros s7 Hs7.
  apply wp_bind. eapply Ww; [exact Hs7|lens..|]. intros s8 Hs8.
  change (S5 ++ [0]) with (head_text cmd args) in Hs8.
  assert (EW : W5 ++ [0] = head_words a np argc sp cmd args).
  { unfold W5, head_words. cbn [app ptrs]. change (zlen []) with 0. rewrite (zlen_app cmd [0]). do 4 f_equal. by rewrite Z.add_assoc. }
  rewrite EW in Hs8 |- *. clearbody W5 S5. apply wp_bind.
  eapply Wt; [exact Hs8|lens|lens|exact Henvs| |lens..|].
  { eapply Forall_impl; [apply (text_max envs)|]. cbn. lia. }
  intros s9 Hs9. apply wp_bind. eapply Ww; [exact Hs9|lens..|]. intros s10 Hs10.
  apply wp_ret. by rewrite <- app_assoc in Hs10.
Qed.

(** The two vectors in a block that was written. *)
Lemma block_vectors a np ns argc sp cmd args envs s s' :
  counted a np ns argc sp cmd args envs -> Forall string_ok (cmd :: args) -> Forall string_ok envs ->
  written a np ns s (block_words a np argc sp cmd args envs) (head_text cmd args ++ text envs) s' ->
  vector s' (a + 24) (cmd :: args) /\ vector s' (a + 24 + 8 + argc * 8) envs.
Proof.
  intros [Ea Ec Enp Ens Hsp Hend] Hargs Henvs [_ _ Hw Hb]. pose proof (zlen_nonneg args). pose proof (zlen_nonneg envs).
  pose proof (zlen_nonneg (text args)). pose proof (zlen_nonneg (text envs)). pose proof (zlen_nonneg cmd).
  unfold block_words, words in Hw. rewrite flat_map_app in Hw. apply holds_app in Hw as [Hw1 Hw2].
  unfold head_words in Hw1. rewrite flat_map_app in Hw1. apply holds_app in Hw1 as [_ Hw1].
  fold (words (head_words a np argc sp cmd args)) in Hw2. rewrite words_len in Hw2.
  apply holds_app in Hb as [Hb1 Hb2]. unfold head_text in Hb1. apply holds_app in Hb1 as [Hb1 _]. split.
  - eapply read_vector with (c := a + 8 * np); [lia|lens|done|exact Hw1|exact Hb1].
  - eapply read_vector with (c := a + 8 * np + zlen (head_text cmd args)); [lens|lens|done| |exact Hb2].
    by replace (a + 24 + 8 + argc * 8) with (a + 8 * zlen (head_words a np argc sp cmd args)) by lens.
Qed.

(** C12: The block on the stack of a new program: the words and bytes counted for it are
    enough, only they are written, and from them the program reads the number of its
    arguments, the two vectors of pointers, and through them every argument, with the command
    first, and every variable. *)
Theorem exec_block_reads cmd args envs sp s :
  let argc := 1 + zlen args in
  let np := 4 + (1 + zlen envs) + argc in
  let ns := 1 + 0 + Task.sizes envs + Task.sizes args + zlen cmd + 1 in
  let a := BUF_ADDRESS + sp in
  region s a (8 * np + ns) -> 0 <= sp -> sp + 8 * np + ns < 2 ^ 32 ->
  string_ok cmd -> Task.command cmd = cmd -> Forall string_ok args -> Forall string_ok envs ->
  exists s',
    (stack <-- Task.push_head pmm_entries_buf a argc (sp + 24) (sp + 24 + 8 + argc * 8) ;;
     Task.push_vectors pmm_entries_buf 0 None cmd args (Some envs) ns stack (a + np * 8)) s = Ret tt s' /\
    wrote a (8 * np + ns) s s' /\
    word s' a argc /\ word s' (a + 8) (sp + 24) /\ word s' (a + 16) (sp + 24 + 8 + argc * 8) /\
    vector s' (BUF_ADDRESS + (sp + 24)) (cmd :: args) /\
    vector s' (BUF_ADDRESS + (sp + 24 + 8 + argc * 8)) envs.
Proof.
  intros argc np ns a HR Hsp Hend Hcmd Hcc Hargs Henvs.
  assert (Hc : counted a np ns argc sp cmd args envs) by (split; [done..|unfold ns; by rewrite !text_len|done|done]).
  destruct (proj1 (wp_run _ _ _) (wp_exec_block _ _ _ _ _ _ _ _ _ Hc HR Hcmd Hcc Hargs Henvs)) as ([] & s' & Hr & Hw).
  exists s'. split; [exact Hr|]. pose proof Hw as [_ Hwr Hww _]. split; [exact Hwr|].
  pose proof (block_vectors _ _ _ _ _ _ _ _ _ _ Hc ltac:(by constructor) Henvs Hw) as [Hv1 Hv2].
  pose proof (zlen_nonneg args). pose proof (zlen_nonneg envs). pose proof (zlen_nonneg (text args)).
  pose proof (zlen_nonneg (text envs)). pose proof (zlen_nonneg cmd). destruct Hc as [_ Ec En Es _ He].
  assert (Ew : forall i x, zget [argc; sp + 24; sp + 24 + 8 + argc * 8] i = Some x -> word s' (a + 8 * i) x).
  { intros i x Hi. eapply read_word; [exact Hww| |].
    - unfold block_words, head_words. rewrite <- !app_assoc, zget_app_l; [exact Hi|apply zget_Some_lt in Hi; lia].
    - unfold zget in Hi. case_match; [done|]. destruct (Z.to_nat i) as [|[|[|]]]; cbn in Hi; simplify_eq; lia. }
  split; [replace a with (a + 8 * 0) by lia; by apply Ew|]. split; [by apply (Ew 1)|]. split; [by apply (Ew 2)|].
  unfold a in Hv1, Hv2. rewrite <- Z.add_assoc in Hv1. split; [exact Hv1|].
  by replace (BUF_ADDRESS + (sp + 24 + 8 + argc * 8)) with (BUF_ADDRESS + sp + 24 + 8 + argc * 8) by lia.
Qed.

End Layout.

(** The command "/bin/sh" with an argument and two variables: 9 words and 30 bytes. *)
Lemma exec_block_reads_witness :
  let E : Pmm.Entropy := CoreLib.core_entropy 1000 0 in
  exists s', (stack <-- Task.push_head 0 Sample.stack 2 (Sample.sp + 24) (Sample.sp + 24 + 8 + 2 * 8) ;;
     Task.push_vectors 0 0 None (str "/bin/sh") [str "-x"] (Some [str "LANG=hu"; str "DISPLAY=0"]) 30 stack (Sample.stack + 9 * 8)) Sample.state
       = Ret tt s' /\
    vector 0 s' (BUF_ADDRESS + (Sample.sp + 24)) [str "/bin/sh"; str "-x"] /\
    vector 0 s' (BUF_ADDRESS + (Sample.sp + 24 + 8 + 2 * 8)) [str "LANG=hu"; str "DISPLAY=0"].
Proof.
  intros E.
  destruct (exec_block_reads (E := E) 0 (str "/bin/sh") [str "-x"] [str "LANG=hu"; str "DISPLAY=0"] Sample.sp Sample.state)
    as (s' & Hr & _ & _ & _ & _ & Ha & He).
  - apply Sample.stack_region. vm_compute. split; discriminate.
  - vm_compute. discriminate.
  - vm_compute. reflexivity.
  - unfold string_ok. repeat constructor.
  - reflexivity.
  - unfold string_ok. repeat constructor.
  - unfold string_ok. repeat constructor.
  - exists s'. split; [exact Hr|]. split; [exact Ha|exact He].
Defined.

End TaskFacts.
