(* ===== verification/Drivers.v ===== *)
(** Drivers and services as tasks, src/core/drivers.c: the database of drivers, new tasks
    for drivers and services, and the start of the first ones. *)
From Stdlib Require Import ZArith Lia List String.
From stdpp Require Import base option list gmap.
From S2P Require Import Prelude CoreState Pmm Vmm Sched Security CoreLib Msg Initrd CoreEnv Kernel Irq Elf Task.
Import Kernel.

Module Drivers.
Import Syslog.

(** src/core/lang.c *)
Definition errstrs : list (list Z) := List.map str
  [""; "EPERM"; "EAGAIN"; "ESRCH"; "EFAULT"; "EINVAL"; "EBUSY"; "EACCES"; "ENOMEM"; "ENOEXEC"; "ERTEXEC"; "EEXIST";
   "ENOENT"; "ENODEV"; "ENOTDIR"; "EISDIR"; "ENOTUNI"; "EISUNI"; "ENOFS"; "EBADFS"; "EROFS"; "ENOSPC"; "ENOTSUP"; "EIO";
   "EPIPE"; "ESPIPE"; "ENOTSHM"; "EBADF"; "ENOTBIG"; "ENOTIMPL"]%string.

(** ** The database

    A text of lines with a specification, a tabulator and the name of a file.  A line comes
    with the text from it on, and its length. *)
Definition LF : Z := 10.
Definition TAB : Z := 9.
Fixpoint line_length (l : list Z) : Z :=
  match l with [] => 0 | c :: l => if (c =? 0) || (c =? LF) then 0 else 1 + line_length l end.
(** What is behind the line and its end. *)
Definition behind (l : list Z) : list Z := drop (Z.to_nat (line_length l + 1)) l.
(** [for(c = drvs; c<drvs_end && *c; c++) { f = c; while(c<drvs_end && *c && *c!='\n') c++; ... }] *)
Fixpoint lines (fuel : nat) (l : list Z) : list (list Z * Z) :=
  match fuel, l with
  | S fuel, c :: _ => if c =? 0 then [] else (l, line_length l) :: lines fuel (behind l)
  | _, _ => []
  end.
Definition db_lines (l : list Z) : list (list Z * Z) := lines (length l) l.

(** [f + 3 < c && f[l] == 9 && !memcmp(f, spec, l)]; None when it reads behind the file. *)
Definition line_is (spec : list Z) (x : list Z * Z) : option bool :=
  let '(f, n) := x in
  if negb (3 <? n) then Some false else
  t ← zget f (zlen spec); Some ((t =? TAB) && bool_decide (take (length spec) f = spec)).
Fixpoint find_line (spec : list Z) (l : list (list Z * Z)) : option (option (list Z)) :=
  match l with
  | [] => Some None
  | x :: l => b ← line_is spec x; if (b : bool) then Some (Some x.1) else find_line spec l
  end.

(** The text of the database from the line of the device on. *)
Definition drivers_find (spec : list Z) : M kern_t (option (list Z)) :=
  s <-- get ;;
  match drvs s with
  | Some t => if bool_decide (spec = []) || (default 0 (head spec) =? 42) then ret None else need (find_line spec (db_lines t))
  | None => ret None
  end.

Definition PANIC_missing : Z := 7.
Definition PANIC_irt : Z := 8.
Definition PG_USER_DRVMEM : Z := 0x001f.
Definition dispatcher : list Z := str "/sys/driver".
Definition drvs_db : list Z := str "/sys/drivers".
Definition drv_dir : list Z := str "/sys/drv/".
Definition MAXCPUS : Z := 1024.

Section Ops.
Context {E : Pmm.Entropy} {H : Heap}.
Context (pmm_entries_buf buffer_at name_at : Z) (boot : Elf.boot_t).
(** The framebuffer for the user interface: its address and size. *)
Context (fb_ptr fb_bytes : Z).
Notation elf_load := (Elf.elf_load pmm_entries_buf buffer_at name_at).
Notation elf_rtlink := (Elf.elf_rtlink pmm_entries_buf buffer_at name_at boot).
Notation log_info := (Irq.log_info buffer_at name_at).
Definition log_err (fmt : list Z) (args : list CoreLib.va) : M kern_t unit :=
  syslog Irq.pick_ready buffer_at name_at LOG_ERR (Some fmt) args.
Definition log_failure (path : list Z) : M kern_t unit :=
  e <-- errno ;; t <-- need (zget errstrs e) ;;
  log_err (str "%s: %s") [CoreLib.VStr (Some t); CoreLib.VStr (Some path)].

(** A command line in the new address space, as the loader's string. *)
Definition cmd_text (fuel : nat) (p : Z) : M kern_t (list Z) :=
  t <-- tload (Vmm.Task p) ;; ld_str pmm_entries_buf fuel (BUF_ADDRESS + cmdline t).

(** Memory of a device, one region behind the other from [v] on; the answer is the end. *)
Definition map_region (p v base size access : Z) : M kern_t unit :=
  Task.map_ (Vmm.Task p) v (Vmm.vmm_phyaddr base) (Vmm.page_up size) access ;;; ret tt.
Fixpoint map_spec (p v : Z) (l : list (Z * Z)) : M kern_t Z :=
  match l with
  | [] => ret v
  | (base, size) :: l =>
      map_region p v base size (Z.lor PG_USER_DRVMEM Vmm.PG_SHARED) ;;; map_spec p (u64 (v + Vmm.page_up size)) l
  end.
(** The regions of the hardware: behind each one, the size of the next one is left. *)
Fixpoint map_drvmem (p v : Z) (l : list (Z * Z)) : M kern_t unit :=
  match l with
  | [] => ret tt
  | (base, size) :: l =>
      map_region p v base size (Z.lor PG_USER_DRVMEM Vmm.PG_SHARED) ;;;
      map_drvmem p (u64 (v + match l with (_, n) :: _ => n | [] => 0 end)) l
  end.

(** The name of a driver, read in the address space of the time: up to the line feed. *)
Definition drv_name (fuel : nat) (drv : Task.reader) : M kern_t (list Z) :=
  iter fuel (fun l => c <-- drv (zlen l) ;; ret (if (c =? 0) || (c =? LF) then inr l else inl (l ++ [c]))) [].

(** [!memcmp(drv, l, ...)] *)
Fixpoint reads_as (drv : Task.reader) (i : Z) (l : list Z) : M kern_t bool :=
  match l with [] => ret true | b :: l => x <-- drv i ;; if x =? b then reads_as drv (i + 1) l else ret false end.

(** A name without its extension, for the log. *)
Definition in_log (path : list Z) : list Z := Irq.no_extension (drop 9 path).

(** [devspec] is read where it is used. *)
Definition drivers_add (fuel : nat) (drv : Task.reader) (devspec : M kern_t (option (list (Z * Z)))) : M kern_t unit :=
  p <-- Task.task_new PRI_DRV ;;
  name <-- drv_name fuel drv ;;
  if 128 <=? zlen name + 10 then ret tt else
  let path := drv_dir ++ name in
  display <-- reads_as drv 0 (str "display/") ;;
  if (display : bool) then
    s <-- get ;;
    when (default 0 (head (CoreEnv.display_drv (env s))) =? 0)
     (d <-- devspec ;;
      modify (fun s => set_display_dev d (set_env (CoreEnv.set_display_drv path (env s)) s)))
  else
  let err :=
    e <-- errno ;; when (negb (e =? SUCCESS)) (log_failure path) ;;;
    Task.task_del buffer_at name_at fuel p in
  vars <-- gets envp ;;
  ok <-- Task.task_execinit pmm_entries_buf fuel p path None (Some vars) ;;
  if negb (ok : bool) then err else
  s <-- get ;;
  ok <-- elf_load fuel 4 dispatcher (environment_phy s) PAGESIZE ;;
  if negb (ok : bool) then stop PANIC_missing else
  cmd <-- cmd_text fuel p ;;
  ok <-- elf_load fuel 4 cmd 0 0 ;;
  ok <-- (if (ok : bool) then d <-- devspec ;; elf_rtlink fuel d else ret false) ;;
  if negb (ok : bool) then
    e <-- errno ;; when (e =? SUCCESS) (seterr Elf.ENOEXEC) ;;;
    ctx <-- Elf.ctx_get pmm_entries_buf ;; Elf.elf_unload (ctx_elfbin ctx) ;;; err
  else
  ok <-- Task.task_execfini pmm_entries_buf fuel p ;;
  if negb (ok : bool) then Task.task_del buffer_at name_at fuel p else
  d <-- devspec ;;
  v <-- match d with Some l => map_spec p BUF_ADDRESS (Elf.used_entries l) | None => ret BUF_ADDRESS end ;;
  s <-- get ;;
  map_drvmem p v (drvmem s) ;;;
  t <-- tload (Vmm.Task p) ;;
  log_info (str " %s pid %x") [CoreLib.VStr (Some (in_log path)); CoreLib.VInt (pid t)] ;;;
  on_sched (Sched.sched_add (Sched.Task p)).

(** The drivers of a service are loaded into its address space. *)
Fixpoint load_drivers (fuel : nat) (name : list Z) (l : list (list Z * Z)) : M kern_t unit :=
  match l with
  | [] => ret tt
  | (f, n) :: l =>
      b <-- need (line_is name (f, n)) ;;
      when b
       (let path := drv_dir ++ drop (S (length name)) (take (Z.to_nat n) f) in
        (* the buffer for it has 128 bytes *)
        (if 128 <=? zlen path then ub else ret tt) ;;;
        ok <-- elf_load fuel 4 path 0 0 ;;
        when (negb (ok : bool))
         (e <-- errno ;; when (e =? SUCCESS) (seterr Elf.ENOEXEC) ;;; log_failure path ;;; seterr SUCCESS)) ;;;
      load_drivers fuel name l
  end.

(** Memory for the services that need some. *)
Definition map_service (fuel : nat) (srv p : Z) : M kern_t unit :=
  s <-- get ;;
  when (srv =? SRV_FS)
    (Task.map_ (Vmm.Task p) BUF_ADDRESS (initrd_ptr s) (initrd_size s) (Z.lor Vmm.PG_USER_RW Vmm.PG_SHARED) ;;; ret tt) ;;;
  when (srv =? SRV_UI)
   (Task.map_ (Vmm.Task p) BUF_ADDRESS fb_ptr (Vmm.page_up fb_bytes) (Z.lor PG_USER_DRVMEM Vmm.PG_SHARED) ;;;
    match display_dev s with
    | Some l =>
        let used := Elf.used_entries l in
        map_spec p (u64 (BUF_ADDRESS + Vmm.page_up fb_bytes)) used ;;;
        (* the pointer itself goes to the end *)
        modify (set_display_dev (Some (drop (length used) l)))
    | None => ret tt
    end).

(** [cmd] starts with a slash. *)
Definition service_add (fuel : nat) (srv : Z) (cmd : list Z) : M kern_t unit :=
  p <-- Task.task_new PRI_SRV ;;
  let err :=
    e <-- errno ;; when (e =? SUCCESS) (seterr Elf.ENOEXEC) ;;;
    if (srv =? SRV_FS) || (srv =? SRV_UI) then stop PANIC_missing else
    log_failure cmd ;;; Task.task_del buffer_at name_at fuel p in
  vars <-- gets envp ;;
  ok <-- Task.task_execinit pmm_entries_buf fuel p cmd None (Some vars) ;;
  if negb (ok : bool) then err else
  s <-- get ;;
  text <-- cmd_text fuel p ;;
  ok <-- elf_load fuel 4 text (if srv =? SRV_syslog then syslog_phy s else environment_phy s) PAGESIZE ;;
  if negb (ok : bool) then stop PANIC_missing else
  load_drivers fuel (drop 1 cmd) (db_lines (default [] (drvs s))) ;;;
  s <-- get ;;
  ok <-- (if srv =? SRV_UI then elf_load fuel 4 (CoreEnv.display_drv (env s)) 0 0 else ret true) ;;
  if negb (ok : bool) then stop PANIC_missing else
  ok <-- elf_rtlink fuel None ;;
  if negb (ok : bool) then ctx <-- Elf.ctx_get pmm_entries_buf ;; Elf.elf_unload (ctx_elfbin ctx) ;;; err else
  ok <-- Task.task_execfini pmm_entries_buf fuel p ;;
  if negb (ok : bool) then err else
  map_service fuel srv p ;;;
  t <-- tload (Vmm.Task p) ;;
  log_info (str " %s (service -%d) pid %x")
    [CoreLib.VStr (Some (drop 1 cmd)); CoreLib.VInt (- srv); CoreLib.VInt (pid t)] ;;;
  modify (fun s => set_core (Msg.set_services (zset (Msg.services (core s)) (- srv) (pid t)) (core s)) s) ;;;
  on_sched (Sched.sched_add (Sched.Task p)).

(** ** The start *)

(** The platform: the name of its interrupt controller, and the code of the idle task. *)
Context (intr_name : list Z) (platform_idle : Z).

(** [intr_init] of x86_64/ibmpc: the timer on line 0, the clock on line 8. *)
Definition intr_init : M kern_t Z :=
  modify (fun s => s <| sched_irq := 0 |> <| clock_irq := 8 |> <| clock_freq := 1024 |>) ;;; ret 16.

Definition init_idle : M kern_t unit :=
  tmod Vmm.Idle (fun t => set_cmdline 136 (set_owner (Task.system_owner (owner t)) (set_cpuid MAXCPUS
                    (set_priority (PRI_IDLE + 1) (set_tstate TCB_STATE_RUNNING t))))) ;;;
  t <-- tload Vmm.Idle ;;
  modify (fun s => set_archs (alter (Vmm.set_pc platform_idle) (pid t) (archs s)) s) ;;;
  on_vmm (Vmm.vmm_free 3 Vmm.Idle 0 PAGESIZE) ;;;
  Task.map_ Vmm.Idle 0 (u64 (Z.shiftl (pid t) PAGEBITS)) PAGESIZE Vmm.PG_CORE_RW ;;; ret tt.

(** The file of the database comes from the initial ram disk. *)
Definition load_db (fuel : nat) : M kern_t unit :=
  o <-- on_fs (fun img => Initrd.fs_locate img fuel (Some drvs_db)) ;;
  match o with
  | None => stop PANIC_missing
  | Some o =>
      s <-- get ;;
      l <-- need (mapM (fun i => phys_byte (frames s) (initrd_ptr s + o + Z.of_nat i)) (seq 0 (Z.to_nat (fs_size s)))) ;;
      put (set_drvs (Some l) s)
  end.

(** Drivers for all machines: the lines of the specification "*". *)
Fixpoint add_common (fuel : nat) (l : list (list Z * Z)) : M kern_t unit :=
  match l with
  | [] => ret tt
  | (f, n) :: l =>
      (* [c + 3 < drvs_end] of the loop *)
      if zlen f <=? 3 then ret tt else
      when ((3 <? n) && (default 0 (zget f 0) =? 42) && (default 0 (zget f 1) =? TAB))
        (drivers_add fuel (fun i => s <-- get ;; need (zget f (2 + i))) (ret None)) ;;;
      add_common fuel l
  end.

Definition drivers_init (fuel : nat) : M kern_t unit :=
  log_info (str "System Services") [] ;;;
  init_idle ;;;
  n <-- intr_init ;;
  modify (set_irq_max (Z.max n 4)) ;;;
  s <-- get ;; idle <-- tload Vmm.Idle ;; cores <-- numcores ;;
  log_info (str " proc/intr %d core(s), %d IRQs, %s pid %x")
    [CoreLib.VInt cores; CoreLib.VInt (irq_max s); CoreLib.VStr (Some intr_name); CoreLib.VInt (pid idle)] ;;;
  Clock.clock_init ;;;
  a <-- alloc ;;
  if a =? 0 then stop PANIC_irt else
  modify (fun s => set_irt (List.repeat None (Z.to_nat (irq_max s))) s) ;;;
  load_db fuel ;;;
  s <-- get ;;
  e1 <-- need (CoreLib.sprintf (str "LANG=%s") [CoreLib.VStr (Some (CoreEnv.lang (env s)))]) ;;
  e2 <-- need (CoreLib.sprintf (str "DISPLAY=%s")
    [CoreLib.VStr (Some (if default 0 (head (CoreEnv.display_env (env s))) =? 0 then str "0" else CoreEnv.display_env (env s)))]) ;;
  (* they share a buffer of 256 bytes *)
  (if 256 <? zlen e1 + zlen e2 + 2 then ub else ret tt) ;;;
  modify (set_envp [e1; e2]) ;;;
  modify (set_task_nextcpu 0) ;;;
  service_add fuel SRV_FS (str "/sys/fs") ;;;
  s <-- get ;;
  add_common fuel (db_lines (default [] (drvs s))) ;;;
  fs <-- on_core (Msg.service SRV_FS) ;;
  on_vmm (Vmm.vmm_page 0 LDYN_tmpmap1 (u64 (Z.shiftl fs PAGEBITS)) (Z.lor Elf.PG_CORE_RONOCACHE Vmm.PG_PAGE)) ;;;
  vmm_switch fs ;;;
  modify (set_numinit 0) ;;;
  set_runlevel RUNLVL_COOP.

End Ops.
End Drivers.
