(* ===== verification/Syscalls.v ===== *)
(** Messages to the core, src/core/msgcore.c: one operation per message, and the choice
    among them. *)
From Stdlib Require Import ZArith Lia List String.
From stdpp Require Import base option list gmap.
From S2P Require Import Prelude CoreState Pmm Vmm Sched Security LibcString CoreLib Msg Initrd CoreEnv Kernel Irq Elf Task Drivers.
Import Kernel.

Module Syscalls.

(** ** include/osZ/bits/core.h *)
Definition SYS_exit : Z := 2.
Definition SYS_fork : Z := 3.
Definition SYS_execve : Z := 4.
Definition SYS_usleep : Z := 5.
Definition SYS_time : Z := 13.
Definition SYS_srand : Z := 14.
Definition SYS_rand : Z := 15.
Definition SYS_getentropy : Z := 16.
Definition SYS_meminfo : Z := 17.
Definition SYS_memmap : Z := 18.
Definition SYS_memunmap : Z := 19.
Definition SYS_trace : Z := 20.
Definition SYS_getpid : Z := 21.
Definition SYS_getppid : Z := 22.
Definition SYS_getuid : Z := 23.
Definition SYS_getgid : Z := 24.
Definition SYS_log : Z := 26.
Definition EVT_exit : Z := 0x3FFE.
Definition EPERM : Z := 1.
Definition ENOTIMPL : Z := 29.
Definition TRACEBUFSIZ : Z := 256.
(** 365*24*60*60*1000000 *)
Definition YEAR : Z := 31536000000000.
Definition PANIC_service : Z := 9.
Definition PANIC_event : Z := 10.
Definition HALT : Z := 11.

(** [msgret_t] *)
Definition msgret_t : Type := Z * Z.

(** ** Numbers *)

(** The time in microseconds, from seconds and picoseconds. *)
Definition usec_of (ts ns : Z) : Z := u64 (u64 (ts * 1000000) + ns / 1000000).

(** [srand] moved down by a byte: the first one is added to the last one. *)
Definition rotate (r : list Z) : list Z :=
  let w := CoreLib.word r in
  let down i := Z.lor (Z.shiftr (w i) 8) (Z.shiftl (Z.land (w (i + 1)) 255) 56) in
  [down 0; down 1; down 2;
   Z.lor (Z.lor (Z.shiftr (w 3) 8) (Z.land (w 3) (Z.shiftl 255 56))) (Z.shiftl (Z.land (w 0) 255) 56)].
Definition srand_bytes (r : list Z) : list Z := flat_map (LibcString.bytes_of 8) r.

(** [SYS_srand] *)
Definition mix (a ts ns : Z) (r : list Z) : list Z :=
  let add k := CoreLib.upd (Z.shiftr a k) (fun x => u64 (x + a)) in
  let xor k := CoreLib.upd (Z.shiftr a k) (Z.lxor a) in
  CoreLib.upd (Z.shiftr a 3) (Z.lxor (u64 (ts + ns))) (CoreLib.upd (Z.shiftr a 1) (fun x => u64 (x * CoreLib.LCG))
   (xor 8 (add 6 (xor 4 (add 2 r))))).

(** [clock_tz*60000000], an [int]. *)
Definition zone_offset (tz : Z) : M kern_t Z :=
  let n := tz * 60000000 in if (-2147483648 <=? n) && (n <=? 2147483647) then ret n else ub.

Section Ops.
Context {E : Pmm.Entropy} {H : Heap}.
Context (pmm_entries_buf buffer_at name_at : Z) (boot : Elf.boot_t).
Notation ld8 := (ld8 pmm_entries_buf).
Notation ld := (ld pmm_entries_buf).
Notation st8 := (st8 pmm_entries_buf).
Notation st_block := (st_block pmm_entries_buf).
Notation ld_block := (ld_block pmm_entries_buf).
Notation ld_str := (ld_str pmm_entries_buf).

Definition me : M kern_t tcb_t := t <-- current ;; tload t.
Definition clock : M kern_t (Z * Z) := s <-- get ;; ret (Msg.clock_ts (core s), Msg.clock_ns (core s)).
Definition srand : M kern_t (list Z) := s <-- get ;; ret (Pmm.srand (Msg.pmm (core s))).
Definition service_pid (srv : Z) : M kern_t Z := on_core (Msg.service srv).

(** The trace of a call: a text into the buffer of the task, and a message to the FS task. *)
Definition trace (a b c d e f event : Z) : M kern_t unit :=
  t <-- me ;; fs <-- service_pid SRV_FS ;;
  when (negb (tracebuf t =? 0) && negb (pid t =? fs))
   (s <-- get ;;
    text <-- need (Msg.trace_send (Sched.clock_ticks (Msg.sched (core s))) 0 (EVT_FUNC event) event [a; b; c; d; e; f]) ;;
    (if TRACEBUFSIZ <=? zlen text then ub else ret tt) ;;;
    st_block (tracebuf t) (text ++ List.repeat 0 (Z.to_nat (TRACEBUFSIZ - zlen text))) ;;;
    on_core (Msg.msg_send Irq.pick_ready (tracebuf t) (zlen text + 1) 3 0 0 0 Msg.TRACE_EVENT 0) ;;; ret tt).

(** ** The operations *)

Definition sys_log (fuel : nat) (a c : Z) : M kern_t unit :=
  srv <-- service_pid SRV_syslog ;;
  if negb (srv =? 0) then seterr ENOTIMPL else
  r <-- runlevel ;;
  if r =? RUNLVL_COOP then
    t <-- ld_str fuel a ;;
    Syslog.syslog Irq.pick_ready buffer_at name_at c (Some (str "  %s")) [CoreLib.VStr (Some t)]
  else seterr EACCES.

(** The services learn of the end of the task [p], or lose their entry. *)
Definition tell_exit (p i : Z) : M kern_t unit :=
  s <-- get ;;
  srv <-- need (zget (Msg.services (core s)) i) ;;
  if srv =? p then put (set_core (Msg.set_services (zset (Msg.services (core s)) i 0) (core s)) s)
  else on_core (Msg.msg_notify srv EVT_exit p).
Fixpoint tell_services (p : Z) (l : list Z) : M kern_t unit :=
  match l with [] => ret tt | i :: l => tell_exit p i ;;; tell_services p l end.

Definition sys_exit (fuel : nat) (a : Z) : M kern_t unit :=
  t <-- me ;;
  fs <-- service_pid SRV_FS ;; ui <-- service_pid SRV_UI ;; init <-- service_pid SRV_init ;;
  if (pid t =? fs) || (pid t =? ui) then stop PANIC_service else
  if pid t =? init then emit (if a =? EAGAIN then EvReboot else EvPoweroff) ;;; stop HALT else
  tell_services (pid t) [1; 2; 3; 4; 5; 6; 7] ;;;
  p <-- gets (fun s => Msg.cur (core s)) ;;
  on_sched (Sched.sched_remove (Sched.Task p)) ;;;
  Irq.drivers_unregintr (pid t) ;;;
  Task.task_del buffer_at name_at fuel p.

(** Before the timer runs, it waits in a loop. *)
Definition sys_usleep (fuel : nat) (a : Z) : M kern_t unit :=
  if (a =? 0) || (YEAR <=? a) then seterr EINVAL else
  r <-- runlevel ;; p <-- gets (fun s => Msg.cur (core s)) ;;
  when (r =? RUNLVL_NORM) (on_sched (Sched.sched_delay fuel (Sched.Task p) a)).

Definition sys_regirq (a : Z) : M kern_t unit :=
  s <-- get ;; t <-- me ;;
  if (a <? irq_max s) && negb (a =? sched_irq s) && negb (a =? clock_irq s) then Irq.drivers_regintr (u16 a) (pid t)
  else seterr EINVAL.
Definition sys_regtmr : M kern_t unit := s <-- get ;; t <-- me ;; Irq.drivers_regintr (clock_irq s) (pid t).

(** At most [c - 1] bytes of the line go to the buffer at [b]. *)
Definition sys_drvfind (fuel : nat) (a b c : Z) : M kern_t unit :=
  when (negb (a =? 0) && negb (b =? 0) && (1 <? c))
   (st8 b 0 ;;;
    spec <-- ld_str fuel a ;;
    f <-- Drivers.drivers_find spec ;;
    match f with
    | Some f =>
        let t := take (Z.to_nat (c - 1)) (take (Z.to_nat (Drivers.line_length f)) f) in
        st_block b t ;;; st8 (b + zlen t) 0
    | None => ret tt
    end).

(** The specification of a device at [b], read when it is used. *)
Definition ld_spec (fuel : nat) (b : Z) : M kern_t (option (list (Z * Z))) :=
  if b =? 0 then ret None else
  l <-- iter fuel (fun '(v, l) =>
    base <-- ld 8 v ;; size <-- ld 8 (v + 8) ;;
    ret (if (base =? 0) || (size =? 0) then inr (l ++ [(0, 0)]) else inl (v + 16, l ++ [(base, size)]))) (b, []) ;;
  ret (Some l).
Definition sys_drvadd (fuel : nat) (a b : Z) : M kern_t unit :=
  when (negb (a =? 0)) (Drivers.drivers_add pmm_entries_buf buffer_at name_at boot fuel (fun i => ld8 (a + i)) (ld_spec fuel b)).

Definition set_ts (v : Z) : M kern_t unit := modify (fun s => set_core (Msg.set_clock_ts v (core s)) s).
Definition sys_stimezone (a : Z) : M kern_t unit :=
  if (-1440 <=? CoreEnv.s16 a) && (CoreEnv.s16 a <=? 1440) then
    s <-- get ;;
    o <-- zone_offset (clock_tz s) ;; set_ts (u64 (Msg.clock_ts (core s) - o)) ;;;
    modify (fun s => set_env (CoreEnv.set_clock_tz (CoreEnv.s16 a) (env s)) s) ;;;
    s <-- get ;;
    o <-- zone_offset (CoreEnv.s16 a) ;; set_ts (u64 (Msg.clock_ts (core s) + o))
  else seterr EINVAL.

Definition sys_stimebcd (a : Z) : M kern_t unit :=
  d <-- ld_block 7 a ;; s <-- get ;;
  t <-- need (CoreEnv.env_getts d (clock_tz s)) ;;
  Clock.set_time t 0.
Definition sys_stime (a : Z) : M kern_t unit := Clock.set_time (a / 1000000) (a mod 1000000).
Definition sys_time : M kern_t msgret_t :=
  do2 ts ns <-- clock ;; s <-- get ;; ret (usec_of ts ns, Sched.clock_ticks (Msg.sched (core s))).

Definition sys_srand (a : Z) : M kern_t unit := do2 ts ns <-- clock ;; stir (mix a ts ns) ;;; kentropy.
Definition sys_rand : M kern_t msgret_t :=
  do2 ts _ <-- clock ;; r <-- srand ;;
  stir rotate ;;; kentropy ;;;
  ret (CoreLib.word r ts, CoreLib.word r (u64 (ts - 1))).
(** A buffer filled, 32 bytes at a time. *)
Definition sys_getentropy (fuel : nat) (a b : Z) : M kern_t unit :=
  stir rotate ;;; kentropy ;;;
  iter fuel (fun '(a, b) =>
    if negb (0 <? b) then ret (inr tt) else
    let c := if 32 <? b then 32 else b in
    r <-- srand ;; st_block a (take (Z.to_nat c) (srand_bytes r)) ;;;
    do2 ts ns <-- clock ;;
    stir (fun r => CoreLib.upd ts (fun x => u64 (x * CoreLib.LCG)) (CoreLib.upd (ts + 2) (Z.lxor ns) r)) ;;; kentropy ;;;
    ret (inl (u64 (a + c), b - c))) (a, b).

Definition sys_meminfo : M kern_t msgret_t :=
  s <-- get ;; let p := Msg.pmm (core s) in ret (Pmm.pmm_freepages p, Pmm.pmm_totalpages p).
Definition sys_memmap (fuel : nat) (a b : Z) : M kern_t msgret_t :=
  t <-- current ;; r <-- on_vmm (Vmm.vmm_map fuel t a 0 b Vmm.PG_USER_RW) ;; ret (r, 0).
Definition sys_memunmap (fuel : nat) (a b : Z) : M kern_t unit := t <-- current ;; on_vmm (Vmm.vmm_free fuel t a b).

Definition sys_trace (a : Z) : M kern_t unit :=
  t <-- current ;;
  if negb (a =? 0) then p <-- alloc ;; tmod t (set_tracebuf p) else tmod t (set_tracebuf 0).

(** 16 bytes as two numbers. *)
Definition word_of (l : list Z) : Z := fold_right (fun b r => b + 256 * r) 0 l.
Definition pair_of (l : list Z) : msgret_t := (word_of (take 8 l), word_of (take 8 (drop 8 l))).
(** The task with the number [p], looked at through a window. *)
Definition other (p : Z) : M kern_t (option tcb_t) :=
  on_vmm (Vmm.vmm_page 0 LDYN_tmpmap1 (u64 (Z.shiftl p PAGEBITS)) (Z.lor Elf.PG_CORE_RONOCACHE Vmm.PG_PAGE)) ;;;
  on_core (Msg.tcb_at p).
Definition sys_getuid (a : Z) : M kern_t msgret_t :=
  t <-- (if a =? 0 then t <-- me ;; ret (Some t) else other a) ;;
  match t with Some t => ret (pair_of (owner t)) | None => fails ESRCH (0, 0) end.

(** The access control list of a task, as it lies in memory. *)
Definition acl_bytes (t : tcb_t) : list Z :=
  let b := concat (acl t) in b ++ List.repeat 0 (Security.TCB_MAXACE * 16 - length b).
Definition sys_getgid (a b : Z) : M kern_t msgret_t :=
  if a =? 0 then fails ENOMEM (0, 0) else
  t <-- (if b =? 0 then t <-- me ;; ret (Some t) else other b) ;;
  match t with Some t => st_block a (acl_bytes t) ;;; ret (a, 0) | None => fails ESRCH (0, 0) end.

Definition evt_ack (a : Z) : M kern_t unit :=
  t <-- me ;; s <-- get ;; when ((priority t =? PRI_DRV) && (a <? irq_max s)) (emit (EvEnable a)).

(** ** The choice *)

Definition no_answer (m : M kern_t unit) : M kern_t msgret_t := m ;;; ret (0, 0).

Definition dispatch (fuel : nat) (evt a b c : Z) : M kern_t msgret_t :=
  if evt =? SYS_log then no_answer (sys_log fuel a c)
  else if evt =? SYS_exit then no_answer (sys_exit fuel a)
  else if evt =? SYS_fork then ret (0, 0)
  else if evt =? SYS_execve then ret (0, 0)
  else if evt =? SYS_usleep then no_answer (sys_usleep fuel a)
  else if evt =? Security.SYS_regirq then no_answer (sys_regirq a)
  else if evt =? Security.SYS_regtmr then no_answer sys_regtmr
  else if evt =? Security.SYS_drvfind then no_answer (sys_drvfind fuel a b c)
  else if evt =? Security.SYS_drvadd then no_answer (sys_drvadd fuel a b)
  else if evt =? Security.SYS_stimezone then no_answer (sys_stimezone a)
  else if evt =? Security.SYS_stimebcd then no_answer (sys_stimebcd a)
  else if evt =? Security.SYS_stime then no_answer (sys_stime a)
  else if evt =? SYS_time then sys_time
  else if evt =? SYS_srand then no_answer (sys_srand a)
  else if evt =? SYS_rand then sys_rand
  else if evt =? SYS_getentropy then no_answer (sys_getentropy fuel a b)
  else if evt =? SYS_meminfo then sys_meminfo
  else if evt =? SYS_memmap then sys_memmap fuel a b
  else if evt =? SYS_memunmap then no_answer (sys_memunmap fuel a b)
  else if evt =? SYS_trace then no_answer (sys_trace a)
  else if evt =? SYS_getpid then t <-- me ;; ret (pid t, 0)
  else if evt =? SYS_getppid then t <-- me ;; ret (parent t, 0)
  else if evt =? SYS_getuid then sys_getuid a
  else if evt =? SYS_getgid then sys_getgid a b
  else if evt =? Security.SYS_tskcpy then ret (0, 0)
  else if evt =? Security.EVT_ack then no_answer (evt_ack a)
  else seterr EPERM ;;; stop PANIC_event.

Definition msg_core (fuel : nat) (a b c d e f event : Z) : M kern_t msgret_t :=
  let evt := EVT_FUNC event in
  t <-- me ;; s <-- get ;;
  if negb (Security.allowed (Msg.services (core s)) t SRV_CORE evt) then fails EPERM (0, 0) else
  trace a b c d e f event ;;;
  seterr SUCCESS ;;;
  dispatch fuel evt a b c.

End Ops.
End Syscalls.
