(* ===== verification/SyscallsFacts.v ===== *)
(** The database of drivers and the call that searches it: the line of the first driver for
    a device comes to the buffer of the caller, and nothing goes outside it. *)
From Stdlib Require Import ZArith Lia List String.
From stdpp Require Import base option list gmap.
From S2P Require Import Prelude Bytes CoreState Pmm Vmm Sched Security CoreLib Msg Initrd CoreEnv Kernel KernelFacts Irq Elf Task TaskFacts Drivers Syscalls.
Import Kernel KernelFacts.

#[local] Ltac Zify.zify_post_hook ::= Z.div_mod_to_equations.

Module SyscallsFacts.
Import Drivers TaskFacts.

(** ** The database as a list *)

(** A line: the specification of a device and the file of its driver. *)
Record entry : Type := mk_entry { e_spec : list Z; e_file : list Z }.
Definition line_text (e : entry) : list Z := e_spec e ++ TAB :: e_file e.
Definition db (l : list entry) : list Z := flat_map (fun e => line_text e ++ [LF]) l.
Definition plain (c : Z) : Prop := 0 < c < 256 /\ c <> LF.
Definition entry_ok (e : entry) : Prop :=
  Forall (fun c => plain c /\ c <> TAB) (e_spec e) /\ Forall plain (e_file e) /\ 3 < zlen (line_text e).
(** What is asked for, short enough for each line that is looked at. *)
Definition query_ok (q : list Z) (l : list entry) : Prop :=
  q <> [] /\ head q <> Some 42 /\ Forall (fun c => plain c /\ c <> TAB) q /\ Forall (fun e => zlen q <= zlen (line_text e)) l.

(** The entries from the first one for the device on. *)
Fixpoint from_device (q : list Z) (l : list entry) : option (list entry) :=
  match l with [] => None | e :: l' => if bool_decide (e_spec e = q) then Some l else from_device q l' end.

Lemma line_length_plain x r : Forall plain x -> line_length (x ++ LF :: r) = zlen x.
Proof.
  induction 1 as [|c x [Hc Hl] _ IH]; [done|]. cbn [line_length app]. replace ((c =? 0) || (c =? LF)) with false by (unfold LF in *; lia).
  rewrite IH, zlen_cons. lia.
Qed.
Lemma line_plain e : entry_ok e -> Forall plain (line_text e).
Proof.
  intros (Hs & Hf & _). apply Forall_app. split; [eapply Forall_impl; [exact Hs|]; by intros c [? _]|]. constructor; [|done].
  split; [unfold TAB; lia|done].
Qed.

Lemma db_cons e l : db (e :: l) = line_text e ++ LF :: db l.
Proof. unfold db. cbn [flat_map]. by rewrite <- app_assoc. Qed.

Lemma lines_db l fuel : Forall entry_ok l -> (length l <= fuel)%nat ->
  lines fuel (db l) = match l with [] => [] | e :: l' => (db l, zlen (line_text e)) :: lines (Nat.pred fuel) (db l') end.
Proof.
  intros Hl Hf. destruct Hl as [|e l He Hl]; [by destruct fuel|]. destruct fuel as [|fuel]; [cbn in Hf; lia|].
  pose proof (line_plain e He) as Hp. pose proof (line_length_plain _ (db l) Hp) as Hn. cbn [Nat.pred]. rewrite db_cons in *.
  assert (Hb : behind (line_text e ++ LF :: db l) = db l).
  { unfold behind. rewrite Hn. unfold zlen. replace (Z.to_nat (Z.of_nat (length (line_text e)) + 1)) with (length (line_text e) + 1)%nat by lia.
    by rewrite drop_app, drop_ge, (Nat.add_comm (length _)), Nat.add_sub by lia. }
  destruct (line_text e) as [|c x] eqn:Ex; [destruct He as (_ & _ & He); rewrite Ex in He; unfold zlen in He; cbn in He; lia|].
  inversion Hp as [|? ? [Hc _] _]; subst. cbn [lines app] in *. replace (c =? 0) with false by lia. by rewrite Hn, Hb.
Qed.

Lemma line_is_spec q e r : entry_ok e -> Forall (fun c => plain c /\ c <> TAB) q -> zlen q <= zlen (line_text e) ->
  line_is q (line_text e ++ LF :: r, zlen (line_text e)) = Some (bool_decide (e_spec e = q)).
Proof.
  intros (Hs & Hf & H3) Hq Hlen. unfold line_is. replace (3 <? zlen (line_text e)) with true by lia. cbn [negb].
  destruct (zget_is_Some (line_text e ++ LF :: r) (zlen q)) as [t Ht].
  { rewrite zlen_app, zlen_cons. pose proof (zlen_nonneg q). pose proof (zlen_nonneg r). lia. }
  rewrite Ht. cbn. f_equal. unfold zget in Ht. pose proof (zlen_nonneg q). replace (zlen q <? 0) with false in Ht by lia.
  unfold zlen in Ht. rewrite Nat2Z.id in Ht. unfold line_text in *. rewrite <- app_assoc in *. cbn [app] in *.
  set (s := e_spec e) in *. set (f := e_file e ++ LF :: r) in *. clear H3 Hlen.
  destruct (bool_decide (s = q)) eqn:Eq.
  - apply bool_decide_eq_true in Eq. subst q. rewrite lookup_app_r, Nat.sub_diag in Ht by lia. injection Ht as <-.
    rewrite take_app_length. by rewrite bool_decide_true.
  - apply bool_decide_eq_false in Eq. apply andb_false_iff. destruct (t =? TAB) eqn:Et; [right|by left].
    apply bool_decide_eq_false. intros Htk. apply Z.eqb_eq in Et. subst t.
    destruct (Nat.lt_trichotomy (length q) (length s)) as [Hlt|[Heq|Hgt]].
    + rewrite lookup_app_l in Ht by lia. rewrite Forall_lookup in Hs. by destruct (Hs _ _ Ht).
    + apply Eq. rewrite <- Htk, Heq. by rewrite take_app_length.
    + assert (Hq' : q !! length s = Some TAB).
      { rewrite <- Htk, lookup_take_lt by done. by rewrite lookup_app_r, Nat.sub_diag by lia. }
      rewrite Forall_lookup in Hq. by destruct (Hq _ _ Hq').
Qed.

Lemma find_db q l fuel : Forall entry_ok l -> query_ok q l -> (length l <= fuel)%nat ->
  find_line q (lines fuel (db l)) = Some (db <$> from_device q l).
Proof.
  intros Hl (_ & _ & Hq & Hlen). revert fuel. induction l as [|e l IH]; intros fuel Hf.
  - by rewrite lines_db.
  - inversion Hl as [|? ? He Hl']; subst. inversion Hlen as [|? ? Hle Hlen']; subst. cbn in Hf.
    rewrite lines_db by (done || cbn; lia). cbn [find_line from_device]. rewrite db_cons, line_is_spec by done. cbn [mbind option_bind].
    case_bool_decide; [by rewrite <- db_cons|]. apply IH; [done|done|lia].
Qed.

Lemma db_length l : Forall entry_ok l -> (length l <= length (db l))%nat.
Proof. induction 1 as [|e l He _ IH]; [done|]. rewrite db_cons, length_app. cbn. lia. Qed.

Lemma drivers_find_db q l s : drvs s = Some (db l) -> Forall entry_ok l -> query_ok q l ->
  drivers_find q s = Ret (db <$> from_device q l) s.
Proof.
  intros Hd Hl Hq. unfold drivers_find, bind, get. rewrite Hd. pose proof Hq as (Hne & Hst & _).
  destruct (decide (q = [])); [done|]. rewrite bool_decide_false by done. cbn [orb].
  replace (default 0 (head q) =? 42) with false; [|symmetry; apply Z.eqb_neq; destruct q; cbn in *; congruence].
  unfold db_lines. by rewrite (find_db q l) by (done || by apply db_length).
Qed.

Lemma from_device_head q l l' : from_device q l = Some l' -> Forall entry_ok l -> exists e r, l' = e :: r /\ e_spec e = q /\ entry_ok e.
Proof.
  induction l as [|e l IH]; [done|]. cbn. intros H Hl. inversion Hl; subst. case_bool_decide; [injection H as <-; by exists e, l|by apply IH].
Qed.

(** ** The call *)
Section Call.
Context {E : Pmm.Entropy}.
Context (pmm_entries_buf : Z).

(** The line that is answered: empty for an unknown device. *)
Definition answer_line (q : list Z) (l : list entry) (c : Z) : list Z :=
  match from_device q l with Some (e :: _) => take (Z.to_nat (c - 1)) (line_text e) | _ => [] end.

Lemma same_drvs a n s s' : wrote a n s s' -> drvs s' = drvs s.
Proof. by intros [[fr ->] _ _ _ _]. Qed.

Lemma plain_bytes l : Forall plain l -> Forall (fun b => u8 b = b) l /\ Forall (fun b => b <> 0) l.
Proof. intros Hl. split; (eapply Forall_impl; [exact Hl|]); intros c [Hc _]; [apply Z.mod_small; cbn in *; lia|lia]. Qed.

Lemma take_line (x r : list Z) : take (Z.to_nat (zlen x)) (x ++ r) = x.
Proof. unfold zlen. by rewrite Nat2Z.id, take_app_length. Qed.

(** C22: [SYS_drvfind] searches the database that the core has loaded: the caller's buffer of [c]
    bytes gets the line of the first driver for the device, cut to [c] - 1 bytes and
    terminated, or the empty string when there is none, and no other byte of memory changes. *)
Theorem drvfind_answers fuel a b c q l r n s :
  drvs s = Some (db l) -> Forall entry_ok l -> query_ok q l ->
  region s r n -> r <= a -> a + zlen q + 1 <= r + n -> r <= b -> b + c <= r + n -> a + zlen q + 1 <= b \/ b + c <= a ->
  0 < a -> 0 < b -> 1 < c -> holds (mem s) a (q ++ [0]) -> (length q < fuel)%nat ->
  exists s', Syscalls.sys_drvfind pmm_entries_buf fuel a b c s = Ret tt s' /\
    ld_str pmm_entries_buf (Z.to_nat c) b s' = Ret (answer_line q l c) s' /\
    wrote r n s s' /\ (forall w, r <= w < r + n -> ~ b <= w < b + c -> mem s' w = mem s w).
Proof.
  intros Hd Hl Hq HR Ha1 Ha2 Hb1 Hb2 Hab Ha Hb Hc Hm Hf.
  assert (Hgen : wp (Syscalls.sys_drvfind pmm_entries_buf fuel a b c) (fun _ s' =>
     wrote r n s s' /\ holds (mem s') b (answer_line q l c ++ [0]) /\
     (forall w, r <= w < r + n -> ~ b <= w < b + c -> mem s' w = mem s w)) s).
  { unfold Syscalls.sys_drvfind. replace (negb (a =? 0) && negb (b =? 0) && (1 <? c)) with true by lia. cbn [when].
    pose proof (zlen_nonneg q). apply wp_bind. eapply wp_st8; [exact HR|lia|]. intros s1 W1 M1. apply wp_bind.
    assert (Hm1 : holds (mem s1) a (q ++ [0])).
    { intros i x Hx. pose proof (zget_Some_lt _ _ _ Hx) as Hi. rewrite zlen_app in Hi. change (zlen [0]) with 1 in Hi.
      rewrite M1 by lia. replace (a + i =? b) with false by lia. by apply Hm. }
    assert (Hnz : Forall (fun b => b <> 0) q).
    { destruct Hq as (_ & _ & Hq & _). eapply Forall_impl; [exact Hq|]. intros x [[? _] _]. lia. }
    unfold wp at 1. rewrite (ld_str_holds _ fuel q a s1 Hnz Hf Hm1). apply wp_bind. unfold wp at 1.
    rewrite (drivers_find_db q l s1) by (done || by rewrite (same_drvs _ _ _ _ W1)).
    pose proof (region_wrote _ _ _ _ HR W1) as HR1. unfold answer_line.
    destruct (from_device q l) as [l'|] eqn:Ed; cbn [fmap option_fmap option_map].
    - destruct (from_device_head _ _ _ Ed Hl) as (e & l'' & -> & _ & He). pose proof (line_plain e He) as Hp.
      rewrite db_cons, (line_length_plain _ _ Hp). rewrite take_line.
      set (t := take (Z.to_nat (c - 1)) (line_text e)).
      assert (Ht : zlen t <= c - 1) by (unfold t, zlen; rewrite length_take; lia). pose proof (zlen_nonneg t).
      assert (Htp : Forall plain t) by by apply Forall_take. destruct (plain_bytes _ Htp) as [Htb _].
      apply wp_bind. eapply wp_st_block; [exact HR1|lia|lia|exact Htb|]. intros s2 W2 M2.
      eapply wp_st8; [by eapply region_wrote|lia|]. intros s3 W3 M3. split; [|split].
      + eapply wrote_trans; [exact W1|]. by eapply wrote_trans.
      + apply holds_app. split; intros i x Hx; pose proof (zget_Some_lt _ _ _ Hx) as Hi.
        * rewrite M3 by lia. replace (b + i =? b + zlen t) with false by lia. rewrite M2 by lia. unfold upd.
          replace ((b <=? b + i) && (b + i <? b + zlen t)) with true by lia. by replace (b + i - b) with i by lia.
        * change (zlen [0]) with 1 in Hi. assert (i = 0) as -> by lia. injection Hx as <-. rewrite Z.add_0_r, M3 by lia. by rewrite Z.eqb_refl.
      + intros w Hw Hn. rewrite M3 by lia. replace (w =? b + zlen t) with false by lia. rewrite M2 by lia. unfold upd.
        replace ((b <=? w) && (w <? b + zlen t)) with false by lia. rewrite M1 by lia. by replace (w =? b) with false by lia.
    - apply wp_ret. split; [done|]. split.
      + intros i x Hx. pose proof (zget_Some_lt _ _ _ Hx) as Hi. change (zlen ([] ++ [0])) with 1 in Hi. assert (i = 0) as -> by lia.
        injection Hx as <-. rewrite Z.add_0_r, M1 by lia. by rewrite Z.eqb_refl.
      + intros w Hw Hn. rewrite M1 by lia. by replace (w =? b) with false by lia. }
  apply wp_run in Hgen as ([] & s' & Hr & W & Hh & Ho). exists s'. split; [done|]. split; [|done].
  assert (Hans : Forall plain (answer_line q l c) /\ (length (answer_line q l c) < Z.to_nat c)%nat).
  { unfold answer_line. destruct (from_device q l) as [l'|] eqn:Ed; [|split; [done|cbn; lia]].
    destruct (from_device_head _ _ _ Ed Hl) as (e & l'' & -> & _ & He). split; [by apply Forall_take, line_plain|].
    rewrite length_take. lia. }
  apply ld_str_holds; [exact (proj2 (plain_bytes _ (proj1 Hans)))|apply Hans|exact Hh].
Qed.

End Call.
(** A database of three lines; the request and a buffer of 16 bytes on the stack. *)
Definition sample_db : list entry :=
  [mk_entry (str "*") (str "input/ps2.so"); mk_entry (str "pci1234:1111") (str "display/bga.so"); mk_entry (str "pci8086:100E") (str "inet/e1000.so")].
Definition sample_query : list Z := str "pci1234:1111".
Definition query_at : Z := Sample.stack.
Definition buffer_at : Z := Sample.stack + 32.
Definition sample_state : kern_t :=
  match st_block (E := CoreLib.core_entropy 1000 0) 0 query_at (sample_query ++ [0]) (set_drvs (Some (db sample_db)) Sample.state) with
  | Ret _ s => s
  | _ => Sample.state
  end.

Lemma sample_state_ok : region sample_state Sample.stack 256 /\ holds (mem sample_state) query_at (sample_query ++ [0]).
Proof.
  set (E := CoreLib.core_entropy 1000 0). set (s0 := set_drvs (Some (db sample_db)) Sample.state).
  assert (HR : region s0 Sample.stack 256) by (destruct (Sample.stack_region 256 ltac:(lia)) as [R1 R2 R3]; split; [exact R1|exact R2|exact R3]).
  assert (Hw : wp (st_block (E := E) 0 query_at (sample_query ++ [0])) (fun _ s' => region s' Sample.stack 256 /\ holds (mem s') query_at (sample_query ++ [0])) s0).
  { eapply wp_st_block; [exact HR|done|by vm_compute|by repeat constructor|]. intros s' W M. split; [by eapply region_wrote|].
    intros i x Hx. pose proof (zget_Some_lt _ _ _ Hx) as Hi. change (zlen (sample_query ++ [0])) with 13 in Hi.
    unfold query_at. rewrite M by lia. unfold upd. change (zlen (sample_query ++ [0])) with 13.
    unfold query_at. replace ((Sample.stack <=? Sample.stack + i) && (Sample.stack + i <? Sample.stack + 13)) with true by lia.
    by replace (Sample.stack + i - Sample.stack) with i by lia. }
  unfold wp in Hw. unfold sample_state. subst E s0. by destruct (st_block _ _ _).
Qed.

Lemma drvfind_answers_witness :
  let E : Pmm.Entropy := CoreLib.core_entropy 1000 0 in
  exists s', Syscalls.sys_drvfind 0 100 query_at buffer_at 16 sample_state = Ret tt s' /\
    ld_str 0 16 buffer_at s' = Ret (str "pci1234:1111" ++ TAB :: str "di") s'.
Proof.
  intros E.
  destruct (drvfind_answers (E := E) 0 100 query_at buffer_at 16 sample_query sample_db Sample.stack 256 sample_state)
    as (s' & Hr & Hs & _).
  - vm_compute. reflexivity.
  - repeat constructor; vm_compute; reflexivity || discriminate.
  - repeat split; try discriminate. repeat constructor; vm_compute; reflexivity || discriminate. repeat constructor; vm_compute; discriminate.
  - exact (proj1 sample_state_ok).
  - vm_compute. discriminate.
  - vm_compute. discriminate.
  - vm_compute. discriminate.
  - vm_compute. discriminate.
  - left. vm_compute. discriminate.
  - vm_compute. reflexivity.
  - vm_compute. reflexivity.
  - vm_compute. reflexivity.
  - exact (proj2 sample_state_ok).
  - vm_compute. lia.
  - exists s'. split; [exact Hr|exact Hs].
Defined.

End SyscallsFacts.
