(* ===== verification/Lookup.v ===== *)
(** Paths resolved through the file systems: [lookup] of src/fs/vfs.c, the members of a
    union of src/fs/fcb.c, [taskctx_readdir] of src/fs/taskctx.c, and [mtab_fstab] of
    src/fs/mtab.c. *)
From Stdlib Require Import ZArith Lia List.
From stdpp Require Import base option list gmap.
From S2P Require Import Prelude CoreState FsState Fcb Devfs Vfs Mounts Taskctx.
Import FsState.

Module Lookup.

(** What [locate] of a driver answers. *)
Definition NOBLOCK : Z := 1.
Definition NOTFOUND : Z := 2.
Definition FSERROR : Z := 3.
Definition UPDIR : Z := 4.
Definition FILEINPATH : Z := 5.
Definition SYMINPATH : Z := 6.
Definition UNIONINPATH : Z := 7.
Definition NOSPACE : Z := 8.
Definition ROOTMTAB : Z := 0.

(** Three dots at [i]. *)
Definition joker_at (p : list Z) (i : Z) : bool :=
  (Vfs.at_ p i =? Vfs.DOT) && (Vfs.at_ p (i + 1) =? Vfs.DOT) && (Vfs.at_ p (i + 2) =? Vfs.DOT).

(** The check for a joker in the path of a new file: the positions before the last three
    bytes are looked at. *)
Definition has_joker (p : list Z) : bool :=
  (4 <? zlen p) && existsb (fun i => joker_at p (Z.of_nat i)) (seq 0 (Z.to_nat (zlen p - 3))).

(** The longest mount point at the start of the path: its length and index. *)
Fixpoint longest (p : list Z) (ms : list mtab_t) (i l k : Z) : M fs_state (Z * Z) :=
  match ms with
  | [] => ret (l, k)
  | m :: ms' =>
      f <-- fcb_at (mountpoint m) ;;
      let a := default [] (abspath f) in
      if (l <? zlen a) && bool_decide (take (length a) p = a)
      then longest p ms' (i + 1) (zlen a) i
      else longest p ms' (i + 1) l k
  end.

(** A path of a device to mount on the way: the size compared includes the terminator of
    "/dev/".  It answers the device and the length of what was followed. *)
Definition automount (raw : list Z) (k : Z) : M fs_state (option (Z * Z)) :=
  if negb ((k =? ROOTMTAB) && bool_decide (take 6 (raw ++ [0]) = Devfs.DEVPATH ++ [0])) then ret None else
  if zlen raw <? 6 then ub else
  let i := Vfs.skip (fun c => negb (c =? Vfs.SLASH) && negb (Vfs.PATHEND c)) raw 6 in
  if Vfs.at_ raw i =? Vfs.SLASH then
    fd <-- Fcb.fcb_get (Some (Vfs.cstring (take (Z.to_nat i) raw))) ;; ret (Some (fd, i + 1))
  else ret None.

(** The directory a link in the path is relative to: up to the slash before the member
    that ends before [c]. *)
Fixpoint back (raw : list Z) (c : nat) : nat :=
  match c with
  | O => O
  | S c' => if Vfs.at_ raw (Z.of_nat c') =? Vfs.SLASH then c else back raw c'
  end.

Section Ops.
Context {E : FsEnv} {D : FsDrivers}.

(** The device, the driver and the length of the path up to its root; [None] when an error
    was set. *)
Definition storage_of (fuel : nat) (raw : list Z) : M fs_state (option (Z * Z * Z)) :=
  s <-- get ;;
  do2 l k <-- longest raw (take (Z.to_nat (nmtab s)) (mtab s)) 0 0 0 ;;
  m <-- need (zget (mtab s) k) ;;
  a <-- automount raw k ;;
  let '(fd, fs, l) := match a with
                      | Some (fd, l) => (fd, m1U16, l)
                      | None => (m_storage m, fstype m, l)
                      end in
  n <-- gets nfcb ;;
  bad <-- (if n <=? fd then ret true else
             f <-- fcb_at fd ;;
             ret (negb (ftype f =? FCB_TYPE_DEVICE) && negb (ftype f =? FCB_TYPE_REG_FILE))) ;;
  if (bad : bool) then seterr ENODEV ;;; ret None else
  fs <-- (if fs =? m1U16 then
            fs <-- Fsdrv.fsdrv_detect fuel fd ;;
            when (negb (k =? ROOTMTAB) && negb (fs =? m1U16))
             (modify (fun s => set_mtab (zset (mtab s) k (set_fstype fs m)) s)) ;;;
            ret fs
          else ret fs) ;;
  has <-- (if fs =? m1U16 then ret false else d <-- fsdrv_at fs ;; ret (has_locate d)) ;;
  if negb has then seterr ENOFS ;;; ret None else
  q <-- gets fsck_dev ;;
  if q =? fd then seterr EAGAIN ;;; ret None else
  ret (Some (fd, fs, l)).

(** A file found: its path ends with a slash if it is a directory, and it gets a file
    control block when it has none. *)
Definition found (p : list Z) (f fd fs : Z) (loc : locate_t) : M fs_state Z :=
  let dir := (l_type loc =? FCB_TYPE_REG_DIR) || (l_type loc =? FCB_TYPE_UNION) in
  mx <-- gets pathmax ;;
  p <-- (if dir && (0 <? zlen p) && negb (Vfs.at_ p (zlen p - 1) =? Vfs.SLASH)
         then if mx <=? zlen p + 1 then ub else ret (p ++ [Vfs.SLASH]) else ret p) ;;
  f <-- (if f =? m1U then Fcb.fcb_add p (l_type loc) else ret f) ;;
  fcb_mod f (set_ffs fs) ;;;
  d <-- fcb_at fd ;;
  when ((l_type loc =? FCB_TYPE_REG_FILE) || dir) (fcb_mod f (set_fmode (fmode d))) ;;;
  fcb_mod f (fun x => set_filesize (l_filesize loc) (set_inode (l_inode loc) (set_storage fd x))) ;;;
  ret f.

(** A symbolic link in the path.  The path to go on with is freed before it is read: the
    jump back to the start frees the buffer the new path is in. *)
Definition through_link (raw : list Z) (l : Z) (loc : locate_t) : M fs_state unit :=
  let to := Vfs.cstring (l_fileblk loc) in
  let rest := Vfs.cstring (drop (Z.to_nat (l + l_adv loc)) raw) in
  t <-- (if negb (Vfs.at_ (l_fileblk loc) 0 =? Vfs.SLASH) then
           ok <-- alloc_ok ;;
           if (ok : bool) then Vfs.pathcat (Some (take (back raw (Z.to_nat (l + l_adv loc - 1))) raw)) (Some to)
           else ret None
         else Vfs.canonize (Some to)) ;;
  match t with
  | None => ret tt
  | Some t =>
      r <-- Vfs.pathcat (Some t) (Some rest) ;;
      match r with None => ret tt | Some _ => ub end
  end.

(** The members of a union in the path, looked up one after the other. *)
Fixpoint through_union (n : nat) (look : list Z -> M fs_state Z) (blk rest : list Z) (creat : bool) (c f : Z)
    : M fs_state Z :=
  match n with
  | O => loop
  | S n' =>
      if negb (f =? m1U) then ret f else
      b <-- need (zget blk c) ;;
      if (b =? 0) || negb (c <? PAGESIZE - 2048) then ret f else
      if creat then seterr EISUNI ;;; ret f else
      if negb (b =? Vfs.SLASH) then seterr EBADFS ;;; ret f else
      let m := Vfs.cstring (drop (Z.to_nat c) blk) in
      t <-- Vfs.canonize (Some m) ;;
      match t with
      | None => ret f
      | Some t =>
          r <-- Vfs.pathcat (Some t) (Some rest) ;;
          match r with
          | None => ret f
          | Some r => f <-- look r ;; through_union n' look blk rest creat (c + zlen m + 1) f
          end
      end
  end.

(** No space left: the initial ram disk grows by a page, once for the same inode.  [true]
    to try again. *)
Definition more_space (fd fs re : Z) (loc : locate_t) : M fs_state bool :=
  f <-- fcb_at fd ;;
  ok <-- (if ftype f =? FCB_TYPE_DEVICE then
            d <-- dev_at (inode f) ;;
            if (drivertask d =? MEMFS_MAJOR) && (device d =? MEMFS_RAMDISK) then
              v <-- fsdrv_at fs ;;
              if has_resizefs v && negb (re =? l_inode loc) then alloc_ok else ret false
            else ret false
          else ret false) ;;
  if (ok : bool) then
    modify (fun s => set_ramdisk (take (Z.to_nat (filesize f)) (ramdisk s) ++ List.repeat 0 (Z.to_nat PAGESIZE) ++
                                  drop (Z.to_nat (filesize f + PAGESIZE)) (ramdisk s)) s) ;;;
    fcb_mod fd (fun x => set_filesize (u64 (filesize x + PAGESIZE)) x) ;;;
    drv_resizefs fs fd ;;; ret true
  else seterr ENOSPC ;;; ret false.

(** [depth] bounds the nesting of unions and the growing of the ram disk; [re] is the inode
    it grew for. *)
Fixpoint lookup (depth fuel : nat) (re : Z) (path : option (list Z)) (creat : bool) : M fs_state Z :=
  match depth with
  | O => loop
  | S depth' =>
      match path with
      | None | Some [] => seterr EINVAL ;;; ret m1U
      | Some _ =>
          a <-- Vfs.canonize_buf path ;;
          match a with
          | None => seterr ENOENT ;;; ret m1U
          | Some raw =>
              let p := Vfs.cstring raw in
              if creat && has_joker p then seterr ENOENT ;;; ret m1U else
              f <-- Fcb.fcb_get (Some p) ;;
              known <-- (if f =? m1U then ret false else
                         if f =? ROOTFCB then x <-- fcb_at f ;; ret (negb (inode x =? 0)) else ret true) ;;
              if (known : bool) then ret f else
              t <-- storage_of fuel raw ;;
              match t with
              | None => ret m1U
              | Some (fd, fs, l) =>
                  modify (set_pathstackidx 0) ;;;
                  do2 status loc <-- drv_locate fs fd (drop (Z.to_nat l) raw) creat ;;
                  let raw := take (Z.to_nat l) raw ++ l_path loc in
                  mx <-- gets pathmax ;;
                  if mx <? zlen raw then ub else
                  wait <-- gets ackdelayed ;;
                  if (wait : bool) then ret m1U else
                  r <-- (if status =? SUCCESS then f <-- found (Vfs.cstring raw) f fd fs loc ;; ret (Some f)
                         else if status =? NOTFOUND then seterr ENOENT ;;; ret (Some f)
                         else if status =? FSERROR then seterr EBADFS ;;; ret (Some f)
                         else if status =? SYMINPATH then through_link raw l loc ;;; ret (Some f)
                         else if status =? UNIONINPATH then
                           f <-- through_union (S (length (l_fileblk loc)))
                                   (fun r => lookup depth' fuel 0 (Some r) creat) (l_fileblk loc)
                                   (Vfs.cstring (drop (Z.to_nat (l + l_adv loc)) raw)) creat 0 f ;;
                           ret (Some f)
                         else if status =? NOSPACE then
                           again <-- more_space fd fs re loc ;;
                           ret (if (again : bool) then None else Some f)
                         else ret (Some f)) ;;
                  match r with
                  | None => lookup depth' fuel (l_inode loc) path creat
                  | Some f =>
                      e <-- gets errn ;;
                      when ((f =? m1U) && (e =? 0)) (seterr ENOENT) ;;; ret f
                  end
              end
          end
      end
  end.

End Ops.
End Lookup.

(** ** The members of a union *)
Module Union.
Section Ops.
Context {E : FsEnv} {D : FsDrivers}.

(** [strlen] of the string at [i]; it must end in the block. *)
Definition strlen_at (blk : list Z) (i : Z) : M fs_state Z :=
  let l := Vfs.span (fun c => negb (c =? 0)) (drop (Z.to_nat i) blk) in
  need (zget blk (i + l)) ;;; ret l.

(** The first position of three dots below [l - 3], from [j] on. *)
Fixpoint joker (n : nat) (m : list Z) (j l : Z) : option Z :=
  match n with
  | O => None
  | S n' => if j <? l - 3 then if Lookup.joker_at m j then Some j else joker n' m (j + 1) l else None
  end.

(** [pathcat(fn, name)] with the answer not looked at: the buffer stays when it does not
    fit. *)
Definition append (fn name : list Z) : M fs_state (list Z) :=
  r <-- Vfs.pathcat (Some fn) (Some name) ;; ret (default fn r).

(** The directories at the place of a joker: [buf] is the directory's content.  It answers
    the list, its length, the last entry's size, or nothing when there is no memory. *)
Definition expand (depth fuel : nat) (f : Z) (pre rest buf : list Z) (s : Z) (fl : list Z) (n : Z)
    : M fs_state (option (list Z * Z * Z)) :=
  iter fuel (fun st : Z * Z * Z * list Z * Z =>
    let '(f, j, l, fl, n) := st in
    if (j <? s) && negb (l =? 0) then
      modify (fun s => set_dirent (set_d_name [] (dirent s)) s) ;;;
      x <-- fcb_at f ;;
      v <-- fsdrv_at (ffs x) ;;
      l <-- (if has_getdirent v then drv_getdirent (ffs x) (drop (Z.to_nat j) buf) j else ub) ;;
      d <-- gets dirent ;;
      match Vfs.last_of (d_name d) with
      | Some 47 =>
          fn <-- append pre (d_name d) ;;
          fn <-- append fn rest ;;
          f <-- Lookup.lookup depth fuel 0 (Some fn) false ;;
          do2 fl n <-- Fcb.fcb_unionlist_add fl f n ;;
          if n =? 0 then ret (inr None) else ret (inl (f, j + l, l, fl, n))
      | _ => ret (inl (f, j + l, l, fl, n))
      end
    else ret (inr (Some (fl, n, l)))) (f, 0, 1, fl, n).

(** One member at [i]: the answer of the whole function, or where to go on, with the list
    and its length.  Behind a member with a joker the size of the last directory entry is
    added instead of the length of the member. *)
Definition member (depth fuel : nat) (blk : list Z) (i : Z) (buf : option (list Z)) (s : Z) (fl : list Z) (n : Z)
    : M fs_state (Z * list Z * Z + Z) :=
  l <-- strlen_at blk i ;;
  let m := take (Z.to_nat l) (drop (Z.to_nat i) blk) in
  match joker (length m) m 0 l with
  | Some k =>
      ok <-- alloc_ok ;;
      if negb ok then ret (inr m1U) else
      f <-- Lookup.lookup depth fuel 0 (Some (take (Z.to_nat (k + 1)) m)) false ;;
      a <-- gets ackdelayed ;;
      if (a : bool) then ret (inr m1U) else
      h <-- (if f =? m1U then ret false else x <-- fcb_at f ;; drv_has (ffs x) has_getdirent) ;;
      if negb h then ret (inl (i + l, fl, n)) else
      match buf with
      | None => ret (inr f)
      | Some buf =>
          ok <-- alloc_ok ;;
          (* without memory the loop goes on in the middle of the member *)
          if negb ok then ret (inl (i, fl, n)) else
          r <-- expand depth fuel f (take (Z.to_nat k) m) (drop (Z.to_nat (k + 4)) m) buf s fl n ;;
          match r with
          | None => ret (inr m1U)
          | Some (fl, n, l) => ret (inl (i + l, fl, n))
          end
      end
  | None =>
      f <-- Lookup.lookup depth fuel 0 (Some m) false ;;
      if f =? m1U then ret (inl (i + l, fl, n)) else
      a <-- gets ackdelayed ;;
      if (a : bool) then ret (inr m1U) else
      do2 fl n <-- Fcb.fcb_unionlist_add fl f n ;;
      if n =? 0 then ret (inr m1U) else ret (inl (i + l, fl, n))
  end.

Fixpoint count_members (l : list Z) : M fs_state unit :=
  match l with
  | [] => ret tt
  | i :: l' => fcb_mod i (fun f => set_nopen (nopen f + 1) f) ;;; count_members l'
  end.

Definition fcb_unionlist_build (depth fuel : nat) (idx : Z) (buf : option (list Z)) (s : Z) : M fs_state Z :=
  n <-- gets nfcb ;;
  if n <=? idx then ret m1U else
  u <-- fcb_at idx ;;
  h <-- drv_has (ffs u) has_read ;;
  if match abspath u with None => true | Some _ => false end || negb (ftype u =? FCB_TYPE_UNION) || negb h
  then ret m1U else
  d <-- fcb_at (storage u) ;;
  let bs := blksize d in
  blk <-- Fcb.fcb_readlink idx ;;
  a <-- gets ackdelayed ;;
  match blk with
  | None | Some [] => ret m1U
  | Some blk =>
      if (Vfs.at_ blk 0 =? 0) || a then ret m1U else
      r <-- iter fuel (fun st : Z * list Z * Z =>
        let '(i, fl, n) := st in
        if i <? bs then
          c <-- need (zget blk i) ;;
          (* the first byte is not zero, so the byte before it is not looked at *)
          if (c =? 0) && (Vfs.at_ blk (i - 1) =? 0) then ret (inr (inl (fl, n))) else
          r <-- member depth fuel blk i buf s fl n ;;
          match r with
          | inl (i, fl, n) => ret (inl (i + 1, fl, n))
          | inr a => ret (inr (inr a))
          end
        else ret (inr (inl (fl, n)))) (0, [], 1) ;;
      match r with
      | inr a => ret a
      | inl (fl, n) =>
          when (negb (bool_decide (fl = [])) && (1 <? n))
           (count_members (take (Z.to_nat n) fl) ;;; seterr SUCCESS) ;;;
          fcb_mod idx (set_unionlist (match fl with [] => None | _ => Some fl end)) ;;;
          ret m1U
      end
  end.

End Ops.
End Union.

(** ** Directory entries *)
Module Readdir.
Section Ops.
Context {E : FsEnv} {D : FsDrivers}.

(** The entry of the target of a symbolic link, [lastlink]. *)
Definition link_target (depth fuel : nat) (tc i : Z) (fc : fcb_t) (link : list Z) : M fs_state Z :=
  if Vfs.at_ link 0 =? Vfs.SLASH then Lookup.lookup depth fuel 0 (Some link) false else
  ok <-- alloc_ok ;;
  if negb ok then ret m1U else
  base <-- (if ftype fc =? FCB_TYPE_UNION then
              o <-- Taskctx.of_at tc i ;;
              m <-- need (unionlist fc ≫= fun l => zget l (of_unionidx o)) ;;
              x <-- fcb_at m ;; need (abspath x)
            else need (abspath fc)) ;;
  p <-- Union.append base link ;;
  Lookup.lookup depth fuel 0 (Some p) false.

(** The type, size and icon from the file status; [false] when the answer is delayed. *)
Definition stat_entry (depth fuel : nat) (tc i : Z) (fc : fcb_t) : M fs_state bool :=
  s <-- get ;;
  modify (fun s => set_dirent (set_d_filesize (st_size (st s)) (set_d_type (Z.shiftr (st_mode (st s)) 16) (dirent s))) s) ;;;
  go <-- match lastlink s with
         | None => ret true
         | Some link =>
             f <-- link_target depth fuel tc i fc link ;;
             a <-- gets ackdelayed ;;
             if (a : bool) then ret false else
             x <-- (if f =? m1U then ret None else
                      x <-- fcb_at f ;; n <-- gets nfsdrv ;; ret (if ffs x <? n then Some x else None)) ;;
             match x with
             | None => ret true
             | Some x =>
                 v <-- fsdrv_at (ffs x) ;;
                 r <-- (if has_stat v then drv_stat (ffs x) (storage x) (inode x) else ub) ;;
                 when r (modify (fun s => set_dirent (set_d_filesize (st_size (st s))
                           (set_d_type (Z.lor (Z.ldiff (d_type (dirent s)) (Z.shiftr S_IFMT 16))
                                              (Z.shiftr (st_mode (st s)) 16)) (dirent s))) s)) ;;;
                 ret true
             end
         end ;;
  if negb go then ret false else
  modify (fun s =>
    let ic := take 8 (st_type (st s) ++ st_mime (st s)) in
    set_dirent (set_d_icon (if Vfs.at_ ic 3 =? Vfs.COLON then zset ic 3 0 else ic) (dirent s)) s) ;;;
  ret true.

(** The position moves on; behind the last entry of a member to the next one. *)
Definition advance (tc i : Z) (fc : fcb_t) (n : Z) : M fs_state unit :=
  Taskctx.of_mod tc i (fun o => set_of_offs (u64 (of_offs o + n)) o) ;;;
  when (ftype fc =? FCB_TYPE_UNION)
   (o <-- Taskctx.of_at tc i ;;
    m <-- need (unionlist fc ≫= fun l => zget l (of_unionidx o)) ;;
    x <-- fcb_at m ;;
    when (filesize x <=? of_offs o)
      (Taskctx.of_mod tc i (fun o => set_of_unionidx (of_unionidx o + 1) (set_of_offs 0 o)))).

(** Whether there is an entry; it is left in [dirent]. *)
Definition taskctx_readdir (depth fuel : nat) (tc idx : Z) (ptr : list Z) : M fs_state bool :=
  v <-- Taskctx.taskctx_validfid tc idx ;;
  if negb v then seterr EBADF ;;; ret false else
  let i := idx - 1 in
  o <-- Taskctx.of_at tc i ;;
  if has (of_mode o) O_FIFO || has (of_mode o) OF_MODE_TTY then seterr EPIPE ;;; ret false else
  modify (set_dirent zero_dirent) ;;;
  fc <-- fcb_at (of_fid o) ;;
  s <-- get ;;
  if ffs fc =? devfsidx s then
    n <-- Devfs.devfs_getdirent (of_offs o) ;;
    Taskctx.of_mod tc i (fun o => set_of_offs (u64 (of_offs o + n)) o) ;;;
    s <-- get ;;
    if (n =? 0) || match d_name (dirent s) with [] => true | _ => false end then
      Taskctx.of_mod tc i (set_of_offs (ndev s)) ;;; seterr ENOENT ;;; ret false
    else ret true
  else
  h <-- drv_has (ffs fc) has_getdirent ;;
  if negb h then seterr ENOTSUP ;;; ret false else
  k <-- gets fsck_dev ;;
  if k =? storage fc then seterr EBUSY ;;; ret false else
  n <-- drv_getdirent (ffs fc) ptr (of_offs o) ;;
  d <-- gets dirent ;;
  if (n =? 0) || match d_name d with [] => true | _ => false end then ret false else
  modify (fun s => set_dirent (set_d_type FCB_TYPE_REG_FILE (set_d_dev (storage fc)
            (if d_len d =? 0 then set_d_len (zlen (d_name d)) d else d))) s) ;;;
  modify (set_st zero_stat) ;;;
  h <-- drv_has (ffs fc) has_stat ;;
  r <-- (if (h : bool) then drv_stat (ffs fc) (storage fc) (d_ino d) else ret false) ;;
  go <-- (if (r : bool) then stat_entry depth fuel tc i fc else ret true) ;;
  if negb go then ret false else
  advance tc i fc n ;;; ret true.

End Ops.
End Readdir.

(** ** The table of file systems *)
Module Fstab.
Section Ops.
Context {E : FsEnv} {D : FsDrivers}.

Definition NL : Z := 10.
Definition blank (c : Z) : bool := (c =? 9) || (c =? 32).
Definition ROOTDEV : list Z := Devfs.DEVPATH ++ Vfs.ROOTNAME.

(** [*ptr] *)
Definition at_ptr (b : list Z) (p : Z) : M fs_state Z := need (zget b p).

(** A field at [p], terminated by a zero, and the blanks behind it: the buffer and the
    position of the next field, or of where to go on with the next line. *)
Definition field (b : list Z) (p : Z) : M fs_state (list Z * Z + list Z * Z) :=
  let p := Vfs.skip (fun c => negb (c =? 0) && negb (blank c)) b p in
  c <-- at_ptr b p ;;
  if c =? NL then ret (inl (b, p)) else
  let b := zset b p 0 in
  let p := Vfs.skip blank b (p + 1) in
  c <-- at_ptr b p ;;
  if c =? NL then ret (inl (b, p)) else ret (inr (b, p)).

(** One line, from [p] on, in the round [pass]. *)
Definition line (depth fuel : nat) (pass : Z) (b : list Z) (p : Z) : M fs_state (list Z * Z) :=
  let p := Vfs.skip (fun c => (c =? NL) || blank c) b p in
  c <-- at_ptr b p ;;
  if c =? Vfs.HASH then
    ret (b, Z.min (zlen b) (Vfs.skip (fun c => negb (c =? NL)) b p + 1))
  else
  let dev := p in
  r <-- field b p ;;
  match r with
  | inl bp => ret bp
  | inr (b1, file) =>
      r <-- field b1 file ;;
      match r with
      | inl bp => ret bp
      | inr (b2, opts) =>
          r <-- field b2 opts ;;
          match r with
          | inl bp => ret bp
          | inr (b3, p) =>
              c <-- at_ptr b3 p ;;
              when (c =? pass)
               (Mtab.mtab_add depth fuel (Some (Vfs.cstring (drop (Z.to_nat dev) b3)))
                                         (Some (Vfs.cstring (drop (Z.to_nat file) b3))) ;;; ret tt) ;;;
              ret (b3, p + 1)
          end
      end
  end.

Definition lines (depth fuel : nat) (pass : Z) (b : list Z) : M fs_state (list Z) :=
  iter fuel (fun bp : list Z * Z => let (b, p) := bp in
    if p <? zlen b then bp <-- line depth fuel pass b p ;; ret (inl bp) else ret (inr b)) (b, 0).

(** The rounds from '1' to '9'. *)
Fixpoint passes (n : nat) (depth fuel : nat) (pass : Z) (b : list Z) : M fs_state unit :=
  match n with
  | O => ret tt
  | S n' =>
      b <-- lines depth fuel pass b ;;
      m <-- gets rootmounted ;;
      when ((pass =? 49) && negb m)
        (Mtab.mtab_add depth fuel (Some ROOTDEV) (Some [Vfs.SLASH]) ;;; ret tt) ;;;
      passes n' depth fuel (pass + 1) b
  end.

(** The error code is tested with the result of the allocation. *)
Definition mtab_fstab (depth fuel : nat) (text : option (list Z)) : M fs_state unit :=
  match text with
  | None | Some [] => Mtab.mtab_add depth fuel (Some ROOTDEV) (Some [Vfs.SLASH]) ;;; ret tt
  | Some b =>
      ok <-- alloc_ok ;;
      e <-- gets errn ;;
      if negb ok || negb (e =? 0) then stop 2 else
      passes 9 depth fuel 49 b
  end.

End Ops.
End Fstab.
