(* ===== verification/Fsz.v ===== *)
(** The driver of the FS/Z file system, src/drivers/fs/fsz/main.c, on the disk format of
    include/osZ/fsZ.h. *)
From Stdlib Require Import ZArith Lia List.
From stdpp Require Import base option list gmap.
From S2P Require Import Prelude CoreState LibcString Crc32 FsState Devfs Cache Vfs Lookup.
Import FsState.

Module Fsz.

(** ** The disk format *)

Fixpoint le_word (l : list Z) : Z := match l with [] => 0 | b :: l' => b + 256 * le_word l' end.
(** An unsigned field of [n] bytes at [o] of the block [b]. *)
Definition field (n o : Z) (b : list Z) : M fs_state Z := l <-- need (slice b o n) ;; ret (le_word l).
(** The [n] bytes at [o]. *)
Definition part (o n : Z) (b : list Z) : M fs_state (list Z) := need (slice b o n).
Definition set_field (n : nat) (o v : Z) (b : list Z) : M fs_state (list Z) :=
  need (overlay b o (LibcString.bytes_of n v)).

(** FSZ_SuperBlock *)
Definition FSZ_MAGIC : list Z := [70; 83; 47; 90].
Definition FSZ_SB_FLAG_BIGINODE : Z := 1.
Definition sb_magic : list Z -> M fs_state (list Z) := part 512 4.
Definition sb_flags : list Z -> M fs_state Z := field 1 518.
Definition sb_logsec : list Z -> M fs_state Z := field 2 520.
Definition sb_numsec : list Z -> M fs_state Z := field 8 528.
Definition sb_freesec : list Z -> M fs_state Z := field 8 544.
Definition sb_rootdirfid : list Z -> M fs_state Z := field 8 560.
Definition sb_freesecfid : list Z -> M fs_state Z := field 8 576.
Definition sb_magic2 : list Z -> M fs_state (list Z) := part 1016 4.
Definition sb_checksum : list Z -> M fs_state Z := field 4 1020.

(** FSZ_Inode *)
Definition FSZ_IN_MAGIC : list Z := [70; 83; 73; 78].
Definition FSZ_FILETYPE_DIR : list Z := [100; 105; 114; 58].
Definition FSZ_FILETYPE_UNION : list Z := [117; 110; 105; 58].
Definition FSZ_FILETYPE_SYMLINK : list Z := [108; 110; 107; 58].
Definition FSZ_FILETYPE_REG_APP : list Z := [97; 112; 112; 108].
Definition in_magic : list Z -> M fs_state (list Z) := part 0 4.
Definition in_filetype : list Z -> M fs_state (list Z) := part 8 4.
Definition in_mimetype : list Z -> M fs_state (list Z) := part 12 44.
Definition in_changedate : list Z -> M fs_state Z := field 8 80.
Definition in_accessdate : list Z -> M fs_state Z := field 8 88.
Definition in_numblocks : list Z -> M fs_state Z := field 8 96.
Definition in_numlinks : list Z -> M fs_state Z := field 8 104.
Definition in_owner : list Z -> M fs_state (list Z) := part 496 16.
(** The current version is number 0; version [v] stands before it. *)
Definition version_at (v : Z) : Z := 448 - 64 * v.
Definition in_sec (v : Z) : list Z -> M fs_state Z := field 8 (version_at v).
Definition in_size (v : Z) : list Z -> M fs_state Z := field 8 (version_at v + 16).
Definition in_modifydate : list Z -> M fs_state Z := field 8 480.
Definition in_flags (v : Z) : list Z -> M fs_state Z := field 8 (version_at v + 40).
Definition inline_at (flags : Z) : Z := if has flags FSZ_SB_FLAG_BIGINODE then 2048 else 1024.

Definition FSZ_FLAG_TRANSLATION (x : Z) : Z := u8 x.
Definition FSZ_IN_FLAG_INLINE : Z := 0xFF.
Definition FSZ_IN_FLAG_DIRECT : Z := 0.
Definition FSZ_IN_FLAG_SDINLINE : Z := 0x7F.
Definition FSZ_IN_FLAG_SECLIST : Z := 0x80.
Definition FSZ_IN_FLAG_SECLIST2 : Z := 0x83.
Definition MAXINDIRECT : Z := 8.

(** FSZ_DirEntHeader, FSZ_DirEnt *)
Definition FSZ_DIR_MAGIC : list Z := [70; 83; 68; 82].
Definition SIZEOF_DIRENT : Z := 128.
Definition dir_numentries : list Z -> M fs_state Z := field 8 16.
Definition ent_fid : list Z -> M fs_state Z := field 8 0.
Definition ent_length : list Z -> M fs_state Z := field 1 16.
Definition ent_name (b : list Z) : list Z := drop 17 b.

(** FSZ_SectorList *)
Definition SIZEOF_SECTORLIST : Z := 32.

Section Ops.
Context {E : FsEnv} {D : FsDrivers}.

(** ** Blocks changed in place *)

(** What is written through the pointer to a block: in the initial ram disk and in the
    block cache.  The block of an image file may stand in a block of another device; that
    change is left out. *)
Definition poke (fd lsn : Z) (blk : list Z) : M fs_state unit :=
  f <-- fcb_at fd ;;
  if negb (ftype f =? FCB_TYPE_DEVICE) then ret tt else
  d <-- dev_at (inode f) ;;
  if drivertask d =? MEMFS_MAJOR then
    if device d =? MEMFS_RAMDISK then
      m <-- gets ramdisk ;;
      m' <-- need (overlay m (u64 (lsn * blksize f)) blk) ;;
      modify (set_ramdisk m')
    else ret tt
  else modify (fun s => set_cnodes
    ((fun c => if (Cache.CACHE_FD (c_fd c) =? fd) && (c_lsn c =? lsn) then set_c_blk blk c else c) <$> cnodes s) s).

Definition BLKPRIO_CRIT : Z := 1.

(** The file system gets the size of the device. *)
Definition resizefs (fuel : nat) (fd : Z) : M fs_state unit :=
  b <-- Vfs.readblock fuel fd 0 ;;
  sb <-- need b ;;
  f <-- fcb_at fd ;;
  n <-- (if blksize f =? 0 then ub else ret (filesize f / blksize f)) ;;
  sb <-- set_field 8 528 n sb ;;
  poke fd 0 sb ;;;
  Vfs.writeblock fuel fd 0 sb BLKPRIO_CRIT ;;; ret tt.

Definition detect (fuel : nat) (fd : Z) (blk : list Z) : M fs_state bool :=
  m <-- sb_magic blk ;;
  ok <-- (if negb (bool_decide (m = FSZ_MAGIC)) then ret false else
          m2 <-- sb_magic2 blk ;;
          if negb (bool_decide (m2 = FSZ_MAGIC)) then ret false else
          c <-- sb_checksum blk ;;
          d <-- part 512 508 blk ;;
          ret (c =? Crc32.crc32a_calc d)) ;;
  when ok
   (l <-- sb_logsec blk ;;
    (if 20 <=? l then ub else fcb_mod fd (set_blksize (Z.shiftl 1 (l + 11)))) ;;;
    n <-- sb_numsec blk ;;
    f <-- fcb_at fd ;;
    when (negb (filesize f =? u64 (n * blksize f))) (resizefs fuel fd)) ;;;
  ret ok.

(** ** Allocating a block *)

(** The first entry with sectors in the list of free ones, at [o] of the block [b]; [s]
    bytes are left, the one behind the end is looked at too. *)
Fixpoint free_entry (n : nat) (b : list Z) (o s : Z) : M fs_state (option (Z * Z)) :=
  match n with
  | O => ub
  | S n' =>
      if s64 s <? 0 then ret None else
      k <-- field 8 (o + 16) b ;;
      if 0 <? k then ret (Some (o, s)) else free_entry n' b (o + SIZEOF_SECTORLIST) (u64 (s - SIZEOF_SECTORLIST))
  end.

(** The sector is taken from the entry at [o] of the inode's block [b], which is written
    to the place of the block that was read last by [read]. *)
Definition take_free (fuel : nat) (fd fid : Z) (bs : Z) (b : list Z) (o s : Z) : M fs_state Z :=
  i <-- field 8 o b ;;
  r <-- Vfs.readblock fuel fd i ;;
  match r with
  | None => ret m1UL
  | Some _ =>
      sz <-- field 8 464 b ;;
      b <-- set_field 8 464 (u64 (sz - bs)) b ;;
      b <-- set_field 8 o (u64 (i + 1)) b ;;
      k <-- field 8 (o + 16) b ;;
      b <-- set_field 8 (o + 16) (k - 1) b ;;
      b <-- (if k - 1 =? 0 then
               l <-- part (o + SIZEOF_SECTORLIST) (s - SIZEOF_SECTORLIST) b ;; need (overlay b o l)
             else ret b) ;;
      poke fd fid b ;;;
      l <-- gets lastsec ;;
      Vfs.writeblock fuel fd l b BLKPRIO_CRIT ;;; ret i
  end.

(** The first sector behind the used ones. *)
Definition take_end (fuel : nat) (fd : Z) (sb : list Z) : M fs_state Z :=
  f <-- sb_freesec sb ;;
  n <-- sb_numsec sb ;;
  if f <? n then
    r <-- Vfs.readblock fuel fd f ;;
    match r with
    | None => ret m1UL
    | Some _ =>
        sb <-- set_field 8 544 (u64 (f + 1)) sb ;;
        poke fd 0 sb ;;;
        Vfs.writeblock fuel fd 0 sb BLKPRIO_CRIT ;;; ret f
    end
  else ret m1UL.

Definition allocateblock (fuel : nat) (fd : Z) : M fs_state Z :=
  b <-- Vfs.readblock fuel fd 0 ;;
  f <-- fcb_at fd ;;
  let bs := blksize f in
  match b with
  | None => ret m1UL
  | Some sb =>
      fid <-- sb_freesecfid sb ;;
      if fid =? 0 then take_end fuel fd sb else
      i <-- Vfs.readblock fuel fd fid ;;
      match i with
      | None => ret m1UL
      | Some b =>
          m <-- in_magic b ;;
          if negb (bool_decide (m = FSZ_IN_MAGIC)) then ret m1UL else
          fl <-- sb_flags sb ;;
          let o := inline_at fl in
          let s := u64 (bs - o) in
          z <-- in_size 0 b ;;
          e <-- (if (0 <? s) && (0 <? z) then free_entry (length b) b o s else ret None) ;;
          match e with
          | Some (o, s) => take_free fuel fd fid bs b o s
          | None => take_end fuel fd sb
          end
      end
  end.

(** ** Finding a file *)

(** The end of the first member of the path at [pos], behind its slash. *)
Definition member_end (p : list Z) (pos : Z) : Z :=
  let e := Vfs.skip (fun c => negb (c =? Vfs.SLASH) && negb (Vfs.PATHEND c)) p pos in
  if Vfs.at_ p e =? Vfs.SLASH then e + 1 else e.

(** [strcpy] to [pos] of the buffer [p]. *)
Definition write_str (p : list Z) (pos : Z) (s : list Z) : list Z :=
  take (Z.to_nat pos) p ++ s ++ [0] ++ drop (Z.to_nat (pos + zlen s + 1)) p.

(** [l] times the block the first word of a block points to; [None] for a missing one. *)
Fixpoint first_of_sd (l : nat) (fuel : nat) (fd : Z) (b : list Z) : M fs_state (option (list Z)) :=
  match l with
  | O => ret (Some b)
  | S l' =>
      w <-- field 8 0 b ;;
      if w =? 0 then ret None else
      r <-- Vfs.readblock fuel fd w ;;
      match r with None => ret None | Some b => first_of_sd l' fuel fd b end
  end.

(** The first data block of the inode [b]: a status when there is none, else the block,
    which stays what it was for the lists of extents. *)
Definition first_block (fuel : nat) (fd flags : Z) (b : list Z) (old : option (list Z))
    : M fs_state (Z + option (list Z)) :=
  fl <-- in_flags 0 b ;;
  let l := FSZ_FLAG_TRANSLATION fl in
  let block := fun sec : Z =>
    if sec =? 0 then ret None else Vfs.readblock fuel fd sec in
  let status := fun r : option (list Z) =>
    match r with Some c => inr (Some c) | None => inl Lookup.NOBLOCK end in
  if l =? FSZ_IN_FLAG_INLINE then ret (inr (Some (drop (Z.to_nat (inline_at flags)) b)))
  else if (FSZ_IN_FLAG_SECLIST <=? l) && (l <=? FSZ_IN_FLAG_SECLIST2) then ret (inr old)
  else if l =? FSZ_IN_FLAG_DIRECT then
    sec <-- in_sec 0 b ;; r <-- block sec ;; ret (status r)
  else if l =? FSZ_IN_FLAG_SDINLINE then
    r <-- first_of_sd 1 fuel fd (drop (Z.to_nat (inline_at flags)) b) ;; ret (status r)
  else
    sec <-- in_sec 0 b ;; r <-- block sec ;;
    match r with
    | None => ret (inl Lookup.NOBLOCK)
    | Some c =>
        if MAXINDIRECT <=? l then ret (inl Lookup.FSERROR) else
        r <-- first_of_sd (Z.to_nat l) fuel fd c ;; ret (status r)
    end.

(** What a walk through the entries of a directory ends with: no entry, an entry to go on
    with and the path so far, or an answer. *)
Inductive scan_result : Type :=
| NoEntry (loc : locate_t)
| Enter (fid : Z)
| Answer (status : Z) (loc : locate_t).

(** The entries from [d] on, [i] of them; [try_] looks the rest of the path up below an
    entry, for the joker.  [e] is the end of the member. *)
Fixpoint entries (n : nat) (try_ : Z -> locate_t -> M fs_state (Z * locate_t))
    (d : list Z) (i e : Z) (loc : locate_t) : M fs_state scan_result :=
  match n with
  | O => ub
  | S n' =>
      if i =? 0 then ret (NoEntry loc) else
      let d := drop (Z.to_nat SIZEOF_DIRENT) d in
      let p := l_path loc in
      let pos := l_adv loc in
      c <-- need (zget d 17) ;;
      if c =? 0 then ret (NoEntry loc) else
      if (3 <=? e - pos) && (Vfs.at_ p pos =? Vfs.DOT) && (Vfs.at_ p (pos + 1) =? Vfs.DOT) && (Vfs.at_ p (pos + 2) =? Vfs.DOT)
      then
        let name := Vfs.cstring (ent_name d) in
        if Vfs.at_ name (zlen name - 1) =? Vfs.SLASH then
          fid <-- ent_fid d ;;
          do2 r lo <-- try_ fid (mk_loc 0 0 [] e 0 p) ;;
          let loc := set_l_path (l_path lo) loc in
          if r =? SUCCESS then
            ok <-- alloc_ok ;;
            if negb ok then ret (Answer Lookup.NOBLOCK loc) else
            ret (Answer SUCCESS
                  (mk_loc (l_inode lo) (l_filesize lo) (l_fileblk lo) pos (l_type lo)
                     (write_str (l_path lo) pos (name ++ Vfs.cstring (drop (Z.to_nat e) (l_path lo))))))
          else entries n' try_ d (i - 1) e loc
        else entries n' try_ d (i - 1) e loc
      else if bool_decide (take (Z.to_nat (e - pos)) (ent_name d) = take (Z.to_nat (e - pos)) (drop (Z.to_nat pos) p))
      then fid <-- ent_fid d ;; ret (Enter fid)
      else entries n' try_ d (i - 1) e loc
  end.

(** Behind the last member found: a block is allocated for a new file. *)
Definition not_found (fuel : nat) (fd lsn : Z) (creat : bool) (loc : locate_t) : M fs_state (Z * locate_t) :=
  if (creat : bool) then
    i <-- allocateblock fuel fd ;;
    ret (if i =? m1U then Lookup.NOSPACE else Lookup.NOTFOUND, set_l_inode lsn loc)
  else ret (Lookup.NOTFOUND, loc).

(** The kind of a file. *)
Definition type_of (t : list Z) : Z :=
  if bool_decide (t = FSZ_FILETYPE_DIR) then FCB_TYPE_REG_DIR
  else if bool_decide (t = FSZ_FILETYPE_UNION) then FCB_TYPE_UNION
  else FCB_TYPE_REG_FILE.

(** From the label [nextdir] on: the inode [lsn] and the rest of the path.  [big] are the
    flags of the superblock, [blk] is [loc->fileblk]. *)
Fixpoint walk (n fuel : nat) (fd : Z) (creat : bool) (big lsn : Z) (blk : option (list Z)) (loc : locate_t)
    : M fs_state (Z * locate_t) :=
  match n with
  | O => loop
  | S n' =>
      let p := l_path loc in
      let pos := l_adv loc in
      let e := member_end p pos in
      let loc := set_l_fileblk (default [] blk) loc in
      if (2 <=? e - pos) && (Vfs.at_ p pos =? Vfs.DOT) && (Vfs.at_ p (pos + 1) =? Vfs.DOT) && negb (Vfs.at_ p (pos + 2) =? Vfs.DOT)
      then
        last <-- Vfs.pathpop ;;
        match last with
        | None => ret (Lookup.UPDIR, loc)
        | Some (lsn, pos) =>
            walk n' fuel fd creat big lsn blk
              (set_l_adv pos (set_l_path (write_str p pos (Vfs.cstring (drop (Z.to_nat e) p))) loc))
        end
      else
      if lsn =? 0 then ret (Lookup.NOBLOCK, loc) else
      r <-- Vfs.readblock fuel fd lsn ;;
      match r with
      | None => ret (Lookup.NOBLOCK, loc)
      | Some b =>
          m <-- in_magic b ;;
          if negb (bool_decide (m = FSZ_IN_MAGIC)) then ret (Lookup.FSERROR, loc) else
          let inline := drop (Z.to_nat (inline_at big)) b in
          t <-- in_filetype b ;;
          if bool_decide (t = FSZ_FILETYPE_SYMLINK) then ret (Lookup.SYMINPATH, set_l_fileblk inline loc) else
          if Vfs.PATHEND (Vfs.at_ p pos) then
            z <-- in_size 0 b ;;
            ret (SUCCESS, set_l_type (type_of t) (set_l_filesize z (set_l_inode lsn loc)))
          else
          if bool_decide (t = FSZ_FILETYPE_UNION) then ret (Lookup.UNIONINPATH, set_l_fileblk inline loc) else
          x <-- first_block fuel fd big b blk ;;
          match x with
          | inl status => ret (status, set_l_fileblk [] loc)
          | inr blk =>
              let loc := set_l_fileblk (default [] blk) loc in
              if bool_decide (t = FSZ_FILETYPE_REG_APP) then ret (Lookup.FILEINPATH, loc) else
              if negb (bool_decide (t = FSZ_FILETYPE_DIR)) then not_found fuel fd lsn creat loc else
              d <-- need blk ;;
              m <-- part 0 4 d ;;
              if negb (bool_decide (m = FSZ_DIR_MAGIC)) then ret (Lookup.FSERROR, loc) else
              i <-- dir_numentries d ;;
              r <-- entries (S (length d)) (fun fid lo => start n' fuel fd fid false lo) d i e loc ;;
              match r with
              | NoEntry loc => not_found fuel fd lsn creat loc
              | Enter fid =>
                  Vfs.pathpush lsn pos ;;;
                  walk n' fuel fd creat big fid blk (set_l_adv e loc)
              | Answer status loc => ret (status, loc)
              end
          end
      end
  end
with start (n fuel : nat) (fd parent : Z) (creat : bool) (loc : locate_t) : M fs_state (Z * locate_t) :=
  match n with
  | O => loop
  | S n' =>
      k <-- gets nfcb ;;
      bad <-- (if k <=? fd then ret true else f <-- fcb_at fd ;; ret (bool_decide (abspath f = None))) ;;
      if (bad : bool) then ret (Lookup.NOTFOUND, loc) else
      r <-- Vfs.readblock fuel fd 0 ;;
      match r with
      | None => ret (Lookup.NOBLOCK, loc)
      | Some sb =>
          lsn <-- (if parent =? 0 then sb_rootdirfid sb else ret parent) ;;
          big <-- sb_flags sb ;;
          walk n' fuel fd creat big lsn None loc
      end
  end.

Definition checkfs (fd : Z) : M fs_state bool := k <-- gets fsck_dev ;; ret (k =? fd).

(** ** The status of a file *)

Definition S_IFREG : Z := 0.

Definition mode_as (bits : Z) (st : stat_t) : stat_t :=
  set_st_mode (Z.lor (Z.ldiff (st_mode st) S_IFMT) bits) st.

(** The superblock and the inode are asked for before anything is checked. *)
Definition stat_ (fuel : nat) (fd file : Z) : M fs_state bool :=
  sb <-- Vfs.readblock fuel fd 0 ;;
  i <-- Vfs.readblock fuel fd file ;;
  modify (set_lastlink None) ;;;
  k <-- gets nfcb ;;
  bad <-- (if k <=? fd then ret true else f <-- fcb_at fd ;; ret (blksize f =? 0)) ;;
  match (if (bad : bool) then None else i) with
  | None => ret false
  | Some b =>
      m <-- in_magic b ;;
      if negb (bool_decide (m = FSZ_IN_MAGIC)) then ret false else
      t <-- in_filetype b ;;
      modify (fun s => set_st (set_st_type t (st s)) s) ;;;
      when (negb (Vfs.at_ t 3 =? Vfs.COLON))
       (m <-- in_mimetype b ;; modify (fun s => set_st (set_st_mime m (st s)) s)) ;;;
      when (bool_decide (t = FSZ_FILETYPE_SYMLINK))
       (sb <-- need sb ;; fl <-- sb_flags sb ;;
        modify (fun s => set_st (mode_as (Z.lor S_IFREG S_IFLNK) (st s))
                         (set_lastlink (Some (Vfs.cstring (drop (Z.to_nat (inline_at fl)) b))) s))) ;;;
      when (bool_decide (t = FSZ_FILETYPE_UNION))
       (modify (fun s => set_st (mode_as (Z.lor S_IFDIR S_IFUNI) (st s)) s)) ;;;
      when (bool_decide (t = FSZ_FILETYPE_DIR))
       (modify (fun s => set_st (mode_as S_IFDIR (st s)) s)) ;;;
      nl <-- in_numlinks b ;; ow <-- in_owner b ;; sz <-- in_size 0 b ;; nb <-- in_numblocks b ;;
      at_ <-- in_accessdate b ;; ct <-- in_changedate b ;; mt <-- in_modifydate b ;;
      modify (fun s => set_st (set_st_mtime mt (set_st_ctime ct (set_st_atime at_ (set_st_blocks nb
                                (set_st_size sz (set_st_owner ow (set_st_nlink nl (st s)))))))) s) ;;;
      ret true
  end.

(** ** Reading *)

(** The block of the file at [offs], below [k] levels of sector directories; [j] bytes are
    below an entry of the top one.  [inl true] for a hole, [inl false] when a block is
    missing. *)
Fixpoint descend (k : nat) (fuel : nat) (fd bs offs j : Z) (b : list Z) : M fs_state (bool + list Z) :=
  match k with
  | O => ret (inr b)
  | S k' =>
      if j =? 0 then ub else
      i <-- field 8 (16 * (offs / j)) b ;;
      if i =? 0 then ret (inl true) else
      r <-- Vfs.readblock fuel fd i ;;
      match r with
      | None => ret (inl false)
      | Some b => modify (set_lastsec i) ;;; descend k' fuel fd bs offs (j / bs) b
      end
  end.

Definition read_err : M fs_state (option (list Z) * Z) := ret (None, 0).

(** Behind the lookup of the first block [b]: the offset is moved to the start of its
    block, and the size cut at the end of the first block only. *)
Definition read_sd (fuel : nat) (fd bs l sz offs s : Z) (b : list Z) : M fs_state (option (list Z) * Z) :=
  let o := if offs <? bs then 0 else offs / bs * bs in
  let cut := negb (offs <? bs) && (sz <? u64 (o + s)) in
  let s := if offs <? bs then (if bs - offs <? s then bs - offs else s) else if cut then sz - o else s in
  if cut && (s =? 0) then ret (None, s) else
  let offs := o in
  r <-- descend (Z.to_nat l) fuel fd bs offs (u64 (bs ^ l)) b ;;
  match r with
  | inl true => ret (None, s)
  | inl false => read_err
  | inr b => ret (Some (drop (Z.to_nat (offs mod bs)) b), s)
  end.

(** The file's bytes from [offs] on, [s] of them at most, in version [ver]: the bytes from
    the pointer answered on, [None] for a hole, and the size, 0 at the end of the file. *)
Definition read_ (fuel : nat) (fd file ver offs s : Z) : M fs_state (option (list Z) * Z) :=
  b0 <-- Vfs.readblock fuel fd 0 ;;
  i <-- Vfs.readblock fuel fd file ;;
  k <-- gets nfcb ;;
  bs <-- (if (file =? 0) || (k <=? fd) then ret 0 else f <-- fcb_at fd ;; ret (blksize f)) ;;
  match (if bs =? 0 then None else b0), i with
  | Some sb, Some b =>
      m <-- in_magic b ;;
      if negb (bool_decide (m = FSZ_IN_MAGIC)) then read_err else
      modify (set_lastsec file) ;;;
      if 5 <? ver then read_err else
      sz <-- in_size ver b ;; sec <-- in_sec ver b ;; fl <-- in_flags ver b ;;
      let l := FSZ_FLAG_TRANSLATION fl in
      if sz <? offs then read_err else
      let cut := sz <? u64 (offs + s) in
      let s := if cut then sz - offs else s in
      if cut && (s =? 0) then ret (None, s) else
      sf <-- sb_flags sb ;;
      let inline := drop (Z.to_nat (inline_at sf)) b in
      t <-- in_filetype b ;;
      if (l =? FSZ_IN_FLAG_INLINE) || bool_decide (t = FSZ_FILETYPE_SYMLINK) || bool_decide (t = FSZ_FILETYPE_UNION)
      then ret (Some (drop (Z.to_nat offs) inline), s) else
      if l =? FSZ_IN_FLAG_SDINLINE then
        i <-- field 8 (16 * (offs / bs)) inline ;;
        if i =? 0 then ret (None, s) else
        r <-- Vfs.readblock fuel fd sec ;;
        match r with None => read_err | Some b => ret (Some b, s) end
      else
      if sec =? 0 then ret (None, s) else
      r <-- Vfs.readblock fuel fd sec ;;
      match r with
      | None => read_err
      | Some b =>
          modify (set_lastsec sec) ;;;
          if l =? FSZ_IN_FLAG_DIRECT then ret (Some (drop (Z.to_nat offs) b), s)
          else read_sd fuel fd bs l sz offs s b
      end
  | _, _ => read_err
  end.

(** ** Directory entries *)

(** The entry at the start of [buf], which is [offs] bytes into the directory; the number of
    bytes it takes, with the header in front of the first one. *)
Definition getdirent (buf : list Z) (offs : Z) : M fs_state Z :=
  h <-- (if offs =? 0 then
           m <-- part 0 4 buf ;;
           ret (if bool_decide (m = FSZ_DIR_MAGIC) then Some SIZEOF_DIRENT else None)
         else ret (Some 0)) ;;
  match h with
  | None => ret 0
  | Some s =>
      let b := drop (Z.to_nat s) buf in
      fid <-- ent_fid b ;;
      c <-- need (zget b 17) ;;
      if (fid =? 0) || (c =? 0) then ret 0 else
      l <-- ent_length b ;;
      let n := Vfs.cstring (ent_name b) in
      modify (fun st => set_dirent (set_d_name (n ++ drop (length n) (d_name (dirent st)))
                                     (set_d_len l (set_d_ino fid (dirent st)))) st) ;;;
      ret (s + SIZEOF_DIRENT)
  end.

End Ops.

(** ** The driver *)

Definition FSZ_NAME : list Z := [102; 115; 122].
Definition drv : fsdrv_t := mk_fsdrv FSZ_NAME true true true true true true true false false false.

(** The drivers loaded: this one, and the list of devices that the FS task keeps itself.
    The blocks of an image file come from the driver of the file system it is in, [depth]
    levels deep. *)
Fixpoint drivers {E : FsEnv} (depth fuel : nat) : FsDrivers :=
  match depth with
  | O => {| drv_detect := fun _ _ _ => loop; drv_read := fun _ _ _ _ _ _ => loop; drv_writetrb := fun _ _ _ => loop;
            drv_write := fun _ _ _ _ _ => loop; drv_writetre := fun _ _ _ => loop; drv_stat := fun _ _ _ => loop;
            drv_getdirent := fun _ _ _ => loop; drv_checkfs := fun _ _ => loop; drv_locate := fun _ _ _ _ => loop;
            drv_resizefs := fun _ _ => loop |}
  | S d =>
      let D := drivers d fuel in
      {| drv_detect := fun _ fd blk => detect fuel fd blk;
         drv_read := fun _ fd ver file offs s => read_ fuel fd file ver offs s;
         drv_writetrb := fun _ _ _ => ub;
         drv_write := fun _ _ _ _ _ => ub;
         drv_writetre := fun _ _ _ => ub;
         drv_stat := fun _ fd file => stat_ fuel fd file;
         drv_getdirent := fun _ buf offs => getdirent buf offs;
         drv_checkfs := fun _ fd => checkfs fd;
         drv_locate := fun _ fd path creat => start fuel fuel fd 0 creat (mk_loc m1U 0 [] 0 0 path);
         drv_resizefs := fun _ fd => resizefs fuel fd |}
  end.

End Fsz.
