(* ===== verification/FszFacts.v ===== *)
(** The FS/Z driver: the block of a file that is read is the one its sector directories
    lead to, a path leads to the inode at its end, and where the driver goes wrong. *)
From Stdlib Require Import ZArith Lia List.
From stdpp Require Import base option list gmap.
From S2P Require Import Prelude CoreState LibcString FsState FsFacts Devfs Cache Vfs Lookup Fsz.
Import FsState.

Module FszFacts.
Import Fsz.

(** ** A disk *)

(** The states in which the blocks of the device [fd] are those of [disk]: reading one
    answers it, and neither reading nor the notes of the driver leave these states. *)
Class OnDisk {E : FsEnv} {D : FsDrivers} (fuel : nat) (fd bs : Z) (disk : Z -> option (list Z))
    (I : fs_state -> Prop) : Prop := {
  disk_read : forall lsn b (Q : option (list Z) -> fs_state -> Prop) s,
    I s -> disk lsn = Some b -> (forall s', I s' -> Q (Some b) s') -> wp (Vfs.readblock fuel fd lsn) Q s;
  disk_fcb : forall s, I s -> fd < nfcb s /\ exists f, zget (fcb s) fd = Some f /\ blksize f = bs /\ abspath f <> None;
  disk_bs : 0 < bs < 2 ^ 32;
  disk_last : forall v s, I s -> I (set_lastsec v s);
  disk_push : forall lsn pos (Q : unit -> fs_state -> Prop) s,
    I s -> (forall s', I s' -> Q tt s') -> wp (Vfs.pathpush lsn pos) Q s;
}.

(** The fields of a block. *)
Definition word (n o : Z) (b : list Z) : option Z := le_word <$> slice b o n.

Lemma wp_field n o b w (Q : Z -> fs_state -> Prop) s : word n o b = Some w -> Q w s -> wp (field n o b) Q s.
Proof.
  unfold word, field. destruct (slice b o n) as [l|]; [|done]. intros [= <-] HQ.
  apply wp_bind. eapply wp_need; [done|]. by apply wp_ret.
Qed.

Lemma wp_part o n b l (Q : list Z -> fs_state -> Prop) s : slice b o n = Some l -> Q l s -> wp (part o n b) Q s.
Proof. intros. unfold part. by eapply wp_need. Qed.

(** An inode of type [t] and its current version. *)
Record inode_at (b t : list Z) (size sec l : Z) : Prop := {
  i_magic : slice b 0 4 = Some FSZ_IN_MAGIC;
  i_type : slice b 8 4 = Some t;
  i_size : word 8 464 b = Some size;
  i_sec : word 8 448 b = Some sec;
  i_flags : exists fl, word 8 488 b = Some fl /\ FSZ_FLAG_TRANSLATION fl = l;
}.

Section Disk.
Context {E : FsEnv} {D : FsDrivers} (fuel : nat) (fd bs : Z) (disk : Z -> option (list Z)) (I : fs_state -> Prop).
Context {HD : OnDisk fuel fd bs disk I}.

(** ** Reading through sector directories *)

(** Entry [i] of a sector directory. *)
Definition sd_entry (b : list Z) (i : Z) : option Z := word 8 (16 * i) b.
(** The number of entries in a block. *)
Definition width : Z := bs / 16.

(** The reference: block [n] below [l] levels of sector directories, each entry of a level
    standing for [width] times as many blocks as one of the next level. *)
Fixpoint data_block (l : nat) (b : list Z) (n : Z) : option (list Z) :=
  match l with
  | O => Some b
  | S l' =>
      e ← sd_entry b (n / width ^ Z.of_nat l' mod width);
      if e =? 0 then None else b ← disk e; data_block l' b n
  end.

Lemma index_eq (l : nat) n :
  0 <= n < width -> n * bs / bs ^ Z.of_nat (S l) = n / width ^ Z.of_nat l mod width.
Proof.
  pose proof (disk_bs (I := I)) as Hbs. unfold width. intros Hn.
  assert (Hw : bs / 16 <= bs) by (Z.to_euclidean_division_equations; lia).
  destruct l as [|k].
  - change (Z.of_nat 1) with 1. change (Z.of_nat 0) with 0. rewrite Z.pow_1_r, Z.pow_0_r, Z.div_1_r.
    rewrite Z.div_mul, Z.mod_small by lia. done.
  - assert (Hp : forall b, 0 < b -> b ^ Z.of_nat (S k) = b * b ^ Z.of_nat k /\ 1 <= b ^ Z.of_nat k).
    { intros b Hb. split; [|pose proof (Z.pow_pos_nonneg b (Z.of_nat k)); lia].
      replace (Z.of_nat (S k)) with (1 + Z.of_nat k) by lia. by rewrite Z.pow_add_r, Z.pow_1_r by lia. }
    destruct (Hp (bs / 16)) as [E1 E2]; [lia|]. destruct (Hp bs) as [E3 E4]; [lia|].
    rewrite (Z.div_small n) by (rewrite E1; nia). rewrite Z.mod_0_l by lia. apply Z.div_small.
    replace (Z.of_nat (S (S k))) with (1 + Z.of_nat (S k)) by lia. rewrite Z.pow_add_r, Z.pow_1_r, E3 by lia. nia.
Qed.

Lemma wp_descend l n b blk (Q : bool + list Z -> fs_state -> Prop) s :
  0 <= n < width -> data_block l b n = Some blk -> I s -> (forall s', I s' -> Q (inr blk) s') ->
  wp (descend l fuel fd bs (n * bs) (bs ^ Z.of_nat l) b) Q s.
Proof.
  pose proof (disk_bs (I := I)) as Hbs. intros Hn. revert b s. induction l as [|l IH]; intros b s Hd HI HQ.
  - injection Hd as ->. apply wp_ret. by apply HQ.
  - cbn [data_block] in Hd. destruct (sd_entry b _) as [e|] eqn:He; [|done]. cbn in Hd.
    destruct (Z.eqb_spec e 0) as [|Hne]; [done|]. destruct (disk e) as [c|] eqn:Hc; [|done]. cbn in Hd.
    cbn [descend]. pose proof (Z.pow_pos_nonneg bs (Z.of_nat (S l)) ltac:(lia) ltac:(lia)).
    destruct (Z.eqb_spec (bs ^ Z.of_nat (S l)) 0); [lia|]. rewrite index_eq by done.
    apply wp_bind. eapply wp_field; [exact He|]. destruct (Z.eqb_spec e 0); [done|].
    apply wp_bind. eapply disk_read; [exact HI|exact Hc|]. intros s' HI'. wp_go.
    replace (bs ^ Z.of_nat (S l) / bs) with (bs ^ Z.of_nat l).
    + apply IH; [done|by apply disk_last|done].
    + replace (Z.of_nat (S l)) with (Z.of_nat l + 1) by lia. rewrite Z.pow_add_r, Z.pow_1_r by lia.
      symmetry. by apply Z.div_mul; lia.
Qed.

(** C30: Block [n] of a file behind [l] levels of sector directories is the one they lead to,
    with the part of the file that is in it, as long as the first directory of the lowest
    level holds it. *)
Theorem fsz_read_block file sb b c blk t size sec l n flags s :
  I s -> disk 0 = Some sb -> word 1 518 sb = Some flags ->
  file <> 0 -> disk file = Some b -> inode_at b t size sec l ->
  t <> FSZ_FILETYPE_SYMLINK -> t <> FSZ_FILETYPE_UNION ->
  0 < l < FSZ_IN_FLAG_SDINLINE -> bs ^ l < 2 ^ 64 -> sec <> 0 -> disk sec = Some c ->
  0 <= n < width -> n * bs < size < 2 ^ 63 -> data_block (Z.to_nat l) c n = Some blk ->
  wp (read_ fuel fd file 0 (n * bs) bs) (fun r s' => r = (Some blk, Z.min bs (size - n * bs)) /\ I s') s.
Proof.
  intros HI Hsb Hfl Hf Hb [Hm Ht Hz Hs (fl & Hw & Hl)] Hsym Huni Hl1 Hpow Hsec Hc Hn Hoff Hblk.
  pose proof (disk_bs (I := I)) as Hbs. change FSZ_IN_FLAG_SDINLINE with 127 in Hl1.
  unfold read_. apply wp_bind. eapply disk_read; [exact HI|exact Hsb|]. intros s1 HI1.
  apply wp_bind. eapply disk_read; [exact HI1|exact Hb|]. intros s2 HI2.
  destruct (disk_fcb s2 HI2) as (Hn2 & f & Hfc & Hfb & _). apply wp_bind, wp_gets, wp_bind.
  replace ((file =? 0) || (nfcb s2 <=? fd)) with false by lia. apply wp_bind.
  eapply wp_fcb_at; [done|]. apply wp_ret. rewrite Hfb. destruct (Z.eqb_spec bs 0); [lia|].
  apply wp_bind. eapply wp_part; [exact Hm|]. cbn [negb bool_decide]. rewrite bool_decide_true by done. cbn [negb].
  apply wp_bind, wp_modify. change (5 <? 0) with false. cbv iota.
  apply wp_bind. eapply wp_field; [exact Hz|]. apply wp_bind. eapply wp_field; [exact Hs|].
  apply wp_bind. eapply wp_field; [exact Hw|]. cbn zeta. rewrite Hl.
  assert (Hn0 : 0 <= n * bs) by nia. rewrite (u64_small (n * bs + bs)) by lia.
  destruct (Z.ltb_spec size (n * bs)); [lia|].
  set (sz := if size <? n * bs + bs then size - n * bs else bs).
  assert (Hsz : sz = Z.min bs (size - n * bs)) by (unfold sz; destruct (Z.ltb_spec size (n * bs + bs)); lia).
  replace ((size <? n * bs + bs) && (sz =? 0)) with false by lia.
  apply wp_bind. eapply wp_field; [exact Hfl|]. apply wp_bind. eapply wp_part; [exact Ht|].
  rewrite !bool_decide_false by done. change FSZ_IN_FLAG_INLINE with 255. change FSZ_IN_FLAG_SDINLINE with 127.
  destruct (Z.eqb_spec l 255); [lia|]. destruct (Z.eqb_spec l 127); [lia|]. cbn [orb]. destruct (Z.eqb_spec sec 0); [done|].
  apply wp_bind. eapply disk_read; [by apply disk_last|exact Hc|]. intros s3 HI3. apply wp_bind, wp_modify.
  change FSZ_IN_FLAG_DIRECT with 0. destruct (Z.eqb_spec l 0); [lia|].
  unfold read_sd. cbn zeta.
  assert (Ho : (if n * bs <? bs then 0 else n * bs / bs * bs) = n * bs).
  { destruct (Z.ltb_spec (n * bs) bs); [assert (n = 0) as -> by nia; lia|]. by rewrite Z.div_mul by lia. }
  rewrite Ho, (u64_small (n * bs + sz)) by lia.
  assert (Hcut : (negb (n * bs <? bs) && (size <? n * bs + sz)) = false) by lia. rewrite Hcut. cbn [andb].
  replace (if n * bs <? bs then if bs - n * bs <? sz then bs - n * bs else sz else sz) with sz
    by (destruct (Z.ltb_spec (n * bs) bs); [assert (n = 0) as -> by nia; destruct (Z.ltb_spec (bs - 0 * bs) sz); lia|done]).
  apply wp_bind. rewrite u64_small by (pose proof (Z.pow_pos_nonneg bs l); lia).
  replace l with (Z.of_nat (Z.to_nat l)) at 2 by lia.
  eapply wp_descend; [done|exact Hblk|by apply disk_last|]. intros s4 HI4. apply wp_ret.
  rewrite Z.mod_mul by lia. by rewrite Hsz.
Qed.
(** ** Following a path *)

(** The first data block of a file, whatever it was before. *)
Definition first_data (flags : Z) (b c : list Z) : Prop :=
  forall old (Q : Z + option (list Z) -> fs_state -> Prop) s,
    I s -> (forall s', I s' -> Q (inr (Some c)) s') -> wp (first_block fuel fd flags b old) Q s.

Lemma first_data_inline flags b fl :
  word 8 488 b = Some fl -> FSZ_FLAG_TRANSLATION fl = FSZ_IN_FLAG_INLINE ->
  first_data flags b (drop (Z.to_nat (inline_at flags)) b).
Proof.
  intros Hw Hl old Q s HI HQ. unfold first_block. apply wp_bind. eapply wp_field; [exact Hw|]. cbn zeta. rewrite Hl.
  cbn. apply wp_ret. by apply HQ.
Qed.

Lemma first_data_direct flags b fl sec c :
  word 8 488 b = Some fl -> FSZ_FLAG_TRANSLATION fl = FSZ_IN_FLAG_DIRECT ->
  word 8 448 b = Some sec -> sec <> 0 -> disk sec = Some c -> first_data flags b c.
Proof.
  intros Hw Hl Hs Hne Hc old Q s HI HQ. unfold first_block. apply wp_bind. eapply wp_field; [exact Hw|]. cbn zeta.
  rewrite Hl. change ((FSZ_IN_FLAG_DIRECT =? FSZ_IN_FLAG_INLINE)) with false.
  change ((FSZ_IN_FLAG_SECLIST <=? FSZ_IN_FLAG_DIRECT) && (FSZ_IN_FLAG_DIRECT <=? FSZ_IN_FLAG_SECLIST2)) with false.
  change (FSZ_IN_FLAG_DIRECT =? FSZ_IN_FLAG_DIRECT) with true. cbv iota.
  apply wp_bind. eapply wp_field; [exact Hs|]. destruct (Z.eqb_spec sec 0); [done|].
  apply wp_bind. eapply disk_read; [exact HI|exact Hc|]. intros s' HI'. apply wp_ret. by apply HQ.
Qed.

(** A member of a path in front of [rest]: with its slash, or the last one. *)
Definition clean (m : list Z) : Prop := Forall (fun c => c <> Vfs.SLASH /\ Vfs.PATHEND c = false) m.
Definition member (m rest : list Z) : Prop :=
  (exists m0, m = m0 ++ [Vfs.SLASH] /\ clean m0) \/ (m <> [] /\ clean m /\ Vfs.PATHEND (Vfs.at_ rest 0) = true).

(** The entries [xs] of a directory, 128 bytes each, in its block [c]. *)
Definition directory (c : list Z) (xs : list (list Z)) : Prop :=
  slice c 0 4 = Some FSZ_DIR_MAGIC /\ word 8 16 c = Some (zlen xs)
  /\ Forall (fun x => length x = 128%nat) xs
  /\ exists h t, length h = 128%nat /\ c = h ++ List.concat xs ++ t.

(** The first entry whose name begins with the member. *)
Definition begins (m x : list Z) : Prop := take (length m) (drop 17 x) = m.
#[export] Instance begins_dec m x : Decision (begins m x) := decide (take (length m) (drop 17 x) = m).
Definition first_entry (xs : list (list Z)) (m : list Z) (fid : Z) : Prop :=
  exists pre x post, xs = pre ++ x :: post /\ begins m x /\ word 8 0 x = Some fid
    /\ Forall (fun y => (exists c, zget y 17 = Some c /\ c <> 0) /\ ~ begins m y) pre.

(** The path [rest], walked from the inode [lsn] in [k] steps, ends at the inode [final]. *)
Inductive leads (flags : Z) : nat -> Z -> list Z -> Z -> Prop :=
| leads_end lsn rest : Vfs.PATHEND (Vfs.at_ rest 0) = true -> leads flags O lsn rest lsn
| leads_dir k lsn b size sec l c xs m rest fid final :
    lsn <> 0 -> disk lsn = Some b -> inode_at b FSZ_FILETYPE_DIR size sec l ->
    first_data flags b c -> directory c xs ->
    member m rest -> (length m <= 111)%nat -> take 2 m <> [Vfs.DOT; Vfs.DOT] -> first_entry xs m fid ->
    leads flags k fid rest final -> leads flags (S k) lsn (m ++ rest) final.

(** *** Members *)

Lemma span_clean (test : Z -> bool) m rest :
  Forall (fun c => test c = true) m -> test (Vfs.at_ rest 0) = false \/ rest = [] ->
  Vfs.span test (m ++ rest) = zlen m.
Proof.
  induction 1 as [|c m Hc Hm IH]; intros Hr; simpl.
  - destruct rest as [|c rest]; [done|]. destruct Hr as [Hr|Hr]; [|done].
    change (Vfs.at_ (c :: rest) 0) with c in Hr. simpl. by rewrite Hr.
  - rewrite Hc, zlen_cons, IH by done. done.
Qed.

Lemma at_drop p pos i : 0 <= pos -> 0 <= i -> Vfs.at_ p (pos + i) = Vfs.at_ (drop (Z.to_nat pos) p) i.
Proof.
  intros. unfold Vfs.at_. f_equal. rewrite !zget_nonneg by lia. rewrite lookup_drop. f_equal. lia.
Qed.

Lemma member_end_eq p pos m rest :
  0 <= pos -> drop (Z.to_nat pos) p = m ++ rest -> member m rest -> member_end p pos = pos + zlen m.
Proof.
  intros Hp Hd Hm. unfold member_end, Vfs.skip. rewrite Hd. set (test := fun c => _).
  assert (Hclean : forall m, clean m -> Forall (fun c => test c = true) m).
  { intros m' H. eapply Forall_impl; [exact H|]. intros c [H1 H2]. unfold test. rewrite H2. by destruct (Z.eqb_spec c Vfs.SLASH). }
  destruct Hm as [(m0 & -> & Hc)|(Hne & Hc & Hr)].
  - rewrite <- app_assoc. rewrite (span_clean test m0 ([Vfs.SLASH] ++ rest)) by (by apply Hclean || by left).
    rewrite at_drop, Hd, <- app_assoc by (try done; apply zlen_nonneg).
    unfold Vfs.at_. rewrite zget_app_r, Z.sub_diag by lia. change (default 0 (zget ([Vfs.SLASH] ++ rest) 0)) with Vfs.SLASH. rewrite Z.eqb_refl. rewrite zlen_app. change (zlen [Vfs.SLASH]) with 1. lia.
  - assert (Ht : test (Vfs.at_ rest 0) = false) by (unfold test; by rewrite Hr, andb_false_r).
    rewrite (span_clean test m _ (Hclean m Hc) (or_introl Ht)).
    rewrite at_drop, Hd by (try done; apply zlen_nonneg). unfold Vfs.at_. rewrite zget_app_r, Z.sub_diag by lia.
    fold (Vfs.at_ rest 0). destruct (Z.eqb_spec (Vfs.at_ rest 0) Vfs.SLASH) as [E'|]; [by rewrite E' in Hr|done].
Qed.

Lemma member_len m rest : member m rest -> 0 < zlen m.
Proof.
  intros [(m0 & -> & _)|(Hne & _)].
  - rewrite zlen_app. pose proof (zlen_nonneg m0). change (zlen [Vfs.SLASH]) with 1. lia.
  - destruct m; [done|]. rewrite zlen_cons. pose proof (zlen_nonneg m). lia.
Qed.

Lemma member_first m rest : member m rest -> Vfs.PATHEND (Vfs.at_ m 0) = false.
Proof.
  intros [(m0 & -> & Hc)|(Hne & Hc & _)].
  - destruct m0 as [|c m0]; [done|]. inversion Hc as [|? ? [_ H] _]; subst. done.
  - destruct m as [|c m]; [done|]. inversion Hc as [|? ? [_ H] _]; subst. done.
Qed.
Lemma at_app_l m rest i : 0 <= i < zlen m -> Vfs.at_ (m ++ rest) i = Vfs.at_ m i.
Proof. intros. unfold Vfs.at_. by rewrite zget_app_l by lia. Qed.

(** A plain member is neither the parent nor the joker. *)
Lemma no_dots p pos m rest :
  0 <= pos -> drop (Z.to_nat pos) p = m ++ rest -> take 2 m <> [Vfs.DOT; Vfs.DOT] -> 2 <= zlen m ->
  (Vfs.at_ p pos =? Vfs.DOT) && (Vfs.at_ p (pos + 1) =? Vfs.DOT) = false.
Proof.
  intros Hp Hd Hm Hl. pose proof (at_drop p pos 0) as E0. rewrite Z.add_0_r in E0.
  rewrite E0, at_drop, Hd, !at_app_l by lia.
  destruct m as [|a [|b m]]; [by unfold zlen in Hl|by unfold zlen in Hl|].
  change (Vfs.at_ (a :: b :: m) 0) with a. change (Vfs.at_ (a :: b :: m) 1) with b.
  destruct (Z.eqb_spec a Vfs.DOT) as [->|]; [|done]. destruct (Z.eqb_spec b Vfs.DOT) as [->|]; [|done]. done.
Qed.

(** *** The entries of a directory *)

Lemma slice_app_l (l k : list Z) o n d : slice l o n = Some d -> slice (l ++ k) o n = Some d.
Proof.
  unfold slice. destruct (_ && _) eqn:C; [|done]. intros [= <-]. rewrite zlen_app. pose proof (zlen_nonneg k).
  replace ((0 <=? o) && (0 <=? n) && (o + n <=? zlen l + zlen k)) with true by lia.
  unfold zlen in C. rewrite drop_app_le by lia. rewrite take_app_le by (rewrite length_drop; lia). done.
Qed.

Section Member.
Context (loc : locate_t) (m rest : list Z).
Hypothesis Hpos : 0 <= l_adv loc.
Hypothesis Hpath : drop (Z.to_nat (l_adv loc)) (l_path loc) = m ++ rest.
Hypothesis Hm : member m rest.
Hypothesis Hlen : (length m <= 111)%nat.
Hypothesis Hdots : take 2 m <> [Vfs.DOT; Vfs.DOT].

(** One entry [x] behind the one of [h]. *)
Lemma entry_step n try_ h x t i c :
  i <> 0 -> length h = 128%nat -> length x = 128%nat -> zget x 17 = Some c -> c <> 0 ->
  entries (S n) try_ (h ++ x ++ t) i (l_adv loc + zlen m) loc
  = if bool_decide (begins m x) then (fid <-- ent_fid (x ++ t) ;; ret (Enter fid))
    else entries n try_ (x ++ t) (i - 1) (l_adv loc + zlen m) loc.
Proof.
  intros Hi Hh Hx H17 Hc. cbn [entries]. destruct (Z.eqb_spec i 0); [done|].
  rewrite drop_app_length' by done. rewrite zget_app_l by (unfold zlen; lia). rewrite H17.
  replace (l_adv loc + zlen m - l_adv loc) with (zlen m) by lia.
  assert (Hj : (3 <=? zlen m) && (Vfs.at_ (l_path loc) (l_adv loc) =? Vfs.DOT) && (Vfs.at_ (l_path loc) (l_adv loc + 1) =? Vfs.DOT)
    && (Vfs.at_ (l_path loc) (l_adv loc + 2) =? Vfs.DOT) = false).
  { destruct (Z.leb_spec 3 (zlen m)); [|done]. cbn [andb]. by rewrite (no_dots _ _ m rest) by (done || lia). }
  rewrite Hj, Hpath. replace (Z.to_nat (zlen m)) with (length m) by (unfold zlen; lia). rewrite take_app_length. unfold begins.
  assert (He : take (length m) (ent_name (x ++ t)) = take (length m) (drop 17 x)).
  { unfold ent_name. rewrite drop_app_le by lia. by rewrite take_app_le by (rewrite length_drop; lia). }
  rewrite He. unfold bind at 1, need, ret at 1. destruct (Z.eqb_spec c 0); [done|]. done.
Qed.

Lemma begins_named x : length x = 128%nat -> begins m x -> exists c, zget x 17 = Some c /\ c <> 0.
Proof.
  intros Hx Hb. pose proof (member_first _ _ Hm) as Hf. pose proof (member_len _ _ Hm).
  unfold begins in Hb. destruct m as [|c m0]; [by unfold zlen in *|].
  change (Vfs.at_ (c :: m0) 0) with c in Hf. exists c. split; [|by intros ->].
  rewrite zget_nonneg by lia. change (Z.to_nat 17) with (17 + 0)%nat. rewrite <- lookup_drop.
  assert (Hc : take (length (c :: m0)) (drop 17 x) !! 0%nat = Some c) by (by rewrite Hb).
  by rewrite lookup_take_lt in Hc by (simpl; lia).
Qed.

Lemma wp_entries try_ fid (Q : scan_result -> fs_state -> Prop) s xs h t n :
  first_entry xs m fid -> Forall (fun x => length x = 128%nat) xs -> length h = 128%nat -> (length xs < n)%nat ->
  Q (Enter fid) s -> wp (entries n try_ (h ++ List.concat xs ++ t) (zlen xs) (l_adv loc + zlen m) loc) Q s.
Proof.
  intros (pre & x & post & -> & Hb & Hw & Hpre) Hall Hh Hn HQ. revert n h Hh Hn.
  induction pre as [|y pre IH]; intros n h Hh Hn; (destruct n as [|n]; [simpl in Hn; lia|]);
    inversion Hall as [|? ? Hx Hxs]; cbn [app List.concat]; rewrite <- app_assoc.
  - destruct (begins_named x Hx Hb) as (c & H17 & Hc).
    rewrite (entry_step _ _ _ _ _ _ c) by done.
    rewrite bool_decide_true by done. apply wp_bind. eapply wp_field; [|by apply wp_ret].
    unfold word in *. destruct (slice x 0 8) as [w|] eqn:Es; [|done]. by rewrite (slice_app_l _ _ _ _ w).
  - inversion Hpre as [|? ? [(c & H17 & Hc) Hnb] Hpre'].
    rewrite (entry_step _ _ _ _ _ _ c) by done.
    rewrite bool_decide_false by done. rewrite zlen_cons.
    replace (1 + zlen (pre ++ x :: post) - 1) with (zlen (pre ++ x :: post)) by lia.
    apply IH; [done|done|done|simpl in Hn; lia].
Qed.

End Member.

Lemma concat_length (xs : list (list Z)) :
  Forall (fun x => length x = 128%nat) xs -> (length xs <= length (List.concat xs))%nat.
Proof. induction 1 as [|x xs Hx _ IH]; simpl; [lia|]. rewrite length_app. lia. Qed.

(** *** The walk *)

(** At the end of the path: the inode is the answer. *)
Lemma wp_walk_end flags lsn b t size sec l n blk loc (Q : Z * locate_t -> fs_state -> Prop) s :
  I s -> lsn <> 0 -> disk lsn = Some b -> inode_at b t size sec l -> t <> FSZ_FILETYPE_SYMLINK ->
  Vfs.PATHEND (Vfs.at_ (l_path loc) (l_adv loc)) = true ->
  (forall s' loc', I s' -> l_inode loc' = lsn -> l_filesize loc' = size -> l_type loc' = type_of t ->
     l_path loc' = l_path loc -> Q (SUCCESS, loc') s') ->
  wp (walk (S n) fuel fd false flags lsn blk loc) Q s.
Proof.
  intros HI Hl Hb [Hmg Ht Hz _ _] Hsym Hend HQ. cbn [walk]. cbn zeta.
  assert (Hdots : (Vfs.at_ (l_path loc) (l_adv loc) =? Vfs.DOT) = false).
  { destruct (Z.eqb_spec (Vfs.at_ (l_path loc) (l_adv loc)) Vfs.DOT) as [E'|]; [by rewrite E' in Hend|done]. }
  rewrite Hdots, andb_false_r. cbn [andb]. destruct (Z.eqb_spec lsn 0); [done|].
  apply wp_bind. eapply disk_read; [exact HI|exact Hb|]. intros s' HI'.
  apply wp_bind. eapply wp_part; [exact Hmg|]. rewrite bool_decide_true by done. cbn [negb].
  apply wp_bind. eapply wp_part; [exact Ht|]. rewrite bool_decide_false by done. rewrite Hend.
  apply wp_bind. eapply wp_field; [exact Hz|]. apply wp_ret. by apply HQ.
Qed.

(** One directory on the way. *)
Lemma wp_walk_dir flags lsn b size sec l c xs m rest fid n blk loc (Q : Z * locate_t -> fs_state -> Prop) s :
  I s -> lsn <> 0 -> disk lsn = Some b -> inode_at b FSZ_FILETYPE_DIR size sec l ->
  first_data flags b c -> directory c xs ->
  member m rest -> (length m <= 111)%nat -> take 2 m <> [Vfs.DOT; Vfs.DOT] -> first_entry xs m fid ->
  0 <= l_adv loc -> drop (Z.to_nat (l_adv loc)) (l_path loc) = m ++ rest ->
  (forall s', I s' -> wp (walk n fuel fd false flags fid (Some c)
     (set_l_adv (l_adv loc + zlen m) (set_l_fileblk c (set_l_fileblk (default [] blk) loc)))) Q s') ->
  wp (walk (S n) fuel fd false flags lsn blk loc) Q s.
Proof.
  intros HI Hl0 Hlb [Hmg Ht _ _ _] Hfd (Hdm & Hdn & Hda & h & t' & Hh & ->) Hm Hlen Hdots Hent Hadv Hpath HQ.
  pose proof (member_len _ _ Hm) as Hml. cbn [walk]. cbn zeta.
  rewrite (member_end_eq _ _ m rest) by done. replace (l_adv loc + zlen m - l_adv loc) with (zlen m) by lia.
  assert (Hup : (2 <=? zlen m) && (Vfs.at_ (l_path loc) (l_adv loc) =? Vfs.DOT) && (Vfs.at_ (l_path loc) (l_adv loc + 1) =? Vfs.DOT)
    && negb (Vfs.at_ (l_path loc) (l_adv loc + 2) =? Vfs.DOT) = false).
  { destruct (Z.leb_spec 2 (zlen m)); [|done]. cbn [andb]. by rewrite (no_dots _ _ m rest) by done. }
  rewrite Hup. destruct (Z.eqb_spec lsn 0); [done|].
  apply wp_bind. eapply disk_read; [exact HI|exact Hlb|]. intros s1 HI1.
  apply wp_bind. eapply wp_part; [exact Hmg|]. rewrite bool_decide_true by done. cbn [negb].
  apply wp_bind. eapply wp_part; [exact Ht|]. rewrite bool_decide_false by done.
  assert (Hpe : Vfs.PATHEND (Vfs.at_ (l_path loc) (l_adv loc)) = false).
  { replace (l_adv loc) with (l_adv loc + 0) by lia. rewrite at_drop, Hpath, at_app_l by lia. by eapply member_first. }
  rewrite Hpe. rewrite bool_decide_false by done. apply wp_bind. eapply Hfd; [exact HI1|]. intros s2 HI2.
  rewrite bool_decide_false by done. rewrite bool_decide_true by done. cbn [negb].
  apply wp_bind. eapply wp_need; [done|]. apply wp_bind. eapply wp_part; [exact Hdm|].
  rewrite bool_decide_true by done. cbn [negb]. apply wp_bind. eapply wp_field; [exact Hdn|]. apply wp_bind.
  eapply (wp_entries (set_l_fileblk (default [] (Some (h ++ concat xs ++ t'))) (set_l_fileblk (default [] blk) loc)) m rest);
    try done.
  { rewrite !length_app. pose proof (concat_length xs Hda). lia. }
  apply wp_bind. eapply disk_push; [exact HI2|]. exact HQ.
Qed.

Lemma wp_walk flags k lsn rest final b t size sec l :
  leads flags k lsn rest final -> final <> 0 -> disk final = Some b -> inode_at b t size sec l ->
  t <> FSZ_FILETYPE_SYMLINK ->
  forall n blk loc s (Q : Z * locate_t -> fs_state -> Prop), (k < n)%nat -> I s ->
  0 <= l_adv loc -> drop (Z.to_nat (l_adv loc)) (l_path loc) = rest ->
  (forall s' loc', I s' -> l_inode loc' = final -> l_filesize loc' = size -> l_type loc' = type_of t ->
     l_path loc' = l_path loc -> Q (SUCCESS, loc') s') ->
  wp (walk n fuel fd false flags lsn blk loc) Q s.
Proof.
  intros Hleads Hf0 Hfb Hfi Hsym. induction Hleads as [lsn rest Hend|];
    intros n blk loc s Q Hn HI Hadv Hpath HQ; (destruct n as [|n]; [lia|]).
  - eapply wp_walk_end; try done. replace (l_adv loc) with (l_adv loc + 0) by lia. by rewrite at_drop, Hpath by lia.
  - eapply wp_walk_dir; try done. intros s' HI'. apply IHHleads; try done; [lia| |].
    + simpl. pose proof (zlen_nonneg m). lia.
    + simpl. rewrite Z2Nat.inj_add by (try apply zlen_nonneg; lia). rewrite <- drop_drop, Hpath.
      unfold zlen. rewrite Nat2Z.id. by rewrite drop_app_length.
Qed.

(** C14: A path that leads from the root to an inode, each member being taken for the first entry
    whose name begins with it, is found: with the inode, its size and its type. *)
Theorem fsz_locate_finds sb root flags k path final b t size sec l n s :
  I s -> disk 0 = Some sb -> word 8 560 sb = Some root -> word 1 518 sb = Some flags ->
  leads flags k root path final -> final <> 0 -> disk final = Some b -> inode_at b t size sec l ->
  t <> FSZ_FILETYPE_SYMLINK -> (k + 2 <= n)%nat ->
  wp (start n fuel fd 0 false (mk_loc m1U 0 [] 0 0 path))
     (fun r s' => r.1 = SUCCESS /\ l_inode r.2 = final /\ l_filesize r.2 = size /\ l_type r.2 = type_of t
                  /\ l_path r.2 = path /\ I s') s.
Proof.
  intros HI Hsb Hroot Hfl Hleads Hf0 Hfb Hfi Hsym Hn. destruct n as [|n]; [lia|]. cbn [start].
  destruct (disk_fcb s HI) as (Hnf & f & Hfc & _ & Hap). apply wp_bind, wp_gets, wp_bind.
  destruct (Z.leb_spec (nfcb s) fd); [lia|]. apply wp_bind. eapply wp_fcb_at; [done|]. apply wp_ret.
  rewrite bool_decide_false by done. apply wp_bind. eapply disk_read; [exact HI|exact Hsb|]. intros s1 HI1.
  cbn [Z.eqb]. apply wp_bind. eapply wp_field; [exact Hroot|]. apply wp_bind. eapply wp_field; [exact Hfl|].
  eapply wp_walk; try done; lia.
Qed.
End Disk.

(** ** The initial ram disk *)

(** The device [fd] is the initial ram disk with the bytes [img]. *)
Record in_ramdisk (fd bs : Z) (img : list Z) (s : fs_state) : Prop := {
  rd_fcb : fd < nfcb s /\ exists f, zget (fcb s) fd = Some f /\ has (fmode f) O_READ = true /\ ftype f = FCB_TYPE_DEVICE
    /\ blksize f = bs /\ abspath f <> None /\ filesize f = zlen img /\ 0 <= inode f < ndev s
    /\ exists d, zget (dev s) (inode f) = Some d /\ drivertask d = MEMFS_MAJOR /\ device d = MEMFS_RAMDISK;
  rd_img : ramdisk s = img;
  rd_stack : zlen (pathstack s) = Vfs.PATHSTACKSIZE /\ 0 <= pathstackidx s <= Vfs.PATHSTACKSIZE;
}.

Definition img_disk (bs : Z) (img : list Z) (lsn : Z) : option (list Z) :=
  if (0 <=? lsn) && (lsn <? m1U) && ((lsn + 1) * bs <=? zlen img) then Some (drop (Z.to_nat (lsn * bs)) img) else None.

Lemma wp_devfs_used fd bs img f (Q : unit -> fs_state -> Prop) s :
  in_ramdisk fd bs img s -> zget (fcb s) fd = Some f ->
  (forall s', in_ramdisk fd bs img s' -> zget (fcb s') fd = Some f -> Q tt s') ->
  wp (Devfs.devfs_used (inode f)) Q s.
Proof.
  intros [(Hfd & f' & Hf & Hr & Ht & Hb & Ha & Hz & Hi & d & Hd & Hd1 & Hd2) Him Hst] Hf' HQ.
  rewrite Hf in Hf'. injection Hf' as <-. unfold Devfs.devfs_used. apply wp_bind, wp_get.
  destruct (Z.leb_spec (ndev s) (inode f')); [lia|].
  assert (Hgo : forall l w d', zget l (inode f') = Some d' -> drivertask d' = MEMFS_MAJOR -> device d' = MEMFS_RAMDISK ->
    wp (modify (fun s => set_dev_recent (u64 (dev_recent s + 1)) s) ;;;
        r <-- gets dev_recent ;; dev_mod (inode f') (set_recent r)) Q (set_dev l (set_dev_recent w s))).
  { intros l w d' Hd' H1 H2. wp_go. eapply wp_dev_mod; [exact Hd'|]. apply HQ; [|done]. split; [|done|done].
    split; [done|]. exists f'. split_and!; try done; try lia. eexists.
    split; [apply zget_zset_eq; by eapply zget_Some_lt|]. by split. }
  apply wp_bind, wp_when; intros _.
  - pose proof (zget_Some_lt _ _ _ Hd). unfold put, wp at 1.
    eapply (Hgo _ _ (Devfs.age d)); [|unfold Devfs.age; by destruct (d_fid d =? m1U)..].
    rewrite zget_app_l by (unfold zlen; rewrite length_map, length_take; unfold zlen in *; lia).
    change (map Devfs.age ?l) with (Devfs.age <$> l). rewrite zget_fmap, zget_take by lia.
    destruct (Z.ltb_spec (inode f') (ndev s)); [|lia]. by rewrite Hd.
  - specialize (Hgo (dev s) (dev_recent s) d Hd Hd1 Hd2). by destruct s.
Qed.

Instance in_ramdisk_on_disk {E : FsEnv} {D : FsDrivers} fuel fd bs img :
  0 < bs < 2 ^ 31 -> zlen img < 2 ^ 63 -> OnDisk fuel fd bs (img_disk bs img) (in_ramdisk fd bs img).
Proof.
  intros Hbs Himg. split; [| | |by intros v s []|].
  - intros lsn b Q s HI Hd HQ. unfold img_disk in Hd. destruct (_ && _) eqn:Hc; [|done]. injection Hd as <-.
    pose proof (rd_fcb _ _ _ _ HI) as (Hfd & f & Hf & Hr & Ht & Hb & Ha & Hz & Hi & d & Hd & Hd1 & Hd2).
    unfold Vfs.readblock. apply wp_bind, wp_gets. replace ((nfcb s <=? fd) || (lsn =? m1U)) with false by lia.
    apply wp_bind. eapply wp_fcb_at; [done|]. rewrite Hr, Ht. cbn [negb].
    change (FCB_TYPE_DEVICE =? FCB_TYPE_REG_FILE) with false. change (FCB_TYPE_DEVICE =? FCB_TYPE_DEVICE) with true.
    cbv iota. unfold Vfs.read_device. apply wp_bind, wp_gets. destruct (Z.leb_spec (ndev s) (inode f)); [lia|].
    apply wp_bind. eapply wp_dev_at; [done|]. apply wp_bind. eapply wp_devfs_used; [exact HI|done|]. intros s' HI' Hf'.
    cbn zeta. rewrite Hb. unfold s32, sgn, wrap. rewrite (Z.mod_small bs) by lia.
    destruct (Z.ltb_spec bs (2 ^ (32 - 1))); [|change (2 ^ (32 - 1)) with (2 ^ 31) in *; lia].
    destruct (Z.ltb_spec bs 1); [lia|]. rewrite Hd1, Hd2. cbn. rewrite Hz.
    rewrite (u64_small (lsn + 1)) by (change m1U with 4294967295 in Hc; lia).
    rewrite (u64_small ((lsn + 1) * bs)), (u64_small (lsn * bs)) by nia.
    destruct (Z.ltb_spec (zlen img) ((lsn + 1) * bs)); [lia|].
    apply wp_bind, wp_gets, wp_ret. rewrite (rd_img _ _ _ _ HI'). by apply HQ.
  - intros s [(Hfd & f & Hf & _ & _ & Hb & Ha & _) _ _]. split; [done|]. by exists f.
  - lia.
  - intros lsn pos Q s HI HQ. pose proof (rd_stack _ _ _ _ HI) as [Hl Hi]. unfold Vfs.pathpush. apply wp_bind, wp_get.
    assert (Hkeep : forall st k, zlen st = Vfs.PATHSTACKSIZE -> 0 <= k <= Vfs.PATHSTACKSIZE ->
      in_ramdisk fd bs img (set_pathstackidx k (set_pathstack st s))) by (intros st k H1 H2; destruct HI; by split).
    destruct (Z.eqb_spec (pathstackidx s) Vfs.PATHSTACKSIZE).
    + apply HQ. specialize (Hkeep (drop 1 (pathstack s) ++ [(lsn, pos)]) (pathstackidx s)).
      destruct s; apply Hkeep; [|done]. simpl in *. unfold zlen in *. rewrite length_app, length_drop. simpl.
      change Vfs.PATHSTACKSIZE with 64 in *. lia.
    + destruct (zget_is_Some (pathstack s) (pathstackidx s)) as [e He]; [lia|]. apply wp_bind. eapply wp_need; [done|].
      apply HQ, Hkeep; [by rewrite zlen_zset|lia].
Qed.

(** ** A file system of ten blocks

    The root directory (block 1) has the directory "d/" (block 2), and that the file "foobar"
    (block 3) of 2500 bytes in the blocks 5 and 6 behind the sector directory 4, and the file
    "big" (block 7), whose two levels of sector directories start at block 8. *)
Definition put_at (o : Z) (d l : list Z) : list Z := default l (overlay l o d).
Definition w64 (v : Z) : list Z := LibcString.bytes_of 8 v.
Definition block (l : list (Z * list Z)) : list Z :=
  fold_left (fun b x => put_at x.1 x.2 b) l (List.repeat 0 2048).

Definition node (t : list Z) (size sec flags : Z) (l : list (Z * list Z)) : list Z :=
  block ([(0, FSZ_IN_MAGIC); (8, t); (448, w64 sec); (464, w64 size); (488, w64 flags)] ++ l).
Definition dir_header (n : Z) : list Z := put_at 16 (w64 n) (put_at 0 FSZ_DIR_MAGIC (List.repeat 0 128)).
Definition dir_entry (fid : Z) (name : list Z) : list Z := put_at 17 name (put_at 0 (w64 fid) (List.repeat 0 128)).
Definition dir_node (xs : list (list Z)) : list Z :=
  node FSZ_FILETYPE_DIR 0 0 FSZ_IN_FLAG_INLINE [(1024, dir_header (zlen xs) ++ List.concat xs)].

Definition D_ : list Z := [100; 47]. (* "d/" *)
Definition FOO : list Z := [102; 111; 111]. (* "foo" *)
Definition FOOBAR : list Z := FOO ++ [98; 97; 114].
Definition BIG : list Z := [98; 105; 103].
Definition TEXT : list Z := [116; 101; 120; 116].

Definition super : list Z :=
  block [(512, FSZ_MAGIC); (528, w64 10); (544, w64 9); (560, w64 1); (1016, FSZ_MAGIC)].
Definition root_dir : list Z := dir_node [dir_entry 2 D_].
Definition sub_dir : list Z := dir_node [dir_entry 3 FOOBAR; dir_entry 7 BIG].
Definition foobar : list Z := node TEXT 2500 4 1 [].
Definition big : list Z := node TEXT 1000000 8 2 [].
Definition sd : list Z := block [(0, w64 5); (16, w64 6)].
Definition img : list Z :=
  super ++ root_dir ++ sub_dir ++ foobar ++ sd ++ List.repeat 65 2048 ++ List.repeat 66 2048
  ++ big ++ block [(0, w64 4); (16, w64 9)] ++ block [(0, w64 6)].

Definition disk_fcb_ : fcb_t :=
  set_ftype FCB_TYPE_DEVICE (set_abspath (Some [47; 100; 101; 118; 47; 114]) (set_fmode O_RDWR
    (set_blksize 2048 (set_filesize 20480 zero_fcb)))).
Definition mounted : fs_state :=
  set_ramdisk img (set_dev [mk_dev 0 MEMFS_MAJOR MEMFS_RAMDISK 1 0 0] (set_ndev 1
    (set_fcb [disk_fcb_] (set_nfcb 1 init_fs)))).

Lemma zlen_img : zlen img = 20480.
Proof. by vm_compute. Qed.

Lemma mounted_ok : in_ramdisk 0 2048 img mounted.
Proof.
  split; [|done|done]. split; [done|]. exists disk_fcb_. split_and!; try done.
  eexists. split; [done|]. done.
Qed.

#[export] Instance mounted_disk : OnDisk (E := sample_env) (D := drivers 0 0) 9 0 2048 (img_disk 2048 img) (in_ramdisk 0 2048 img).
Proof. apply in_ramdisk_on_disk; [lia|]. rewrite zlen_img. lia. Qed.

Definition block_at (lsn : Z) : list Z := drop (Z.to_nat (lsn * 2048)) img.

Lemma disk_block lsn : 0 <= lsn < 10 -> img_disk 2048 img lsn = Some (block_at lsn).
Proof.
  intros Hl. unfold img_disk. rewrite zlen_img. change m1U with 4294967295.
  replace ((0 <=? lsn) && (lsn <? 4294967295) && ((lsn + 1) * 2048 <=? 20480)) with true by lia. done.
Qed.

Lemma sub_dir_at : inode_at (block_at 2) FSZ_FILETYPE_DIR 0 0 FSZ_IN_FLAG_INLINE.
Proof. split; try by vm_compute. eexists. by split; [vm_compute; reflexivity|]. Qed.
Lemma root_dir_at : inode_at (block_at 1) FSZ_FILETYPE_DIR 0 0 FSZ_IN_FLAG_INLINE.
Proof. split; try by vm_compute. eexists. by split; [vm_compute; reflexivity|]. Qed.
Lemma foobar_at : inode_at (block_at 3) TEXT 2500 4 1.
Proof. split; try by vm_compute. eexists. by split; [vm_compute; reflexivity|]. Qed.

Lemma directory_of lsn xs t :
  drop 1024 (block_at lsn) = dir_header (zlen xs) ++ List.concat xs ++ t ->
  slice (drop 1024 (block_at lsn)) 0 4 = Some FSZ_DIR_MAGIC -> word 8 16 (drop 1024 (block_at lsn)) = Some (zlen xs) ->
  length (dir_header (zlen xs)) = 128%nat ->
  Forall (fun x => length x = 128%nat) xs -> directory (drop (Z.to_nat (inline_at 0)) (block_at lsn)) xs.
Proof. intros. split; [done|]. split; [done|]. split; [done|]. by exists (dir_header (zlen xs)), t. Qed.

(** The path "d/" and a name lead from the root to the inode of the entry. *)
Lemma leads_to name x post pre fid :
  [dir_entry 3 FOOBAR; dir_entry 7 BIG] = pre ++ x :: post -> begins name x -> word 8 0 x = Some fid ->
  Forall (fun y => (exists c, zget y 17 = Some c /\ c <> 0) /\ ~ begins name y) pre ->
  name <> [] -> clean name -> (length name <= 111)%nat -> take 2 name <> [Vfs.DOT; Vfs.DOT] ->
  leads (E := sample_env) (D := drivers 0 0) 9 0 (img_disk 2048 img) (in_ramdisk 0 2048 img) 0 2 1 (D_ ++ name ++ []) fid.
Proof.
  intros Hx Hb Hw Hpre Hne Hcl Hlen Hdots.
  eapply leads_dir with (xs := [dir_entry 2 D_]); [done|by apply disk_block|apply root_dir_at| | | | | | |].
  - eapply first_data_inline; [by vm_compute|done].
  - eapply directory_of; try by vm_compute. by repeat constructor.
  - left. exists [100]. split; [done|]. by repeat constructor.
  - simpl. lia.
  - done.
  - exists [], (dir_entry 2 D_), []. split; [done|]. split; [by vm_compute|]. split; [by vm_compute|constructor].
  - eapply leads_dir with (xs := [dir_entry 3 FOOBAR; dir_entry 7 BIG]);
      [done|by apply disk_block|apply sub_dir_at| | | |done|done| |].
    + eapply first_data_inline; [by vm_compute|done].
    + eapply directory_of; try by vm_compute. by repeat constructor.
    + right. by split_and!.
    + by exists pre, x, post.
    + by apply leads_end.
Qed.

(** The whole name, and, for the first entry, only the start of it. *)
Lemma fsz_locate_finds_witness :
  leads (E := sample_env) (D := drivers 0 0) 9 0 (img_disk 2048 img) (in_ramdisk 0 2048 img) 0 2 1 (D_ ++ FOO ++ []) 3
  /\ wp (start (E := sample_env) (D := drivers 0 0) 4 9 0 0 false (mk_loc m1U 0 [] 0 0 (D_ ++ FOOBAR ++ [])))
     (fun r s' => r.1 = SUCCESS /\ l_inode r.2 = 3 /\ l_filesize r.2 = 2500 /\ l_type r.2 = type_of TEXT
                  /\ l_path r.2 = D_ ++ FOOBAR ++ [] /\ in_ramdisk 0 2048 img s') mounted.
Proof.
  split.
  - apply (leads_to FOO (dir_entry 3 FOOBAR) [dir_entry 7 BIG] []); try done; try by vm_compute; by repeat constructor.
  - apply (fsz_locate_finds 9 0 2048 (img_disk 2048 img) (in_ramdisk 0 2048 img) (block_at 0) 1 0 2 (D_ ++ FOOBAR ++ []) 3
             (block_at 3) TEXT 2500 4 1 4 mounted).
    + apply mounted_ok.
    + by apply disk_block.
    + by vm_compute.
    + by vm_compute.
    + apply (leads_to FOOBAR (dir_entry 3 FOOBAR) [dir_entry 7 BIG] []); try done; try by vm_compute; by repeat constructor.
    + done.
    + by apply disk_block.
    + apply foobar_at.
    + done.
    + lia.
Defined.

Lemma fsz_read_block_witness :
  wp (read_ (E := sample_env) (D := drivers 0 0) 9 0 3 0 (1 * 2048) 2048)
     (fun r s' => r = (Some (block_at 6), Z.min 2048 (2500 - 1 * 2048)) /\ in_ramdisk 0 2048 img s') mounted.
Proof.
  apply (fsz_read_block 9 0 2048 (img_disk 2048 img) (in_ramdisk 0 2048 img) 3 (block_at 0) (block_at 3) (block_at 4)
           (block_at 6) TEXT 2500 4 1 1 0 mounted).
  - apply mounted_ok.
  - by apply disk_block.
  - by vm_compute.
  - done.
  - by apply disk_block.
  - apply foobar_at.
  - done.
  - done.
  - done.
  - done.
  - done.
  - by apply disk_block.
  - by unfold width.
  - done.
  - by vm_compute.
Defined.

(** ** What goes wrong *)

(** Behind the first lower sector directory of a file with two levels the wrong words are
    read: the reference finds block 6, the driver an error. *)
Theorem second_directory_misread :
  data_block 2048 (img_disk 2048 img) 2 (block_at 8) 128 = Some (block_at 6)
  /\ wp (read_ (E := sample_env) (D := drivers 0 0) 9 0 7 0 (128 * 2048) 2048) (fun r _ => r = (None, 0)) mounted.
Proof. split; by vm_compute. Qed.

(** A file whose sector directory is in its inode is answered the inode itself. *)
Definition inlined : list Z := node TEXT 2500 3 FSZ_IN_FLAG_SDINLINE [(1024, w64 5); (1040, w64 6)].
Definition with_block (lsn : Z) (b : list Z) (s : fs_state) : fs_state := set_ramdisk (put_at (lsn * 2048) b (ramdisk s)) s.
Theorem inline_directory_reads_inode :
  wp (read_ (E := sample_env) (D := drivers 0 0) 9 0 3 0 0 2048)
     (fun r s' => exists b, r = (Some b, 2048) /\ slice b 0 4 = Some FSZ_IN_MAGIC) (with_block 3 inlined mounted).
Proof. vm_compute. eexists. by split. Qed.

(** A block taken from the list of free ones: the list goes to the place of the block that
    was read last, here the second data block of the file just read. *)
Definition free_list : list Z := node TEXT 4096 0 0 [(1024, w64 5); (1040, w64 2)].
Definition with_free : fs_state := with_block 9 free_list (with_block 0 (put_at 576 (w64 9) super) mounted).
Theorem allocation_overwrites_file :
  wp (read_ (E := sample_env) (D := drivers 0 0) 9 0 3 0 2048 2048 ;;; allocateblock (E := sample_env) (D := drivers 0 0) 9 0)
     (fun i s' => i = 5 /\ slice (ramdisk s') (6 * 2048) 4 = Some FSZ_IN_MAGIC) with_free.
Proof. vm_compute. by split. Qed.

(** Without a free block a new file is answered as not found: the lack of space, 64 bits of
    ones, is tested for in 32 bits. *)
Theorem full_disk_not_reported :
  wp (start (E := sample_env) (D := drivers 0 0) 4 9 0 0 true (mk_loc m1U 0 [] 0 0 (D_ ++ [120])))
     (fun r _ => r.1 = Lookup.NOTFOUND) (with_block 0 (put_at 544 (w64 10) super) mounted).
Proof. by vm_compute. Qed.
End FszFacts.
