(* ===== verification/Server.v ===== *)
(** The service loop of the FS task, src/fs/main.c: how every request is dispatched, and
    what is answered. *)
From Stdlib Require Import ZArith Lia List.
From stdpp Require Import base option list gmap.
From S2P Require Import Prelude CoreState LibcString Stdio FsState Fcb Pipe Devfs Cache Vfs Mounts Taskctx Lookup.
Import FsState.

Module Server.

(** ** Functions of the requests: include/osZ/bits/fs.h *)
Definition SYS_nomem : Z := 1.
Definition SYS_setblock : Z := 2.
Definition SYS_ackblock : Z := 3.
Definition SYS_mountfs : Z := 6.
Definition SYS_mount : Z := 7.
Definition SYS_umount : Z := 8.
Definition SYS_fsck : Z := 9.
Definition SYS_mknod : Z := 10.
Definition SYS_ioctl : Z := 11.
Definition SYS_lstat : Z := 12.
Definition SYS_dstat : Z := 13.
Definition SYS_fstat : Z := 14.
Definition SYS_fopen : Z := 15.
Definition SYS_fseek : Z := 16.
Definition SYS_ftell : Z := 17.
Definition SYS_fwrite : Z := 19.
Definition SYS_fflush : Z := 20.
Definition SYS_feof : Z := 21.
Definition SYS_ferror : Z := 22.
Definition SYS_fclrerr : Z := 23.
Definition SYS_fclose : Z := 24.
Definition SYS_fcloseall : Z := 25.
Definition SYS_tmpfile : Z := 26.
Definition SYS_dup : Z := 27.
Definition SYS_dup2 : Z := 28.
Definition SYS_realpath : Z := 33.
Definition SYS_chroot : Z := 37.
Definition SYS_chdir : Z := 38.
Definition SYS_getcwd : Z := 39.
Definition SYS_opendir : Z := 42.
Definition SYS_readdir : Z := 43.
Definition SYS_rewind : Z := 44.
Definition SYS_readlink : Z := 45.
Definition SYS_mkfifo : Z := 46.
Definition SYS_pipe : Z := 47.
Definition SYS_getty : Z := 50.
Definition SYS_evtty : Z := 51.
Definition EVT_exit : Z := 0x3FFE.
Definition SYS_flush : Z := 0x0c.
Definition DRV_ioctl : Z := 5.
Definition OF_MODE_EOF : Z := 65536.
Definition STDIN_FILENO : Z := 1.
Definition STDOUT_FILENO : Z := 2.
Definition STDERR_FILENO : Z := 3.
(** "/tmp/" *)
Definition P_tmpdir : list Z := [47; 116; 109; 112; 47].
Definition MSG_ISPTR (evt : Z) : bool := has evt MSG_PTRDATA.

(** The variable [ptr] of the loop: a string to answer with, or one that is freed. *)
Inductive pointer : Type :=
| Null
| Str (l : list Z)
| Dangling.

(** How a case ends: with [continue], or with [break], [ret] and [ptr]. *)
Inductive answer : Type :=
| NoAnswer
| Answer (r : Z) (p : pointer).

(** ** Arguments *)

(** The string [o] bytes behind the pointer of a message; its terminator must be in the
    buffer.  A scalar message whose first argument is not zero has no buffer there. *)
Definition string_at (m : msg_t) (o : Z) : M fs_state (list Z) :=
  let l := drop (Z.to_nat o) (m_buf m) in
  if (o <=? zlen (m_buf m)) && existsb (Z.eqb 0) l then ret (Vfs.cstring l) else ub.
Definition path (m : msg_t) : M fs_state (option (list Z)) :=
  if m_arg0 m =? 0 then ret None else p <-- string_at m 0 ;; ret (Some p).

Definition no_buffer (m : msg_t) : bool := (m_arg0 m =? 0) || (m_arg1 m =? 0).

(** [seterr(e); ret = -1UL; break;] and the like *)
Definition fails (e r : Z) : M fs_state answer := seterr e ;;; ret (Answer r Null).
Definition done_ (r : Z) : M fs_state answer := ret (Answer r Null).
Definition minus1 (ok : bool) : Z := if ok then 0 else m1UL.

(** [ret != -1UL && !errno()] behind a lookup, which answers [-1U] when it fails. *)
Definition good (f : Z) : M fs_state bool := e <-- gets errn ;; ret (negb (f =? m1UL) && (e =? 0)).

(** [!memcmp(a, root, strlen(root))] *)
Definition below (a root : option (list Z)) : bool :=
  match root, a with
  | None, _ | Some [], _ => true
  | Some r, Some a => bool_decide (take (length r) a = r)
  | Some _, None => false
  end.

Section Ops.
Context {E : FsEnv} {D : FsDrivers}.
(** Bounds on the nesting of paths through unions and mounts, and on the loops. *)
Context (depth fuel : nat).

Notation lookup p c := (Lookup.lookup depth fuel 0 p c).

(** The context of the request. *)
Definition me : M fs_state Z := gets ctx.
Definition my_pid : M fs_state Z := c <-- me ;; t <-- ctx_at c ;; ret (t_pid t).
Definition valid (idx : Z) : M fs_state bool := c <-- me ;; Taskctx.taskctx_validfid c idx.
(** [ctx->openfiles[idx-1]] *)
Definition my_file (idx : Z) : M fs_state openfile_t := c <-- me ;; Taskctx.of_at c (idx - 1).
Definition forget : M fs_state unit := c <-- me ;; ctx_mod c (set_msg_evt 0).

(** ** Devices *)

(** [strncpy] reads at most 64 bytes of the name. *)
Definition node_name (m : msg_t) : M fs_state (list Z) :=
  if 64 <=? zlen (m_buf m) then ret (Vfs.cstring (m_buf m)) else string_at m 0.

Definition mknod (m : msg_t) : M fs_state answer :=
  if no_buffer m then fails EINVAL m1UL else
  pid <-- my_pid ;;
  name <-- node_name m ;;
  Devfs.devfs_add fuel name pid (m_arg2 m) (u32 (m_arg3 m)) (u32 (m_arg4 m)) (m_arg5 m) ;;;
  done_ 0.

Definition ioctl (m : msg_t) : M fs_state answer :=
  v <-- valid (m_arg2 m) ;;
  bad <-- (if negb v then ret true else
             o <-- my_file (m_arg2 m) ;; f <-- fcb_at (of_fid o) ;; ret (negb (ftype f =? FCB_TYPE_DEVICE))) ;;
  if (bad : bool) then fails EBADF m1UL else
  o <-- my_file (m_arg2 m) ;;
  f <-- fcb_at (of_fid o) ;;
  d <-- dev_at (inode f) ;;
  pid <-- my_pid ;;
  (if negb (no_buffer m) then
     let e := Z.lor DRV_ioctl MSG_PTRDATA in
     send (drivertask d) e (EvSendBuf (drivertask d) e (m_buf m) [m_arg1 m; device d; m_arg3 m; pid])
   else mq_send (drivertask d) DRV_ioctl [m_arg0 m; m_arg1 m; device d; m_arg3 m; pid]) ;;;
  forget ;;; ret NoAnswer.

(** ** File systems *)

Definition mount (m : msg_t) : M fs_state answer :=
  if no_buffer m then fails EINVAL m1UL else
  dev <-- string_at m 0 ;;
  file <-- string_at m (zlen dev + 1) ;;
  r <-- Mtab.mtab_add depth fuel (Some dev) (Some file) ;;
  done_ (minus1 (negb (r =? m1U16))).

Definition umount (m : msg_t) : M fs_state answer :=
  if no_buffer m then fails EINVAL m1UL else
  p <-- string_at m 0 ;;
  ok <-- Mtab.mtab_del (Some p) (Some p) ;;
  Fcb.fcb_free fuel ;;; done_ (minus1 ok).

Definition fsck (m : msg_t) : M fs_state answer :=
  p <-- path m ;;
  f <-- lookup p false ;;
  d <-- gets fsck_dev ;;
  if negb (d =? m1UL) && negb (d =? f) then fails EBUSY m1UL else
  g <-- good f ;;
  ok <-- (if (g : bool) then Fsck.dofsck fuel f (negb (u8 (m_arg2 m) =? 0)) else ret false) ;;
  if (ok : bool) then done_ 0 else fails ENODEV m1UL.

(** ** Directories of the task *)

Definition is_dir (f : fcb_t) : bool := ftype f =? FCB_TYPE_REG_DIR.
Definition is_union (f : fcb_t) : bool := ftype f =? FCB_TYPE_UNION.

Definition chroot (m : msg_t) : M fs_state answer :=
  p <-- path m ;;
  f <-- lookup p false ;;
  g <-- good f ;;
  if negb g then done_ f else
  x <-- fcb_at f ;;
  if negb (is_dir x) then fails ENOTDIR m1UL else
  c <-- me ;;
  t <-- ctx_at c ;;
  Fcb.fcb_del fuel (rootdir t) ;;;
  fcb_mod f (fun x => set_nopen (nopen x + 1) x) ;;;
  ctx_mod c (set_rootdir f) ;;;
  w <-- fcb_at (workdir t) ;;
  r <-- fcb_at f ;;
  when (negb (below (abspath w) (abspath r)))
   (Fcb.fcb_del fuel (workdir t) ;;;
    fcb_mod f (fun x => set_nopen (nopen x + 1) x) ;;;
    ctx_mod c (set_workdir f)) ;;;
  done_ 0.

Definition chdir (m : msg_t) : M fs_state answer :=
  p <-- path m ;;
  f <-- lookup p false ;;
  g <-- good f ;;
  if negb g then done_ f else
  x <-- fcb_at f ;;
  if negb (is_dir x) && negb (is_union x) then fails ENOTDIR m1UL else
  c <-- me ;;
  t <-- ctx_at c ;;
  Fcb.fcb_del fuel (workdir t) ;;;
  x <-- fcb_at f ;;
  r <-- fcb_at (rootdir t) ;;
  let f := if below (abspath x) (abspath r) then f else rootdir t in
  fcb_mod f (fun x => set_nopen (nopen x + 1) x) ;;;
  ctx_mod c (set_workdir f) ;;;
  done_ 0.

(** The answer's value is the length of the root's path. *)
Definition getcwd (m : msg_t) : M fs_state answer :=
  c <-- me ;;
  t <-- ctx_at c ;;
  w <-- fcb_at (workdir t) ;;
  r <-- fcb_at (rootdir t) ;;
  let n := zlen (default [] (abspath r)) in
  if below (abspath w) (abspath r) then
    if n =? 0 then ub else ret (Answer n (Str (drop (Z.to_nat (n - 1)) (default [] (abspath w)))))
  else ret (Answer n (Str [Vfs.SLASH])).

(** ** Directory entries *)

(** A directory by its path, or the union an open directory was a member of; [inl] for an
    error. *)
Definition opendir_which (m : msg_t) : M fs_state (answer + Z) :=
  if m_arg2 m =? m1UL then p <-- path m ;; f <-- lookup p false ;; ret (inr f) else
  v <-- valid (m_arg2 m) ;;
  if negb v then a <-- fails EBADF m1UL ;; ret (inl a) else
  o <-- my_file (m_arg2 m) ;;
  bad <-- (if negb (has (of_mode o) O_READ) then ret true else
             x <-- fcb_at (of_fid o) ;; ret (negb (has (fmode x) O_READ))) ;;
  if (bad : bool) then a <-- fails EACCES m1UL ;; ret (inl a) else
  c <-- me ;;
  Taskctx.of_mod c (m_arg2 m - 1) (set_of_unionidx 0) ;;; ret (inr (of_unionidx o)).

(** The directory itself is opened. *)
Definition opendir_self (m : msg_t) (f : Z) : M fs_state answer :=
  c <-- me ;;
  when (negb (m_arg2 m =? m1UL)) (Taskctx.taskctx_close fuel c (m_arg2 m) true ;;; ret tt) ;;;
  i <-- Taskctx.taskctx_open c f O_RDONLY 0 (m_arg2 m) ;;
  when (negb (i =? 0)) (Taskctx.of_mod c (i - 1) (fun o => set_of_mode (Z.lor (of_mode o) OF_MODE_READDIR) o)) ;;;
  done_ i.

(** A union: a member that is to be read first is opened, and its size answered. *)
Definition opendir_union (m : msg_t) (f : Z) : M fs_state answer :=
  j <-- Union.fcb_unionlist_build depth fuel f
          (if m_arg2 m =? m1UL then None else if m_arg0 m =? 0 then None else Some (m_buf m)) (m_arg1 m) ;;
  a <-- gets ackdelayed ;;
  if (a : bool) then done_ f else
  if j =? m1UL then opendir_self m f else
  c <-- me ;;
  i <-- Taskctx.taskctx_open c j O_RDONLY 0 (m_arg2 m) ;;
  if i =? 0 then done_ i else
  Taskctx.of_mod c (i - 1) (set_of_unionidx (u32 f)) ;;;
  ok <-- Vfs.statfs j ;;
  s <-- get ;;
  if negb ok || (st_size (st s) =? 0) then
    Taskctx.taskctx_close fuel c i true ;;; opendir_self m i
  else
    mq_send (EVT_SENDER (m_evt m)) EVT_ack [i; SUCCESS; EVT_FUNC (m_evt m); m_serial m; st_size (st s)] ;;;
    forget ;;; ret NoAnswer.

Definition opendir (m : msg_t) : M fs_state answer :=
  r <-- opendir_which m ;;
  match r with
  | inl a => ret a
  | inr f =>
      g <-- good f ;;
      if negb g then done_ f else
      x <-- fcb_at f ;;
      d <-- gets devfsidx ;;
      if negb (ffs x =? d) && negb (is_dir x) && negb (is_union x) then fails ENOTDIR m1UL
      else if is_union x then opendir_union m f else opendir_self m f
  end.

(** The bytes of a directory entry. *)
Definition dirent_bytes (d : dirent_t) : list Z :=
  LibcString.bytes_of 8 (d_dev d) ++ LibcString.bytes_of 8 (d_ino d) ++ d_icon d ++ LibcString.bytes_of 8 (d_filesize d) ++
  LibcString.bytes_of 4 (d_type d) ++ LibcString.bytes_of 4 (d_len d) ++ d_name d ++ [0].

(** The entry is copied to the task; it is also what [ptr] points to at the end. *)
Definition readdir (m : msg_t) : M fs_state answer :=
  v <-- valid (m_arg2 m) ;;
  bad <-- (if negb v then ret true else
             o <-- my_file (m_arg2 m) ;; f <-- fcb_at (of_fid o) ;; ret (negb (is_dir f) && negb (is_union f))) ;;
  if (bad : bool) then fails EBADF 0 else
  c <-- me ;;
  ok <-- Readdir.taskctx_readdir depth fuel c (m_arg2 m) (m_buf m) ;;
  e <-- gets errn ;;
  d <-- gets dirent ;;
  when (ok && (e =? 0)) (tskcpy (EvDirent (EVT_SENDER (m_evt m)) (m_arg3 m) d)) ;;;
  ret (Answer 0 (if (ok : bool) then Str (Vfs.cstring (dirent_bytes d)) else Null)).

(** ** Status *)

Definition readlink (m : msg_t) : M fs_state answer :=
  p <-- path m ;;
  f <-- lookup p false ;;
  g <-- good f ;;
  if negb g then done_ 0 else
  l <-- Fcb.fcb_readlink f ;;
  match l with
  | None => fails EINVAL 0
  | Some l =>
      x <-- fcb_at f ;;
      d <-- need (slice l 0 (filesize x)) ;;
      let e := Z.lor EVT_ack MSG_PTRDATA in
      send (EVT_SENDER (m_evt m)) e
        (EvSendBuf (EVT_SENDER (m_evt m)) e d [filesize x; EVT_FUNC (m_evt m); m_serial m]) ;;;
      forget ;;; ret NoAnswer
  end.

Definition realpath (m : msg_t) : M fs_state answer :=
  p <-- path m ;;
  f <-- lookup p false ;;
  g <-- good f ;;
  if negb g then done_ 0 else
  x <-- fcb_at f ;; ret (Answer 0 (match abspath x with Some a => Str a | None => Null end)).

(** [statok]: the status [st] is copied if there is one. *)
Definition statok (m : msg_t) (ok : bool) : M fs_state answer :=
  (if ok then s <-- get ;; tskcpy (EvStat (EVT_SENDER (m_evt m)) (m_arg2 m) (st s)) else seterr ENOENT) ;;;
  done_ 0.
(** [dopstat]: the pipe [i] in the mode [j]; the window of a terminal is in its offset. *)
Definition dopstat (m : msg_t) (i j : Z) : M fs_state answer :=
  ok <-- Pipe.pipe_stat i j ;;
  when (has j OF_MODE_TTY)
   (o <-- my_file (m_arg0 m) ;;
    if (ok : bool) then modify (fun s => set_st (set_st_ino (of_offs o) (st s)) s) else ub) ;;;
  statok m ok.
(** [dostat]: the file [f]. *)
Definition dostat (m : msg_t) (f : Z) : M fs_state answer :=
  g <-- good f ;;
  if negb g then done_ 0 else
  x <-- fcb_at f ;;
  if ftype x =? FCB_TYPE_PIPE then dopstat m (storage x) (Z.lor O_RDWR O_APPEND)
  else ok <-- Vfs.statfs f ;; statok m ok.

Definition dstat (m : msg_t) : M fs_state answer :=
  n <-- gets nfcb ;;
  isdev <-- (if m_arg0 m <? n then x <-- fcb_at (m_arg0 m) ;; ret (ftype x =? FCB_TYPE_DEVICE) else ret false) ;;
  if (isdev : bool) then dostat m (m_arg0 m) else fails EINVAL 0.

(** "appl", "pipe" *)
Definition tty_stat (window : Z) : stat_t :=
  set_st_mime ([112; 105; 112; 101] ++ List.repeat 0 40) (set_st_type [97; 112; 112; 108]
   (set_st_mode (Z.lor (Z.lor O_WRONLY O_APPEND) S_IFTTY) (set_st_ino window (set_st_dev m1UL zero_stat)))).

Definition fstat (m : msg_t) : M fs_state answer :=
  v <-- valid (m_arg0 m) ;;
  if negb v then fails EBADF 0 else
  o <-- my_file (m_arg0 m) ;;
  if has (of_mode o) O_FIFO then dopstat m (of_fid o) (of_mode o)
  else if has (of_mode o) OF_MODE_TTY then modify (set_st (tty_stat (of_fid o))) ;;; statok m true
  else dostat m (of_fid o).

Definition lstat (m : msg_t) : M fs_state answer :=
  p <-- path m ;; f <-- lookup p false ;; dostat m f.

(** ** Pipes and terminals *)

(** The first used file control block: what [fcb_add] answers for a null pointer, since
    [strcmp] finds no difference. *)
Fixpoint first_used (l : list fcb_t) (i : Z) : option Z :=
  match l with
  | [] => None
  | f :: l' => if abspath f then Some i else first_used l' (i + 1)
  end.

Definition mkfifo (m : msg_t) : M fs_state answer :=
  p <-- path m ;;
  f <-- match p with
        | Some [] => ub (* [strcmp] reads behind an empty string *)
        | Some p => Fcb.fcb_add p FCB_TYPE_PIPE
        | None => s <-- get ;; need (first_used (take (Z.to_nat (nfcb s)) (fcb s)) 0)
        end ;;
  when (negb (f =? m1UL))
   (i <-- Pipe.pipe_add f (EVT_SENDER (m_evt m)) ;; fcb_mod f (set_storage i)) ;;;
  done_ f.

(** The answer has both ends. *)
Definition pipe_ (m : msg_t) : M fs_state answer :=
  i <-- Pipe.pipe_add m1UL (EVT_SENDER (m_evt m)) ;;
  c <-- me ;;
  j <-- Taskctx.taskctx_open c i (Z.lor O_RDONLY O_FIFO) 0 0 ;;
  k <-- Taskctx.taskctx_open c i (Z.lor (Z.lor O_WRONLY O_APPEND) O_FIFO) 0 0 ;;
  e <-- gets errn ;;
  mq_send (EVT_SENDER (m_evt m)) EVT_ack
    (if (e =? 0) && negb (j =? 0) && negb (k =? 0) then [j; k; EVT_FUNC (m_evt m); m_serial m]
     else [m1UL; e; EVT_FUNC (m_evt m); m_serial m]) ;;;
  forget ;;; ret NoAnswer.

(** The standard streams of task [arg0] are connected to the window [arg1]. *)
Definition getty (m : msg_t) : M fs_state answer :=
  tc <-- Taskctx.taskctx_get fuel (m_arg0 m) ;;
  (if tc =? 0 then ret tt else
   let w := m_arg1 m in
   let out := Z.lor (Z.lor O_WRONLY O_APPEND) OF_MODE_TTY in
   Taskctx.taskctx_close fuel tc STDIN_FILENO false ;;;
   Taskctx.taskctx_close fuel tc STDOUT_FILENO false ;;;
   Taskctx.taskctx_close fuel tc STDERR_FILENO false ;;;
   p <-- Pipe.pipe_add m1UL (m_arg0 m) ;;
   g <-- good p ;;
   if negb g then ret tt else
   j <-- Taskctx.taskctx_open tc p (Z.lor (Z.lor O_RDONLY O_FIFO) OF_MODE_TTY) 0 STDIN_FILENO ;;
   when (negb (j =? 0)) (Taskctx.of_mod tc (j - 1) (set_of_offs w)) ;;;
   Taskctx.taskctx_open tc w out 0 STDOUT_FILENO ;;;
   Taskctx.taskctx_open tc w out 0 STDERR_FILENO ;;; ret tt) ;;;
  done_ 0.

(** The arguments of a message as the bytes they are in memory. *)
Definition arg_bytes (m : msg_t) : list Z :=
  concat (map (LibcString.bytes_of 8) [m_arg0 m; m_arg1 m; m_arg2 m; m_arg3 m; m_arg4 m; m_arg5 m; m_serial m]).

(** Keys for the standard input of task [arg2]; the entry behind it is written to. *)
Definition evtty (m : msg_t) : M fs_state answer :=
  tc <-- Taskctx.taskctx_get fuel (m_arg2 m) ;;
  v <-- Taskctx.taskctx_validfid tc STDIN_FILENO ;;
  if negb v then fails EBADF 0 else
  if negb (existsb (Z.eqb 0) (arg_bytes m)) then ub else
  let d := Vfs.cstring (arg_bytes m) in
  if zlen d =? 0 then done_ 0 else
  o <-- Taskctx.of_at tc STDIN_FILENO ;;
  ok <-- Pipe.pipe_write fuel (of_fid o) d ;;
  done_ (if (ok : bool) then zlen d else 0).

(** ** Files *)

Definition tmpfile (m : msg_t) : M fs_state answer :=
  ok <-- alloc_ok ;;
  if negb ok then done_ m1UL else
  pid <-- my_pid ;;
  s <-- get ;;
  f <-- lookup (Some (P_tmpdir ++ Stdio.sprintf_hex pid 0 ++ Stdio.sprintf_hex (rand (events s)) 0)) true ;;
  g <-- good f ;;
  c <-- me ;;
  r <-- (if (g : bool) then Taskctx.taskctx_open c f (Z.lor O_RDWR O_TMPFILE) 0 m1UL else ret f) ;;
  ret (Answer r Dangling).

(** Where a file is opened: at the offset in the path, counted from the end if it is
    negative, or at the end. *)
Definition open_offs (p : option (list Z)) (mode size : Z) : M fs_state Z :=
  o <-- need (Vfs.getoffs p) ;;
  ret (if has mode O_APPEND then size else if s64 o <? 0 then u64 (o + size) else o).

Definition fopen (m : msg_t) : M fs_state answer :=
  p <-- path m ;;
  f <-- lookup p (has (m_arg2 m) O_CREAT) ;;
  g <-- good f ;;
  r <-- (if negb g then ret f else
         x <-- fcb_at f ;;
         if is_dir x || is_union x then seterr EISDIR ;;; ret 0 else
         c <-- me ;;
         when (negb (m_arg3 m =? m1UL)) (Taskctx.taskctx_close fuel c (m_arg3 m) true ;;; ret tt) ;;;
         x <-- fcb_at f ;;
         o <-- open_offs p (m_arg2 m) (filesize x) ;;
         Taskctx.taskctx_open c f (u32 (m_arg2 m)) o (m_arg3 m)) ;;
  done_ (if r =? m1UL then 0 else r).

Definition fclose (m : msg_t) : M fs_state answer :=
  v <-- valid (m_arg0 m) ;;
  if negb v then fails EBADF m1UL else
  c <-- me ;; ok <-- Taskctx.taskctx_close fuel c (m_arg0 m) false ;; done_ (minus1 ok).

(** All files of context [c]; the count is read again every round. *)
Definition close_all (c : Z) : M fs_state unit :=
  iter fuel (fun j => t <-- ctx_at c ;;
    if j <? nopenfiles t then Taskctx.taskctx_close fuel c (j + 1) false ;;; ret (inl (j + 1)) else ret (inr tt)) 0.

Definition fcloseall (m : msg_t) : M fs_state answer :=
  c <-- me ;; close_all c ;;; Cache.cache_flush fuel ;;; Fcb.fcb_free fuel ;;; done_ 0.

Definition fseek (m : msg_t) : M fs_state answer :=
  c <-- me ;;
  ok <-- Taskctx.taskctx_seek c (m_arg0 m) (m_arg1 m) (u8 (m_arg2 m)) ;;
  e <-- gets errn ;;
  when (negb ok && (e =? 0)) (seterr EINVAL) ;;; done_ (minus1 ok).

Definition rewind (m : msg_t) : M fs_state answer :=
  v <-- valid (m_arg0 m) ;;
  if negb v then fails EBADF m1UL else
  c <-- me ;; Taskctx.of_mod c (m_arg0 m - 1) (fun o => set_of_unionidx 0 (set_of_offs 0 o)) ;;; done_ 0.

Definition ftell (m : msg_t) : M fs_state answer :=
  v <-- valid (m_arg0 m) ;;
  if negb v then fails EBADF 0 else o <-- my_file (m_arg0 m) ;; done_ (of_offs o).

Definition feof (m : msg_t) : M fs_state answer :=
  v <-- valid (m_arg0 m) ;;
  if negb v then fails EBADF m1UL else
  o <-- my_file (m_arg0 m) ;;
  if has (of_mode o) O_FIFO then done_ 0 else
  f <-- fcb_at (of_fid o) ;;
  done_ (Z.b2z (match abspath f with None => true | Some _ => false end || has (of_mode o) OF_MODE_EOF ||
                (filesize f <=? of_offs o))).

(** The last open file is taken for none: the test is [nopenfiles <= arg0]. *)
Definition ferror (m : msg_t) : M fs_state answer :=
  c <-- me ;;
  bad <-- (if (m_arg0 m =? 0) || (c =? 0) then ret true else
             t <-- ctx_at c ;;
             ret (match openfiles t with None => true | Some _ => nopenfiles t <=? m_arg0 m end)) ;;
  if (bad : bool) then fails EBADF m1UL else
  o <-- my_file (m_arg0 m) ;;
  s <-- get ;;
  if (of_fid o =? m1UL) || has (of_mode o) OF_MODE_EOF || (has (of_mode o) O_FIFO && (npipe s <=? of_fid o)) then done_ 1 else
  b <-- Taskctx.no_file c (of_fid o) ;; done_ (Z.b2z b).

Definition fclrerr (m : msg_t) : M fs_state answer :=
  v <-- valid (m_arg0 m) ;;
  if negb v then fails EBADF m1UL else
  c <-- me ;; Taskctx.of_mod c (m_arg0 m - 1) (fun o => set_of_mode (Z.land (of_mode o) 0xffff) o) ;;; done_ 0.

Definition dup_at (from idx : Z) : M fs_state answer :=
  o <-- my_file from ;;
  c <-- me ;;
  r <-- Taskctx.taskctx_open c (of_fid o) (of_mode o) (of_offs o) idx ;; done_ r.

Definition dup (m : msg_t) : M fs_state answer :=
  v <-- valid (m_arg0 m) ;;
  if negb v then fails EBADF m1UL else dup_at (m_arg0 m) m1UL.

Definition dup2 (m : msg_t) : M fs_state answer :=
  v <-- valid (m_arg0 m) ;;
  if negb v then fails EBADF m1UL else
  c <-- me ;;
  t <-- ctx_at c ;;
  used <-- (if m_arg1 m <=? nopenfiles t then o <-- my_file (m_arg1 m) ;; ret (negb (of_fid o =? m1UL)) else ret false) ;;
  when used (Taskctx.taskctx_close fuel c (m_arg1 m) true ;;; ret tt) ;;;
  dup_at (m_arg0 m) (m_arg1 m).

(** ** Reading and writing *)

Definition fread (m : msg_t) : M fs_state answer :=
  if MSG_ISPTR (m_evt m) then fails EINVAL 0 else
  if (BUFFSIZE <=? m_arg1 m) && (0 <? s64 (m_arg0 m)) then fails ENOTSHM 0 else
  if no_buffer m then when (0 <? m_arg1 m) (seterr EINVAL) ;;; done_ 0 else
  c <-- me ;; r <-- Taskctx.taskctx_read fuel c (m_arg2 m) (m_arg0 m) (m_arg1 m) ;; done_ r.

(** The file of a pipe is looked up as if its number were that of a file. *)
Definition fwrite (m : msg_t) : M fs_state answer :=
  v <-- valid (m_arg2 m) ;;
  bad <-- (if negb v then ret true else
             o <-- my_file (m_arg2 m) ;;
             if has (of_mode o) OF_MODE_TTY then ret false else
             f <-- fcb_at (of_fid o) ;; ret (is_dir f || is_union f)) ;;
  if (bad : bool) then fails EBADF 0 else
  if no_buffer m then when (0 <? m_arg1 m) (seterr EINVAL) ;;; done_ 0 else
  d <-- need (slice (m_buf m) 0 (m_arg1 m)) ;;
  c <-- me ;; r <-- Taskctx.taskctx_write fuel c (m_arg2 m) d ;; done_ r.

Definition fflush (m : msg_t) : M fs_state answer :=
  v <-- valid (m_arg0 m) ;;
  if negb v then fails EBADF m1UL else
  o <-- my_file (m_arg0 m) ;;
  if negb (has (of_mode o) O_WRITE) then fails EACCES m1UL else
  if has (of_mode o) OF_MODE_TTY then mq_send SRV_UI SYS_flush [of_fid o] ;;; done_ 0 else
  ok <-- Fcb.fcb_flush (of_fid o) ;; done_ (minus1 ok).

(** ** Messages that need no context of the sender *)

(** The table of file systems is mounted, and the services are told, once. *)
Definition mountfs : M fs_state unit :=
  r <-- gets rootmounted ;;
  when (negb r)
   (t <-- gets fstab ;;
    Fstab.mtab_fstab depth fuel t ;;;
    mq_send SRV_UI EVT_ack [] ;;; mq_send SRV_syslog EVT_ack [] ;;; mq_send SRV_inet EVT_ack [] ;;;
    mq_send SRV_sound EVT_ack [] ;;; mq_send SRV_print EVT_ack [] ;;; mq_send SRV_init EVT_ack []).

(** The cache is written out, to be freed when that is done. *)
Definition low_memory : M fs_state unit :=
  Fcb.fcb_free fuel ;;; Cache.cache_flush fuel ;;; modify (set_nomem true).

Definition ackblock (m : msg_t) : M fs_state unit :=
  n <-- gets ndev ;;
  if n <=? m_arg0 m then ret tt else
  d <-- dev_at (m_arg0 m) ;;
  f <-- fcb_at (d_fid d) ;;
  if blksize f <=? 1 then ret tt else
  ok <-- Cache.cache_cleardirty fuel (m_arg0 m) (m_arg1 m) ;;
  nm <-- gets nomem ;;
  when (ok && nm) (Cache.cache_free fuel ;;; modify (set_nomem false)).

(** A block has arrived: the message of the task that waits for it, if there is one. *)
Definition setblock (m : msg_t) : M fs_state (option msg_t) :=
  Cache.cache_setblock fuel (m_arg3 m) (m_arg4 m) (m_buf m) Cache.BLKPRIO_NOTDIRTY ;;;
  h <-- gets taskctx ;;
  p <-- need (zget h (Z.land (m_arg5 m) 0xFF)) ;;
  c <-- Pipe.ctx_find fuel (m_arg5 m) p ;;
  modify (set_ctx c) ;;;
  if c =? 0 then ret None else
  t <-- ctx_at c ;;
  ret (if EVT_FUNC (msg_evt t) =? 0 then None else Some (t_msg t)).

Fixpoint unplug (n : nat) (j pid : Z) : M fs_state unit :=
  match n with
  | O => ret tt
  | S n' =>
      k <-- gets ndev ;;
      if j <? k then
        d <-- dev_at j ;;
        when (drivertask d =? pid) (Unplug.devfs_del fuel j) ;;;
        unplug n' (j + 1) pid
      else ret tt
  end.

(** A task has ended: its files are closed and its devices go. *)
Definition exited (m : msg_t) : M fs_state unit :=
  c <-- Taskctx.taskctx_get fuel (m_arg0 m) ;;
  modify (set_ctx c) ;;;
  if c =? 0 then ret tt else
  close_all c ;;;
  t <-- ctx_at c ;;
  n <-- gets ndev ;;
  unplug (Z.to_nat n) 0 (t_pid t) ;;;
  Fcb.fcb_free fuel.

(** The first part: the message to go on with, if any. *)
Definition context (m : msg_t) : M fs_state (option msg_t) :=
  let f := EVT_FUNC (m_evt m) in
  if f =? SYS_mountfs then mountfs ;;; ret None
  else if f =? SYS_nomem then low_memory ;;; ret None
  else if f =? SYS_ackblock then ackblock m ;;; ret None
  else if f =? SYS_setblock then setblock m
  else if f =? EVT_exit then exited m ;;; ret None
  else
    c <-- Taskctx.taskctx_get fuel (EVT_SENDER (m_evt m)) ;;
    modify (set_ctx c) ;;;
    when (negb (c =? 0)) (ctx_mod c (set_workleft m1UL)) ;;;
    ret (Some m).

(** ** The request and its answer *)

Definition handlers : list (Z * (msg_t -> M fs_state answer)) :=
  [(SYS_mknod, mknod); (SYS_ioctl, ioctl); (SYS_mount, mount); (SYS_umount, umount); (SYS_fsck, fsck);
   (SYS_chroot, chroot); (SYS_chdir, chdir); (SYS_getcwd, getcwd); (SYS_opendir, opendir); (SYS_readdir, readdir);
   (SYS_readlink, readlink); (SYS_realpath, realpath); (SYS_dstat, dstat); (SYS_fstat, fstat); (SYS_lstat, lstat);
   (SYS_mkfifo, mkfifo); (SYS_pipe, pipe_); (SYS_getty, getty); (SYS_evtty, evtty); (SYS_tmpfile, tmpfile);
   (SYS_fopen, fopen); (SYS_fclose, fclose); (SYS_fcloseall, fcloseall); (SYS_fseek, fseek); (SYS_rewind, rewind);
   (SYS_ftell, ftell); (SYS_feof, feof); (SYS_ferror, ferror); (SYS_fclrerr, fclrerr); (SYS_dup, dup);
   (SYS_dup2, dup2); (SYS_fread, fread); (SYS_fwrite, fwrite); (SYS_fflush, fflush)].

Definition request (m : msg_t) : M fs_state answer :=
  match List.find (fun h => EVT_FUNC (m_evt m) =? fst h) handlers with
  | Some h => snd h m
  | None => fails EPERM m1UL
  end.

(** Memory running low is seen to before the answer. *)
Definition watch : M fs_state unit :=
  s <-- get ;;
  let (free, total) := meminfo s in
  if total =? 0 then ub else
  when ((u64 (free * 100) / total <? cachelimit s) || (errn s =? ENOMEM)) low_memory.

Definition answer_with (m : msg_t) (r : Z) (p : pointer) : M fs_state unit :=
  e <-- gets errn ;;
  let dst := EVT_SENDER (m_evt m) in
  let scalar := mq_send dst EVT_ack [r; e; EVT_FUNC (m_evt m); m_serial m] in
  (if r =? 0 then
     match p with
     | Null => scalar
     | Str l => send dst (Z.lor EVT_ack MSG_PTRDATA)
                  (EvSendBuf dst (Z.lor EVT_ack MSG_PTRDATA) (l ++ [0]) [zlen l + 1; EVT_FUNC (m_evt m); m_serial m])
     | Dangling => ub
     end
   else scalar) ;;;
  forget.

(** The answer, or the message put aside until the block it needs arrives. *)
Definition finish (m : msg_t) (r : Z) (p : pointer) : M fs_state unit :=
  watch ;;;
  d <-- gets ackdelayed ;;
  if (d : bool) then c <-- me ;; ctx_mod c (set_t_msg m) else answer_with m r p.

Definition serve (m : msg_t) : M fs_state unit :=
  seterr SUCCESS ;;;
  modify (fun s => set_ackdelayed (nomem s) s) ;;;
  r <-- context m ;;
  match r with
  | None => ret tt
  | Some m =>
      a <-- request m ;;
      match a with
      | NoAnswer => ret tt
      | Answer r p => finish m r p
      end
  end.

(** The whole task: the start, then one message after the other.  [numsec] and [logsec]
    are the size of the ram disk, [lines] the configured lines of the cache. *)
Fixpoint serve_all (ms : list msg_t) : M fs_state unit :=
  match ms with [] => ret tt | m :: ms' => serve m ;;; serve_all ms' end.
Definition main (numsec logsec limit lines : Z) (ms : list msg_t) : M fs_state unit :=
  Mtab.mtab_init ;;;
  Unplug.devfs_init fuel numsec logsec ;;;
  Cache.cache_init limit lines ;;;
  modify (set_nomem false) ;;;
  serve_all ms.

End Ops.
End Server.
