(* ===== verification/ServerFacts.v ===== *)
(** The service loop of the FS task: what is answered to whom, and which requests do not
    get an answer. *)
From Stdlib Require Import ZArith Lia List.
From stdpp Require Import base option list gmap.
From S2P Require Import Prelude CoreState FsState FsFacts Fcb FcbFacts Pipe PipeFacts Devfs Cache Vfs Mounts Taskctx TaskctxFacts Lookup Server.
Import FsState.
Import Server.

Module ServerFacts.

Lemma wp_eq {S A} (m : M S A) (Q : A -> S -> Prop) s a s' : m s = Ret a s' -> Q a s' -> wp m Q s.
Proof. unfold wp. by intros ->. Qed.

Section Ops.
Context {E : FsEnv} {D : FsDrivers} (depth fuel : nat).

(** ** Answers *)

(** What is sent for a value and a string. *)
Definition reply (m : msg_t) (r : Z) (p : pointer) (e : Z) : fs_event :=
  let dst := EVT_SENDER (m_evt m) in
  match (if r =? 0 then p else Null) with
  | Str l => EvSendBuf dst (Z.lor EVT_ack MSG_PTRDATA) (l ++ [0]) [zlen l + 1; EVT_FUNC (m_evt m); m_serial m]
  | _ => EvSend dst EVT_ack [r; e; EVT_FUNC (m_evt m); m_serial m]
  end.

(** The memory is not low, so that the answer is not preceded by a flush. *)
Definition memory_left (s : fs_state) : Prop :=
  snd (meminfo s) <> 0 /\ cachelimit s <= u64 (fst (meminfo s) * 100) / snd (meminfo s) /\ errn s <> ENOMEM.

Lemma watch_ok s : memory_left s -> watch fuel s = Ret tt s.
Proof.
  intros (Ht & Hl & He). unfold watch, bind, get. destruct (meminfo s) as [free total]. simpl in *.
  destruct (Z.eqb_spec total 0); [done|].
  destruct (Z.ltb_spec (u64 (free * 100) / total) (cachelimit s)); [lia|].
  destruct (Z.eqb_spec (errn s) ENOMEM); done.
Qed.

Definition answerable (r : Z) (p : pointer) : Prop := r <> 0 \/ p <> Dangling.

Lemma wp_forget t s (Q : unit -> fs_state -> Prop) :
  ctxs s !! ctx s = Some t -> Q tt (put_ctx (ctx s) (set_msg_evt 0 t) s) -> wp forget Q s.
Proof. intros Ht HQ. unfold forget, me. apply wp_bind, wp_gets. by eapply wp_ctx_mod. Qed.

Lemma wp_answer_with m r p t s (Q : unit -> fs_state -> Prop) :
  answerable r p -> ctxs s !! ctx s = Some t ->
  (forall e, Q tt (put_ctx (ctx s) (set_msg_evt 0 t) (sending (reply m r p (errn s)) e s))) -> wp (answer_with m r p) Q s.
Proof.
  intros Hp Ht HQ. unfold answer_with. fs_go. revert HQ. unfold reply.
  destruct (Z.eqb_spec r 0) as [->|Hr].
  - destruct p as [|l|]; [| |by destruct Hp]; intros HQ.
    + fs_go. eapply wp_forget; [exact Ht|apply HQ].
    + apply wp_send. intros e. eapply wp_forget; [exact Ht|apply HQ].
  - intros HQ. fs_go. eapply wp_forget; [exact Ht|apply HQ].
Qed.

(** A case that ends with a value and a string, when memory is left, is answered exactly
    once, to the sender: with the value, the error code of the moment, the function and the
    serial number, or with the string, the function and the serial number; when a block is
    awaited nothing is sent, and the message is put aside in the context of its task. *)
Theorem finish_answers_once m r p t s :
  answerable r p -> ctxs s !! ctx s = Some t -> memory_left s ->
  wp (finish fuel m r p) (fun _ s' =>
    if ackdelayed s then events s' = events s /\ ctxs s' !! ctx s = Some (set_t_msg m t)
    else events s' = events s ++ [reply m r p (errn s)] /\ ctxs s' !! ctx s = Some (set_msg_evt 0 t)) s.
Proof.
  intros Hp Ht Hm. unfold finish. apply wp_bind. eapply wp_eq; [by apply watch_ok|]. fs_go.
  destruct (ackdelayed s).
  - unfold me. fs_go. split; [done|]. apply put_ctx_get.
  - eapply wp_answer_with; [done|exact Ht|]. intros e. split; [done|]. apply put_ctx_get.
Qed.

(** ** The request of a task *)

Definition special (f : Z) : bool :=
  (f =? SYS_mountfs) || (f =? SYS_nomem) || (f =? SYS_ackblock) || (f =? SYS_setblock) || (f =? EVT_exit).

(** The state a handler starts in. *)
Definition started (s : fs_state) : fs_state := set_ackdelayed (nomem s) (set_errn SUCCESS s).
Definition entered (c : Z) (t : taskctx_t) (s : fs_state) : fs_state :=
  put_ctx c (set_workleft m1UL t) (set_ctx c (started s)).

Lemma wp_serve m l c t s (Q : unit -> fs_state -> Prop) :
  special (EVT_FUNC (m_evt m)) = false -> chain (EVT_SENDER (m_evt m)) l s -> (length l < fuel)%nat ->
  EVT_SENDER (m_evt m) <> 0 -> List.find (is_pid (EVT_SENDER (m_evt m))) l = Some (c, t) ->
  wp (request depth fuel m) (fun a s' => match a with
                                         | NoAnswer => Q tt s'
                                         | Answer r p => wp (finish fuel m r p) Q s'
                                         end) (entered c t s) ->
  wp (serve depth fuel m) Q s.
Proof.
  unfold special. rewrite !orb_false_iff. intros ((((H1&H2)&H3)&H4)&H5) (h&Hh&Hl) Hf Hne Hfind HQ.
  unfold serve. fs_go. unfold context. rewrite H1, H2, H3, H4, H5. fs_go.
  eapply wp_mono; [apply (wp_get_found fuel _ l c t (started s)); [by exists h|done..]|].
  intros r s' [-> ->].
  pose proof (List.find_some _ _ Hfind) as [Hin _]. apply list_elem_of_In in Hin.
  destruct (linked_nonzero _ _ _ _ _ Hl Hin) as [Hc Ht]. destruct (Z.eqb_spec c 0); [done|]. fs_go; [|done].
  eapply wp_mono; [exact HQ|]. intros [|r p] s'; [by apply wp_ret|done].
Qed.

(** A function the FS task does not know is refused with EPERM, and nothing else is
    sent. *)
Theorem unknown_request_refused m l c t s :
  special (EVT_FUNC (m_evt m)) = false ->
  (forall h, In h (handlers depth fuel) -> EVT_FUNC (m_evt m) <> fst h) ->
  chain (EVT_SENDER (m_evt m)) l s -> (length l < fuel)%nat -> EVT_SENDER (m_evt m) <> 0 ->
  List.find (is_pid (EVT_SENDER (m_evt m))) l = Some (c, t) -> nomem s = false ->
  memory_left (set_errn EPERM (entered c t s)) ->
  wp (serve depth fuel m) (fun _ s' =>
    events s' = events s ++ [EvSend (EVT_SENDER (m_evt m)) EVT_ack [m1UL; EPERM; EVT_FUNC (m_evt m); m_serial m]]) s.
Proof.
  intros Hs Hno Hch Hf Hne Hfind Hn Hmem. apply (wp_serve m l c t); try done. clear Hch Hfind. unfold request.
  destruct (List.find _ _) as [h|] eqn:Hh.
  { apply List.find_some in Hh as [Hin Heq]. apply Z.eqb_eq in Heq. by destruct (Hno h). }
  unfold fails. fs_go. unfold finish. fs_go. eapply wp_eq; [by apply watch_ok|]. fs_go.
  cbn. rewrite Hn. eapply wp_answer_with; [by left|apply put_ctx_get|]. done.
Qed.

(** ** Paths that have to wait *)

#[local] Notation lookup p c := (Lookup.lookup depth fuel 0 p c) (only parsing).

(** The number of no file, in 32 bits, with no error: what a lookup answers while it waits
    for a block. *)
Definition waits (p : option (list Z)) (creat : bool) (s s' : fs_state) : Prop :=
  lookup p creat s = Ret m1U s' /\ errn s' = SUCCESS /\ zlen (fcb s') <= m1U.

Lemma no_such_fcb s : zlen (fcb s) <= m1U -> fcb_at m1U s = UB.
Proof.
  intros H. unfold fcb_at, bind, get, need. destruct (zget (fcb s) m1U) eqn:Hg; [|done].
  apply zget_Some_lt in Hg. lia.
Qed.

Lemma wait_is_good p creat s s' {A} (k : Z -> bool -> M fs_state A) :
  waits p creat s s' -> (f <-- lookup p creat ;; g <-- good f ;; k f g) s = k m1U true s'.
Proof.
  intros (Hl & He & _). rewrite (run_bind _ _ _ _ _ Hl). unfold good, bind, gets, ret. by rewrite He.
Qed.

(** while a block of the path is awaited, the lookup answers the number of no file in
    32 bits; the cases test for it in 64 bits, take it for a file and read its control
    block, which is far outside the array: a change of the directory or of the root, a
    status and a real path. *)
Theorem delayed_lookup_crashes m p s s' :
  path m s = Ret p s -> waits p false s s' ->
  chdir depth fuel m s = UB /\ chroot depth fuel m s = UB /\ lstat depth fuel m s = UB /\ realpath depth fuel m s = UB.
Proof.
  intros Hp Hw. pose proof Hw as (Hl & He & Hz). apply no_such_fcb in Hz.
  assert (Hg : good m1U s' = Ret true s') by (unfold good, bind, gets, ret; by rewrite He).
  unfold chdir, chroot, lstat, dostat, realpath.
  split_and!; rewrite (run_bind _ _ _ _ _ Hp), (run_bind _ _ _ _ _ Hl), (run_bind _ _ _ _ _ Hg); cbn [negb];
    unfold bind; by rewrite Hz.
Qed.

(** The lookup itself: when the driver asks for a block, nothing else happens to the error
    code. *)
Lemma lookup_waits path_ raw fd fs l s s1 s2 status loc :
  Vfs.canonize_buf (Some path_) s = Ret (Some raw) s -> path_ <> [] ->
  Fcb.fcb_get (Some (Vfs.cstring raw)) s = Ret m1U s -> Lookup.storage_of fuel raw s = Ret (Some (fd, fs, l)) s1 ->
  drv_locate fs fd (drop (Z.to_nat l) raw) false (set_pathstackidx 0 s1) = Ret (status, loc) s2 ->
  zlen (take (Z.to_nat l) raw ++ l_path loc) <= pathmax s2 ->
  ackdelayed s2 = true -> errn s2 = SUCCESS -> zlen (fcb s2) <= m1U -> depth <> O ->
  waits (Some path_) false s s2.
Proof.
  intros Hc Hp Hg Hs Hd Hm Ha He Hz Hdep. unfold waits. destruct depth as [|dep]; [done|]. split; [|done].
  simpl. destruct path_ as [|c0 path_]; [done|]. rewrite (run_bind _ _ _ _ _ Hc). cbn zeta. cbn [andb].
  rewrite (run_bind _ _ _ _ _ Hg). rewrite Z.eqb_refl. unfold bind at 1, ret at 1.
  rewrite (run_bind _ _ _ _ _ Hs). unfold bind at 1, modify at 1. rewrite (run_bind _ _ _ _ _ Hd).
  unfold bind, gets, ret. destruct (Z.ltb_spec (pathmax s2) (zlen (take (Z.to_nat l) raw ++ l_path loc))); [lia|]. by rewrite Ha.
Qed.

(** ** Pipes and directories *)

(** A pipe whose number is also that of a directory cannot be written to: the file
    control block looked at is the one with the pipe's number. *)
Theorem pipe_like_directory_refused m t o f s :
  ctx s <> 0 -> ctxs s !! ctx s = Some t -> ctx_ok t -> open_file t (m_arg2 m - 1) = Some o ->
  Taskctx.taskctx_validfid (ctx s) (m_arg2 m) s = Ret true s ->
  has (of_mode o) O_FIFO = true -> has (of_mode o) OF_MODE_TTY = false ->
  zget (fcb s) (of_fid o) = Some f -> ftype f = FCB_TYPE_REG_DIR ->
  fwrite fuel m s = Ret (Answer 0 Null) (set_errn EBADF s).
Proof.
  intros Hc Ht Hok Ho Hv Hfifo Htty Hf Hd.
  assert (Hw : wp (fwrite fuel m) (fun a s' => a = Answer 0 Null /\ s' = set_errn EBADF s) s).
  { unfold fwrite. apply wp_bind. unfold valid, me. apply wp_bind, wp_gets. eapply wp_eq; [exact Hv|]. cbn [negb].
    apply wp_bind, wp_bind. unfold my_file, me. apply wp_bind, wp_gets. eapply wp_of_at; [done|done|].
    rewrite Htty. apply wp_bind. eapply wp_fcb_at; [exact Hf|]. apply wp_ret. unfold is_dir. rewrite Hd, Z.eqb_refl.
    cbn [orb]. unfold fails. by fs_go. }
  apply wp_run in Hw as (a&s'&Hr&->&->). exact Hr.
Qed.

(** ** The working directory *)

(** The request for the working directory is answered with a number, the length of the
    root directory's path, for every task: the path itself is never sent. *)
Theorem getcwd_sends_no_path m t w r s :
  ctx s <> 0 -> ctxs s !! ctx s = Some t -> zget (fcb s) (workdir t) = Some w -> zget (fcb s) (rootdir t) = Some r ->
  abspath r <> None -> abspath r <> Some [] -> ackdelayed s = false -> memory_left s ->
  wp (a <-- getcwd m ;; match a with NoAnswer => ret tt | Answer v p => finish fuel m v p end)
     (fun _ s' => events s' = events s ++ [EvSend (EVT_SENDER (m_evt m)) EVT_ack
                    [zlen (default [] (abspath r)); errn s; EVT_FUNC (m_evt m); m_serial m]]) s.
Proof.
  intros Hc Ht Hw Hr Hn0 Hn1 Ha Hm. destruct (abspath r) as [root|] eqn:Hroot; [|done]. simpl.
  assert (Hl : zlen root <> 0) by (unfold zlen; destruct root; [done|simpl; lia]).
  unfold getcwd, me. fs_go. rewrite Hroot. change (default [] (Some root)) with root.
  assert (Hfin : forall p, wp (finish fuel m (zlen root) p)
    (fun _ s' => events s' = events s ++ [EvSend (EVT_SENDER (m_evt m)) EVT_ack [zlen root; errn s; EVT_FUNC (m_evt m); m_serial m]]) s).
  { intros p. unfold finish. apply wp_bind. eapply wp_eq; [by apply watch_ok|]. fs_go. rewrite Ha.
    eapply wp_answer_with; [by left|exact Ht|]. intros e. unfold reply. destruct (Z.eqb_spec (zlen root) 0); done. }
  destruct (below (abspath w) (Some root)).
  - destruct (Z.eqb_spec (zlen root) 0); [done|]. fs_go. apply Hfin.
  - fs_go. apply Hfin.
Qed.

End Ops.
(** ** Instances

    The root directory, a device with a file system on it, a file, and a task with one open
    file and one end of a pipe. *)

(** A driver that asks for a block. *)
Definition asks : FsDrivers :=
  {| drv_detect := fun _ _ _ => ret false; drv_read := fun _ _ _ _ _ _ => ret (None, 0); drv_writetrb := fun _ _ _ => ret tt;
     drv_write := fun _ _ _ _ _ => ret false; drv_writetre := fun _ _ _ => ret tt; drv_stat := fun _ _ _ => ret false;
     drv_getdirent := fun _ _ _ => ret 0; drv_checkfs := fun _ _ => ret false;
     drv_locate := fun _ _ _ _ => modify (set_ackdelayed true) ;;; ret (Lookup.NOBLOCK, mk_loc 0 0 [] 0 0 []);
     drv_resizefs := fun _ _ => ret tt |}.

Definition device_fcb : fcb_t := set_ftype FCB_TYPE_DEVICE (set_abspath (Some [47; 100; 101; 118; 47; 97]) zero_fcb).
Definition two_open : taskctx_t :=
  set_nfiles 2 (set_nopenfiles 2 (set_openfiles (Some [mk_of 2 O_READ 40 0; mk_of 0 (Z.lor O_WRITE O_FIFO) 0 0])
    (set_t_pid 7 zero_ctx))).
Definition sample : fs_state :=
  set_pipe [set_p_nopen 1 zero_pipe] (set_npipe 1
   (set_fsck_dev m1UL (set_pathmax 512 (set_fsdrv [mk_fsdrv [120] true true false false true true true false false false]
     (set_nfsdrv 1 (set_mtab [mk_mtab 0 1 0] (set_nmtab 1 (set_ctx 8
      (set_fresh 9 (set_taskctx (zset (List.repeat 0 256) 7 8) (set_ctxs {[ 8 := two_open ]}
       (set_nfcb 3 (set_fcb [root_fcb; device_fcb; file_fcb] init_fs))))))))))))).

(** A request of task 7. *)
Definition ask (f a0 a1 a2 : Z) (buf : list Z) : msg_t := mk_msg (Z.lor (EVT_DEST 7) f) a0 a1 a2 0 0 0 33 buf.

Lemma finish_answers_once_witness :
  wp (finish 9 (ask SYS_ftell 1 0 0 []) 40 Null) (fun _ s' =>
    if ackdelayed sample then events s' = events sample /\ ctxs s' !! 8 = Some (set_t_msg (ask SYS_ftell 1 0 0 []) two_open)
    else events s' = events sample ++ [reply (ask SYS_ftell 1 0 0 []) 40 Null (errn sample)] /\
         ctxs s' !! 8 = Some (set_msg_evt 0 two_open)) sample.
Proof.
  apply (finish_answers_once 9 (ask SYS_ftell 1 0 0 []) 40 Null two_open sample); [by left|done|].
  split; [done|]. split; [|done]. by vm_compute.
Defined.

Lemma unknown_request_refused_witness :
  wp (serve (D := asks) 3 9 (ask 60 0 0 0 [])) (fun _ s' =>
    events s' = events sample ++ [EvSend (EVT_SENDER (m_evt (ask 60 0 0 0 []))) EVT_ack
                                    [m1UL; EPERM; EVT_FUNC (m_evt (ask 60 0 0 0 [])); 33]]) sample.
Proof.
  apply (unknown_request_refused (D := asks) 3 9 (ask 60 0 0 0 []) [(8, two_open)] 8 two_open sample); try done.
  - intros h Hin. simpl in Hin. repeat destruct Hin as [<-|Hin]; try done.
  - exists 8. split; [by vm_compute|]. by repeat split.
  - simpl. lia.
Defined.

(** The file "/x", whose directory's block is not there. *)
Definition go_there : msg_t := ask SYS_chdir 1 3 0 [47; 120; 0].
Definition waiting : fs_state :=
  match Lookup.lookup (D := asks) 3 9 0 (Some [47; 120]) false sample with Ret _ s => s | _ => sample end.

Lemma delayed_lookup_crashes_witness :
  chdir (D := asks) 3 9 go_there sample = UB /\ chroot (D := asks) 3 9 go_there sample = UB /\
  lstat (D := asks) 3 9 go_there sample = UB /\ realpath (D := asks) 3 9 go_there sample = UB.
Proof.
  apply (delayed_lookup_crashes (D := asks) 3 9 go_there (Some [47; 120]) sample waiting); [by vm_compute|].
  split; [by vm_compute|]. split; [by vm_compute|]. by vm_compute.
Defined.

Lemma pipe_like_directory_refused_witness :
  fwrite 9 (ask SYS_fwrite 1 3 2 [1; 2; 3]) sample = Ret (Answer 0 Null) (set_errn EBADF sample).
Proof.
  apply (pipe_like_directory_refused 9 (ask SYS_fwrite 1 3 2 [1; 2; 3]) two_open (mk_of 0 (Z.lor O_WRITE O_FIFO) 0 0) root_fcb sample);
    try done; by vm_compute.
Defined.

Lemma getcwd_sends_no_path_witness :
  wp (a <-- getcwd (ask SYS_getcwd 0 0 0 []) ;;
      match a with NoAnswer => ret tt | Answer v p => finish 9 (ask SYS_getcwd 0 0 0 []) v p end)
     (fun _ s' => events s' = events sample ++ [EvSend 7 EVT_ack [1; errn sample; SYS_getcwd; 33]]) sample.
Proof.
  apply (getcwd_sends_no_path 9 (ask SYS_getcwd 0 0 0 []) two_open root_fcb root_fcb sample); try done.
Defined.

End ServerFacts.
