(* ===== verification/Answers.v ===== *)
(** From the FS task to its client: an answer as it is sent by the service loop, delivered
    by the core, and waited for. *)
From Stdlib Require Import ZArith Lia List.
From stdpp Require Import base option list gmap.
From S2P Require Import Prelude CoreState Pmm Sched SchedFacts Security CoreLib Msg MsgFacts FsState FsFacts Server ServerFacts.
Import FsState Mq MsgFacts.

Module Answers.

(** A message of the FS task as the call of the core it makes: the task, the event and six
    arguments. *)
Definition call (ev : fs_event) : option (Z * Z * (Z * Z * Z * Z)) :=
  match ev with
  | EvSend p f [a; b; c; d] => Some (p, Z.lor (EVT_DEST p) f, (a, b, c, d))
  | _ => None
  end.

Lemma dest_low t : Z.land (EVT_DEST t) 0x7FFF = 0.
Proof.
  unfold EVT_DEST, u64, wrap. change 0x7FFF with (Z.ones 15). rewrite Z.land_ones, Z.shiftl_mul_pow2 by lia.
  replace (2 ^ 64) with (2 ^ 15 * 2 ^ 49) by lia. rewrite Z.rem_mul_r by lia.
  replace (t * 2 ^ 16) with (t * 2 * 2 ^ 15) by lia. rewrite Z.mod_mul by lia.
  rewrite Z.add_0_l, Z.mul_comm, Z.mod_mul by lia. done.
Qed.

Lemma land_sub t m : Z.land 0x7FFF m = m -> Z.land (EVT_DEST t) m = 0.
Proof. intros <-. by rewrite Z.land_assoc, dest_low. Qed.

Lemma ack_func t : EVT_FUNC (Z.lor (EVT_DEST t) EVT_ack) = EVT_ack.
Proof. unfold EVT_FUNC. rewrite Z.land_lor_distr_l, land_sub by done. done. Qed.
Lemma ack_no_buffer t : MSG_ISPTR (Z.lor (EVT_DEST t) EVT_ack) = false.
Proof. unfold MSG_ISPTR, has. rewrite Z.land_lor_distr_l, land_sub by done. done. Qed.
Lemma letter_func fs a b c d e f t n k :
  EVT_FUNC (evt (letter fs a b c d e f (Z.lor (EVT_DEST t) EVT_ack) n k)) = EVT_ack /\
  MSG_ISRESP (evt (letter fs a b c d e f (Z.lor (EVT_DEST t) EVT_ack) n k)) = false.
Proof.
  simpl. rewrite Z.land_lor_distr_l, dest_low. change (Z.lor 0 (Z.land EVT_ack 32767)) with EVT_ack. split; [apply ack_func|].
  unfold MSG_ISRESP, has. rewrite Z.land_lor_distr_l.
  assert (Z.land (EVT_DEST fs) MSG_RESPONSED = 0) as ->; [|done].
  unfold EVT_DEST, u64, wrap, MSG_RESPONSED. rewrite Z.shiftl_mul_pow2 by lia.
  change 0x8000 with (2 ^ 15). apply Z.bits_inj'. intros i Hi. rewrite Z.land_spec, Z.bits_0, Z.pow2_bits_eqb by lia.
  destruct (Z.eqb_spec 15 i) as [<-|]; [|apply andb_false_r]. rewrite andb_true_r.
  rewrite Z.mod_pow2_bits_low by lia. rewrite Z.mul_pow2_bits_low; done.
Qed.

Section Client.
Context {E : Pmm.Entropy} (drivers_ready : M Sched.sched_state unit).
Context {FE : FsEnv} (fuel : nat).
Import Msg.

(** Numbers of messages carry their sender. *)
Lemma serial_sender p i : 0 <= p < 2 ^ 48 -> 0 <= i < 2 ^ 16 -> EVT_SENDER (Z.lor (EVT_DEST p) i) = p.
Proof.
  intros Hp Hi. unfold EVT_SENDER, EVT_DEST, u64, wrap. rewrite Z.shiftl_mul_pow2 by lia. rewrite (Z.mod_small (p * 2 ^ 16)) by lia.
  rewrite Z.shiftr_lor, !Z.shiftr_div_pow2 by lia. rewrite Z.div_mul, (Z.div_small i), Z.lor_0_r by lia. done.
Qed.
Lemma next_serial_range n : 0 <= n -> 0 < next_serial n < 2 ^ 16.
Proof. intros H. unfold next_serial. change USHRT_MAX with 65535. destruct (Z.leb_spec 65535 n); lia. Qed.


End Client.

(** ** An instance: task 4 is the FS task, task 6 asked for its position in file 1 *)

Definition asked : FsState.msg_t := FsState.mk_msg (Z.lor (EVT_DEST 6) Server.SYS_ftell) 1 0 0 0 0 0 33 [].
Definition core (q : mq_t) : Msg.core_t := Msg.set_services [0; 4; 0; 0; 0; 0; 0; 0] (MsgFacts.Sample.core q).
Definition client (q : mq_t) : tcb_t := default zero_tcb (Sched.tasks (MsgFacts.Sample.ready_core q) !! 6).

Lemma fs_may_send q :
  may_send (core q) 4 6 (Z.lor (EVT_DEST 6) EVT_ack) 4 (set_prev 3 (SchedFacts.Sample.task 4 5 TCB_STATE_RUNNING))
    (SchedFacts.Sample.task 6 5 TCB_STATE_BLOCKED).
Proof. by split. Qed.


End Answers.
