(* ===== verification/Client.v ===== *)
(** The library calls that ask the core or the FS task, src/libc/stdio.c, stdlib.c and
    syslog.c: what they send, and what they make of the answer.

    The core and the tasks behind it are parameters here: an answer may depend on all calls
    so far and change the memory, since it comes from another task; ClientFacts joins the
    calls to the service loop of Server.v.  The allocator is a parameter too (see Bztalloc). *)
From Stdlib Require Import ZArith Lia List.
From stdpp Require Import base option list gmap.
From S2P Require Import Prelude CoreState LibcString Stdio FsState.

Module Client.
Import LibcString.

(** ** Functions of the core: include/osZ/bits/core.h *)
Definition SYS_exit : Z := 2.
Definition SYS_fork : Z := 3.
Definition SYS_usleep : Z := 5.
Definition SYS_stimezone : Z := 10.
Definition SYS_stimebcd : Z := 11.
Definition SYS_stime : Z := 12.
Definition SYS_time : Z := 13.
Definition SYS_srand : Z := 14.
Definition SYS_rand : Z := 15.
Definition SYS_getentropy : Z := 16.
Definition SYS_memmap : Z := 18.
Definition SYS_trace : Z := 20.
Definition SYS_getpid : Z := 21.
Definition SYS_getppid : Z := 22.
Definition SYS_getgid : Z := 24.
Definition SYS_log : Z := 26.
Definition SYS_mmap : Z := 4.
Definition SYS_syslog : Z := 6.
Definition MAP_ANONYMOUS : Z := 0x20.
Definition BUFFSIZE : Z := 1048576.
Definition DIRENTMAX : Z := 512.
Definition SIZEOF_STAT : Z := 144.
Definition S_IFMT : Z := 0xFF0000.
Definition TCB_MAXACE : Z := 128.
Definition LOG_USER : Z := 8.
Definition LOG_NOTICE : Z := 5.
Definition LOG_PERROR : Z := 0x20.
Definition LOG_MASK (pri : Z) : Z := s32 (Z.shiftl 1 pri).
Definition LOG_UPTO (pri : Z) : Z := s32 (Z.shiftl 1 (pri + 1)) - 1.

(** A call: who is asked, the function with its flags, and the arguments. *)
Record call_t : Type := mk_call { c_dst : Z; c_func : Z; c_args : list Z }.
(** The error of a call that was not accepted, the answer, with the memory then, or that no
    message with the number of the call ever comes, so that the task waits for ever (see
    Answers for what becomes of the answers of the FS task). *)
Inductive reply_t : Type :=
| Refused (e : Z)
| Reply (m : FsState.msg_t) (mm : mem)
| Waits.

(** The library in a task: its memory, error code, buffers, and the settings of the log. *)
Record client_t : Type := mk_client {
  cl_mem : mem; errn : Z; calls : list call_t; stdlib_statbuf : Z; stdlib_direntbuf : Z; stdlib_ttyname : Z;
  syslog_ident : Z; syslog_option : Z; syslog_facility : Z; syslog_pri : Z }.
#[export] Instance eta_client : Eta client_t := fun s =>
  mk_client (cl_mem s) (errn s) (calls s) (stdlib_statbuf s) (stdlib_direntbuf s) (stdlib_ttyname s) (syslog_ident s) (syslog_option s) (syslog_facility s) (syslog_pri s).

Definition seterr (e : Z) : M client_t unit := modify (fun s => s <| errn := e |>).
Definition errno : M client_t Z := gets (fun s => s32 (errn s)).
(** What works on the memory only. *)
Definition on_mem {A} (m : M mem A) : M client_t A := fun s =>
  match m (cl_mem s) with
  | Ret a mm => Ret a (s <| cl_mem := mm |>)
  | Exit c mm => Exit c (s <| cl_mem := mm |>)
  | UB => UB
  | Loop => Loop
  end.

Section Calls.
Context (kern : list call_t -> call_t -> mem -> reply_t).
(** The answer of the core to a message that does not wait: the value and the error code. *)
Context (core : list call_t -> call_t -> mem -> Z * Z * mem).
Context (malloc : Z -> M client_t Z) (free : Z -> M client_t unit).
Context (fuel : nat).

Notation msg := (option FsState.msg_t).

(** [mq_call]: the error code is set when the call is refused, and left as it was otherwise.
    The call comes back with a message that has the number its own was given, and only
    then. *)
Definition mq_call (dst func : Z) (args : list Z) : M client_t msg :=
  s <-- get ;;
  let c := mk_call dst func args in
  modify (fun s => s <| calls := calls s ++ [c] |>) ;;;
  match kern (calls s) c (cl_mem s) with
  | Refused e => seterr e ;;; ret None
  | Reply m mm => modify (fun s => s <| cl_mem := mm |>) ;;; ret (Some m)
  | Waits => loop
  end.
(** [mq_send] sets the error code in any case. *)
Definition mq_send (dst func : Z) (args : list Z) : M client_t Z :=
  s <-- get ;;
  let c := mk_call dst func args in
  let '(r, e, mm) := core (calls s) c (cl_mem s) in
  modify (fun s => s <| calls := calls s ++ [c] |> <| cl_mem := mm |>) ;;; seterr e ;;; ret r.

(** A field of the answer; without one there is nothing to read. *)
Definition field (f : FsState.msg_t -> Z) (m : msg) : M client_t Z := m <-- need m ;; ret (f m).
(** [errno() ? fail : (type)msg->data.scalar.arg0] *)
Definition result (fail : Z) (type : Z -> Z) (m : msg) : M client_t Z :=
  e <-- errno ;; if negb (e =? 0) then ret fail else v <-- field FsState.m_arg0 m ;; ret (type v).
Definition fs_call (func : Z) (args : list Z) : M client_t msg := mq_call SRV_FS func args.
Definition ptr (func : Z) : Z := Z.lor func MSG_PTRDATA.
Definition same (v : Z) : Z := v.

(** [!path || !path[0]] *)
Definition no_path (path : Z) : M client_t bool :=
  if path =? 0 then ret true else c <-- on_mem (load path) ;; ret (c =? 0).
Definition len (path : Z) : M client_t Z := on_mem (strlen fuel path).

(** ** src/libc/stdio.c *)

Definition mknod (devname minor mode size cnt : Z) : M client_t Z :=
  no <-- no_path devname ;;
  bad <-- (if (no : bool) then ret true else c <-- on_mem (load devname) ;; ret (c =? 47)) ;;
  if (bad : bool) then seterr EINVAL ;;; ret (-1) else
  n <-- len devname ;;
  m <-- fs_call (ptr 10) [devname; n + 1; minor; Z.lor (Z.shiftl mode 32) size; cnt] ;;
  result (-1) s32 m.
(** A function that takes a path only. *)
Definition with_path (func fail : Z) (type : Z -> Z) (path : Z) : M client_t Z :=
  no <-- no_path path ;;
  if (no : bool) then seterr EINVAL ;;; ret fail else
  n <-- len path ;; m <-- fs_call (ptr func) [path; n + 1] ;; result fail type m.
Definition chroot (path : Z) : M client_t Z := with_path 37 m1UL same path.
Definition chdir (path : Z) : M client_t Z := with_path 38 m1UL same path.
Definition umount (path : Z) : M client_t Z := with_path 8 (-1) s32 path.

(** A copy of the string an answer points to. *)
Definition copied (m : msg) : M client_t Z :=
  e <-- errno ;; if negb (e =? 0) then ret 0 else
  p <-- field FsState.m_arg0 m ;;
  n <-- len p ;; let i := s32 (n + 1) in
  q <-- malloc i ;;
  when (negb (q =? 0)) (on_mem (memcpy (Z.to_nat i) q p)) ;;; ret q.
Definition getcwd : M client_t Z := m <-- fs_call 39 [] ;; copied m.

Definition mount (dev mnt opts : Z) : M client_t Z :=
  no <-- no_path dev ;; no <-- (if (no : bool) then ret true else no_path mnt) ;;
  if (no : bool) then seterr EINVAL ;;; ret (-1) else
  i <-- len dev ;; j <-- len mnt ;; k <-- len opts ;;
  let '(i, j, k) := (s32 i, s32 j, s32 k) in
  path <-- malloc (i + j + k + 3) ;;
  if path =? 0 then ret (-1) else
  on_mem (memcpy (Z.to_nat (i + 1)) path dev) ;;;
  on_mem (memcpy (Z.to_nat (j + 1)) (path + i + 1) mnt) ;;;
  noopts <-- no_path opts ;;
  when (negb noopts) (on_mem (memcpy (Z.to_nat (k + 1)) (path + i + 1 + j + 1) opts)) ;;;
  m <-- fs_call (ptr 7) [path; i + j + k + 3] ;;
  e <-- errno ;;
  free path ;;;
  if negb (e =? 0) then seterr e ;;; ret (-1) else v <-- field FsState.m_arg0 m ;; ret (s32 v).

Definition dup (stream : Z) : M client_t Z := m <-- fs_call 27 [stream] ;; result 0 same m.
Definition dup2 (stream stream2 : Z) : M client_t Z := m <-- fs_call 28 [stream; stream2] ;; result 0 same m.
Definition ioctl (stream code buff size : Z) : M client_t Z :=
  m <-- fs_call (Z.lor 11 (if negb (buff =? 0) && (0 <? size) then MSG_PTRDATA else 0)) [buff; size; stream; code] ;; result (-1) s32 m.
Definition tmpfile : M client_t Z := m <-- fs_call 26 [] ;; result 0 same m.
Definition open_as (filename oflag stream : Z) : M client_t Z :=
  no <-- no_path filename ;;
  if (no : bool) then seterr EINVAL ;;; ret 0 else
  n <-- len filename ;; m <-- fs_call (ptr 15) [filename; n + 1; oflag; stream] ;; result 0 same m.
Definition fopen (filename oflag : Z) : M client_t Z := open_as filename oflag m1UL.
Definition freopen (filename oflag stream : Z) : M client_t Z := open_as filename oflag stream.
Definition fclose (stream : Z) : M client_t Z := m <-- fs_call 24 [stream] ;; result (-1) s32 m.
Definition fcloseall : M client_t Z := m <-- fs_call 25 [] ;; result (-1) s32 m.
Definition fseek (stream off whence : Z) : M client_t Z := m <-- fs_call 16 [stream; u64 off; u64 whence] ;; result (-1) s32 m.
Definition ftell (stream : Z) : M client_t Z := m <-- fs_call 17 [stream] ;; result 0 same m.
Definition rewind (stream : Z) : M client_t unit := fs_call 44 [stream] ;;; ret tt.
Definition fclrerr (stream : Z) : M client_t unit := fs_call 23 [stream] ;;; ret tt.
Definition feof (stream : Z) : M client_t Z := m <-- fs_call 21 [stream] ;; result 1 u8 m.
Definition ferror (stream : Z) : M client_t Z := m <-- fs_call 22 [stream] ;; result 1 s32 m.

(** A large buffer has to be shared memory. *)
Definition transfer (func stream p size : Z) : M client_t Z :=
  if (BUFFSIZE <=? size) && (0 <? s64 p) then seterr ENOTSHM ;;; ret 0 else
  m <-- fs_call func [p; size; stream] ;; result 0 same m.
Definition fread (stream p size : Z) : M client_t Z := transfer 18 stream p size.
Definition fwrite (stream p size : Z) : M client_t Z := transfer (ptr 19) stream p size.

(** [c] is the address of four bytes on the stack; a fifth one is read when all of them have
    the high bit. *)
Definition fgetc (stream c : Z) : M client_t Z :=
  iter 6 (fun i =>
    n <-- fread stream (c + i) 1 ;;
    if n =? 0 then ret (inr tt) else
    b <-- on_mem (load (c + i)) ;;
    ret (if negb (Z.land b 0x80 =? 0) && (i <? 4) then inl (i + 1) else inr tt)) 0 ;;;
  l <-- on_mem (load_list c 4) ;; ret (s32 (fold_right (fun b x => b + 256 * x) 0 l)).
Definition getchar (c : Z) : M client_t Z := fgetc 1 c.
(** The bytes of a character: up to the first one without the high bit, that one included. *)
Definition char_size (c : Z) : Z :=
  if Z.land c 0x80 =? 0 then 1 else if Z.land (Z.shiftr c 8) 0x80 =? 0 then 2 else if Z.land (Z.shiftr c 16) 0x80 =? 0 then 3 else 4.
(** [b] is the address of the argument. *)
Definition fputc (stream c b : Z) : M client_t Z :=
  on_mem (store_list b (bytes_of 4 c)) ;;; r <-- fwrite stream b (char_size c) ;; ret (s32 r).
Definition putchar (c b : Z) : M client_t Z := fputc 2 c b.
Definition fputs (stream s : Z) : M client_t Z := n <-- len s ;; r <-- fwrite stream s n ;; ret (s32 r).
(** [nl] is the address of a line end. *)
Definition puts (s nl : Z) : M client_t Z :=
  n <-- len s ;; r <-- fwrite 2 s n ;;
  e <-- errno ;;
  if negb (e =? 0) then ret (s32 r) else k <-- fwrite 2 nl 1 ;; ret (s32 (s32 r + k)).
Definition fflush (stream : Z) : M client_t Z := m <-- fs_call 20 [stream] ;; result (-1) s32 m.

(** The buffer of the answers of [lstat] and its like, made once. *)
Definition need_statbuf : M client_t bool :=
  b <-- gets stdlib_statbuf ;;
  if negb (b =? 0) then ret true else
  p <-- malloc SIZEOF_STAT ;; modify (fun s => s <| stdlib_statbuf := p |>) ;;; ret (negb (p =? 0)).
Definition stat_with (func : Z) (args : list Z) : M client_t Z :=
  ok <-- need_statbuf ;;
  if negb ok then ret 0 else
  b <-- gets stdlib_statbuf ;;
  fs_call func (args ++ [b]) ;;;
  e <-- errno ;; if negb (e =? 0) then ret 0 else ret b.
Definition lstat (path : Z) : M client_t Z :=
  no <-- no_path path ;;
  if (no : bool) then seterr EINVAL ;;; ret 0 else
  ok <-- need_statbuf ;; if negb ok then ret 0 else
  n <-- len path ;; stat_with (ptr 12) [path; n + 1].
Definition dstat (stream : Z) : M client_t Z := stat_with 13 [stream; 0].
Definition fstat (stream : Z) : M client_t Z := stat_with 14 [stream; 0].

Definition realpath (path : Z) : M client_t Z :=
  no <-- no_path path ;;
  if (no : bool) then seterr EINVAL ;;; ret 0 else
  n <-- len path ;; m <-- fs_call (ptr 33) [path; n + 1] ;; copied m.
Definition readlink (path : Z) : M client_t Z :=
  no <-- no_path path ;;
  if (no : bool) then seterr EINVAL ;;; ret 0 else
  n <-- len path ;; m <-- fs_call (ptr 45) [path; n + 1] ;;
  e <-- errno ;; if negb (e =? 0) then ret 0 else
  z <-- field FsState.m_arg1 m ;;
  if z =? 0 then ret 0 else
  b <-- malloc z ;;
  if b =? 0 then ret 0 else
  p <-- field FsState.m_arg0 m ;; on_mem (memcpy (Z.to_nat z) b p) ;;; ret b.

(** An union has to be read first: the FS task answers its size, and is asked again with its
    bytes.  The loop goes on while it does. *)
Definition opendir (path : Z) : M client_t Z :=
  no <-- no_path path ;;
  if (no : bool) then seterr EINVAL ;;; ret m1UL else
  n <-- len path ;;
  iter fuel (fun st : Z * Z * Z * Z => let '(path, s, fd, buf) := st in
    m <-- fs_call (ptr 42) [path; s; fd] ;;
    z <-- field FsState.m_arg3 m ;;
    let close (buf : Z) : M client_t (Z * Z * Z * Z + Z) :=
      when (negb (buf =? 0)) (free buf) ;;;
      e <-- errno ;; if negb (e =? 0) then ret (inr m1UL) else v <-- field FsState.m_arg0 m ;; ret (inr (u64 (s32 v))) in
    if 0 <? z then
      b <-- malloc z ;;
      if b =? 0 then ret (inr m1UL) else
      fd <-- field FsState.m_arg0 m ;;
      fs_call 18 [b; z; fd] ;;;
      e <-- errno ;;
      if e =? 0 then ret (inl (b, z, fd, b)) else close b
    else close buf) (path, n + 1, m1UL, 0).

Definition readdir (stream : Z) : M client_t Z :=
  b <-- gets stdlib_direntbuf ;;
  ok <-- (if negb (b =? 0) then ret true else
            p <-- malloc DIRENTMAX ;; modify (fun s => s <| stdlib_direntbuf := p |>) ;;; ret (negb (p =? 0))) ;;
  if negb ok then ret 0 else
  b <-- gets stdlib_direntbuf ;;
  n <-- fread stream b DIRENTMAX ;;
  if n =? 0 then ret 0 else
  fs_call (ptr 43) [b; DIRENTMAX; stream; b] ;;;
  e <-- errno ;; if negb (e =? 0) then ret 0 else ret b.
Definition closedir (stream : Z) : M client_t Z := m <-- fs_call 24 [stream] ;; result (-1) s32 m.

(** The text goes out with its terminator. *)
Definition vfprintf (stream fmt : Z) (args : list Z) : M client_t Z :=
  n <-- on_mem (Stdio.vsnprintf fuel 0 Stdio.INT_MAX fmt args) ;;
  let size := u64 (s32 n + 1) in
  buf <-- malloc size ;;
  if buf =? 0 then ret 0 else
  on_mem (Stdio.vsnprintf fuel buf size fmt args) ;;;
  fwrite stream buf size ;;; free buf ;;; ret (s32 (size - 1)).
Definition fprintf (stream fmt : Z) (args : list Z) : M client_t Z := vfprintf stream fmt args.
Definition vprintf (fmt : Z) (args : list Z) : M client_t Z := vfprintf 2 fmt args.
Definition printf (fmt : Z) (args : list Z) : M client_t Z := vfprintf 2 fmt args.

Definition number_at (p : Z) (n : nat) : M client_t Z :=
  l <-- on_mem (load_list p n) ;; ret (fold_right (fun b x => b + 256 * x) 0 l).
Definition S_ISTTY (m : Z) : bool := Z.land m S_IFMT =? FsState.S_IFTTY.
(** [fstat(stream) && ... && S_ISTTY(stdlib_statbuf->st_mode)] *)
Definition tty_open (stream : Z) (args_ok : bool) : M client_t bool :=
  st <-- fstat stream ;;
  b <-- gets stdlib_statbuf ;;
  if (st =? 0) || negb args_ok || (b =? 0) then ret false else m <-- number_at (b + 16) 4 ;; ret (S_ISTTY m).
(** [fmt] is the address of "/dev/tty%d". *)
Definition ttyname_r (fmt stream buf buflen : Z) : M client_t Z :=
  ok <-- tty_open stream (negb (buf =? 0) && (0 <? buflen)) ;;
  if (ok : bool) then
    b <-- gets stdlib_statbuf ;; n <-- number_at (b + 8) 8 ;;
    on_mem (Stdio.vsnprintf fuel buf buflen fmt [u64 (s32 n)]) ;;; ret 0
  else e <-- errno ;; ret (if negb (e =? 0) then e else EBADF).
Definition ttyname (fmt stream : Z) : M client_t Z :=
  b <-- gets stdlib_ttyname ;;
  ok <-- (if negb (b =? 0) then ret true else
            p <-- malloc 16 ;; modify (fun s : client_t => s <| stdlib_ttyname := p |>) ;;; ret (negb (p =? 0))) ;;
  if negb ok then ret 0 else
  b <-- gets stdlib_ttyname ;;
  r <-- ttyname_r fmt stream b 16 ;; ret (if r =? 0 then b else 0).
Definition isatty (stream : Z) : M client_t bool := tty_open stream true.

(** ** src/libc/stdlib.c *)

Definition trace (enable : Z) : M client_t unit := mq_send SRV_CORE SYS_trace [enable] ;;; ret tt.
Definition mmap (addr len prot flags fid offs : Z) : M client_t Z :=
  if has flags MAP_ANONYMOUS || (fid =? m1UL) then mq_send SRV_CORE SYS_memmap [addr; len; u64 flags]
  else mq_send SRV_FS SYS_mmap [addr; len; u64 prot; u64 flags; fid; u64 offs].
Definition munmap (addr len : Z) : M client_t Z := mq_send SRV_CORE SYS_memmap [addr; len] ;;; ret 0.
Definition abort : M client_t unit := mq_send SRV_CORE SYS_exit [0; 1] ;;; ub.
Definition fork : M client_t Z := mq_send SRV_CORE SYS_fork [].
Definition usleep (usec : Z) : M client_t unit := mq_send SRV_CORE SYS_usleep [usec] ;;; ret tt.
Definition srand (seed : Z) : M client_t unit := mq_send SRV_CORE SYS_srand [seed] ;;; ret tt.
Definition rand : M client_t Z := mq_send SRV_CORE SYS_rand [].
Definition getentropy (buffer length : Z) : M client_t Z := r <-- mq_send SRV_CORE SYS_getentropy [buffer; length] ;; ret (s32 r).
Definition stime (usec : Z) : M client_t unit := mq_send SRV_CORE SYS_stime [usec] ;;; ret tt.
Definition stimebcd (timestr : Z) : M client_t unit := mq_send SRV_CORE (ptr SYS_stimebcd) [timestr; 7] ;;; ret tt.
Definition stimezone (min : Z) : M client_t unit := mq_send SRV_CORE SYS_stimezone [u64 min] ;;; ret tt.
Definition time : M client_t Z := mq_send SRV_CORE SYS_time [].
Definition getpid : M client_t Z := mq_send SRV_CORE SYS_getpid [].
Definition getppid : M client_t Z := mq_send SRV_CORE SYS_getppid [].
Definition getgidp (p : Z) : M client_t Z := b <-- malloc (TCB_MAXACE * 16) ;; mq_send SRV_CORE SYS_getgid [b; p].
Definition getgid : M client_t Z := getgidp 0.

(** ** src/libc/syslog.c *)

Definition openlog (ident option facility : Z) : M client_t unit :=
  modify (fun s => s <| syslog_ident := ident |> <| syslog_option := option |> <| syslog_facility := facility |>).
Definition closelog : M client_t unit :=
  modify (fun s => s <| syslog_ident := 0 |> <| syslog_option := 0 |> <| syslog_facility := LOG_USER |> <| syslog_pri := LOG_UPTO LOG_NOTICE |>).
Definition setlogmask (mask : Z) : M client_t Z :=
  when (negb (mask =? 0)) (modify (fun s => s <| syslog_pri := mask |>)) ;;; gets syslog_pri.

(** Control characters become spaces; a character is signed. *)
Definition blank (buf : Z) : M client_t unit :=
  iter 1025 (fun c =>
    b <-- on_mem (load c) ;;
    if (b =? 0) || (buf + 1024 <=? c) then ret (inr tt) else
    when ((schar b <? 32) && negb (b =? 9)) (on_mem (store c 32)) ;;; ret (inl (c + 1))) buf.
(** [buf] is the address of 1024 bytes on the stack, [user] that of "user". *)
Definition vsyslog (buf user pri fmt : Z) (ap : list Z) : M client_t unit :=
  no <-- no_path fmt ;;
  mask <-- gets syslog_pri ;;
  if no || negb (has mask (LOG_MASK pri)) then ret tt else
  s <-- on_mem (Stdio.vsnprintf fuel buf 1023 fmt ap) ;;
  blank buf ;;;
  mq_send SRV_CORE (ptr SYS_log) [buf; u64 (s32 s) + 1; u64 pri] ;;;
  e <-- errno ;;
  if negb (e =? EACCES) then ret tt else
  f <-- gets syslog_facility ;; i <-- gets syslog_ident ;;
  mq_send SRV_syslog (ptr SYS_syslog) [buf; u64 (s32 s) + 1; u64 pri; u64 f; if negb (i =? 0) then i else user] ;;;
  o <-- gets syslog_option ;;
  when (has o LOG_PERROR) (fwrite 3 buf (u64 (s32 s)) ;;; ret tt).

End Calls.
End Client.
