(* ===== verification/ClientFacts.v ===== *)
(** Correctness of library calls of Client.v: nineteen calls on files each ask the FS task
    once, for the operation of its name with its arguments, and hand back an answer that
    comes unless an error of an earlier call is still set. *)
From Stdlib Require Import ZArith Lia List.
From stdpp Require Import base option list gmap.
From S2P Require Import Prelude CoreState LibcString LibcStringFacts FsState FsFacts FcbFacts Devfs Vfs VfsFacts Server Answers Client.
Import LibcString Client.

Module ClientFacts.

(** ** A call as the message the FS task receives *)

(** The bytes the core maps for a call with a pointer: from the first argument, as many as
    the second says. *)
Definition buffer (mm : mem) (p n : Z) : list Z :=
  map (fun i => default 0 (mm !! (p + Z.of_nat i))) (seq 0 (Z.to_nat n)).
Definition delivered (pid serial : Z) (c : call_t) (mm : mem) : FsState.msg_t :=
  let a i := nth i (c_args c) 0 in
  FsState.mk_msg (Z.lor (EVT_DEST pid) (c_func c)) (a 0%nat) (a 1%nat) (a 2%nat) (a 3%nat) (a 4%nat) (a 5%nat) serial
    (if has (c_func c) MSG_PTRDATA then buffer mm (a 0%nat) (a 1%nat) else []).

Lemma delivered_func pid n c mm : EVT_FUNC (FsState.m_evt (delivered pid n c mm)) = EVT_FUNC (c_func c).
Proof. unfold EVT_FUNC. simpl. by rewrite Z.land_lor_distr_l, Answers.land_sub. Qed.

Lemma buffer_bytes mm p l : bytes_at mm p l -> buffer mm p (zlen l) = l.
Proof.
  unfold buffer, zlen. rewrite Nat2Z.id. revert p. induction l as [|b l IH]; intros p; [done|]. intros [Hb Hl].
  cbn [length seq map]. rewrite Z.add_0_r, Hb. f_equal. rewrite <- seq_shift, map_map. rewrite <- (IH _ Hl) at 2.
  apply map_ext. intros i. do 2 f_equal. lia.
Qed.

(** ** The calls *)

(** A call of the library: what it runs, the function and arguments it is to ask for, the
    operation of the FS task that is to see to it, and its answer when it fails. *)
Record request_t : Type := mk_request {
  r_run : M client_t Z; r_func : Z; r_args : list Z;
  r_handler : FsState.msg_t -> M FsState.fs_state Server.answer; r_fail : Z; r_type : Z -> Z }.

Section Requests.
Context (kern : list call_t -> call_t -> mem -> reply_t) (malloc : Z -> M client_t Z) (free : Z -> M client_t unit).
Context {E : FsState.FsEnv} {D : FsState.FsDrivers} (depth ffuel fuel : nat).

(** The calls on open files, with the values of their parameters. *)
Definition file_requests (stream stream2 off whence code p size : Z) : list request_t :=
  [mk_request (dup kern stream) Server.SYS_dup [stream] Server.dup 0 same;
   mk_request (dup2 kern stream stream2) Server.SYS_dup2 [stream; stream2] (Server.dup2 ffuel) 0 same;
   mk_request (tmpfile kern) Server.SYS_tmpfile [] (Server.tmpfile depth ffuel) 0 same;
   mk_request (fclose kern stream) Server.SYS_fclose [stream] (Server.fclose ffuel) (-1) s32;
   mk_request (closedir kern stream) Server.SYS_fclose [stream] (Server.fclose ffuel) (-1) s32;
   mk_request (fcloseall kern) Server.SYS_fcloseall [] (Server.fcloseall ffuel) (-1) s32;
   mk_request (fseek kern stream off whence) Server.SYS_fseek [stream; u64 off; u64 whence] Server.fseek (-1) s32;
   mk_request (ftell kern stream) Server.SYS_ftell [stream] Server.ftell 0 same;
   mk_request (feof kern stream) Server.SYS_feof [stream] Server.feof 1 u8;
   mk_request (ferror kern stream) Server.SYS_ferror [stream] Server.ferror 1 s32;
   mk_request (fflush kern stream) Server.SYS_fflush [stream] Server.fflush (-1) s32;
   mk_request (ioctl kern stream code p size)
     (Z.lor Server.SYS_ioctl (if negb (p =? 0) && (0 <? size) then MSG_PTRDATA else 0))
     [p; size; stream; code] Server.ioctl (-1) s32].
(** The transfers; a large buffer is refused unless it is shared. *)
Definition transfer_requests (stream p size : Z) : list request_t :=
  [mk_request (fread kern stream p size) FsState.SYS_fread [p; size; stream] (Server.fread ffuel) 0 same;
   mk_request (fwrite kern stream p size) (ptr Server.SYS_fwrite) [p; size; stream] (Server.fwrite ffuel) 0 same].
(** The calls with a path. *)
Definition path_requests (path n mode stream : Z) : list request_t :=
  [mk_request (chroot kern fuel path) (ptr Server.SYS_chroot) [path; n] (Server.chroot depth ffuel) m1UL same;
   mk_request (chdir kern fuel path) (ptr Server.SYS_chdir) [path; n] (Server.chdir depth ffuel) m1UL same;
   mk_request (umount kern fuel path) (ptr Server.SYS_umount) [path; n] (Server.umount ffuel) (-1) s32;
   mk_request (fopen kern fuel path mode) (ptr Server.SYS_fopen) [path; n; mode; m1UL] (Server.fopen depth ffuel) 0 same;
   mk_request (freopen kern fuel path mode stream) (ptr Server.SYS_fopen) [path; n; mode; stream] (Server.fopen depth ffuel) 0 same].

(** What a call answers, and the state it leaves: an answer of the FS task is handed back
    unless an error is set, which stays as it was; a refusal sets it; and without an answer
    the call never comes back. *)
Definition expected (r : request_t) (s : client_t) : outcome client_t Z :=
  let c := mk_call SRV_FS (r_func r) (r_args r) in
  match kern (calls s) c (cl_mem s) with
  | Reply m mm =>
      Ret (if s32 (errn s) =? 0 then r_type r (FsState.m_arg0 m) else r_fail r) (s <| calls := calls s ++ [c] |> <| cl_mem := mm |>)
  | Refused e => Ret (r_fail r) (s <| calls := calls s ++ [c] |> <| errn := e |>)
  | Waits => Loop
  end.
(** The call behaves so, and the FS task runs the operation meant. *)
Definition served (r : request_t) (s : client_t) : Prop :=
  r_run r s = expected r s /\
  forall pid n, let d := delivered pid n (mk_call SRV_FS (r_func r) (r_args r)) (cl_mem s) in
    Server.request depth ffuel d = r_handler r d.

(** The core refuses a call with an error code. *)
Context (Hkern : forall h c m e, kern h c m = Refused e -> s32 e <> 0).

Lemma asks f args h fail type run s :
  run s = bind (fs_call kern f args) (Client.result fail type) s -> r_run (mk_request run f args h fail type) s = expected (mk_request run f args h fail type) s.
Proof.
  intros Hrun. cbn [r_run]. rewrite Hrun. unfold expected, fs_call, mq_call, bind, get, modify, ret. cbn [r_func r_args r_fail r_type].
  destruct (kern _ _ _) as [e|m mm|] eqn:Hk; unfold seterr, Client.result, errno, gets, modify, bind, ret; cbn.
  - rewrite (proj2 (Z.eqb_neq _ _) (Hkern _ _ _ _ Hk)). done.
  - by destruct (s32 (errn s) =? 0).
  - done.
Qed.

Lemma dispatched f args pid n mm h d :
  d = delivered pid n (mk_call SRV_FS f args) mm ->
  List.find (fun p => EVT_FUNC f =? fst p) (Server.handlers depth ffuel) = Some h -> Server.request depth ffuel d = snd h d.
Proof. intros -> Hf. unfold Server.request. rewrite delivered_func. cbn [c_func]. by rewrite Hf. Qed.

Lemma served_by f args h fail type run s k :
  run s = bind (fs_call kern f args) (Client.result fail type) s ->
  List.find (fun p => EVT_FUNC f =? fst p) (Server.handlers depth ffuel) = Some (k, h) -> served (mk_request run f args h fail type) s.
Proof. intros Hrun Hf. split; [by apply asks|]. intros pid n d. by apply (dispatched f args pid n (cl_mem s) (k, h)). Qed.

Lemma file_requests_served stream stream2 off whence code p size s :
  Forall (fun r => served r s) (file_requests stream stream2 off whence code p size).
Proof.
  unfold file_requests. repeat (constructor; [eapply served_by; [reflexivity|]; try reflexivity|]); [|constructor].
  by destruct (negb (p =? 0) && (0 <? size)).
Qed.

Lemma transfer_requests_served stream p size s :
  (BUFFSIZE <=? size) && (0 <? s64 p) = false -> Forall (fun r => served r s) (transfer_requests stream p size).
Proof.
  intros Hs. unfold transfer_requests. repeat (constructor; [eapply served_by; [|reflexivity]; unfold fread, fwrite, transfer; by rewrite Hs|]). constructor.
Qed.

(** A path: not empty, and found by the library. *)
Lemma path_ready p l s : p <> 0 -> cstr (cl_mem s) p l -> l <> [] -> (length l < fuel)%nat ->
  no_path p s = Ret false s /\ len fuel p s = Ret (zlen l) s.
Proof.
  intros Hp Hc Hl Hf. split.
  - destruct l as [|b l]; [done|]. destruct Hc as [[Hb _] Hpos]. apply Forall_inv in Hpos.
    unfold no_path. rewrite (proj2 (Z.eqb_neq _ _) Hp). unfold on_mem, load, bind, get, need. rewrite Hb. unfold ret.
    destruct s. cbn. by rewrite (proj2 (Z.eqb_neq b 0)) by lia.
  - pose proof (wp_strlen fuel p l (fun a m => a = zlen l /\ m = cl_mem s) (cl_mem s) Hp Hc Hf ltac:(done)) as Hw.
    unfold len, on_mem. unfold wp in Hw. destruct (strlen fuel p (cl_mem s)); try done. destruct Hw as [-> ->]. by destruct s.
Qed.

Lemma path_requests_served p l mode stream s : p <> 0 -> cstr (cl_mem s) p l -> l <> [] -> (length l < fuel)%nat ->
  Forall (fun r => served r s) (path_requests p (zlen l + 1) mode stream).
Proof.
  intros Hp Hc Hl Hf. destruct (path_ready p l s Hp Hc Hl Hf) as [Hn Hlen].
  assert (forall f fail type, with_path kern fuel f fail type p s = bind (fs_call kern (ptr f) [p; zlen l + 1]) (Client.result fail type) s) as Hw.
  { intros. unfold with_path. unfold bind at 1. rewrite Hn. unfold bind at 1. by rewrite Hlen. }
  assert (forall t, open_as kern fuel p mode t s = bind (fs_call kern (ptr 15) [p; zlen l + 1; mode; t]) (Client.result 0 same) s) as Ho.
  { intros. unfold open_as. unfold bind at 1. rewrite Hn. unfold bind at 1. by rewrite Hlen. }
  unfold path_requests. repeat (constructor; [eapply served_by; [first [apply Hw|apply Ho]|reflexivity]|]). constructor.
Qed.

(** The FS task reads the path the library was given. *)
Lemma delivered_string p l rest f n pid mm : cstr mm p l ->
  let d := delivered pid n (mk_call SRV_FS (ptr f) (p :: zlen l + 1 :: rest)) mm in
  FsState.m_buf d = l ++ [0] /\ forall fs, Server.string_at d 0 fs = Ret l fs.
Proof.
  intros [Hb Hl] d. assert (FsState.m_buf d = l ++ [0]) as Hd.
  { cbn. unfold ptr, has. rewrite Z.land_lor_distr_l, Z.land_diag.
    rewrite (proj2 (Z.eqb_neq _ 0)).
    - cbn [negb]. rewrite <- (buffer_bytes _ _ _ Hb). rewrite zlen_app. unfold zlen at 3. done.
    - intros H0. apply (f_equal (fun x => Z.testbit x 14)) in H0. rewrite Z.lor_spec in H0.
      change (Z.testbit MSG_PTRDATA 14) with true in H0. rewrite orb_true_r in H0. done. }
  split; [exact Hd|]. intros fs. unfold Server.string_at. rewrite Hd. cbn [Z.to_nat drop].
  rewrite (proj2 (Z.leb_le 0 _)) by apply zlen_nonneg.
  change (drop (Z.to_nat 0) (l ++ [0])) with (l ++ [0]).
  assert (existsb (Z.eqb 0) (l ++ [0]) = true) as -> by (apply existsb_exists; exists 0; split; [apply in_app_iff; right; by left|done]).
  unfold ret, Vfs.cstring. cbn [andb]. rewrite span_app; [|eapply Forall_impl; [exact Hl|]; intros b Hb0; cbn beta in *; lia|done].
  unfold zlen. by rewrite Nat2Z.id, take_app_length.
Qed.

(** C33: dup, dup2, tmpfile, fclose, closedir, fcloseall, fseek, ftell, feof, ferror, fflush,
    ioctl, fread, fwrite, chroot, chdir, umount, fopen and freopen each make one call to the
    FS task, for which its service loop runs the operation of that name; the arguments are
    the call's, and the path of the last five is read there as it was given.  Whatever is
    then heard of the call: an answer with its number is handed back unless an error of an
    earlier call is set, which is not cleared, so that the call fails although it was
    served; a refusal of the core sets the error; and without a message with the number the
    call does not come back.  A transfer of [BUFFSIZE] bytes or more is of a shared buffer,
    the path is not empty, and the core refuses with an error code.  (What the FS task
    sends does not have the number of the call: [Answers.client_waits_forever].) *)
Theorem client_requests_served p l mode stream stream2 off whence code q size s :
  p <> 0 -> cstr (cl_mem s) p l -> l <> [] -> (length l < fuel)%nat ->
  (BUFFSIZE <=? size) && (0 <? s64 q) = false ->
  Forall (fun r => served r s)
    (file_requests stream stream2 off whence code q size ++ transfer_requests stream q size ++ path_requests p (zlen l + 1) mode stream) /\
  Forall (fun r => forall pid n fs, Server.string_at (delivered pid n (mk_call SRV_FS (r_func r) (r_args r)) (cl_mem s)) 0 fs = Ret l fs)
    (path_requests p (zlen l + 1) mode stream).
Proof.
  intros Hp Hc Hl Hf Hq. split.
  - rewrite !Forall_app. split_and!; [apply file_requests_served|by apply transfer_requests_served|by apply path_requests_served].
  - unfold path_requests. repeat (constructor; [intros pid n fs; by apply delivered_string|]). constructor.
Qed.

(** A device's node: what the library packs as its access bits and block size, and as its
    number of blocks, is taken for its access bits, which are then the block size, and for
    its block size; the number of blocks is zero. *)
Lemma mknod_arguments minor mode size cnt p l pid n mm fs t :
  cstr mm p l -> p <> 0 -> zlen l < 63 -> 0 <= size < 2 ^ 32 -> FsState.ctxs fs !! FsState.ctx fs = Some t ->
  let d := delivered pid n (mk_call SRV_FS (ptr Server.SYS_mknod) [p; zlen l + 1; minor; Z.lor (Z.shiftl mode 32) size; cnt]) mm in
  Server.request depth ffuel d fs =
  bind (Devfs.devfs_add ffuel l (FsState.t_pid t) minor size (u32 cnt) 0) (fun _ => Server.done_ 0) fs.
Proof.
  intros Hc Hp Hl Hs Ht d. destruct (delivered_string p l [minor; Z.lor (Z.shiftl mode 32) size; cnt] Server.SYS_mknod n pid mm Hc) as [Hb Hstr].
  fold d in Hb, Hstr.
  rewrite (dispatched (ptr Server.SYS_mknod) _ pid n mm (Server.SYS_mknod, Server.mknod ffuel) d eq_refl eq_refl).
  cbn [snd]. unfold Server.mknod.
  replace (Server.no_buffer d) with false; last first.
  { unfold Server.no_buffer. cbn. pose proof (zlen_nonneg l). b2p. lia. }
  assert (Hpid : Server.my_pid fs = Ret (FsState.t_pid t) fs)
    by (unfold Server.my_pid, Server.me, FsState.ctx_at, bind, gets, get, need; by rewrite Ht).
  assert (Hname : Server.node_name d fs = Ret l fs).
  { unfold Server.node_name. rewrite Hb, zlen_app. rewrite (proj2 (Z.leb_gt 64 _)) by (change (zlen [0]) with 1; lia). apply Hstr. }
  rewrite (run_bind _ _ _ _ _ Hpid), (run_bind _ _ _ _ _ Hname).
  change (FsState.m_arg2 d) with minor. change (FsState.m_arg3 d) with (Z.lor (Z.shiftl mode 32) size).
  change (FsState.m_arg4 d) with cnt. change (FsState.m_arg5 d) with 0.
  replace (u32 (Z.lor (Z.shiftl mode 32) size)) with size; [done|].
  unfold u32, wrap. rewrite <- Z.land_ones, Z.land_lor_distr_l, Z.land_ones, Z.shiftl_mul_pow2, Z.mod_mul, Z.land_ones, Z.mod_small by lia.
  done.
Qed.

End Requests.

(** ** An instance: the FS task answers everything with 7, and an error is still set *)

Definition answers_7 (h : list call_t) (c : call_t) (m : mem) : reply_t := Reply (FsState.mk_msg 0 7 0 0 0 0 0 0 []) m.
(** "/" at address 8 *)
Definition task (e : Z) : client_t := mk_client (<[8 := 47]> (<[9 := 0]> ∅)) e [] 0 0 0 0 0 LOG_USER 0.

Lemma client_requests_served_witness :
  Forall (fun r => served answers_7 1 9 r (task 5))
    (file_requests answers_7 1 9 3 4 16 0 2 64 10 ++ transfer_requests answers_7 9 3 64 10 ++ path_requests answers_7 1 9 9 8 2 1 3) /\
  Forall (fun r => forall pid n fs, Server.string_at (delivered pid n (mk_call SRV_FS (r_func r) (r_args r)) (cl_mem (task 5))) 0 fs = Ret [47] fs)
    (path_requests answers_7 1 9 9 8 2 1 3) /\
  (* the same call, with an error set and without *)
  expected answers_7 (mk_request (ftell answers_7 3) Server.SYS_ftell [3] Server.ftell 0 same) (task 5) =
    Ret 0 ((task 5) <| calls := [mk_call SRV_FS Server.SYS_ftell [3]] |>) /\
  expected answers_7 (mk_request (ftell answers_7 3) Server.SYS_ftell [3] Server.ftell 0 same) (task 0) =
    Ret 7 ((task 0) <| calls := [mk_call SRV_FS Server.SYS_ftell [3]] |>).
Proof.
  apply and_assoc. split; [|by split].
  apply (client_requests_served answers_7 1 9 9 ltac:(done) 8 [47] 1 3 4 16 0 2 64 10 (task 5)); try done.
  - split; [by repeat split|by repeat constructor].
  - simpl. lia.
Defined.
End ClientFacts.
