(* ===== verification/Dispatch.v ===== *)
(** The message loop of a service, src/libc/dispatch.c: messages call the functions the
    program exports, by their index in its table of symbols. *)
From Stdlib Require Import ZArith Lia List.
From stdpp Require Import base option list gmap.
From S2P Require Import Prelude CoreState LibcString FsState.

Module Dispatch.
Import LibcString.

Definition TEXT_ADDRESS : Z := 4194304.
Definition ENOEXEC : Z := 9.
Definition EPERM : Z := 1.
Definition EX_SOFTWARE : Z := 70.
Definition SHRT_MAX : Z := 32767.
Definition DT_NULL : Z := 0.
Definition DT_STRTAB : Z := 5.
Definition DT_SYMTAB : Z := 6.
Definition DT_SYMENT : Z := 11.
Definition STB_GLOBAL : Z := 1.
Definition STT_FUNC : Z := 2.
Definition SIZEOF_SYM : Z := 24.
Definition EVT_ack : Z := 0x3FFA.
Definition MSG_ISRESP (evt : Z) : bool := has evt MSG_RESPONSED.
Definition ELF64_ST_BIND (info : Z) : Z := Z.shiftr info 4.
Definition ELF64_ST_TYPE (info : Z) : Z := Z.land info 0xf.

(** The service: its memory, error code and the variables of the dispatcher.  Two records of
    what the dispatcher did: the functions it called, each with its arguments and the value
    of [mq_caller] at the call, and the answers it sent, each as six arguments, event and
    serial. *)
Record service_t : Type := mk_service {
  sv_mem : mem; errn : Z; mq_caller : Z; mq_ack : Z;
  called : list (Z * list Z * Z); answers : list (list Z * Z * Z) }.
#[export] Instance eta_service : Eta service_t := fun s =>
  mk_service (sv_mem s) (errn s) (mq_caller s) (mq_ack s) (called s) (answers s).

Definition seterr (e : Z) : M service_t unit := modify (fun s => s <| errn := e |>).
Definition errno : M service_t Z := gets (fun s => s32 (errn s)).

(** A field of [n] bytes *)
Definition word (p : Z) (n : nat) : M service_t Z := fun s =>
  match load_list p n (sv_mem s) with
  | Ret l _ => Ret (fold_right (fun b x => b + 256 * x) 0 l) s
  | _ => UB
  end.

(** The table of symbols in the dynamic section: its address, the address of the names
    behind it, and the size of an entry. *)
Record symtab_t : Type := mk_symtab { sym : Z; sym_end : Z; syment : Z }.
#[export] Instance eta_symtab : Eta symtab_t := fun t => mk_symtab (sym t) (sym_end t) (syment t).

Section Loop.
(** The functions of the service, by address; they take the six arguments of a message. *)
Context (mq_dispatchcall : Z -> list Z -> M service_t (Z * Z)).
Context (fuel : nat).

Definition dynamic (ehdr : Z) : M service_t Z :=
  off <-- word (ehdr + 32) 8 ;; size <-- word (ehdr + 54) 2 ;;
  p <-- word (u64 (ehdr + off + 2 * size) + 8) 4 ;; ret (u64 (p + ehdr)).

Definition read_tables (ehdr : Z) : M service_t symtab_t :=
  d <-- dynamic ehdr ;;
  iter fuel (fun st : Z * symtab_t => let '(d, t) := st in
    tag <-- word d 8 ;;
    if negb (tag =? DT_NULL) && ((sym t =? 0) || (sym_end t =? 0) || (syment t =? 0)) then
      v <-- word (d + 8) 8 ;;
      ret (inl (d + 16,
        if tag =? DT_STRTAB then t <| sym_end := u64 (ehdr + u32 v) |>
        else if tag =? DT_SYMTAB then t <| sym := u64 (ehdr + u32 v) |>
        else if tag =? DT_SYMENT then t <| syment := u16 v |> else t))
    else ret (inr t)) (d, mk_symtab 0 0 0).

(** The symbol of function [func], if it may be called. *)
Definition exported (t : symtab_t) (maxfunc func : Z) : M service_t (option Z) :=
  let symfunc := u64 (sym t + u64 (func * syment t)) in
  if negb ((0 <? func) && (func <? maxfunc)) then ret None else
  info <-- word (symfunc + 4) 1 ;;
  if (ELF64_ST_BIND info =? STB_GLOBAL) && (ELF64_ST_TYPE info =? STT_FUNC) then ret (Some symfunc) else ret None.

(** The call of an exported function, for the sender of the message. *)
Definition perform (m : FsState.msg_t) (symfunc : Z) : M service_t (Z * Z) :=
  let sender := EVT_SENDER (FsState.m_evt m) in
  let args := [FsState.m_arg0 m; FsState.m_arg1 m; FsState.m_arg2 m; FsState.m_arg3 m; FsState.m_arg4 m; FsState.m_arg5 m] in
  modify (fun s : service_t => s <| mq_caller := sender |> <| mq_ack := 1 |>) ;;;
  v <-- word (symfunc + 8) 8 ;;
  let f := u64 (v + TEXT_ADDRESS) in
  modify (fun s : service_t => s <| called := called s ++ [(f, args, mq_caller s)] |>) ;;;
  r <-- mq_dispatchcall f args ;;
  modify (fun s : service_t => s <| mq_caller := 0 |>) ;;; ret r.

(** An answer is sent if there was an error or one is wanted. *)
Definition respond (m : FsState.msg_t) (r : Z * Z) : M service_t unit :=
  e <-- errno ;;
  a <-- gets mq_ack ;;
  when (negb (e =? 0) || negb (a =? 0))
    (let ev := Z.lor (Z.lor (Z.land (FsState.m_evt m) 0x3FFF) (if (a =? 2) && (e =? 0) then MSG_PTRDATA else 0)) EVT_ack in
     modify (fun s : service_t => s <| answers := answers s ++ [([fst r; snd r; u64 e; 0; 0; 0], ev, FsState.m_serial m)] |>)).

(** One message. *)
Definition handle (t : symtab_t) (maxfunc : Z) (m : FsState.msg_t) : M service_t unit :=
  if MSG_ISRESP (FsState.m_evt m) then ret tt else
  seterr SUCCESS ;;;
  f <-- exported t maxfunc (EVT_FUNC (FsState.m_evt m)) ;;
  r <-- match f with Some symfunc => perform m symfunc | None => seterr EPERM ;;; ret (0, 0) end ;;
  respond m r.

(** The loop over the messages received; it does not end by itself. *)
Fixpoint handle_all (t : symtab_t) (maxfunc : Z) (ms : list FsState.msg_t) : M service_t unit :=
  match ms with [] => ret tt | m :: ms' => handle t maxfunc m ;;; handle_all t maxfunc ms' end.

(** The table of symbols and how many functions may be in it; nothing if there is none. *)
Definition prepare : M service_t (option (symtab_t * Z)) :=
  t <-- read_tables TEXT_ADDRESS ;;
  let t := if syment t =? 0 then t <| syment := SIZEOF_SYM |> else t in
  let maxfunc := u16 (u64 (sym_end t - sym t) / syment t) in
  ret (if (sym t =? 0) || (sym_end t =? 0) || (sym_end t <=? sym t) || (syment t <? 8) || (SHRT_MAX / 2 <=? maxfunc)
       then None else Some (t, maxfunc)).

Definition mq_dispatch (ms : list FsState.msg_t) : M service_t Z :=
  r <-- prepare ;;
  match r with
  | None => seterr ENOEXEC ;;; ret EX_SOFTWARE
  | Some (t, maxfunc) => handle_all t maxfunc ms ;;; loop
  end.

End Loop.
End Dispatch.
