(* ===== verification/DispatchFacts.v ===== *)
(** Correctness of the message loop of Dispatch.v: only functions the program exports are
    called, each once, with the arguments of its message and for its sender; what is
    answered, and to whom. *)
From Stdlib Require Import ZArith Lia List.
From stdpp Require Import base option list gmap.
From S2P Require Import Prelude CoreState LibcString LibcStringFacts FsState Answers Dispatch.
Import LibcString Dispatch.
#[local] Ltac Zify.zify_post_hook ::= Z.div_mod_to_equations.

Module DispatchFacts.

(** ** Reading the program's memory *)

Lemma load_list_at m p l : bytes_at m p l -> load_list p (length l) m = Ret l m.
Proof.
  revert p. induction l as [|b l IH]; intros p; [done|]. intros [Hb Hl]. cbn [length load_list].
  unfold load, bind at 1 2, get, need. rewrite Hb. unfold ret at 1. by rewrite (run_bind _ _ _ _ _ (IH _ Hl)).
Qed.

Lemma number_bytes n x : 0 <= x < 256 ^ Z.of_nat n -> fold_right (fun b x => b + 256 * x) 0 (bytes_of n x) = x.
Proof.
  revert x. induction n as [|n IH]; intros x Hx; [simpl in *; lia|].
  rewrite Nat2Z.inj_succ, Z.pow_succ_r in Hx by lia. set (k := 256 ^ Z.of_nat n) in *.
  cbn [bytes_of fold_right]. rewrite IH; rewrite Z.shiftr_div_pow2 by lia; change (2 ^ 8) with 256.
  - unfold u8, wrap. change (2 ^ 8) with 256. lia.
  - fold k. lia.
Qed.

Lemma word_at s p n x : bytes_at (sv_mem s) p (bytes_of n x) -> 0 <= x < 256 ^ Z.of_nat n -> word p n s = Ret x s.
Proof.
  intros Hb Hx. unfold word. pose proof (load_list_at _ _ _ Hb) as Hl.
  assert (length (bytes_of n x) = n) as Hn by (clear; revert x; induction n; intros x; [done|]; simpl; by rewrite IHn).
  rewrite Hn in Hl. by rewrite Hl, number_bytes.
Qed.

(** ** The table of symbols *)

Section Table.
Context (run : Z -> list Z -> M service_t (Z * Z)) (t : symtab_t) (maxfunc : Z) (syms : list (Z * Z)).

(** The symbols [syms], each its [st_info] and [st_value], are in memory where the table says. *)
Definition table_at (m : mem) : Prop :=
  maxfunc <= zlen syms /\ 0 <= sym t /\ 8 <= syment t /\
  forall i info v, zget syms i = Some (info, v) -> let p := sym t + i * syment t in
    p < 2 ^ 64 /\ 0 <= info < 256 /\ 0 <= v < 2 ^ 64 /\ m !! (p + 4) = Some info /\ bytes_at m (p + 8) (bytes_of 8 v).

Definition is_function (info : Z) : bool := (ELF64_ST_BIND info =? STB_GLOBAL) && (ELF64_ST_TYPE info =? STT_FUNC).
(** The address of function [func], if the program exports it. *)
Definition exports (func : Z) : option Z :=
  if (0 <? func) && (func <? maxfunc) then
    match zget syms func with Some (info, v) => if is_function info then Some (u64 (v + TEXT_ADDRESS)) else None | None => None end
  else None.

(** The call a message makes, if any. *)
Definition arguments (m : FsState.msg_t) : list Z :=
  [FsState.m_arg0 m; FsState.m_arg1 m; FsState.m_arg2 m; FsState.m_arg3 m; FsState.m_arg4 m; FsState.m_arg5 m].
Definition call_of (m : FsState.msg_t) : option (Z * list Z * Z) :=
  if MSG_ISRESP (FsState.m_evt m) then None else
  match exports (EVT_FUNC (FsState.m_evt m)) with Some f => Some (f, arguments m, EVT_SENDER (FsState.m_evt m)) | None => None end.

(** What may be answered to a message: nothing to a response; the error to a function that is
    not exported; at most one answer to a call. *)
Definition answered (m : FsState.msg_t) (l : list (list Z * Z * Z)) : Prop :=
  if MSG_ISRESP (FsState.m_evt m) then l = [] else
  match exports (EVT_FUNC (FsState.m_evt m)) with
  | None => exists ev, l = [([0; 0; EPERM; 0; 0; 0], ev, FsState.m_serial m)]
  | Some _ => l = [] \/ exists r0 r1 e ev, l = [([r0; r1; e; 0; 0; 0], ev, FsState.m_serial m)]
  end.

(** The functions of the program end, and leave its table of symbols as it is; what the
    dispatcher did is not theirs. *)
Definition well_behaved : Prop := forall f args s, table_at (sv_mem s) -> exists r s',
  run f args s = Ret r s' /\ table_at (sv_mem s') /\ called s' = called s /\ answers s' = answers s.

Hypothesis Hrun : well_behaved.

Lemma exported_ok s func : table_at (sv_mem s) -> 0 <= func < 2 ^ 14 ->
  exists r, exported t maxfunc func s = Ret r s /\
  match r with
  | Some p => exists v, exports func = Some (u64 (v + TEXT_ADDRESS)) /\ forall s1, sv_mem s1 = sv_mem s -> word (p + 8) 8 s1 = Ret v s1
  | None => exports func = None
  end.
Proof.
  intros (Hlen & Hsym & Hent & Hat) Hf. unfold exported, exports.
  destruct ((0 <? func) && (func <? maxfunc)) eqn:Hr; [|by exists None]. cbn [negb]. b2p.
  destruct (zget_is_Some syms func) as [[info v] Hg]; [lia|].
  destruct (Hat _ _ _ Hg) as (Hp & Hi & Hv & Hinfo & Hval). rewrite Hg.
  assert (u64 (sym t + u64 (func * syment t)) = sym t + func * syment t) as -> by (unfold u64, wrap; rewrite !Z.mod_small; nia).
  assert (word (sym t + func * syment t + 4) 1 s = Ret info s) as Hw.
  { apply word_at; [|simpl; lia]. split; [|done]. rewrite Hinfo. f_equal. symmetry. by apply u8_byte. }
  rewrite (run_bind _ _ _ _ _ Hw). fold (is_function info). destruct (is_function info); eexists; (split; [done|]); [|done].
  exists v. split; [done|]. intros s1 Hs1. apply word_at; [by rewrite Hs1|]. change (256 ^ Z.of_nat 8) with (2 ^ 64). done.
Qed.

Lemma perform_ok s m p v : table_at (sv_mem s) -> (forall s1, sv_mem s1 = sv_mem s -> word (p + 8) 8 s1 = Ret v s1) ->
  exists r s', perform run m p s = Ret r s' /\ table_at (sv_mem s') /\ answers s' = answers s /\ mq_caller s' = 0 /\
    called s' = called s ++ [(u64 (v + TEXT_ADDRESS), arguments m, EVT_SENDER (FsState.m_evt m))].
Proof.
  intros Ht Hw. unfold perform. unfold bind at 1, modify at 1.
  set (s1 := s <| mq_caller := EVT_SENDER (FsState.m_evt m) |> <| mq_ack := 1 |>).
  rewrite (run_bind _ _ _ _ _ (Hw s1 eq_refl)). unfold bind at 1, modify at 1. set (s2 := s1 <| called := called s1 ++ [(u64 (v + TEXT_ADDRESS), arguments m, mq_caller s1)] |>).
  destruct (Hrun (u64 (v + TEXT_ADDRESS)) (arguments m) s2 Ht) as (r & s3 & Hr & Ht3 & Hc3 & Ha3).
  unfold arguments in Hr. rewrite (run_bind _ _ _ _ _ Hr). unfold bind, modify, ret.
  exists r, (s3 <| mq_caller := 0 |>). split_and!; [done|done|exact Ha3|done|]. simpl. by rewrite Hc3.
Qed.

Lemma to_core e x : (x = 0 \/ x = MSG_PTRDATA) -> EVT_SENDER (Z.lor (Z.lor (Z.land e 0x3FFF) x) EVT_ack) = SRV_CORE.
Proof.
  intros Hx. unfold EVT_SENDER. rewrite !Z.shiftr_lor, Z.shiftr_land. change (Z.shiftr 0x3FFF 16) with 0.
  rewrite Z.land_0_r. by destruct Hx as [-> | ->].
Qed.

Lemma respond_ok s m r : exists s' l, respond m r s = Ret tt s' /\ sv_mem s' = sv_mem s /\ called s' = called s /\
  mq_caller s' = mq_caller s /\ answers s' = answers s ++ l /\
  Forall (fun a => EVT_SENDER (snd (fst a)) = SRV_CORE) l /\
  (l = [] /\ s32 (errn s) = 0 \/ exists ev, l = [([fst r; snd r; u64 (s32 (errn s)); 0; 0; 0], ev, FsState.m_serial m)]).
Proof.
  unfold respond, errno, bind, gets, ret. set (e := s32 (errn s)). destruct (negb (e =? 0) || negb (mq_ack s =? 0)) eqn:Hb; cbn [when].
  - unfold when, modify. eexists _, [_]. split_and!; try done.
    + constructor; [|done]. apply to_core. destruct ((mq_ack s =? 2) && (e =? 0)); [by right|by left].
    + right. by eexists.
  - exists s, []. b2p. rewrite app_nil_r. split_and!; try done. left. split; [done|lia].
Qed.

(** One message. *)
Lemma handle_ok s m : table_at (sv_mem s) -> exists s' l, handle run t maxfunc m s = Ret tt s' /\ table_at (sv_mem s') /\
  called s' = called s ++ from_option (fun c => [c]) [] (call_of m) /\ answers s' = answers s ++ l /\ answered m l /\
  Forall (fun a => EVT_SENDER (snd (fst a)) = SRV_CORE) l.
Proof.
  intros Ht. unfold handle, call_of, answered. destruct (MSG_ISRESP (FsState.m_evt m)) eqn:Hresp.
  { exists s, []. rewrite !app_nil_r. done. }
  unfold bind at 1, seterr at 1, modify at 1. set (s1 := s <| errn := SUCCESS |>).
  destruct (exported_ok s1 (EVT_FUNC (FsState.m_evt m)) Ht) as (r & He & Hr).
  { unfold EVT_FUNC. change 0x3FFF with (Z.ones 14). rewrite Z.land_ones by lia. apply Z.mod_pos_bound. lia. }
  rewrite (run_bind _ _ _ _ _ He). destruct r as [p|].
  - destruct Hr as (v & -> & Hw). destruct (perform_ok s1 m p v Ht Hw) as (r & s2 & Hp & Ht2 & Ha2 & _ & Hc2).
    rewrite (run_bind _ _ _ _ _ Hp). destruct (respond_ok s2 m r) as (s3 & l & -> & Hm3 & Hc3 & _ & Ha3 & Hl & Hcase).
    exists s3, l. rewrite Hm3, Hc3, Hc2, Ha3, Ha2. split_and!; try done.
    destruct Hcase as [[-> _]|[ev ->]]; [by left|]. right. by eexists _, _, _, _.
  - rewrite Hr. set (s2 := s1 <| errn := EPERM |>).
    assert (bind (seterr EPERM) (fun _ => ret (0, 0)) s1 = Ret (0, 0) s2) as Hs by done.
    rewrite (run_bind _ _ _ _ _ Hs). destruct (respond_ok s2 m (0, 0)) as (s3 & l & -> & Hm3 & Hc3 & _ & Ha3 & Hl & Hcase).
    exists s3, l. rewrite Hm3, Hc3, Ha3, app_nil_r. split_and!; try done.
    destruct Hcase as [[_ He0]|[ev ->]]; [done|]. by exists ev.
Qed.

End Table.

(** C34: a service that runs the message loop calls a function only if its table of symbols
    exports it, once for each message that asks for it and in the order of the messages,
    with the arguments of the message and its sender as [mq_caller].  Responses are passed
    over, a message for anything else is answered with an error, and a call is answered at
    most once, each answer with the serial of its message.  All answers are addressed to the
    core, not to the sender: it is cut off with the flags of the event. *)
Theorem dispatch_calls_exported run fuel t maxfunc syms ms s :
  well_behaved run t maxfunc syms -> prepare fuel s = Ret (Some (t, maxfunc)) s -> table_at t maxfunc syms (sv_mem s) ->
  exists s' replies,
    handle_all run t maxfunc ms s = Ret tt s' /\
    called s' = called s ++ omap (call_of maxfunc syms) ms /\
    Forall2 (answered maxfunc syms) ms replies /\ answers s' = answers s ++ concat replies /\
    Forall (fun a => EVT_SENDER (snd (fst a)) = SRV_CORE) (concat replies) /\
    mq_dispatch run fuel ms s = Loop.
Proof.
  intros Hrun Hprep Hat.
  assert (exists s' replies, handle_all run t maxfunc ms s = Ret tt s' /\ called s' = called s ++ omap (call_of maxfunc syms) ms /\
    Forall2 (answered maxfunc syms) ms replies /\ answers s' = answers s ++ concat replies /\
    Forall (fun a => EVT_SENDER (snd (fst a)) = SRV_CORE) (concat replies)) as (s' & replies & Hh & Hrest).
  { clear Hprep. revert s Hat. induction ms as [|m ms IH]; intros s Hat; cbn [handle_all omap list_omap].
    - exists s, []. cbn. by rewrite !app_nil_r.
    - destruct (handle_ok run t maxfunc syms Hrun s m Hat) as (s1 & l & H1 & Hat1 & Hc1 & Ha1 & Hl & Hcore).
      rewrite (run_bind _ _ _ _ _ H1). destruct (IH s1 Hat1) as (s2 & replies & H2 & Hc2 & Hans & Ha2 & Hcore2).
      exists s2, (l :: replies). rewrite Hc2, Hc1, Ha2, Ha1. cbn [concat]. split_and!; [done|..|by rewrite app_assoc|by apply Forall_app].
      + rewrite <- app_assoc. by destruct (call_of maxfunc syms m).
      + by constructor. }
  exists s', replies. destruct Hrest as (Hc & Hf2 & Ha & Hcore). split_and!; try done.
  unfold mq_dispatch. rewrite (run_bind _ _ _ _ _ Hprep). by rewrite (run_bind _ _ _ _ _ Hh).
Qed.

(** ** An instance: a program with three symbols, of which the second may be called *)

Definition words (l : list (Z * Z)) : list Z := concat (map (fun '(n, x) => bytes_of (Z.to_nat n) x) l).
(** The header, the program headers, the dynamic section and the symbols *)
Definition program : list Z :=
  words [(32, 0); (8, 64); (14, 0); (2, 56)] ++ repeat 0 128 ++ words [(4, 200); (12, 0)] ++
  words [(8, 6); (8, 264); (8, 5); (8, 336); (8, 11); (8, 24); (8, 0); (8, 0)] ++
  words [(24, 0); (4, 1); (1, 0x12); (3, 0); (8, 100); (8, 9); (4, 5); (1, 2); (3, 0); (8, 200); (8, 9)].
Definition memory : mem := list_to_map (zip (map (fun i => TEXT_ADDRESS + Z.of_nat i) (seq 0 (length program))) program).
Definition table : symtab_t := mk_symtab (TEXT_ADDRESS + 264) (TEXT_ADDRESS + 336) 24.
Definition symbols : list (Z * Z) := [(0, 0); (0x12, 100); (2, 200)].
(** Every function answers its first argument and the task it works for. *)
Definition first (f : Z) (args : list Z) : M service_t (Z * Z) := fun s => Ret (nth 0 args 0, mq_caller s) s.
Definition asks (pid func flags a serial : Z) : FsState.msg_t := FsState.mk_msg (Z.lor (EVT_DEST pid) (Z.lor func flags)) a 0 0 0 0 0 serial [].
Definition three : list FsState.msg_t := [asks 6 1 0 40 11; asks 7 2 0 50 12; asks 8 1 MSG_RESPONSED 60 13].
Definition service : service_t := mk_service memory 0 0 0 [] [].

Lemma in_memory : table_at table 3 symbols memory.
Proof.
  split_and!; [done..|]. intros i info v Hg. pose proof (zget_Some_lt _ _ _ Hg) as Hi. change (zlen symbols) with 3 in Hi.
  assert (i = 0 \/ i = 1 \/ i = 2) as [-> |[-> | ->]] by lia; injection Hg as <- <-; cbn zeta; split_and!; try lia; by vm_compute.
Qed.

Lemma dispatch_calls_exported_witness :
  omap (call_of 3 symbols) three = [(TEXT_ADDRESS + 100, [40; 0; 0; 0; 0; 0], 6)] /\
  (exists s' replies,
    handle_all first table 3 three service = Ret tt s' /\
    called s' = called service ++ omap (call_of 3 symbols) three /\
    Forall2 (answered 3 symbols) three replies /\ answers s' = answers service ++ concat replies /\
    Forall (fun a => EVT_SENDER (snd (fst a)) = SRV_CORE) (concat replies) /\
    mq_dispatch first 9 three service = Loop).
Proof.
  split; [by vm_compute|]. apply dispatch_calls_exported.
  - intros f args s Ht. by eexists _, s.
  - by vm_compute.
  - apply in_memory.
Defined.

End DispatchFacts.
