(* ===== verification/Mkfs.v ===== *)
(** The image creator, tools/mkfs.c: FS/Z images built from a directory tree, and the
    commands that change or read an image, on the disk format of include/osZ/fsZ.h.

    The files of the host are values: [readfileall] gives the contents of a file, unpacked.
    The messages of the tool and their language are left out. *)
From Stdlib Require Import ZArith Lia List String.
From stdpp Require Import base option list.
From S2P Require Import Prelude Bytes Crc32 Initrd.

Module Mkfs.
Import Initrd.

(** A literal as bytes. *)
Definition str (s : string) : list Z := List.map (fun c => Z.of_nat (Ascii.nat_of_ascii c)) (list_ascii_of_string s).

Definition FSZ_SECSIZE : Z := 4096.
Definition secsize : Z := FSZ_SECSIZE.
Definition FSZ_VERSION_MAJOR : Z := 1.
Definition FSZ_VERSION_MINOR : Z := 0.
Definition FSZ_SB_SOFTRAID_NONE : Z := 0xff.
Definition FSZ_READ : Z := 1.
Definition FSZ_WRITE : Z := 2.
Definition FSZ_EXEC : Z := 4.
Definition FSZ_DELETE : Z := 16.
Definition FSZ_FILETYPE_DIR : list Z := str "dir:".
Definition FSZ_MIMETYPE_DIR_ROOT : list Z := str "fs-root".

(** The image under construction, the bytes allocated for it, and whether it is an initrd. *)
Record mkfs_t : Type := mk_mkfs { fs : list Z; size : Z; initrd : bool }.
#[export] Instance eta_mkfs_t : Eta mkfs_t := fun s => mk_mkfs (fs s) (size s) (initrd s).
Definition set_fs (v : list Z) (s : mkfs_t) : mkfs_t := s <| fs := v |>.
Definition set_size (v : Z) (s : mkfs_t) : mkfs_t := s <| size := v |>.
Definition set_initrd (v : bool) (s : mkfs_t) : mkfs_t := s <| initrd := v |>.

(** ** Bytes *)

Definition load (o n : Z) : M mkfs_t (list Z) :=
  l <-- gets fs ;; if (0 <=? o) && (0 <=? n) && (o + n <=? zlen l) then ret (slice o n l) else ub.
Definition store (o : Z) (l : list Z) : M mkfs_t unit :=
  b <-- gets fs ;; if (0 <=? o) && (o + zlen l <=? zlen b) then modify (set_fs (poke o l b)) else ub.
Definition get_word (n : nat) (o : Z) : M mkfs_t Z := l <-- load o (Z.of_nat n) ;; ret (of_le l).
Definition put_word (n : nat) (o v : Z) : M mkfs_t unit := store o (le n v).

(** A string up to its terminator, which must be there. *)
Fixpoint cstring (l : list Z) : option (list Z) :=
  match l with [] => None | c :: l => if c =? 0 then Some [] else cons c <$> cstring l end.

(** [!strncmp(a, b, n)]: [a] in memory, [b] a string; both are compared up to a terminator. *)
Fixpoint strneq (n : nat) (a b : list Z) : option bool :=
  match n, a with
  | O, _ => Some true
  | _, [] => None
  | S n, x :: a => match b with
                   | [] => Some (x =? 0)
                   | y :: b => if x =? y then strneq n a b else Some false
                   end
  end.

(** [strcasecmp], as the order of the names of two entries. *)
Definition tolower (c : Z) : Z := if (65 <=? c) && (c <=? 90) then c + 32 else c.
Fixpoint strcasecmp (a b : list Z) : Z :=
  match a, b with
  | [], [] => 0
  | [], y :: _ => - tolower y
  | x :: _, [] => tolower x
  | x :: a, y :: b => if tolower x =? tolower y then (if x =? 0 then 0 else strcasecmp a b) else tolower x - tolower y
  end.
Definition ent_text (e : list Z) : list Z := drop 17 e.
Definition direntcmp (a b : list Z) : Z := strcasecmp (ent_text a) (ent_text b).

Fixpoint chunks (n : nat) (l : list Z) : list (list Z) :=
  match n with O => [] | S n => take 128 l :: chunks n (drop 128 l) end.

Section Ops.
(** The host: the time, the identifier of the image, whether an allocation succeeds, and
    the sort of its library. *)
Context (ts : Z) (uuid : list Z) (room : Z -> bool) (qsort : list (list Z) -> list (list Z)).

(** [fs=realloc(fs, n)], and the new bytes cleared. *)
Definition resize_fs (n : Z) : M mkfs_t unit :=
  if room n then modify (fun s => set_fs (take (Z.to_nat n) (fs s) ++ zeros (n - zlen (fs s))) s) else stop 4.
Definition clear (o n : Z) : M mkfs_t unit := store o (zeros n).

(** [ptr->checksum=crc32a_calc(...)] over the [n] bytes from [from] on. *)
Definition put_checksum (at_ from n : Z) : M mkfs_t unit := l <-- load from n ;; put_word 4 at_ (Crc32.crc32a_calc l).
Definition in_checksum (in_ : Z) : M mkfs_t unit := put_checksum (in_ + 4) (in_ + 8) 1016.

(** An encrypted image is not changed. *)
Definition not_encrypted : M mkfs_t unit := e <-- get_word 4 708 ;; when (negb (e =? 0)) (stop 2).

Definition grow : M mkfs_t unit := modify (fun s => set_size (s32 (size s + secsize)) s).

Definition add_superblock : M mkfs_t unit :=
  o <-- gets size ;;
  resize_fs (u32 (o + secsize)) ;;; clear o secsize ;;;
  store (o + 512) FSZ_MAGIC ;;;
  store (o + 760) (str "root") ;;;
  put_word 1 (o + 516) FSZ_VERSION_MAJOR ;;;
  put_word 1 (o + 517) FSZ_VERSION_MINOR ;;;
  put_word 1 (o + 519) FSZ_SB_SOFTRAID_NONE ;;;
  put_word 2 (o + 520) (if secsize =? 2048 then 0 else if secsize =? 4096 then 1 else 2) ;;;
  put_word 2 (o + 522) (secsize / 512) ;;;
  put_word 2 (o + 524) 255 ;;;
  put_word 2 (o + 526) 0 ;;;
  put_word 8 (o + 736) ts ;;; put_word 8 (o + 712) ts ;;;
  store (o + 744) (take 16 (uuid ++ zeros 16)) ;;;
  store (o + 1016) FSZ_MAGIC ;;;
  grow.

(** The members of an union end at two zeros. *)
Fixpoint union_scan (n : nat) (i : Z) (l : list Z) : option Z :=
  match n, l with
  | O, _ => Some i
  | S n, a :: (b :: _) as l' => if (a =? 0) && (b =? 0) then Some i else union_scan n (i + 1) (tail l')
  | S _, _ => None
  end.
Definition union_length (j : Z) (m : list Z) : option Z := (fun i => i + 1) <$> union_scan (Z.to_nat (j - 1)) 1 m.

(** The directory in a new inode, without entries. *)
Definition empty_dir (in_ : Z) : M mkfs_t unit :=
  put_word 8 (in_ + 448) (in_ / secsize) ;;;
  put_word 8 (in_ + 488) FSZ_IN_FLAG_INLINE ;;;
  put_word 8 (in_ + 464) SIZEOF_DIRENT ;;;
  store (in_ + 1024) FSZ_DIR_MAGIC ;;;
  n <-- get_word 8 (in_ + 1040) ;;
  put_checksum (in_ + 1028) (in_ + 1024 + SIZEOF_DIRENT) (n * SIZEOF_DIRENT).

(** The MIME type, or the target of a link or the members of an union; [mimetype] is the
    memory from its start on. *)
Definition put_mimetype (filetype : list Z) (mimetype : option (list Z)) (in_ : Z) : M mkfs_t unit :=
  let ty t := bool_decide (filetype = t) in
  let j := if ty FSZ_FILETYPE_SYMLINK || ty FSZ_FILETYPE_UNION then secsize - 1024 else 36 in
  match mimetype with
  | None => ret tt
  | Some m =>
      i <-- need (if ty FSZ_FILETYPE_UNION then union_length j m else zlen <$> cstring m) ;;
      let n := if j <? i then j else i in
      if zlen m <? n then ub else
      store (if j =? 36 then in_ + 12 else in_ + 1024) (take (Z.to_nat n) m) ;;;
      when (negb (j =? 36)) (put_word 8 (in_ + 464) i)
  end.

Definition add_inode (filetype : list Z) (mimetype : option (list Z)) : M mkfs_t Z :=
  let ty t := bool_decide (filetype = t) in
  not_encrypted ;;;
  in_ <-- gets size ;;
  resize_fs (u32 (in_ + secsize)) ;;; clear in_ secsize ;;;
  store in_ FSZ_IN_MAGIC ;;;
  store (in_ + 496) (str "root" ++ [0]) ;;;
  put_word 1 (in_ + 511) (Z.lor (Z.lor FSZ_READ (Z.lor FSZ_WRITE FSZ_DELETE)) (if ty FSZ_FILETYPE_DIR || ty FSZ_FILETYPE_UNION then FSZ_EXEC else 0)) ;;;
  store (in_ + 8) (take 4 filetype) ;;;
  when (ty FSZ_FILETYPE_DIR) (empty_dir in_) ;;;
  put_mimetype filetype mimetype in_ ;;;
  put_word 8 (in_ + 80) ts ;;; put_word 8 (in_ + 480) ts ;;;
  in_checksum in_ ;;;
  grow ;;;
  n <-- gets size ;; ret (n / secsize - 1).

(** ** Linking *)

(** The length of the first member of a path, and how many entries a directory holds. *)
Fixpoint member (path : list Z) : Z :=
  match path with [] => 0 | c :: l => if c =? SLASH then 0 else 1 + member l end.
Definition MAXENT : Z := (secsize - 1024) / 128 - 1.

(** The loop over the entries: the inode of the one that begins with the member and what
    follows it, or the place behind the last one. *)
Definition scan_round (path : list Z) : Z * Z -> M mkfs_t (Z * Z + Z * option Z) := fun '(ent, cnt) =>
  fid <-- get_word 8 ent ;;
  if (fid =? 0) || (MAXENT <=? cnt) then ret (inr (ent, None)) else
  b <-- gets fs ;;
  m <-- need (strneq (Z.to_nat (member path + 1)) (drop (Z.to_nat (ent + 17)) b) (take (Z.to_nat (member path + 1)) path)) ;;
  ret (if (m : bool) then inr (ent, Some fid) else inl (ent + SIZEOF_DIRENT, cnt + 1)).
Definition scan (path : list Z) (hdr : Z) : M mkfs_t (Z * option Z) := iter 25 (scan_round path) (hdr + SIZEOF_DIRENT, 0).

(** The new entry at [ent], for the inode at [in2]. *)
Definition put_entry (inode : Z) (path : list Z) (in2 ent : Z) : M mkfs_t unit :=
  put_word 8 ent inode ;;;
  put_word 1 (ent + 16) (zlen path) ;;;
  store (ent + 17) path ;;;
  t <-- load (in2 + 8) 4 ;;
  when (bool_decide (t = FSZ_FILETYPE_DIR))
    (l <-- get_word 1 (ent + 16) ;; store (ent + 17 + l) [SLASH] ;;; put_word 1 (ent + 16) (l + 1)).

(** The entry is counted, and the directory sorted. *)
Definition new_entry (inode : Z) (path : list Z) (toinode hdr ent : Z) : M mkfs_t unit :=
  let in_ := u32 (toinode * secsize) in
  let in2 := u32 (inode * secsize) in
  put_entry inode path in2 ent ;;;
  n <-- get_word 8 (hdr + 16) ;;
  when ((secsize - 1024 - SIZEOF_DIRENT) / SIZEOF_DIRENT <=? n) (stop 1) ;;;
  put_word 8 (hdr + 16) (n + 1) ;;;
  put_word 8 (in_ + 480) ts ;;;
  z <-- get_word 8 (in_ + 464) ;; put_word 8 (in_ + 464) (z + SIZEOF_DIRENT) ;;;
  ents <-- load (hdr + SIZEOF_DIRENT) ((n + 1) * SIZEOF_DIRENT) ;;
  store (hdr + SIZEOF_DIRENT) (concat (qsort (chunks (Z.to_nat (n + 1)) ents))) ;;;
  put_checksum (hdr + 4) (hdr + SIZEOF_DIRENT) ((n + 1) * SIZEOF_DIRENT) ;;;
  in_checksum in_ ;;;
  k <-- get_word 8 (in2 + 104) ;; put_word 8 (in2 + 104) (k + 1) ;;;
  in_checksum in2.

(** Behind the terminator of the path there is nothing to read. *)
Fixpoint link_from (fuel : nat) (inode : Z) (path : list Z) (toinode : Z) : M mkfs_t unit :=
  match fuel with
  | O => loop
  | S fuel =>
      not_encrypted ;;;
      toinode <-- (if toinode =? 0 then get_word 8 560 else ret toinode) ;;
      let hdr := u32 (toinode * secsize) + 1024 in
      do2 ent found <-- scan path hdr ;;
      match found with
      | Some fid => if zlen path <=? member path then ub else link_from fuel inode (drop (Z.to_nat (member path + 1)) path) (s32 fid)
      | None => new_entry (s32 inode) path (s32 toinode) hdr ent
      end
  end.
Definition link_inode (inode : Z) (path : list Z) (toinode : Z) : M mkfs_t unit := link_from (S (length path)) inode path toinode.

(** ** Files *)

Definition starts (l m : list Z) : bool := bool_decide (take (length m) l = m).
Definition ends (name : list Z) (m : string) : bool :=
  let n := zlen name - zlen (str m) in (0 <=? n) && bool_decide (drop (Z.to_nat n) name = str m).

(** What the end of a name says: the types that are written, and the right to execute.  A
    name that is shorter than an end has a slash in front of it, so it does not match. *)
Definition kinds : list (list string * string * string * bool) :=
  [([".h"; ".c"; ".md"; ".txt"; ".conf"], "plain", "text", false);
   ([".sh"], "shellscript", "text", true);
   ([".htm"; ".html"], "html", "text", false);
   ([".css"], "stylesheet", "text", false);
   ([".svg"], "svg", "imag", false);
   ([".gif"], "gif", "imag", false);
   ([".png"], "png", "imag", false);
   ([".jpg"], "jpeg", "imag", false);
   ([".bmp"], "bitmap", "imag", false);
   ([".sfn"], "ssfont", "font", false);
   ([".psf"], "pc-screen-font", "font", false);
   ([".ttf"], "sfnt", "font", false)]%string.

Definition put_mime (in_ : Z) (m : string) : M mkfs_t unit := store (in_ + 12) (zeros 36) ;;; store (in_ + 12) (str m).
Definition put_type (in_ : Z) (m : string) : M mkfs_t unit := store (in_ + 8) (str m).
Definition executable (in_ : Z) : M mkfs_t unit := a <-- get_word 1 (in_ + 511) ;; put_word 1 (in_ + 511) (Z.lor a FSZ_EXEC).

(** [n] bytes of [data]; there are zeros behind them.  The comparison with "\000asm" ends at
    its first byte, a terminator. *)
Definition classify (in_ : Z) (name data : list Z) (n : Z) : M mkfs_t unit :=
  when (starts (drop 1 data) (str "ELF") || starts data (str "OS/Z") || starts data (str "CSBC") || (default 0 (zget data 0) =? 0))
    (put_mime in_ "executable" ;;; executable in_) ;;;
  if ends name ".so" then put_mime in_ "sharedlib" else
  match List.find (fun k => existsb (ends name) k.1.1.1) kinds with
  | Some (_, m, t, x) => put_mime in_ m ;;; put_type in_ t ;;; when x (executable in_)
  | None =>
      if ends name ".m3d" then put_mime in_ "3d-model" ;;; put_type in_ (if default 0 (zget data 1) =? 100 then "text" else "mode") else
      when (forallb (fun c => 9 <=? c) (take (Z.to_nat n) data)) (put_mime in_ "plain" ;;; put_type in_ "text")
  end.

(** The sectors [i] up to the last of [n] ones behind a sector directory at [ptr]; [k] is
    the next sector of the image, [s] what the image grows by. *)
Fixpoint fill_sectors (n : nat) (in_ : Z) (data : list Z) (read_size l i ptr k s : Z) : M mkfs_t Z :=
  match n with
  | O => ret s
  | S n =>
      ini <-- gets initrd ;;
      if ini || negb (bool_decide (slice (i * secsize) secsize data = zeros secsize)) then
        put_word 4 ptr k ;;;
        o <-- gets size ;;
        store (o + (i + l) * secsize) (slice (i * secsize) (if read_size <? (i + l) * secsize then read_size mod secsize else secsize) data) ;;;
        b <-- get_word 8 (in_ + 96) ;; put_word 8 (in_ + 96) (b + 1) ;;;
        fill_sectors n in_ data read_size l (i + 1) (ptr + 16) (k + 1) s
      else fill_sectors n in_ data read_size l (i + 1) (ptr + 16) k (s - secsize)
  end.

(** The place of the data, and how many bytes the image grows by. *)
Definition put_data (inode : Z) (data : list Z) (n s : Z) : M mkfs_t Z :=
  let in_ := inode * secsize in
  o <-- gets size ;;
  if n <=? secsize - 1024 then
    put_word 8 (in_ + 448) inode ;;; put_word 8 (in_ + 488) FSZ_IN_FLAG_INLINE ;;; put_word 8 (in_ + 96) 0 ;;;
    store (in_ + 1024) (take (Z.to_nat n) data) ;;; ret 0
  else
    put_word 8 (in_ + 448) (o / secsize) ;;;
    if secsize <? n then
      let j := s / secsize in
      if secsize <? j * 16 then stop 5 else
      let sd := negb (j * 16 <=? secsize - 1024) in
      let l := if sd then 1 else 0 in
      put_word 8 (in_ + 488) (if sd then FSZ_IN_FLAG_SD else FSZ_IN_FLAG_SDINLINE) ;;; put_word 8 (in_ + 96) l ;;;
      s <-- fill_sectors (Z.to_nat j) in_ data n l 0 (if sd then o else in_ + 1024) (inode + 1 + l) s ;;
      when sd grow ;;; ret s
    else
      put_word 8 (in_ + 488) FSZ_IN_FLAG_DIRECT ;;;
      if negb (bool_decide (take (Z.to_nat secsize) data = zeros secsize)) then
        put_word 8 (in_ + 96) 1 ;;; store o (take (Z.to_nat n) data) ;;; ret s
      else put_word 8 (in_ + 448) 0 ;;; put_word 8 (in_ + 96) 0 ;;; ret s.

(** A boot sector keeps its place. *)
Definition boots (data : list Z) : bool :=
  let at_ i := default 0 (zget data i) in
  (at_ 0 =? 0x55) && (at_ 1 =? 0xAA) && (at_ 3 =? 0xE9) && (at_ 8 =? 66) && (at_ 12 =? 66).

Definition add_file (name : list Z) (contents : option (list Z)) : M mkfs_t unit :=
  contents <-- match contents with Some c => ret c | None => stop 5 end ;;
  let read_size := zlen contents in
  let data := contents ++ zeros (secsize + 1) in
  let s := (read_size + secsize - 1) / secsize * secsize in
  inode <-- add_inode (if boots data then str "boot" else str "application") (Some (str "octet-stream" ++ [0])) ;;
  o <-- gets size ;;
  resize_fs (o + s + secsize) ;;; clear o (s + secsize) ;;;
  let in_ := inode * secsize in
  put_word 8 (in_ + 80) ts ;;; put_word 8 (in_ + 480) ts ;;; put_word 8 (in_ + 464) read_size ;;;
  s <-- put_data inode data read_size s ;;
  classify in_ name data read_size ;;;
  in_checksum in_ ;;;
  modify (fun st => set_size (s32 (size st + s)) st) ;;;
  link_inode inode name 0.

(** ** Directories of the host, in the order they are read in *)

Inductive node : Type :=
| Reg (contents : option (list Z))
| Lnk (target : option (list Z))
| Sub (entries : list (list Z * node))
| Other.

(** [readlink] into a buffer, which the terminator follows. *)
Definition linked (target : option (list Z)) : option (list Z) :=
  t ← target; let t := take (Z.to_nat (secsize - 1024 - 1)) t in Some (t ++ [0]).

Fixpoint add_node (dirname : list Z) (parent level : Z) (d_name : list Z) (x : node) : M mkfs_t unit :=
  if bool_decide (d_name = str ".") || bool_decide (d_name = str "..") then ret tt else
  let full := dirname ++ [SLASH] ++ d_name in
  let name := drop (Z.to_nat parent) full in
  if 4096 <=? zlen full then ub else
  match x with
  | Sub entries =>
      i <-- add_inode FSZ_FILETYPE_DIR None ;;
      link_inode i name 0 ;;;
      if 4 <? level + 1 then ret tt else
      not_encrypted ;;;
      if negb (room 4096) then ub else
      (fix go (l : list (list Z * node)) : M mkfs_t unit :=
         match l with [] => ret tt | (d, x) :: l => add_node full parent (level + 1) d x ;;; go l end) entries
  | Reg contents => if bool_decide (name = str "sys/core") then ret tt else add_file name contents
  | Lnk target =>
      if negb (room (secsize - 1024)) then ub else
      t <-- need (linked target) ;;
      i <-- add_inode FSZ_FILETYPE_SYMLINK (Some t) ;; link_inode i name 0
  | Other => ret tt
  end.

(** [add_dirs] of the directory on the command line, which may be missing. *)
Fixpoint add_nodes (dirname : list Z) (parent level : Z) (l : list (list Z * node)) : M mkfs_t unit :=
  match l with [] => ret tt | (d, x) :: l => add_node dirname parent level d x ;;; add_nodes dirname parent level l end.
Definition add_dirs (dirname : list Z) (entries : option (list (list Z * node))) : M mkfs_t unit :=
  not_encrypted ;;;
  if negb (room 4096) then ub else
  match entries with Some l => add_nodes dirname (zlen dirname + 1) 0 l | None => ret tt end.

(** The contents of the new image. *)
Definition createimage (dir : list Z) (core : option (list Z)) (entries : option (list (list Z * node))) : M mkfs_t (list Z) :=
  modify (set_initrd ((7 <? zlen dir) && bool_decide (drop (Z.to_nat (zlen dir - 6)) dir = str "initrd"))) ;;;
  (if room secsize then modify (set_fs (zeros secsize)) else stop 3) ;;;
  modify (set_size 0) ;;;
  add_superblock ;;;
  root <-- add_inode FSZ_FILETYPE_DIR (Some (FSZ_MIMETYPE_DIR_ROOT ++ [0])) ;;
  put_word 8 560 root ;;;
  k <-- get_word 8 (secsize + 104) ;; put_word 8 (secsize + 104) (k + 1) ;;;
  in_checksum secsize ;;;
  ini <-- gets initrd ;;
  when ini (add_file (str "sys/core") core) ;;;
  add_dirs dir entries ;;;
  n <-- gets size ;;
  put_word 8 528 (n / secsize) ;;; put_word 8 544 (n / secsize) ;;;
  put_checksum 1020 512 508 ;;;
  load 0 n.

(** ** Images that are there *)

(** Where [locate] finds a path: the place of its inode.  [path+ns+1] is not behind the
    terminator, since the entry goes on with a slash there. *)
Definition locate_round (path : list Z) : Z * Z -> M mkfs_t (Z * Z + option (Z * bool)) := fun '(ent, cnt) =>
  fid <-- get_word 8 ent ;;
  if (fid =? 0) || (MAXENT <=? cnt) then ret (inr None) else
  b <-- gets fs ;;
  let ns := member path in
  let name := drop (Z.to_nat (ent + 17)) b in
  m <-- need (strneq (Z.to_nat (ns + 1)) name (take (Z.to_nat (ns + 1)) path)) ;;
  if (m : bool) then ret (inr (Some (fid, zlen path =? ns))) else
  p <-- need (strneq (Z.to_nat ns) name (take (Z.to_nat ns) path)) ;;
  c <-- (if (p : bool) && (zlen path =? ns) then get_word 1 (ent + 17 + ns) else ret 0) ;;
  ret (if c =? SLASH then inr (Some (fid, true)) else inl (ent + SIZEOF_DIRENT, cnt + 1)).

Fixpoint locate_from (fuel : nat) (inode : Z) (path : list Z) : M mkfs_t (option Z) :=
  match fuel with
  | O => loop
  | S fuel =>
      root <-- get_word 8 560 ;;
      let d := u64 ((if inode =? 0 then root else inode) * secsize) + 1024 in
      let below (path : list Z) : M mkfs_t (option Z) :=
        r <-- iter 25 (locate_round path) (d + SIZEOF_DIRENT, 0) ;;
        match r with
        | None => ret None
        | Some (fid, true) => ret (Some (u64 (fid * secsize)))
        | Some (fid, false) => locate_from fuel (s32 fid) (drop (Z.to_nat (member path + 1)) path)
        end in
      match path with
      | [] => ret (Some (u32 (inode * secsize)))
      | c :: l => if c =? SLASH then match l with [] => ret (Some (u64 (root * secsize))) | _ => below l end else below path
      end
  end.
Definition locate (inode : Z) (path : list Z) : M mkfs_t (option Z) := locate_from (S (length path)) inode path.

(** An image that is read from a file; the size of a new one is that of the file. *)
Definition load_image (data : option (list Z)) : M mkfs_t unit :=
  match data with
  | Some d => modify (fun s => set_fs (d ++ zeros (secsize + 1)) (set_size (s32 (zlen d)) s))
  | None => stop 2
  end.
Definition image_now : M mkfs_t (list Z) := n <-- gets size ;; load 0 n.

(** [mkfs image union path members...], [link] and [symlink]: the new contents. *)
Definition addunion (data : option (list Z)) (path : list Z) (members : list (list Z)) : M mkfs_t (list Z) :=
  let items := flat_map (fun m => m ++ [0]) members in
  if 8192 <? zlen items then ub else
  load_image data ;;; not_encrypted ;;;
  i <-- add_inode FSZ_FILETYPE_UNION (Some (items ++ zeros (8192 - zlen items))) ;;
  if 8192 <=? zlen path then ub else
  c <-- need (last path) ;;
  link_inode i (if c =? SLASH then path else path ++ [SLASH]) 0 ;;; image_now.
Definition addlink (data : option (list Z)) (path target : list Z) : M mkfs_t (list Z) :=
  load_image data ;;; not_encrypted ;;;
  f <-- locate 0 target ;;
  in_ <-- match f with Some i => ret i | None => stop 2 end ;;
  link_inode (in_ / secsize) path 0 ;;; image_now.
Definition addsymlink (data : option (list Z)) (path target : list Z) : M mkfs_t (list Z) :=
  load_image data ;;; not_encrypted ;;;
  i <-- add_inode FSZ_FILETYPE_SYMLINK (Some (target ++ [0])) ;;
  link_inode i path 0 ;;; image_now.

(** An Option ROM with the image in it, in a new block with the bytes [buf] in it. *)
Definition initrdrom (buf data : list Z) : list Z :=
  let n := zlen data in
  let buf := poke 0 [0x55; 0xAA; u8 ((n + 32 + 511) / 512); 0x31; 0xC0; 0xCB] buf in
  let buf := poke 32 data (poke 16 (le 4 n) (poke 8 (str "INITRD") buf)) in
  let c := u8 (fold_left Z.add (take (Z.to_nat ((n + 32 + 511) / 512 * 512)) buf) 0) in
  poke 6 [u8 (256 - c)] buf.

End Ops.
End Mkfs.
