(* ===== verification/Mkdisk.v ===== *)
(** Disks put together from images of partitions, tools/mkfs.c: the boot record, the table of
    partitions (GPT) with its copy, the descriptors of a CD-ROM, and the partitions.

    The files of the host are values; [None] is a file that is not there.  A wide character of
    the host has four bytes. *)
From Stdlib Require Import ZArith Lia List String.
From stdpp Require Import base option list.
From S2P Require Import Prelude Bytes Crc32 Initrd Mkfs.

Module Mkdisk.
Import Mkfs.

(** The image of each partition, and the first stage of the loader. *)
Record files_t : Type := mk_files {
  stage1 : option (list Z); espfile : option (list Z); sys1file : option (list Z); sys2file : option (list Z);
  usr1file : option (list Z); usr2file : option (list Z); varfile : option (list Z); homefile : option (list Z) }.
#[export] Instance eta_files : Eta files_t := fun x =>
  mk_files (stage1 x) (espfile x) (sys1file x) (sys2file x) (usr1file x) (usr2file x) (varfile x) (homefile x).
(** The date in UTC. *)
Record tm_t : Type := mk_tm { tm_year : Z; tm_mon : Z; tm_mday : Z; tm_hour : Z; tm_min : Z; tm_sec : Z }.

Definition read_size (f : option (list Z)) : Z := match f with Some d => zlen d | None => 0 end.
(** The contents of a file as they are in memory. *)
Definition readfileall (f : option (list Z)) : option (list Z) := (fun d => d ++ zeros (secsize + 1)) <$> f.

(** Assignments to a block, in the order of the code. *)
Definition writes (ws : list (Z * list Z)) (b : list Z) : list Z := fold_left (fun b w => poke w.1 w.2 b) ws b.
Definition getint (o : Z) (b : list Z) : Z := s32 (of_le (slice o 4 b)).
Definition setint (val o : Z) : Z * list Z := (o, le 4 val).
Definition setinte (val o : Z) : Z * list Z := (o, le 4 val ++ rev (le 4 val)).
Definition byte (o v : Z) : Z * list Z := (o, [u8 v]).
Definition wide (s : list Z) : list Z := flat_map (le 4) (s ++ [0]).

Definition uuid : Z := 0x12345678.

(** ** Boot code *)

(** The marks of the second stage of the loader, one after the other. *)
Fixpoint marked (b : list Z) (i : Z) (l : list (Z * Z)) : option bool :=
  match l with
  | [] => Some true
  | (k, c) :: l => match zget b (i + k) with None => None | Some x => if x =? c then marked b i l else Some false end
  end.
Definition marks : list (Z * Z) := [(0, 0x55); (1, 0xAA); (3, 0xE9); (8, 66); (12, 66)].
(** The first sector of [n] bytes with the marks; a read behind the block has no result. *)
Fixpoint find_boot (fuel : nat) (b : list Z) (n i : Z) : option (option Z) :=
  match fuel with
  | O => None
  | S fuel =>
      if i <? u64 (n - 512) then
        match marked b i marks with
        | None => None
        | Some true => Some (Some i)
        | Some false => find_boot fuel b n (i + 512)
        end
      else Some None
  end.
Definition search_boot (f : option (list Z)) : option (option Z) :=
  match readfileall f with
  | Some b => if 0 <? read_size f then find_boot (Z.to_nat (zlen b / 512) + 2) b (read_size f) 0 else Some None
  | None => Some None
  end.

(** The size of the table and its header. *)
Definition gs (neediso : bool) : Z := (if neediso then 63 else 7) * 512.
(** The sector of the second stage on the disk: in the boot partition, or in the system. *)
Definition stage2 (neediso : bool) (x : files_t) : option Z :=
  let first := if neediso then 65536 else gs neediso + 512 in
  match search_boot (espfile x) with
  | None => None
  | Some (Some i) => Some ((i + first) / 512)
  | Some None =>
      match search_boot (sys1file x) with
      | None => None
      | Some (Some i) => Some ((i + first + read_size (espfile x)) / 512)
      | Some None => Some 0
      end
  end.

(** The first stage, with the sector of the second one. *)
Definition loader (bbs : Z) (x : files_t) : list Z :=
  let b := match readfileall (stage1 x) with Some b => poke 0x1B8 (zeros (0x1FE - 0x1B8)) b | None => zeros 512 end in
  writes [setint bbs 0x1B0; byte 0x1FE 0x55; byte 0x1FF 0xAA] b.

(** The loader at the start of a partition too; the fields of a FAT are kept. *)
Definition copy_vbr (b : list Z) (x : files_t) : option files_t :=
  let keep f c := take (Z.to_nat (read_size f)) <$> c in
  if default 0 (zget b 0) =? 0 then Some x else
  if 0 <? read_size (espfile x) then
    Some (x <| espfile := keep (espfile x) (writes [(0, slice 0 11 b); (0x5A, slice 0x5A (512 - 0x5A) b)] <$> readfileall (espfile x)) |>)
  else if 0 <? read_size (sys1file x) then
    Some (x <| sys1file := keep (sys1file x) (poke 0 (slice 0 512 b) <$> readfileall (sys1file x)) |>)
  else match readfileall (usr1file x) with
       | Some c => Some (x <| usr1file := keep (usr1file x) (Some (poke 0 (slice 0 512 b) c)) |>)
       | None => None
       end.

(** The table of the boot record. *)
Definition mbr (neediso : bool) (x : files_t) (b : list Z) : list Z :=
  let es := read_size (espfile x) in let rs1 := read_size (sys1file x) in
  let gs := gs neediso in
  let start := if neediso then 128 else gs / 512 + 1 in
  let j := 0x1C0 in
  let b := writes [setint uuid 0x1B8] b in
  let b := if 0 <? es then
      writes [byte (j - 2) 0x80; setint 129 j; byte (j + 2) 0xC; setint ((gs + es) / 512 + 2) (j + 4); setint start (j + 6);
              setint (es / 512) (j + 10)] b else b in
  let j := j + 16 in
  let b := writes [setint 1 j; byte (j + 2) 0xEE; setint (gs / 512 + 1) (j + 4); setint 1 (j + 6); setint (gs / 512) (j + 10)] b in
  let j := j + 16 in
  if 0 <? rs1 then
    let b := if es =? 0 then writes [byte (j - 2) 0x80] b else b in
    writes [setint (es / 512 + 128) j; byte (j + 2) 0x30; setint (es / 512 + 128 + 512) (j + 4);
            setint ((es + rs1) / 512 + start) (j + 6); setint (rs1 / 512) (j + 10)] b
  else b.

(** ** The table of partitions *)

Definition swap_size : Z := 4096.
(** The size of the disk. *)
Definition disk_size (neediso : bool) (x : files_t) : Z :=
  512 + 2 * gs neediso + read_size (espfile x) + read_size (sys1file x) + read_size (sys2file x) + read_size (usr1file x)
  + read_size (usr2file x) + read_size (varfile x) + read_size (homefile x) + swap_size + (if neediso then 32768 else 0).

Definition gpt_header (ds : Z) : list (Z * list Z) :=
  [(0, str "EFI PART"); setint 1 10; setint 92 12; setint 0xDEADCC32 16; setint 1 24; setint (ds / 512 - 1) 32; setint 64 40;
   setint (ds / 512 - 64) 48; setint uuid 56; setint uuid 60; setint uuid 64; setint uuid 68; setint 2 72; setint 248 80;
   setint 128 84; setint 0xDEADCC32 88].

(** The table, the place of the next entry, and the byte the next partition starts after. *)
Definition table_t : Type := list Z * Z * Z.
Definition esp_entry (neediso : bool) (es : Z) (g : list Z) (p : Z) : list Z :=
  let s := gs neediso / 512 in
  writes [setint 0x0C12A7328 p; setint 0x011D2F81F (p + 4); setint 0x0A0004BBA (p + 8); setint 0x03BC93EC9 (p + 12);
          setint (uuid + 1) (p + 16); setint uuid (p + 20); setint uuid (p + 24); setint uuid (p + 28);
          setint (if neediso then 128 else s + 1) (p + 32); setint (es / 512 + (if neediso then 127 else s)) (p + 40);
          (p + 56, take 42 (wide (str "EFI System Partition")))] g.
(** An entry of the system: its version, where it is mounted, its number, its size, whether it
    is bootable, and [n] bytes of its name. *)
Definition osz_entry (version : option Z) (mount : string) (u size : Z) (boot : bool) (name : list Z) (n : Z) (t : table_t) : table_t :=
  let '(g, p, j) := t in
  let g := writes ([(p, str "OS/Z")] ++ match version with Some v => [setint v (p + 4)] | None => [] end
    ++ [(p + 6, str "FS/Z"); (p + 12, str mount); setint (uuid + u) (p + 16); setint uuid (p + 20); setint uuid (p + 24);
        setint uuid (p + 28); setint (j / 512 + 1) (p + 32); setint ((j + size) / 512) (p + 40)]
    ++ (if boot then [setint 4 (p + 48)] else []) ++ [(p + 56, take (Z.to_nat n) (wide name))]) g in
  (g, p + 128, j + size).

Section Disk.
(** The language of the names. *)
Context (hu : bool).

Definition root_name : list Z := if hu then str "OS/Z Alaprendszer" else str "OS/Z Root".
Definition usr_name : list Z := if hu then str "OS/Z Rendszer" else str "OS/Z System".
Definition var_name : list Z := if hu then str "OS/Z Publikus adatok" else str "OS/Z Public Data".
Definition home_name : list Z := if hu then str "OS/Z Priv" ++ [225] ++ str "t adatok" else str "OS/Z Private Data".
Definition swap_name : list Z := if hu then str "Lapcsere t" ++ [225] ++ str "rhely" else str "OS/Z Swap Area".

Definition gpt_table (neediso : bool) (x : files_t) (g : list Z) : list Z :=
  let es := read_size (espfile x) in
  let present n (f : table_t -> table_t) t := if 0 <? n then f t else t in
  let rs1 := read_size (sys1file x) in let rs2 := read_size (sys2file x) in
  let us1 := read_size (usr1file x) in let us2 := read_size (usr2file x) in
  let t : table_t := if 0 <? es then (esp_entry neediso es g 512, 512 + 128, 0) else (g, 512, 0) in
  let t := (t.1, (if neediso then 65536 - 512 else gs neediso) + es) in
  let t := present rs1 (osz_entry (Some 0x8664) "root" 2 rs1 true root_name 22) t in
  let t := present rs2 (osz_entry (Some 0xAA64) "root" 2 rs2 true root_name 22) t in
  let t := present us1 (osz_entry (Some 0x8664) "usr" 3 us1 false usr_name 22) t in
  let t := present us2 (osz_entry (Some 0xAA64) "usr" 3 us2 false usr_name 22) t in
  let t := osz_entry None "var" 4 (read_size (varfile x)) false var_name 32 t in
  let t := osz_entry None "home" 5 (read_size (homefile x)) false home_name 34 t in
  let t := osz_entry None "swap" 6 swap_size false swap_name 30 t in
  t.1.1.

(** The sum over the header, whose own field counts as zero. *)
Definition header_checksum (g : list Z) : list Z :=
  let i := getint 12 g in
  let g := writes [setint 0 16] g in
  writes [setint (Crc32.crc32a_calc (slice 0 i g)) 16] g.
(** The sums; the entries that are counted have to be in the block. *)
Definition checksums (g : list Z) : option (list Z) :=
  let i := default 0 (zget g 80) * default 0 (zget g 84) in
  if zlen g <? 512 + i then None else
  Some (header_checksum (writes [setint (Crc32.crc32a_calc (slice 512 i g)) 88] g)).
(** The header of the copy at the end of the disk. *)
Definition second_header (neediso : bool) (ds : Z) (g : list Z) : list Z :=
  let i := getint 32 g in
  let g := writes [setint (getint 24 g) 32] g in
  header_checksum (writes [setint i 24; setint ((ds - gs neediso) / 512) 72] g).

(** ** The descriptors of a CD-ROM *)

Context (ts : tm_t).

(** [n] decimal digits. *)
Fixpoint digits (n : nat) (v : Z) : list Z := match n with O => [] | S n => digits n (v / 10) ++ [48 + v mod 10] end.
Definition isodate : list Z :=
  digits 4 (tm_year ts + 1900) ++ digits 2 (tm_mon ts + 1) ++ digits 2 (tm_mday ts) ++ digits 2 (tm_hour ts) ++ digits 2 (tm_min ts)
  ++ digits 2 (tm_sec ts) ++ str "00".
Definition fill (from to v : Z) : Z * list Z := (from, repeat v (Z.to_nat (to - from))).
(** The date of a record, and its time zone. *)
Definition iso_time (o : Z) : list (Z * list Z) :=
  [byte o (tm_year ts); byte (o + 1) (tm_mon ts + 1); byte (o + 2) (tm_mday ts); byte (o + 3) (tm_hour ts); byte (o + 4) (tm_min ts);
   byte (o + 5) (tm_sec ts); byte (o + 6) 0].

Definition iso_volume (sectors : Z) : list (Z * list Z) :=
  [byte 0 1; (1, str "CD001"); byte 6 1; fill 8 72 32; (40, str "OSZ_LIVE_CD"); setinte sectors 80; byte 123 1; byte 120 1; byte 127 1;
   byte 124 1; byte 130 8; byte 129 8; byte 156 0x22; setinte 20 158; setinte 2048 166]
  ++ iso_time 174
  ++ [byte 181 2; byte 184 1; byte 188 1; fill 190 813 32; (318, str "OS/Z <HTTPS://BZTSRC.GITLAB.IO/OSZ>"); (446, str "BOOTBOOT");
      (574, str "OS/Z LIVE CD"); fill 702 813 32; (813, isodate); (830, isodate); fill 847 863 48; fill 864 880 48; byte 881 1;
      fill 883 1395 32].
Definition iso_boot : list (Z * list Z) :=
  [byte 2048 0; (2049, str "CD001"); byte 2054 1; (2055, str "EL TORITO SPECIFICATION"); setinte 19 (2048 + 71);
   byte 4096 0xFF; (4097, str "CD001"); byte 4102 1;
   byte 6144 1; byte 6145 0; byte 6172 0xaa; byte 6173 0x55; byte 6174 0x55; byte 6175 0xaa; byte 6176 0x88; byte 6182 4;
   setint (128 / 4) 6184; byte 6208 0x91; byte 6209 0xEF; byte 6210 1; byte 6240 0x88; setint (128 / 4) 6248].
Definition CRLF : list Z := [13; 10].
Definition iso_readme : list Z :=
  str "OS/Z Live Image" ++ CRLF ++ CRLF ++ str "Bootable as" ++ CRLF ++ str " - CDROM (El Torito, UEFI)" ++ CRLF
  ++ str " - USB stick (BIOS, Multiboot, UEFI)" ++ CRLF ++ str " - SD card (Raspberry Pi 3)".
Definition iso_root : list (Z * list Z) :=
  [byte 8192 0x22; setinte 20 8194; setinte 2048 8202] ++ iso_time 8210 ++ [byte 8217 2; byte 8220 1; byte 8224 1;
   byte 8226 0x22; setinte 20 8228; setinte 2048 8236] ++ iso_time 8244 ++ [byte 8251 2; byte 8254 1; byte 8258 2;
   byte 8260 (0x22 + 12); setinte 21 8262; setinte 125 8270] ++ iso_time 8278 ++ [byte 8285 0; byte 8288 1; byte 8292 12;
   (8293, str "README.TXT;1"); (10240, take 125 iso_readme)].
Definition iso_sectors (x : files_t) : Z :=
  (65536 + read_size (espfile x) + read_size (sys1file x) + read_size (sys2file x) + read_size (usr1file x) + read_size (usr2file x)
   + read_size (varfile x) + read_size (homefile x) + swap_size + 2047) / 2048.
Definition iso_image (x : files_t) : list Z := writes (iso_volume (iso_sectors x) ++ iso_boot ++ iso_root) (zeros 32768).

(** ** The disk *)

(** The partitions in the order of the file; [swap] is what the block for them holds. *)
Definition partitions (swap : list Z) (x : files_t) : list (list Z) :=
  [default [] (espfile x); default [] (sys1file x); default [] (sys2file x); default [] (usr1file x); default [] (usr2file x);
   default [] (varfile x); default [] (homefile x); swap].

Definition createdisk (swap : list Z) (neediso : bool) (x : files_t) : M unit (list Z) :=
  bbs <-- need (stage2 neediso x) ;;
  let b := loader bbs x in
  x <-- need (copy_vbr b x) ;;
  let b := mbr neediso x b in
  let gs := gs neediso in
  let ds := disk_size neediso x in
  let g := writes (gpt_header ds) (zeros (gs + 512)) in
  g <-- need (checksums (gpt_table neediso x g)) ;;
  when (neediso && negb (bbs mod 4 =? 0)) (stop 3) ;;;
  ret (slice 0 512 b ++ slice 0 gs g ++ (if neediso then iso_image x else []) ++ concat (partitions swap x)
       ++ slice 512 (gs - 512) g ++ slice 0 512 (second_header neediso ds g)).

End Disk.
End Mkdisk.
