(* ===== verification/MkfsFacts.v ===== *)
(** Directories made by the image creator: what its operations write to an image, and that
    the entries of a directory stay sorted, so that the first entry that begins with a name
    is the one that has it. *)
From Stdlib Require Import ZArith Lia List String Sorting.Sorted.
From stdpp Require Import base option list.
From S2P Require Import Prelude Bytes Crc32 Initrd Mkfs.
Import Initrd Mkfs.

#[local] Ltac Zify.zify_post_hook ::= Z.div_mod_to_equations.

Module MkfsFacts.

(** ** Writes to an image *)

(** The image [b] after the writes [ws], the last one in front. *)
Fixpoint pokes (ws : list (Z * list Z)) (b : list Z) : list Z :=
  match ws with [] => b | (o, l) :: ws => poke o l (pokes ws b) end.
Definition in_range (ws : list (Z * list Z)) (b : list Z) : Prop := Forall (fun w => 0 <= w.1 /\ w.1 + zlen w.2 <= zlen b) ws.

Lemma zlen_pokes ws b : in_range ws b -> zlen (pokes ws b) = zlen b.
Proof. induction 1 as [|[o l] ws [H1 H2] _ IH]; [done|]. cbn in *. by rewrite zlen_poke by lia. Qed.

Lemma hp_here o l ws b v k : in_range ((o, l) :: ws) b -> v = o -> k = l -> holds (zget (pokes ((o, l) :: ws) b)) v k.
Proof. intros H -> ->. apply Forall_cons in H as [[H1 H2] H]. cbn in *. apply holds_poke; [lia|]. by rewrite zlen_pokes. Qed.

Lemma hp_skip o l ws b v k : in_range ((o, l) :: ws) b -> v + zlen k <= o \/ o + zlen l <= v ->
  holds (zget (pokes ws b)) v k -> holds (zget (pokes ((o, l) :: ws) b)) v k.
Proof. intros H Hd Hk. apply Forall_cons in H as [[H1 H2] H]. cbn in *. apply holds_poke_other; [lia|by rewrite zlen_pokes|done|done]. Qed.

Lemma in_range_tail w ws b : in_range (w :: ws) b -> in_range ws b.
Proof. by intros [_ H]%Forall_cons. Qed.

(** Outside of the range [a, a + n) nothing is written. *)
Lemma pokes_outside ws b a n x : in_range ws b -> Forall (fun w => a <= w.1 /\ w.1 + zlen w.2 <= a + n) ws -> x < a \/ a + n <= x ->
  zget (pokes ws b) x = zget b x.
Proof.
  induction 1 as [|[o l] ws [H1 H2] Hr IH]; intros Hw Hx; [done|]. apply Forall_cons in Hw as [[W1 W2] Hw]. cbn in *.
  rewrite zget_poke; [|lia|by rewrite zlen_pokes]. replace ((o <=? x) && _) with false by lia. by apply IH.
Qed.

(** The state after writes to the image [b]. *)
Definition at_ (b : list Z) (ws : list (Z * list Z)) (s : mkfs_t) : Prop := fs s = pokes ws b /\ in_range ws b.

Section Rules.
Context (b : list Z).

Lemma wp_image_store o l ws s (Q : unit -> mkfs_t -> Prop) : at_ b ws s -> 0 <= o -> o + zlen l <= zlen b ->
  (at_ b ((o, l) :: ws) (set_fs (pokes ((o, l) :: ws) b) s) -> Q tt (set_fs (pokes ((o, l) :: ws) b) s)) -> wp (store o l) Q s.
Proof.
  intros [Hs Hr] Ho Hl HQ. unfold store. apply wp_bind, wp_gets. rewrite Hs, zlen_pokes by done.
  replace ((0 <=? o) && _) with true by lia. apply wp_modify, HQ. split; [done|]. by constructor.
Qed.

Lemma wp_put_word n o v ws s (Q : unit -> mkfs_t -> Prop) : at_ b ws s -> 0 <= o -> o + Z.of_nat n <= zlen b ->
  (at_ b ((o, le n v) :: ws) (set_fs (pokes ((o, le n v) :: ws) b) s) -> Q tt (set_fs (pokes ((o, le n v) :: ws) b) s)) ->
  wp (put_word n o v) Q s.
Proof. intros Hs Ho Hl. apply wp_image_store; [done|done|by rewrite le_length]. Qed.

Lemma wp_image_load o n ws s (Q : list Z -> mkfs_t -> Prop) : at_ b ws s -> 0 <= o -> 0 <= n -> o + n <= zlen b ->
  (forall l, zlen l = n -> holds (zget (pokes ws b)) o l -> Q l s) -> wp (load o n) Q s.
Proof.
  intros [Hs Hr] Ho Hn Hl HQ. unfold load. apply wp_bind, wp_gets. rewrite Hs, zlen_pokes by done.
  replace ((0 <=? o) && _ && _) with true by lia. apply wp_ret, HQ.
  - rewrite zlen_slice; [done|lia|lia|]. by rewrite zlen_pokes.
  - apply holds_slice; [lia|lia|]. by rewrite zlen_pokes.
Qed.

Lemma wp_image_load_eq o n l ws s (Q : list Z -> mkfs_t -> Prop) : at_ b ws s -> holds (zget (pokes ws b)) o l -> zlen l = n -> 0 <= o -> o + n <= zlen b ->
  Q l s -> wp (load o n) Q s.
Proof.
  intros Hs Hh Hl Ho Hn HQ. pose proof (zlen_nonneg l). eapply wp_image_load; [done|lia|lia|lia|]. intros l' Hl' Hh'.
  by rewrite (holds_inj _ _ l' l) by (done || lia).
Qed.

(** A word that is read for its value, and one that is read for anything. *)
Lemma wp_get_word n o v ws s (Q : Z -> mkfs_t -> Prop) : at_ b ws s -> holds (zget (pokes ws b)) o (le n v) -> 0 <= v < 256 ^ Z.of_nat n ->
  0 <= o -> o + Z.of_nat n <= zlen b -> Q v s -> wp (get_word n o) Q s.
Proof.
  intros Hs Hh Hv Ho Hl HQ. unfold get_word. apply wp_bind. eapply wp_image_load_eq; [done|done|apply le_length|done|done|].
  apply wp_ret. by rewrite of_le_le.
Qed.

Lemma wp_get_any n o ws s (Q : Z -> mkfs_t -> Prop) : at_ b ws s -> 0 <= o -> o + Z.of_nat n <= zlen b -> (forall v, Q v s) -> wp (get_word n o) Q s.
Proof. intros Hs Ho Hl HQ. unfold get_word. apply wp_bind. eapply wp_image_load; [done|lia|lia|lia|]. intros. apply wp_ret, HQ. Qed.

Lemma wp_put_checksum o from n ws s (Q : unit -> mkfs_t -> Prop) : at_ b ws s -> 0 <= o -> o + 4 <= zlen b -> 0 <= from -> 0 <= n -> from + n <= zlen b ->
  (forall c, let s' := set_fs (pokes ((o, le 4 c) :: ws) b) s in at_ b ((o, le 4 c) :: ws) s' -> Q tt s') -> wp (put_checksum o from n) Q s.
Proof.
  intros Hs Ho Hl Hf Hn Hl' HQ. unfold put_checksum. apply wp_bind. eapply wp_image_load; [done|lia|lia|lia|]. intros l _ _.
  eapply wp_put_word; [done|lia|lia|]. apply HQ.
Qed.

End Rules.

(** Lengths of what is written. *)
Ltac len1 :=
  match goal with
  | |- context [zlen (le ?n ?v)] => rewrite (le_length n v)
  | |- context [zlen (?a ++ ?b)] => rewrite (zlen_app a b)
  | |- context [zlen (zeros ?n)] => rewrite (zlen_zeros n) by lia
  | |- context [zlen ?l] => let n := eval vm_compute in (zlen l) in lazymatch n with | Zpos _ => idtac | Z0 => idtac end; change (zlen l) with n
  end.
Ltac zl := cbn [fst snd]; repeat len1; lia.
(** A place that one of the writes set, or none of them did. *)
Ltac poked H :=
  repeat first [ apply hp_here; [exact H | lia | reflexivity]
               | apply hp_skip; [exact H | zl | apply in_range_tail in H] ].

(** A property of all writes. *)
Ltac outs := repeat (apply List.Forall_cons; [zl|]); apply List.Forall_nil.

(** ** The order of names *)

Lemma strcasecmp_anti x y : strcasecmp y x = - strcasecmp x y.
Proof.
  revert y. induction x as [|a x IH]; intros [|c y]; cbn; try lia.
  rewrite (Z.eqb_sym (tolower c)). destruct (Z.eqb_spec (tolower a) (tolower c)) as [E|E]; [|lia].
  assert (H0 : (a =? 0) = (c =? 0)).
  { unfold tolower in E. destruct ((65 <=? a) && (a <=? 90)) eqn:E1, ((65 <=? c) && (c <=? 90)) eqn:E2; lia. }
  rewrite <- H0. destruct (a =? 0); [done|]. by rewrite IH.
Qed.

(** A name stands behind its beginnings. *)
Lemma strcasecmp_prefix m c r x y : Forall (fun a => a <> 0) m -> 0 < c -> 0 < strcasecmp (m ++ c :: r ++ x) (m ++ 0 :: y).
Proof.
  intros Hm Hc. induction Hm as [|a m Ha _ IH]; cbn.
  - unfold tolower. destruct ((65 <=? c) && (c <=? 90)) eqn:E; cbn; [destruct (c + 32 =? 0) eqn:E0|destruct (c =? 0) eqn:E0]; lia.
  - rewrite Z.eqb_refl. by replace (a =? 0) with false by lia.
Qed.

(** ** Directories *)

Record ent_t : Type := mk_ent { e_fid : Z; e_len : Z; e_name : list Z }.
Definition ent_bytes (e : ent_t) : list Z := le 8 (e_fid e) ++ zeros 8 ++ [e_len e] ++ e_name e ++ zeros (111 - zlen (e_name e)).
Definition bytes_ok (l : list Z) : Prop := Forall (fun c => 0 < c < 256) l.
Record ent_ok (e : ent_t) : Prop := mk_ent_ok {
  ok_fid : 0 < e_fid e < 2 ^ 31;
  ok_name : bytes_ok (e_name e);
  ok_short : zlen (e_name e) <= 110;
}.
Definition before (x y : ent_t) : Prop := direntcmp (ent_bytes x) (ent_bytes y) <= 0.

Lemma ent_length e : ent_ok e -> zlen (ent_bytes e) = 128.
Proof.
  intros [_ _ Hs]. unfold ent_bytes. rewrite !zlen_app, le_length. rewrite !zlen_zeros by lia. change (zlen [e_len e]) with 1. lia.
Qed.

Lemma ent_text_eq e : ent_text (ent_bytes e) = e_name e ++ zeros (111 - zlen (e_name e)).
Proof. unfold ent_text, ent_bytes. done. Qed.

Lemma zeros_S n : 0 < n -> zeros n = 0 :: zeros (n - 1).
Proof. intros Hn. unfold zeros. replace (Z.to_nat n) with (S (Z.to_nat (n - 1))) by lia. done. Qed.

(** The entries of a directory: sorted, each name once, in the room of the inode. *)
Record ents_ok (l : list ent_t) : Prop := mk_ents_ok {
  all_ok : Forall ent_ok l;
  in_order : StronglySorted before l;
  once : NoDup (e_name <$> l);
  at_most : zlen l <= 23;
}.

Lemma before_prefix x m : ent_ok x -> bytes_ok (e_name m) -> zlen (e_name m) <= 110 -> e_name m `prefix_of` e_name x -> e_name m <> e_name x ->
  ~ before x m.
Proof.
  intros [_ Hx Hxs] Hm Hms [[|c r] Hr] Hne; [rewrite app_nil_r in Hr; congruence|]. unfold before, direntcmp. rewrite !ent_text_eq, Hr.
  rewrite (zeros_S (111 - zlen (e_name m))) by lia. rewrite <- app_assoc. cbn [app].
  assert (Hc : 0 < c). { unfold bytes_ok in Hx. rewrite Hr in Hx. apply Forall_app in Hx as [_ Hx]. apply Forall_cons in Hx as [Hx _]. lia. }
  assert (Hz : Forall (fun a => a <> 0) (e_name m)) by (eapply Forall_impl; [exact Hm|]; cbn; lia).
  pose proof (strcasecmp_prefix (e_name m) c r (zeros (111 - zlen (e_name m ++ c :: r))) (zeros (111 - zlen (e_name m) - 1)) Hz Hc). lia.
Qed.

(** The first entry that begins with a name of the directory is the one that has it. *)
Lemma first_exact l e : ents_ok l -> e ∈ l ->
  exists pre post, l = pre ++ e :: post /\ Forall (fun x => ~ e_name e `prefix_of` e_name x) pre.
Proof.
  intros [Ho Hs Hd _] He. apply list_elem_of_split in He as (pre & post & ->). exists pre, post. split; [done|].
  apply Forall_forall. intros x Hx Hp. apply Forall_app in Ho as [Hpre He]. apply Forall_cons in He as [He _].
  rewrite fmap_app, fmap_cons in Hd. apply NoDup_app in Hd as (_ & Hd & _).
  assert (Hne : e_name e <> e_name x).
  { intros E. apply (Hd (e_name x)); [by apply list_elem_of_fmap_2|]. rewrite E. by left. }
  rewrite Forall_forall in Hpre. eapply (before_prefix x e); [by apply Hpre|by destruct He..|done|done|].
  clear -Hs Hx. induction pre as [|y pre IH]; [by apply elem_of_nil in Hx|]. cbn in Hs. inversion Hs as [|? ? Hs' Hf]; subst.
  apply elem_of_cons in Hx as [->|Hx]; [|by apply IH]. apply Forall_app in Hf as [_ Hf]. by apply Forall_cons in Hf as [Hf _].
Qed.

(** ** The search for the first entry that a path goes through *)

(** The inode at [o] with the directory [ents] in it. *)
Record dir_at (m : Z -> option Z) (o : Z) (ents : list ent_t) : Prop := mk_dir_at {
  d_magic : holds m o FSZ_IN_MAGIC;
  d_type : holds m (o + 8) FSZ_FILETYPE_DIR;
  d_dir : holds m (o + 1024) FSZ_DIR_MAGIC;
  d_count : holds m (o + 1040) (le 8 (zlen ents));
  d_block : holds m (o + 1152) (flat_map ent_bytes ents ++ zeros (128 * (23 - zlen ents)));
}.

Lemma block_length l : Forall ent_ok l -> zlen (flat_map ent_bytes l) = 128 * zlen l.
Proof.
  induction 1 as [|e l He _ IH]; [done|]. cbn [flat_map]. rewrite zlen_app, ent_length, IH, zlen_cons by done. lia.
Qed.

Lemma strneq_inner name rest w : Forall (fun c => c <> 0) w ->
  strneq (length w) (name ++ 0 :: rest) w = Some (bool_decide (w `prefix_of` name)).
Proof.
  intros Hw. revert name. induction Hw as [|y w Hy _ IH]; intros name; cbn [length strneq].
  - by rewrite bool_decide_true by apply prefix_nil.
  - destruct name as [|x name]; cbn [app].
    + replace (0 =? y) with false by lia. by rewrite bool_decide_false by by intros ?%prefix_nil_inv.
    + destruct (Z.eqb_spec x y) as [->|Hne].
      * rewrite IH. f_equal. apply bool_decide_ext. split; [apply prefix_cons|apply prefix_cons_inv_2].
      * rewrite bool_decide_false; [done|]. intros ?%prefix_cons_inv_1. congruence.
Qed.

Lemma strneq_whole name rest w : Forall (fun c => c <> 0) w -> Forall (fun c => c <> 0) name ->
  strneq (S (length w)) (name ++ 0 :: rest) w = Some (bool_decide (name = w)).
Proof.
  intros Hw. revert name. induction Hw as [|y w Hy _ IH]; intros name Hn.
  - cbn [length strneq]. destruct Hn as [|x name Hx Hn]; [done|]. cbn [app]. by replace (x =? 0) with false by lia.
  - change (length (y :: w)) with (S (length w)). cbn [strneq]. destruct Hn as [|x name Hx Hn]; cbn [app].
    + by replace (0 =? y) with false by lia.
    + destruct (Z.eqb_spec x y) as [->|Hne]; [|by rewrite bool_decide_false by congruence].
      cbn [strneq] in IH. rewrite IH by done. f_equal. apply bool_decide_ext. split; congruence.
Qed.

Lemma member_bound path : 0 <= member path <= zlen path.
Proof.
  induction path as [|c path IH]; [done|]. cbn [member]. rewrite zlen_cons. destruct (c =? SLASH); [|lia].
  pose proof (zlen_nonneg path). lia.
Qed.

(** The first member with the slash behind it, or the whole path. *)
Definition first_member (path : list Z) : list Z := take (Z.to_nat (member path + 1)) path.
Definition hit (path : list Z) (e : ent_t) : bool :=
  if zlen path =? member path then bool_decide (e_name e = path) else bool_decide (first_member path `prefix_of` e_name e).

Lemma strneq_hit path e rest : Forall (fun c => c <> 0) path -> ent_ok e ->
  strneq (Z.to_nat (member path + 1)) (e_name e ++ 0 :: rest) (first_member path) = Some (hit path e).
Proof.
  intros Hp [_ Hn _]. pose proof (member_bound path) as Hm. unfold hit, first_member.
  destruct (Z.eqb_spec (zlen path) (member path)) as [E|E].
  - rewrite take_ge by (unfold zlen in E; lia). replace (Z.to_nat (member path + 1)) with (S (length path)) by (unfold zlen in E; lia).
    apply strneq_whole; [done|]. eapply Forall_impl; [exact Hn|]. cbn. lia.
  - rewrite <- (strneq_inner _ rest) by by apply Forall_take. f_equal. rewrite length_take. unfold zlen in *. lia.
Qed.

Lemma holds_drop v k l : 0 <= v -> v + zlen k <= zlen l -> holds (zget l) v k -> exists rest, drop (Z.to_nat v) l = k ++ rest.
Proof.
  intros Hv Hk H. pose proof (slice_holds v k l Hv Hk H) as E. unfold slice in E.
  exists (drop (length k) (drop (Z.to_nat v) l)). rewrite <- E at 1. unfold zlen. rewrite Nat2Z.id. by rewrite take_drop.
Qed.

Section Scan.
Context (b : list Z) (ws : list (Z * list Z)) (s : mkfs_t) (Hs : at_ b ws s).
Notation m := (zget (pokes ws b)).

(** One entry. *)
Lemma wp_scan_round path e p cnt (Q : Z * Z + Z * option Z -> mkfs_t -> Prop) :
  Forall (fun c => c <> 0) path -> ent_ok e -> holds m p (ent_bytes e) -> 0 <= p -> p + 128 <= zlen b -> 0 <= cnt < 23 ->
  Q (if hit path e then inr (p, Some (e_fid e)) else inl (p + 128, cnt + 1)) s -> wp (scan_round path (p, cnt)) Q s.
Proof.
  intros Hp He Hh Hp0 Hpb Hc HQ. pose proof (ent_length e He) as Hlen. pose proof He as [Hfid Hname Hshort].
  assert (H1 := Hh). unfold ent_bytes in H1. apply holds_app in H1 as [H1 H2]. apply holds_app in H2 as [_ H2].
  apply holds_app in H2 as [_ H3]. rewrite le_length, zlen_zeros in H3 by lia. change (zlen [e_len e]) with 1 in H3.
  unfold scan_round. apply wp_bind. eapply wp_get_word; [exact Hs|exact H1|lia|done|lia|].
  replace (e_fid e =? 0) with false by lia. change MAXENT with 23. replace (23 <=? cnt) with false by lia. cbn [orb].
  apply wp_bind, wp_gets. destruct Hs as [Hfs Hr]. rewrite Hfs. replace (p + Z.of_nat 8 + 8 + 1) with (p + 17) in H3 by lia.
  apply holds_drop in H3 as [rest ->]; [|lia|rewrite zlen_pokes, zlen_app, zlen_zeros by (done || lia); lia].
  rewrite (zeros_S (111 - zlen (e_name e))) by lia. rewrite <- app_assoc. cbn [app]. fold (first_member path).
  apply wp_bind. eapply wp_need; [by apply strneq_hit|]. apply wp_ret. by destruct (hit path e).
Qed.

(** Entries that are passed. *)
Lemma wp_scan_skip path pre p cnt fuel (Q : Z * option Z -> mkfs_t -> Prop) :
  Forall (fun c => c <> 0) path -> Forall ent_ok pre -> Forall (fun e => hit path e = false) pre ->
  holds m p (flat_map ent_bytes pre) -> 0 <= p -> p + 128 * zlen pre <= zlen b -> 0 <= cnt -> cnt + zlen pre <= 23 ->
  wp (iter fuel (scan_round path) (p + 128 * zlen pre, cnt + zlen pre)) Q s -> wp (iter (length pre + fuel) (scan_round path) (p, cnt)) Q s.
Proof.
  intros Hp Ho. revert p cnt. induction Ho as [|e pre He _ IH]; intros p cnt Hh Hm Hp0 Hpb Hc Hcl Hk.
  - change (zlen (@nil ent_t)) with 0 in Hk. by rewrite Z.mul_0_r, !Z.add_0_r in Hk.
  - apply Forall_cons in Hh as [Hh Hh']. cbn [flat_map] in Hm. apply holds_app in Hm as [Hm Hm']. rewrite ent_length in Hm' by done.
    rewrite zlen_cons in Hpb, Hcl, Hk. pose proof (zlen_nonneg pre). cbn [length Nat.add]. rewrite iter_S. apply wp_bind.
    eapply wp_scan_round; [done|done|done|lia|lia|lia|]. rewrite Hh. apply IH; [done|done|lia|lia|lia|lia|].
    by replace (p + 128 + 128 * zlen pre, cnt + 1 + zlen pre) with (p + 128 * (1 + zlen pre), cnt + (1 + zlen pre)) by (f_equal; lia).
Qed.

Context (o : Z) (ents : list ent_t) (Hd : dir_at m o ents) (Hok : ents_ok ents) (Ho : 0 <= o) (Hob : o + 4096 <= zlen b).

Lemma wp_scan_hit path pre e post (Q : Z * option Z -> mkfs_t -> Prop) :
  Forall (fun c => c <> 0) path -> ents = pre ++ e :: post -> Forall (fun e => hit path e = false) pre -> hit path e = true ->
  Q (o + 1152 + 128 * zlen pre, Some (e_fid e)) s -> wp (scan path (o + 1024)) Q s.
Proof.
  intros Hp E Hpre He HQ. destruct Hok as [Hall _ _ Hmost]. destruct Hd as [_ _ _ _ Hb]. rewrite E in Hall, Hmost, Hb.
  apply Forall_app in Hall as [Hall1 Hall2]. apply Forall_cons in Hall2 as [Hall2 _]. rewrite zlen_app, zlen_cons in Hmost.
  pose proof (zlen_nonneg pre). pose proof (zlen_nonneg post). rewrite flat_map_app in Hb. cbn [flat_map] in Hb.
  apply holds_app in Hb as [Hb _]. apply holds_app in Hb as [Hb1 Hb2]. apply holds_app in Hb2 as [Hb2 _]. rewrite block_length in Hb2 by done.
  unfold scan. change SIZEOF_DIRENT with 128. replace (o + 1024 + 128) with (o + 1152) by lia.
  replace 25%nat with (length pre + S (24 - length pre))%nat by (unfold zlen in *; lia).
  apply wp_scan_skip; [done|done|done|done|lia|lia|lia|lia|]. rewrite iter_S. apply wp_bind.
  eapply wp_scan_round; [done|done|done|lia|lia|lia|]. rewrite He. by apply wp_ret.
Qed.

Lemma wp_scan_none path (Q : Z * option Z -> mkfs_t -> Prop) :
  Forall (fun c => c <> 0) path -> Forall (fun e => hit path e = false) ents -> zlen ents < 23 ->
  Q (o + 1152 + 128 * zlen ents, None) s -> wp (scan path (o + 1024)) Q s.
Proof.
  intros Hp Hn Hlt HQ. destruct Hok as [Hall _ _ _]. destruct Hd as [_ _ _ _ Hb]. pose proof (zlen_nonneg ents).
  apply holds_app in Hb as [Hb1 Hb2]. rewrite block_length in Hb2 by done.
  unfold scan. change SIZEOF_DIRENT with 128. replace (o + 1024 + 128) with (o + 1152) by lia.
  replace 25%nat with (length ents + S (24 - length ents))%nat by (unfold zlen in *; lia).
  apply wp_scan_skip; [done|done|done|done|lia|lia|lia|lia|]. rewrite iter_S. apply wp_bind. unfold scan_round. apply wp_bind.
  replace (128 * (23 - zlen ents)) with (8 + (128 * (23 - zlen ents) - 8)) in Hb2 by lia. rewrite zeros_app in Hb2 by lia.
  apply holds_app in Hb2 as [Hb2 _]. change (zeros 8) with (le 8 0) in Hb2. eapply wp_get_word; [exact Hs|exact Hb2|lia|lia|lia|]. by apply wp_ret, wp_ret.
Qed.

End Scan.

(** ** A new entry *)

Lemma at_refl s : at_ (fs s) [] s.
Proof. by split; [|constructor]. Qed.

Lemma pokes_other ws b x : in_range ws b -> Forall (fun w => x < w.1 \/ w.1 + zlen w.2 <= x) ws -> zget (pokes ws b) x = zget b x.
Proof.
  induction 1 as [|[o l] ws [H1 H2] Hr IH]; intros Hw; [done|]. apply Forall_cons in Hw as [W Hw]. cbn in *.
  rewrite zget_poke; [|lia|by rewrite zlen_pokes]. replace ((o <=? x) && _) with false by lia. by apply IH.
Qed.

(** What an operation leaves as it was. *)
Definition same_but (P : Z -> Prop) (s s' : mkfs_t) : Prop :=
  zlen (fs s') = zlen (fs s) /\ size s' = size s /\ initrd s' = initrd s /\ forall x, ~ P x -> zget (fs s') x = zget (fs s) x.

Definition is_dir (ty : list Z) : bool := bool_decide (ty = FSZ_FILETYPE_DIR).
Definition entry_name (ty path : list Z) : list Z := path ++ if is_dir ty then [SLASH] else [].

(** The same bytes at a place that is written differently. *)
Ltac at_place := match goal with H : holds ?m ?w ?l |- holds ?m ?v ?l => replace v with w by lia; exact H end.

(** An entry from its parts. *)
Lemma slot_bytes m ent i n name : zlen name <= 110 ->
  holds m ent (le 8 i) /\ holds m (ent + 8) (zeros 8) /\ holds m (ent + 16) [n] /\ holds m (ent + 17) name /\
    holds m (ent + 17 + zlen name) (zeros (111 - zlen name)) ->
  holds m ent (ent_bytes (mk_ent i n name)).
Proof.
  intros Hn (H1&H2&H3&H4&H5). unfold ent_bytes. cbn [e_fid e_len e_name]. rewrite !holds_app, le_length, zlen_zeros by lia.
  change (zlen [n]) with 1. repeat split; at_place.
Qed.

Lemma wp_put_entry i path in2 ent ty s (Q : unit -> mkfs_t -> Prop) :
  bytes_ok path -> zlen (entry_name ty path) <= 110 -> holds (zget (fs s)) ent (zeros 128) -> holds (zget (fs s)) (in2 + 8) ty -> zlen ty = 4 ->
  0 <= in2 -> in2 + 12 <= zlen (fs s) -> 0 <= ent -> ent + 128 <= zlen (fs s) -> in2 + 12 <= ent \/ ent + 128 <= in2 ->
  (forall s' e, e_fid e = i -> e_name e = entry_name ty path -> holds (zget (fs s')) ent (ent_bytes e) ->
     same_but (fun x => ent <= x < ent + 128) s s' -> Q tt s') ->
  wp (put_entry i path in2 ent) Q s.
Proof.
  intros Hp Hs Hz Ht Hty Hi0 Hi1 He0 He1 Hd HQ. pose proof (zlen_nonneg path).
  assert (Hpl : zlen (entry_name ty path) = zlen path + if is_dir ty then 1 else 0).
  { unfold entry_name. rewrite zlen_app. by destruct (is_dir ty). }
  unfold put_entry. apply wp_bind. eapply wp_put_word; [apply at_refl|lia|lia|]. intros H1. apply wp_bind.
  eapply wp_put_word; [exact H1|lia|lia|]. intros H2. apply wp_bind. eapply wp_image_store; [exact H2|lia|destruct (is_dir ty); lia|].
  intros H3. apply wp_bind. eapply (wp_image_load_eq _ _ _ ty); [exact H3| |done|lia|lia|].
  { destruct H3 as [_ H3]. destruct (is_dir ty); poked H3; exact Ht. }
  fold (is_dir ty). destruct (is_dir ty) eqn:Edir; cbn [when].
  - apply wp_bind. eapply (wp_get_word _ _ _ (zlen path)); [exact H3|destruct H3 as [_ H3]; poked H3|change (256 ^ Z.of_nat 1) with 256; lia|lia|lia|].
    apply wp_bind. eapply wp_image_store; [exact H3|lia|change (zlen [SLASH]) with 1; lia|]. intros H4.
    eapply wp_put_word; [exact H4|lia|lia|]. intros H5. destruct H5 as [_ H5].
    apply (HQ _ (mk_ent i ((zlen path + 1) mod 256) (entry_name ty path))); [done|done| |].
    + apply slot_bytes; [lia|]. cbn [fs set_fs]. unfold entry_name. rewrite Edir, !holds_app. change (zlen [_]) with 1.
      repeat split; poked H5. all: try (eapply holds_zeros_sub; [exact Hz|zl..]).
    + split; [by apply zlen_pokes|]. split; [done|]. split; [done|]. intros x Hx. apply pokes_other; [done|]. outs.
  - apply wp_ret. destruct H3 as [_ H3]. apply (HQ _ (mk_ent i (zlen path mod 256) (entry_name ty path))); [done|done| |].
    + apply slot_bytes; [lia|]. cbn [fs set_fs]. unfold entry_name. rewrite Edir, app_nil_r.
      repeat split; poked H3. all: try (eapply holds_zeros_sub; [exact Hz|zl..]).
    + split; [by apply zlen_pokes|]. split; [done|]. split; [done|]. intros x Hx. apply pokes_other; [done|]. outs.
Qed.
(** The sort of the host: a permutation in the order of the comparison. *)
Class SortOk (qsort : list (list Z) -> list (list Z)) : Prop := {
  sort_perm l : qsort l ≡ₚ l;
  sort_order l : StronglySorted (fun x y => direntcmp x y <= 0) (qsort l);
}.

Lemma chunks_ents l rest : Forall ent_ok l -> chunks (length l) (flat_map ent_bytes l ++ rest) = List.map ent_bytes l.
Proof.
  induction 1 as [|e l He _ IH]; [done|]. cbn [length chunks flat_map List.map]. pose proof (ent_length e He) as Hlen. unfold zlen in Hlen.
  rewrite <- app_assoc, take_app_length', drop_app_length' by lia. by rewrite IH.
Qed.

Lemma sorted_ents qsort `{SortOk qsort} l : exists l', qsort (List.map ent_bytes l) = List.map ent_bytes l' /\ l' ≡ₚ l /\ StronglySorted before l'.
Proof.
  pose proof (sort_perm (List.map ent_bytes l)) as Hp. apply Permutation_map_inv in Hp as (l' & Hl' & Hp).
  exists l'. split; [done|]. split; [by symmetry|]. pose proof (sort_order (List.map ent_bytes l)) as Hs. rewrite Hl' in Hs. clear -Hs.
  induction l' as [|e l IH]; [constructor|]. cbn in Hs. inversion Hs as [|? ? Hs' Hf]; subst. constructor; [by apply IH|].
  clear -Hf. induction l as [|x l IH]; [constructor|]. inversion Hf; subst. constructor; [done|]. by apply IH.
Qed.

Lemma ents_ok_more l e l' : ents_ok l -> ent_ok e -> e_name e ∉ e_name <$> l -> zlen l < 23 -> l' ≡ₚ l ++ [e] -> StronglySorted before l' -> ents_ok l'.
Proof.
  intros [Ho _ Hd _] He Hn Hl Hp Hs. split.
  - rewrite Hp. apply Forall_app. split; [done|by apply Forall_singleton].
  - done.
  - rewrite Hp, fmap_app. apply NoDup_app. split; [done|]. split; [|apply NoDup_singleton].
    intros x Hx Hx'. apply list_elem_of_singleton in Hx' as ->. done.
  - unfold zlen in *. rewrite Hp, length_app. cbn. lia.
Qed.

Section NewEntry.
Context (ts : Z) (qsort : list (list Z) -> list (list Z)) {S : SortOk qsort}.

(** What linking the inode at [oi] to the directory at [o] may change. *)
Definition linking (o oi x : Z) : Prop := o <= x < o + 4096 \/ oi + 4 <= x < oi + 8 \/ oi + 104 <= x < oi + 112.

Lemma wp_new_entry i d path ty ents s (Q : unit -> mkfs_t -> Prop) :
  let o := 4096 * d in let oi := 4096 * i in
  dir_at (zget (fs s)) o ents -> ents_ok ents -> zlen ents < 23 -> holds (zget (fs s)) (oi + 8) ty -> zlen ty = 4 ->
  0 <= d -> 0 < i < 2 ^ 31 -> i <> d -> o + 4096 <= zlen (fs s) < 2 ^ 32 -> oi + 4096 <= zlen (fs s) ->
  bytes_ok path -> zlen (entry_name ty path) <= 110 -> entry_name ty path ∉ e_name <$> ents ->
  (forall s' e ents', e_fid e = i -> e_name e = entry_name ty path -> ents' ≡ₚ ents ++ [e] -> ents_ok ents' ->
     dir_at (zget (fs s')) o ents' -> same_but (linking o oi) s s' -> Q tt s') ->
  wp (new_entry ts qsort i path d (o + 1024) (o + 1152 + 128 * zlen ents)) Q s.
Proof.
  intros o oi Hdir Hok Hlt Hty Htyl Hd0 Hi Hne Ho Hoi Hp Hpl Hfresh HQ. pose proof (zlen_nonneg ents) as Hn0.
  pose proof Hdir as [D1 D2 D3 D4 D5]. pose proof Hok as [Hall _ _ _].
  apply holds_app in D5 as [D5 D6]. rewrite block_length in D6 by done.
  assert (Edisj : oi + 4096 <= o \/ o + 4096 <= oi) by lia.
  unfold new_entry. assert (Eo : u32 (d * secsize) = o) by (change secsize with 4096; unfold u32, wrap; rewrite Z.mod_small; lia).
  assert (Eoi : u32 (i * secsize) = oi) by (change secsize with 4096; unfold u32, wrap; rewrite Z.mod_small; lia). rewrite Eo, Eoi.
  apply wp_bind. eapply wp_put_entry; [done|done| |exact Hty|done|lia|lia|lia|lia|lia|].
  { eapply holds_zeros_sub; [exact D6|lia..]. }
  intros s1 e Hef Hen He (L1&Sz1&In1&K1). rewrite <- L1 in Ho, Hoi.
  assert (Heok : ent_ok e).
  { split; [by rewrite Hef|rewrite Hen|by rewrite Hen]. unfold entry_name, bytes_ok. apply Forall_app. split; [done|].
    destruct (is_dir ty); by repeat constructor. }
  assert (B1 : holds (zget (fs s1)) (o + 1152) (flat_map ent_bytes (ents ++ [e]) ++ zeros (128 * (23 - (zlen ents + 1))))).
  { rewrite flat_map_app. cbn [flat_map]. rewrite app_nil_r, !holds_app, zlen_app, block_length, ent_length by done. split; [split|].
    - eapply holds_ext; [|exact D5]. rewrite block_length by done. intros x Hx. apply K1. lia.
    - done.
    - eapply holds_ext; [|eapply holds_zeros_sub; [exact D6|lia..]]. rewrite zlen_zeros by lia. intros x Hx. apply K1. lia. }
  assert (Hall' : Forall ent_ok (ents ++ [e])) by (apply Forall_app; split; [done|by apply Forall_singleton]).
  assert (Hlen1 : zlen (ents ++ [e]) = zlen ents + 1) by (rewrite zlen_app; done).
  assert (C1 : holds (zget (fs s1)) (o + 1024 + 16) (le 8 (zlen ents))).
  { eapply holds_ext; [|]; [|replace (o + 1024 + 16) with (o + 1040) by lia; exact D4]. rewrite le_length. intros x Hx. apply K1. lia. }
  destruct (sorted_ents qsort (ents ++ [e])) as (ents' & Hsort & Hperm & Hso).
  assert (Hok' : ents_ok ents') by (eapply ents_ok_more; [done|done|by rewrite Hen|done|done|done]).
  assert (Hlen' : zlen ents' = zlen ents + 1) by (rewrite <- Hlen1; unfold zlen; by rewrite Hperm).
  apply wp_bind. eapply wp_get_word; [apply at_refl|exact C1|lia|lia|lia|].
  change ((secsize - 1024 - SIZEOF_DIRENT) / SIZEOF_DIRENT) with 23. replace (23 <=? zlen ents) with false by lia.
  apply wp_bind, wp_ret, wp_bind. eapply wp_put_word; [apply at_refl|lia|lia|]. intros W1.
  apply wp_bind. eapply wp_put_word; [exact W1|lia|lia|]. intros W2.
  apply wp_bind. eapply wp_get_any; [exact W2|lia|lia|]. intros z.
  apply wp_bind. eapply wp_put_word; [exact W2|lia|lia|]. intros W3.
  change SIZEOF_DIRENT with 128. replace (o + 1024 + 128) with (o + 1152) by lia.
  apply holds_app in B1 as [B1 B2]. rewrite block_length, Hlen1 in B2 by done.
  apply wp_bind. eapply (wp_image_load_eq _ _ _ (flat_map ent_bytes (ents ++ [e]))); [exact W3| |rewrite block_length, Hlen1 by done; lia|lia|lia|].
  { destruct W3 as [_ W3]. assert (Hbl : zlen (flat_map ent_bytes (ents ++ [e])) = 128 * (zlen ents + 1)) by by rewrite block_length, Hlen1.
    repeat (apply hp_skip; [exact W3|rewrite Hbl, le_length; lia|apply in_range_tail in W3]). exact B1. }
  rewrite <- (app_nil_r (flat_map ent_bytes (ents ++ [e]))). replace (Z.to_nat (zlen ents + 1)) with (length (ents ++ [e])) by (rewrite <- Hlen1; unfold zlen; lia).
  rewrite chunks_ents, Hsort, <- flat_map_concat_map by done.
  assert (Hbl : zlen (flat_map ent_bytes ents') = 128 * (zlen ents + 1)) by (rewrite block_length, Hlen'; [done|by destruct Hok']).
  apply wp_bind. eapply wp_image_store; [exact W3|lia|lia|]. intros W4.
  apply wp_bind. eapply wp_put_checksum; [exact W4|lia|lia|lia|lia|lia|]. intros c1 sc1 W5.
  apply wp_bind. unfold in_checksum. eapply wp_put_checksum; [exact W5|lia|lia|lia|lia|lia|]. intros c2 sc2 W6.
  apply wp_bind. eapply wp_get_any; [exact W6|lia|lia|]. intros k.
  apply wp_bind. eapply wp_put_word; [exact W6|lia|lia|]. intros W7.
  eapply wp_put_checksum; [exact W7|lia|lia|lia|lia|lia|]. intros c3 sc3 W8. destruct W8 as [_ W8].
  apply (HQ _ e ents'); [done|done|done|done| |].
  - cbn [fs set_fs sc3]. split.
    + poked W8. eapply holds_ext; [|exact D1]. intros x Hx. apply K1. revert Hx. zl.
    + poked W8. eapply holds_ext; [|exact D2]. intros x Hx. apply K1. revert Hx. zl.
    + poked W8. eapply holds_ext; [|exact D3]. intros x Hx. apply K1. revert Hx. zl.
    + rewrite Hlen'. poked W8.
    + rewrite Hlen'. apply holds_app. rewrite Hbl. split; [poked W8|].
      poked W8. eapply holds_ext; [|exact B2]. done.
  - split; [cbn [fs set_fs sc3]; by rewrite zlen_pokes|]. split; [done|]. split; [done|]. intros x Hx. unfold linking in Hx.
    cbn [fs set_fs sc3]. rewrite pokes_other; [apply K1; lia|done|]. outs.
Qed.

End NewEntry.

End MkfsFacts.
