(* ===== verification/MkfsTree.v ===== *)
(** Images made by the image creator as trees: the directories and files of an image, the
    paths through them, and what linking and adding do to the tree. *)
From Stdlib Require Import ZArith Lia List String Sorting.Sorted.
From stdpp Require Import base option list gmap.
From S2P Require Import Prelude Bytes Crc32 Initrd Mkfs MkfsFacts.
Import Initrd Mkfs MkfsFacts.

#[local] Ltac Zify.zify_post_hook ::= Z.div_mod_to_equations.

Module MkfsTree.

(** ** Objects of an image, by their inodes *)

(** A file has its inode and its data in [n] sectors in a row. *)
Inductive obj : Type := ODir (ents : list ent_t) | OFile (n : Z) (data : list Z) | OOther.
Definition span (x : obj) : Z := match x with OFile n _ => n | _ => 1 end.
Definition odir (x : obj) : bool := match x with ODir _ => true | _ => false end.

(** The data of the file with the inode at [o], and the word that leads to it. *)
Definition place (m : Z -> option Z) (o fl sec p : Z) : Prop :=
  (fl = FSZ_IN_FLAG_INLINE /\ p = o + 1024) \/
  (fl = FSZ_IN_FLAG_SDINLINE /\ exists k, holds m (o + 1024) (le 8 k) /\ 0 <= k < 2 ^ 32 /\ p = 4096 * k) \/
  (fl = FSZ_IN_FLAG_DIRECT /\ p = 4096 * sec) \/
  (fl = FSZ_IN_FLAG_SD /\ exists k, holds m (4096 * sec) (le 4 k) /\ 0 <= k < 2 ^ 32 /\ p = 4096 * k).
Record file_at (m : Z -> option Z) (i n : Z) (data : list Z) : Prop := mk_file_at {
  f_size : holds m (4096 * i + 464) (le 8 (zlen data));
  f_data : exists fl sec p, holds m (4096 * i + 488) (le 8 fl) /\ holds m (4096 * i + 448) (le 8 sec) /\ 0 <= sec < 2 ^ 32 /\
    place m (4096 * i) fl sec p /\ holds m p data /\ 4096 * i + 1024 <= p /\ p + zlen data <= 4096 * (i + n) /\
    (fl = FSZ_IN_FLAG_SD -> i < sec < i + n);
  f_span : 1 <= n;
}.
Record obj_at (m : Z -> option Z) (i : Z) (x : obj) : Prop := mk_obj_at {
  x_magic : holds m (4096 * i) FSZ_IN_MAGIC;
  x_type : exists ty, zlen ty = 4 /\ holds m (4096 * i + 8) ty /\ is_dir ty = odir x;
  x_body : match x with ODir ents => dir_at m (4096 * i) ents /\ ents_ok ents | OFile n data => file_at m i n data | OOther => True end;
}.

Lemma span_pos m i x : obj_at m i x -> 1 <= span x.
Proof. intros [_ _ H]. destruct x; [done|by destruct H|done]. Qed.

(** The checksum and the number of links of an inode do not matter. *)
Lemma obj_keep m m' i x : obj_at m i x ->
  (forall a, 4096 * i <= a < 4096 * (i + span x) -> ~ (4096 * i + 4 <= a < 4096 * i + 8) -> ~ (4096 * i + 104 <= a < 4096 * i + 112) -> m' a = m a) ->
  obj_at m' i x.
Proof.
  intros Hx Hk. pose proof (span_pos _ _ _ Hx) as Hsp. destruct Hx as [Hm (ty&Hl&Hty&Hd) Hb].
  assert (K : forall v l, holds m v l -> 4096 * i + 112 <= v -> v + zlen l <= 4096 * (i + span x) -> holds m' v l).
  { intros v l Hv H1 H2. eapply holds_ext; [|exact Hv]. intros a Ha. apply Hk; lia. }
  assert (Hm' : holds m' (4096 * i) FSZ_IN_MAGIC).
  { eapply holds_ext; [|exact Hm]. change (zlen FSZ_IN_MAGIC) with 4. intros a Ha. apply Hk; lia. }
  assert (Hty' : holds m' (4096 * i + 8) ty) by (eapply holds_ext; [|exact Hty]; rewrite Hl; intros a Ha; apply Hk; lia).
  split; [done|by exists ty|]. destruct x as [ents|n data|]; cbn [span] in *; [| |done].
  - destruct Hb as [[D1 D2 D3 D4 D5] Hok]. split; [|done]. pose proof Hok as [Hall _ _ Hmost]. pose proof (zlen_nonneg ents). split.
    + done.
    + assert (ty = FSZ_FILETYPE_DIR) as -> by (cbn in Hd; by apply bool_decide_eq_true in Hd). done.
    + apply K; [done|lia|change (zlen FSZ_DIR_MAGIC) with 4; lia].
    + apply K; [done|lia|rewrite le_length; lia].
    + apply K; [done|lia|]. rewrite zlen_app, block_length, zlen_zeros by (done || lia). lia.
  - destruct Hb as [F1 (fl&sec&p&F2&F3&F4&F5&F6&F7&F8&F9) F10]. split; [apply K; [done|lia|rewrite le_length; lia]| |done].
    exists fl, sec, p. split; [apply K; [done|lia|rewrite le_length; lia]|]. split; [apply K; [done|lia|rewrite le_length; lia]|].
    split; [done|]. split; [|split; [apply K; [done|lia|lia]|done]].
    destruct F5 as [F5|[(E&k&Hk'&Hkb&Hp)|[F5|(E&k&Hk'&Hkb&Hp)]]]; [by left| | by right; right; left|].
    + right; left. split; [done|]. exists k. split; [apply K; [done|lia|rewrite le_length; lia]|done].
    + right; right; right. split; [done|]. exists k. specialize (F9 E). split; [apply K; [done|lia|rewrite le_length; lia]|done].
Qed.

(** ** The invariant of an image *)

Record super_at (m : Z -> option Z) : Prop := mk_super_at {
  sb_magic_at : holds m 512 FSZ_MAGIC;
  sb_flags_at : holds m 518 (le 1 0);
  sb_logsec_at : holds m 520 (le 2 1);
  sb_root_at : holds m 560 (le 8 1);
  sb_enchash_at : holds m 708 (le 4 0);
}.

Lemma super_keep m m' : super_at m -> (forall a, 512 <= a < 522 \/ 560 <= a < 568 \/ 708 <= a < 712 -> m' a = m a) -> super_at m'.
Proof.
  intros [S1 S2 S3 S4 S5] Hk. split; (eapply holds_ext; [|eassumption]); rewrite ?le_length; try change (zlen FSZ_MAGIC) with 4; intros a Ha; apply Hk; lia.
Qed.

Notation tree := (gmap Z obj).

(** The objects of the tree are in the image, none of them in the way of another one. *)
Record image_ok (s : mkfs_t) (G : tree) : Prop := mk_image_ok {
  im_size : size s mod 4096 = 0 /\ 4096 <= size s <= zlen (fs s) /\ zlen (fs s) < 2 ^ 31;
  im_super : super_at (zget (fs s));
  im_objs i x : G !! i = Some x -> 1 <= i /\ 4096 * (i + span x) <= size s /\ obj_at (zget (fs s)) i x;
  im_apart i j x y : G !! i = Some x -> G !! j = Some y -> i < j -> i + span x <= j;
}.

Lemma apart_sectors s G i j x y : image_ok s G -> G !! i = Some x -> G !! j = Some y -> i <> j -> i + span x <= j \/ j + span y <= i.
Proof.
  intros H Hx Hy Hne. destruct (Z.lt_trichotomy i j) as [Hl|[Hl|Hl]]; [left|done|right]; by eapply im_apart.
Qed.

(** Linking the inode [i] changes the directory [d] and nothing else. *)
Lemma image_linked s s' G d i ents ents' y :
  image_ok s G -> G !! d = Some (ODir ents) -> G !! i = Some y -> i <> d -> dir_at (zget (fs s')) (4096 * d) ents' -> ents_ok ents' ->
  same_but (linking (4096 * d) (4096 * i)) s s' -> image_ok s' (<[d := ODir ents']> G).
Proof.
  intros Hok Hd Hi Hne Hdir Hents (L&Sz&_&K). pose proof (im_objs _ _ Hok _ _ Hd) as (Hd1&Hd2&_). pose proof (im_objs _ _ Hok _ _ Hi) as (Hi1&Hi2&Hix).
  split.
  - rewrite L, Sz. by destruct Hok.
  - eapply super_keep; [by destruct Hok|]. intros a Ha. apply K. unfold linking. lia.
  - intros j x Hj. rewrite Sz. destruct (decide (j = d)) as [->|Hjd].
    + rewrite lookup_insert_eq in Hj. injection Hj as <-. cbn [span] in *. split; [done|]. split; [done|]. pose proof Hdir as [D1 D2 _ _ _].
      split; [done|exists FSZ_FILETYPE_DIR; by split|done].
    + rewrite lookup_insert_ne in Hj by done. destruct (im_objs _ _ Hok _ _ Hj) as (H1&H2&Hx). split; [done|]. split; [done|].
      eapply obj_keep; [exact Hx|]. intros a Ha Ha1 Ha2. apply K. unfold linking.
      pose proof (apart_sectors _ _ _ _ _ _ Hok Hj Hd Hjd) as Hap. cbn [span] in Hap. pose proof (span_pos _ _ _ Hix).
      destruct (decide (j = i)) as [->|Hji]; [lia|]. pose proof (apart_sectors _ _ _ _ _ _ Hok Hj Hi Hji). lia.
  - assert (Hall : forall j x, <[d := ODir ents']> G !! j = Some x -> exists x', G !! j = Some x' /\ span x' = span x).
    { intros j x Hj. destruct (decide (j = d)) as [->|Hjd].
      - rewrite lookup_insert_eq in Hj. injection Hj as <-. by exists (ODir ents).
      - rewrite lookup_insert_ne in Hj by done. by exists x. }
    intros j k x z Hj Hk Hjk. destruct (Hall _ _ Hj) as (x'&Hx'&<-). destruct (Hall _ _ Hk) as (z'&Hz'&_). by eapply im_apart.
Qed.

(** ** Paths *)

(** [path] leads from the directory [i] to the directory [d] with [m] left. *)
Inductive walks (G : tree) : Z -> list Z -> Z -> list Z -> Prop :=
| walks_here i m : walks G i m i m
| walks_down i ents e comp rest d m :
    G !! i = Some (ODir ents) -> e ∈ ents -> e_name e = comp ++ [SLASH] -> SLASH ∉ comp -> walks G (e_fid e) rest d m ->
    walks G i (comp ++ SLASH :: rest) d m.

Lemma member_slash comp rest : SLASH ∉ comp -> member (comp ++ SLASH :: rest) = zlen comp.
Proof.
  induction comp as [|c comp IH]; intros Hc; [done|]. apply not_elem_of_cons in Hc as [Hne Hc]. cbn [app member].
  replace (c =? SLASH) with false by (symmetry; apply Z.eqb_neq; congruence). by rewrite IH, zlen_cons.
Qed.

Lemma first_member_slash comp rest : SLASH ∉ comp -> first_member (comp ++ SLASH :: rest) = comp ++ [SLASH].
Proof.
  intros Hc. unfold first_member. rewrite member_slash by done. change (comp ++ SLASH :: rest) with (comp ++ [SLASH] ++ rest). rewrite app_assoc.
  apply take_app_length'. unfold zlen. rewrite length_app. cbn. lia.
Qed.

Lemma hit_slash comp rest e : SLASH ∉ comp -> hit (comp ++ SLASH :: rest) e = bool_decide (comp ++ [SLASH] `prefix_of` e_name e).
Proof.
  intros Hc. unfold hit. rewrite member_slash, first_member_slash, zlen_app, zlen_cons by done. pose proof (zlen_nonneg rest).
  by replace (zlen comp + (1 + zlen rest) =? zlen comp) with false by lia.
Qed.

Section Link.
Context (ts : Z) (qsort : list (list Z) -> list (list Z)) {S : SortOk qsort}.

Lemma wp_not_encrypted s G (Q : unit -> mkfs_t -> Prop) : image_ok s G -> Q tt s -> wp not_encrypted Q s.
Proof.
  intros [Hz [_ _ _ _ H5] _ _] HQ. unfold not_encrypted. apply wp_bind.
  eapply wp_get_word; [apply at_refl|exact H5|done|done|lia|]. by apply wp_ret.
Qed.

(** The name that an object gets, and a name that is free in a directory. *)
Definition name_of (x : obj) (m : list Z) : list Z := m ++ if odir x then [SLASH] else [].
Definition free_in (ents : list ent_t) (x : obj) (m : list Z) : Prop :=
  Forall (fun e => hit m e = false) ents /\ name_of x m ∉ e_name <$> ents /\ zlen ents < 23 /\ zlen (name_of x m) <= 110.

Lemma wp_link_from G i path d m inode ents x fuel toinode s (Q : unit -> mkfs_t -> Prop) :
  walks G i path d m -> image_ok s G -> (toinode = i \/ (toinode = 0 /\ i = 1)) -> G !! i <> None -> (length path < fuel)%nat -> bytes_ok path ->
  G !! d = Some (ODir ents) -> G !! inode = Some x -> inode <> d -> free_in ents x m ->
  (forall s' e ents', e_fid e = inode -> e_name e = name_of x m -> ents' ≡ₚ ents ++ [e] ->
     image_ok s' (<[d := ODir ents']> G) -> same_but (linking (4096 * d) (4096 * inode)) s s' -> Q tt s') ->
  wp (link_from ts qsort fuel inode path toinode) Q s.
Proof.
  intros Hw Hok. revert toinode fuel. induction Hw as [i m|i ents0 e comp rest d m Hi0 He Hen Hc Hw IH];
    intros toinode fuel Hto Hin Hf Hp Hd Hi Hne Hfree HQ; (destruct fuel as [|fuel]; [lia|]); cbn [link_from].
  all: apply wp_bind; eapply wp_not_encrypted; [exact Hok|]; apply wp_bind.
  all: pose proof (im_size _ _ Hok) as (_&Hz&Hz').
  all: assert (Hroot : forall Q', Q' i s -> wp (if toinode =? 0 then get_word 8 560 else ret toinode) Q' s).
  1, 3: intros Q' HQ'; destruct (G !! i) as [y|] eqn:Ey; [|done]; destruct (im_objs _ _ Hok _ _ Ey) as (Hi1&_);
    destruct Hto as [->|[-> ->]]; [replace (i =? 0) with false by lia; by apply wp_ret|]; change (0 =? 0) with true; cbv iota;
    eapply wp_get_word; [apply at_refl|apply sb_root_at; by destruct Hok|done|done|lia|exact HQ'].
  - apply Hroot. clear Hroot. destruct (im_objs _ _ Hok _ _ Hd) as (Hd1&Hd2&[_ _ [Hdir Hents]]). cbn [span] in Hd2.
    destruct (im_objs _ _ Hok _ _ Hi) as (Hi1&Hi2&Hx). pose proof (span_pos _ _ _ Hx) as Hsp. pose proof Hx as [_ (ty&Htl&Hty&Htd) _].
    destruct Hfree as (Hf1&Hf2&Hf3&Hf4).
    assert (Eo : u32 (i * secsize) = 4096 * i) by (change secsize with 4096; unfold u32, wrap; rewrite Z.mod_small; lia). rewrite Eo.
    assert (Hname : entry_name ty m = name_of x m) by (unfold entry_name, name_of; by rewrite Htd).
    apply wp_bind. eapply (wp_scan_none (fs s) []); [apply at_refl|exact Hdir|exact Hents|lia|lia| |exact Hf1|exact Hf3|].
    { eapply Forall_impl; [exact Hp|]. cbn. lia. }
    rewrite !s32_small by lia. eapply wp_new_entry; [exact S|exact Hdir|exact Hents|done|exact Hty|done|lia|lia|done|lia|lia|exact Hp|by rewrite Hname|by rewrite Hname|].
    intros s' e ents' H1 H2 H3 H4 H5 H6. eapply (HQ s' e ents'); [done|by rewrite H2|done| |done]. by eapply image_linked.
  - apply Hroot. clear Hroot. destruct (im_objs _ _ Hok _ _ Hi0) as (Hd1&Hd2&[_ _ [Hdir Hents]]). cbn [span] in Hd2.
    assert (Eo : u32 (i * secsize) = 4096 * i) by (change secsize with 4096; unfold u32, wrap; rewrite Z.mod_small; lia). rewrite Eo.
    destruct (first_exact _ _ Hents He) as (pre&post&Esplit&Hpre).
    apply wp_bind. eapply (wp_scan_hit (fs s) []); [apply at_refl|exact Hdir|exact Hents|lia|lia| |exact Esplit| | |].
    { eapply Forall_impl; [exact Hp|]. cbn. lia. }
    { eapply Forall_impl; [exact Hpre|]. intros z Hz2. cbn in *. rewrite hit_slash by done. rewrite <- Hen. by rewrite bool_decide_false. }
    { rewrite hit_slash by done. rewrite Hen. by rewrite bool_decide_true. }
    rewrite member_slash, zlen_app, zlen_cons by done. pose proof (zlen_nonneg rest). replace (zlen comp + (1 + zlen rest) <=? zlen comp) with false by lia.
    assert (Hfid : 0 < e_fid e < 2 ^ 31). { destruct Hents as [Ha _ _ _]. rewrite Forall_forall in Ha. by destruct (Ha e He). }
    rewrite s32_small by lia. replace (drop (Z.to_nat (zlen comp + 1)) (comp ++ SLASH :: rest)) with rest.
    2: { change (comp ++ SLASH :: rest) with (comp ++ [SLASH] ++ rest). rewrite app_assoc, drop_app_length'; [done|]. unfold zlen. rewrite length_app. cbn. lia. }
    apply IH; [by left| |rewrite length_app in Hf; cbn in Hf; lia| |done|done|done|done|done].
    + destruct Hw; [by rewrite Hd|by rewrite H0].
    + apply Forall_app in Hp as [_ Hp]. by apply Forall_cons in Hp as [_ Hp].
Qed.

End Link.
End MkfsTree.
