(* ===== verification/MkfsBuild.v ===== *)
(** How the image creator makes an image: new inodes, files with their data, directories of
    the host, and the invariant of the image under all of it. *)
From Stdlib Require Import ZArith Lia List String Sorting.Sorted.
From stdpp Require Import base option list gmap.
From S2P Require Import Prelude Bytes Crc32 Initrd Mkfs MkfsFacts MkfsTree.
Import Initrd Mkfs MkfsFacts MkfsTree.

#[local] Ltac Zify.zify_post_hook ::= Z.div_mod_to_equations.

Module MkfsBuild.

(** ** What operations leave *)

Lemma same_refl P s : same_but P s s.
Proof. done. Qed.
Lemma same_trans P Q s s' s'' : same_but P s s' -> same_but Q s' s'' -> same_but (fun x => P x \/ Q x) s s''.
Proof.
  intros (L&Z&I&K) (L'&Z'&I'&K'). split; [congruence|]. split; [congruence|]. split; [congruence|].
  intros x Hx. rewrite K' by tauto. apply K. tauto.
Qed.
Lemma same_weaken P Q s s' : same_but P s s' -> (forall x, P x -> Q x) -> same_but Q s s'.
Proof. intros (L&Z&I&K) H. repeat split; try done. intros x Hx. apply K. naive_solver. Qed.
Lemma same_holds P s s' v l : same_but P s s' -> (forall x, v <= x < v + zlen l -> ~ P x) -> holds (zget (fs s)) v l -> holds (zget (fs s')) v l.
Proof. intros (_&_&_&K) HP. apply holds_ext. intros x Hx. apply K. by apply HP. Qed.

(** Writes are all in a set of places. *)
Lemma at_same P b ws s s' : at_ b ws s' -> b = fs s -> size s' = size s -> initrd s' = initrd s ->
  Forall (fun w => forall x, w.1 <= x < w.1 + zlen w.2 -> P x) ws -> same_but P s s'.
Proof.
  intros [E Hr] -> Hz Hi Hw. split; [rewrite E; by apply zlen_pokes|]. split; [done|]. split; [done|]. intros x Hx.
  rewrite E. apply pokes_other; [done|]. eapply Forall_impl; [exact Hw|]. cbn. intros [o l] H. cbn in *.
  destruct (Z.lt_ge_cases x o); [lia|]. destruct (Z.lt_ge_cases x (o + zlen l)); [|lia]. exfalso. apply Hx, H. lia.
Qed.
(** The writes of a list, one after the other. *)
Ltac ins := repeat (apply List.Forall_cons; [intros ? ?; revert select (_ <= _ < _); zl|]); apply List.Forall_nil.

Section Build.
Context (ts : Z) (uuid : list Z) (room : Z -> bool) (qsort : list (list Z) -> list (list Z)) {S : SortOk qsort}.
Context (Hroom : forall n, room n = true).

(** ** New inodes *)

Definition dir_part (in_ x : Z) : Prop := in_ + 448 <= x < in_ + 496 \/ in_ + 1024 <= x < in_ + 1040.

Lemma wp_empty_dir in_ s (Q : unit -> mkfs_t -> Prop) :
  0 <= in_ -> in_ + 4096 <= zlen (fs s) -> holds (zget (fs s)) (in_ + 1040) (zeros 8) ->
  (forall s', same_but (dir_part in_) s s' ->
     holds (zget (fs s')) (in_ + 1024) FSZ_DIR_MAGIC -> Q tt s') -> wp (empty_dir in_) Q s.
Proof.
  intros H0 Hl Hz HQ. unfold dir_part in HQ. unfold empty_dir. apply wp_bind. eapply wp_put_word; [apply at_refl|lia|lia|]. intros W1.
  apply wp_bind. eapply wp_put_word; [exact W1|lia|lia|]. intros W2. apply wp_bind. eapply wp_put_word; [exact W2|lia|lia|]. intros W3.
  apply wp_bind. eapply wp_image_store; [exact W3|lia|change (zlen FSZ_DIR_MAGIC) with 4; lia|]. intros W4.
  apply wp_bind. eapply (wp_get_word _ _ _ 0); [exact W4| |lia|lia|lia|].
  { destruct W4 as [_ W4]. poked W4. exact Hz. }
  eapply wp_put_checksum; [exact W4|lia|lia|change SIZEOF_DIRENT with 128; lia|lia|change SIZEOF_DIRENT with 128; lia|]. intros c s' W5. apply HQ.
  - eapply at_same; [exact W5|done|done|done|]. ins.
  - destruct W5 as [E W5]. rewrite E. poked W5.
Qed.

Lemma cstring_len m w : cstring m = Some w -> zlen w <= zlen m.
Proof.
  revert w. induction m as [|c m IH]; intros w H; [done|]. cbn in H. rewrite zlen_cons. pose proof (zlen_nonneg m).
  destruct (c =? 0); [injection H as <-; change (zlen (@nil Z)) with 0; lia|]. destruct (cstring m) as [w'|]; [|done].
  injection H as <-. rewrite zlen_cons. specialize (IH w' eq_refl). lia.
Qed.

(** The part of an inode that the type and the target of a link are written to. *)
Definition mime_part (filetype : list Z) (in_ x : Z) : Prop :=
  in_ + 12 <= x < in_ + 48 \/ (filetype = FSZ_FILETYPE_SYMLINK /\ (in_ + 464 <= x < in_ + 472 \/ in_ + 1024 <= x < in_ + 4096)).

Lemma wp_put_mimetype filetype mimetype in_ s (Q : unit -> mkfs_t -> Prop) :
  filetype <> FSZ_FILETYPE_UNION -> (forall m, mimetype = Some m -> cstring m <> None) -> 0 <= in_ -> in_ + 4096 <= zlen (fs s) ->
  (forall s', same_but (mime_part filetype in_) s s' -> Q tt s') -> wp (put_mimetype filetype mimetype in_) Q s.
Proof.
  intros Hu Hm H0 Hl HQ. unfold put_mimetype. rewrite (bool_decide_false (filetype = FSZ_FILETYPE_UNION)) by done. rewrite orb_false_r.
  destruct mimetype as [m|]; [|by apply wp_ret, HQ]. specialize (Hm m eq_refl). destruct (cstring m) as [w|] eqn:Ew; [|done]. clear Hm.
  pose proof (cstring_len _ _ Ew) as Hw. pose proof (zlen_nonneg w). apply wp_bind. eapply wp_need; [done|].
  assert (Ht : forall n, 0 <= n <= zlen m -> zlen (take (Z.to_nat n) m) = n) by (intros n Hn; unfold zlen in *; rewrite length_take; lia).
  unfold mime_part in HQ. case_bool_decide as Et; cbv zeta.
  - change (secsize - 1024) with 3072. change (3072 =? 36) with false. cbv iota. cbn [negb when].
    set (n := if 3072 <? zlen w then 3072 else zlen w). assert (Hn : 0 <= n <= zlen m /\ n <= 3072) by (unfold n; destruct (3072 <? zlen w) eqn:E; lia).
    replace (zlen m <? n) with false by lia. apply wp_bind. eapply wp_image_store; [apply at_refl|lia|rewrite Ht; lia|]. intros W1.
    eapply wp_put_word; [exact W1|lia|lia|]. intros W2. apply HQ. eapply at_same; [exact W2|done|done|done|].
    constructor; [cbn [fst snd]; rewrite le_length; intros x Hx; right; split; [done|lia]|].
    constructor; [cbn [fst snd]; rewrite Ht by lia; intros x Hx; right; split; [done|lia]|done].
  - change (36 =? 36) with true. cbv iota. cbn [negb when].
    set (n := if 36 <? zlen w then 36 else zlen w). assert (Hn : 0 <= n <= zlen m /\ n <= 36) by (unfold n; destruct (36 <? zlen w) eqn:E; lia).
    replace (zlen m <? n) with false by lia. apply wp_bind. eapply wp_image_store; [apply at_refl|lia|rewrite Ht; lia|]. intros W1.
    apply wp_ret, HQ. eapply at_same; [exact W1|done|done|done|].
    constructor; [cbn [fst snd]; rewrite Ht by lia; intros x Hx; lia|done].
Qed.

(** The image [s] with [n] zeros behind its first [o] bytes, and no more. *)
Definition cleared (o n : Z) (s s' : mkfs_t) : Prop :=
  zlen (fs s') = o + n /\ size s' = size s /\ initrd s' = initrd s /\
  (forall x, x < o -> zget (fs s') x = zget (fs s) x) /\ holds (zget (fs s')) o (zeros n).

Lemma wp_resize_clear {A} n o k (rest : M mkfs_t A) s (Q : A -> mkfs_t -> Prop) :
  0 <= o -> 0 <= k -> n = o + k -> o <= zlen (fs s) -> (forall s', cleared o k s s' -> wp rest Q s') ->
  wp (resize_fs room n ;;; clear o k ;;; rest) Q s.
Proof.
  intros Ho Hk -> Hl HQ. unfold resize_fs. rewrite Hroom. apply wp_bind, wp_modify. set (b := take _ _ ++ _).
  assert (Hb : zlen b = o + k).
  { unfold b. rewrite zlen_app. destruct (Z.le_gt_cases (zlen (fs s)) (o + k)).
    - rewrite zlen_zeros by lia. unfold zlen in *. rewrite length_take. lia.
    - unfold zeros, zlen in *. rewrite length_take, length_replicate. lia. }
  unfold clear. apply wp_bind. eapply wp_image_store; [apply at_refl|lia|cbn [fs set_fs]; fold b; rewrite zlen_zeros by lia; lia|]. cbn [fs set_fs]. fold b. intros [_ W].
  apply HQ. split; [cbn [fs set_fs]; by rewrite zlen_pokes|]. split; [done|]. split; [done|]. cbn [fs set_fs]. split.
  - intros x Hx. rewrite pokes_other; [|done|constructor; [cbn [fst snd]; lia|done]]. unfold b, zget. destruct (Z.ltb_spec x 0); [done|].
    rewrite lookup_app_l by (rewrite length_take; unfold zlen in *; lia). apply lookup_take_lt. lia.
  - poked W.
Qed.

(** The inode is the sector at the end of the image, which grows by it. *)
Record new_inode (filetype : list Z) (s s' : mkfs_t) : Prop := mk_new_inode {
  ni_len : zlen (fs s') = size s + 4096;
  ni_size : size s' = size s + 4096;
  ni_initrd : initrd s' = initrd s;
  ni_kept x : x < size s -> zget (fs s') x = zget (fs s) x;
  ni_magic : holds (zget (fs s')) (size s) FSZ_IN_MAGIC;
  ni_type : holds (zget (fs s')) (size s + 8) (take 4 filetype);
  ni_body : filetype <> FSZ_FILETYPE_SYMLINK -> filetype <> FSZ_FILETYPE_DIR -> holds (zget (fs s')) (size s + 1024) (zeros 3072);
  ni_dir : filetype = FSZ_FILETYPE_DIR -> holds (zget (fs s')) (size s + 1024) FSZ_DIR_MAGIC /\ holds (zget (fs s')) (size s + 1040) (zeros 3056);
}.

Lemma wp_add_inode filetype mimetype s (Q : Z -> mkfs_t -> Prop) :
  holds (zget (fs s)) 708 (le 4 0) -> 4096 <= size s <= zlen (fs s) -> size s mod 4096 = 0 -> size s + 4096 < 2 ^ 31 ->
  filetype <> FSZ_FILETYPE_UNION -> zlen (take 4 filetype) = 4 -> (forall m, mimetype = Some m -> cstring m <> None) ->
  (forall s', new_inode filetype s s' -> Q (size s / 4096) s') -> wp (add_inode ts room filetype mimetype) Q s.
Proof.
  intros Hen Hs Hmod Hmax Hu Hty Hm HQ. unfold add_inode, not_encrypted. apply wp_bind, wp_bind.
  eapply wp_get_word; [apply at_refl|exact Hen|done|done|lia|]. apply wp_ret, wp_bind, wp_gets.
  eapply wp_resize_clear; [lia|done|unfold u32, wrap; rewrite Z.mod_small; [done|change secsize with 4096; lia]|lia|].
  change secsize with 4096. intros s1 (L1&Z1&I1&K1&C1). set (o := size s) in *.
  apply wp_bind. eapply wp_image_store; [apply at_refl|lia|change (zlen FSZ_IN_MAGIC) with 4; lia|]. intros W1.
  apply wp_bind. eapply wp_image_store; [exact W1|lia|change (zlen (str "root" ++ [0])) with 5; lia|]. intros W2.
  apply wp_bind. eapply wp_put_word; [exact W2|lia|lia|]. intros W3.
  apply wp_bind. eapply wp_image_store; [exact W3|lia|rewrite Hty; lia|]. set (ws := _ :: _). set (s2 := set_fs _ _). intros W4.
  assert (S12 : same_but (fun x => o <= x < o + 12 \/ o + 448 <= x < o + 512) s1 s2).
  { eapply at_same; [exact W4|done|done|done|]. repeat (apply List.Forall_cons; [cbn [fst snd]; rewrite ?Hty, ?le_length; change (zlen FSZ_IN_MAGIC) with 4; change (zlen (str "root" ++ [0])) with 5; lia|]). done. }
  assert (M2 : holds (zget (fs s2)) o FSZ_IN_MAGIC /\ holds (zget (fs s2)) (o + 8) (take 4 filetype)).
  { destruct W4 as [E W4]. rewrite E. split; [|apply hp_here; [exact W4|done|done]].
    apply hp_skip; [exact W4|rewrite Hty; change (zlen FSZ_IN_MAGIC) with 4; lia|apply in_range_tail in W4]. poked W4. }
  clear W1 W2 W3 W4. clearbody s2. clear ws. pose proof S12 as (L2&Z2&I2&_). destruct M2 as [M2 T2].
  assert (C2 : holds (zget (fs s2)) (o + 1024) (zeros 3072)).
  { eapply same_holds; [exact S12| |eapply holds_zeros_sub; [exact C1|lia..]]. rewrite zlen_zeros by lia. lia. }
  apply wp_bind. assert (Hdir : forall s3, same_but (dir_part o) s2 s3 -> (filetype <> FSZ_FILETYPE_DIR -> s2 = s3) -> (filetype = FSZ_FILETYPE_DIR -> holds (zget (fs s3)) (o + 1024) FSZ_DIR_MAGIC) ->
    wp (put_mimetype filetype mimetype o ;;; put_word 8 (o + 80) ts ;;; put_word 8 (o + 480) ts ;;; in_checksum o ;;; grow ;;;
        n <-- gets size ;; ret (n / 4096 - 1)) Q s3).
  { intros s3 S23 N3 D3. pose proof S23 as (L3&Z3&I3&_). apply wp_bind. apply wp_put_mimetype; [done|done|lia|lia|].
    intros s4 S34. pose proof S34 as (L4&Z4&I4&_). apply wp_bind. eapply wp_put_word; [apply at_refl|lia|lia|]. intros W1.
    apply wp_bind. eapply wp_put_word; [exact W1|lia|lia|]. intros W2. apply wp_bind. eapply wp_put_checksum; [exact W2|lia|lia|lia|lia|lia|].
    intros c s5 W3. assert (S45 : same_but (fun x => o + 4 <= x < o + 8 \/ o + 80 <= x < o + 88 \/ o + 480 <= x < o + 488) s4 s5) by (eapply at_same; [exact W3|done|done|done|ins]).
    clear W1 W2 W3. clearbody s5. pose proof (same_trans _ _ _ _ _ (same_trans _ _ _ _ _ S23 S34) S45) as S25. pose proof S25 as (L5&Z5&I5&K5).
    apply wp_bind, wp_modify, wp_bind, wp_gets, wp_ret. cbn [size set_size]. change secsize with 4096. rewrite s32_small by lia.
    replace ((size s5 + 4096) / 4096 - 1) with (o / 4096) by lia. apply HQ. unfold dir_part, mime_part in *. split; cbn [fs size initrd set_size].
    - lia.
    - lia.
    - congruence.
    - intros x Hx. destruct S12 as (_&_&_&K2). rewrite K5 by (fold o in Hx; lia). rewrite K2 by (fold o in Hx; lia). apply K1. exact Hx.
    - eapply same_holds; [exact S25| |exact M2]. change (zlen FSZ_IN_MAGIC) with 4. fold o. intros x Hx. cbn beta. intuition lia.
    - eapply same_holds; [exact S25| |exact T2]. rewrite Hty. fold o. intros x Hx. cbn beta. intuition lia.
    - intros Hne Hne'. specialize (N3 Hne'). subst s3. eapply same_holds; [exact (same_trans _ _ _ _ _ S34 S45)| |exact C2].
      rewrite zlen_zeros by lia. intros x Hx. cbn beta. unfold o in *. intuition (congruence || lia).
    - intros E. assert (Hns : filetype <> FSZ_FILETYPE_SYMLINK) by by rewrite E. split; (eapply same_holds; [exact (same_trans _ _ _ _ _ S34 S45)| |]).
      + change (zlen FSZ_DIR_MAGIC) with 4. intros x Hx. cbn beta. unfold o in *. intuition (congruence || lia).
      + by apply D3.
      + rewrite zlen_zeros by lia. intros x Hx. cbn beta. unfold o in *. intuition (congruence || lia).
      + eapply same_holds; [exact S23| |eapply holds_zeros_sub; [exact C2|unfold o; lia..]]. rewrite zlen_zeros by lia. intros x Hx. fold o in Hx. lia. }
  apply wp_when; intros Et.
  - apply wp_empty_dir; [lia|lia|eapply holds_zeros_sub; [exact C2|lia..]|]. intros s3 S3 D3. apply bool_decide_eq_true in Et. by apply Hdir.
  - apply bool_decide_eq_false in Et. by apply Hdir.
Qed.

(** ** New objects *)

Lemma image_fresh s G : image_ok s G -> G !! (size s / 4096) = None.
Proof.
  intros H. destruct (G !! (size s / 4096)) as [x|] eqn:E; [|done]. destruct (im_size _ _ H) as (Hm&_).
  destruct (im_objs _ _ H _ _ E) as (_&H1&Hx). apply span_pos in Hx. lia.
Qed.

Lemma image_added s s' G x : image_ok s G -> (forall a, a < size s -> zget (fs s') a = zget (fs s) a) ->
  size s' mod 4096 = 0 -> size s + 4096 * span x <= size s' <= zlen (fs s') -> zlen (fs s') < 2 ^ 31 ->
  obj_at (zget (fs s')) (size s / 4096) x -> image_ok s' (<[size s / 4096 := x]> G).
Proof.
  intros Hok Hk Hm Hz Hz' Hx. pose proof (image_fresh _ _ Hok) as Hf. pose proof (span_pos _ _ _ Hx) as Hsp. pose proof (im_size _ _ Hok) as (Hm0&Hs0&_). split.
  - lia.
  - eapply super_keep; [by destruct Hok|]. intros a Ha. apply Hk. lia.
  - intros i y Hi. destruct (decide (i = size s / 4096)) as [->|Hne].
    + rewrite lookup_insert_eq in Hi. injection Hi as <-. split; [lia|]. split; [lia|done].
    + rewrite lookup_insert_ne in Hi by done. destruct (im_objs _ _ Hok _ _ Hi) as (H1&H2&H3). split; [done|]. split; [lia|].
      eapply obj_keep; [exact H3|]. intros a Ha _ _. apply Hk. lia.
  - intros i j y z Hi Hj Hij. destruct (decide (i = size s / 4096)) as [->|Hni].
    + rewrite lookup_insert_ne in Hj by lia. destruct (im_objs _ _ Hok _ _ Hj) as (H1&H2&H3). apply span_pos in H3. lia.
    + rewrite lookup_insert_ne in Hi by done. destruct (im_objs _ _ Hok _ _ Hi) as (H1&H2&H3).
      destruct (decide (j = size s / 4096)) as [->|Hnj]; [lia|]. rewrite lookup_insert_ne in Hj by done. by eapply im_apart.
Qed.

(** The image that a step leaves: it grows by at most [n] sectors. *)
Definition grown (n : Z) (s s' : mkfs_t) : Prop := initrd s' = initrd s /\ size s <= size s' <= size s + 4096 * n.

Lemma new_at ty s s' : new_inode ty s s' -> size s mod 4096 = 0 -> exists i, size s / 4096 = i /\ size s = 4096 * i.
Proof. intros _ Hm. exists (size s / 4096). lia. Qed.

Lemma new_dir s s' : new_inode FSZ_FILETYPE_DIR s s' -> size s mod 4096 = 0 -> obj_at (zget (fs s')) (size s / 4096) (ODir []).
Proof.
  intros H Hm. destruct (new_at _ _ _ H Hm) as (i&->&E). destruct H as [_ _ _ _ H1 H2 H3 H4]. rewrite E in *.
  specialize (H4 eq_refl) as [H4 H5]. split; [done| |].
  - exists FSZ_FILETYPE_DIR. by split.
  - split.
    + split; [done|done|done| |].
      * change (zlen (@nil ent_t)) with 0. change (le 8 0) with (zeros 8). eapply holds_zeros_sub; [exact H5|lia..].
      * cbn [flat_map app]. change (zlen (@nil ent_t)) with 0. eapply holds_zeros_sub; [exact H5|lia..].
    + split; [done|constructor|constructor|done].
Qed.

Lemma new_other ty s s' : new_inode ty s s' -> size s mod 4096 = 0 -> zlen (take 4 ty) = 4 -> is_dir (take 4 ty) = false ->
  obj_at (zget (fs s')) (size s / 4096) OOther.
Proof.
  intros H Hm Hl Hd. destruct (new_at _ _ _ H Hm) as (i&->&E). destruct H as [_ _ _ _ H1 H2 _ _]. rewrite E in *. split; [done| |done]. by exists (take 4 ty).
Qed.

(** ** The data of a file *)

(** What filling the sectors from the one numbered [i] on may change, and what it leaves. *)
Definition filled (o in_ l i ptr n x : Z) : Prop := 
  in_ + 96 <= x < in_ + 104 \/ (ptr <= x < ptr + 16 * n /\ (x - ptr) mod 16 < 4) \/ o + (i + l) * 4096 <= x.

Lemma wp_fill_sectors n in_ data rs l i ptr k g s (Q : Z -> mkfs_t -> Prop) :
  initrd s = true -> 0 <= i -> 0 <= l <= 1 -> zlen data = rs + 4097 -> (i + Z.of_nat n - 1) * 4096 < rs <= (i + Z.of_nat n) * 4096 ->
  0 <= in_ -> in_ + 104 <= ptr -> ptr + 16 * Z.of_nat n <= size s + l * 4096 -> size s + (i + Z.of_nat n + l) * 4096 <= zlen (fs s) ->
  (forall s', same_but (filled (size s) in_ l i ptr (Z.of_nat n)) s s' ->
     (forall x, i * 4096 <= x < rs -> zget (fs s') (size s + l * 4096 + x) = zget data x) ->
     ((0 < n)%nat -> holds (zget (fs s')) ptr (le 4 k)) -> Q g s') ->
  wp (fill_sectors n in_ data rs l i ptr k g) Q s.
Proof.
  revert i ptr k s. induction n as [|n IH]; intros i ptr k s Hini Hi Hl Hd Hr Hin Hptr Hpo Hlen HQ.
  - apply wp_ret, HQ; [apply same_refl|lia|lia].
  - cbn [fill_sectors]. apply wp_bind, wp_gets. rewrite Hini. cbn [orb]. change secsize with 4096.
    set (c := if rs <? (i + l) * 4096 then rs mod 4096 else 4096).
    assert (Hc : 0 <= c <= 4096 /\ rs <= i * 4096 + c \/ c = 4096) by (unfold c; destruct (rs <? (i + l) * 4096) eqn:E; lia).
    assert (Hsl : zlen (slice (i * 4096) c data) = c) by (apply zlen_slice; lia).
    apply wp_bind. eapply wp_put_word; [apply at_refl|lia|lia|]. intros W1. apply wp_bind, wp_gets. cbn [size set_fs].
    apply wp_bind. eapply wp_image_store; [exact W1|lia|rewrite Hsl; lia|]. intros W2.
    apply wp_bind. eapply wp_get_any; [exact W2|lia|lia|]. intros b. apply wp_bind. eapply wp_put_word; [exact W2|lia|lia|].
    set (s1 := set_fs _ _). intros W3.
    assert (S1 : same_but (filled (size s) in_ l i ptr (Z.of_nat (1 + n))) s s1).
    { eapply at_same; [exact W3|done|done|done|]. unfold filled. repeat (apply List.Forall_cons; [cbn [fst snd]; rewrite ?Hsl, ?le_length; lia|]). done. }
    assert (P1 : holds (zget (fs s1)) ptr (le 4 k)).
    { destruct W3 as [E W3]. rewrite E. apply hp_skip; [exact W3|rewrite !le_length; lia|apply in_range_tail in W3].
      apply hp_skip; [exact W3|rewrite Hsl, le_length; lia|apply in_range_tail in W3]. by apply hp_here. }
    assert (D1 : holds (zget (fs s1)) (size s + (i + l) * 4096) (slice (i * 4096) c data)).
    { destruct W3 as [E W3]. rewrite E. apply hp_skip; [exact W3|rewrite Hsl, le_length; lia|apply in_range_tail in W3]. by apply hp_here. }
    assert (Z1 : size s1 = size s) by done. assert (I1 : initrd s1 = initrd s) by done. pose proof S1 as (L1&_&_&_). clear W1 W2 W3. clearbody s1.
    apply IH; [congruence|lia|lia|lia|lia|lia|lia|lia|lia|]. rewrite Z1. intros s2 S2 D2 _. apply HQ.
    + eapply same_weaken; [exact (same_trans _ _ _ _ _ S1 S2)|]. unfold filled. lia.
    + intros x Hx. destruct (Z.lt_ge_cases x ((i + 1) * 4096)) as [Hlt|Hge]; [|apply D2; lia].
      destruct S2 as (_&_&_&K2). rewrite K2 by (unfold filled; lia).
      assert (Hs : zget (slice (i * 4096) c data) (x - i * 4096) = zget data x) by (rewrite zget_slice by lia; f_equal; lia).
      destruct (zget_is_Some data x) as [y Hy]; [lia|]. rewrite Hy in Hs |- *. rewrite <- (D1 _ _ Hs). f_equal. lia.
    + intros _. eapply same_holds; [exact S2| |exact P1]. rewrite le_length. unfold filled. lia.
Qed.

(** A file that has a place for its data: it fits in one sector of a sector directory, and
    it is not a sector that is left out. *)
Definition file_ok (c : list Z) : Prop := zlen c <= 2 ^ 20 /\ (3072 < zlen c <= 4096 -> Exists (fun b => b <> 0) c).
Definition sectors_of (c : list Z) : Z := (zlen c + 4095) / 4096.

Lemma file_not_zeros c n : Exists (fun b => b <> 0) c -> zlen c <= 4096 -> c ++ zeros n = zeros 4096 -> False.
Proof.
  intros [x [Hx Hne]]%Exists_exists _ E. assert (Hin : x ∈ zeros 4096) by (rewrite <- E; apply elem_of_app; by left).
  apply elem_of_replicate_inv in Hin. done.
Qed.
Lemma le8_le4 k : 0 <= k < 2 ^ 32 -> le 8 k = le 4 k ++ zeros 4.
Proof. intros Hk. cbn [le app]. change (zeros 4) with [0; 0; 0; 0]. repeat f_equal; lia. Qed.

(** What the data of the file at the inode [i] goes to. *)
Definition data_part (i o x : Z) : Prop :=
  4096 * i + 96 <= x < 4096 * i + 104 \/ 4096 * i + 448 <= x < 4096 * i + 456 \/ 4096 * i + 488 <= x < 4096 * i + 496 \/ 4096 * i + 1024 <= x < 4096 * (i + 1) \/ o <= x.
Definition located (m : Z -> option Z) (i n : Z) (c : list Z) : Prop :=
  exists fl sec p, holds m (4096 * i + 488) (le 8 fl) /\ holds m (4096 * i + 448) (le 8 sec) /\ 0 <= sec < 2 ^ 32 /\
    place m (4096 * i) fl sec p /\ holds m p c /\ 4096 * i + 1024 <= p /\ p + zlen c <= 4096 * (i + n) /\
    (fl = FSZ_IN_FLAG_SD -> i < sec < i + n).

Lemma kept_of b ws i o s' : at_ b ws s' -> Forall (fun w => forall x, w.1 <= x < w.1 + zlen w.2 -> data_part i o x) ws ->
  zlen (fs s') = zlen b /\ forall x, ~ data_part i o x -> zget (fs s') x = zget b x.
Proof.
  intros W H. pose proof (at_same (data_part i o) b ws (mk_mkfs b (size s') (initrd s')) s' W eq_refl eq_refl eq_refl H) as (L&_&_&K). done.
Qed.

Section Data.
Context (i : Z) (c : list Z) (s : mkfs_t) (Q : Z -> mkfs_t -> Prop).
#[local] Notation n := (zlen c).
Notation o := (size s).
Context (Hi : 1 <= i) (Hsz : o = 4096 * (i + 1)) (Hlen : zlen (fs s) = o + 4096 * sectors_of c + 4096) (Hlen' : zlen (fs s) < 2 ^ 31).
Context (HQ : forall s' nn g', zlen (fs s') = zlen (fs s) -> initrd s' = initrd s ->
  (forall x, ~ data_part i (size s) x -> zget (fs s') x = zget (fs s) x) ->
  size s' + g' = 4096 * (i + nn) -> 1 <= nn <= 2 + sectors_of c -> located (zget (fs s')) i nn c -> 0 <= g' -> 0 <= size s' -> Q g' s').
Notation data := (c ++ zeros (4096 + 1)).

Lemma data_length : zlen data = n + 4097.
Proof. by rewrite zlen_app, zlen_zeros. Qed.
Lemma data_take : take (Z.to_nat n) data = c.
Proof. apply take_app_length'. unfold zlen. lia. Qed.

(** In the inode *)
Lemma wp_put_inline : n <= 3072 ->
  wp (put_word 8 (4096 * i + 448) i ;;; put_word 8 (4096 * i + 488) FSZ_IN_FLAG_INLINE ;;; put_word 8 (4096 * i + 96) 0 ;;;
      store (4096 * i + 1024) (take (Z.to_nat n) data) ;;; ret 0) Q s.
Proof.
  intros Hn. pose proof (zlen_nonneg c). rewrite data_take. unfold sectors_of in *.
  apply wp_bind. eapply wp_put_word; [apply at_refl|lia|lia|]. intros W1. apply wp_bind. eapply wp_put_word; [exact W1|lia|lia|]. intros W2.
  apply wp_bind. eapply wp_put_word; [exact W2|lia|lia|]. intros W3. apply wp_bind. eapply wp_image_store; [exact W3|lia|lia|].
  set (s1 := set_fs _ _). intros W4. apply wp_ret.
  destruct (kept_of _ _ i (size s) _ W4) as [L4 K4]; [unfold data_part; repeat (apply List.Forall_cons; [cbn [fst snd]; rewrite ?le_length; lia|]); done|].
  apply (HQ s1 1 0); [done|done|done| |lia| |done|change (size s1) with o; lia].
  - change (size s1) with o. lia.
  - destruct W4 as [-> W4]. exists FSZ_IN_FLAG_INLINE, i, (4096 * i + 1024).
    split; [poked W4|]. split; [poked W4|]. split; [lia|]. split; [by left|]. split; [poked W4|]. split; [lia|]. split; [lia|done].
Qed.

(** In one sector *)
Lemma wp_put_direct : 3072 < n <= 4096 -> Exists (fun b => b <> 0) c ->
  wp (put_word 8 (4096 * i + 448) (o / 4096) ;;; put_word 8 (4096 * i + 488) FSZ_IN_FLAG_DIRECT ;;;
      if negb (bool_decide (take (Z.to_nat 4096) data = zeros 4096)) then
        put_word 8 (4096 * i + 96) 1 ;;; store o (take (Z.to_nat n) data) ;;; ret (4096 * sectors_of c)
      else put_word 8 (4096 * i + 448) 0 ;;; put_word 8 (4096 * i + 96) 0 ;;; ret (4096 * sectors_of c)) Q s.
Proof.
  intros Hn Hne. rewrite data_take.
  rewrite bool_decide_false.
  2: { assert (E : take (Z.to_nat 4096) data = c ++ zeros (4096 - n)).
       { replace (4096 + 1) with (4096 - n + (n + 1)) by lia. rewrite zeros_app by lia. rewrite app_assoc. apply take_app_length'.
         assert (Hl : zlen (c ++ zeros (4096 - n)) = 4096) by (rewrite zlen_app, zlen_zeros; lia). apply Nat2Z.inj. symmetry. exact Hl. }
       rewrite E. intros E'. eapply file_not_zeros; [exact Hne|lia|exact E']. }
  cbn [negb]. unfold sectors_of in *.
  apply wp_bind. eapply wp_put_word; [apply at_refl|lia|lia|]. intros W1. apply wp_bind. eapply wp_put_word; [exact W1|lia|lia|]. intros W2.
  apply wp_bind. eapply wp_put_word; [exact W2|lia|lia|]. intros W3. apply wp_bind. eapply wp_image_store; [exact W3|lia|lia|].
  set (s1 := set_fs _ _). intros W4. apply wp_ret.
  destruct (kept_of _ _ i (size s) _ W4) as [L4 K4]; [unfold data_part; repeat (apply List.Forall_cons; [cbn [fst snd]; rewrite ?le_length; lia|]); done|].
  apply (HQ s1 2); [done|done|done| |lia| |lia|change (size s1) with o; lia].
  - change (size s1) with o. lia.
  - destruct W4 as [-> W4]. exists FSZ_IN_FLAG_DIRECT, (o / 4096), o.
    split; [poked W4|]. split; [poked W4|]. split; [lia|]. split; [right; right; left; split; [done|lia]|]. split; [poked W4|]. split; [lia|]. split; [lia|done].
Qed.

(** In sectors behind a sector directory, in the inode or in a sector of its own *)
Lemma wp_put_sectors (sd : bool) : let j := sectors_of c in let l := if sd then 1 else 0 in
  4096 < n <= 2 ^ 20 -> (sd = false -> j * 16 <= 3072) -> initrd s = true -> holds (zget (fs s)) (4096 * i + 1024) (zeros 3072) ->
  holds (zget (fs s)) (4096 * i + 448) (le 8 (o / 4096)) ->
  wp (put_word 8 (4096 * i + 488) (if sd then FSZ_IN_FLAG_SD else FSZ_IN_FLAG_SDINLINE) ;;; put_word 8 (4096 * i + 96) l ;;;
      g <-- fill_sectors (Z.to_nat j) (4096 * i) data n l 0 (if sd then o else 4096 * i + 1024) (i + 1 + l) (4096 * j) ;;
      when sd grow ;;; ret g) Q s.
Proof.
  intros j l Hn Hsd Hini Hz H448. assert (Hj : (j - 1) * 4096 < n <= j * 4096) by (unfold j, sectors_of; lia). fold j in Hlen.
  assert (Hl : 0 <= l <= 1) by (unfold l; destruct sd; lia).
  apply wp_bind. eapply wp_put_word; [apply at_refl|lia|lia|]. intros W1. apply wp_bind. eapply wp_put_word; [exact W1|lia|lia|].
  set (s1 := set_fs _ _). intros W2.
  assert (S1 : same_but (fun x => 4096 * i + 96 <= x < 4096 * i + 104 \/ 4096 * i + 488 <= x < 4096 * i + 496) s s1) by (eapply at_same; [exact W2|done|done|done|ins]).
  assert (F1 : holds (zget (fs s1)) (4096 * i + 488) (le 8 (if sd then FSZ_IN_FLAG_SD else FSZ_IN_FLAG_SDINLINE))) by (destruct W2 as [-> W2]; poked W2).
  assert (I1 : initrd s1 = true) by done. assert (Z1 : size s1 = o) by done. pose proof S1 as (L1&_). clear W1 W2. clearbody s1.
  assert (Hp : 4096 * i + 104 <= (if sd then o else 4096 * i + 1024) /\ (if sd then o else 4096 * i + 1024) + 16 * j <= o + l * 4096).
  { unfold l. destruct sd; [lia|]. specialize (Hsd eq_refl). lia. }
  apply wp_bind. apply wp_fill_sectors; [done|lia|done|apply data_length|lia|lia|lia|rewrite Z1; lia|rewrite Z1, L1; lia|]. rewrite Z1.
  intros s2 S2 D2 P2. rewrite Z2Nat.id in S2 by lia. specialize (P2 ltac:(lia)).
  pose proof (same_trans _ _ _ _ _ S1 S2) as (L2&Z2&I2&K2). cbn beta in K2. unfold filled in K2.
  assert (Hdata : holds (zget (fs s2)) (o + l * 4096) c).
  { intros x b Hb. pose proof (zget_Some_lt _ _ _ Hb). rewrite D2 by lia. by rewrite zget_app_l by lia. }
  assert (F2 : holds (zget (fs s2)) (4096 * i + 488) (le 8 (if sd then FSZ_IN_FLAG_SD else FSZ_IN_FLAG_SDINLINE))).
  { eapply same_holds; [exact S2| |exact F1]. rewrite le_length. unfold filled. destruct sd; lia. }
  assert (G2 : holds (zget (fs s2)) (4096 * i + 448) (le 8 (o / 4096))).
  { eapply holds_ext; [|exact H448]. rewrite le_length. intros x Hx. apply K2. destruct sd; lia. }
  assert (Hkeep : forall x, ~ data_part i o x -> zget (fs s2) x = zget (fs s) x).
  { intros x Hx. apply K2. unfold data_part in Hx. destruct sd; lia. }
  destruct sd; cbn [when]; unfold l in *; clear l.
  - apply wp_bind, wp_modify, wp_ret.
    assert (Zg : size (set_size (s32 (size s2 + secsize)) s2) = o + 4096) by (cbn [size set_size]; change secsize with 4096; rewrite s32_small; lia).
    apply (HQ _ (2 + j)); [done|done|done|rewrite Zg; lia|lia| |lia|rewrite Zg; lia]. cbn [fs set_size].
    exists FSZ_IN_FLAG_SD, (o / 4096), (4096 * (i + 2)). split; [done|]. split; [done|]. split; [lia|]. split; [right; right; right; split; [done|]|].
    + exists (i + 2). replace (4096 * (o / 4096)) with o by lia. split; [|lia]. replace (i + 1 + 1) with (i + 2) in P2 by lia. done.
    + replace (o + 1 * 4096) with (4096 * (i + 2)) in Hdata by lia. split; [done|]. split; [lia|]. split; lia.
  - apply wp_bind, wp_ret, wp_ret.
    apply (HQ _ (1 + j)); [done|congruence|done|lia|lia| |lia|lia].
    exists FSZ_IN_FLAG_SDINLINE, (o / 4096), (4096 * (i + 1)). split; [done|]. split; [done|]. split; [lia|]. split; [right; left; split; [done|]|].
    + exists (i + 1). split; [|lia]. rewrite le8_le4 by lia. apply holds_app. rewrite le_length. replace (i + 1 + 0) with (i + 1) in P2 by lia.
      split; [done|]. eapply holds_ext; [|eapply (holds_zeros_sub _ _ _ _ 4); [exact Hz|lia..]]. rewrite zlen_zeros by lia. intros x Hx. apply K2. lia.
    + replace (o + 0 * 4096) with (4096 * (i + 1)) in Hdata by lia. split; [done|]. split; [lia|]. split; [lia|done].
Qed.

End Data.

Lemma wp_put_data i c s (Q : Z -> mkfs_t -> Prop) :
  file_ok c -> initrd s = true -> 1 <= i -> size s = 4096 * (i + 1) -> zlen (fs s) = size s + 4096 * sectors_of c + 4096 -> zlen (fs s) < 2 ^ 31 ->
  holds (zget (fs s)) (4096 * i + 1024) (zeros 3072) ->
  (forall s' nn g', zlen (fs s') = zlen (fs s) -> initrd s' = initrd s ->
     (forall x, ~ data_part i (size s) x -> zget (fs s') x = zget (fs s) x) ->
     size s' + g' = 4096 * (i + nn) -> 1 <= nn <= 2 + sectors_of c -> located (zget (fs s')) i nn c -> 0 <= g' -> 0 <= size s' -> Q g' s') ->
  wp (put_data i (c ++ zeros (secsize + 1)) (zlen c) (4096 * sectors_of c)) Q s.
Proof.
  intros [Hmax Hne] Hini Hi Hsz Hlen Hlen' Hz HQ. pose proof (zlen_nonneg c). unfold put_data. apply wp_bind, wp_gets. change secsize with 4096.
  replace (i * 4096) with (4096 * i) by lia. destruct (Z.leb_spec (zlen c) (4096 - 1024)) as [Hc1|Hc1]; [by eapply wp_put_inline|].
  destruct (Z.ltb_spec 4096 (zlen c)) as [Hc2|Hc2].
  2: { eapply wp_put_direct; try done; try lia. all: apply Hne; lia. }
  replace (4096 * sectors_of c / 4096) with (sectors_of c) by lia. cbv zeta.
  assert (Hj : 0 <= sectors_of c <= 256) by (unfold sectors_of; lia). replace (4096 <? sectors_of c * 16) with false by lia.
  apply wp_bind. eapply wp_put_word; [apply at_refl|lia|lia|]. set (s1 := set_fs _ _). intros W1. set (sd := negb _).
  assert (S1 : same_but (fun x => 4096 * i + 448 <= x < 4096 * i + 456) s s1) by (eapply at_same; [exact W1|done|done|done|ins]).
  assert (F1 : holds (zget (fs s1)) (4096 * i + 448) (le 8 (size s / 4096))) by (destruct W1 as [-> W1]; poked W1).
  assert (Z1 : size s1 = size s) by done. pose proof S1 as (L1&_&I1&K1). clear W1. clearbody s1.
  assert (Hput : wp (put_word 8 (4096 * i + 488) (if sd then FSZ_IN_FLAG_SD else FSZ_IN_FLAG_SDINLINE) ;;; put_word 8 (4096 * i + 96) (if sd then 1 else 0) ;;;
      g <-- fill_sectors (Z.to_nat (sectors_of c)) (4096 * i) (c ++ zeros (4096 + 1)) (zlen c) (if sd then 1 else 0) 0 (if sd then size s1 else 4096 * i + 1024)
              (i + 1 + (if sd then 1 else 0)) (4096 * sectors_of c) ;; when sd grow ;;; ret g) Q s1); [|by rewrite Z1 in Hput].
  eapply (wp_put_sectors i c s1 Q); [done|lia|lia|lia| |lia|unfold sd; lia|congruence| |by rewrite Z1].
  - intros s' nn g' L I K Hz' Hnn Hloc Hg Hs'. rewrite Z1 in K. apply (HQ s' nn g'); [congruence|congruence| |done|done|done|done|done].
    intros x Hx. rewrite K by done. apply K1. unfold data_part in Hx. lia.
  - eapply same_holds; [exact S1| |exact Hz]. rewrite zlen_zeros by lia. lia.
Qed.

(** ** The type of a file *)

(** The inode at [in_] stays one that is not a directory. *)
Definition class_part (in_ x : Z) : Prop := in_ + 8 <= x < in_ + 48 \/ x = in_ + 511.
Definition classed (in_ : Z) (s s' : mkfs_t) : Prop :=
  same_but (class_part in_) s s' /\ exists ty, zlen ty = 4 /\ holds (zget (fs s')) (in_ + 8) ty /\ is_dir ty = false.

Section Classify.
Context (in_ : Z) (s0 : mkfs_t) (H0 : 0 <= in_) (Hl : in_ + 512 <= zlen (fs s0)).

Lemma wp_put_mime m s (Q : unit -> mkfs_t -> Prop) : zlen (str m) <= 36 -> classed in_ s0 s -> (forall s', classed in_ s0 s' -> Q tt s') -> wp (put_mime in_ m) Q s.
Proof.
  intros Hm (S1&ty&T1&T2&T3) HQ. pose proof S1 as (L1&_&_&_). pose proof (zlen_nonneg (str m)). unfold put_mime. apply wp_bind.
  eapply wp_image_store; [apply at_refl|lia|change (zlen (zeros 36)) with 36; lia|]. intros W1.
  eapply wp_image_store; [exact W1|lia|lia|]. set (s1 := set_fs _ _). intros W2.
  assert (S2 : same_but (fun x => in_ + 12 <= x < in_ + 48) s s1).
  { eapply at_same; [exact W2|done|done|done|]. repeat (apply List.Forall_cons; [cbn [fst snd]; rewrite ?zlen_zeros; lia|]). done. }
  apply HQ. split; [eapply same_weaken; [exact (same_trans _ _ _ _ _ S1 S2)|unfold class_part; lia]|]. exists ty. split; [done|]. split; [|done].
  eapply same_holds; [exact S2| |exact T2]. rewrite T1. lia.
Qed.

Lemma wp_put_type m s (Q : unit -> mkfs_t -> Prop) : zlen (str m) = 4 -> is_dir (str m) = false -> classed in_ s0 s ->
  (forall s', classed in_ s0 s' -> Q tt s') -> wp (put_type in_ m) Q s.
Proof.
  intros Hm Hd (S1&_) HQ. pose proof S1 as (L1&_&_&_). unfold put_type. eapply wp_image_store; [apply at_refl|lia|lia|]. set (s1 := set_fs _ _). intros W1.
  assert (S2 : same_but (class_part in_) s s1).
  { eapply at_same; [exact W1|done|done|done|]. unfold class_part. repeat (apply List.Forall_cons; [cbn [fst snd]; lia|]). done. }
  apply HQ. split; [eapply same_weaken; [exact (same_trans _ _ _ _ _ S1 S2)|cbn beta; tauto]|]. exists (str m). split; [done|]. split; [|done].
  destruct W1 as [-> W1]. by apply hp_here.
Qed.

Lemma wp_executable s (Q : unit -> mkfs_t -> Prop) : classed in_ s0 s -> (forall s', classed in_ s0 s' -> Q tt s') -> wp (executable in_) Q s.
Proof.
  intros (S1&ty&T1&T2&T3) HQ. pose proof S1 as (L1&_&_&_). unfold executable. apply wp_bind. eapply wp_get_any; [apply at_refl|lia|lia|]. intros a.
  eapply wp_put_word; [apply at_refl|lia|lia|]. set (s1 := set_fs _ _). intros W1.
  assert (S2 : same_but (fun x => x = in_ + 511) s s1) by (eapply at_same; [exact W1|done|done|done|ins]).
  apply HQ. split; [eapply same_weaken; [exact (same_trans _ _ _ _ _ S1 S2)|unfold class_part; lia]|]. exists ty. split; [done|]. split; [|done].
  eapply same_holds; [exact S2| |exact T2]. rewrite T1. lia.
Qed.

Lemma kinds_fit : Forall (fun k => zlen (str k.1.1.2) <= 36 /\ zlen (str k.1.2) = 4 /\ is_dir (str k.1.2) = false) kinds.
Proof. repeat (constructor; [by repeat split; vm_compute|]). constructor. Qed.

Lemma wp_classify name data n s (Q : unit -> mkfs_t -> Prop) : classed in_ s0 s -> (forall s', classed in_ s0 s' -> Q tt s') -> wp (classify in_ name data n) Q s.
Proof.
  intros Hs HQ. unfold classify. apply wp_bind. lazymatch goal with |- wp _ (fun _ => wp ?r Q) _ => set (rest := r) end.
  assert (Hrest : forall s', classed in_ s0 s' -> wp rest Q s').
  { clear s Hs. intros s Hs. unfold rest. destruct (ends name ".so"); [apply wp_put_mime; [by vm_compute|done|done]|].
    destruct (List.find _ kinds) as [[[[es m] t] x]|] eqn:E.
    - apply List.find_some in E as [E _]. pose proof kinds_fit as Hk. rewrite List.Forall_forall in Hk. destruct (Hk _ E) as (K1&K2&K3).
      apply wp_bind, wp_put_mime; [done|done|]. intros s1 Hs1. apply wp_bind, wp_put_type; [done|done|done|]. intros s2 Hs2.
      apply wp_when; [intros _; by apply wp_executable|intros _; by apply HQ].
    - destruct (ends name ".m3d").
      + apply wp_bind, wp_put_mime; [by vm_compute|done|]. intros s1 Hs1. destruct (_ =? 100); by apply wp_put_type.
      + apply wp_when; [|intros _; by apply HQ]. intros _. apply wp_bind, wp_put_mime; [by vm_compute|done|]. intros s1 Hs1. by apply wp_put_type. }
  apply wp_when; [|intros _; by apply Hrest]. intros _. apply wp_bind, wp_put_mime; [by vm_compute|done|]. intros s1 Hs1.
  by apply wp_executable.
Qed.

End Classify.

(** ** Files *)

Lemma located_keep m m' i n c : located m i n c ->
  (forall a, 4096 * i + 448 <= a < 4096 * (i + n) -> a <> 4096 * i + 511 -> m' a = m a) -> located m' i n c.
Proof.
  intros (fl&sec&p&F2&F3&F4&F5&F6&F7&F8&F9) Hk. pose proof (zlen_nonneg c).
  assert (K : forall v l, holds m v l -> 4096 * i + 448 <= v -> v + zlen l <= 4096 * (i + n) -> v + zlen l <= 4096 * i + 511 \/ 4096 * i + 511 < v -> holds m' v l).
  { intros v l Hv H1 H2 H3. eapply holds_ext; [|exact Hv]. intros a Ha. apply Hk; lia. }
  exists fl, sec, p. split; [apply K; [done|rewrite ?le_length; lia..]|]. split; [apply K; [done|rewrite ?le_length; lia..]|].
  split; [done|]. split; [|split; [apply K; [done|lia..]|done]].
  destruct F5 as [F5|[(E&k&Hk'&Hkb&Hp)|[F5|(E&k&Hk'&Hkb&Hp)]]]; [by left| |by right; right; left|].
  - right; left. split; [done|]. exists k. split; [apply K; [done|rewrite ?le_length; lia..]|done].
  - right; right; right. split; [done|]. exists k. specialize (F9 E). split; [apply K; [done|rewrite ?le_length; lia..]|done].
Qed.

Lemma walks_mono G G' i path d m : walks G i path d m -> (forall j ents, G !! j = Some (ODir ents) -> exists ents', G' !! j = Some (ODir ents') /\ ents ⊆ ents') ->
  walks G' i path d m.
Proof.
  intros Hw Hm. induction Hw as [i m|i ents e comp rest d m Hi He Hen Hc _ IH]; [constructor|].
  destruct (Hm _ _ Hi) as (ents'&Hi'&Hs). eapply walks_down; [exact Hi'|by apply Hs|done|done|exact IH].
Qed.
Lemma walks_start G i path d m ents : walks G i path d m -> G !! d = Some (ODir ents) -> G !! i <> None.
Proof. intros [?|? ? ? ? ? ? ? Hi _ _ _ _] Hd; [by rewrite Hd|by rewrite Hi]. Qed.

(** A new object is linked from the root on. *)
Lemma wp_link_new G x path d m ents s s' (Q : unit -> mkfs_t -> Prop) :
  let i := size s / 4096 in
  image_ok s G -> image_ok s' (<[i := x]> G) -> walks G 1 path d m -> bytes_ok path -> G !! d = Some (ODir ents) -> free_in ents x m ->
  (forall s'' e ents', e_fid e = i -> e_name e = name_of x m -> ents' ≡ₚ ents ++ [e] -> image_ok s'' (<[d := ODir ents']> (<[i := x]> G)) ->
     same_but (linking (4096 * d) (4096 * i)) s' s'' -> Q tt s'') ->
  wp (link_inode ts qsort i path 0) Q s'.
Proof.
  intros i Hok Hok' Hw Hp Hd Hfree HQ. pose proof (image_fresh _ _ Hok) as Hf. fold i in Hf.
  assert (Hne : forall j y, G !! j = Some y -> <[i := x]> G !! j = Some y).
  { intros j y Hj. rewrite lookup_insert_ne; [done|]. intros <-. congruence. }
  unfold link_inode. eapply (wp_link_from ts qsort (<[i := x]> G) 1 path d m i ents x); [|exact Hok'|by right| |lia|done|by apply Hne|by rewrite lookup_insert_eq| |done|done].
  - eapply walks_mono; [exact Hw|]. intros j es Hj. exists es. split; [by apply Hne|done].
  - pose proof (walks_start _ _ _ _ _ _ Hw Hd) as H1. destruct (G !! 1) as [y|] eqn:E; [|done]. by rewrite (Hne _ _ E).
  - intros ->. congruence.
Qed.

Lemma wp_add_file name c s G d m ents (Q : unit -> mkfs_t -> Prop) :
  image_ok s G -> initrd s = true -> file_ok c -> size s + 4096 * (sectors_of c + 4) < 2 ^ 31 ->
  walks G 1 name d m -> bytes_ok name -> G !! d = Some (ODir ents) -> free_in ents OOther m ->
  (forall s' e n ents', let i := size s / 4096 in e_fid e = i -> e_name e = m -> ents' ≡ₚ ents ++ [e] ->
     image_ok s' (<[d := ODir ents']> (<[i := OFile n c]> G)) -> grown (sectors_of c + 3) s s' -> Q tt s') ->
  wp (add_file ts room qsort name (Some c)) Q s.
Proof.
  intros Hok Hini Hc Hsp Hw Hb Hd Hfree HQ. pose proof (im_size _ _ Hok) as (Hm&Hz&Hz'). pose proof (zlen_nonneg c) as Hn.
  unfold add_file. apply wp_bind, wp_ret. apply wp_bind. set (ty := if boots _ then _ else _).
  assert (Hty : zlen (take 4 ty) = 4 /\ is_dir (take 4 ty) = false /\ ty <> FSZ_FILETYPE_UNION /\ ty <> FSZ_FILETYPE_SYMLINK /\ ty <> FSZ_FILETYPE_DIR)
    by (unfold ty; by destruct (boots _)).
  clearbody ty. destruct Hty as (T1&T2&T3&T4&T5).
  assert (Hs : (zlen c + secsize - 1) / secsize * secsize = 4096 * sectors_of c) by (unfold sectors_of; change secsize with 4096; lia). rewrite Hs.
  assert (Hj : 0 <= sectors_of c <= 256) by (unfold sectors_of; destruct Hc; lia).
  eapply wp_add_inode; [by destruct Hok as [_ [] _ _]|done|done|lia|done|done|by intros m' [= <-]|]. intros s1 N1.
  pose proof N1 as [L1 Z1 I1 K1 M1 Y1 B1 _]. specialize (B1 T4 T5). apply wp_bind, wp_gets. rewrite Z1.
  eapply wp_resize_clear; [lia|change secsize with 4096; lia|lia|lia|]. intros s2 (L2&Z2&I2&K2&_). change secsize with 4096 in *.
  set (i := size s / 4096) in *. assert (Ei : size s = 4096 * i) by (unfold i; lia). clearbody i. rewrite Ei in *. replace (i * 4096) with (4096 * i) by lia.
  apply wp_bind. eapply wp_put_word; [apply at_refl|lia|lia|]. intros W1. apply wp_bind. eapply wp_put_word; [exact W1|lia|lia|]. intros W2.
  apply wp_bind. eapply wp_put_word; [exact W2|lia|lia|]. set (s3 := set_fs _ _). intros W3.
  assert (S3 : same_but (fun x => 4096 * i + 80 <= x < 4096 * i + 88 \/ 4096 * i + 464 <= x < 4096 * i + 488) s2 s3) by (eapply at_same; [exact W3|done|done|done|ins]).
  assert (F3 : holds (zget (fs s3)) (4096 * i + 464) (le 8 (zlen c))) by (destruct W3 as [-> W3]; poked W3).
  clear W1 W2 W3. clearbody s3. pose proof S3 as (L3&Z3&I3&K3).
  apply wp_bind. change (4096 + 1) with (secsize + 1).
  apply wp_put_data; [done|congruence|lia|lia|lia|lia| |].
  { eapply holds_ext; [|exact B1]. rewrite zlen_zeros by lia. intros x Hx. rewrite K3 by lia. apply K2. lia. }
  intros s4 nn g L4 I4 K4 Z4 Hnn D4 Hg Hs4.
  assert (T4' : holds (zget (fs s4)) (4096 * i + 8) (take 4 ty)).
  { eapply holds_ext; [|exact Y1]. rewrite T1. intros x Hx. rewrite K4 by (unfold data_part; lia). rewrite K3 by lia. apply K2. lia. }
  apply wp_bind. apply (wp_classify (4096 * i) s4); [lia|lia|split; [apply same_refl|by exists (take 4 ty)]|].
  intros s5 (S5&ty'&U1&U2&U3). pose proof S5 as (L5&Z5&I5&K5). unfold class_part in K5.
  apply wp_bind. eapply wp_put_checksum; [apply at_refl|lia|lia|lia|lia|lia|]. intros cs s6 W6.
  assert (S6 : same_but (fun x => 4096 * i + 4 <= x < 4096 * i + 8) s5 s6) by (eapply at_same; [exact W6|done|done|done|ins]).
  clear W6. clearbody s6. pose proof S6 as (L6&Z6&I6&K6). apply wp_bind, wp_modify.
  set (s7 := set_size _ s6). assert (Z7 : size s7 = 4096 * (i + nn)) by (unfold s7; cbn [size set_size]; rewrite s32_small; lia).
  assert (F7 : fs s7 = fs s6) by done. assert (I7 : initrd s7 = initrd s) by (change (initrd s7) with (initrd s6); congruence). clearbody s7.
  assert (Hk7 : forall x, x < 4096 * i -> zget (fs s7) x = zget (fs s) x).
  { intros x Hx. rewrite F7, K6, K5, K4, K3, K2, K1 by (unfold data_part; lia). done. }
  assert (Hx : obj_at (zget (fs s7)) i (OFile nn c)).
  { rewrite F7. split.
    - eapply holds_ext; [|exact M1]. change (zlen FSZ_IN_MAGIC) with 4. intros x Hx. rewrite K6, K5, K4, K3, K2 by (unfold data_part; lia). done.
    - exists ty'. split; [done|]. split; [|done]. eapply same_holds; [exact S6| |exact U2]. rewrite U1. lia.
    - split; [| |lia].
      + eapply holds_ext; [|exact F3]. rewrite le_length. intros x Hx. rewrite K6, K5, K4 by (unfold data_part; lia). done.
      + eapply located_keep; [exact D4|]. intros x Hx Hx'. by rewrite K6, K5 by lia. }
  assert (Hok7 : image_ok s7 (<[i := OFile nn c]> G)).
  { replace i with (size s / 4096) by lia. apply image_added; [done|by rewrite Ei|lia|cbn [span]; rewrite F7; lia|rewrite F7; lia|]. by replace (size s / 4096) with i by lia. }
  assert (Ei' : i = size s / 4096) by lia. rewrite Ei' in HQ, Hok7 |- *. apply (wp_link_new G (OFile nn c) name d m ents s s7); [done|done|done|done|done|done|].
  intros s8 e ents' He1 He2 He3 Hok8 (L8&Z8&I8&_). unfold name_of in He2. cbn [odir] in He2. rewrite app_nil_r in He2.
  apply (HQ s8 e nn ents'); [done|done|done|done|]. split; [congruence|]. lia.
Qed.

(** ** Inodes without data *)

Lemma wp_add_linked ty mimetype x name s G d m ents (Q : unit -> mkfs_t -> Prop) :
  image_ok s G -> size s + 4096 < 2 ^ 31 -> ty <> FSZ_FILETYPE_UNION -> zlen (take 4 ty) = 4 -> (forall w, mimetype = Some w -> cstring w <> None) ->
  span x = 1 -> (forall s', new_inode ty s s' -> obj_at (zget (fs s')) (size s / 4096) x) ->
  walks G 1 name d m -> bytes_ok name -> G !! d = Some (ODir ents) -> free_in ents x m ->
  (forall s' e ents', let i := size s / 4096 in e_fid e = i -> e_name e = name_of x m -> ents' ≡ₚ ents ++ [e] ->
     image_ok s' (<[d := ODir ents']> (<[i := x]> G)) -> grown 1 s s' -> Q tt s') ->
  wp (add_inode ts room ty mimetype) (fun i => wp (link_inode ts qsort i name 0) Q) s.
Proof.
  intros Hok Hsp T1 T2 Hm Hx1 Hx Hw Hb Hd Hfree HQ. pose proof (im_size _ _ Hok) as (Hmod&Hz&Hz').
  apply wp_add_inode; [by destruct Hok as [_ [] _ _]|done|done|lia|done|done|done|]. intros s1 N1. pose proof N1 as [L1 Z1 I1 K1 _ _ _ _].
  assert (Hok1 : image_ok s1 (<[size s / 4096 := x]> G)) by (apply image_added; [done|done|lia|lia|lia|by apply Hx]).
  apply (wp_link_new G x name d m ents s s1); [done|done|done|done|done|done|]. intros s2 e ents' H1 H2 H3 Hok2 (L2&Z2&I2&_).
  apply (HQ s2 e ents'); [done|done|done|done|]. split; [congruence|lia].
Qed.

End Build.
End MkfsBuild.
