(* ===== verification/MkfsHost.v ===== *)
(** Directories of the host in an image: every file of a tree that fits is found in the
    image that is made of it. *)
From Stdlib Require Import ZArith Lia List String Sorting.Sorted.
From stdpp Require Import base option list gmap.
From S2P Require Import Prelude Bytes Crc32 CoreState Initrd InitrdFacts Mkfs MkfsFacts MkfsTree MkfsBuild.
Import Initrd Mkfs MkfsFacts MkfsTree MkfsBuild.

#[local] Ltac Zify.zify_post_hook ::= Z.div_mod_to_equations.

Module MkfsHost.

(** ** Trees that fit *)

Definition dot (d : list Z) : bool := bool_decide (d = str ".") || bool_decide (d = str "..").
Definition listed (l : list (list Z * node)) : list (list Z * node) := filter (fun x => dot x.1 = false) l.
(** A name with a slash behind it fits in an entry. *)
Definition fits (d : list Z) : Prop := InitrdFacts.name_ok d /\ zlen d <= 109.

(** The names in a directory: each one once, and there is room for them and one more. *)
Record shape (l : list (list Z * node)) : Prop := mk_shape {
  sh_fits : Forall fits (listed l).*1;
  sh_once : NoDup (listed l).*1;
  sh_most : zlen (listed l) <= 22;
}.
Fixpoint node_ok (x : node) : Prop :=
  match x with
  | Reg c => match c with Some c => file_ok c | None => False end
  | Lnk t => t <> None
  | Sub l => shape l /\ (fix go l := match l with [] => True | (d, x) :: l => (dot d = false -> node_ok x) /\ go l end) l
  | Other => True
  end.
(** A bound on the sectors that a node takes. *)
Fixpoint sectors (x : node) : Z :=
  match x with
  | Reg (Some c) => sectors_of c + 3
  | Sub l => 1 + (fix go l := match l with [] => 0 | (d, x) :: l => (if dot d then 0 else sectors x) + go l end) l
  | Lnk _ => 1
  | _ => 0
  end.
Fixpoint sectors_all (l : list (list Z * node)) : Z := match l with [] => 0 | (d, x) :: l => (if dot d then 0 else sectors x) + sectors_all l end.

(** The files of a directory that is read at a level, by their paths. *)
Inductive reach : Z -> list (list Z * node) -> list Z -> list Z -> Prop :=
| reach_file v l d c : (d, Reg (Some c)) ∈ l -> dot d = false -> reach v l d c
| reach_sub v l d sub p c : (d, Sub sub) ∈ l -> dot d = false -> v + 1 <= 4 -> reach (v + 1) sub p c -> reach v l (d ++ SLASH :: p) c.

(** The inode that the path leads to from the directory [i]. *)
Inductive finds (G : tree) : Z -> list Z -> Z -> Prop :=
| finds_here i ents e : G !! i = Some (ODir ents) -> e ∈ ents -> InitrdFacts.name_ok (e_name e) -> finds G i (e_name e) (e_fid e)
| finds_down i ents e comp rest f : G !! i = Some (ODir ents) -> e ∈ ents -> e_name e = comp ++ [SLASH] -> InitrdFacts.name_ok comp ->
    finds G (e_fid e) rest f -> finds G i (comp ++ SLASH :: rest) f.

(** Directories only gain entries. *)
Definition more (G G' : tree) : Prop := forall j ents, G !! j = Some (ODir ents) -> exists ents', G' !! j = Some (ODir ents') /\ ents ⊆ ents'.

Lemma finds_more G G' i p f : finds G i p f -> more G G' -> finds G' i p f.
Proof.
  intros H Hm. induction H as [i ents e Hi He Hs|i ents e comp rest f Hi He Hn Hs _ IH]; destruct (Hm _ _ Hi) as (ents'&Hi'&Hsub).
  - eapply finds_here; [exact Hi'|by apply Hsub|done].
  - eapply finds_down; [exact Hi'|by apply Hsub|done|done|exact IH].
Qed.

Lemma walks_snoc G i path d comp m ents e : walks G i path d (comp ++ SLASH :: m) -> G !! d = Some (ODir ents) -> e ∈ ents ->
  e_name e = comp ++ [SLASH] -> SLASH ∉ comp -> walks G i path (e_fid e) m.
Proof.
  intros Hw Hd He Hn Hc. remember (comp ++ SLASH :: m) as t eqn:Et. induction Hw as [i t|i ents0 e0 comp0 rest d t Hi He0 Hn0 Hc0 _ IH]; subst t.
  - eapply walks_down; [exact Hd|exact He|done|done|constructor].
  - eapply walks_down; [exact Hi|exact He0|done|done|by apply IH].
Qed.

Lemma node_ok_all l : node_ok (Sub l) <-> shape l /\ Forall (fun x => dot x.1 = false -> node_ok x.2) l.
Proof.
  cbn [node_ok]. apply and_iff_compat_l. induction l as [|[d x] l IH]; [done|]. by rewrite Forall_cons, IH.
Qed.
Lemma sectors_sub l : sectors (Sub l) = 1 + sectors_all l.
Proof. done. Qed.

(** Induction over trees. *)
Section Ind.
Context (P : node -> Prop) (HR : forall c, P (Reg c)) (HL : forall t, P (Lnk t)) (HO : P Other)
  (HS : forall l, Forall (fun x => P x.2) l -> P (Sub l)).
Fixpoint node_induct (x : node) : P x :=
  match x with
  | Reg c => HR c
  | Lnk t => HL t
  | Other => HO
  | Sub l => HS l ((fix go (l : list (list Z * node)) : Forall (fun x => P x.2) l := match l with [] => List.Forall_nil _ | x :: l => @List.Forall_cons _ _ x l (node_induct x.2) (go l) end) l)
  end.
End Ind.

Lemma sectors_pos x : 0 <= sectors x.
Proof.
  induction x as [[c|]|t| |l IH] using node_induct; [cbn; unfold sectors_of; pose proof (zlen_nonneg c); lia|done..|].
  rewrite sectors_sub. enough (0 <= sectors_all l) by lia. induction IH as [|[d x] l Hx _ IH]; [done|]. cbn in *. destruct (dot d); lia.
Qed.

Lemma sectors_all_pos l : 0 <= sectors_all l.
Proof. induction l as [|[d x] l IH]; [done|]. cbn [sectors_all]. pose proof (sectors_pos x). destruct (dot d); lia. Qed.

(** ** What adding the entries of a directory does *)

(** The entries [l] are added to the directory [d], which the path [q] leads to. *)
Record added (v : Z) (q : list Z) (d : Z) (l : list (list Z * node)) (n : Z) (s : mkfs_t) (G : tree) (ents : list ent_t)
    (s' : mkfs_t) (G' : tree) (ents' : list ent_t) : Prop := mk_added {
  ad_ok : image_ok s' G';
  ad_grown : grown n s s';
  ad_dir : G' !! d = Some (ODir ents');
  ad_other j y : j <> d -> G !! j = Some y -> G' !! j = Some y;
  ad_sub : ents ⊆ ents';
  ad_len : zlen ents' <= zlen ents + zlen (listed l);
  ad_names e : e ∈ ents' -> e ∈ ents \/ exists m, m ∈ (listed l).*1 /\ (e_name e = m \/ e_name e = m ++ [SLASH]);
  ad_files p c : reach v l p c -> q ++ p <> str "sys/core" -> exists f k, finds G' d p f /\ G' !! f = Some (OFile k c);
}.

Lemma added_more v q d l n s G ents s' G' ents' : added v q d l n s G ents s' G' ents' -> G !! d = Some (ODir ents) -> more G G'.
Proof.
  intros H Hd j es Hj. destruct (decide (j = d)) as [->|Hne].
  - rewrite Hd in Hj. injection Hj as <-. exists ents'. split; [by destruct H|by destruct H].
  - exists es. split; [by eapply ad_other|done].
Qed.

Lemma reach_in v l p c : reach v l p c -> exists x, x ∈ l /\ reach v [x] p c.
Proof.
  intros [v' l' d c' Hin Hd|v' l' d sub p' c' Hin Hd Hv Hr]; eexists; (split; [exact Hin|]).
  - by apply reach_file; [left|].
  - by eapply reach_sub; [left| | |].
Qed.
Lemma reach_dot v d x p c : reach v [(d, x)] p c -> dot d = false.
Proof. inversion 1 as [? ? ? ? Hin|? ? ? ? ? ? Hin]; subst; apply list_elem_of_singleton in Hin; by injection Hin as -> _. Qed.

Lemma listed_cons d x l : listed ((d, x) :: l) = if dot d then listed l else (d, x) :: listed l.
Proof. unfold listed. rewrite filter_cons. cbn [fst]. by destruct (dot d). Qed.

(** Nothing is added. *)
Lemma added_none v q d l s G ents : image_ok s G -> G !! d = Some (ODir ents) -> (forall p c, reach v l p c -> q ++ p <> str "sys/core" -> False) ->
  added v q d l 0 s G ents s G ents.
Proof.
  intros Hok Hd Hr. pose proof (zlen_nonneg (listed l)). split; [done|split; [done|lia]|done|done|done|lia|by left|]. intros p c H1 H2. by destruct (Hr p c).
Qed.

Lemma added_longer v q d l n n' s G ents s' G' ents' : added v q d l n s G ents s' G' ents' -> n <= n' -> added v q d l n' s G ents s' G' ents'.
Proof. intros [A1 [A2 A2'] A3 A4 A5 A6 A7 A8] Hn. split; try done. split; [done|lia]. Qed.

Lemma added_trans v q d x l n1 n2 s G ents s1 G1 ents1 s2 G2 ents2 : G !! d = Some (ODir ents) ->
  added v q d [x] n1 s G ents s1 G1 ents1 -> added v q d l n2 s1 G1 ents1 s2 G2 ents2 -> added v q d (x :: l) (n1 + n2) s G ents s2 G2 ents2.
Proof.
  intros Hd A B. pose proof (ad_dir _ _ _ _ _ _ _ _ _ _ _ A) as Hd1. pose proof (added_more _ _ _ _ _ _ _ _ _ _ _ B Hd1) as Hm.
  assert (El : listed (x :: l) = listed [x] ++ listed l) by (unfold listed; by rewrite <- filter_app).
  destruct A as [A1 [A2 A2'] A3 A4 A5 A6 A7 A8]. pose proof B as [B1 [B2 B2'] B3 B4 B5 B6 B7 B8]. split.
  - done.
  - split; [congruence|lia].
  - done.
  - intros j y Hj Hy. apply B4; [done|]. by apply A4.
  - by transitivity ents1.
  - rewrite El, zlen_app. lia.
  - intros e He. rewrite El, fmap_app. destruct (B7 e He) as [He1|(m&Hm1&Hm2)].
    + destruct (A7 e He1) as [?|(m&Hm1&Hm2)]; [by left|]. right. exists m. split; [apply elem_of_app; by left|done].
    + right. exists m. split; [apply elem_of_app; by right|done].
  - intros p c Hr Hp. apply reach_in in Hr as (y&Hy&Hr). apply elem_of_cons in Hy as [->|Hy].
    + destruct (A8 p c Hr Hp) as (f&k&Hf&Hk). exists f, k. split; [by eapply finds_more|]. apply B4; [|done]. intros ->. congruence.
    + apply B8; [|done]. clear -Hy Hr. inversion Hr as [? ? ? ? Hin|? ? ? ? ? ? Hin]; subst; apply list_elem_of_singleton in Hin; subst y; by econstructor.
Qed.

(** ** Names *)

Lemma fits_slash m : InitrdFacts.name_ok m -> SLASH ∉ m.
Proof. intros [_ Hm] Hin. rewrite Forall_forall in Hm. by specialize (Hm _ Hin). Qed.
Lemma fits_bytes m : InitrdFacts.name_ok m -> bytes_ok m.
Proof. intros [_ Hm]. eapply Forall_impl; [exact Hm|]. unfold name_char. cbn. lia. Qed.

Lemma member_all m : SLASH ∉ m -> member m = zlen m.
Proof.
  induction m as [|c m IH]; intros Hc; [done|]. apply not_elem_of_cons in Hc as [Hne Hc]. cbn [member].
  replace (c =? SLASH) with false by (symmetry; apply Z.eqb_neq; congruence). by rewrite IH, zlen_cons.
Qed.

(** No entry has the name yet. *)
Definition fresh (ents : list ent_t) (m : list Z) : Prop := forall e, e ∈ ents -> e_name e <> m /\ e_name e <> m ++ [SLASH].

Lemma fresh_free ents x m : fits m -> fresh ents m -> zlen ents < 23 -> free_in ents x m.
Proof.
  intros [Hm Hl] Hf Hn. split; [|split; [|split; [done|]]].
  - apply Forall_forall. intros e He. unfold hit. rewrite member_all, Z.eqb_refl by by apply fits_slash. apply bool_decide_eq_false. by apply Hf.
  - intros (e&E&He)%list_elem_of_fmap. destruct (Hf e He) as [H1 H2]. unfold name_of in E. destruct (odir x); [congruence|]. rewrite app_nil_r in E. congruence.
  - unfold name_of. rewrite zlen_app. destruct (odir x); [change (zlen [SLASH]) with 1|change (zlen (@nil Z)) with 0]; lia.
Qed.

(** ** One entry *)

(** The object [x] is new in the directory. *)
Lemma added_leaf v q d m y x n s G ents s' e ents' : let i := size s / 4096 in let G' := <[d := ODir ents']> (<[i := x]> G) in
  image_ok s G -> G !! d = Some (ODir ents) -> dot m = false -> InitrdFacts.name_ok m ->
  e_fid e = i -> e_name e = name_of x m -> ents' ≡ₚ ents ++ [e] -> image_ok s' G' -> grown n s s' ->
  (forall p c, reach v [(m, y)] p c -> q ++ p <> str "sys/core" -> p = m /\ exists k, x = OFile k c) ->
  added v q d [(m, y)] n s G ents s' G' ents'.
Proof.
  intros i G' Hok Hd Hdot Hsl He1 He2 Hp Hok' Hg Hr. pose proof (image_fresh _ _ Hok) as Hf. fold i in Hf.
  assert (Hid : i <> d) by (intros E; rewrite E in Hf; congruence). assert (Hin : e ∈ ents') by (rewrite Hp; apply elem_of_app; right; by left).
  split; [done|done|by apply lookup_insert_eq| | | | |].
  - intros j z Hj Hz. unfold G'. rewrite lookup_insert_ne by done. rewrite lookup_insert_ne; [done|]. intros ->. congruence.
  - rewrite Hp. set_solver.
  - unfold zlen. rewrite Hp, length_app, listed_cons, Hdot. cbn. lia.
  - intros z Hz. rewrite Hp in Hz. apply elem_of_app in Hz as [Hz|Hz]; [by left|]. apply list_elem_of_singleton in Hz as ->. right. exists m.
    rewrite listed_cons, Hdot. split; [by left|]. rewrite He2. unfold name_of. destruct (odir x); [by right|left; apply app_nil_r].
  - intros p c H1 H2. destruct (Hr p c H1 H2) as (->&k&->). unfold name_of in He2. cbn [odir] in He2. rewrite app_nil_r in He2. exists i, k. split.
    + rewrite <- He1, <- He2. eapply finds_here; [by apply lookup_insert_eq|done|by rewrite He2].
    + unfold G'. rewrite lookup_insert_ne by done. apply lookup_insert_eq.
Qed.

(** A directory that is new, and then what is added in it. *)
Lemma added_below v q d m l n s G ents s1 G1 ents1 e s2 G2 es :
  added v q d [(m, Sub [])] 1 s G ents s1 G1 ents1 -> dot m = false -> InitrdFacts.name_ok m -> v + 1 <= 4 ->
  e ∈ ents1 -> e_name e = m ++ [SLASH] -> e_fid e <> d -> G !! e_fid e = None ->
  added (v + 1) (q ++ m ++ [SLASH]) (e_fid e) l n s1 G1 [] s2 G2 es -> added v q d [(m, Sub l)] (1 + n) s G ents s2 G2 ents1.
Proof.
  intros [A1 [A2 A2'] A3 A4 A5 A6 A7 _] Hdot Hsl Hv He Hen Hne Hf [B1 [B2 B2'] B3 B4 B5 B6 B7 B8].
  assert (A3' : G2 !! d = Some (ODir ents1)) by (apply B4; [congruence|done]).
  rewrite listed_cons, Hdot in A6, A7. split; [done|split; [congruence|lia]|done| |done|by rewrite listed_cons, Hdot|by rewrite listed_cons, Hdot|].
  - intros j y Hj Hy. apply B4; [intros ->; congruence|]. by apply A4.
  - intros p c Hr Hp. inversion Hr as [? ? ? ? Hin|? ? ? sub p' ? Hin Hd _ Hr']; subst; apply list_elem_of_singleton in Hin; [done|]. injection Hin as -> ->.
    destruct (B8 p' c Hr') as (f&k&Hf'&Hk); [by rewrite <- !app_assoc|]. exists f, k. split; [|done].
    eapply finds_down; [exact A3'|exact He|done|done|exact Hf'].
Qed.

Section Host.
Context (ts : Z) (room : Z -> bool) (qsort : list (list Z) -> list (list Z)) {S : SortOk qsort}.
Context (Hroom : forall n, room n = true).

(** A directory of the host as it is read: the path [dirname] on the host, of which the part
    behind [parent] is the path [q] of the directory [d] of the image. *)
Record reading (dirname : list Z) (parent v : Z) (q : list Z) (d : Z) (s : mkfs_t) (G : tree) (ents : list ent_t) : Prop := mk_reading {
  rd_ok : image_ok s G;
  rd_initrd : initrd s = true;
  rd_level : 0 <= v <= 4;
  rd_short : zlen dirname <= 3500 + 110 * v;
  rd_parent : 0 <= parent <= zlen dirname + 1;
  rd_path : drop (Z.to_nat parent) (dirname ++ [SLASH]) = q;
  rd_walks m : walks G 1 (q ++ m) d m;
  rd_bytes : bytes_ok q;
  rd_dir : G !! d = Some (ODir ents);
}.

Lemma reading_name dirname parent v q d s G ents m : reading dirname parent v q d s G ents ->
  drop (Z.to_nat parent) (dirname ++ [SLASH] ++ m) = q ++ m.
Proof.
  intros [_ _ _ _ Hp <- _ _ _]. rewrite app_assoc. apply drop_app_le. unfold zlen in Hp. rewrite length_app. cbn [length]. lia.
Qed.

(** After an entry the directory is read on. *)
Lemma reading_more dirname parent v q d s G ents l n s' G' ents' : reading dirname parent v q d s G ents ->
  added v q d l n s G ents s' G' ents' -> reading dirname parent v q d s' G' ents'.
Proof.
  intros [R1 R2 R3 R4 R5 R6 R7 R8 R9] A. pose proof (added_more _ _ _ _ _ _ _ _ _ _ _ A R9) as Hm. destruct A as [A1 [A2 _] A3 _ _ _ _ _].
  split; try done; [congruence|]. intros m. eapply walks_mono; [apply R7|exact Hm].
Qed.

(** The directory that an entry is. *)
Lemma reading_sub dirname parent v q d s G ents m e es : reading dirname parent v q d s G ents -> fits m -> v + 1 <= 4 ->
  e ∈ ents -> e_name e = m ++ [SLASH] -> G !! e_fid e = Some (ODir es) ->
  reading (dirname ++ [SLASH] ++ m) parent (v + 1) (q ++ m ++ [SLASH]) (e_fid e) s G es.
Proof.
  intros R [Hm Hl] Hv He Hn Hd. pose proof R as [R1 R2 R3 R4 R5 R6 R7 R8 R9].
  assert (El : zlen (dirname ++ [SLASH] ++ m) = zlen dirname + 1 + zlen m) by (rewrite !zlen_app; change (zlen [SLASH]) with 1; lia). pose proof (zlen_nonneg m).
  split; [done|done|lia|lia|lia| | | |done].
  - rewrite <- !app_assoc. by eapply reading_name.
  - intros t. rewrite <- !app_assoc. eapply walks_snoc; [apply R7|exact R9|exact He|done|by apply fits_slash].
  - unfold bytes_ok in *. rewrite !Forall_app. split; [done|]. split; [by apply fits_bytes|]. by repeat constructor.
Qed.

(** ** A node, and the nodes of a directory *)

Definition cost (m : list Z) (x : node) : Z := if dot m then 0 else sectors x.
Definition node_spec (x : node) : Prop := forall dirname parent v m q d s G ents (Q : unit -> mkfs_t -> Prop),
  (dot m = false -> node_ok x /\ fits m /\ fresh ents m /\ zlen ents < 23) -> reading dirname parent v q d s G ents ->
  size s + 4096 * (cost m x + 1) < 2 ^ 31 ->
  (forall s' G' ents', added v q d [(m, x)] (cost m x) s G ents s' G' ents' -> Q tt s') ->
  wp (add_node ts room qsort dirname parent v m x) Q s.

Lemma add_node_sub dirname parent v m l :
  (fix go (l : list (list Z * node)) : M mkfs_t unit :=
     match l with [] => ret tt | (d, x) :: l => add_node ts room qsort (dirname ++ [SLASH] ++ m) parent (v + 1) d x ;;; go l end) l =
  add_nodes ts room qsort (dirname ++ [SLASH] ++ m) parent (v + 1) l.
Proof. induction l as [|[d x] l IH]; [done|]. cbn [add_nodes]. by rewrite IH. Qed.

Lemma wp_add_nodes l : Forall (fun x => node_spec x.2) l -> forall dirname parent v q d s G ents (Q : unit -> mkfs_t -> Prop),
  Forall (fun x => dot x.1 = false -> node_ok x.2) l -> Forall fits (listed l).*1 -> NoDup (listed l).*1 ->
  (forall m, m ∈ (listed l).*1 -> fresh ents m) -> zlen ents + zlen (listed l) <= 23 -> reading dirname parent v q d s G ents ->
  size s + 4096 * (sectors_all l + 1) < 2 ^ 31 ->
  (forall s' G' ents', added v q d l (sectors_all l) s G ents s' G' ents' -> Q tt s') ->
  wp (add_nodes ts room qsort dirname parent v l) Q s.
Proof.
  induction 1 as [|[m x] l Hx _ IH]; intros dirname parent v q d s G ents Q Hok Hfit Hnd Hfr Hn R Hsp HQ.
  - apply wp_ret. eapply HQ. apply added_none; [by destruct R|by destruct R|]. intros p c Hr _. apply reach_in in Hr as (?&?%elem_of_nil&_). done.
  - apply Forall_cons in Hok as [Hokx Hok]. cbn [fst snd] in *. cbn [add_nodes]. cbn [sectors_all] in *. fold (cost m x) in *.
    pose proof (sectors_all_pos l) as Hpos.
    rewrite listed_cons in Hfit, Hnd, Hfr, Hn. apply wp_bind. eapply Hx; [|exact R|lia|].
    { intros Hd. rewrite Hd in *. rewrite fmap_cons in Hfit, Hfr. apply Forall_cons in Hfit as [Hm _]. rewrite zlen_cons in Hn. pose proof (zlen_nonneg (listed l)).
      split; [by apply Hokx|]. split; [done|]. split; [apply Hfr; by left|lia]. }
    intros s1 G1 ents1 A. pose proof A as [_ [A2 A2'] _ _ _ A6 A7 _]. rewrite listed_cons in A6, A7.
    assert (Hrest : Forall fits (listed l).*1 /\ NoDup (listed l).*1 /\ (forall m', m' ∈ (listed l).*1 -> fresh ents m') /\ zlen ents1 + zlen (listed l) <= 23 /\
                    (dot m = false -> m ∉ (listed l).*1)).
    { destruct (dot m) eqn:Hd.
      - change (listed []) with (@nil (list Z * node)) in A6. change (zlen (@nil (list Z * node))) with 0 in A6. split; [done|]. split; [done|]. split; [done|]. split; [lia|done].
      - rewrite fmap_cons in Hfit, Hnd, Hfr. apply Forall_cons in Hfit as [_ Hfit]. apply NoDup_cons in Hnd as [Hni Hnd]. rewrite zlen_cons in Hn, A6.
        change (listed []) with (@nil (list Z * node)) in A6. change (zlen (@nil (list Z * node))) with 0 in A6. split; [done|]. split; [done|]. split; [intros m' Hm'; apply Hfr; by right|]. split; [lia|done]. }
    destruct Hrest as (Hfit'&Hnd'&Hfr'&Hn'&Hni). eapply IH; [done|done|done| |done|by eapply reading_more|lia|].
    { intros m' Hm' e He. destruct (A7 e He) as [He'|(m2&Hm2&Hen)]; [by eapply Hfr'|]. change (listed []) with (@nil (list Z * node)) in Hm2.
      destruct (dot m) eqn:Hd; [by apply elem_of_nil in Hm2|]. apply list_elem_of_singleton in Hm2 as ->. cbn [fst] in *.
      assert (Hne : m <> m') by (intros ->; by apply (Hni eq_refl)). rewrite fmap_cons in Hfit. apply Forall_cons in Hfit as [[Hf _] _].
      rewrite Forall_forall in Hfit'. destruct (Hfit' m' Hm') as [Hf' _]. apply fits_slash in Hf, Hf'.
      split; intros E; rewrite E in Hen; destruct Hen as [Hen|Hen].
      - congruence.
      - apply Hf'. rewrite Hen. apply elem_of_app. right. by left.
      - apply Hf. rewrite <- Hen. apply elem_of_app. right. by left.
      - by apply app_inj_2 in Hen as [Hen _]. }
    intros s2 G2 ents2 B. eapply HQ. eapply added_trans; [by destruct R|exact A|exact B].
Qed.

Lemma cstring_ends t : cstring (t ++ [0]) <> None.
Proof. induction t as [|c t IH]; [done|]. cbn. destruct (c =? 0); [done|]. by destruct (cstring (t ++ [0])). Qed.

Lemma wp_add_node x : node_spec x.
Proof.
  induction x as [c|t| |l IH] using node_induct; intros dirname parent v m q d s G ents Q Hok R Hsp HQ;
    cbn [add_node]; fold (dot m); pose proof R as [R1 R2 R3 R4 R5 R6 R7 R8 R9]; unfold cost in *; destruct (dot m) eqn:Hdot;
    try (apply wp_ret; eapply HQ, added_none; [done|done|intros p c' Hr _; apply reach_dot in Hr; congruence]);
    destruct (Hok eq_refl) as (Hx&Hfit&Hfr&Hn); clear Hok; rewrite ?(reading_name _ _ _ _ _ _ _ _ m R); pose proof Hfit as [Hm Hml];
    (replace (4096 <=? _) with false by (symmetry; apply Z.leb_gt; rewrite !zlen_app; change (zlen [SLASH]) with 1; lia)).
  all: assert (Hb : bytes_ok (q ++ m)) by (unfold bytes_ok in *; rewrite Forall_app; split; [done|by apply fits_bytes]).
  all: assert (Hsl : SLASH ∉ m) by by apply fits_slash.
  - destruct c as [c|]; [|done]. cbn [sectors] in *. case_bool_decide as Ecore.
    + apply wp_ret. eapply HQ, added_longer; [apply added_none; [done|done|]|unfold sectors_of; pose proof (zlen_nonneg c); lia].
      intros p c' Hr Hp. inversion Hr as [? ? ? ? Hin|? ? ? ? ? ? Hin]; subst; apply list_elem_of_singleton in Hin; [injection Hin as -> _|done]. done.
    + apply (wp_add_file ts room qsort Hroom (q ++ m) c s G d m ents); [done|done|done|lia|apply R7|done|done|by apply fresh_free|].
      intros s' e k ents' i He1 He2 He3 Hok' Hg. eapply HQ, (added_leaf _ _ _ _ _ (OFile k c)); try done.
      { unfold name_of. cbn [odir]. by rewrite app_nil_r. }
      intros p c' Hr _. inversion Hr as [? ? ? ? Hin|? ? ? ? ? ? Hin]; subst; apply list_elem_of_singleton in Hin; [injection Hin as -> ->|done]. split; [done|by eexists].
  - destruct t as [t|]; [|done]. rewrite Hroom. cbn [negb sectors] in *. apply wp_bind. eapply wp_need; [done|]. apply wp_bind.
    apply (wp_add_linked ts room qsort Hroom _ _ OOther (q ++ m) s G d m ents);
      [done|lia|done|done|intros w [= <-]; apply cstring_ends|done|intros s' N; by eapply new_other; [exact N|apply im_size in R1; lia|..]|apply R7|done|done|by apply fresh_free|].
    intros s' e ents' i He1 He2 He3 Hok' Hg. eapply HQ, (added_leaf _ _ _ _ _ OOther); try done.
    intros p c' Hr _. inversion Hr as [? ? ? ? Hin|? ? ? ? ? ? Hin]; subst; apply list_elem_of_singleton in Hin; done.
  - apply wp_ret. eapply HQ, added_none; [done|done|]. intros p c' Hr _. inversion Hr as [? ? ? ? Hin|? ? ? ? ? ? Hin]; subst; apply list_elem_of_singleton in Hin; done.
  - rewrite sectors_sub in *. apply node_ok_all in Hx as [[H1 H2 H3] Hall]. rewrite add_node_sub. apply wp_bind.
    assert (Hall0 : 0 <= sectors_all l) by (apply sectors_all_pos).
    eapply wp_mono; [apply (wp_add_linked ts room qsort Hroom FSZ_FILETYPE_DIR None (ODir []) (q ++ m) s G d m ents
        (fun _ s' => exists e ents', let i := size s / 4096 in e_fid e = i /\ e_name e = m ++ [SLASH] /\ e ∈ ents' /\ image_ok s' (<[d := ODir ents']> (<[i := ODir []]> G)) /\
           added v q d [(m, Sub [])] 1 s G ents s' (<[d := ODir ents']> (<[i := ODir []]> G)) ents'));
      [done|lia|done|done|done|done|intros s' N; eapply new_dir; [exact N|apply im_size in R1; lia]|apply R7|done|done|by apply fresh_free|]|].
    { intros s' e ents' i He1 He2 He3 Hok' Hg. exists e, ents'. split; [done|]. split; [done|]. split; [rewrite He3; apply elem_of_app; right; by left|]. split; [done|].
      eapply (added_leaf _ _ _ _ _ (ODir [])); try done.
      intros p c' Hr _. inversion Hr as [? ? ? ? Hin|? ? ? ? ? ? Hin ? ? Hr']; subst; apply list_elem_of_singleton in Hin; [done|]. injection Hin as -> ->.
      apply reach_in in Hr' as (?&?%elem_of_nil&_). done. }
    intros i s1 Hlink. apply wp_bind. eapply wp_mono; [exact Hlink|]. clear i s1 Hlink. cbn beta zeta. intros _ s1 (e&ents1&He1&He2&He3&Hok1&A).
    pose proof (image_fresh _ _ R1) as Hf. rewrite <- He1 in *. assert (Hid : e_fid e <> d) by (intros E; rewrite E in Hf; congruence).
    destruct (Z.ltb_spec 4 (v + 1)) as [Hv|Hv].
    { apply wp_ret. eapply HQ, added_longer; [|instantiate (1 := 1); lia]. destruct A as [A1 A2 A3 A4 A5 A6 A7 _]. rewrite listed_cons, Hdot in A6, A7.
      split; try done; [by rewrite listed_cons, Hdot|by rewrite listed_cons, Hdot|].
      intros p c' Hr _. inversion Hr as [? ? ? ? Hin|? ? ? ? ? ? Hin ? ? Hr']; subst; apply list_elem_of_singleton in Hin; [done|lia]. }
    apply wp_bind. eapply wp_not_encrypted; [exact Hok1|]. rewrite Hroom. cbn [negb].
    pose proof (reading_more _ _ _ _ _ _ _ _ _ _ _ _ _ R A) as R'.
    eapply (wp_add_nodes l IH _ _ _ (q ++ m ++ [SLASH]) (e_fid e)); [done|done|done| | |eapply (reading_sub _ _ _ _ _ _ _ _ _ e); [exact R'|done|done|done|done|]| |].
    + intros m' _ e' He'. by apply elem_of_nil in He'.
    + change (zlen (@nil ent_t)) with 0. lia.
    + rewrite lookup_insert_ne by done. apply lookup_insert_eq.
    + destruct A as [_ [_ A2] _ _ _ _ _ _]. lia.
    + intros s2 G2 es B. eapply HQ. eapply added_below; [exact A|done|done|done|done|done|done|done|exact B].
Qed.

End Host.
End MkfsHost.
