(* ===== verification/MkfsImage.v ===== *)
(** Images that the image creator makes, read by the core: what [createimage] makes of a
    directory of the host, [fs_locate] finds. *)
From Stdlib Require Import ZArith Lia List String Sorting.Sorted.
From stdpp Require Import base option list gmap sorting.
From S2P Require Import Prelude Bytes Crc32 CoreState Initrd InitrdFacts Mkfs MkfsFacts MkfsTree MkfsBuild MkfsHost.
Import Initrd Mkfs MkfsFacts MkfsTree MkfsBuild MkfsHost.

#[local] Ltac Zify.zify_post_hook ::= Z.div_mod_to_equations.

Module MkfsImage.

(** ** The bytes of an image, as the core reads them *)

Section Read.
Context (m : Z -> option Z).

Lemma holds_bytes o l : holds m o l -> InitrdFacts.bytes_at m o (length l) = Some l.
Proof.
  revert o. induction l as [|b l IH]; intros o H; [done|]. apply holds_cons in H as [Hb H]. cbn [length InitrdFacts.bytes_at].
  rewrite Hb. cbn. by rewrite IH.
Qed.
Lemma holds_number n o v : holds m o (le n v) -> 0 <= v < 256 ^ Z.of_nat n -> InitrdFacts.number m n o = Some v.
Proof.
  intros H Hv. unfold InitrdFacts.number. pose proof (holds_bytes _ _ H) as Hb. replace (length (le n v)) with n in Hb by (pose proof (le_length n v); unfold zlen in *; lia).
  rewrite Hb. cbn. by rewrite of_le_le.
Qed.

Context (Hsuper : super_at m).

Lemma inline_at i : InitrdFacts.inlined m i = Some (i + 1024).
Proof. destruct Hsuper as [_ H _ _ _]. unfold InitrdFacts.inlined. by rewrite (holds_number _ _ 0) by done. Qed.

(** A directory, with the whole fields of the names. *)
Definition field (e : ent_t) : list Z * Z := (e_name e ++ zeros (111 - zlen (e_name e)), e_fid e).

Lemma dir_read i ents : dir_at m (4096 * i) ents -> ents_ok ents -> InitrdFacts.dir m 4096 (4096 * i) (4096 * i + 1024) (field <$> ents).
Proof.
  intros [D1 D2 D3 D4 D5] Hok. pose proof Hok as [Hall _ _ Hmost]. pose proof (zlen_nonneg ents) as H0.
  assert (El : zlen (field <$> ents) = zlen ents) by (unfold zlen; by rewrite length_fmap). split.
  - exact (holds_bytes _ _ D1).
  - exists (4096 * i + 1024), FSZ_DIR_MAGIC. split; [apply inline_at|]. split; [exact (holds_bytes _ _ D3)|]. by left.
  - rewrite El. apply holds_number; [|lia]. by replace (4096 * i + 1024 + 16) with (4096 * i + 1040) by lia.
  - lia.
  - intros k name fid Hk. apply list_lookup_fmap_Some in Hk as (e&Ek&Hk). unfold field in Ek. injection Ek as -> ->.
    pose proof (list_elem_of_split_length _ _ _ Hk) as (pre&post&E&Hlen). rewrite E in Hall, D5. apply Forall_app in Hall as [Hpre He]. apply Forall_cons in He as [He _].
    rewrite flat_map_app in D5. cbn [flat_map] in D5. apply holds_app in D5 as [D5 _]. apply holds_app in D5 as [_ D5]. apply holds_app in D5 as [D5 _].
    rewrite block_length in D5 by done. assert (Ek : zlen pre = Z.of_nat k) by (unfold zlen; lia). rewrite Ek in D5.
    unfold ent_bytes in D5. apply holds_app in D5 as [P1 P2]. apply holds_app in P2 as [_ P2]. apply holds_app in P2 as [_ P3].
    rewrite le_length, zlen_zeros in P3 by done. change (zlen [e_len e]) with 1 in P3. change SIZEOF_DIRENT with 128. destruct He as [Hf Hn Hs]. split.
    + replace 111%nat with (length (e_name e ++ zeros (111 - zlen (e_name e)))).
      2: { pose proof (zlen_app (e_name e) (zeros (111 - zlen (e_name e)))) as Hz. rewrite zlen_zeros in Hz by lia. unfold zlen at 1 in Hz. lia. }
      apply holds_bytes. at_place.
    + apply holds_number; [at_place|lia].
Qed.

Lemma first_read ents e : ents_ok ents -> e ∈ ents -> InitrdFacts.first_entry (e_name e) (field <$> ents) (e_fid e).
Proof.
  intros Hok He. destruct (first_exact _ _ Hok He) as (pre&post&->&Hpre). exists (field <$> pre), (field e).1, (field <$> post).
  split; [by rewrite fmap_app, fmap_cons|]. split; [|by eexists]. apply Forall_fmap. eapply Forall_impl; [exact Hpre|]. intros x Hx [r Hr]. cbn in Hr. apply Hx.
  pose proof Hok as [Hall _ _ _]. assert (Hb : bytes_ok (e_name e)) by (rewrite Forall_forall in Hall; by destruct (Hall e He)).
  revert Hb Hr. generalize (e_name e) as w, (111 - zlen (e_name x)) as z. induction (e_name x) as [|c n IH]; intros w z Hb Hr.
  - destruct w as [|b w]; [apply prefix_nil|]. apply Forall_cons in Hb as [Hb _]. exfalso. cbn in Hr.
    assert (Hin : b ∈ zeros z) by (rewrite Hr; by left). apply elem_of_replicate_inv in Hin. lia.
  - destruct w as [|b w]; [apply prefix_nil|]. apply Forall_cons in Hb as [_ Hb]. injection Hr as -> Hr. apply prefix_cons. eapply IH; [done|exact Hr].
Qed.

(** ** Files of the tree *)

Context (G : tree) (Hobj : forall i x, G !! i = Some x -> 1 <= i < 2 ^ 31 /\ obj_at m i x).

Lemma sector_at i : 1 <= i < 2 ^ 31 -> sector 4096 i = 4096 * i.
Proof. intros Hi. unfold sector, u64, wrap. rewrite Z.mod_small; lia. Qed.

Lemma finds_leads i p f : finds G i p f -> G !! f <> None -> exists k, (k <= length p)%nat /\ InitrdFacts.leads m 4096 k (4096 * i) p f.
Proof.
  intros H. induction H as [i ents e Hi He Hn|i ents e comp rest f Hi He Hen Hc Hf IH]; intros Hf0; destruct (Hobj _ _ Hi) as (Hb&[_ _ [Hd Hok]]).
  - exists 0%nat. split; [lia|]. eapply InitrdFacts.leads_file; [by apply dir_read|done|by apply first_read].
  - destruct (IH Hf0) as (k&Hk&Hl). exists (S k). split; [rewrite length_app; cbn; lia|].
    eapply InitrdFacts.leads_dir; [by apply dir_read|done|rewrite <- Hen; by apply first_read|].
    rewrite sector_at; [done|]. pose proof Hok as [Hall _ _ _]. rewrite Forall_forall in Hall. destruct (Hall e He) as [? _ _]. lia.
Qed.

Lemma file_read i n c : 1 <= i < 2 ^ 31 -> obj_at m i (OFile n c) -> zlen c < 2 ^ 31 -> exists o, InitrdFacts.file m 4096 (sector 4096 i) (zlen c) o /\ holds m o c.
Proof.
  intros Hi [Hm _ [Hs (fl&sec&p&F1&F2&F3&F4&F5&F6&F7&F8) _]] Hc. pose proof (zlen_nonneg c). exists p. split; [|done]. rewrite sector_at by done.
  assert (Hsec : forall k, 0 <= k < 2 ^ 32 -> sector 4096 k = 4096 * k) by (intros k Hk; unfold sector, u64, wrap; rewrite Z.mod_small; lia).
  split; [exact (holds_bytes _ _ Hm)|apply holds_number; [done|lia]|]. exists fl, sec.
  assert (Hfl : 0 <= fl < 256) by (destruct F4 as [[-> _]|[[-> _]|[[-> _]|[-> _]]]]; done).
  split; [apply holds_number; [done|lia]|]. split; [apply holds_number; [done|lia]|]. cbv zeta.
  assert (Et : FSZ_FLAG_TRANSLATION fl = fl) by (unfold FSZ_FLAG_TRANSLATION, u8, wrap; apply Z.mod_small; lia). rewrite Et.
  destruct F4 as [[-> ->]|[(->&k&Hk&Hkb&->)|[[-> ->]|(->&k&Hk&Hkb&->)]]].
  - left. split; [done|]. apply inline_at.
  - right; left. split; [by right|]. exists (4096 * i + 1024), k. split; [apply inline_at|]. split; [apply holds_number; [done|lia]|by rewrite Hsec].
  - right; right; left. split; [done|by rewrite Hsec].
  - right; right; right. split; [by right|]. exists k. rewrite Hsec by lia. split; [apply holds_number; [done|lia]|by rewrite Hsec].
Qed.

Lemma finds_bytes i p f : finds G i p f -> Forall (fun c => c <> 0) p.
Proof.
  assert (Hn : forall m, InitrdFacts.name_ok m -> Forall (fun c => c <> 0) m) by (intros w Hw%fits_bytes; eapply Forall_impl; [exact Hw|]; cbn; lia).
  induction 1 as [i ents e Hi He Hn'|i ents e comp rest f Hi He Hen Hc Hf IH]; [by apply Hn|].
  apply Forall_app. split; [by apply Hn|]. by constructor.
Qed.

(** A file of the tree is located, and its data is there. *)
Lemma image_reads pre p f k c fuel st : finds G 1 p f -> G !! f = Some (OFile k c) -> zlen c < 2 ^ 31 ->
  pre ∈ InitrdFacts.prefixes -> (1 < length (pre ++ p) < fuel)%nat ->
  wp (fs_locate m fuel (Some (pre ++ p))) (fun r st' => (exists o, r = Some o /\ holds m o c) /\ fs_size st' = zlen c /\ fs_errno st' = fs_errno st) st.
Proof.
  intros Hf Hfile Hc Hpre Hlen. destruct (Hobj _ _ Hfile) as [Hb Hx]. destruct (file_read _ _ _ Hb Hx Hc) as (o&Ho&Hdata).
  destruct (finds_leads 1 p f Hf) as (n&Hn&Hl); [by rewrite Hfile|]. destruct Hsuper as [S1 S2 S3 S4 S5].
  eapply wp_mono; [eapply (InitrdFacts.initrd_locates m 4096 pre p n 1 f (zlen c) o 1 fuel st)|].
  - exact (holds_bytes _ _ S1).
  - by apply holds_number.
  - done.
  - done.
  - by apply holds_number.
  - done.
  - by rewrite sector_at.
  - lia.
  - done.
  - apply Forall_app. split; [|by eapply finds_bytes]. unfold InitrdFacts.prefixes in Hpre.
    repeat (apply elem_of_cons in Hpre as [->|Hpre]; [by repeat constructor|]). by apply elem_of_nil in Hpre.
  - done.
  - rewrite length_app in Hlen. lia.
  - intros r st' (->&H1&H2). split; [by exists o|done].
Qed.

End Read.

(** ** The image *)

Section Create.
Context (ts : Z) (uuid : list Z) (room : Z -> bool) (qsort : list (list Z) -> list (list Z)) {S : SortOk qsort}.
Context (Hroom : forall n, room n = true).

(** A write behind the others. *)
Ltac next W := let W' := fresh "W" in
  apply wp_bind; first [ eapply wp_put_word; [exact W|lia|lia|] | eapply wp_image_store; [exact W|lia|zl|] ]; intros W'; clear W; rename W' into W.

Lemma wp_add_superblock s (Q : unit -> mkfs_t -> Prop) : size s = 0 ->
  (forall s', zlen (fs s') = 4096 -> size s' = 4096 -> initrd s' = initrd s -> holds (zget (fs s')) 512 FSZ_MAGIC -> holds (zget (fs s')) 518 (le 1 0) ->
     holds (zget (fs s')) 520 (le 2 1) -> holds (zget (fs s')) 708 (le 4 0) -> Q tt s') -> wp (add_superblock ts uuid room) Q s.
Proof.
  intros Hz HQ. unfold add_superblock. apply wp_bind, wp_gets. rewrite Hz. pose proof (zlen_nonneg (fs s)).
  eapply (wp_resize_clear room Hroom (u32 (0 + secsize)) 0 secsize); [lia|done|done|lia|]. intros s1 (L1&Z1&I1&_&C1).
  change (0 + secsize) with 4096 in L1. change (zeros secsize) with (zeros 4096) in C1.
  assert (Hu : zlen (take 16 (uuid ++ zeros 16)) = 16).
  { pose proof (zlen_app uuid (zeros 16)) as E. change (zlen (zeros 16)) with 16 in E. pose proof (zlen_nonneg uuid). unfold zlen in *. rewrite length_take. lia. }
  set (uu := take 16 _) in *. clearbody uu.
  assert (W := at_refl s1). next W. next W. next W. next W. next W. next W. next W. next W. next W. next W. next W.
  apply wp_bind. eapply wp_image_store; [exact W|lia|lia|]. intros W'. clear W. rename W' into W. next W. set (s2 := set_fs _ _) in *.
  assert (Z2 : size s2 = size s1) by done. assert (I2 : initrd s2 = initrd s1) by done. destruct W as [E W]. clearbody s2.
  apply wp_modify, HQ; cbn [fs size initrd set_size].
  - rewrite E. by rewrite zlen_pokes.
  - rewrite Z2, Z1, Hz. done.
  - congruence.
  - rewrite E. poked W.
  - rewrite E. poked W. eapply (holds_zeros_sub _ _ _ _ 1); [exact C1|lia..].
  - rewrite E. poked W.
  - rewrite E. poked W. eapply (holds_zeros_sub _ _ _ _ 4); [exact C1|lia..].
Qed.

(** The root directory, in the image with a superblock. *)
Lemma wp_add_root (rest : M mkfs_t (list Z)) s (Q : list Z -> mkfs_t -> Prop) :
  zlen (fs s) = 4096 -> size s = 4096 -> holds (zget (fs s)) 512 FSZ_MAGIC -> holds (zget (fs s)) 518 (le 1 0) ->
  holds (zget (fs s)) 520 (le 2 1) -> holds (zget (fs s)) 708 (le 4 0) ->
  (forall s', image_ok s' {[1 := ODir []]} -> initrd s' = initrd s -> size s' = 8192 -> wp rest Q s') ->
  wp (root <-- add_inode ts room FSZ_FILETYPE_DIR (Some (FSZ_MIMETYPE_DIR_ROOT ++ [0])) ;;
      put_word 8 560 root ;;; k <-- get_word 8 (secsize + 104) ;; put_word 8 (secsize + 104) (k + 1) ;;; in_checksum secsize ;;; rest) Q s.
Proof.
  intros L0 Z0 H1 H2 H3 H4 HQ. change secsize with 4096. apply wp_bind. apply wp_add_inode; [done|done|lia|by rewrite Z0|lia|done|done|by intros w [= <-]|].
  intros s1 N. assert (Hroot : obj_at (zget (fs s1)) (size s / 4096) (ODir [])) by (eapply new_dir; [exact N|by rewrite Z0]).
  destruct N as [L1 Z1 I1 K1 _ _ _ _]. rewrite Z0 in *. change (4096 / 4096) with 1 in *.
  apply wp_bind. eapply wp_put_word; [apply at_refl|lia|lia|]. intros W. apply wp_bind. eapply wp_get_any; [exact W|lia|lia|]. intros k.
  next W. apply wp_bind. eapply wp_put_checksum; [exact W|lia|lia|lia|lia|lia|]. intros c s2 W2. clear W. rename W2 into W.
  assert (S2 : same_but (fun x => 560 <= x < 568 \/ 4096 + 104 <= x < 4096 + 112 \/ 4096 + 4 <= x < 4096 + 8) s1 s2) by (eapply at_same; [exact W|done|done|done|ins]).
  assert (F2 : holds (zget (fs s2)) 560 (le 8 1)) by (destruct W as [-> W]; poked W). clear W. clearbody s2. destruct S2 as (L2&Z2&I2&K2).
  apply HQ; [|congruence|lia]. assert (K : forall v l, holds (zget (fs s)) v l -> v + zlen l <= 560 \/ 568 <= v -> v + zlen l <= 4096 -> holds (zget (fs s2)) v l).
  { intros v l Hv Ha Hb. eapply holds_ext; [|exact Hv]. intros x Hx. rewrite K2, K1 by lia. done. }
  split.
  - lia.
  - split; [| | |done|]; apply K; try done; rewrite ?le_length; try change (zlen FSZ_MAGIC) with 4; lia.
  - intros i x Hx. apply lookup_singleton_Some in Hx as [<- <-]. split; [done|]. split; [cbn [span]; lia|].
    eapply obj_keep; [exact Hroot|]. cbn [span]. intros a Ha Ha1 Ha2. apply K2. lia.
  - intros i j x y Hi Hj Hij. apply lookup_singleton_Some in Hi as [<- _]. apply lookup_singleton_Some in Hj as [<- _]. lia.
Qed.

(** A tree that fits in an image, with the file of the core. *)
Record tree_ok (core : list Z) (l : list (list Z * node)) : Prop := mk_tree_ok {
  to_core : file_ok core;
  to_tree : node_ok (Sub l);
  to_size : 4096 * (sectors_of core + sectors_all l + 6) < 2 ^ 31;
}.
(** The name of the directory that an image of the core is made of. *)
Definition initrd_dir (dir : list Z) : Prop := 7 < zlen dir <= 3500 /\ drop (Z.to_nat (zlen dir - 6)) dir = str "initrd".

Lemma fits_core m : fits m -> str "sys/core" <> m /\ str "sys/core" <> m ++ [SLASH].
Proof.
  intros [Hm _]. split.
  - intros E. apply fits_slash in Hm. rewrite <- E in Hm. apply Hm. vm_compute. do 3 right. by left.
  - intros E. change (str "sys/core") with (str "sys/cor" ++ [101]) in E. by apply app_inj_tail in E as [_ E].
Qed.

Lemma reach_ok v l p c : reach v l p c -> Forall (fun x => dot x.1 = false -> node_ok x.2) l -> file_ok c.
Proof.
  induction 1 as [v l d c Hin Hd|v l d sub p c Hin Hd _ _ IH]; intros Hok; rewrite Forall_forall in Hok; specialize (Hok _ Hin Hd); [done|].
  apply node_ok_all in Hok as [_ Hok]. by apply IH.
Qed.

Lemma slice_of_holds b o c : holds (zget b) o c -> slice o (zlen c) b = c.
Proof.
  intros H. destruct (decide (c = [])) as [->|Hne]; [done|]. assert (Hl : 0 < zlen c) by (destruct c; [done|]; rewrite zlen_cons; pose proof (zlen_nonneg c); lia).
  destruct (zget_is_Some c 0 ltac:(lia)) as [x Hx]. destruct (zget_is_Some c (zlen c - 1) ltac:(lia)) as [y Hy].
  apply H, zget_Some_lt in Hx. apply H, zget_Some_lt in Hy. apply slice_holds; [lia|lia|done].
Qed.

(** The files of a tree are in the image. *)
Lemma wp_createimage dir core l s (Q : list Z -> mkfs_t -> Prop) : initrd_dir dir -> tree_ok core l ->
  (forall img s' G, super_at (zget img) -> (forall i x, G !! i = Some x -> 1 <= i < 2 ^ 31 /\ obj_at (zget img) i x) ->
     (forall p c, reach 0 l p c -> p <> str "sys/core" -> exists f k, finds G 1 p f /\ G !! f = Some (OFile k c)) -> Q img s') ->
  wp (createimage ts uuid room qsort dir (Some core) (Some l)) Q s.
Proof.
  intros [Hdir Hini] [Hcore Htree Hsp] HQ. apply node_ok_all in Htree as [[F1 F2 F3] Hall]. pose proof (sectors_all_pos l) as Hpos.
  assert (Hj : 0 <= sectors_of core) by (unfold sectors_of; pose proof (zlen_nonneg core); lia).
  unfold createimage. rewrite Hini, bool_decide_true by done. replace (7 <? zlen dir) with true by lia. cbn [andb].
  apply wp_bind, wp_modify, wp_bind. rewrite Hroom. apply wp_modify, wp_bind, wp_modify, wp_bind. apply wp_add_superblock; [done|].
  intros s1 L1 Z1 I1 H1 H2 H3 H4. eapply wp_add_root; [done|done|done|done|done|done|]. intros s2 Hok2 I2 Z2.
  assert (E2 : initrd s2 = true) by (rewrite I2, I1; done). apply wp_bind, wp_gets. rewrite E2. cbn [when]. apply wp_bind.
  eapply (wp_add_file ts room qsort Hroom (str "sys/core") core s2 {[1 := ODir []]} 1 (str "sys/core") []);
    [done|done|done|lia|constructor|by repeat constructor|by apply lookup_singleton_Some| |].
  { split; [constructor|]. split; [by intros ?%elem_of_nil|]. by vm_compute. }
  intros s3 e k ents i He1 He2 Hp Hok3 [I3 Z3]. rewrite app_nil_l in Hp. apply Permutation_singleton_r in Hp as ->.
  set (G3 := <[1 := _]> _) in *. apply wp_bind. unfold add_dirs. apply wp_bind. eapply wp_not_encrypted; [exact Hok3|]. rewrite Hroom. cbn [negb].
  assert (R : reading dir (zlen dir + 1) 0 [] 1 s3 G3 [e]).
  { split; [done|congruence|lia|lia|lia| |constructor|constructor|apply lookup_insert_eq]. apply drop_ge. rewrite length_app. unfold zlen. cbn. lia. }
  eapply (wp_add_nodes ts room qsort l); [|exact Hall|done|done| | |exact R|lia|].
  { apply Forall_forall. intros x _. by apply wp_add_node. }
  { intros m Hm z Hz. apply list_elem_of_singleton in Hz as ->. rewrite He2. apply fits_core. rewrite Forall_forall in F1. by apply F1. }
  { change (zlen [e]) with 1. lia. }
  intros s4 G4 ents4 [A1 [A2 A2'] _ _ _ _ _ A8]. pose proof (im_size _ _ A1) as (M4&S4&B4).
  apply wp_bind, wp_gets. apply wp_bind. eapply wp_put_word; [apply at_refl|lia|lia|]. intros W. next W.
  apply wp_bind. eapply wp_put_checksum; [exact W|lia|lia|lia|lia|lia|]. intros c s5 W5.
  eapply (wp_image_load _ 0 (size s4)); [exact W5|lia|lia|lia|]. intros img Limg Himg. 
  assert (K : forall a, 0 <= a < size s4 -> ~ (528 <= a < 536 \/ 544 <= a < 552 \/ 1020 <= a < 1024) -> zget img a = zget (fs s4) a).
  { intros a Ha Hn. destruct (zget_is_Some img a ltac:(lia)) as [x Hx]. rewrite Hx. specialize (Himg a x Hx). rewrite Z.add_0_l in Himg. rewrite <- Himg.
    destruct W5 as [_ W5]. apply pokes_other; [done|]. repeat (apply List.Forall_cons; [cbn [fst snd]; rewrite ?le_length; lia|]). done. }
  apply (HQ img s5 G4).
  - eapply super_keep; [by destruct A1|]. intros a Ha. apply K; lia.
  - intros j x Hx. destruct (im_objs _ _ A1 _ _ Hx) as (J1&J2&J3). pose proof (span_pos _ _ _ J3). split; [lia|].
    eapply obj_keep; [exact J3|]. intros a Ha _ _. apply K; lia.
  - intros p c' Hr Hp. by apply A8.
Qed.

(** C3: What the image creator makes of the directory of an initial ram disk, the core reads:
    every file of the tree, up to five members deep and other than "sys/core", is located in
    the image by its path, with or without "root:" and a slash before it, and the answer is
    the place of its contents and its size.  The name of the directory ends with "initrd"
    and has 8 to 3500 bytes; a directory has at most 22 entries of different names, of at
    most 109 characters that the core takes for those of a name; all files are readable and
    of at most 1M, and those of 3073 to 4096 bytes, the core's included, are not all zeros;
    links are readable; the image stays below 2G, there is memory for it, and [qsort] sorts
    it. *)
Theorem image_files_found dir core l s : initrd_dir dir -> tree_ok core l ->
  wp (createimage ts uuid room qsort dir (Some core) (Some l))
     (fun img _ => forall pre p c fuel st, reach 0 l p c -> p <> str "sys/core" -> pre ∈ InitrdFacts.prefixes -> (1 < length (pre ++ p) < fuel)%nat ->
        wp (fs_locate (zget img) fuel (Some (pre ++ p)))
           (fun r st' => (exists o, r = Some o /\ slice o (zlen c) img = c) /\ fs_size st' = zlen c /\ fs_errno st' = fs_errno st) st) s.
Proof.
  intros Hdir Htree. pose proof (to_tree _ _ Htree) as Hok. apply node_ok_all in Hok as [_ Hok].
  apply wp_createimage; [done|done|]. intros img s' G Hsuper Hobj Hfiles pre p c fuel st Hr Hp Hpre Hlen.
  destruct (Hfiles p c Hr Hp) as (f&k&Hf&Hk). destruct (reach_ok _ _ _ _ Hr Hok) as [Hc _].
  eapply wp_mono; [eapply (image_reads (zget img) Hsuper G Hobj pre p f k c); [done|done|lia|done|done]|].
  intros r st' [(o&->&Ho) H]. split; [|done]. exists o. split; [done|]. by apply slice_of_holds.
Qed.

End Create.
(** ** A sort, and a small directory *)

Lemma tolower_zero x : tolower x = 0 <-> x = 0.
Proof. unfold tolower. destruct ((65 <=? x) && (x <=? 90)) eqn:E; lia. Qed.

Lemma strcasecmp_trans a b c : strcasecmp a b <= 0 -> strcasecmp b c <= 0 -> strcasecmp a c <= 0.
Proof.
  revert b c. induction a as [|x a IH]; intros [|y b] [|z c]; cbn; try lia;
    repeat match goal with |- context [tolower ?u =? tolower ?v] => destruct (Z.eqb_spec (tolower u) (tolower v)) end;
    repeat match goal with |- context [?u =? 0] => destruct (Z.eqb_spec u 0) end;
    try pose proof (tolower_zero x); try pose proof (tolower_zero y); try pose proof (tolower_zero z); try lia; by eapply IH.
Qed.

Definition name_le (x y : list Z) : Prop := direntcmp x y <= 0.
#[export] Instance name_le_dec x y : Decision (name_le x y) := Z_le_dec _ _.
#[export] Instance name_le_trans : Transitive name_le.
Proof. intros x y z. apply strcasecmp_trans. Qed.
#[export] Instance name_le_total : Total name_le.
Proof. intros x y. unfold name_le, direntcmp. rewrite (strcasecmp_anti (ent_text x) (ent_text y)). lia. Qed.
#[export] Instance merge_ok : SortOk (merge_sort name_le).
Proof. split; [apply merge_sort_Permutation|apply (StronglySorted_merge_sort name_le)]. Qed.

Definition sample : list (list Z * node) :=
  [(str ".", Sub []); (str "hello.txt", Reg (Some (str "hello"))); (str "sys", Sub [(str "core", Reg (Some (str "code"))); (str "drivers", Reg (Some (str "list"))); (str "etc", Lnk (Some (str "root:")))])].

Lemma shape_names l names : (listed l).*1 = names -> forallb (fun d => forallb name_char d && (0 <? zlen d) && (zlen d <=? 109)) names = true ->
  bool_decide (NoDup names) = true -> zlen names <= 22 -> shape l.
Proof.
  intros <- Hf Hn Hl. split; [|by apply bool_decide_eq_true in Hn|unfold zlen in *; by rewrite length_fmap in Hl].
  apply Forall_forall. intros d Hd. rewrite List.forallb_forall in Hf. apply list_elem_of_In in Hd. specialize (Hf d Hd).
  apply andb_true_iff in Hf as [[Hc H0]%andb_true_iff Hs]. split; [split; [by intros ->|]|lia]. apply Forall_forall. intros c Hc'.
  rewrite List.forallb_forall in Hc. apply Hc. by apply list_elem_of_In.
Qed.

Lemma image_sample_ok : tree_ok (str "core") sample.
Proof.
  assert (Hc : file_ok (str "core") /\ file_ok (str "hello") /\ file_ok (str "code") /\ file_ok (str "list")) by by repeat split; try intros [? _].
  destruct Hc as (C1&C2&C3&C4). split; [done| |done]. apply node_ok_all. split; [by eapply shape_names|].
  constructor; [done|]. constructor; [done|]. constructor; [|done]. intros _. cbn [snd]. apply node_ok_all. split; [by eapply shape_names|]. by repeat constructor.
Qed.

Lemma image_files_found_witness :
  reach 0 sample (str "sys/drivers") (str "list") /\
  wp (createimage 7 [1; 2] (fun _ => true) (merge_sort name_le) (str "bin/initrd") (Some (str "core")) (Some sample))
     (fun img _ => wp (fs_locate (zget img) 40 (Some (str "root:sys/drivers")))
        (fun r st' => (exists o, r = Some o /\ slice o 4 img = str "list") /\ fs_size st' = 4 /\ fs_errno st' = SUCCESS) (mk_fs 0 0 SUCCESS)) (mk_mkfs [] 0 false).
Proof.
  assert (Hr : reach 0 sample (str "sys/drivers") (str "list")).
  { eapply (reach_sub 0 sample (str "sys") _ (str "drivers")); [right; right; by left|by vm_compute|lia|].
    eapply reach_file; [right; by left|by vm_compute]. }
  split; [exact Hr|].
  eapply wp_mono; [apply (image_files_found 7 [1; 2] (fun _ => true) (merge_sort name_le) (fun _ => eq_refl) (str "bin/initrd") (str "core") sample)|].
  - by split.
  - exact image_sample_ok.
  - intros img s' H. apply (H root_ (str "sys/drivers") (str "list") 40%nat (mk_fs 0 0 SUCCESS) Hr); [done| |cbn; lia].
    right; right; by left.
Defined.

End MkfsImage.
