(* ===== verification/MkcryptFacts.v ===== *)
(** Encrypted images: the tables of the cipher undo each other, decrypting a block, a sector
    and an image gives back what was encrypted. *)
From Stdlib Require Import ZArith Lia List Btauto.
From stdpp Require Import base option list.
From S2P Require Import Prelude Bytes Crc32 Crc32Facts Initrd Mkfs Mkcrypt.
Import Initrd Mkfs Mkcrypt.

#[local] Ltac Zify.zify_post_hook ::= Z.div_mod_to_equations.

Module MkcryptFacts.

(** ** Words and bytes *)

Definition word32 (w : Z) : Prop := 0 <= w < 2 ^ 32.
Definition byte8 (b : Z) : Prop := 0 <= b < 256.

(** Equal sums of the same terms. *)
Ltac xor_eq := apply Z.bits_inj'; intros ? ?; rewrite !Z.lxor_spec; btauto.

Definition pack (a b c d : Z) : Z := a * 2 ^ 24 + b * 2 ^ 16 + c * 2 ^ 8 + d.

Lemma b3_eq w : b3 w = w / 2 ^ 24.
Proof. unfold b3. by rewrite Z.shiftr_div_pow2. Qed.
Lemma b2_eq w : b2 w = w / 2 ^ 16 mod 256.
Proof. unfold b2. change 255 with (Z.ones 8). by rewrite Z.land_ones, Z.shiftr_div_pow2. Qed.
Lemma b1_eq w : b1 w = w / 2 ^ 8 mod 256.
Proof. unfold b1. change 255 with (Z.ones 8). by rewrite Z.land_ones, Z.shiftr_div_pow2. Qed.
Lemma b0_eq w : b0 w = w mod 256.
Proof. unfold b0. change 255 with (Z.ones 8). by rewrite Z.land_ones. Qed.

Lemma word_bytes w : word32 w -> byte8 (b3 w) /\ byte8 (b2 w) /\ byte8 (b1 w) /\ byte8 (b0 w).
Proof. intros Hw. unfold word32, byte8 in *. rewrite b3_eq, b2_eq, b1_eq, b0_eq. lia. Qed.
Lemma pack_word a b c d : byte8 a -> byte8 b -> byte8 c -> byte8 d -> word32 (pack a b c d).
Proof. unfold byte8, word32, pack. lia. Qed.
Lemma pack_bytes a b c d : byte8 a -> byte8 b -> byte8 c -> byte8 d ->
  b3 (pack a b c d) = a /\ b2 (pack a b c d) = b /\ b1 (pack a b c d) = c /\ b0 (pack a b c d) = d.
Proof. intros Ha Hb Hc Hd. unfold byte8, pack in *. rewrite b3_eq, b2_eq, b1_eq, b0_eq. lia. Qed.
Lemma bytes_pack w : word32 w -> pack (b3 w) (b2 w) (b1 w) (b0 w) = w.
Proof. intros Hw. unfold word32, pack in *. rewrite b3_eq, b2_eq, b1_eq, b0_eq. lia. Qed.

(** Parts of a word that do not meet. *)
Lemma lxor_low n a b : 0 <= n -> 0 <= b < 2 ^ n -> Z.lxor (a * 2 ^ n) b = a * 2 ^ n + b.
Proof.
  intros Hn Hb. symmetry. apply Z.add_nocarry_lxor. apply Z.bits_inj'. intros i Hi. rewrite Z.land_spec, Z.bits_0.
  destruct (Z.lt_ge_cases i n) as [H|H].
  - by rewrite Z.mul_pow2_bits_low.
  - replace b with (b mod 2 ^ n) by (apply Z.mod_small; lia). by rewrite Z.mod_pow2_bits_high, andb_false_r.
Qed.
Lemma lxor_pack a b c d : byte8 a -> byte8 b -> byte8 c -> byte8 d ->
  Z.lxor (Z.lxor (Z.lxor (a * 2 ^ 24) (b * 2 ^ 16)) (c * 2 ^ 8)) d = pack a b c d.
Proof.
  unfold byte8, pack. intros Ha Hb Hc Hd. rewrite lxor_low by lia.
  replace (a * 2 ^ 24 + b * 2 ^ 16) with ((a * 2 ^ 8 + b) * 2 ^ 16) by lia. rewrite lxor_low by lia.
  replace ((a * 2 ^ 8 + b) * 2 ^ 16 + c * 2 ^ 8) with (((a * 2 ^ 8 + b) * 2 ^ 8 + c) * 2 ^ 8) by lia. rewrite lxor_low by lia. lia.
Qed.

Lemma lxor_word x y : word32 x -> word32 y -> word32 (Z.lxor x y).
Proof. unfold word32. intros. by apply Crc32Facts.lxor_range. Qed.
Lemma lxor_byte x y : byte8 x -> byte8 y -> byte8 (Z.lxor x y).
Proof. unfold byte8. intros. by apply (Crc32Facts.lxor_range 8). Qed.
Lemma bytes_lxor x y : b3 (Z.lxor x y) = Z.lxor (b3 x) (b3 y) /\ b2 (Z.lxor x y) = Z.lxor (b2 x) (b2 y) /\
  b1 (Z.lxor x y) = Z.lxor (b1 x) (b1 y) /\ b0 (Z.lxor x y) = Z.lxor (b0 x) (b0 y).
Proof. unfold b3, b2, b1, b0. by rewrite !Z.shiftr_lxor, !Crc32Facts.land_lxor. Qed.

(** ** The tables *)

Lemma all_bytes (P : Z -> bool) : forallb P (seqZ 0 256) = true -> forall x, byte8 x -> P x = true.
Proof. intros H x Hx. rewrite List.forallb_forall in H. apply H, list_elem_of_In, elem_of_seqZ. unfold byte8 in Hx. lia. Qed.

Lemma sbox_byte x : byte8 x -> byte8 (sbox x).
Proof.
  intros Hx. assert (H : (0 <=? sbox x) && (sbox x <? 256) = true) by (revert x Hx; apply all_bytes; by vm_compute). unfold byte8. lia.
Qed.
Lemma sbox_masks x : byte8 x -> Z.land (at_ Te2 x) 0xff000000 = sbox x * 2 ^ 24 /\ Z.land (at_ Te3 x) 0x00ff0000 = sbox x * 2 ^ 16 /\
  Z.land (at_ Te0 x) 0x0000ff00 = sbox x * 2 ^ 8 /\ Z.land (at_ Te1 x) 0x000000ff = sbox x.
Proof.
  intros Hx. repeat split; apply Z.eqb_eq; revert x Hx; apply all_bytes; by vm_compute.
Qed.
Lemma td4_sbox x : byte8 x -> at_ Td4 (sbox x) = x.
Proof. intros Hx. apply Z.eqb_eq. revert x Hx. apply all_bytes. by vm_compute. Qed.
Lemma unmix_tables x : byte8 x -> unmix (at_ Te0 x) = sbox x * 2 ^ 24 /\ unmix (at_ Te1 x) = sbox x * 2 ^ 16 /\
  unmix (at_ Te2 x) = sbox x * 2 ^ 8 /\ unmix (at_ Te3 x) = sbox x.
Proof. intros Hx. repeat split; apply Z.eqb_eq; revert x Hx; apply all_bytes; by vm_compute. Qed.

Definition is_word (w : Z) : bool := (0 <=? w) && (w <? 2 ^ 32).
Lemma is_word_ok w : is_word w = true -> word32 w.
Proof. unfold is_word, word32. lia. Qed.
Lemma table_words x : byte8 x -> (word32 (at_ Te0 x) /\ word32 (at_ Te1 x) /\ word32 (at_ Te2 x) /\ word32 (at_ Te3 x)) /\
  word32 (at_ Td0 x) /\ word32 (at_ Td1 x) /\ word32 (at_ Td2 x) /\ word32 (at_ Td3 x).
Proof. intros Hx. repeat split; try (apply is_word_ok; revert x Hx; apply all_bytes; by vm_compute). Qed.

(** A table that is linear is given by its values at the single bits. *)
Definition lin (c : list Z) (x : Z) : Z :=
  fold_right (fun i r => Z.lxor (if Z.testbit x (Z.of_nat i) then nth i c 0 else 0) r) 0 (seq 0 8).
Lemma lin_lxor c x y : lin c (Z.lxor x y) = Z.lxor (lin c x) (lin c y).
Proof.
  unfold lin. induction (seq 0 8) as [|i l IH]; [done|]. cbn [fold_right]. rewrite IH, Z.lxor_spec.
  generalize (fold_right (fun i r => Z.lxor (if Z.testbit x (Z.of_nat i) then nth i c 0 else 0) r) 0 l) as u.
  generalize (fold_right (fun i r => Z.lxor (if Z.testbit y (Z.of_nat i) then nth i c 0 else 0) r) 0 l) as v. generalize (nth i c 0) as w. intros w v u.
  destruct (Z.testbit x (Z.of_nat i)), (Z.testbit y (Z.of_nat i)); cbn [xorb]; rewrite ?Z.lxor_0_l; try xor_eq.
Qed.

Definition basis (t : list Z) : list Z := List.map (fun i => at_ t (sbox (2 ^ Z.of_nat i))) (seq 0 8).
Lemma td_lxor t x y : In t [Td0; Td1; Td2; Td3] -> byte8 x -> byte8 y ->
  at_ t (sbox (Z.lxor x y)) = Z.lxor (at_ t (sbox x)) (at_ t (sbox y)).
Proof.
  intros Ht Hx Hy. assert (H : forall z, byte8 z -> at_ t (sbox z) = lin (basis t) z).
  { intros z Hz. apply Z.eqb_eq. revert z Hz. apply all_bytes. repeat destruct Ht as [<-|Ht]; [by vm_compute..|done]. }
  rewrite !H by (done || by apply lxor_byte). apply lin_lxor.
Qed.

(** ** Rounds *)

Lemma unmix_lxor x y : word32 x -> word32 y -> unmix (Z.lxor x y) = Z.lxor (unmix x) (unmix y).
Proof.
  intros Hx Hy. destruct (word_bytes x Hx) as (X3&X2&X1&X0), (word_bytes y Hy) as (Y3&Y2&Y1&Y0).
  unfold unmix. destruct (bytes_lxor x y) as (->&->&->&->). rewrite !td_lxor by (done || (cbn; tauto)). xor_eq.
Qed.

(** The S-box of four bytes as a word. *)
Definition subs (a b c d : Z) : Z := pack (sbox a) (sbox b) (sbox c) (sbox d).
Lemma subs_word a b c d : byte8 a -> byte8 b -> byte8 c -> byte8 d -> word32 (subs a b c d).
Proof. intros. apply pack_word; by apply sbox_byte. Qed.

Lemma sub_col_eq a b c d k : byte8 a -> byte8 b -> byte8 c -> byte8 d -> sub_col a b c d k = Z.lxor (subs a b c d) k.
Proof.
  intros Ha Hb Hc Hd. unfold sub_col, subs. rewrite <- lxor_pack by by apply sbox_byte.
  destruct (sbox_masks a Ha) as (->&_), (sbox_masks b Hb) as (_&->&_), (sbox_masks c Hc) as (_&_&->&_), (sbox_masks d Hd) as (_&_&_&->). done.
Qed.

(** A column is mixed, and mixed back. *)
Lemma enc_col_word a b c d k : word32 a -> word32 b -> word32 c -> word32 d -> word32 k -> word32 (enc_col a b c d k).
Proof.
  intros Ha Hb Hc Hd Hk. unfold enc_col.
  destruct (word_bytes a Ha) as (A&_), (word_bytes b Hb) as (_&B&_), (word_bytes c Hc) as (_&_&C&_), (word_bytes d Hd) as (_&_&_&D).
  destruct (table_words _ A) as [(?&_) _], (table_words _ B) as [(_&?&_) _], (table_words _ C) as [(_&_&?&_) _], (table_words _ D) as [(_&_&_&?) _].
  repeat apply lxor_word; done.
Qed.
Lemma unmix_enc_col a b c d k : word32 a -> word32 b -> word32 c -> word32 d -> word32 k ->
  Z.lxor (unmix (enc_col a b c d k)) (unmix k) = subs (b3 a) (b2 b) (b1 c) (b0 d).
Proof.
  intros Ha Hb Hc Hd Hk. unfold enc_col.
  destruct (word_bytes a Ha) as (A&_), (word_bytes b Hb) as (_&B&_), (word_bytes c Hc) as (_&_&C&_), (word_bytes d Hd) as (_&_&_&D).
  destruct (table_words _ A) as [(?&_) _], (table_words _ B) as [(_&?&_) _], (table_words _ C) as [(_&_&?&_) _], (table_words _ D) as [(_&_&_&?) _].
  rewrite !unmix_lxor by (repeat apply lxor_word; done). rewrite Z.lxor_assoc, Z.lxor_nilpotent, Z.lxor_0_r. unfold subs.
  rewrite <- lxor_pack by by apply sbox_byte.
  destruct (unmix_tables _ A) as (->&_), (unmix_tables _ B) as (_&->&_), (unmix_tables _ C) as (_&_&->&_), (unmix_tables _ D) as (_&_&_&->). done.
Qed.

(** Shifting the bytes of four words, in the S-box. *)
Definition words (x : quad) : Prop := let '(s0, s1, s2, s3) := x in word32 s0 /\ word32 s1 /\ word32 s2 /\ word32 s3.
Definition sub_quad (x : quad) : quad :=
  let '(t0, t1, t2, t3) := x in
  (subs (b3 t0) (b2 t1) (b1 t2) (b0 t3), subs (b3 t1) (b2 t2) (b1 t3) (b0 t0), subs (b3 t2) (b2 t3) (b1 t0) (b0 t1), subs (b3 t3) (b2 t0) (b1 t1) (b0 t2)).
Definition keys_ok (rk : list Z) : Prop := word32 (at_ rk 0) /\ word32 (at_ rk 1) /\ word32 (at_ rk 2) /\ word32 (at_ rk 3).

Lemma enc_last_eq rk x : words x -> enc_last rk x = add_keys rk (sub_quad x).
Proof.
  destruct x as [[[t0 t1] t2] t3]. intros (H0&H1&H2&H3). cbn [enc_last add_keys sub_quad].
  destruct (word_bytes _ H0) as (?&?&?&?), (word_bytes _ H1) as (?&?&?&?), (word_bytes _ H2) as (?&?&?&?), (word_bytes _ H3) as (?&?&?&?).
  by rewrite !sub_col_eq.
Qed.
Lemma enc_round_words rk x : keys_ok rk -> words x -> words (enc_round rk x).
Proof. destruct x as [[[t0 t1] t2] t3]. intros (K0&K1&K2&K3) (H0&H1&H2&H3). cbn [enc_round words]. repeat split; by apply enc_col_word. Qed.

(** The bytes of a column of [sub_quad], in the order of the way back. *)
Lemma dec_col_subs k a0 a1 a2 a3 p q r t u v w x y : byte8 a0 -> byte8 a1 -> byte8 a2 -> byte8 a3 ->
  byte8 p -> byte8 q -> byte8 r -> byte8 t -> byte8 u -> byte8 v -> byte8 w -> byte8 x -> byte8 y -> forall p' q' r', byte8 p' -> byte8 q' -> byte8 r' ->
  dec_col (subs a0 p q r) (subs t a1 u v) (subs w x a2 y) (subs p' q' r' a3) k =
  Z.lxor (Z.lxor (Z.lxor (Z.lxor (at_ Td0 (sbox a0)) (at_ Td1 (sbox a1))) (at_ Td2 (sbox a2))) (at_ Td3 (sbox a3))) k.
Proof.
  intros. unfold dec_col, subs.
  destruct (pack_bytes (sbox a0) (sbox p) (sbox q) (sbox r)) as (->&_); [by apply sbox_byte..|].
  destruct (pack_bytes (sbox t) (sbox a1) (sbox u) (sbox v)) as (_&->&_); [by apply sbox_byte..|].
  destruct (pack_bytes (sbox w) (sbox x) (sbox a2) (sbox y)) as (_&_&->&_); [by apply sbox_byte..|].
  destruct (pack_bytes (sbox p') (sbox q') (sbox r') (sbox a3)) as (_&_&_&->); [by apply sbox_byte..|]. done.
Qed.

Definition unmixed (rk rk' : list Z) : Prop :=
  at_ rk' 0 = unmix (at_ rk 0) /\ at_ rk' 1 = unmix (at_ rk 1) /\ at_ rk' 2 = unmix (at_ rk 2) /\ at_ rk' 3 = unmix (at_ rk 3).

Lemma dec_round_sub rk' x : words x -> dec_round rk' (sub_quad x) =
  let '(s0, s1, s2, s3) := x in (Z.lxor (unmix s0) (at_ rk' 0), Z.lxor (unmix s1) (at_ rk' 1), Z.lxor (unmix s2) (at_ rk' 2), Z.lxor (unmix s3) (at_ rk' 3)).
Proof.
  destruct x as [[[t0 t1] t2] t3]. intros (H0&H1&H2&H3). cbn [sub_quad dec_round].
  destruct (word_bytes _ H0) as (?&?&?&?), (word_bytes _ H1) as (?&?&?&?), (word_bytes _ H2) as (?&?&?&?), (word_bytes _ H3) as (?&?&?&?).
  by rewrite !dec_col_subs.
Qed.

(** A round back undoes a round. *)
Lemma dec_enc_round rk rk' x : keys_ok rk -> unmixed rk rk' -> words x -> dec_round rk' (sub_quad (enc_round rk x)) = sub_quad x.
Proof.
  intros Hk (U0&U1&U2&U3) Hx. rewrite dec_round_sub by by apply enc_round_words. destruct x as [[[t0 t1] t2] t3].
  destruct Hk as (K0&K1&K2&K3), Hx as (H0&H1&H2&H3). cbn [enc_round sub_quad]. by rewrite U0, U1, U2, U3, !unmix_enc_col.
Qed.

Lemma unsub_col_subs k a0 a1 a2 a3 p q r t u v w x y p' q' r' : byte8 a0 -> byte8 a1 -> byte8 a2 -> byte8 a3 ->
  byte8 p -> byte8 q -> byte8 r -> byte8 t -> byte8 u -> byte8 v -> byte8 w -> byte8 x -> byte8 y -> byte8 p' -> byte8 q' -> byte8 r' ->
  unsub_col (subs a0 p q r) (subs t a1 u v) (subs w x a2 y) (subs p' q' r' a3) k = Z.lxor (pack a0 a1 a2 a3) k.
Proof.
  intros. unfold unsub_col, subs.
  destruct (pack_bytes (sbox a0) (sbox p) (sbox q) (sbox r)) as (->&_); [by apply sbox_byte..|].
  destruct (pack_bytes (sbox t) (sbox a1) (sbox u) (sbox v)) as (_&->&_); [by apply sbox_byte..|].
  destruct (pack_bytes (sbox w) (sbox x) (sbox a2) (sbox y)) as (_&_&->&_); [by apply sbox_byte..|].
  destruct (pack_bytes (sbox p') (sbox q') (sbox r') (sbox a3)) as (_&_&_&->); [by apply sbox_byte..|].
  rewrite !td4_sbox by done. rewrite <- lxor_pack by done. unfold u32, wrap. rewrite !Z.shiftl_mul_pow2 by done. rewrite (Z.mod_small (a0 * 2 ^ 24)); [done|].
  unfold byte8 in *. lia.
Qed.

Lemma dec_last_sub rk x : words x -> dec_last rk (sub_quad x) = add_keys rk x.
Proof.
  destruct x as [[[t0 t1] t2] t3]. intros (H0&H1&H2&H3). cbn [sub_quad dec_last add_keys].
  destruct (word_bytes _ H0) as (?&?&?&?), (word_bytes _ H1) as (?&?&?&?), (word_bytes _ H2) as (?&?&?&?), (word_bytes _ H3) as (?&?&?&?).
  rewrite !unsub_col_subs by done. by rewrite !bytes_pack.
Qed.

Lemma add_keys_twice rk x : add_keys rk (add_keys rk x) = x.
Proof. destruct x as [[[t0 t1] t2] t3]. cbn [add_keys]. by rewrite !Z.lxor_assoc, !Z.lxor_nilpotent, !Z.lxor_0_r. Qed.
Lemma add_keys_words rk x : keys_ok rk -> words x -> words (add_keys rk x).
Proof. destruct x as [[[t0 t1] t2] t3]. intros (K0&K1&K2&K3) (H0&H1&H2&H3). cbn [add_keys words]. repeat split; by apply lxor_word. Qed.

(** ** Keys *)

Lemma at_word w i : Forall word32 w -> word32 (at_ w i).
Proof.
  intros Hw. unfold at_. destruct (zget w i) as [x|] eqn:E; [|done]. apply zget_In in E. rewrite Forall_forall in Hw. by apply Hw, list_elem_of_In.
Qed.

Lemma keys_at w k : Forall word32 w -> keys_ok (drop k w).
Proof. intros Hw. assert (Hd : Forall word32 (drop k w)) by by apply Forall_drop. by repeat split; apply at_word. Qed.

Lemma sub_col_word a b c d k : byte8 a -> byte8 b -> byte8 c -> byte8 d -> word32 k -> word32 (sub_col a b c d k).
Proof. intros. rewrite sub_col_eq by done. apply lxor_word; [by apply subs_word|done]. Qed.

Lemma rcon_word i : word32 (at_ rcon i).
Proof. apply at_word. by repeat constructor. Qed.

Lemma four_words a b c d : word32 a -> word32 b -> word32 c -> word32 d -> Forall word32 [a; b; c; d].
Proof. intros. rewrite !Forall_cons. by rewrite Forall_nil. Qed.

Lemma expand_words n i w : Forall word32 w -> Forall word32 (expand n i w).
Proof.
  revert i w. induction n as [|n IH]; intros i w Hw; [done|]. cbn [expand]. set (rk := drop _ w).
  assert (Hk : forall j, word32 (at_ rk j)) by (intros j; apply at_word; by apply Forall_drop). clearbody rk. pose proof (rcon_word i) as Hr.
  destruct (word_bytes _ (Hk 7)) as (?&?&?&?). set (r8 := Z.lxor _ (at_ rcon i)).
  assert (H8 : word32 r8) by (unfold r8; apply lxor_word; [apply lxor_word; [done|by apply sub_col_word]|done]). clearbody r8.
  set (r9 := Z.lxor _ r8). assert (H9 : word32 r9) by by apply lxor_word. clearbody r9.
  set (r10 := Z.lxor _ r9). assert (H10 : word32 r10) by by apply lxor_word. clearbody r10.
  set (r11 := Z.lxor _ r10). assert (H11 : word32 r11) by by apply lxor_word. clearbody r11.
  assert (Hw' : Forall word32 (w ++ [r8; r9; r10; r11])) by (apply Forall_app; split; [done|by apply four_words]).
  destruct n as [|n]; [done|]. apply IH. apply Forall_app; split; [done|]. destruct (word_bytes _ H11) as (?&?&?&?).
  assert (H12 : word32 (Z.lxor (at_ rk 4) (sub_col (b3 r11) (b2 r11) (b1 r11) (b0 r11) 0))) by (apply lxor_word; [done|by apply sub_col_word]).
  apply four_words; repeat first [exact H12|apply lxor_word; [done|]].
Qed.
Lemma expand_length n i w : length (expand (S n) i w) = (length w + 8 * n + 4)%nat.
Proof.
  revert i w. induction n as [|n IH]; intros i w.
  - cbn [expand]. rewrite length_app. cbn. lia.
  - assert (E : exists l k, length l = 4%nat /\ length k = 4%nat /\ expand (S (S n)) i w = expand (S n) (i + 1) ((w ++ l) ++ k)).
    { eexists [_; _; _; _], [_; _; _; _]. split; [done|]. split; [done|]. reflexivity. }
    destruct E as (l&k&Hl&Hk&->). rewrite IH, !length_app, Hl, Hk. lia.
Qed.

(** The keys for the way back are those of the rounds in the other order, mixed back. *)
Lemma dec_keys_at w k i : length w = 60%nat -> (k <= 14)%nat -> (i < 4)%nat ->
  at_ (drop (4 * k) (dec_keys w)) (Z.of_nat i) =
  (if (k =? 0)%nat || (k =? 14)%nat then at_ (drop (4 * (14 - k)) w) (Z.of_nat i) else unmix (at_ (drop (4 * (14 - k)) w) (Z.of_nat i))).
Proof.
  intros Hw Hk Hi. do 60 (destruct w as [|? w]; [discriminate|]). destruct w as [|? w]; [|discriminate]. clear Hw.
  do 15 (destruct k as [|k]; [do 4 (destruct i as [|i]; [cbv -[unmix]; reflexivity|]); lia|]). lia.
Qed.

Lemma dec_keys_first w i : length w = 60%nat -> (i < 4)%nat -> at_ (dec_keys w) (Z.of_nat i) = at_ (drop 56 w) (Z.of_nat i).
Proof.
  intros Hw Hi. pose proof (dec_keys_at w 0 i Hw ltac:(lia) Hi) as E. change (4 * 0)%nat with 0%nat in E. rewrite drop_0 in E. exact E.
Qed.
Lemma dec_keys_last w i : length w = 60%nat -> (i < 4)%nat -> at_ (drop 56 (dec_keys w)) (Z.of_nat i) = at_ w (Z.of_nat i).
Proof.
  intros Hw Hi. pose proof (dec_keys_at w 14 i Hw ltac:(lia) Hi) as E. change (4 * (14 - 14))%nat with 0%nat in E. rewrite drop_0 in E. exact E.
Qed.

(** ** Blocks *)

Definition bytes8 (l : list Z) : Prop := Forall byte8 l.
Lemma at_byte l i : bytes8 l -> byte8 (at_ l i).
Proof.
  intros Hl. unfold at_. destruct (zget l i) as [x|] eqn:E; [|done]. apply zget_In in E. unfold bytes8 in Hl. rewrite Forall_forall in Hl. by apply Hl, list_elem_of_In.
Qed.

Lemma GETU32_eq l o : bytes8 l -> GETU32 l o = pack (at_ l o) (at_ l (o + 1)) (at_ l (o + 2)) (at_ l (o + 3)).
Proof.
  intros Hl. unfold GETU32. rewrite <- lxor_pack by by apply at_byte. pose proof (at_byte l o Hl) as H. unfold u32, wrap, byte8 in *.
  rewrite !Z.shiftl_mul_pow2 by done. rewrite Z.mod_small; [done|lia].
Qed.
Lemma PUTU32_eq w : word32 w -> PUTU32 w = [b3 w; b2 w; b1 w; b0 w].
Proof.
  intros Hw. unfold PUTU32, u8, wrap. rewrite b3_eq, b2_eq, b1_eq, b0_eq, !Z.shiftr_div_pow2 by done. unfold word32 in Hw. repeat f_equal. lia.
Qed.
Lemma PUTU32_bytes w : word32 w -> bytes8 (PUTU32 w).
Proof. intros Hw. rewrite PUTU32_eq by done. destruct (word_bytes w Hw) as (?&?&?&?). unfold bytes8. rewrite !Forall_cons. by rewrite Forall_nil. Qed.

Lemma get_block_words l : bytes8 l -> words (get_block l).
Proof. intros Hl. cbn [get_block words]. rewrite !GETU32_eq by done. repeat split; apply pack_word; by apply at_byte. Qed.

Lemma put_get_block l : bytes8 l -> length l = 16%nat -> put_block (get_block l) = l.
Proof.
  intros Hl Hn. cbn [put_block get_block]. rewrite !PUTU32_eq by (rewrite GETU32_eq by done; apply pack_word; by apply at_byte).
  rewrite !GETU32_eq by done.
  do 16 (destruct l as [|? l]; [discriminate|]). destruct l as [|? l]; [|discriminate]. unfold bytes8 in Hl. rewrite !Forall_cons in Hl. destruct_and!.
  repeat match goal with |- context [at_ (?x :: ?l) ?i] => let t := eval cbv in (at_ (x :: l) i) in change (at_ (x :: l) i) with t end.
  repeat match goal with |- context [pack ?a ?b ?c ?d] => destruct (pack_bytes a b c d) as (->&->&->&->); [done..|] end. done.
Qed.
Lemma get_put_block x : words x -> get_block (put_block x) = x.
Proof.
  destruct x as [[[t0 t1] t2] t3]. intros (H0&H1&H2&H3). unfold put_block.
  assert (Hb : bytes8 (PUTU32 t0 ++ PUTU32 t1 ++ PUTU32 t2 ++ PUTU32 t3)) by (unfold bytes8; rewrite !Forall_app; repeat split; by apply PUTU32_bytes).
  unfold get_block. rewrite !GETU32_eq by done. rewrite !PUTU32_eq by done. cbn [app].
  repeat match goal with |- context [at_ (?x :: ?l) ?i] => let t := eval cbv -[b3 b2 b1 b0] in (at_ (x :: l) i) in change (at_ (x :: l) i) with t end.
  by rewrite !bytes_pack.
Qed.
Lemma put_block_bytes x : words x -> bytes8 (put_block x) /\ length (put_block x) = 16%nat.
Proof. destruct x as [[[t0 t1] t2] t3]. intros (H0&H1&H2&H3). split; [|done]. unfold put_block, bytes8. rewrite !Forall_app. repeat split; by apply PUTU32_bytes. Qed.

(** The keys of [aes_init]. *)
Record aes_ok (a : aes_t) : Prop := mk_aes_ok {
  ao_length : length (encrd a) = 60%nat;
  ao_words : Forall word32 (encrd a);
  ao_dec : decrd a = dec_keys (encrd a);
  ao_iv : length (aes_iv a) = 16%nat /\ bytes8 (aes_iv a);
}.

Lemma cipher_eq round last rk s : cipher round last 7 rk s =
  last (drop 56 rk) (fold_left (fun s k => round (drop (4 * k) rk) s) (seq 1 13) s).
Proof. cbn [cipher]. rewrite !drop_drop. done. Qed.

Lemma enc_rounds_words rk n x : Forall word32 rk -> words x -> words (fold_left (fun s k => enc_round (drop (4 * k) rk) s) (seq 1 n) x).
Proof.
  intros Hk Hx. induction n as [|n IH]; [done|]. rewrite seq_S, fold_left_app. cbn [fold_left]. apply enc_round_words; [by apply keys_at|done].
Qed.

(** The rounds back, as many as there were. *)
Lemma dec_rounds a x n : aes_ok a -> words x -> (n <= 13)%nat ->
  fold_left (fun s k => dec_round (drop (4 * k) (decrd a)) s) (seq (14 - n) n) (sub_quad (fold_left (fun s k => enc_round (drop (4 * k) (encrd a)) s) (seq 1 n) x)) = sub_quad x.
Proof.
  intros [Hl Hw Hd _] Hx. induction n as [|n IH]; intros Hn; [done|].
  replace (14 - S n)%nat with (13 - n)%nat by lia. rewrite (seq_S n 1), fold_left_app. change (seq (13 - n) (S n)) with ((13 - n)%nat :: seq (S (13 - n)) n). cbn [fold_left].
  rewrite (dec_enc_round (drop (4 * (1 + n)) (encrd a))); [|by apply keys_at| |by apply enc_rounds_words].
  - replace (S (13 - n)) with (14 - n)%nat by lia. apply IH. lia.
  - rewrite Hd. unfold unmixed.
    assert (H : forall i, (i < 4)%nat -> at_ (drop (4 * (13 - n)) (dec_keys (encrd a))) (Z.of_nat i) = unmix (at_ (drop (4 * (1 + n)) (encrd a)) (Z.of_nat i))).
    { intros i Hi. rewrite dec_keys_at by (done || lia). replace (14 - (13 - n))%nat with (1 + n)%nat by lia.
      destruct (Nat.eqb_spec (13 - n) 0); [lia|]. destruct (Nat.eqb_spec (13 - n) 14); [lia|]. done. }
    repeat split; [apply (H 0%nat)|apply (H 1%nat)|apply (H 2%nat)|apply (H 3%nat)]; lia.
Qed.

Lemma add_keys_ext rk rk' x : (forall i, (i < 4)%nat -> at_ rk (Z.of_nat i) = at_ rk' (Z.of_nat i)) -> add_keys rk x = add_keys rk' x.
Proof. intros H. destruct x as [[[t0 t1] t2] t3]. cbn [add_keys].
  pose proof (H 0%nat) as E0. pose proof (H 1%nat) as E1. pose proof (H 2%nat) as E2. pose proof (H 3%nat) as E3. 
  change (Z.of_nat 0) with 0 in E0. change (Z.of_nat 1) with 1 in E1. change (Z.of_nat 2) with 2 in E2. change (Z.of_nat 3) with 3 in E3.
  by rewrite E0, E1, E2, E3 by lia.
Qed.

(** Decrypting a block undoes encrypting it. *)
Lemma dec_enc_block a l : aes_ok a -> bytes8 l -> length l = 16%nat ->
  dec_block a (enc_block a l) = l /\ bytes8 (enc_block a l) /\ length (enc_block a l) = 16%nat.
Proof.
  intros Ha Hl Hn. pose proof Ha as [H60 Hw Hd _]. unfold enc_block, dec_block. rewrite !cipher_eq.
  set (x := add_keys (encrd a) (get_block l)). assert (Hx : words x) by (apply add_keys_words; [by apply (keys_at _ 0)|by apply get_block_words]).
  pose proof (enc_rounds_words (encrd a) 13 x Hw Hx) as Hr. rewrite enc_last_eq by done. set (y := fold_left _ (seq 1 13) x) in *.
  assert (Hs : words (sub_quad y)).
  { destruct y as [[[t0 t1] t2] t3], Hr as (R0&R1&R2&R3). destruct (word_bytes _ R0) as (?&?&?&?), (word_bytes _ R1) as (?&?&?&?), (word_bytes _ R2) as (?&?&?&?), (word_bytes _ R3) as (?&?&?&?).
    cbn [sub_quad words]. repeat split; by apply subs_word. }
  assert (Hc : words (add_keys (drop 56 (encrd a)) (sub_quad y))) by (apply add_keys_words; [by apply keys_at|done]).
  split; [|by apply put_block_bytes]. rewrite get_put_block by done.
  rewrite (add_keys_ext (decrd a) (drop 56 (encrd a))), add_keys_twice.
  2: { intros i Hi. rewrite Hd. by apply (dec_keys_first _ i H60). }
  pose proof (dec_rounds a x 13 Ha Hx ltac:(lia)) as Er. change (14 - 13)%nat with 1%nat in Er. fold y in Er. rewrite Er. rewrite dec_last_sub by done. rewrite (add_keys_ext _ (encrd a)).
  2: { intros i Hi. rewrite Hd. by apply (dec_keys_last _ i H60). }
  unfold x. rewrite add_keys_twice. by apply put_get_block.
Qed.

(** ** Chains of blocks *)

Lemma xors_length a b : (length a <= length b)%nat -> length (xors a b) = length a.
Proof. intros H. unfold xors. rewrite length_zip_with. lia. Qed.
Lemma xors_twice a b : (length a <= length b)%nat -> xors (xors a b) b = a.
Proof.
  revert b. induction a as [|x a IH]; intros [|y b] H; cbn in H; try done; [lia|]. cbn. f_equal; [by rewrite Z.lxor_assoc, Z.lxor_nilpotent, Z.lxor_0_r|].
  apply IH. lia.
Qed.
Lemma xors_bytes a b : bytes8 a -> bytes8 b -> bytes8 (xors a b).
Proof.
  intros Ha. revert b. induction Ha as [|x a Hx _ IH]; intros b Hb; [constructor|]. destruct Hb as [|y b Hy Hb]; [constructor|].
  cbn. constructor; [by apply lxor_byte|by apply IH].
Qed.

Lemma cbc_dec_enc n a iv data : aes_ok a -> length data = (16 * n)%nat -> bytes8 data -> length iv = 16%nat -> bytes8 iv ->
  cbc_dec n a iv (cbc_enc n a iv data) = data /\ length (cbc_enc n a iv data) = (16 * n)%nat.
Proof.
  intros Ha. revert iv data. induction n as [|n IH]; intros iv data Hl Hd Hiv Hb.
  - destruct data; [done|]. cbn in Hl. lia.
  - cbn [cbc_enc cbc_dec]. assert (Ht : length (take 16 data) = 16%nat) by (rewrite length_take; lia).
    assert (Htb : bytes8 (take 16 data)) by by apply Forall_take.
    destruct (dec_enc_block a (xors (take 16 data) iv) Ha) as (D&B&L); [by apply xors_bytes|by rewrite xors_length by lia|].
    set (out := enc_block a _) in *. rewrite take_app_length', drop_app_length' by lia. rewrite D, xors_twice by lia.
    destruct (IH out (drop 16 data)) as [E1 E2]; [rewrite length_drop; lia|by apply Forall_drop|done|done|]. rewrite E1, length_app, E2, L.
    split; [apply take_drop|lia].
Qed.

Lemma aes_init_ok pass : length pass = 32%nat -> bytes8 pass -> aes_ok (aes_init pass).
Proof.
  intros Hl Hb. unfold aes_init. split; cbn [encrd decrd aes_iv].
  - rewrite expand_length, length_map. done.
  - apply expand_words. apply Forall_forall. intros w Hw. apply list_elem_of_In, in_map_iff in Hw as (i&<-&_).
    rewrite GETU32_eq by done. apply pack_word; by apply at_byte.
  - done.
  - change 15 with (Z.ones 4). rewrite Z.land_ones by done. split; [|by apply Forall_take, Forall_drop].
    unfold slice. rewrite length_take, length_drop, Hl. pose proof (Z.mod_pos_bound (at_ pass 0) (2 ^ 4)). lia.
Qed.

Lemma aes_dec_enc a data : aes_ok a -> zlen data = 4096 -> bytes8 data -> aes_dec a (aes_enc a data) = data /\ zlen (aes_enc a data) = 4096.
Proof.
  intros Ha Hl Hb. unfold aes_dec, aes_enc. set (n := Z.to_nat (secsize / 16)). assert (Hn : Z.of_nat n = 256) by done. clearbody n.
  pose proof (ao_iv _ Ha) as [Hiv Hivb]. destruct (cbc_dec_enc n a (aes_iv a) data) as [E1 E2]; [done|unfold zlen in Hl; lia|done|done|done|].
  split; [done|]. unfold zlen. lia.
Qed.

(** ** Digests *)

Lemma PUTU32_any w : bytes8 (PUTU32 w).
Proof. unfold PUTU32, bytes8, u8, wrap. rewrite !Forall_cons, Forall_nil. unfold byte8. repeat split; lia. Qed.

Lemma sha_t_length c : length (sha_s c) = 8%nat -> length (sha_s (sha256_t c)) = 8%nat.
Proof.
  intros H. unfold sha256_t. cbn [sha_s]. rewrite length_zip_with. set (km := combine _ _). clearbody km.
  assert (E : forall x, length x = 8%nat -> length (fold_left sha_round km x) = 8%nat) by (induction km as [|y km IH]; intros x Hx; [done|by apply IH]).
  rewrite E by done. lia.
Qed.

(** Contexts that differ in bytes that are not written yet. *)
Record alike (c c' : SHA256_CTX) : Prop := mk_alike {
  al_len : zlen (sha_d c) = 64 /\ zlen (sha_d c') = 64;
  al_l : sha_l c = sha_l c' /\ 0 <= sha_l c < 64;
  al_b : sha_b0 c = sha_b0 c' /\ sha_b1 c = sha_b1 c';
  al_s : sha_s c = sha_s c' /\ length (sha_s c) = 8%nat;
  al_d i : 0 <= i < sha_l c -> zget (sha_d c) i = zget (sha_d c') i;
}.

Lemma same_bytes (d d' : list Z) : zlen d = 64 -> zlen d' = 64 -> (forall i, 0 <= i < 64 -> zget d i = zget d' i) -> d = d'.
Proof.
  intros L L' H. apply list_eq. intros i. destruct (Z.lt_ge_cases (Z.of_nat i) 64) as [Hi|Hi].
  - specialize (H (Z.of_nat i)). unfold zget in H. destruct (Z.ltb_spec (Z.of_nat i) 0); [lia|]. rewrite Nat2Z.id in H. apply H. lia.
  - rewrite !lookup_ge_None_2 by (unfold zlen in *; lia). done.
Qed.

Lemma sha_add_fields n c : sha_d (SHA_ADD n c) = sha_d c /\ sha_l (SHA_ADD n c) = sha_l c /\ sha_s (SHA_ADD n c) = sha_s c.
Proof. unfold SHA_ADD. by destruct (_ <? _). Qed.

Lemma sha_byte_alike c c' x : alike c c' -> alike (sha_byte c x) (sha_byte c' x).
Proof.
  intros [[L L'] [El Hl] [B0 B1] [Es Hs] Hd]. destruct c as [d l u v s], c' as [d' l' u' v' s']. cbn [sha_d sha_l sha_b0 sha_b1 sha_s] in *. subst l' u' v' s'.
  unfold sha_byte. cbn -[sha256_t zset SHA_ADD].
  assert (Hd' : forall i, 0 <= i < l + 1 -> zget (zset d l x) i = zget (zset d' l x) i).
  { intros i Hi. destruct (decide (i = l)) as [->|Hne]; [by rewrite !zget_zset_eq by lia|]. rewrite !zget_zset_ne by done. apply Hd. lia. }
  rewrite <- (zlen_zset d l x) in L. rewrite <- (zlen_zset d' l x) in L'. set (e := zset d l x) in *. set (e' := zset d' l x) in *. clearbody e e'.
  destruct (Z.eqb_spec (l + 1) 64) as [E|E]; [|split; cbn [sha_d sha_l sha_b0 sha_b1 sha_s]; try done; lia].
  rewrite <- (same_bytes e e') by (try done; intros i Hi; apply Hd'; lia).
  set (k := sha256_t _). assert (Hk : length (sha_s k) = 8%nat) by (by apply sha_t_length). assert (Hkd : sha_d k = e) by done. clearbody k.
  destruct (sha_add_fields 512 k) as (F1&F2&F3). set (k' := SHA_ADD 512 k) in *. clearbody k'.
  split; cbn [sha_d sha_l sha_b0 sha_b1 sha_s]; rewrite ?F1, ?F3, ?Hkd; done.
Qed.

Lemma alike_init junk junk' : zlen junk = 64 -> zlen junk' = 64 -> alike (SHA256_Init junk) (SHA256_Init junk').
Proof. intros H H'. split; cbn; try done. lia. Qed.
Lemma alike_update data c c' : alike c c' -> alike (SHA256_Update c data) (SHA256_Update c' data).
Proof. revert c c'. induction data as [|x data IH]; intros c c' H; [done|]. apply IH. by apply sha_byte_alike. Qed.
Lemma alike_parts parts c c' : alike c c' -> alike (fold_left SHA256_Update parts c) (fold_left SHA256_Update parts c').
Proof. revert c c'. induction parts as [|x parts IH]; intros c c' H; [done|]. apply IH. by apply alike_update. Qed.

(** The buffer when the message and its end are in it. *)
Lemma padded_alike c c' n : alike c c' -> 0 <= n -> sha_l c + 1 + n <= 64 ->
  let d c := poke (sha_l c + 1) (zeros n) (zset (sha_d c) (sha_l c) 0x80) in
  zlen (d c) = 64 /\ zlen (d c') = 64 /\ forall i, 0 <= i < sha_l c + 1 + n -> zget (d c) i = zget (d c') i.
Proof.
  intros [[L L'] [El Hl] _ _ Hd] Hn Hm. cbv beta zeta. rewrite <- El.
  assert (Z1 : forall d : list Z, zlen d = 64 -> zlen (zset d (sha_l c) 0x80) = 64) by (intros d H; by rewrite zlen_zset).
  split; [rewrite zlen_poke; rewrite ?zlen_zeros, ?Z1 by (done || lia); lia|]. split; [rewrite zlen_poke; rewrite ?zlen_zeros, ?Z1 by (done || lia); lia|].
  intros i Hi. rewrite !zget_poke by (rewrite ?zlen_zeros, ?Z1 by (done || lia); lia). destruct ((_ <=? i) && _) eqn:E; [done|]. rewrite zlen_zeros in E by done.
  destruct (decide (i = sha_l c)) as [->|Hne]; [by rewrite !zget_zset_eq by lia|]. rewrite !zget_zset_ne by done. apply Hd. lia.
Qed.

(** The length is written behind the message. *)
Definition sha_end (n : Z) (c : SHA256_CTX) : list Z :=
  let c := SHA_ADD n c in
  flat_map PUTU32 (take 8 (sha_s (sha256_t (c <| sha_d := poke 56 (PUTU32 (sha_b1 c) ++ PUTU32 (sha_b0 c)) (sha_d c) |>)))).
Lemma sha_end_alike n d d' l u v s : (forall w, zlen w = 8 -> poke 56 w d = poke 56 w d') -> sha_end n (mk_sha d l u v s) = sha_end n (mk_sha d' l u v s).
Proof.
  intros H. unfold sha_end, SHA_ADD. cbn [sha_d sha_l sha_b0 sha_b1 sha_s]. destruct (_ <? _); cbn [sha_d sha_l sha_b0 sha_b1 sha_s]; by rewrite H.
Qed.

Lemma final_alike c c' : alike c c' -> SHA256_Final c = SHA256_Final c'.
Proof.
  intros H. pose proof H as [[L L'] [El Hl] [B0 B1] [Es Hs] _]. destruct c as [dc lc b0c b1c sc], c' as [dc' lc' b0c' b1c' sc'].
  cbn [sha_d sha_l sha_b0 sha_b1 sha_s] in *. subst lc' b0c' b1c' sc'. unfold SHA256_Final. cbn [sha_d sha_l sha_b0 sha_b1 sha_s].
  destruct (Z.ltb_spec lc 56) as [Hc|Hc].
  - destruct (padded_alike _ _ (55 - lc) H) as (D1&D2&D3); [lia|cbn [sha_l]; lia|]. cbn [sha_l sha_d] in D1, D2, D3.
    apply sha_end_alike. revert D1 D2 D3. generalize (poke (lc + 1) (zeros (55 - lc)) (zset dc lc 128)) as d. generalize (poke (lc + 1) (zeros (55 - lc)) (zset dc' lc 128)) as d'.
    intros d' d D1 D2 D3 w Hw. apply same_bytes; [by rewrite zlen_poke by lia|by rewrite zlen_poke by lia|]. intros i Hi. rewrite !zget_poke by lia.
    destruct ((56 <=? i) && _) eqn:E; [done|]. apply D3. lia.
  - destruct (padded_alike _ _ (63 - lc) H) as (D1&D2&D3); [lia|cbn [sha_l]; lia|]. cbn [sha_l sha_d] in D1, D2, D3.
    by rewrite (same_bytes _ _ D1 D2) by (intros i Hi; apply D3; lia).
Qed.

Lemma digest_alike junk junk' parts : zlen junk = 64 -> zlen junk' = 64 -> digest junk parts = digest junk' parts.
Proof. intros H H'. apply final_alike, alike_parts. by apply alike_init. Qed.

Lemma digest_form junk parts : zlen junk = 64 -> length (digest junk parts) = 32%nat /\ bytes8 (digest junk parts).
Proof.
  intros Hj. unfold digest, SHA256_Final. pose proof (alike_parts parts _ _ (alike_init junk junk Hj Hj)) as [_ _ _ [_ Hs] _].
  set (c := fold_left _ _ _) in *. clearbody c. cbv zeta. set (c1 := if sha_l c <? 56 then _ else _).
  assert (H1 : length (sha_s c1) = 8%nat) by (unfold c1; destruct (_ <? 56); [done|by apply sha_t_length]). clearbody c1.
  destruct (sha_add_fields (sha_l c * 8) c1) as (_&_&E3). set (c2 := SHA_ADD _ c1) in *.
  assert (H2 : length (sha_s (sha256_t (c2 <| sha_d := poke 56 (PUTU32 (sha_b1 c2) ++ PUTU32 (sha_b0 c2)) (sha_d c2) |>))) = 8%nat)
    by (apply sha_t_length; cbn [sha_s]; by rewrite E3). clear E3. set (s := sha_s (sha256_t _)) in *. clearbody s. clear c1 H1 c2. split.
  - do 8 (destruct s as [|? s]; [discriminate|]). destruct s; [|discriminate]. done.
  - generalize (take 8 s). induction l as [|w l IH]; [constructor|]. cbn [flat_map]. unfold bytes8. rewrite Forall_app. split; [apply PUTU32_any|done].
Qed.

(** A sector under a chain of digests. *)
Lemma sha_blocks_twice junk junk' n iv chk j data : zlen junk = 64 -> zlen junk' = 64 -> length iv = 32%nat -> length data = (32 * n)%nat ->
  sha_blocks junk' n iv chk j (sha_blocks junk n iv chk j data) = data /\ length (sha_blocks junk n iv chk j data) = (32 * n)%nat.
Proof.
  intros Hj Hj' Hiv. revert chk data. induction n as [|n IH]; intros chk data Hl.
  - destruct data; [done|]. cbn in Hl. lia.
  - cbn [sha_blocks]. rewrite (digest_alike junk' junk) by done. set (c := digest junk _). assert (Hc : length c = 32%nat) by by apply digest_form. clearbody c.
    assert (Ht : length (take 32 data) = 32%nat) by (rewrite length_take; lia). assert (Hk : length (xors c iv) = 32%nat) by (rewrite xors_length; lia).
    assert (Hx : length (xors (take 32 data) (xors c iv)) = 32%nat) by (rewrite xors_length; lia).
    rewrite take_app_length', drop_app_length' by lia. rewrite xors_twice by lia.
    destruct (IH c (drop 32 data)) as [E1 E2]; [rewrite length_drop; lia|]. rewrite E1, length_app, E2, Hx. split; [apply take_drop|lia].
Qed.

Lemma sha_sector_twice junk junk' iv j data : zlen junk = 64 -> zlen junk' = 64 -> length iv = 32%nat -> zlen data = 4096 ->
  sha_sector junk' iv j (sha_sector junk iv j data) = data /\ zlen (sha_sector junk iv j data) = 4096.
Proof.
  intros Hj Hj' Hiv Hl. unfold sha_sector. set (n := Z.to_nat (secsize / 32)). assert (Hn : Z.of_nat n = 128) by done. clearbody n.
  destruct (sha_blocks_twice junk junk' n iv iv j data) as [E1 E2]; [done|done|done|unfold zlen in Hl; lia|]. split; [done|]. unfold zlen. lia.
Qed.

(** Checksums are words. *)
Lemma crc_word l : word32 (Crc32.crc32a_calc l).
Proof.
  unfold Crc32.crc32a_calc. apply lxor_word; [|done]. assert (H : forall v, word32 v -> word32 (Crc32.crc_loop Crc32.crc32_lookup v l)); [|by apply H].
  assert (Ht : Forall word32 Crc32.crc32_lookup).
  { apply Forall_forall. intros w Hw. apply is_word_ok. assert (E : forallb is_word Crc32.crc32_lookup = true) by by vm_compute.
    rewrite List.forallb_forall in E. by apply E, list_elem_of_In. }
  unfold Crc32.crc_loop. induction l as [|b l IH]; intros v Hv; [done|]. cbn [fold_left]. apply IH. unfold Crc32.crc_step. apply lxor_word; [|by apply (at_word Crc32.crc32_lookup)].
  unfold word32 in *. rewrite Z.shiftr_div_pow2 by done. lia.
Qed.

End MkcryptFacts.
