(* ===== verification/MkcryptImage.v ===== *)
(** Encrypted images as a whole: the commands that encrypt and decrypt an image undo each
    other, sector by sector. *)
From Stdlib Require Import ZArith Lia List.
From stdpp Require Import base option list.
From S2P Require Import Prelude Bytes Crc32 Initrd Mkfs MkfsFacts MkfsTree MkfsBuild Mkcrypt MkcryptFacts.
Import Initrd Mkfs Mkcrypt MkfsFacts MkfsBuild MkcryptFacts.

#[local] Ltac Zify.zify_post_hook ::= Z.div_mod_to_equations.

Module MkcryptImage.

(** ** Sectors *)

Lemma slice_ext o n b b' : 0 <= o -> 0 <= n -> o + n <= zlen b -> o + n <= zlen b' -> (forall x, o <= x < o + n -> zget b' x = zget b x) -> slice o n b' = slice o n b.
Proof.
  intros Ho Hn Hb Hl H. apply (holds_inj (zget b') o).
  - rewrite !zlen_slice by lia. done.
  - apply holds_slice; lia.
  - eapply holds_ext; [|apply holds_slice; [lia|lia|exact Hb]]. rewrite zlen_slice by lia. intros x Hx. by apply H.
Qed.

(** The loop over the sectors from the one numbered [j] on. *)
Lemma wp_each_sector fuel f n o j s (Q : Z -> mkfs_t -> Prop) :
  (forall k l, zlen l = 4096 -> zlen (f k l) = 4096) -> o = 4096 * j -> 1 <= j -> n + 4096 <= zlen (fs s) -> o <= zlen (fs s) -> n <= o + 4096 * (Z.of_nat fuel - 1) -> (0 < fuel)%nat ->
  (forall s' z, zlen (fs s') = zlen (fs s) -> size s' = size s -> initrd s' = initrd s -> o <= z -> n <= z -> z = o \/ z < n + 4096 -> z mod 4096 = 0 ->
     (forall x, x < o \/ z <= x -> zget (fs s') x = zget (fs s) x) ->
     (forall k, j <= k -> 4096 * k < n -> slice (4096 * k) 4096 (fs s') = f k (slice (4096 * k) 4096 (fs s))) -> Q z s') ->
  wp (each_sector fuel f n o j) Q s.
Proof.
  intros Hf. revert o j s. induction fuel as [|fuel IH]; intros o j s -> Hj Hn Ho Hfu H0 HQ; [lia|]. cbn [each_sector].
  destruct (Z.ltb_spec (4096 * j) n) as [Hlt|Hge].
  2: { apply wp_ret, HQ; try done; try (by left); lia. }
  apply wp_bind. change secsize with 4096. eapply wp_image_load; [apply at_refl|lia|lia|cbn [pokes]; lia|]. intros l Hl Hh. cbn [pokes] in Hh.
  assert (El : l = slice (4096 * j) 4096 (fs s)) by (rewrite <- (slice_holds (4096 * j) l (fs s)) at 1 by (lia || done); by rewrite Hl). pose proof (Hf j l Hl) as Hfl.
  apply wp_bind. eapply wp_image_store; [apply at_refl|lia|lia|]. set (s1 := set_fs _ _). intros [E W]. cbn [pokes] in E.
  assert (L1 : zlen (fs s1) = zlen (fs s)) by (rewrite E; by rewrite zlen_poke by lia). assert (K1 : forall x, zget (fs s1) x = if (4096 * j <=? x) && (x <? 4096 * j + 4096) then zget (f j l) (x - 4096 * j) else zget (fs s) x).
  { intros x. rewrite E, zget_poke by lia. by rewrite Hfl. }
  assert (Z1 : size s1 = size s) by done. assert (I1 : initrd s1 = initrd s) by done. clearbody s1.
  apply IH; [lia|lia|lia|lia|lia|lia|]. intros s' z L Z I Hz1 Hz2 Hz3 Hz4 K F. apply (HQ s' z); [congruence|congruence|congruence|lia|lia|right; lia|done| |].
  - intros x Hx. rewrite K by lia. rewrite K1. by replace ((4096 * j <=? x) && _) with false by lia.
  - intros k Hk Hkn. destruct (decide (k = j)) as [->|Hne].
    + rewrite <- El. apply (holds_inj (zget (fs s')) (4096 * j)); [by rewrite zlen_slice by lia|apply holds_slice; lia|].
      intros i b Hb. pose proof (zget_Some_lt _ _ _ Hb). rewrite K by lia. rewrite K1. replace ((4096 * j <=? _) && _) with true by lia. by replace (4096 * j + i - 4096 * j) with i by lia.
    + rewrite F by lia. f_equal. apply slice_ext; [lia|lia|lia|lia|]. intros x Hx. rewrite K1. by replace ((4096 * j <=? x) && _) with false by lia.
Qed.

(** ** The steps of both commands *)

(** What a step leaves of the sectors behind the first one, under [f]. *)
Record sectors_done (f : Z -> list Z -> list Z) (n : Z) (P : Z -> Prop) (s s' : mkfs_t) : Prop := mk_sectors_done {
  sd_len : zlen (fs s') = zlen (fs s);
  sd_size : size s' = size s;
  sd_first x : x < 4096 -> ~ P x -> zget (fs s') x = zget (fs s) x;
  sd_all k : 1 <= k -> 4096 * k < n -> slice (4096 * k) 4096 (fs s') = f k (slice (4096 * k) 4096 (fs s));
}.

Lemma wp_sectors f n s (Q : Z -> mkfs_t -> Prop) : (forall k l, zlen l = 4096 -> zlen (f k l) = 4096) -> 4096 <= n -> n mod 4096 = 0 -> n + 4096 <= zlen (fs s) ->
  (forall s', sectors_done f n (fun _ => False) s s' -> Q n s') -> wp (sectors f n) Q s.
Proof.
  intros Hf Hn Hm Hl HQ. unfold sectors. change secsize with 4096. apply wp_each_sector; [done|done|done|done|lia|lia|lia|].
  intros s' z L Z I Hz1 Hz2 Hz3 Hz4 K F. replace z with n by lia. apply HQ. split; [done|done|intros x Hx _; apply K; lia|intros k H1 H2; by apply F].
Qed.

Lemma wp_mask_key junk pass m k s (Q : unit -> mkfs_t -> Prop) : zlen junk = 64 -> 4096 <= zlen (fs s) -> zlen m = 6 -> zlen k = 28 ->
  holds (zget (fs s)) 512 m -> holds (zget (fs s)) 680 k ->
  (forall s', same_but (fun x => 680 <= x < 708) s s' -> holds (zget (fs s')) 680 (xors k (digest junk [pass; m])) -> Q tt s') -> wp (mask_key junk pass) Q s.
Proof.
  intros Hj Hl Lm Lk Hm Hk HQ. unfold mask_key, FSZ_encrypt. apply wp_bind. eapply wp_image_load_eq; [apply at_refl|exact Hm|done|done|lia|].
  apply wp_bind. eapply wp_image_load_eq; [apply at_refl|exact Hk|done|done|lia|].
  assert (Hx : zlen (xors k (digest junk [pass; m])) = 28).
  { destruct (digest_form junk [pass; m] Hj) as [Hd _]. unfold zlen in *. rewrite xors_length; [lia|lia]. }
  eapply wp_image_store; [apply at_refl|lia|lia|]. set (s1 := set_fs _ _). intros W. apply HQ.
  - eapply at_same; [exact W|done|done|done|]. constructor; [cbn [fst snd]; lia|done].
  - destruct W as [-> W]. by apply hp_here.
Qed.

Lemma wp_sb_checksum s (Q : unit -> mkfs_t -> Prop) : 4096 <= zlen (fs s) -> (forall s', same_but (fun x => 1020 <= x < 1024) s s' -> Q tt s') -> wp sb_checksum Q s.
Proof.
  intros Hl HQ. unfold sb_checksum. eapply wp_put_checksum; [apply at_refl|lia|lia|lia|lia|lia|]. intros c s1 W. apply HQ.
  eapply at_same; [exact W|done|done|done|ins].
Qed.

(** The flags of the cipher. *)
Lemma le_one v : byte8 v -> le 1 v = [v].
Proof. intros Hv. unfold le. f_equal. unfold byte8 in Hv. lia. Qed.

Lemma flags_ok fl : byte8 fl -> FSZ_SB_EALG fl = 0 -> Z.land fl FSZ_SB_EALG_AESCBC = 0 /\
  byte8 (Z.lor fl FSZ_SB_EALG_AESCBC) /\ FSZ_SB_EALG (Z.lor fl FSZ_SB_EALG_AESCBC) = 1 /\ Z.land (Z.lor fl FSZ_SB_EALG_AESCBC) FSZ_SB_EALG_AESCBC = 4.
Proof.
  intros Hf He. assert (H : implb (FSZ_SB_EALG fl =? 0) ((Z.land fl FSZ_SB_EALG_AESCBC =? 0) && (0 <=? Z.lor fl FSZ_SB_EALG_AESCBC) && (Z.lor fl FSZ_SB_EALG_AESCBC <? 256) &&
    (FSZ_SB_EALG (Z.lor fl FSZ_SB_EALG_AESCBC) =? 1) && (Z.land (Z.lor fl FSZ_SB_EALG_AESCBC) FSZ_SB_EALG_AESCBC =? 4)) = true).
  { clear He. revert fl Hf. apply all_bytes. by vm_compute. }
  rewrite He in H. change (0 =? 0) with true in H. cbn [implb] in H. unfold byte8. lia.
Qed.

Lemma cipher_flag_ok (aes : bool) fl : byte8 fl -> FSZ_SB_EALG fl = 0 -> let fl' := if aes then Z.lor fl FSZ_SB_EALG_AESCBC else fl in
  byte8 fl' /\ (HAS_AES <? FSZ_SB_EALG fl') = false /\ negb (Z.land fl' FSZ_SB_EALG_AESCBC =? 0) = aes.
Proof. intros Hfb Hfe. destruct (flags_ok fl Hfb Hfe) as (F1&F2&F3&F4). destruct aes; cbv zeta; [by rewrite F3, F4|by rewrite Hfe, F1]. Qed.

(** A loaded image. *)
Lemma wp_load_image (d : list Z) s (Q : unit -> mkfs_t -> Prop) : zlen d < 2 ^ 31 ->
  (forall s', fs s' = d ++ zeros 4097 -> size s' = zlen d -> Q tt s') -> wp (load_image (Some d)) Q s.
Proof. intros Hd HQ. pose proof (zlen_nonneg d). apply wp_modify, HQ; [done|]. cbn [size set_fs set_size]. apply s32_small. lia. Qed.
Lemma holds_padded d n v l : holds (zget d) v l -> 0 <= v -> v + zlen l <= zlen d -> holds (zget (d ++ zeros n)) v l.
Proof. intros H Hv Hl. eapply holds_ext; [|exact H]. intros x Hx. by apply zget_app_l; lia. Qed.
Lemma slice_padded d n o k : 0 <= o -> 0 <= k -> o + k <= zlen d -> slice o k (d ++ zeros n) = slice o k d.
Proof.
  intros Ho Hk Hl. unfold slice. rewrite drop_app_le by (unfold zlen in Hl; lia). apply take_app_le. rewrite length_drop. unfold zlen in Hl. lia.
Qed.

(** ** Encrypting, and decrypting *)

(** The cipher of a sector, and the way back. *)
Definition sector_enc (aes : bool) (junk rnd : list Z) : Z -> list Z -> list Z :=
  let iv := digest junk [rnd] in if aes then fun _ => aes_enc (aes_init iv) else sha_sector junk iv.
Definition sector_dec (aes : bool) (junk rnd : list Z) : Z -> list Z -> list Z :=
  let iv := digest junk [rnd] in if aes then fun _ => aes_dec (aes_init iv) else sha_sector junk iv.

Lemma sector_dec_enc aes junk junk' rnd k l : zlen junk = 64 -> zlen junk' = 64 -> zlen l = 4096 -> bytes8 l ->
  sector_dec aes junk' rnd k (sector_enc aes junk rnd k l) = l.
Proof.
  intros Hj Hj' Hl Hb. unfold sector_dec, sector_enc. rewrite (digest_alike junk' junk) by done. destruct (digest_form junk [rnd] Hj) as [Hd Hdb].
  destruct aes; [by apply aes_dec_enc; [apply aes_init_ok|..]|by apply sha_sector_twice].
Qed.

Lemma put_block_length x : length (put_block x) = 16%nat.
Proof. by destruct x as [[[a0 a1] a2] a3]. Qed.
Lemma cbc_enc_length n a iv l : length (cbc_enc n a iv l) = (16 * n)%nat.
Proof.
  revert iv l. induction n as [|n IH]; intros iv l; [done|]. cbn [cbc_enc]. rewrite length_app, IH. unfold enc_block. rewrite put_block_length. lia.
Qed.
Lemma cbc_dec_length n a iv l : length l = (16 * n)%nat -> length iv = 16%nat -> length (cbc_dec n a iv l) = (16 * n)%nat.
Proof.
  revert iv l. induction n as [|n IH]; intros iv l Hl Hiv; [done|]. cbn [cbc_dec]. rewrite length_app, IH; [|rewrite length_drop; lia|rewrite length_take; lia].
  rewrite xors_length; unfold dec_block; rewrite put_block_length; lia.
Qed.

Lemma sector_lengths aes junk rnd k l : zlen junk = 64 -> zlen l = 4096 -> zlen (sector_enc aes junk rnd k l) = 4096 /\ zlen (sector_dec aes junk rnd k l) = 4096.
Proof.
  intros Hj Hl. destruct (digest_form junk [rnd] Hj) as [Hd Hdb]. unfold sector_enc, sector_dec. destruct aes; [|by split; apply (sha_sector_twice junk junk)].
  destruct (aes_init_ok _ Hd Hdb) as [_ _ _ [Hiv _]]. unfold aes_enc, aes_dec. set (n := Z.to_nat (secsize / 16)). assert (Hn : Z.of_nat n = 256) by done. clearbody n.
  unfold zlen in *. rewrite cbc_enc_length, cbc_dec_length by lia. lia.
Qed.

#[local] Opaque aes_enc aes_dec aes_init digest sha_sector.

(** The superblock of an encrypted image; [m] is its magic. *)
Record encrypted (aes : bool) (junk pass rnd : list Z) (d e : list Z) : Prop := mk_encrypted {
  en_len : zlen e = zlen d;
  en_hash : holds (zget e) 708 (le 4 (Crc32.crc32a_calc (pass_line pass)));
  en_key : holds (zget e) 680 (xors rnd (digest junk [pass_line pass; slice 512 6 d]));
  en_flags fl : holds (zget d) 518 [fl] -> holds (zget e) 518 [if aes then Z.lor fl FSZ_SB_EALG_AESCBC else fl];
  en_first x : 0 <= x < 4096 -> x <> 518 -> ~ (680 <= x < 712) -> ~ (1020 <= x < 1024) -> zget e x = zget d x;
  en_all k : 1 <= k -> 4096 * k < zlen d -> slice (4096 * k) 4096 e = sector_enc aes junk rnd k (slice (4096 * k) 4096 d);
}.

Section Encrypt.
Context (aes : bool) (junk pass rnd d : list Z) (s0 : mkfs_t).
Context (Hj : zlen junk = 64) (Hd : 4096 <= zlen d < 2 ^ 31) (Hm : zlen d mod 4096 = 0) (Hr : zlen rnd = 28) (E0 : fs s0 = d ++ zeros 4097).
Notation crc := (Crc32.crc32a_calc (pass_line pass)).

(** The image with the key and the code of the pass phrase. *)
Record keyed (s1 : mkfs_t) : Prop := mk_keyed {
  ke_same : same_but (fun x => 680 <= x < 712) s0 s1;
  ke_key : holds (zget (fs s1)) 680 rnd;
  ke_hash : holds (zget (fs s1)) 708 (le 4 crc);
}.

Lemma padded_length : zlen (fs s0) = zlen d + 4097.
Proof. by rewrite E0, zlen_app, zlen_zeros. Qed.

(** What comes after the sectors. *)
Lemma wp_encrypt_end s1 s2 fl (Q : list Z -> mkfs_t -> Prop) : keyed s1 -> sectors_done (sector_enc aes junk rnd) (zlen d) (fun x => x = 518) s1 s2 ->
  holds (zget d) 518 [fl] -> holds (zget (fs s2)) 518 [if aes then Z.lor fl FSZ_SB_EALG_AESCBC else fl] ->
  (forall e s', encrypted aes junk pass rnd d e -> Q e s') -> wp (mask_key junk (pass_line pass) ;;; sb_checksum ;;; load 0 (zlen d)) Q s2.
Proof.
  intros [(L1&_&_&K1) R1 H1] [L2 _ K2 D2] Hfl F2 HQ. pose proof padded_length as L0. assert (Hm6 : zlen (slice 512 6 d) = 6) by (apply zlen_slice; lia).
  apply wp_bind. apply (wp_mask_key junk (pass_line pass) (slice 512 6 d) rnd); [done|lia|done|done| | |].
  { apply (holds_ext (zget (d ++ zeros 4097))); [|apply holds_padded; [apply holds_slice; lia|lia|lia]]. rewrite Hm6. intros x Hx. rewrite K2, K1 by lia. by rewrite E0. }
  { eapply holds_ext; [|exact R1]. intros x Hx. apply K2; lia. }
  intros s3 (L3&_&_&K3) R3. apply wp_bind, wp_sb_checksum; [lia|]. intros s4 (L4&_&_&K4).
  eapply wp_image_load; [apply at_refl|lia|lia|lia|]. cbn [pokes]. intros e Le He.
  assert (Ke : forall x, 0 <= x < zlen d -> zget e x = zget (fs s4) x).
  { intros x Hx. destruct (zget_is_Some e x ltac:(lia)) as [y Hy]. rewrite Hy. apply He in Hy. by rewrite Z.add_0_l in Hy. }
  assert (Hl28 : zlen (xors rnd (digest junk [pass_line pass; slice 512 6 d])) = 28).
  { destruct (digest_form junk [pass_line pass; slice 512 6 d] Hj) as [Hdl _]. unfold zlen in *. rewrite xors_length; lia. }
  apply HQ. split.
  - done.
  - eapply holds_ext; [|exact H1]. rewrite le_length. intros x Hx. rewrite Ke, K4, K3, K2 by lia. done.
  - eapply holds_ext; [|exact R3]. intros x Hx. rewrite Ke, K4 by lia. done.
  - intros fl' Hfl'. assert (fl' = fl) as -> by (pose proof (holds_inj _ _ [fl'] [fl] eq_refl Hfl' Hfl) as Ef; by injection Ef).
    eapply holds_ext; [|exact F2]. intros x Hx. change (zlen [_]) with 1 in Hx. rewrite Ke, K4, K3 by lia. done.
  - intros x Hx H5 H6 H7. rewrite Ke, K4, K3, K2, K1, E0 by lia. apply zget_app_l. lia.
  - intros k Hk Hkd. rewrite (slice_ext _ _ (fs s2)); [|lia|lia|lia|lia|intros x Hx; rewrite Ke, K4, K3 by lia; done].
    rewrite D2 by done. f_equal. rewrite (slice_ext _ _ (fs s0)); [|lia|lia|lia|lia|intros x Hx; apply K1; lia]. rewrite E0. apply slice_padded; lia.
Qed.

(** The sectors, and the flag of the cipher. *)
Lemma wp_encrypt_sectors s1 fl (Q : Z -> mkfs_t -> Prop) : keyed s1 -> holds (zget d) 518 [fl] -> byte8 fl -> byte8 (Z.lor fl FSZ_SB_EALG_AESCBC) ->
  (forall s2, sectors_done (sector_enc aes junk rnd) (zlen d) (fun x => x = 518) s1 s2 ->
     holds (zget (fs s2)) 518 [if aes then Z.lor fl FSZ_SB_EALG_AESCBC else fl] -> Q (zlen d) s2) ->
  wp (if aes then fl <-- get_word 1 518 ;; put_word 1 518 (Z.lor fl FSZ_SB_EALG_AESCBC) ;;; sectors (fun _ => aes_enc (aes_init (digest junk [rnd]))) (zlen d)
      else sectors (sha_sector junk (digest junk [rnd])) (zlen d)) Q s1.
Proof.
  intros [S1 _ _] Hfl Hfb Hlb HQ. pose proof padded_length as L0. pose proof S1 as (L1&_&_&K1).
  pose proof (fun k l H => proj1 (sector_lengths aes junk rnd k l Hj H)) as Hlen.
  assert (F1 : holds (zget (fs s1)) 518 [fl]).
  { eapply same_holds; [exact S1|intros x Hx; cbn beta; change (zlen [fl]) with 1 in Hx; lia|]. rewrite E0. apply holds_padded; [done|lia|change (zlen [fl]) with 1; lia]. }
  destruct aes.
  - apply wp_bind. eapply (wp_get_word _ _ _ fl); [apply at_refl|cbn [pokes]; by rewrite le_one|unfold byte8 in Hfb; cbn; lia|done|lia|].
    apply wp_bind. eapply wp_put_word; [apply at_refl|lia|lia|]. set (s2 := set_fs _ _). intros W.
    assert (S2 : same_but (fun x => x = 518) s1 s2) by (eapply at_same; [exact W|done|done|done|ins]).
    assert (F2 : holds (zget (fs s2)) 518 [Z.lor fl FSZ_SB_EALG_AESCBC]) by (destruct W as [-> W]; by apply hp_here; [..|rewrite le_one]).
    clear W. clearbody s2. destruct S2 as (L2&Z2&_&K2). apply (wp_sectors (sector_enc true junk rnd)); [exact Hlen|lia|exact Hm|lia|]. intros s3 [L3 Z3 K3 D3]. apply HQ.
    + split; [congruence|congruence|intros x Hx Hx'; rewrite K3 by (done || tauto); by apply K2|].
      intros k Hk Hkd. rewrite D3 by done. rewrite (slice_ext _ _ (fs s1) (fs s2)); [reflexivity|lia|lia|lia|lia|intros x Hx; apply K2; lia].
    + eapply holds_ext; [|exact F2]. intros x Hx. change (zlen [_]) with 1 in Hx. apply K3; [lia|tauto].
  - apply (wp_sectors (sector_enc false junk rnd)); [exact Hlen|lia|exact Hm|lia|]. intros s3 [L3 Z3 K3 D3]. apply HQ.
    + split; [done|done|intros x Hx Hx'; apply K3; [done|tauto]|done].
    + eapply holds_ext; [|exact F1]. intros x Hx. change (zlen [_]) with 1 in Hx. apply K3; [lia|tauto].
Qed.
End Encrypt.

Lemma wp_encrypt aes junk pass rnd d s (Q : list Z -> mkfs_t -> Prop) : zlen junk = 64 -> 4096 <= zlen d < 2 ^ 31 -> zlen d mod 4096 = 0 ->
  holds (zget d) 708 (le 4 0) -> (exists fl, holds (zget d) 518 [fl] /\ byte8 fl /\ FSZ_SB_EALG fl = 0) -> zlen rnd = 28 ->
  (forall e s', encrypted aes junk pass rnd d e -> Q e s') -> wp (encrypt junk (Some d) aes pass rnd) Q s.
Proof.
  intros Hj Hd Hm H708 (fl&Hfl&Hfb&Hfe) Hr HQ. destruct (flags_ok fl Hfb Hfe) as (_&Hlb&_). unfold encrypt, FSZ_encrypt, FSZ_enchash.
  apply wp_bind. apply wp_load_image; [lia|]. intros s0 E0 Z0. pose proof (padded_length d s0 E0) as L0. apply wp_bind, wp_gets. rewrite Z0.
  apply wp_bind. eapply wp_get_word; [apply at_refl|cbn [pokes]; rewrite E0; apply holds_padded; [exact H708|lia|rewrite le_length; lia]|done|done|lia|].
  apply wp_bind, wp_ret, wp_bind. eapply wp_put_word; [apply at_refl|lia|lia|]. intros W1. apply wp_bind. eapply wp_image_store; [exact W1|lia|lia|].
  set (s1 := set_fs _ _). intros W2. cbv zeta. assert (K : keyed pass rnd s0 s1).
  { split.
    - eapply at_same; [exact W2|done|done|done|]. constructor; [cbn [fst snd]; lia|]. constructor; [cbn [fst snd]; rewrite le_length; lia|done].
    - destruct W2 as [-> W2]. by apply hp_here.
    - destruct W2 as [-> W2]. apply hp_skip; [exact W2|rewrite le_length; lia|apply in_range_tail in W2]. by apply hp_here. }
  clear W1 W2. clearbody s1. apply wp_bind. eapply (wp_encrypt_sectors aes junk pass rnd d s0); [done|done|done|done|exact K|exact Hfl|done|done|].
  intros s2 D2 F2. by eapply (wp_encrypt_end aes junk pass rnd d s0).
Qed.

(** What decrypting gives back: the image [d] that was encrypted, with its key cleared.  The flag
    of the cipher stays, and the checksum is a new one. *)
Record opened (aes : bool) (d d' : list Z) : Prop := mk_opened {
  de_len : zlen d' = zlen d;
  de_same x : 0 <= x < zlen d -> x <> 518 -> ~ (680 <= x < 712) -> ~ (1020 <= x < 1024) -> zget d' x = zget d x;
  de_flags fl : holds (zget d) 518 [fl] -> holds (zget d') 518 [if aes then Z.lor fl FSZ_SB_EALG_AESCBC else fl];
  de_key : holds (zget d') 680 (zeros 32);
}.

Section Decrypt.
Context (aes : bool) (junk junk' pass rnd d e : list Z) (fl : Z) (s0 : mkfs_t).
Context (Hj : zlen junk = 64) (Hj' : zlen junk' = 64) (Hd : 4096 <= zlen d < 2 ^ 31) (Hm : zlen d mod 4096 = 0) (Hb : bytes8 d) (Hr : zlen rnd = 28).
Context (Hfl : holds (zget d) 518 [fl]) (Hfb : byte8 fl) (Hfe : FSZ_SB_EALG fl = 0).
Context (He : encrypted aes junk pass rnd d e) (E0 : fs s0 = e ++ zeros 4097).
Notation crc := (Crc32.crc32a_calc (pass_line pass)).
Notation cipher_flag := (if aes then Z.lor fl FSZ_SB_EALG_AESCBC else fl).

Lemma encrypted_padded : zlen (fs s0) = zlen d + 4097.
Proof. rewrite E0, zlen_app, zlen_zeros by done. by rewrite (en_len _ _ _ _ _ _ He). Qed.
Lemma encrypted_holds v l : holds (zget e) v l -> 0 <= v -> v + zlen l <= zlen d -> holds (zget (fs s0)) v l.
Proof. intros H Hv Hl. rewrite E0. apply holds_padded; [done|done|]. by rewrite (en_len _ _ _ _ _ _ He). Qed.

(** What comes after the sectors. *)
Lemma wp_decrypt_end s1 s2 (Q : list Z -> mkfs_t -> Prop) : same_but (fun x => 680 <= x < 708) s0 s1 ->
  sectors_done (sector_dec aes junk' rnd) (zlen d) (fun _ => False) s1 s2 ->
  (forall d' s', opened aes d d' -> Q d' s') -> wp (store FSZ_encrypt (zeros 32) ;;; sb_checksum) (fun _ => wp (load 0 (zlen d)) Q) s2.
Proof.
  intros (L1&_&_&K1) [L2 _ K2 D2] HQ. pose proof encrypted_padded as L0. destruct He as [Le _ _ Fe Oe Se].
  apply wp_bind. unfold FSZ_encrypt. assert (Hz : zlen (zeros 32) = 32) by (by apply zlen_zeros).
  eapply wp_image_store; [apply at_refl|lia|lia|]. set (s3 := set_fs _ _). intros W3.
  assert (S3 : same_but (fun x => 680 <= x < 712) s2 s3) by (eapply at_same; [exact W3|done|done|done|constructor; [cbn [fst snd]; lia|done]]).
  assert (R3 : holds (zget (fs s3)) 680 (zeros 32)) by (destruct W3 as [-> W3]; exact (hp_here _ _ _ _ _ _ W3 eq_refl eq_refl)).
  clear W3. clearbody s3. destruct S3 as (L3&_&_&K3). apply wp_sb_checksum; [lia|]. intros s4 (L4&_&_&K4).
  eapply wp_image_load; [apply at_refl|lia|lia|lia|]. cbn [pokes]. intros d' Ld Hd'.
  assert (Kd : forall x, 0 <= x < zlen d -> zget d' x = zget (fs s4) x).
  { intros x Hx. destruct (zget_is_Some d' x ltac:(lia)) as [y Hy]. rewrite Hy. apply Hd' in Hy. by rewrite Z.add_0_l in Hy. }
  assert (K0 : forall x, 0 <= x < zlen d -> zget (fs s0) x = zget e x) by (intros x Hx; rewrite E0; apply zget_app_l; lia).
  apply HQ. split; [done| | |].
  - intros x Hx H5 H6 H7. rewrite Kd, K4, K3 by lia. destruct (Z.ltb_spec x 4096) as [Hf|Hf].
    + rewrite K2 by (done || tauto). rewrite K1, K0 by lia. by apply Oe; [lia|..].
    + set (k := x / 4096). assert (Hk : 1 <= k /\ 4096 * k <= x < 4096 * k + 4096 /\ 4096 * k < zlen d) by (unfold k; lia). destruct Hk as (Hk1&Hk2&Hk3). clearbody k.
      assert (Hk4 : 4096 * k + 4096 <= zlen d) by lia.
      assert (E : slice (4096 * k) 4096 (fs s2) = slice (4096 * k) 4096 d).
      { rewrite D2 by done. rewrite (slice_ext _ _ e (fs s1)); [|lia|lia|lia|lia|intros y Hy; rewrite K1, K0 by lia; done].
        rewrite Se by done. apply sector_dec_enc; [done|done|apply zlen_slice; lia|by apply Forall_take, Forall_drop]. }
      replace x with (4096 * k + (x - 4096 * k)) by lia. rewrite <- !(zget_slice _ 4096) by lia. by rewrite E.
  - intros fl' Hfl'. eapply holds_ext; [|exact (Fe fl' Hfl')]. intros x Hx. change (zlen [_]) with 1 in Hx. rewrite Kd, K4, K3, K2, K1, K0 by (cbn beta; solve [lia|tauto]). done.
  - eapply holds_ext; [|exact R3]. rewrite Hz. intros x Hx. rewrite Kd, K4 by lia. done.
Qed.

Lemma wp_decrypt (Q : list Z -> mkfs_t -> Prop) : crc <> 0 -> (forall d' s', opened aes d d' -> Q d' s') ->
  wp (decrypt junk' (zlen d) pass ;;; load 0 (zlen d)) Q s0.
Proof.
  intros Hc HQ. pose proof encrypted_padded as L0. destruct (cipher_flag_ok aes fl Hfb Hfe) as (C1&C2&C3). pose proof (crc_word (pass_line pass)) as Hw.
  assert (Hm6 : zlen (slice 512 6 d) = 6) by (apply zlen_slice; lia). set (k0 := xors rnd (digest junk [pass_line pass; slice 512 6 d])).
  assert (Hdl : length (digest junk [pass_line pass; slice 512 6 d]) = 32%nat) by by apply digest_form.
  assert (Hk28 : zlen k0 = 28) by (unfold k0, zlen in *; rewrite xors_length; lia).
  assert (Hk0 : xors k0 (digest junk' [pass_line pass; slice 512 6 d]) = rnd) by (unfold k0; rewrite (digest_alike junk' junk) by done; apply xors_twice; unfold zlen in Hr; lia).
  unfold decrypt, FSZ_encrypt, FSZ_enchash. apply wp_bind, wp_bind. eapply (wp_get_word _ _ _ crc); [apply at_refl|by apply encrypted_holds; [apply (en_hash _ _ _ _ _ _ He)|lia|rewrite le_length; lia]|done|done|lia|].
  replace (crc =? 0) with false by lia. apply wp_bind. eapply (wp_get_word _ _ _ cipher_flag); [apply at_refl| |done|done|lia|].
  { rewrite le_one by done. apply encrypted_holds; [by apply (en_flags _ _ _ _ _ _ He)|done|]. change (zlen [_]) with 1. lia. }
  apply wp_bind, wp_when; [by rewrite C2|]. intros _. rewrite Z.eqb_refl. cbn [negb]. apply wp_bind.
  apply (wp_mask_key junk' (pass_line pass) (slice 512 6 d) k0); [done|lia|done|done| | |].
  { apply encrypted_holds; [|done|lia]. eapply holds_ext; [|apply holds_slice; lia]. rewrite Hm6. intros x Hx. apply (en_first _ _ _ _ _ _ He); lia. }
  { apply encrypted_holds; [apply (en_key _ _ _ _ _ _ He)|done|lia]. }
  rewrite Hk0. intros s1 S1 R1. pose proof S1 as (L1&_). apply wp_bind. eapply wp_image_load_eq; [apply at_refl|exact R1|done|done|lia|].
  rewrite C3. cbv zeta. apply wp_bind. clearbody k0.
  assert (Hs : wp (sectors (sector_dec aes junk' rnd) (zlen d)) (fun _ s2 => wp (store FSZ_encrypt (zeros 32) ;;; sb_checksum) (fun _ => wp (load 0 (zlen d)) Q) s2) s1).
  { apply wp_sectors; [exact (fun k l H => proj2 (sector_lengths aes junk' rnd k l Hj' H))|lia|exact Hm|lia|]. intros s2 D2. by eapply wp_decrypt_end. }
  unfold sector_dec in Hs. by destruct aes.
Qed.

End Decrypt.

Lemma exit_bind {A B} (m : M mkfs_t A) (k : A -> M mkfs_t B) c s :
  wp m (fun a s' => exists s'', k a s' = Exit c s'') s -> exists s'', bind m k s = Exit c s''.
Proof. unfold wp, bind. by destruct (m s). Qed.

(** With another pass phrase the image stays as it is; the command that decrypts an image refuses
    it with any. *)
Section Refused.
Context (aes : bool) (junk junk' pass rnd d e : list Z).
Context (Hd : 4096 <= zlen d < 2 ^ 31) (Hfl : exists fl, holds (zget d) 518 [fl] /\ byte8 fl /\ FSZ_SB_EALG fl = 0).
Context (He : encrypted aes junk pass rnd d e).
Notation crc := (Crc32.crc32a_calc (pass_line pass)).
Context (Hc : crc <> 0).

Lemma wp_decrypt_wrong pass' s0 (Q : list Z -> mkfs_t -> Prop) : fs s0 = e ++ zeros 4097 -> Crc32.crc32a_calc (pass_line pass') <> crc -> Q e s0 ->
  wp (decrypt junk' (zlen d) pass' ;;; load 0 (zlen d)) Q s0.
Proof.
  intros E0 Hp HQ. destruct Hfl as (fl&Hf&Hfb&Hfe). destruct (cipher_flag_ok aes fl Hfb Hfe) as (C1&C2&_). pose proof (crc_word (pass_line pass)) as Hw.
  assert (L0 : zlen (fs s0) = zlen d + 4097) by by eapply encrypted_padded.
  assert (H0 : forall v l, holds (zget e) v l -> 0 <= v -> v + zlen l <= zlen d -> holds (zget (fs s0)) v l) by (intros; by eapply encrypted_holds).
  unfold decrypt, FSZ_enchash. apply wp_bind, wp_bind.
  eapply (wp_get_word _ _ _ crc); [apply at_refl|by apply H0; [apply (en_hash _ _ _ _ _ _ He)|lia|rewrite le_length; lia]|done|done|lia|].
  replace (crc =? 0) with false by lia. apply wp_bind. eapply (wp_get_word _ _ _ (if aes then Z.lor fl FSZ_SB_EALG_AESCBC else fl)); [apply at_refl| |done|done|lia|].
  { rewrite le_one by done. apply H0; [by apply (en_flags _ _ _ _ _ _ He)|done|]. change (zlen [_]) with 1. lia. }
  apply wp_bind, wp_when; [by rewrite C2|]. intros _. replace (crc =? _) with false by lia. cbn [negb]. apply wp_ret.
  eapply wp_image_load_eq; [apply at_refl| |apply (en_len _ _ _ _ _ _ He)|done|lia|exact HQ].
  cbn [pokes]. rewrite E0. intros x b Hx. rewrite Z.add_0_l. rewrite zget_app_l by (by apply (zget_Some_lt _ _ _ Hx)). exact Hx.
Qed.

Lemma decrypt_image_refuses pass' s : exists s', decrypt_image junk' (Some e) pass' s = Exit 2 s'.
Proof.
  unfold decrypt_image, FSZ_enchash. pose proof (crc_word (pass_line pass)) as Hw. pose proof (en_len _ _ _ _ _ _ He) as Le.
  apply exit_bind, wp_load_image; [lia|]. intros s0 E0 _.
  assert (L0 : zlen (fs s0) = zlen d + 4097) by by eapply encrypted_padded.
  apply exit_bind, wp_gets, exit_bind.
  eapply (wp_get_word _ _ _ crc); [apply at_refl|eapply encrypted_holds; [exact He|exact E0|apply (en_hash _ _ _ _ _ _ He)|lia|rewrite le_length; lia]|done|done|lia|].
  replace (crc =? 0) with false by lia. by exists s0.
Qed.
End Refused.

(** ** The commands *)

Lemma holds_one m v x : m v = Some x -> holds m v [x].
Proof. intros H i b Hb. pose proof (zget_Some_lt _ _ _ Hb). change (zlen [x]) with 1 in *. assert (i = 0) as -> by lia. rewrite Z.add_0_r. by injection Hb as <-. Qed.

(** C5: Encrypting an image and decrypting it again.  Let [d] be an image of whole sectors, at
    most 2 GB, that is not encrypted, and [rnd] the 28 random bytes of its key.  [encrypt] writes
    an image of the same length, with AES-256-CBC or with the chain of SHA-256 digests; loading it
    and running [decrypt] with the same pass phrase, as the commands that look into an image do,
    gives [d] back: every byte of it, but the key, which is cleared, the flag of the cipher and the
    checksum.  What the stack holds when a digest starts ([junk], [junk']) makes no difference.  A
    pass phrase with another code leaves the encrypted image as it is, and the command that is to
    decrypt an image refuses every one that is encrypted.  A pass phrase of code 0 is left out: it
    makes an image that counts as not encrypted. *)
Theorem image_decrypts (aes : bool) (junk junk' pass rnd d : list Z) (s0 s1 : mkfs_t)
  (Hj : zlen junk = 64) (Hj' : zlen junk' = 64) (Hr : zlen rnd = 28) (Hb : bytes8 d)
  (Hd : 4096 <= zlen d < 2 ^ 31) (Hm : zlen d mod 4096 = 0)
  (H708 : holds (zget d) 708 (le 4 0)) (Hfl : forall fl, zget d 518 = Some fl -> FSZ_SB_EALG fl = 0)
  (Hc : Crc32.crc32a_calc (pass_line pass) <> 0) :
  wp (encrypt junk (Some d) aes pass rnd) (fun e _ =>
    let run pass' := load_image (Some e) ;;; decrypt junk' (zlen e) pass' ;;; load 0 (zlen e) in
    zlen e = zlen d /\
    wp (run pass) (fun d' _ => opened aes d d') s1 /\
    (forall pass', Crc32.crc32a_calc (pass_line pass') <> Crc32.crc32a_calc (pass_line pass) -> wp (run pass') (fun d' _ => d' = e) s1) /\
    (forall pass', exists s', decrypt_image junk' (Some e) pass' s1 = Exit 2 s')) s0.
Proof.
  assert (Hf : exists fl, holds (zget d) 518 [fl] /\ byte8 fl /\ FSZ_SB_EALG fl = 0).
  { destruct (zget_is_Some d 518 ltac:(lia)) as [fl Hz]. exists fl. split; [by apply holds_one|]. split; [|by apply Hfl].
    by apply (Forall_lookup_1 byte8 d (Z.to_nat 518) fl). }
  apply wp_encrypt; try done. intros e s' He. cbv zeta. pose proof (en_len _ _ _ _ _ _ He) as Le. rewrite Le.
  split; [done|]. split; [|split].
  - apply wp_bind, wp_load_image; [lia|]. intros s2 E2 _. destruct Hf as (fl&Hf1&Hf2&Hf3). eapply (wp_decrypt aes junk junk' pass rnd d e fl); try eassumption. by intros. 
  - intros pass' Hp. apply wp_bind, wp_load_image; [lia|]. intros s2 E2 _. by eapply wp_decrypt_wrong.
  - intros pass'. by eapply decrypt_image_refuses.
Qed.

Lemma image_decrypts_witness :
  let d := zeros 4096 ++ repeat 65 4096 in let pass := [112; 97; 115; 115] in
  Crc32.crc32a_calc (pass_line pass) <> 0 /\
  wp (encrypt (zeros 64) (Some d) true pass (zeros 28)) (fun e _ =>
    let run pass' := load_image (Some e) ;;; decrypt (repeat 1 64) (zlen e) pass' ;;; load 0 (zlen e) in
    zlen e = zlen d /\
    wp (run pass) (fun d' _ => opened true d d') (mk_mkfs [] 0 false) /\
    (forall pass', Crc32.crc32a_calc (pass_line pass') <> Crc32.crc32a_calc (pass_line pass) -> wp (run pass') (fun d' _ => d' = e) (mk_mkfs [] 0 false)) /\
    (forall pass', exists s', decrypt_image (repeat 1 64) (Some e) pass' (mk_mkfs [] 0 false) = Exit 2 s')) (mk_mkfs [] 0 false).
Proof.
  intros d pass. assert (Hc : Crc32.crc32a_calc (pass_line pass) <> 0) by (apply Z.eqb_neq; by vm_compute).
  assert (Hd : zlen d = 8192) by by vm_compute.
  assert (Hb : bytes8 d) by (apply Forall_app; split; [by apply Forall_replicate|by apply Forall_forall; intros x Hx; apply list_elem_of_In, repeat_spec in Hx; subst]).
  assert (H8 : holds (zget d) 708 (le 4 0)).
  { change (le 4 0) with (slice 708 4 d). by apply holds_slice. }
  split; [exact Hc|]. apply (image_decrypts true (zeros 64) (repeat 1 64) pass (zeros 28) d); try done.
  intros fl Hfl. change (zget d 518) with (Some 0) in Hfl. by injection Hfl as <-.
Defined.

End MkcryptImage.
