(* ===== verification/MkdiskFacts.v ===== *)
(** Disks put together by the image creator: both tables of partitions are valid, and each
    entry names the sectors that hold its partition. *)
From Stdlib Require Import ZArith Lia List String.
From stdpp Require Import base option list.
From S2P Require Import Prelude Bytes Crc32 Initrd Mkfs MkfsFacts MkfsTree Mkdisk MkcryptFacts.
Import Mkfs Mkdisk MkfsFacts.

#[local] Ltac Zify.zify_post_hook ::= Z.div_mod_to_equations.

Module MkdiskFacts.

(** ** Blocks *)

Lemma bytes_ext (l k : list Z) : zlen l = zlen k -> (forall i, 0 <= i < zlen l -> zget k i = zget l i) -> l = k.
Proof.
  intros Hl H. apply (holds_inj (zget l) 0); [done|by intros i b|]. intros i b Hb. rewrite Z.add_0_l, <- H; [done|].
  rewrite Hl. by eapply zget_Some_lt.
Qed.

(** Assignments in the order of the code are the writes in the reverse order. *)
Lemma writes_pokes ws b : writes ws b = pokes (rev ws) b.
Proof.
  revert b. induction ws as [|[o l] ws IH] using rev_ind; intros b; [done|]. unfold writes in *. rewrite fold_left_app, rev_app_distr. cbn [fold_left rev app pokes fst snd].
  by rewrite IH.
Qed.

(** Bytes at a place of the parts of a list. *)
Lemma slice_mid (a b c : list Z) o n : o = zlen a -> n = zlen b -> slice o n (a ++ b ++ c) = b.
Proof. intros -> ->. unfold slice, zlen. rewrite !Nat2Z.id, drop_app_length. by rewrite take_app_length. Qed.
Lemma slice_head (b c : list Z) n : n = zlen b -> slice 0 n (b ++ c) = b.
Proof. by apply (slice_mid [] b c). Qed.

Lemma zlen_concat_cons (a : list Z) l : zlen (concat (a :: l)) = zlen a + zlen (concat l).
Proof. cbn [concat]. apply zlen_app. Qed.

(** ** Entries *)

(** The entry at [p] names the sectors [a] to [b]. *)
Definition entry (g : list Z) (p a b : Z) : Prop := holds (zget g) (p + 32) (le 4 a ++ zeros 4) /\ holds (zget g) (p + 40) (le 4 b ++ zeros 4).

Lemma entry_ext g g' p a b : (forall x, p <= x < p + 128 -> zget g' x = zget g x) -> entry g p a b -> entry g' p a b.
Proof.
  intros H [H1 H2]. split; (eapply holds_ext; [|eassumption]); intros x Hx; apply H; revert Hx; zl.
Qed.

Lemma osz_entry_ok v m u size boot name n g p j : zlen (str m) <= 4 -> zlen (take (Z.to_nat n) (wide name)) <= 72 -> 0 <= p -> p + 128 <= zlen g ->
  (forall x, p <= x < p + 128 -> zget g x = Some 0) -> let t := osz_entry v m u size boot name n (g, p, j) in
  t.2 = j + size /\ t.1.2 = p + 128 /\ zlen t.1.1 = zlen g /\ (forall x, x < p \/ p + 128 <= x -> zget t.1.1 x = zget g x) /\
  entry t.1.1 p (j / 512 + 1) ((j + size) / 512).
Proof.
  intros Hm Hn Hp Hg Hz. unfold osz_entry. cbn [fst snd]. split; [done|]. split; [done|]. rewrite writes_pokes.
  set (nm := take (Z.to_nat n) (wide name)) in *. set (ms := str m) in *. pose proof (zlen_nonneg nm) as Hn0. pose proof (zlen_nonneg ms) as Hm0. clearbody nm ms.
  assert (Z0 : forall v k, p <= v -> 0 <= k -> v + k <= p + 128 -> holds (zget g) v (zeros k)).
  { intros v' k Hv Hk Hl i b Hb. apply zeros_zget in Hb as [-> Hi]. apply Hz. lia. }
  set (ws := rev _). assert (HP : Forall (fun w => p <= w.1 /\ w.1 + zlen w.2 <= p + 128) ws).
  { unfold ws. destruct v, boot; cbn [app rev]; unfold setint; outs. }
  assert (HI : in_range ws g) by (eapply Forall_impl; [exact HP|]; cbn; intros w Hw; lia).
  split; [by apply zlen_pokes|]. split; [intros x Hx; by eapply (pokes_outside ws g p 128)|].
  unfold entry. rewrite !holds_app, !le_length. unfold ws in *. clear ws.
  split; (split; [|]); destruct v, boot; cbn [app rev] in *; unfold setint in *; poked HI; apply Z0; lia.
Qed.

Lemma esp_entry_ok (neediso : bool) es g p : 0 <= p -> p + 128 <= zlen g -> (forall x, p <= x < p + 128 -> zget g x = Some 0) -> es mod 512 = 0 ->
  let base := if neediso then 65536 - 512 else gs neediso in let g' := esp_entry neediso es g p in
  zlen g' = zlen g /\ (forall x, x < p \/ p + 128 <= x -> zget g' x = zget g x) /\ entry g' p (base / 512 + 1) ((base + es) / 512).
Proof.
  intros Hp Hg Hz Hm base. unfold esp_entry. cbv zeta. rewrite writes_pokes. set (nm := take 42 _). assert (Hn : zlen nm = 42) by done. clearbody nm.
  assert (Z0 : forall v k, p <= v -> 0 <= k -> v + k <= p + 128 -> holds (zget g) v (zeros k)).
  { intros v' k Hv Hk Hl i b Hb. apply zeros_zget in Hb as [-> Hi]. apply Hz. lia. }
  replace (if neediso then 128 else gs neediso / 512 + 1) with (base / 512 + 1) by by destruct neediso.
  replace (es / 512 + (if neediso then 127 else gs neediso / 512)) with ((base + es) / 512) by (unfold base, gs; destruct neediso; lia).
  set (ws := rev _). assert (HP : Forall (fun w => p <= w.1 /\ w.1 + zlen w.2 <= p + 128) ws) by (unfold ws; cbn [app rev]; unfold setint; outs).
  assert (HI : in_range ws g) by (eapply Forall_impl; [exact HP|]; cbn; intros w Hw; lia).
  split; [by apply zlen_pokes|]. split; [intros x Hx; by eapply (pokes_outside ws g p 128)|].
  unfold entry. rewrite !holds_app, !le_length. unfold ws in *. clear ws.
  split; (split; [|]); cbn [app rev] in *; unfold setint in *; poked HI; apply Z0; lia.
Qed.

(** ** The table *)

Definition total (l : list Z) : Z := foldr Z.add 0 l.
Lemma total_app l k : total (l ++ k) = total l + total k.
Proof. unfold total. induction l as [|x l IH]; cbn; lia. Qed.

(** The table [t] made of [g0], with an entry for each partition of the sizes [done], which
    start behind the byte [base]. *)
Record table_ok (g0 : list Z) (base : Z) (done : list Z) (t : table_t) : Prop := mk_table_ok {
  to_len : zlen t.1.1 = zlen g0;
  to_place : t.1.2 = 512 + 128 * zlen done;
  to_next : t.2 = base + total done;
  to_entry k n : done !! k = Some n ->
    entry t.1.1 (512 + 128 * Z.of_nat k) ((base + total (take k done)) / 512 + 1) ((base + total (take k done) + n) / 512);
  to_zero x : t.1.2 <= x < zlen g0 -> zget t.1.1 x = Some 0;
  to_head x : x < 512 -> zget t.1.1 x = zget g0 x;
}.

(** One more entry. *)
Lemma table_more g0 base done t g' n : table_ok g0 base done t -> zlen g' = zlen t.1.1 ->
  (forall x, x < t.1.2 \/ t.1.2 + 128 <= x -> zget g' x = zget t.1.1 x) -> entry g' t.1.2 (t.2 / 512 + 1) ((t.2 + n) / 512) ->
  table_ok g0 base (done ++ [n]) (g', t.1.2 + 128, t.2 + n).
Proof.
  intros [L P N E Z H] L' O' E'. assert (Hd : zlen (done ++ [n]) = zlen done + 1) by by rewrite zlen_app. pose proof (zlen_nonneg done) as H0. split; cbn [fst snd].
  - congruence.
  - lia.
  - rewrite total_app. unfold total at 2. cbn. lia.
  - intros k m Hk. destruct (decide (k < length done)%nat) as [Hl|Hl].
    + rewrite lookup_app_l in Hk by done. rewrite take_app_le by lia. eapply entry_ext; [|by apply E]. intros x Hx. apply O'. unfold zlen in P. lia.
    + assert (k = length done) as ->. { apply lookup_lt_Some in Hk. rewrite length_app in Hk. cbn in Hk. lia. }
      rewrite lookup_app_r, Nat.sub_diag in Hk by lia. injection Hk as <-. rewrite take_app_length. rewrite <- N.
      replace (512 + 128 * Z.of_nat (length done)) with t.1.2 by (unfold zlen in P; lia). done.
  - intros x Hx. rewrite O' by lia. apply Z. lia.
  - intros x Hx. rewrite O' by lia. by apply H.
Qed.

Lemma table_osz g0 base done v m u n boot name c t : table_ok g0 base done t -> zlen (str m) <= 4 -> zlen (take (Z.to_nat c) (wide name)) <= 72 ->
  512 + 128 * (zlen done + 1) <= zlen g0 -> table_ok g0 base (done ++ [n]) (osz_entry v m u n boot name c t).
Proof.
  intros T Hm Hn Hg. pose proof T as [L P N E Z H]. pose proof (zlen_nonneg done) as H0. destruct t as [[g p] j]. cbn [fst snd] in *.
  destruct (osz_entry_ok v m u n boot name c g p j Hm Hn) as (E2&E1&EL&EO&EE); [lia|lia|intros x Hx; apply Z; lia|].
  destruct (osz_entry v m u n boot name c (g, p, j)) as [[g' p'] j']. cbn [fst snd] in *. subst p' j'. by apply (table_more g0 base done (g, p, j)).
Qed.

(** The sizes of the partitions that are there. *)
Definition nonzero (n : Z) : list Z := if 0 <? n then [n] else [].
Definition sizes (x : files_t) : list Z :=
  nonzero (read_size (espfile x)) ++ nonzero (read_size (sys1file x)) ++ nonzero (read_size (sys2file x)) ++ nonzero (read_size (usr1file x))
  ++ nonzero (read_size (usr2file x)) ++ [read_size (varfile x); read_size (homefile x); swap_size].

Lemma table_present g0 base done v m u n boot name c t : table_ok g0 base done t -> zlen (str m) <= 4 -> zlen (take (Z.to_nat c) (wide name)) <= 72 ->
  512 + 128 * (zlen done + 1) <= zlen g0 -> table_ok g0 base (done ++ nonzero n) (if 0 <? n then osz_entry v m u n boot name c t else t).
Proof. intros T Hm Hn Hg. unfold nonzero. destruct (0 <? n); [by apply table_osz|by rewrite app_nil_r]. Qed.

Lemma nonzero_length n : 0 <= zlen (nonzero n) <= 1.
Proof. unfold nonzero. by destruct (0 <? n). Qed.

(** A name for the table so far. *)
Ltac named_table T := match type of T with table_ok _ _ _ ?t => let u := fresh "t" in set (u := t) in *; clearbody u end.

Lemma gpt_table_ok hu (neediso : bool) x g0 : (forall i, 512 <= i < zlen g0 -> zget g0 i = Some 0) -> 1536 <= zlen g0 -> read_size (espfile x) mod 512 = 0 ->
  exists p j, table_ok g0 (if neediso then 65536 - 512 else gs neediso) (sizes x) (gpt_table hu neediso x g0, p, j).
Proof.
  intros Hz Hl Hm. unfold gpt_table, sizes. cbv zeta. set (base := if neediso then 65536 - 512 else gs neediso).
  pose proof (nonzero_length (read_size (espfile x))) as N1. pose proof (nonzero_length (read_size (sys1file x))) as N2. pose proof (nonzero_length (read_size (sys2file x))) as N3.
  pose proof (nonzero_length (read_size (usr1file x))) as N4. pose proof (nonzero_length (read_size (usr2file x))) as N5.
  set (t1 := (_, base + _)). assert (T1 : table_ok g0 base (nonzero (read_size (espfile x))) t1).
  { assert (T0 : table_ok g0 base [] (g0, 512, base)) by (split; cbn; try done; lia). unfold t1, nonzero. destruct (Z.ltb_spec 0 (read_size (espfile x))) as [He|He].
    - destruct (esp_entry_ok neediso (read_size (espfile x)) g0 512) as (L&O&E); [lia|lia|intros i Hi; apply Hz; lia|done|].
      exact (table_more g0 base [] (g0, 512, base) _ _ T0 L O E).
    - assert (read_size (espfile x) = 0) as -> by (destruct (espfile x); cbn in *; [pose proof (zlen_nonneg l); lia|done]). by rewrite Z.add_0_r. }
  clearbody t1. assert (Hn : forall n nm, zlen (take (Z.to_nat n) (wide nm)) <= 72 <-> (zlen (take (Z.to_nat n) (wide nm)) <=? 72) = true) by (intros; lia).
  pose proof (table_present _ _ _ (Some 0x8664) "root" 2 (read_size (sys1file x)) true (root_name hu) 22 _ T1 ltac:(done) ltac:(apply Hn; by destruct hu) ltac:(lia)) as T2.
  named_table T2. clear T1.
  pose proof (table_present _ _ _ (Some 0xAA64) "root" 2 (read_size (sys2file x)) true (root_name hu) 22 _ T2 ltac:(done) ltac:(apply Hn; by destruct hu) ltac:(rewrite zlen_app; lia)) as T3.
  named_table T3. clear T2.
  pose proof (table_present _ _ _ (Some 0x8664) "usr" 3 (read_size (usr1file x)) false (usr_name hu) 22 _ T3 ltac:(done) ltac:(apply Hn; by destruct hu) ltac:(rewrite !zlen_app; lia)) as T4.
  named_table T4. clear T3.
  pose proof (table_present _ _ _ (Some 0xAA64) "usr" 3 (read_size (usr2file x)) false (usr_name hu) 22 _ T4 ltac:(done) ltac:(apply Hn; by destruct hu) ltac:(rewrite !zlen_app; lia)) as T5.
  named_table T5. clear T4.
  pose proof (table_osz _ _ _ None "var" 4 (read_size (varfile x)) false (var_name hu) 32 _ T5 ltac:(done) ltac:(apply Hn; by destruct hu) ltac:(rewrite !zlen_app; lia)) as T6.
  named_table T6. clear T5.
  pose proof (table_osz _ _ _ None "home" 5 (read_size (homefile x)) false (home_name hu) 34 _ T6 ltac:(done) ltac:(apply Hn; by destruct hu) ltac:(rewrite !zlen_app; change (zlen [_]) with 1; lia)) as T7.
  named_table T7. clear T6.
  pose proof (table_osz _ _ _ None "swap" 6 swap_size false (swap_name hu) 30 _ T7 ltac:(done) ltac:(apply Hn; by destruct hu) ltac:(rewrite !zlen_app; change (zlen [_]) with 1; lia)) as T8.
  named_table T8. clear T7.
  rewrite <- !app_assoc in T8. cbn [app] in T8. match type of T8 with table_ok _ _ _ ?t => destruct t as [[g p] j] end. by exists p, j.
Qed.
(** ** The headers *)

(** What a reader of the table asks of a header [h]: that it is at the sector [my], names the
    other header and the table, and that both sums are right; [t] are the entries. *)
Record header_ok (h : list Z) (my other table : Z) (t : list Z) : Prop := mk_header_ok {
  ho_magic : slice 0 8 h = str "EFI PART";
  ho_size : of_le (slice 12 4 h) = 92;
  ho_my : of_le (slice 24 8 h) = my;
  ho_other : of_le (slice 32 8 h) = other;
  ho_table : of_le (slice 72 8 h) = table;
  ho_count : of_le (slice 80 4 h) = 248;
  ho_entry : of_le (slice 84 4 h) = 128;
  ho_sum : of_le (slice 16 4 h) = Crc32.crc32a_calc (poke 16 (zeros 4) (slice 0 92 h));
  ho_entries : of_le (slice 88 4 h) = Crc32.crc32a_calc t;
}.

(** The fields of a header in memory. *)
Record fields (g : list Z) (my other table sum : Z) : Prop := mk_fields {
  fi_magic : holds (zget g) 0 (str "EFI PART");
  fi_size : holds (zget g) 12 (le 4 92);
  fi_my : holds (zget g) 24 (le 4 my ++ zeros 4);
  fi_other : holds (zget g) 32 (le 4 other ++ zeros 4);
  fi_table : holds (zget g) 72 (le 4 table ++ zeros 4);
  fi_count : holds (zget g) 80 (le 4 248);
  fi_entry : holds (zget g) 84 (le 4 128);
  fi_entries : holds (zget g) 88 (le 4 sum);
}.

Lemma fields_ext g g' my other table sum : (forall x, 0 <= x < 92 -> ~ (16 <= x < 20) -> zget g' x = zget g x) -> fields g my other table sum -> fields g' my other table sum.
Proof. intros H [F1 F2 F3 F4 F5 F6 F7 F8]. split; (eapply holds_ext; [|eassumption]); intros x Hx; apply H; revert Hx; zl. Qed.

Lemma of_le_zeros n l : of_le (l ++ zeros n) = of_le l.
Proof.
  unfold zeros. generalize (Z.to_nat n). clear n. intros n. induction l as [|b l IH]; cbn [app of_le]; [|by rewrite IH]. induction n as [|n IH]; cbn; lia.
Qed.
Lemma slice_word o v (b : list Z) : 0 <= o -> o + 4 <= zlen b -> 0 <= v < 2 ^ 32 -> holds (zget b) o (le 4 v) -> of_le (slice o 4 b) = v.
Proof. intros Ho Hb Hv H. change 4 with (zlen (le 4 v)). rewrite (slice_holds o _ b) by (rewrite ?le_length; done || lia). by apply of_le_le. Qed.
Lemma slice_long o v (b : list Z) : 0 <= o -> o + 8 <= zlen b -> 0 <= v < 2 ^ 32 -> holds (zget b) o (le 4 v ++ zeros 4) -> of_le (slice o 8 b) = v.
Proof.
  intros Ho Hb Hv H. assert (E : zlen (le 4 v ++ zeros 4) = 8) by (rewrite zlen_app, le_length; done).
  rewrite <- E, (slice_holds o _ b) by (rewrite ?E; done || lia). rewrite of_le_zeros. by apply of_le_le.
Qed.

(** The sum over the header. *)
Lemma header_checksum_ok g my other table sum : fields g my other table sum -> 512 <= zlen g -> let g' := header_checksum g in
  zlen g' = zlen g /\ (forall x, ~ (16 <= x < 20) -> zget g' x = zget g x) /\
  holds (zget g') 16 (le 4 (Crc32.crc32a_calc (poke 16 (zeros 4) (slice 0 92 g')))).
Proof.
  intros F Hg. unfold header_checksum. assert (Ei : getint 12 g = 92).
  { unfold getint. rewrite (slice_word 12 92) by (done || lia || apply F). done. }
  rewrite Ei. unfold writes, setint. cbn [fold_left fst snd]. set (c := Crc32.crc32a_calc _). set (g1 := poke 16 (le 4 0) g) in *.
  assert (L1 : zlen g1 = zlen g) by (apply zlen_poke; rewrite ?le_length; lia). assert (L2 : zlen (poke 16 (le 4 c) g1) = zlen g) by (rewrite zlen_poke; rewrite ?le_length; lia).
  split; [done|]. split.
  - intros x Hx. rewrite zget_poke by (rewrite ?le_length; lia). rewrite le_length. replace ((16 <=? x) && _) with false by lia.
    unfold g1. rewrite zget_poke by (rewrite ?le_length; lia). rewrite le_length. by replace ((16 <=? x) && _) with false by lia.
  - replace (poke 16 (zeros 4) (slice 0 92 (poke 16 (le 4 c) g1))) with (slice 0 92 g1); [apply holds_poke; rewrite ?le_length; lia|].
    assert (Z4 : zlen (zeros 4) = 4) by done. apply bytes_ext.
    + rewrite zlen_poke, !zlen_slice by (rewrite ?zlen_slice; lia). done.
    + rewrite zlen_slice by lia. intros i Hi. rewrite zget_poke by (rewrite ?zlen_slice; lia). rewrite Z4. destruct (Z.leb_spec 16 i), (Z.ltb_spec i (16 + 4)); cbn [andb].
      1: { rewrite zget_zeros, zget_slice by lia. unfold g1. rewrite zget_poke by (rewrite ?le_length; lia). rewrite le_length.
           replace ((16 <=? 0 + i) && _) with true by lia. change (le 4 0) with (zeros 4). by rewrite zget_zeros by lia. }
      all: rewrite !zget_slice by lia; rewrite zget_poke by (rewrite ?le_length; lia); rewrite le_length; by replace ((16 <=? 0 + i) && _) with false by lia.
Qed.

Lemma fields_header g my other table t : fields g my other table (Crc32.crc32a_calc t) -> 512 <= zlen g -> 0 <= my < 2 ^ 32 -> 0 <= other < 2 ^ 32 -> 0 <= table < 2 ^ 32 ->
  header_ok (slice 0 512 (header_checksum g)) my other table t.
Proof.
  intros F Hg Hm Ho Ht. destruct (header_checksum_ok g my other table _ F Hg) as (L&K&S). set (h := header_checksum g) in *. clearbody h.
  apply (fields_ext g h) in F; [|intros x _ Hx; by apply K]. set (b := slice 0 512 h).
  assert (Lb : zlen b = 512) by (apply zlen_slice; lia). assert (Kb : forall x, 0 <= x < 512 -> zget b x = zget h x) by (intros x Hx; by apply zget_slice).
  apply (fields_ext h b) in F; [|intros x Hx _; apply Kb; lia].
  assert (Sb : slice 0 92 b = slice 0 92 h).
  { apply bytes_ext; rewrite ?zlen_slice by lia; [done|]. intros i Hi. rewrite !zget_slice by lia. symmetry. apply Kb. lia. }
  rewrite <- Sb in S. assert (S' : holds (zget b) 16 (le 4 (Crc32.crc32a_calc (poke 16 (zeros 4) (slice 0 92 b))))).
  { eapply holds_ext; [|exact S]. rewrite le_length. intros x Hx. apply Kb. lia. }
  destruct F as [F1 F2 F3 F4 F5 F6 F7 F8]. clearbody b. pose proof MkcryptFacts.crc_word as Hc. unfold MkcryptFacts.word32 in Hc.
  split; [|apply slice_word|apply slice_long|apply slice_long|apply slice_long|apply slice_word|apply slice_word|apply slice_word|apply slice_word]; try done; try lia; try apply Hc.
  refine (slice_holds 0 (str "EFI PART") b _ _ F1); [done|]. rewrite Lb. done.
Qed.
Lemma write_int o c g : 0 <= o -> o + 4 <= zlen g ->
  zlen (writes [setint c o] g) = zlen g /\ (forall x, x < o \/ o + 4 <= x -> zget (writes [setint c o] g) x = zget g x).
Proof.
  intros Ho Hg. rewrite writes_pokes. assert (HI : in_range (rev [setint c o]) g) by (cbn [app rev]; unfold setint; outs).
  split; [by apply zlen_pokes|]. intros x Hx. apply (pokes_outside _ g o 4); [done| |done]. cbn [app rev]. unfold setint. outs.
Qed.

Lemma header_range ds : Forall (fun w => 0 <= w.1 /\ w.1 + zlen w.2 <= 512) (gpt_header ds).
Proof. unfold gpt_header, setint. outs. Qed.
Lemma header_writes ds n : 512 <= n -> zlen (writes (gpt_header ds) (zeros n)) = n /\ (forall i, 512 <= i < zlen (writes (gpt_header ds) (zeros n)) -> zget (writes (gpt_header ds) (zeros n)) i = Some 0).
Proof.
  intros Hn. assert (Ln : zlen (zeros n) = n) by (apply zlen_zeros; lia). pose proof (Forall_rev (header_range ds)) as HP.
  assert (HI : in_range (rev (gpt_header ds)) (zeros n)) by (eapply Forall_impl; [exact HP|]; cbn; lia). rewrite writes_pokes.
  rewrite zlen_pokes, Ln by done. split; [done|]. intros i Hi. rewrite (pokes_outside _ _ 0 512); [by apply zget_zeros; lia|done|done|lia].
Qed.

(** The header as the code fills it in. *)
Lemma fields_first ds n : 512 <= n -> fields (writes (gpt_header ds) (zeros n)) 1 (ds / 512 - 1) 2 0xDEADCC32.
Proof.
  intros Hn. assert (Ln : zlen (zeros n) = n) by (apply zlen_zeros; lia). unfold gpt_header. rewrite writes_pokes. set (ws := rev _).
  assert (HI : in_range ws (zeros n)) by (unfold ws, in_range; rewrite Ln; cbn [app rev]; unfold setint; outs). unfold ws in *. clear ws.
  assert (Z0 : forall v k, 0 <= v -> 0 <= k -> v + k <= n -> holds (zget (zeros n)) v (zeros k)).
  { intros v k Hv Hk Hl i b Hb. apply zeros_zget in Hb as [-> Hi]. apply zget_zeros. lia. }
  cbn [app rev] in *. unfold setint in *. split; rewrite ?holds_app, ?le_length; repeat split; poked HI; apply Z0; lia.
Qed.
Lemma fields_sum g my other table s c : fields g my other table s -> 92 <= zlen g -> fields (writes [setint c 88] g) my other table c.
Proof.
  intros [F1 F2 F3 F4 F5 F6 F7 F8] Hg. rewrite writes_pokes. assert (HI : in_range (rev [setint c 88]) g) by (cbn [app rev]; unfold setint; outs).
  cbn [app rev] in *. unfold setint in *. split; poked HI; done.
Qed.
Lemma getint_fields g my other table s : fields g my other table s -> 92 <= zlen g -> 0 <= my < 2 ^ 31 -> 0 <= other < 2 ^ 31 -> getint 24 g = my /\ getint 32 g = other.
Proof.
  intros [F1 F2 F3 F4 F5 F6 F7 F8] Hg Hm Ho. apply holds_app in F3 as [F3 _], F4 as [F4 _]. unfold getint.
  rewrite (slice_word 24 my), (slice_word 32 other) by (done || lia). by rewrite !s32_small by done.
Qed.
(** The header of the copy. *)
Lemma fields_second g my other table s t' : fields g my other table s -> 512 <= zlen g -> 0 <= my < 2 ^ 31 -> 0 <= other < 2 ^ 31 ->
  fields (writes [setint other 24; setint t' 72] (writes [setint (getint 24 g) 32] g)) other my t' s.
Proof.
  intros F Hg Hm Ho. destruct (getint_fields _ _ _ _ _ F ltac:(lia) Hm Ho) as [-> _]. destruct F as [F1 F2 F3 F4 F5 F6 F7 F8].
  change (writes [setint other 24; setint t' 72] (writes [setint my 32] g)) with (writes [setint my 32; setint other 24; setint t' 72] g).
  rewrite writes_pokes. set (ws := rev _). assert (HI : in_range ws g) by (unfold ws; cbn [app rev]; unfold setint; outs). unfold ws in *. clear ws.
  apply holds_app in F3 as [_ F3], F4 as [_ F4], F5 as [_ F5]. rewrite le_length in F3, F4, F5.
  cbn [app rev] in *. unfold setint in *. split; rewrite ?holds_app, ?le_length; repeat split; poked HI; done.
Qed.

(** The table and both headers.  [n] is the number of sectors. *)
Lemma gpt_ok hu x ds : 0 < ds < 2 ^ 40 -> ds mod 512 = 0 -> 32768 <= ds -> read_size (espfile x) mod 512 = 0 ->
  let n := ds / 512 in let g0 := writes (gpt_header ds) (zeros (gs true + 512)) in
  exists g, checksums (gpt_table hu true x g0) = Some g /\ zlen g = 32768 /\
  header_ok (slice 0 512 g) 1 (n - 1) 2 (slice 512 (248 * 128) g) /\
  header_ok (slice 0 512 (second_header true ds g)) (n - 1) 1 (n - 63) (slice 512 (248 * 128) g) /\ zlen (second_header true ds g) = 32768 /\
  (forall k m, sizes x !! k = Some m -> entry g (512 + 128 * Z.of_nat k) (128 + total (take k (sizes x)) / 512) (127 + (total (take k (sizes x)) + m) / 512)).
Proof.
  intros Hd Hm Hl He n g0. pose proof (fields_first ds 32768 ltac:(lia)) as F0. change (gs true + 512) with 32768 in g0. fold g0 in F0.
  destruct (header_writes ds 32768 ltac:(lia)) as [L0 Z0]. fold g0 in L0, Z0.
  destruct (gpt_table_ok hu true x g0 Z0 ltac:(lia) He) as (p&j&T). set (gt := gpt_table hu true x g0) in *. destruct T as [LT _ _ ET _ HT]. cbn [fst snd] in *. clearbody gt g0.
  apply (fields_ext _ gt) in F0; [|intros i Hi _; apply HT; lia].
  unfold checksums. assert (E80 : default 0 (zget gt 80) = 248 /\ default 0 (zget gt 84) = 128).
  { pose proof (fi_count _ _ _ _ _ F0 0 248 eq_refl) as E1. pose proof (fi_entry _ _ _ _ _ F0 0 128 eq_refl) as E2. rewrite Z.add_0_r in E1, E2. by rewrite E1, E2. }
  destruct E80 as [-> ->]. replace (zlen gt <? 512 + 248 * 128) with false by lia. set (t := slice 512 (248 * 128) gt).
  apply (fields_sum _ _ _ _ _ (Crc32.crc32a_calc t)) in F0; [|lia]. set (g1 := writes _ gt) in *.
  destruct (write_int 88 (Crc32.crc32a_calc t) gt) as [L1 K1]; [lia|lia|]. fold g1 in L1, K1.
  clearbody g1. destruct (header_checksum_ok g1 _ _ _ _ F0 ltac:(lia)) as (L2&K2&_).
  assert (Et : slice 512 (248 * 128) (header_checksum g1) = t).
  { unfold t. apply bytes_ext; rewrite !zlen_slice by lia; [done|]. intros i Hi. rewrite !zget_slice by lia. by rewrite K2, K1 by lia. }
  pose proof (fields_header g1 1 (n - 1) 2 t F0 ltac:(lia) ltac:(lia) ltac:(lia) ltac:(lia)) as HO.
  apply (fields_ext _ (header_checksum g1)) in F0; [|intros i _ Hi; by apply K2]. set (h := header_checksum g1) in *. clearbody h.
  exists h. split; [done|]. split; [lia|]. rewrite Et. split; [exact HO|].
  unfold second_header. destruct (getint_fields _ _ _ _ _ F0) as [E24 E32]; [lia|lia|unfold n; lia|]. rewrite E32.
  pose proof (fields_second h 1 (n - 1) 2 _ ((ds - gs true) / 512) F0 ltac:(lia) ltac:(lia) ltac:(unfold n; lia)) as F3.
  destruct (write_int 32 (getint 24 h) h) as [L4 _]; [lia|lia|]. set (h4 := writes _ h) in *. clearbody h4.
  assert (L5 : zlen (writes [setint (n - 1) 24; setint ((ds - gs true) / 512) 72] h4) = 32768).
  { rewrite writes_pokes, zlen_pokes; [lia|]. cbn [app rev]. unfold setint. outs. }
  set (h5 := writes _ h4) in *. clearbody h5. replace ((ds - gs true) / 512) with (n - 63) in F3 by (unfold n, gs; lia).
  split; [apply fields_header; [done|lia|unfold n; lia..]|]. split; [by rewrite (proj1 (header_checksum_ok _ _ _ _ _ F3 ltac:(lia)))|].
  intros k m Hk. pose proof (ET k m Hk) as E. replace ((65536 - 512 + total (take k (sizes x))) / 512 + 1) with (128 + total (take k (sizes x)) / 512) in E by lia.
  replace ((65536 - 512 + total (take k (sizes x)) + m) / 512) with (127 + (total (take k (sizes x)) + m) / 512) in E by lia.
  eapply entry_ext; [|exact E]. intros i Hi. by rewrite K2, K1 by lia.
Qed.
(** ** Boot code *)

Lemma marked_inside b i l : Forall (fun m => 0 <= i + m.1 < zlen b) l -> exists r, marked b i l = Some r.
Proof.
  induction 1 as [|[k c] l Hk _ IH]; [by exists true|]. cbn [marked fst] in *. destruct (zget_is_Some b (i + k) Hk) as [x ->].
  destruct (x =? c); [done|by exists false].
Qed.

(** The search ends within the file. *)
Lemma find_boot_inside fuel b n i : 0 <= i -> i mod 512 = 0 -> 512 <= n < 2 ^ 63 -> n mod 512 = 0 -> n <= zlen b -> n <= i + 512 * Z.of_nat fuel -> (0 < fuel)%nat ->
  exists r, find_boot fuel b n i = Some r.
Proof.
  intros Hi Hm Hn Hn' Hb. revert i Hi Hm. induction fuel as [|fuel IH]; intros i Hi Hm Hf H0; [lia|]. cbn [find_boot].
  assert (Eu : u64 (n - 512) = n - 512) by (unfold u64, wrap; apply Z.mod_small; lia). rewrite Eu. destruct (Z.ltb_spec i (n - 512)) as [Hl|Hl]; [|by exists None].
  destruct (marked_inside b i marks) as [[|] ->]; [|by exists (Some i)|apply IH; lia].
  unfold marks. repeat (apply List.Forall_cons; [cbn [fst]; lia|]). apply List.Forall_nil.
Qed.

Definition whole (f : option (list Z)) : Prop := read_size f mod 512 = 0 /\ read_size f < 2 ^ 40.
Lemma search_boot_ends f : whole f -> exists r, search_boot f = Some r.
Proof.
  intros [Hm Hs]. unfold search_boot. destruct f as [d|]; [|by exists None]. cbn [readfileall fmap option_fmap option_map read_size] in *.
  destruct (Z.ltb_spec 0 (zlen d)) as [H0|H0]; [|by exists None]. pose proof (zlen_zeros (secsize + 1) ltac:(done)) as Lz. change (secsize + 1) with 4097 in *.
  apply find_boot_inside; rewrite ?zlen_app, ?Lz; try done; lia.
Qed.
Lemma stage2_ends neediso x : whole (espfile x) -> whole (sys1file x) -> exists r, stage2 neediso x = Some r.
Proof.
  intros H1 H2. unfold stage2. destruct (search_boot_ends _ H1) as [[i|] ->]; [by eexists|]. destruct (search_boot_ends _ H2) as [[i|] ->]; by eexists.
Qed.

(** The same file, but for its first sector. *)
Definition same_file (f f' : option (list Z)) : Prop :=
  match f, f' with
  | Some d, Some d' => zlen d' = zlen d /\ forall i, 512 <= i -> zget d' i = zget d i
  | None, None => True
  | _, _ => False
  end.
Lemma same_file_refl f : same_file f f.
Proof. by destruct f. Qed.
Lemma same_file_size f f' : same_file f f' -> read_size f' = read_size f.
Proof. destruct f, f'; cbn; tauto. Qed.

Record same_files (x x' : files_t) : Prop := mk_same_files {
  sf_esp : same_file (espfile x) (espfile x'); sf_sys1 : same_file (sys1file x) (sys1file x'); sf_usr1 : same_file (usr1file x) (usr1file x');
  sf_sys2 : sys2file x' = sys2file x; sf_usr2 : usr2file x' = usr2file x; sf_var : varfile x' = varfile x; sf_home : homefile x' = homefile x;
}.

Lemma keep_same d b : zlen b = zlen (d ++ zeros (secsize + 1)) -> (forall i, 512 <= i -> zget b i = zget (d ++ zeros (secsize + 1)) i) ->
  same_file (Some d) (Some (take (Z.to_nat (zlen d)) b)).
Proof.
  intros Hl H. rewrite zlen_app in Hl. pose proof (zlen_nonneg (zeros (secsize + 1))) as Hz. pose proof (zlen_nonneg d) as Hd.
  assert (Lt : zlen (take (Z.to_nat (zlen d)) b) = zlen d) by (unfold zlen in *; rewrite length_take; lia). split; [done|].
  intros i Hi. destruct (Z.ltb_spec i (zlen d)) as [Hi'|Hi'].
  - change (take (Z.to_nat (zlen d)) b) with (slice 0 (zlen d) b). rewrite zget_slice by lia. rewrite Z.add_0_l, H by done. by apply zget_app_l.
  - destruct (zget d i) as [y|] eqn:E; [apply zget_Some_lt in E; lia|]. destruct (zget (take _ b) i) as [y|] eqn:E'; [apply zget_Some_lt in E'; lia|done].
Qed.

(** Copying the loader changes nothing but the first sector of a partition. *)
Lemma copy_vbr_same b x x' : 512 <= zlen b -> copy_vbr b x = Some x' -> same_files x x'.
Proof.
  intros Hb. unfold copy_vbr. destruct (_ =? 0); [intros [= <-]; by split; try apply same_file_refl|].
  assert (Lz : zlen (zeros (secsize + 1)) = 4097) by done. assert (Hl : forall (d : list Z), zlen (d ++ zeros (secsize + 1)) = zlen d + 4097) by (intros d; by rewrite zlen_app, Lz).
  assert (S1 : zlen (slice 0 512 b) = 512) by (apply zlen_slice; lia).
  assert (Hk : forall (d : list Z), same_file (Some d) (Some (take (Z.to_nat (zlen d)) (poke 0 (slice 0 512 b) (d ++ zeros (secsize + 1)))))).
  { intros d. pose proof (zlen_nonneg d). apply keep_same; [by rewrite zlen_poke by (rewrite ?Hl; lia)|]. intros i Hi. rewrite zget_poke by (rewrite ?Hl; lia).
    by replace ((0 <=? i) && _) with false by lia. }
  destruct (0 <? read_size (espfile x)) eqn:E1.
  { intros [= <-]. split; cbn; try apply same_file_refl; try done. destruct (espfile x) as [d|]; [|done]. cbn [readfileall fmap option_fmap option_map read_size].
    assert (S2 : zlen (slice 0 11 b) = 11) by (apply zlen_slice; lia). assert (S3 : zlen (slice 0x5A (512 - 0x5A) b) = 422) by (apply zlen_slice; lia).
    pose proof (zlen_nonneg d). apply keep_same; unfold writes; cbn [fold_left fst snd]; rewrite ?zlen_poke; rewrite ?zlen_poke; rewrite ?Hl; try lia.
    intros i Hi. rewrite !zget_poke; rewrite ?zlen_poke; rewrite ?Hl; try lia. rewrite S2, S3.
    replace ((0x5A <=? i) && _) with false by lia. by replace ((0 <=? i) && _) with false by lia. }
  destruct (0 <? read_size (sys1file x)) eqn:E2.
  { intros [= <-]. split; cbn; try apply same_file_refl; try done. destruct (sys1file x) as [d|]; [|done]. apply Hk. }
  destruct (usr1file x) as [d|] eqn:E3; cbn [readfileall fmap option_fmap option_map]; [|done].
  intros [= <-]. split; cbn; try apply same_file_refl; try done. rewrite E3. apply Hk.
Qed.

Lemma zlen_writes ws b : in_range ws b -> zlen (writes ws b) = zlen b.
Proof. intros H. rewrite writes_pokes. apply zlen_pokes. by apply Forall_rev. Qed.
Ltac in_block L := unfold in_range; rewrite ?L; unfold setint, setinte, Mkdisk.byte, fill; outs.

Lemma loader_length bbs x : 512 <= zlen (loader bbs x).
Proof.
  unfold loader. set (b := match readfileall (stage1 x) with Some _ => _ | None => _ end). assert (Lb : 512 <= zlen b).
  { unfold b, readfileall. destruct (stage1 x) as [d|]; cbn [fmap option_fmap option_map]; [|done]. pose proof (zlen_nonneg d).
    assert (Hl : zlen (d ++ zeros (secsize + 1)) = zlen d + 4097) by by rewrite zlen_app. rewrite zlen_poke; rewrite ?Hl; change (zlen (zeros (0x1FE - 0x1B8))) with 70; lia. }
  clearbody b. rewrite zlen_writes; [done|]. in_block Lb.
Qed.
Lemma mbr_length neediso x b : 512 <= zlen b -> 512 <= zlen (mbr neediso x b).
Proof.
  intros Hb. unfold mbr. cbv zeta. assert (H : forall ws (b : list Z), 512 <= zlen b -> in_range ws (zeros 512) -> 512 <= zlen (writes ws b)).
  { intros ws b' Hb' Hw. rewrite zlen_writes; [done|]. eapply Forall_impl; [exact Hw|]. change (zlen (zeros 512)) with 512. cbn. lia. }
  assert (L5 : zlen (zeros 512) = 512) by done.
  destruct (0 <? read_size (espfile x)), (0 <? read_size (sys1file x)), (read_size (espfile x) =? 0); repeat (apply H; [|in_block L5]); done.
Qed.
Lemma digits_length n v : zlen (digits n v) = Z.of_nat n.
Proof. revert v. induction n as [|n IH]; intros v; [done|]. cbn [digits]. rewrite zlen_app, IH. change (zlen [_]) with 1. lia. Qed.
Lemma iso_length ts x : zlen (iso_image ts x) = 32768.
Proof.
  unfold iso_image. rewrite zlen_writes; [done|]. assert (L : zlen (zeros 32768) = 32768) by done.
  assert (Li : zlen (isodate ts) = 16) by (unfold isodate; rewrite !zlen_app, !digits_length; done).
  assert (Le : forall v, zlen (le 4 v ++ rev (le 4 v)) = 8) by (intros v; rewrite zlen_app; unfold zlen at 2; rewrite length_rev; by rewrite le_length).
  unfold iso_volume, iso_boot, iso_root, iso_time. set (d := isodate ts) in *. clearbody d. unfold in_range. rewrite L. rewrite !Forall_app. unfold setint, setinte, Mkdisk.byte, fill.
  repeat split; repeat (apply List.Forall_cons; [cbn [fst snd]; rewrite ?Le, ?Li, ?le_length; zl|]); apply List.Forall_nil.
Qed.
(** ** The disk *)

(** The partitions that are there, in the order of the table. *)
Definition shown (c : list Z) : list (list Z) := if 0 <? zlen c then [c] else [].
Definition present (swap : list Z) (x : files_t) : list (list Z) :=
  flat_map shown (take 5 (partitions swap x)) ++ drop 5 (partitions swap x).

Lemma concat_shown l : concat (flat_map shown l) = concat l.
Proof.
  induction l as [|c l IH]; [done|]. cbn [flat_map]. rewrite concat_app, IH. cbn [concat]. f_equal. unfold shown.
  destruct (Z.ltb_spec 0 (zlen c)) as [H|H]; cbn [concat]; [by rewrite app_nil_r|]. destruct c; [done|]. rewrite zlen_cons in H. pose proof (zlen_nonneg c). lia.
Qed.
Lemma present_concat swap x : concat (present swap x) = concat (partitions swap x).
Proof. unfold present. rewrite concat_app, concat_shown, <- concat_app. by rewrite take_drop. Qed.
Lemma file_size f : zlen (default [] f) = read_size f.
Proof. by destruct f. Qed.
Lemma present_sizes swap x : zlen swap = swap_size -> List.map zlen (present swap x) = sizes x.
Proof.
  intros Hs. unfold present, sizes, partitions. cbn [take drop flat_map]. rewrite !map_app. cbn [List.map]. rewrite !file_size, Hs, <- !app_assoc.
  assert (H : forall f, List.map zlen (shown (default [] f)) = nonzero (read_size f)).
  { intros f. unfold shown, nonzero. rewrite file_size. destruct (0 <? read_size f); [cbn; by rewrite file_size|done]. }
  by rewrite !H.
Qed.
Lemma concat_total (l : list (list Z)) : zlen (concat l) = total (List.map zlen l).
Proof. induction l as [|c l IH]; [done|]. rewrite zlen_concat_cons, IH. done. Qed.
Lemma disk_size_eq swap x : zlen swap = swap_size -> disk_size true x = 97792 + zlen (concat (partitions swap x)).
Proof.
  intros Hs. unfold disk_size, partitions. cbn [concat]. rewrite !zlen_app, !file_size, Hs. change (zlen []) with 0. change (gs true) with 32256. lia.
Qed.

Definition first_lba (d : list Z) (k : nat) : Z := of_le (slice (1024 + 128 * Z.of_nat k + 32) 8 d).
Definition last_lba (d : list Z) (k : nat) : Z := of_le (slice (1024 + 128 * Z.of_nat k + 40) 8 d).

(** A disk with the partitions of [x]: two tables of partitions, the second one a copy of the
    first, that are valid, and entries that name the sectors with the partitions, one after the
    other from the sector 128 on. *)
Record disk_ok (swap : list Z) (x : files_t) (d : list Z) : Prop := mk_disk_ok {
  dk_len : zlen d = disk_size true x;
  dk_first : let n := zlen d / 512 in header_ok (slice 512 512 d) 1 (n - 1) 2 (slice 1024 (248 * 128) d);
  dk_second : let n := zlen d / 512 in header_ok (slice (512 * (n - 1)) 512 d) (n - 1) 1 (n - 63) (slice (512 * (n - 63)) (248 * 128) d);
  dk_copy : let n := zlen d / 512 in slice (512 * (n - 63)) (248 * 128) d = slice 1024 (248 * 128) d;
  dk_part k c : present swap x !! k = Some c ->
    first_lba d k = 128 + zlen (concat (take k (present swap x))) / 512 /\ last_lba d k = first_lba d k + zlen c / 512 - 1 /\
    slice (512 * first_lba d k) (512 * (last_lba d k + 1 - first_lba d k)) d = c;
}.

Lemma slice_part (l : list Z) (a b c : list Z) o n : l = a ++ b ++ c -> o = zlen a -> n = zlen b -> slice o n l = b.
Proof. intros ->. apply slice_mid. Qed.

Lemma part_split (l : list (list Z)) k c : l !! k = Some c -> concat l = concat (take k l) ++ c ++ concat (drop (S k) l).
Proof. intros H. rewrite <- (take_drop_middle l k c H) at 1. by rewrite concat_app. Qed.

Lemma whole_sizes x k : Forall (fun f => whole f) [espfile x; sys1file x; sys2file x; usr1file x; usr2file x; varfile x; homefile x] -> total (take k (sizes x)) mod 512 = 0.
Proof.
  intros H. assert (Hs : Forall (fun n => n mod 512 = 0) (sizes x)).
  { assert (Hn : forall n, n mod 512 = 0 -> Forall (fun n => n mod 512 = 0) (nonzero n)) by (intros n Hn; unfold nonzero; destruct (0 <? n); [by apply List.Forall_cons|done]).
    rewrite !Forall_cons in H. destruct H as ([? _]&[? _]&[? _]&[? _]&[? _]&[? _]&[? _]&_). unfold sizes. rewrite !Forall_app. repeat split; try by apply Hn. repeat (apply List.Forall_cons; [done|]). apply List.Forall_nil. }
  apply (Forall_take _ k) in Hs. induction Hs as [|n l Hn _ IH]; [done|]. unfold total in *. cbn [foldr]. lia.
Qed.
Lemma disk_layout swap x b g i h d : zlen swap = swap_size -> Forall whole [espfile x; sys1file x; sys2file x; usr1file x; usr2file x; varfile x; homefile x] ->
  zlen (concat (partitions swap x)) < 2 ^ 39 -> let n := disk_size true x / 512 in
  zlen b = 512 -> zlen g = 32768 -> zlen i = 32768 -> zlen h = 512 ->
  header_ok (slice 0 512 g) 1 (n - 1) 2 (slice 512 (248 * 128) g) -> header_ok h (n - 1) 1 (n - 63) (slice 512 (248 * 128) g) ->
  (forall k m, sizes x !! k = Some m -> entry g (512 + 128 * Z.of_nat k) (128 + total (take k (sizes x)) / 512) (127 + (total (take k (sizes x)) + m) / 512)) ->
  d = b ++ slice 0 32256 g ++ i ++ concat (partitions swap x) ++ slice 512 31744 g ++ h -> disk_ok swap x d.
Proof.
  intros Hs Hw Hb n Lb Lg Li Lh H1 H2 HE Ed. pose proof (disk_size_eq swap x Hs) as Dn. pose proof (present_sizes swap x Hs) as Ps. pose proof (present_concat swap x) as Pc.
  pose proof (zlen_nonneg (concat (partitions swap x))) as P0. assert (L1 : zlen (slice 0 32256 g) = 32256) by (apply zlen_slice; lia). assert (L2 : zlen (slice 512 31744 g) = 31744) by (apply zlen_slice; lia).
  assert (Pm : zlen (concat (partitions swap x)) mod 512 = 0).
  { rewrite <- Pc, concat_total, Ps. pose proof (whole_sizes x (length (sizes x)) Hw) as E. by rewrite firstn_all in E. }
  assert (Ld : zlen d = disk_size true x) by (rewrite Ed, !zlen_app, Lb, L1, Li, L2, Lh, Dn; lia).
  assert (E1 : slice 512 32256 d = slice 0 32256 g) by (eapply (slice_part d b); [exact Ed|lia|lia]).
  assert (K : forall o m, 0 <= o -> 0 <= m -> o + m <= 32256 -> slice (512 + o) m d = slice o m g).
  { intros o m Ho Hm Hl. apply bytes_ext; rewrite !zlen_slice by lia; [done|]. intros y Hy. rewrite !zget_slice by lia.
    assert (E2 : zget (slice 512 32256 d) (o + y) = zget (slice 0 32256 g) (o + y)) by by rewrite E1. rewrite !zget_slice in E2 by lia. by rewrite <- Z.add_assoc, E2. }
  assert (Et : slice 1024 (248 * 128) d = slice 512 (248 * 128) g) by (apply (K 512); lia). assert (Hn : zlen d / 512 = n) by by rewrite Ld.
  assert (Et2 : slice (512 * (n - 63)) (248 * 128) d = slice 512 (248 * 128) g).
  { eapply (slice_part d (b ++ slice 0 32256 g ++ i ++ concat (partitions swap x)) _ h); [by rewrite Ed, <- !app_assoc| |change (248 * 128) with 31744; lia].
    rewrite !zlen_app, Lb, L1, Li. unfold n. lia. }
  assert (Eh : slice (512 * (n - 1)) 512 d = h).
  { eapply (slice_part d (b ++ slice 0 32256 g ++ i ++ concat (partitions swap x) ++ slice 512 31744 g) _ []); [by rewrite Ed, app_nil_r, <- !app_assoc| |lia].
    rewrite !zlen_app, Lb, L1, Li, L2. unfold n. lia. }
  split; cbv zeta; rewrite ?Hn; [done|rewrite Et; change 512 with (512 + 0) at 1; by rewrite (K 0 512) by lia|by rewrite Et2, Eh|by rewrite Et, Et2|].
  intros k c Hk. assert (Hsz : sizes x !! k = Some (zlen c)) by (rewrite <- Ps, list_lookup_fmap; by rewrite Hk).
  assert (Ht : total (take k (sizes x)) = zlen (concat (take k (present swap x)))) by (rewrite concat_total, <- firstn_map, Ps; done).
  destruct (HE _ _ Hsz) as [F1 F2]. rewrite Ht in F1, F2. set (o := zlen (concat (take k (present swap x)))) in *.
  pose proof (part_split _ _ _ Hk) as Hsplit. assert (Hlen : zlen (concat (partitions swap x)) = o + zlen c + zlen (concat (drop (S k) (present swap x)))).
  { rewrite <- Pc, Hsplit, !zlen_app. fold o. lia. }
  assert (Om : o mod 512 = 0) by (rewrite <- Ht; by apply whole_sizes).
  assert (Cm : zlen c mod 512 = 0).
  { pose proof (whole_sizes x (S k) Hw) as E. rewrite (take_S_r _ _ _ Hsz), total_app, Ht in E. fold o in E. unfold total in E. cbn [foldr] in E. lia. }
  pose proof (zlen_nonneg c). pose proof (zlen_nonneg (concat (take k (present swap x)))). pose proof (zlen_nonneg (concat (drop (S k) (present swap x)))). fold o in H0.
  assert (Hk8 : Z.of_nat k < 8).
  { apply lookup_lt_Some in Hsz. unfold sizes in Hsz. rewrite !length_app in Hsz. pose proof (fun m => nonzero_length m) as Hnz. unfold zlen in Hnz.
    pose proof (Hnz (read_size (espfile x))). pose proof (Hnz (read_size (sys1file x))). pose proof (Hnz (read_size (sys2file x))). pose proof (Hnz (read_size (usr1file x))).
    pose proof (Hnz (read_size (usr2file x))). cbn [length] in Hsz. lia. }
  assert (Ef : first_lba d k = 128 + o / 512).
  { unfold first_lba. replace (1024 + 128 * Z.of_nat k + 32) with (512 + (512 + 128 * Z.of_nat k + 32)) by lia. rewrite K by lia. apply slice_long; [lia|lia|lia|exact F1]. }
  assert (El : last_lba d k = 127 + (o + zlen c) / 512).
  { unfold last_lba. replace (1024 + 128 * Z.of_nat k + 40) with (512 + (512 + 128 * Z.of_nat k + 40)) by lia. rewrite K by lia. apply slice_long; [lia|lia|lia|exact F2]. }
  rewrite Ef, El. split; [done|]. split; [lia|].
  eapply (slice_part d (b ++ slice 0 32256 g ++ i ++ concat (take k (present swap x))) _ (concat (drop (S k) (present swap x)) ++ slice 512 31744 g ++ h)).
  - by rewrite Ed, <- Pc, Hsplit, <- !app_assoc.
  - rewrite !zlen_app, Lb, L1, Li. fold o. lia.
  - lia.
Qed.
(** The mark of a boot record. *)
Definition marked_boot (b : list Z) : Prop := holds (zget b) 0x1FE [0x55; 0xAA].

Lemma loader_marked bbs x : marked_boot (loader bbs x).
Proof.
  unfold loader. set (b := match readfileall (stage1 x) with Some _ => _ | None => _ end). assert (Lb : 512 <= zlen b).
  { unfold b, readfileall. destruct (stage1 x) as [d|]; cbn [fmap option_fmap option_map]; [|done]. pose proof (zlen_nonneg d).
    assert (Hl : zlen (d ++ zeros (secsize + 1)) = zlen d + 4097) by by rewrite zlen_app. rewrite zlen_poke; rewrite ?Hl; change (zlen (zeros (0x1FE - 0x1B8))) with 70; lia. }
  clearbody b. rewrite writes_pokes. unfold marked_boot. set (ws := rev _). assert (HI : in_range ws b) by (unfold ws; cbn [app rev]; in_block Lb). unfold ws in *. clear ws.
  change [0x55; 0xAA] with ([0x55] ++ [0xAA]). apply holds_app. change (0x1FE + zlen [0x55]) with 0x1FF. cbn [app rev] in *. unfold setint, Mkdisk.byte in *. split; poked HI.
Qed.
Lemma mbr_marked neediso x b : 512 <= zlen b -> marked_boot b -> marked_boot (mbr neediso x b).
Proof.
  intros Hb HM. unfold mbr. cbv zeta. assert (L5 : zlen (zeros 510) = 510) by done.
  assert (H : forall ws (b : list Z), 512 <= zlen b /\ marked_boot b -> in_range ws (zeros 510) -> 512 <= zlen (writes ws b) /\ marked_boot (writes ws b)).
  { intros ws b' [Hb' HM'] Hw. unfold in_range in Hw. rewrite L5 in Hw. assert (HI : in_range ws b') by (eapply Forall_impl; [exact Hw|]; cbn; lia).
    split; [by rewrite zlen_writes|]. eapply holds_ext; [|exact HM']. intros i Hi. rewrite writes_pokes. apply (pokes_outside _ _ 0 510); [by apply Forall_rev| |right; lia].
    apply Forall_rev. eapply Forall_impl; [exact Hw|]. cbn. lia. }
  match goal with |- marked_boot ?b' => cut (512 <= zlen b' /\ marked_boot b'); [by intros [_ ?]|] end.
  destruct (0 <? read_size (espfile x)), (0 <? read_size (sys1file x)), (read_size (espfile x) =? 0); repeat (apply H; [|in_block L5]); done.
Qed.

Lemma same_whole x x' : same_files x x' -> Forall whole [espfile x; sys1file x; sys2file x; usr1file x; usr2file x; varfile x; homefile x] ->
  Forall whole [espfile x'; sys1file x'; sys2file x'; usr1file x'; usr2file x'; varfile x'; homefile x'].
Proof.
  intros [S1 S2 S3 S4 S5 S6 S7]. rewrite !Forall_cons, !Forall_nil, S4, S5, S6, S7. unfold whole.
  by rewrite (same_file_size _ _ S1), (same_file_size _ _ S2), (same_file_size _ _ S3).
Qed.
Lemma same_total swap x x' : same_files x x' -> zlen (concat (partitions swap x')) = zlen (concat (partitions swap x)).
Proof.
  intros [S1 S2 S3 S4 S5 S6 S7]. unfold partitions. cbn [concat]. rewrite !zlen_app, !file_size, S4, S5, S6, S7.
  by rewrite (same_file_size _ _ S1), (same_file_size _ _ S2), (same_file_size _ _ S3).
Qed.

(** Without the room of a CD-ROM the entries that are counted do not fit the block. *)
Lemma small_table hu x ds : read_size (espfile x) mod 512 = 0 -> checksums (gpt_table hu false x (writes (gpt_header ds) (zeros (gs false + 512)))) = None.
Proof.
  intros He. change (gs false + 512) with 4096. pose proof (fields_first ds 4096 ltac:(lia)) as F0. set (g0 := writes _ _) in *.
  destruct (header_writes ds 4096 ltac:(lia)) as [L0 Z0]. fold g0 in L0, Z0.
  destruct (gpt_table_ok hu false x g0 Z0 ltac:(lia) He) as (p&j&[LT _ _ _ _ HT]). cbn [fst snd] in *. set (gt := gpt_table hu false x g0) in *. clearbody gt g0.
  apply (fields_ext _ gt) in F0; [|intros i Hi _; apply HT; lia]. unfold checksums.
  pose proof (fi_count _ _ _ _ _ F0 0 248 eq_refl) as E1. pose proof (fi_entry _ _ _ _ _ F0 0 128 eq_refl) as E2. rewrite Z.add_0_r in E1, E2. rewrite E1, E2.
  change (default 0 (Some 248)) with 248. change (default 0 (Some 128)) with 128. cbv zeta.
  destruct (Z.ltb_spec (zlen gt) (512 + 248 * 128)); [done|lia].
Qed.

(** C8: A disk of partitions that consist of whole sectors, together less than 512 GB, with the
    descriptors of a CD-ROM.  Either the second stage of the loader is not at a sector of a CD-ROM,
    and the tool ends with the code 3, or the disk can be read: its first sector is a boot record,
    both headers of the table of partitions are valid, with the right sums, and name each other and
    equal tables, and the entries name, one after the other from the sector 128 on, the sectors
    that hold the partitions, byte for byte but for the boot code in the first sector of one of
    them.  Without the descriptors the tool reads behind the table, whatever the partitions are:
    248 entries are counted, where there is room for 24. *)
Theorem disk_partitions_found (hu : bool) (ts : tm_t) (swap : list Z) (x : files_t)
  (Hs : zlen swap = swap_size)
  (Hw : Forall whole [espfile x; sys1file x; sys2file x; usr1file x; usr2file x; varfile x; homefile x])
  (Hb : zlen (concat (partitions swap x)) < 2 ^ 39)
  (Hv : 0 < read_size (espfile x) \/ 0 < read_size (sys1file x) \/ is_Some (usr1file x)) :
  match createdisk hu ts swap true x tt with
  | Ret d _ => marked_boot d /\ exists x', same_files x x' /\ disk_ok swap x' d
  | Exit c _ => c = 3 /\ exists s, stage2 true x = Some s /\ s mod 4 <> 0
  | _ => False
  end /\ createdisk hu ts swap false x tt = UB.
Proof.
  pose proof Hw as Hw'. rewrite !Forall_cons in Hw'. destruct Hw' as (W1&W2&_). split.
  - unfold createdisk. destruct (stage2_ends true x W1 W2) as [s Es]. rewrite Es. cbn [need]. unfold bind at 1. cbn [ret].
    pose proof (loader_length s x) as Ll. pose proof (loader_marked s x) as Ml. set (b := loader s x) in *. clearbody b.
    assert (Hc : exists x', copy_vbr b x = Some x').
    { unfold copy_vbr. destruct (_ =? 0); [by eexists|]. destruct (Z.ltb_spec 0 (read_size (espfile x))); [by eexists|].
      destruct (Z.ltb_spec 0 (read_size (sys1file x))); [by eexists|]. destruct Hv as [?|[?|[u ->]]]; [lia|lia|by eexists]. }
    destruct Hc as [x' Ec]. rewrite Ec. cbn [need]. unfold bind at 1. cbn [ret]. pose proof (copy_vbr_same _ _ _ Ll Ec) as Hx. cbv zeta.
    pose proof (same_whole _ _ Hx Hw) as Hw2. pose proof (same_total swap _ _ Hx) as Ht. pose proof (disk_size_eq swap x' Hs) as Dn.
    pose proof (zlen_nonneg (concat (partitions swap x'))) as P0. assert (Dm : disk_size true x' mod 512 = 0).
    { rewrite Dn, <- present_concat, concat_total, (present_sizes swap x' Hs). pose proof (whole_sizes x' (length (sizes x')) Hw2) as E. rewrite firstn_all in E. lia. }
    pose proof Hw2 as Hw3. apply Forall_cons in Hw3 as [[We _] _].
    destruct (gpt_ok hu x' (disk_size true x') ltac:(lia) Dm ltac:(lia) We) as (g&Eg&Lg&H1&H2&L2&HE). rewrite Eg. cbn [need]. unfold bind at 1. cbn [ret].
    pose proof (mbr_length true x' b Ll) as Lm. pose proof (mbr_marked true x' b Ll Ml) as Mm. set (m := mbr true x' b) in *. clearbody m.
    destruct (Z.eqb_spec (s mod 4) 0) as [E4|E4]; cbn [andb negb when]; unfold bind, ret, stop; [|split; [done|by exists s]].
    change (gs true) with 32256. change (32256 - 512) with 31744. split.
    + intros i y Hy. rewrite zget_app_l by (rewrite zlen_slice by lia; apply zget_Some_lt in Hy; change (zlen [0x55; 0xAA]) with 2 in Hy; lia).
      rewrite zget_slice by (apply zget_Some_lt in Hy; change (zlen [0x55; 0xAA]) with 2 in Hy; lia). by apply Mm.
    + exists x'. split; [done|]. eapply (disk_layout swap x' (slice 0 512 m) g (iso_image ts x') (slice 0 512 (second_header true (disk_size true x') g)));
        [done|done|by rewrite Ht|apply zlen_slice; lia|done|apply iso_length|apply zlen_slice; lia|exact H1|exact H2|exact HE|reflexivity].
  - unfold createdisk. destruct (stage2 false x) as [s|]; [|done]. cbn [need]. unfold bind at 1. cbn [ret].
    pose proof (loader_length s x) as Ll. destruct (copy_vbr (loader s x) x) as [x'|] eqn:Ec; [|done]. cbn [need]. unfold bind at 1. cbn [ret]. cbv zeta.
    pose proof (same_whole _ _ (copy_vbr_same _ _ _ Ll Ec) Hw) as Hw2. apply Forall_cons in Hw2 as [[We _] _]. by rewrite (small_table hu x' _ We).
Qed.
Definition disk_sample : files_t := mk_files None None (Some (repeat 65 1024)) None (Some (repeat 66 512)) None None (Some (repeat 67 1536)).
Lemma disk_partitions_found_witness :
  stage2 true disk_sample = Some 0 /\
  match createdisk false (mk_tm 117 0 1 0 0 0) (zeros 4096) true disk_sample tt with
  | Ret d _ => marked_boot d /\ exists x', same_files disk_sample x' /\ disk_ok (zeros 4096) x' d
  | Exit c _ => c = 3 /\ exists s, stage2 true disk_sample = Some s /\ s mod 4 <> 0
  | _ => False
  end /\ createdisk false (mk_tm 117 0 1 0 0 0) (zeros 4096) false disk_sample tt = UB.
Proof.
  split; [by vm_compute|]. apply (disk_partitions_found false (mk_tm 117 0 1 0 0 0) (zeros 4096) disk_sample).
  - done.
  - repeat (apply List.Forall_cons; [by split; vm_compute|]). apply List.Forall_nil.
  - by vm_compute.
  - right. left. by vm_compute.
Defined.
End MkdiskFacts.
